(* ===== verification/_CoqProject ===== *)
-Q . S2P
Prelude.v
Iqueue.v
Endian.v
Effects.v
KcpBase.v
KcpWire.v
KcpSend.v
KcpNumbered.v
KcpRecv.v
KcpAck.v
KcpInput.v
KcpInv.v
KcpFlush.v
KcpTypes.v
KcpFlushSpec.v
KcpUpdate.v
KcpPeer.v
KcpPeerOps.v
KcpEndpoint.v
KcpProtocol.v
Buffer.v
ZlibStream.v
StringPiece.v
ReadFile.v
Http.v
ControlSession.v
KcpDataSession.v
KcpProxy.v
KcpDesk.v
KcpServer.v
Channel.v
Poller.v
EPollPoller.v
PollPoller.v
EventLoop.v
TimerQueue.v
TimerInv.v
TimerRuns.v
TcpConnection.v
Monitor.v
BlockingQueue.v
ThreadPool.v
Date.v
TimeZone.v
LogStream.v
LogFile.v
AsyncLogging.v
Connector.v
InetAddress.v
Logging.v
Thread.v
Inspector.v
ProcessInspector.v
TcpServer.v
TcpClient.v
EventLoopThread.v
LoopLife.v
ProtobufCodec.v
RpcChannel.v
RpcServer.v
