(* ===== verification/Prelude.v ===== *)
(** * UdpSpeed: a verification development

    UdpSpeed carries TCP connections over UDP.  A proxy ([src/KcpProxy]) accepts
    clients and sends what they write through one UDP socket; a server
    ([src/KcpServer]) receives the datagrams, opens a connection to the
    destination for each client and relays in both directions.  Every client has
    a KCP session ([src/kcp/ikcp.c]), which makes the datagrams a reliable
    stream; one more KCP session, number 0, carries control messages
    ([src/kcp/ControlSession.cpp]) that create and end sessions.  Both programs
    run on the event loop, the buffers and the connections of the network library
    in [src/muduo].

    ** The files

    - [Prelude.v]: machine integers with their wrap-around written out, bytes,
      record update, outcomes (a value or a crash of the process), sorted
      association lists.  [Effects.v]: the monad of event handlers (state, actions,
      crashes) and its weakest preconditions.
    - KCP, [src/kcp/ikcp.c] and [ikcp.h].  [Iqueue.v]: the intrusive queue as
      pointer operations on a memory, refined to lists; the other files use lists
      for queues.  [KcpBase.v]: the control block [ikcpcb], creation and settings.
      [KcpWire.v]: the segment header.  [KcpSend.v]: [ikcp_send].  [KcpRecv.v]:
      [ikcp_parse_data], [ikcp_peeksize], [ikcp_recv].  [KcpAck.v]: round-trip times
      and acknowledgements.  [KcpInput.v]: [ikcp_input].  [KcpFlush.v]:
      [ikcp_flush], [ikcp_update], [ikcp_check].  [KcpTypes.v]: every field keeps
      its C type.
    - Theorems about KCP.  [KcpNumbered.v]: segments with unbounded sequence
      numbers, of which the 32-bit ones are the images.  [KcpInv.v]: the invariant
      of the control block under arbitrary input.  [KcpFlushSpec.v], [KcpUpdate.v]:
      what a flush sends, and when.  [KcpPeer.v], [KcpPeerOps.v],
      [KcpEndpoint.v], [KcpProtocol.v]: two endpoints and a network that loses,
      duplicates, reorders and delays datagrams, against the specification of a
      stream of messages.
    - [Endian.v], [Buffer.v]: [muduo/net/Endian.h], [Buffer.h], [Buffer.cc].
      [ZlibStream.v]: [muduo/net/ZlibStream.h], over a [Buffer].
    - [StringPiece.v]: [muduo/base/StringPiece.h].  [ReadFile.v]: [ReadSmallFile] of
      [muduo/base/FileUtil.cc].
    - [Http.v]: [muduo/net/http]: the parser of requests, responses, the handling
      of messages.
    - [ControlSession.v], [KcpDataSession.v], [KcpProxy.v], [KcpServer.v]: the two
      programs; every callback is a handler, and the events the library delivers
      are the constructors of a type.  [KcpDesk.v]: the specification of the runs
      of the proxy.
    - [Channel.v]: [muduo/net/Channel.h] and [.cc].  [Poller.v]: the interface of
      [muduo/net/Poller.h] as a class of operations and a class of laws;
      [EPollPoller.v] and [PollPoller.v] discharge the laws for the two
      implementations.
    - [EventLoop.v]: [muduo/net/EventLoop.h] and [.cc], with the interleavings of
      the loop's thread and other threads.  [TimerQueue.v]: timers
      ([muduo/net/Timer*.{h,cc}], [muduo/base/Timestamp.h]); [TimerInv.v] and
      [TimerRuns.v]: its theorems.
      [LoopLife.v]: the constructor and destructor of the loop over a poller.
    - [TcpConnection.v]: [muduo/net/TcpConnection.h] and [.cc].  [Connector.v]:
      [Connector.cc], with its retry timers.  [InetAddress.v]: [InetAddress.cc] and
      the address functions of [SocketsOps.cc].  [TcpServer.v]: [Acceptor.cc],
      [EventLoopThreadPool.cc], [TcpServer.cc], a Module each.  [TcpClient.v]:
      [TcpClient.cc], over the model of [Connector.v].
    - [ProtobufCodec.v]: [muduo/net/protobuf/ProtobufCodecLite.cc].  [RpcChannel.v]:
      [muduo/net/protorpc/RpcChannel.cc].  [RpcServer.v]: [RpcServer.cc], with a
      channel for each connection.
    - [Monitor.v]: threads that use a mutex and condition variables, for any class;
      [BlockingQueue.v] (both queues and [CountDownLatch]), [ThreadPool.v] and
      [EventLoopThread.v] are its instances, for the classes of these names in
      [muduo/base] and [muduo/net].  [Thread.v]: [Thread.cc], [Atomic.h], with the
      latch of [BlockingQueue.v].
    - [LogStream.v], [Logging.v] (with [CurrentThread.h] and the texts of
      [Timestamp.cc]), [LogFile.v] (with [FileUtil.cc]), [AsyncLogging.v]: logging,
      [muduo/base].  [Date.v], [TimeZone.v]: dates and zone files, [muduo/base].

    - [Inspector.v]: [muduo/net/inspect/Inspector.cc], a client of [Monitor.v] that
      answers requests of [Http.v].  [ProcessInspector.v]: [ProcessInspector.cc],
      [SystemInspector.cc] and [muduo/base/ProcessInfo.cc], what they read in
      [/proc].

    Record fields and functions have the names of the source, with a prefix where
    two classes share one.  A function that may end the process returns an
    [outcome]; an object that is shared by address is in a map by address.

    ** What the theorems show

    - KCP: whatever the network does, what a receiver delivers is a prefix of what
      its peer sent, message by message; neither endpoint crashes; nothing is lost
      from the queues ([KcpProtocol.v]).  Any bytes at all keep the control block
      consistent ([KcpInv.v]).  Flushing respects the window and the size of
      datagrams and retransmits on time, and [ikcp_check] names the next moment at
      which there is work ([KcpUpdate.v]); an acknowledgement removes exactly what
      it acknowledges ([KcpAck.v]); the receive buffer is a sorted set of segments
      ([KcpRecv.v]).
    - The programs.  The inverted loop condition of [ControlSession::parseMsg] loses
      every control message, so the proxy never sends and the server never acts
      ([proxy_never_sends], [server_never_acts]); what a run of the proxy leaves
      behind is exactly described in [KcpDesk.v].  The handlers that a repaired
      parser would reach are modelled and have lemmas as well: each keeps the
      tables of sessions consistent, data is relayed unchanged ([proxy_relays],
      [server_relays]) and commands do what they say ([control_commands],
      [server_commands]).  The events that end a process are theorems too.
    - The library: a [Buffer] is a queue of bytes; the two pollers ask the kernel
      the same, but for channels that ask for nothing; no wakeup of a running loop
      is lost and functors run once, in order; the timer queue runs exactly the
      timers that are due, and [addTimer] from another thread is the one call that
      can touch a deleted timer; the http parser does not depend on how its input is
      cut; a connection's callbacks come in order, and it
      writes exactly what [send] accepted.  Connections, servers, connectors and
      clients do not fail an assertion or use an object that is gone, whatever the
      network answers and however their loops interleave, as long as they are used
      within limits that the documentation of each theorem lists; what happens
      beyond them is a lemma next to it ([startRead_after_close],
      [server_destroyed_over_send], [server_called_after_delete],
      [second_start_fails], [delete_in_callback_fails] and others).
      The server's table is exact, the connector loses no socket.
      A compressed stream is read back; the operators of [StringPiece] are those of
      one total order; a file is read to its end or limit however reads are split.
    - Messages: the codec delivers what was framed however the stream is cut, up
      to the first error; between two channels of the program every RPC call ends,
      exactly once and after a bounded number of steps, and
      a server answers each request once, where it came from.
    - Threads: for any monitor, every run is a sequence of critical sections and no
      wakeup is lost; the queues are FIFO, the latch opens, a stopped pool ends its
      workers.  A thread never follows a pointer to an object its owner has
      destroyed, and runs its function once.  Theorems about defects name the calls
      that wait for ever.
    - The inspector is one table of commands, whatever its threads do; a stat file
      of a thread is read as the kernel prints it.
    - Logging and dates: under one time zone and with a clock past its first second
      a log statement does not fail, its line has the right time,
      stays in its buffer and is a sequence of whole items; the two threads of [AsyncLogging] keep lines whole and in order; day
      numbers and dates correspond; a zone file is read as the zone it describes, and
      the search in its transitions is right.

    ** Parameters, bounds and fuel

    The kernel is a parameter with documented laws: [readv] and [write] report no
    more than they were given, [epoll_ctl] keeps an interest list, [poll] reports
    channels that exist; the clock is any sequence of readings.  [new] is an
    allocator that may reuse addresses and may fail.  A user's callback is any
    list of calls.  Recursion is structural except for a few loops, which run on
    fuel - the number of bytes, segments or nodes that are left, which every round
    reduces; the theorems are about the functions with that fuel.
    The loops over a compressor and over a file return [None] without fuel, and
    their theorems say how much is enough.
    Timers have times within 2^61 microseconds of the epoch.

    The calls of RPC services, the encoders of protocol buffers, [adler32],
    [inet_pton] and [inet_ntop] are parameters; round trips are their only laws.
    zlib is a parameter with the promises of its manual (progress, a bound on the
    output, a round trip).

    ** Not modelled

    Functions that make one system call and return its result; timed waits; the
    overview pages of the inspectors, which print one value after the other;
    [GzipFile], singletons and stack traces, which call a library; the generated protocol buffer code; the main and
    test programs.
    The assertion that a call is made on the loop's thread is part of
    [LoopLife.v] and [TcpServer.v], elsewhere an assumption. *)

From Stdlib Require Export ZArith Lia.
From Stdlib Require Export Sorting.Sorted.
From stdpp Require Export base tactics option list numbers gmap sorting.
From Stdlib Require Import Strings.Byte.

#[global] Open Scope Z_scope.

(** ** Machine integers

    A C integer of width [w] is a [Z]; the wrap-around of every assignment,
    cast and arithmetic operation is written out with the functions below
    (4294967296 is 2^32).  Conversions to a signed type use the two's
    complement representation every compiler the build supports uses. *)

Definition u8 (z : Z) : Z := z mod 256.
Definition u16 (z : Z) : Z := z mod 65536.
Definition u32 (z : Z) : Z := z mod 4294967296.
Definition u64 (z : Z) : Z := z mod 18446744073709551616.
Definition s32 (z : Z) : Z := (z + 2147483648) mod 4294967296 - 2147483648.
Definition s64 (z : Z) : Z :=
  (z + 9223372036854775808) mod 18446744073709551616 - 9223372036854775808.

Definition is_u8 (z : Z) : Prop := 0 <= z < 256.
Definition is_u16 (z : Z) : Prop := 0 <= z < 65536.
Definition is_u32 (z : Z) : Prop := 0 <= z < 4294967296.
Definition is_u64 (z : Z) : Prop := 0 <= z < 18446744073709551616.
Definition is_s32 (z : Z) : Prop := -2147483648 <= z < 2147483648.

(** The arithmetic tactic of the development: unfold the wrap-around
    functions, turn every [mod] and [div] by a constant into its defining
    inequalities, and call [lia]. *)
Ltac word_unfold :=
  unfold u8, u16, u32, u64, s32, s64, is_u8, is_u16, is_u32, is_u64, is_s32 in *.
Ltac word := word_unfold; Z.div_mod_to_equations; lia.

(** The conditions of the code are booleans; [bdestruct] turns the boolean
    test [b] into the proposition it decides, in both branches. *)
Ltac reflect_bools :=
  repeat match goal with
  | H : (_ =? _) = true |- _ => apply Z.eqb_eq in H
  | H : (_ =? _) = false |- _ => apply Z.eqb_neq in H
  | H : (_ <? _) = true |- _ => apply Z.ltb_lt in H
  | H : (_ <? _) = false |- _ => apply Z.ltb_ge in H
  | H : (_ <=? _) = true |- _ => apply Z.leb_le in H
  | H : (_ <=? _) = false |- _ => apply Z.leb_gt in H
  | H : (_ >? _) = _ |- _ => rewrite Z.gtb_ltb in H
  | H : (_ >=? _) = _ |- _ => rewrite Z.geb_leb in H
  | H : _ && _ = true |- _ => apply andb_true_iff in H; destruct H
  | H : _ && _ = false |- _ => apply andb_false_iff in H
  | H : _ || _ = true |- _ => apply orb_true_iff in H
  | H : _ || _ = false |- _ => apply orb_false_iff in H; destruct H
  | H : negb _ = true |- _ => apply negb_true_iff in H
  | H : negb _ = false |- _ => apply negb_false_iff in H
  end.
Ltac bdestruct b := let H := fresh "Hb" in destruct b eqn:H; reflect_bools.

(** Case analysis on the next conditional of the goal. *)
Ltac bcase :=
  match goal with
  | |- context [if ?b then _ else _] =>
      lazymatch b with context [if _ then _ else _] => fail | _ => bdestruct b end
  end.

Create HintDb word.

Lemma u8_range z : is_u8 (u8 z). Proof. word. Qed.
Lemma u16_range z : is_u16 (u16 z). Proof. word. Qed.
Lemma u32_range z : is_u32 (u32 z). Proof. word. Qed.
Lemma u64_range z : is_u64 (u64 z). Proof. word. Qed.
Lemma s32_range z : is_s32 (s32 z). Proof. word. Qed.

Lemma u8_small z : is_u8 z -> u8 z = z. Proof. word. Qed.
Lemma u16_small z : is_u16 z -> u16 z = z. Proof. word. Qed.
Lemma u32_small z : is_u32 z -> u32 z = z. Proof. word. Qed.
Lemma s32_small z : is_s32 z -> s32 z = z. Proof. word. Qed.

Lemma u32_u32 z : u32 (u32 z) = u32 z. Proof. word. Qed.
Lemma u32_s32 z : u32 (s32 z) = u32 z. Proof. word. Qed.
Lemma s32_u32 z : s32 (u32 z) = s32 z. Proof. word. Qed.
Lemma u32_add_l a b : u32 (u32 a + b) = u32 (a + b). Proof. word. Qed.
Lemma u32_add_r a b : u32 (a + u32 b) = u32 (a + b). Proof. word. Qed.
Lemma u32_sub_l a b : u32 (u32 a - b) = u32 (a - b). Proof. word. Qed.
Lemma u32_sub_r a b : u32 (a - u32 b) = u32 (a - b). Proof. word. Qed.

#[export] Hint Resolve u8_range u16_range u32_range u64_range s32_range : word.
#[export] Hint Rewrite u32_u32 u32_s32 s32_u32 u32_add_l u32_add_r u32_sub_l u32_sub_r
  : word.

(** Two unbounded numbers at distance less than 2^32 with the same 32-bit
    representation are equal. *)
Lemma u32_inj_close a b : -4294967296 < a - b < 4294967296 -> u32 a = u32 b -> a = b.
Proof. word. Qed.

(** ** Bytes

    Memory is a [list byte]; a [char] read as an [unsigned char] is a [Z]. *)

Abbreviation byte := Init.Byte.byte.
Abbreviation bytes := (list byte).

Definition b2z (b : byte) : Z := Z.of_N (Byte.to_N b).
Definition z2b (z : Z) : byte :=
  match Byte.of_N (Z.to_N (u8 z)) with Some b => b | None => Byte.x00 end.

Lemma b2z_range b : is_u8 (b2z b).
Proof. unfold is_u8, b2z. pose proof (Byte.to_N_bounded b). lia. Qed.

Lemma z2b_b2z b : z2b (b2z b) = b.
Proof.
  unfold z2b. rewrite u8_small by apply b2z_range. unfold b2z.
  by rewrite N2Z.id, Byte.of_to_N.
Qed.

Lemma b2z_inj a b : b2z a = b2z b -> a = b.
Proof. intros H. by rewrite <- (z2b_b2z a), H, z2b_b2z. Qed.

Lemma b2z_z2b z : b2z (z2b z) = u8 z.
Proof.
  unfold z2b. pose proof (u8_range z) as Hz. unfold is_u8 in Hz.
  destruct (Byte.of_N (Z.to_N (u8 z))) as [b|] eqn:Hb.
  - apply Byte.to_of_N in Hb. unfold b2z. rewrite Hb. lia.
  - apply Byte.of_N_None_iff in Hb. lia.
Qed.

#[export] Instance byte_eq_dec : EqDecision byte := Byte.byte_eq_dec.
#[export] Hint Resolve b2z_range : word.

(** The byte at offset [i] of the memory that starts with [p] and continues
    with zeros: the receive buffers of the program are zero-initialised arrays
    of 4096 bytes, of which a datagram fills a prefix. *)
Definition byte_at (p : bytes) (i : nat) : Z := default 0 (b2z <$> p !! i).

#[global] Arguments byte_at : simpl never.
#[global] Arguments b2z : simpl never.
#[global] Arguments z2b : simpl never.

Lemma byte_at_range p i : is_u8 (byte_at p i).
Proof. unfold byte_at. destruct (p !! i) as [b|]; simpl; [apply b2z_range | word]. Qed.
#[export] Hint Resolve byte_at_range : word.

(** ** Record update

    [r <| f := v |>] is the assignment [r->f = v].  [build_setter eta f]
    derives the update of the field [f] from the eta expansion [eta] of the
    record, so each record lists its fields once. *)

Class Setter {R T : Type} (f : R -> T) := upd : T -> R -> R.
Arguments upd {R T} f {_} v r : simpl nomatch.

Declare Scope update_scope.
#[global] Open Scope update_scope.
Notation "r <| f := v |>" := (upd f v r)
  (at level 12, f constr at level 0, left associativity) : update_scope.

Ltac build_setter eta f :=
  exact (fun v r => ltac:(
    let t := eval unfold eta in (eta r) in
    lazymatch t with
    | context C [f r] => let t' := context C [v] in exact t'
    end)).

(** ** Outcomes

    A call either returns or ends the process: an [assert] of the code that
    fails (the build defines no [NDEBUG]), an exception of the standard library
    nobody catches, a null pointer that is dereferenced. *)

Inductive crash :=
  | AssertFailed      (* assert(...) *)
  | LengthError       (* std::length_error of std::string *)
  | BadFunctionCall   (* std::bad_function_call of an empty std::function *)
  | BadCast           (* boost::bad_any_cast *)
  | OutOfBounds       (* an access outside an object *)
  | NullDeref         (* a null pointer is dereferenced *)
  | BadAlloc          (* std::bad_alloc *)
  | Aborted           (* abort() after LOG_FATAL or LOG_SYSFATAL *)
  | DeadObject        (* an object that was deleted is used *)
  | SignedOverflow.   (* signed arithmetic or a conversion out of range *)

Inductive outcome (A : Type) :=
  | Ok (a : A)
  | Crash (c : crash).
Arguments Ok {A} a.
Arguments Crash {A} c.

Definition bind {A B : Type} (m : outcome A) (k : A -> outcome B) : outcome B :=
  match m with Ok a => k a | Crash c => Crash c end.
Definition assert_ (b : bool) : outcome unit := if b then Ok tt else Crash AssertFailed.
Definition is_ok {A : Type} (m : outcome A) : bool :=
  match m with Ok _ => true | Crash _ => false end.

Declare Scope outcome_scope.
Notation "'let*' x ':=' m 'in' k" := (bind m (fun x => k))
  (at level 10, x pattern, k at level 200) : outcome_scope.

Lemma bind_ok {A B} (m : outcome A) (k : A -> outcome B) b :
  bind m k = Ok b <-> exists a, m = Ok a /\ k a = Ok b.
Proof. destruct m; naive_solver. Qed.

(** ** Arithmetic of type [int]

    An expression of type [int] has a value or overflows; [#n] is the value [n],
    and the operators check every intermediate result. *)

Definition chk32 (z : Z) : outcome Z :=
  if (-2147483648 <=? z) && (z <? 2147483648) then Ok z else Crash SignedOverflow.
Definition int_op (f : Z -> Z -> Z) (x y : outcome Z) : outcome Z :=
  bind x (fun a => bind y (fun b => chk32 (f a b))).

Declare Scope int_scope.
Delimit Scope int_scope with int.
Notation "# n" := (Ok n%Z) (at level 1, format "# n") : int_scope.
Notation "x + y" := (int_op Z.add x y) : int_scope.
Notation "x - y" := (int_op Z.sub x y) : int_scope.
Notation "x * y" := (int_op Z.mul x y) : int_scope.
Notation "x / y" := (int_op Z.quot x y) : int_scope.
Notation "x % y" := (int_op Z.rem x y) (at level 40) : int_scope.

Lemma chk32_ok z : -2147483648 <= z < 2147483648 -> chk32 z = Ok z.
Proof.
  intros [H1 H2]. unfold chk32.
  by rewrite (proj2 (Z.leb_le _ _) H1), (proj2 (Z.ltb_lt _ _) H2).
Qed.
Lemma int_op_ok f a b :
  -2147483648 <= f a b < 2147483648 -> int_op f (Ok a) (Ok b) = Ok (f a b).
Proof. apply chk32_ok. Qed.

(** Evaluate the operators from the inside, given that the results are in range. *)
Ltac int_eval tac := repeat (rewrite int_op_ok by tac; cbn [bind]).

#[export] Instance crash_eq_dec : EqDecision crash.
Proof. solve_decision. Defined.

(** ** Lists *)

Lemma StronglySorted_reverse {A} (R : A -> A -> Prop) l :
  StronglySorted R l -> StronglySorted (fun x y => R y x) (reverse l).
Proof.
  induction 1 as [|x l Hl IH Hx]; [constructor|]. rewrite reverse_cons.
  apply StronglySorted_app. split_and!; [|done|by repeat constructor].
  intros y z Hy Hz. apply list_elem_of_singleton in Hz as ->.
  rewrite Forall_forall in Hx. by apply Hx, elem_of_reverse.
Qed.

Lemma Forall_reverse_iff {A} (P : A -> Prop) l : Forall P (reverse l) <-> Forall P l.
Proof. rewrite !Forall_forall. by setoid_rewrite elem_of_reverse. Qed.

(** Association lists with strictly increasing integer keys: the contents of a
    buffer of numbered segments. *)
Section sorted_keys.
Context {A : Type}.
Implicit Types (l : list (Z * A)) (i : Z) (a : A).

Definition sorted_keys l : Prop := StronglySorted (fun p q : Z * A => p.1 < q.1) l.

Lemma sorted_keys_nil : sorted_keys [].
Proof. constructor. Qed.

Lemma sorted_keys_cons p l :
  sorted_keys (p :: l) <-> Forall (fun q => p.1 < q.1) l /\ sorted_keys l.
Proof. unfold sorted_keys. by rewrite StronglySorted_cons. Qed.

Lemma sorted_keys_app l1 l2 :
  sorted_keys (l1 ++ l2) <->
  (forall p q, p ∈ l1 -> q ∈ l2 -> p.1 < q.1) /\ sorted_keys l1 /\ sorted_keys l2.
Proof. unfold sorted_keys. rewrite StronglySorted_app. naive_solver. Qed.

Lemma sorted_keys_snoc l p :
  sorted_keys l -> Forall (fun q => q.1 < p.1) l -> sorted_keys (l ++ [p]).
Proof.
  intros Hl Hp. apply sorted_keys_app. split_and!; [|done|by repeat constructor].
  intros q r Hq Hr. apply list_elem_of_singleton in Hr as ->.
  rewrite Forall_forall in Hp. by apply Hp.
Qed.

Lemma sorted_keys_middle l1 l2 p :
  sorted_keys (l1 ++ l2) -> Forall (fun q => q.1 < p.1) l1 -> Forall (fun q => p.1 < q.1) l2 ->
  sorted_keys (l1 ++ p :: l2).
Proof.
  rewrite !sorted_keys_app, sorted_keys_cons, !Forall_forall.
  intros (H12 & H1 & H2) Hl Hr. split_and!; try done.
  intros q r Hq Hin. apply elem_of_cons in Hin as [->|Hin]; auto.
Qed.

Lemma sorted_keys_NoDup l : sorted_keys l -> NoDup (l.*1).
Proof.
  induction l as [|p l IH]; simpl; [constructor|].
  rewrite sorted_keys_cons, Forall_forall. intros [Hp Hl]. constructor; [|auto].
  intros (q & Hq & Hin)%list_elem_of_fmap. apply Hp in Hin. lia.
Qed.

Lemma sorted_keys_lookup l i a :
  sorted_keys l -> (list_to_map l : gmap Z A) !! i = Some a <-> (i, a) ∈ l.
Proof. intros Hl. symmetry. apply elem_of_list_to_map, sorted_keys_NoDup, Hl. Qed.

Lemma keys_lookup_None l i :
  Forall (fun q => q.1 <> i) l -> (list_to_map l : gmap Z A) !! i = None.
Proof.
  rewrite Forall_forall. intros Hl. apply not_elem_of_list_to_map_1.
  intros (q & Hq & Hin)%list_elem_of_fmap. by apply (Hl q).
Qed.

Lemma list_to_map_middle l1 l2 i a :
  Forall (fun q => q.1 <> i) l1 ->
  (list_to_map (l1 ++ (i, a) :: l2) : gmap Z A) = <[i := a]> (list_to_map (l1 ++ l2)).
Proof.
  induction 1 as [|[j b] l1 Hj Hl IH]; simpl; [done|].
  rewrite IH. rewrite insert_insert_ne; auto.
Qed.

Lemma sorted_keys_filter l (P : Z * A -> Prop) `{!forall p, Decision (P p)} :
  sorted_keys l -> sorted_keys (filter P l).
Proof.
  induction l as [|p l IH]; [done|]. rewrite sorted_keys_cons. intros [Hp Hl].
  rewrite filter_cons. case_decide; [|auto].
  apply sorted_keys_cons. split; [|auto].
  rewrite Forall_forall in *. intros q Hq. apply list_elem_of_filter in Hq as [_ Hq]. auto.
Qed.
End sorted_keys.

#[export] Hint Resolve sorted_keys_nil : core.
