(* ===== verification/Iqueue.v ===== *)
(** * The intrusive queue of KCP

    [kcp/ikcp.h] links the segments of a control block in circular doubly
    linked lists through macros that store into [next] and [prev] fields.  The
    memory is a map from addresses to nodes; a load or store at an address
    outside it ends the process.  A representation predicate relates a queue
    head to the list of its nodes; with it every macro is an operation on
    lists, which is how the other files of the development treat [snd_queue],
    [snd_buf], [rcv_queue] and [rcv_buf]. *)

From S2P Require Import Prelude.

Open Scope outcome_scope.

Record IQUEUEHEAD := { next : Z; prev : Z }.

Abbreviation heap := (gmap Z IQUEUEHEAD).

(** ** Loads and stores *)

Definition load_next (m : heap) (p : Z) : outcome Z :=
  match m !! p with Some n => Ok (next n) | None => Crash NullDeref end.
Definition load_prev (m : heap) (p : Z) : outcome Z :=
  match m !! p with Some n => Ok (prev n) | None => Crash NullDeref end.
Definition store_next (m : heap) (p v : Z) : outcome heap :=
  match m !! p with
  | Some n => Ok (<[p := {| next := v; prev := prev n |}]> m)
  | None => Crash NullDeref
  end.
Definition store_prev (m : heap) (p v : Z) : outcome heap :=
  match m !! p with
  | Some n => Ok (<[p := {| next := next n; prev := v |}]> m)
  | None => Crash NullDeref
  end.

(** ** The macros *)

Definition IQUEUE_INIT (m : heap) (ptr : Z) : outcome heap :=
  let* m := store_next m ptr ptr in
  store_prev m ptr ptr.

(** The object that holds the node at [ptr] at the given offset. *)
Definition IQUEUE_ENTRY (ptr offset : Z) : Z := ptr - offset.

Definition IQUEUE_ADD (m : heap) (node head : Z) : outcome heap :=
  let* m := store_prev m node head in
  let* n := load_next m head in
  let* m := store_next m node n in
  let* n := load_next m head in
  let* m := store_prev m n node in
  store_next m head node.

Definition IQUEUE_ADD_TAIL (m : heap) (node head : Z) : outcome heap :=
  let* p := load_prev m head in
  let* m := store_prev m node p in
  let* m := store_next m node head in
  let* p := load_prev m head in
  let* m := store_next m p node in
  store_prev m head node.

Definition IQUEUE_DEL_BETWEEN (m : heap) (p n : Z) : outcome heap :=
  let* m := store_prev m n p in
  store_next m p n.

Definition IQUEUE_DEL (m : heap) (entry : Z) : outcome heap :=
  let* n := load_next m entry in
  let* p := load_prev m entry in
  let* m := store_prev m n p in
  let* p := load_prev m entry in
  let* n := load_next m entry in
  let* m := store_next m p n in
  let* m := store_next m entry 0 in
  store_prev m entry 0.

Definition IQUEUE_DEL_INIT (m : heap) (entry : Z) : outcome heap :=
  let* m := IQUEUE_DEL m entry in
  IQUEUE_INIT m entry.

Definition IQUEUE_IS_EMPTY (m : heap) (entry : Z) : outcome bool :=
  let* n := load_next m entry in Ok (entry =? n).

(** [iqueue_foreach_entry]: the addresses the loop visits; [fuel] bounds the
    number of iterations, [None] is a loop that has not ended. *)
Fixpoint foreach_from (fuel : nat) (m : heap) (pos head : Z) : outcome (option (list Z)) :=
  match fuel with
  | O => Ok None
  | S fuel =>
      if pos =? head then Ok (Some [])
      else
        let* n := load_next m pos in
        let* l := foreach_from fuel m n head in
        Ok (cons pos <$> l)
  end.
Definition iqueue_foreach_entry (fuel : nat) (m : heap) (head : Z) : outcome (option (list Z)) :=
  let* pos := load_next m head in foreach_from fuel m pos head.

(** [IQUEUE_FOREACH] visits the objects the nodes are members of. *)
Definition IQUEUE_FOREACH (fuel : nat) (m : heap) (head offset : Z) : outcome (option (list Z)) :=
  let* l := iqueue_foreach_entry fuel m head in
  Ok (map (fun p => IQUEUE_ENTRY p offset) <$> l).

Definition __iqueue_splice (m : heap) (lst head : Z) : outcome heap :=
  let* first := load_next m lst in
  let* last := load_prev m lst in
  let* at_ := load_next m head in
  let* m := store_prev m first head in
  let* m := store_next m head first in
  let* m := store_next m last at_ in
  store_prev m at_ last.

Definition iqueue_splice (m : heap) (lst head : Z) : outcome heap :=
  let* e := IQUEUE_IS_EMPTY m lst in
  if negb e then __iqueue_splice m lst head else Ok m.

Definition iqueue_splice_init (m : heap) (lst head : Z) : outcome heap :=
  let* m := iqueue_splice m lst head in
  IQUEUE_INIT m lst.

(** ** Links *)

Definition nx (m : heap) (p : Z) : option Z := next <$> m !! p.
Definition pv (m : heap) (p : Z) : option Z := prev <$> m !! p.
Definition linked (m : heap) (a b : Z) : Prop := nx m a = Some b /\ pv m b = Some a.

Fixpoint links (m : heap) (l : list Z) : Prop :=
  match l with
  | a :: ((b :: _) as l') => linked m a b /\ links m l'
  | _ => True
  end.

(** The queue at [h] holds the nodes [l], in order. *)
Definition queue (m : heap) (h : Z) (l : list Z) : Prop := links m (h :: l ++ [h]) /\ NoDup (h :: l).

(** The memory [m'] is [m] with some [next] fields ([N]) and some [prev] fields
    ([P]) overwritten, the latest store first. *)
Fixpoint overwrite (f : Z -> option Z) (us : list (Z * Z)) (q : Z) : option Z :=
  match us with
  | [] => f q
  | (k, v) :: us => if decide (q = k) then Some v else overwrite f us q
  end.
Definition rewired (m m' : heap) (N P : list (Z * Z)) : Prop :=
  (forall q, nx m' q = overwrite (nx m) N q) /\ (forall q, pv m' q = overwrite (pv m) P q) /\
  (forall q, is_Some (m !! q) -> is_Some (m' !! q)).

Lemma rewired_refl m : rewired m m [] [].
Proof. done. Qed.

Lemma load_next_ok m m' N P p v :
  rewired m m' N P -> overwrite (nx m) N p = Some v -> load_next m' p = Ok v.
Proof. intros (H & _ & _) Hp. rewrite <- H in Hp. unfold nx, load_next in *. destruct (m' !! p); naive_solver. Qed.

Lemma load_prev_ok m m' N P p v :
  rewired m m' N P -> overwrite (pv m) P p = Some v -> load_prev m' p = Ok v.
Proof. intros (_ & H & _) Hp. rewrite <- H in Hp. unfold pv, load_prev in *. destruct (m' !! p); naive_solver. Qed.

Lemma store_next_ok m m' N P p v : rewired m m' N P -> is_Some (m !! p) ->
  exists m2, store_next m' p v = Ok m2 /\ rewired m m2 ((p, v) :: N) P.
Proof.
  intros (Hn & Hp & Ha) [n Hm]%Ha. unfold store_next. rewrite Hm. eexists. split; [done|].
  split_and!; intros q; cbn [overwrite].
  - rewrite <- Hn. unfold nx. rewrite lookup_insert. repeat case_decide; naive_solver.
  - rewrite <- Hp. unfold pv. rewrite lookup_insert. case_decide; [subst; by rewrite Hm | done].
  - intros Hq. rewrite lookup_insert. case_decide; [done | auto].
Qed.

Lemma store_prev_ok m m' N P p v : rewired m m' N P -> is_Some (m !! p) ->
  exists m2, store_prev m' p v = Ok m2 /\ rewired m m2 N ((p, v) :: P).
Proof.
  intros (Hn & Hp & Ha) [n Hm]%Ha. unfold store_prev. rewrite Hm. eexists. split; [done|].
  split_and!; intros q; cbn [overwrite].
  - rewrite <- Hn. unfold nx. rewrite lookup_insert. case_decide; [subst; by rewrite Hm | done].
  - rewrite <- Hp. unfold pv. rewrite lookup_insert. repeat case_decide; naive_solver.
  - intros Hq. rewrite lookup_insert. case_decide; [done | auto].
Qed.

Lemma nx_alloc m p v : nx m p = Some v -> is_Some (m !! p).
Proof. unfold nx. destruct (m !! p); naive_solver. Qed.
Lemma pv_alloc m p v : pv m p = Some v -> is_Some (m !! p).
Proof. unfold pv. destruct (m !! p); naive_solver. Qed.

(** [overwrite] at nodes known to be equal or different. *)
Ltac over := cbn [overwrite]; repeat first
  [ rewrite (decide_True _ _ eq_refl) | rewrite decide_False by congruence ]; try eassumption; try reflexivity.

(** Runs the loads and stores of a macro, starting from the memory [m]. *)
Ltac link_step H :=
  match goal with
  | |- context [load_next ?m ?p] => erewrite (load_next_ok _ m _ _ p _ H) by over; cbn [bind]
  | |- context [load_prev ?m ?p] => erewrite (load_prev_ok _ m _ _ p _ H) by over; cbn [bind]
  | |- context [store_next ?m ?p ?v] =>
      let m' := fresh "m" in let Hs := fresh "Hs" in let H' := fresh "Hr" in
      destruct (store_next_ok _ m _ _ p v H) as (m' & Hs & H');
        [by eauto using nx_alloc, pv_alloc | rewrite Hs; clear Hs H; cbn [bind]; rename H' into H]
  | |- context [store_prev ?m ?p ?v] =>
      let m' := fresh "m" in let Hs := fresh "Hs" in let H' := fresh "Hr" in
      destruct (store_prev_ok _ m _ _ p v H) as (m' & Hs & H');
        [by eauto using nx_alloc, pv_alloc | rewrite Hs; clear Hs H; cbn [bind]; rename H' into H]
  end.
Ltac link_run m :=
  let H := fresh "Hr" in pose proof (rewired_refl m) as H; repeat link_step H;
  eexists; split; [reflexivity|]; exact H.

(** ** What the macros store *)

Lemma init_links m p : is_Some (m !! p) ->
  exists m', IQUEUE_INIT m p = Ok m' /\ rewired m m' [(p, p)] [(p, p)].
Proof. intros Hp. unfold IQUEUE_INIT. link_run m. Qed.

Lemma add_links m node h n : is_Some (m !! node) -> is_Some (m !! n) -> node <> h -> nx m h = Some n ->
  exists m', IQUEUE_ADD m node h = Ok m' /\
    rewired m m' [(h, node); (node, n)] [(n, node); (node, h)].
Proof. intros Ha Hb Hne Hn. unfold IQUEUE_ADD. link_run m. Qed.

Lemma add_tail_links m node h p : is_Some (m !! node) -> is_Some (m !! p) -> is_Some (m !! h) ->
  node <> h -> pv m h = Some p ->
  exists m', IQUEUE_ADD_TAIL m node h = Ok m' /\
    rewired m m' [(p, node); (node, h)] [(h, node); (node, p)].
Proof. intros Ha Hb Hh Hne Hn. unfold IQUEUE_ADD_TAIL. link_run m. Qed.

Lemma del_links m x p n : is_Some (m !! p) -> is_Some (m !! n) ->
  x <> p -> x <> n -> nx m x = Some n -> pv m x = Some p ->
  exists m', IQUEUE_DEL m x = Ok m' /\ rewired m m' [(x, 0); (p, n)] [(x, 0); (n, p)].
Proof. intros Ha Hb Hp Hn Hnx Hpv. unfold IQUEUE_DEL. link_run m. Qed.

Lemma splice_links m lst h first last at_ : is_Some (m !! first) -> is_Some (m !! last) ->
  is_Some (m !! at_) -> nx m lst = Some first -> pv m lst = Some last -> nx m h = Some at_ ->
  exists m', __iqueue_splice m lst h = Ok m' /\
    rewired m m' [(last, at_); (h, first)] [(at_, last); (first, h)].
Proof. intros Ha Hb Hc Hf Hl Hn. unfold __iqueue_splice. link_run m. Qed.

(** ** Linked sequences *)

Lemma overwrite_other f us q : q ∉ us.*1 -> overwrite f us q = f q.
Proof.
  induction us as [|[k v] us IH]; [done|]. csimpl. intros Hq. apply not_elem_of_cons in Hq as [Hk Hq].
  by rewrite decide_False, IH.
Qed.

Lemma linked_rewired m m' N P a b :
  rewired m m' N P -> overwrite (nx m) N a = Some b -> overwrite (pv m) P b = Some a -> linked m' a b.
Proof. intros (Hn & Hp & _) Ha Hb. split; [by rewrite Hn | by rewrite Hp]. Qed.

Lemma links_cons m a b l : links m (a :: b :: l) <-> linked m a b /\ links m (b :: l).
Proof. done. Qed.

Lemma links_app m l1 l2 : links m (l1 ++ l2) <->
  links m l1 /\ links m l2 /\ (forall p n, last l1 = Some p -> head l2 = Some n -> linked m p n).
Proof.
  induction l1 as [|a l1 IH].
  - cbn. naive_solver.
  - destruct l1 as [|b l1].
    + cbn [app]. destruct l2 as [|n l2]; cbn; naive_solver.
    + cbn [app] in *. rewrite !links_cons, IH. change (last (a :: b :: l1)) with (last (b :: l1)). tauto.
Qed.

(** A linked sequence survives stores to the [next] field of its last node, to
    the [prev] field of its first node, and to other nodes. *)
Lemma links_rewired m m' N P l :
  links m l -> rewired m m' N P -> NoDup l ->
  (forall k, k ∈ N.*1 -> k ∈ l -> last l = Some k) -> (forall k, k ∈ P.*1 -> k ∈ l -> head l = Some k) ->
  links m' l.
Proof.
  intros Hl Hr. revert Hl. induction l as [|a l IH]; [done|]. destruct l as [|b l]; [done|].
  rewrite !links_cons. intros [[Ha Hb] Hl] Hd HN HP.
  assert (Hab : a ∉ b :: l) by by apply NoDup_cons in Hd as [? _].
  assert (Hbl : b ∉ l) by by apply NoDup_cons in Hd as [_ [? _]%NoDup_cons].
  assert (HNa : a ∉ N.*1).
  { intros Hin. specialize (HN a Hin ltac:(left)). apply last_Some_elem_of in HN as HN'.
    change (last (a :: b :: l)) with (last (b :: l)) in HN. by apply Hab, last_Some_elem_of. }
  assert (HPx : forall k, k ∈ P.*1 -> k ∉ b :: l).
  { intros k Hk Hin. specialize (HP k Hk ltac:(by right)). injection HP as ->. done. }
  split.
  - destruct Hr as (Hn & Hp & _). split.
    + by rewrite Hn, overwrite_other.
    + rewrite Hp, overwrite_other; [done|]. intros Hk. apply (HPx b Hk). left.
  - apply IH; [done | by apply NoDup_cons in Hd as [_ ?] | |].
    + intros k Hk Hin. apply (HN k Hk). by right.
    + intros k Hk Hin. by destruct (HPx k Hk).
Qed.

Lemma links_join m l1 l2 p n : links m l1 -> links m l2 -> last l1 = Some p -> head l2 = Some n ->
  linked m p n -> links m (l1 ++ l2).
Proof. intros H1 H2 Hp Hn Hl. apply links_app. split_and!; [done..|]. congruence. Qed.

Lemma links_around m l1 a b l2 : links m (l1 ++ a :: b :: l2) -> nx m a = Some b /\ pv m b = Some a.
Proof. intros (_ & H & _)%links_app. apply links_cons in H as [H _]. exact H. Qed.

Lemma links_alloc m l x : links m l -> (1 < length l)%nat -> x ∈ l -> is_Some (m !! x).
Proof.
  intros Hl Hlen. revert Hl Hlen. induction l as [|a [|b l] IH]; cbn [length]; [lia.. |].
  rewrite links_cons. intros [[Ha Hb] Hl] _ [->|Hx]%elem_of_cons; [by eapply nx_alloc|].
  destruct l as [|c l]; [|apply IH; [done | cbn [length]; lia | done]].
  apply list_elem_of_singleton in Hx as ->. by eapply pv_alloc.
Qed.

Lemma queue_alloc m h l x : queue m h l -> x ∈ h :: l -> is_Some (m !! x).
Proof.
  intros [Hl _] Hx. eapply links_alloc; [done | cbn [length]; rewrite length_app; cbn; lia|]. set_solver.
Qed.

(** The last node before the end and the first node after the start. *)
Lemma last_or (h : Z) l : exists p l', h :: l = l' ++ [p] /\ last (h :: l) = Some p.
Proof.
  destruct l as [|x l _] using rev_ind; [by exists h, []|].
  exists x, (h :: l). split; [done|]. rewrite (app_comm_cons l [x] h). by rewrite last_snoc.
Qed.

Lemma head_or (h : Z) l : exists n l', l ++ [h] = n :: l' /\ head (l ++ [h]) = Some n.
Proof. destruct l as [|x l]; [by exists h, [] | by exists x, (l ++ [h])]. Qed.

Lemma NoDup_rotate {A} (h : A) l : NoDup (h :: l) <-> NoDup (l ++ [h]).
Proof. by rewrite (Permutation_app_comm l [h]). Qed.

Lemma NoDup_between {A} (h x : A) l1 l2 :
  NoDup (h :: l1 ++ x :: l2) <-> x ∉ h :: l1 ++ l2 /\ NoDup (h :: l1 ++ l2).
Proof. rewrite <- NoDup_cons. by rewrite <- (Permutation_middle (h :: l1) l2 x). Qed.

Lemma NoDup_head_tail {A} (l1 l2 : list A) n l' x : NoDup (l1 ++ l2) -> l2 = n :: l' -> x ∈ l1 -> x <> n.
Proof. intros (_ & H & _)%NoDup_app -> Hx ->. apply (H n Hx). left. Qed.

(** ** The operations on a queue *)

(** Every node an operation does not mention is left alone. *)
Definition untouched (m m' : heap) (nodes : list Z) : Prop :=
  forall p, p ∉ nodes -> nx m' p = nx m p /\ pv m' p = pv m p.

Lemma rewired_untouched m m' N P nodes :
  rewired m m' N P -> (forall k, k ∈ N.*1 ++ P.*1 -> k ∈ nodes) -> untouched m m' nodes.
Proof.
  intros (Hn & Hp & _) Hk p Hnot. rewrite Hn, Hp. split; apply overwrite_other; set_solver.
Qed.

Lemma init_queue m p : is_Some (m !! p) ->
  exists m', IQUEUE_INIT m p = Ok m' /\ queue m' p [] /\ untouched m m' [p].
Proof.
  intros Hp. destruct (init_links m p Hp) as (m' & -> & Hr). exists m'. split; [done|]. split.
  - split; [|apply NoDup_singleton]. split; [|done]. by apply (linked_rewired _ _ _ _ _ _ Hr); over.
  - apply (rewired_untouched _ _ _ _ _ Hr). set_solver.
Qed.

Lemma add_queue m h l node : queue m h l -> is_Some (m !! node) -> node ∉ h :: l ->
  exists m', IQUEUE_ADD m node h = Ok m' /\ queue m' h (node :: l) /\ untouched m m' (node :: h :: l).
Proof.
  intros Hq Ha Hn. pose proof Hq as [Hl Hd]. destruct (head_or h l) as (n & l' & Hnl & Hhead).
  assert (Hin : n ∈ h :: l) by (assert (n ∈ l ++ [h]) by (rewrite Hnl; left); set_solver).
  assert (Hne : node <> h /\ node <> n) by set_solver. destruct Hne as [Hne Hnn].
  rewrite Hnl in Hl. destruct (links_around _ [] _ _ _ Hl) as [Hnx _].
  destruct (add_links m node h n Ha (queue_alloc _ _ _ _ Hq Hin) Hne Hnx) as (m' & -> & Hr).
  exists m'. split; [done|]. split; [|apply (rewired_untouched _ _ _ _ _ Hr); set_solver].
  split; [|by apply (NoDup_between h node [] l)].
  cbn [app]. rewrite Hnl. rewrite !links_cons. split_and!.
  - apply (linked_rewired _ _ _ _ _ _ Hr); over.
  - apply (linked_rewired _ _ _ _ _ _ Hr); over.
  - apply links_cons in Hl as [_ Hl]. rewrite <- Hnl in *. apply NoDup_rotate in Hd.
    apply (links_rewired _ _ _ _ _ Hl Hr Hd); csimpl; intros k Hk Hkl.
    + rewrite last_snoc. set_solver.
    + rewrite Hhead. set_solver.
Qed.

Lemma add_tail_queue m h l node : queue m h l -> is_Some (m !! node) -> node ∉ h :: l ->
  exists m', IQUEUE_ADD_TAIL m node h = Ok m' /\ queue m' h (l ++ [node]) /\
    untouched m m' (node :: h :: l).
Proof.
  intros Hq Ha Hn. pose proof Hq as [Hl Hd]. destruct (last_or h l) as (p & l' & Hpl & Hlast).
  assert (Hin : p ∈ h :: l) by (rewrite Hpl; set_solver).
  assert (Hne : node <> h /\ node <> p) by set_solver. destruct Hne as [Hne Hnp].
  assert (Hring : links m (l' ++ p :: [h])).
  { change (l' ++ p :: [h]) with (l' ++ [p] ++ [h]). rewrite (assoc_L (++)), <- Hpl. done. }
  destruct (links_around _ _ _ _ _ Hring) as [Hnx Hpv].
  destruct (add_tail_links m node h p Ha (queue_alloc _ _ _ _ Hq Hin)) as (m' & -> & Hr);
    [eapply queue_alloc; [done | left] | done | done |].
  exists m'. split; [done|]. split; [|apply (rewired_untouched _ _ _ _ _ Hr); set_solver].
  split; [|apply (NoDup_between h node l []); by rewrite app_nil_r].
  rewrite <- (assoc_L (++)). change (h :: l ++ [node] ++ [h]) with ((h :: l) ++ [node; h]).
  eapply links_join; [| | done | done |].
  - assert (Hl1 : links m (h :: l)).
    { change (h :: l ++ [h]) with ((h :: l) ++ [h]) in Hl. by apply links_app in Hl as [? _]. }
    apply (links_rewired _ _ _ _ _ Hl1 Hr Hd); csimpl; intros k Hk Hkl; set_solver.
  - split; [|done]. apply (linked_rewired _ _ _ _ _ _ Hr); over.
  - apply (linked_rewired _ _ _ _ _ _ Hr); over.
Qed.

Lemma del_queue m h l1 x l2 : queue m h (l1 ++ x :: l2) ->
  exists m', IQUEUE_DEL m x = Ok m' /\ queue m' h (l1 ++ l2) /\ nx m' x = Some 0 /\ pv m' x = Some 0 /\
    untouched m m' (h :: l1 ++ x :: l2).
Proof.
  intros Hq. pose proof Hq as [Hl Hd]. destruct (last_or h l1) as (p & l1' & Hpl & Hlast).
  destruct (head_or h l2) as (n & l2' & Hnl & Hhead).
  assert (Hp : p ∈ h :: l1) by (rewrite Hpl; set_solver).
  assert (Hn : n ∈ h :: l2) by (assert (n ∈ l2 ++ [h]) by (rewrite Hnl; left); set_solver).
  pose proof (proj1 (NoDup_between _ _ _ _) Hd) as [Hx Hd'].
  assert (Hne : x <> p /\ x <> n) by set_solver. destruct Hne as [Hxp Hxn].
  rewrite <- (assoc_L (++)) in Hl. cbn [app] in Hl. change (h :: l1 ++ x :: l2 ++ [h]) with ((h :: l1) ++ x :: l2 ++ [h]) in Hl.
  assert (Hnxt : nx m x = Some n /\ pv m x = Some p).
  { split.
    - rewrite Hnl in Hl. by apply links_around in Hl as [? _].
    - rewrite Hpl, <- (assoc_L (++)) in Hl. by apply links_around in Hl as [_ ?]. }
  destruct Hnxt as [Hnx Hpv].
  assert (Hall : is_Some (m !! p) /\ is_Some (m !! n)) by (split; eapply queue_alloc; [done|set_solver..]).
  destruct Hall as [Hpa Hna].
  destruct (del_links m x p n Hpa Hna Hxp Hxn Hnx Hpv) as (m' & -> & Hr).
  exists m'. split; [done|]. split; [|split; [|split]].
  - split; [|done]. rewrite <- (assoc_L (++)). change (h :: l1 ++ l2 ++ [h]) with ((h :: l1) ++ (l2 ++ [h])).
    apply links_app in Hl as (Hl1 & Hl2 & _).
    assert (Hl2' : links m (l2 ++ [h])) by (rewrite Hnl in *; by apply links_cons in Hl2 as [_ ?]).
    rewrite (app_comm_cons l1) in Hd'. pose proof Hd' as (Hd1 & Hdis & Hd2)%NoDup_app.
    apply (links_join _ _ _ p n); [| |done|done|].
    + apply (links_rewired _ _ _ _ _ Hl1 Hr Hd1); csimpl; intros k Hk Hkl; set_solver.
    + assert (Hd3 : NoDup (l2 ++ [h])).
      { apply NoDup_rotate, NoDup_cons. split; [apply Hdis; left | done]. }
      apply (links_rewired _ _ _ _ _ Hl2' Hr Hd3); csimpl; intros k Hk Hkl.
      * rewrite last_snoc. destruct (decide (k = h)); set_solver.
      * rewrite Hhead. set_solver.
    + apply (linked_rewired _ _ _ _ _ _ Hr); over.
  - rewrite (proj1 Hr). over.
  - rewrite (proj1 (proj2 Hr)). over.
  - apply (rewired_untouched _ _ _ _ _ Hr). set_solver.
Qed.

Lemma queue_untouched m m' nodes h l :
  queue m h l -> untouched m m' nodes -> (forall x, x ∈ h :: l -> x ∉ nodes) -> queue m' h l.
Proof.
  intros [Hl Hd] Hu Hn. split; [|done].
  assert (Hall : forall x, x ∈ h :: l ++ [h] -> x ∉ nodes) by set_solver. clear Hn Hd.
  revert Hl Hall. generalize (h :: l ++ [h]). intros L. induction L as [|a [|b L] IH]; [done..|].
  rewrite !links_cons. intros [[Ha Hb] HL] Hall. split; [split|].
  - rewrite (proj1 (Hu a ltac:(apply Hall; left))). done.
  - rewrite (proj2 (Hu b ltac:(apply Hall; right; left))). done.
  - apply IH; [done|]. intros x Hx. apply Hall. by right.
Qed.

Lemma del_init_queue m h l1 x l2 : queue m h (l1 ++ x :: l2) ->
  exists m', IQUEUE_DEL_INIT m x = Ok m' /\ queue m' h (l1 ++ l2) /\ queue m' x [] /\
    untouched m m' (h :: l1 ++ x :: l2).
Proof.
  intros Hq. destruct (del_queue _ _ _ _ _ Hq) as (m1 & He & Hq1 & Hnx & _ & Hu1).
  destruct (init_queue m1 x (nx_alloc _ _ _ Hnx)) as (m2 & He2 & Hq2 & Hu2).
  unfold IQUEUE_DEL_INIT. rewrite He. cbn [bind]. rewrite He2. exists m2. split; [done|].
  destruct Hq as [_ [Hx Hd]%NoDup_between]. split; [|split; [done|]].
  - apply (queue_untouched m1 _ [x]); [done..|]. intros y Hy ->%list_elem_of_singleton. done.
  - intros y Hy. destruct (Hu2 y) as [-> ->]; [set_solver|]. by apply Hu1.
Qed.

Lemma is_empty_queue m h l : queue m h l -> IQUEUE_IS_EMPTY m h = Ok (bool_decide (l = [])).
Proof.
  intros [Hl Hd]. unfold IQUEUE_IS_EMPTY. destruct (head_or h l) as (n & l' & Hnl & _).
  rewrite Hnl in Hl. destruct Hl as [[Hnx _] _]. unfold load_next, nx in *.
  destruct (m !! h) as [nd|]; [|done]. injection Hnx as ->. cbn [bind]. f_equal.
  destruct l as [|x l]; injection Hnl as <- <-.
  - by rewrite Z.eqb_refl.
  - rewrite bool_decide_false by done. apply Z.eqb_neq. intros ->. apply NoDup_cons in Hd as [Hd _]. set_solver.
Qed.

Lemma foreach_links m h l x : links m (x :: l ++ [h]) -> h ∉ x :: l ->
  forall fuel, (length l + 1 < fuel)%nat -> foreach_from fuel m x h = Ok (Some (x :: l)).
Proof.
  revert x. induction l as [|y l IH]; intros x Hl Hh fuel Hf; (destruct fuel as [|fuel]; [lia|]);
    cbn [foreach_from app length] in *; rewrite (proj2 (Z.eqb_neq x h)) by set_solver;
    destruct Hl as [[Hnx _] Hl]; unfold load_next, nx in *;
    (destruct (m !! x) as [nd|]; [|done]); injection Hnx as ->; cbn [bind].
  - destruct fuel as [|fuel]; [lia|]. cbn [foreach_from]. by rewrite Z.eqb_refl.
  - by rewrite (IH y Hl ltac:(set_solver) fuel ltac:(lia)).
Qed.

Lemma foreach_queue m h l fuel : queue m h l -> (length l < fuel)%nat ->
  iqueue_foreach_entry fuel m h = Ok (Some l).
Proof.
  intros [Hl Hd] Hf. unfold iqueue_foreach_entry. destruct l as [|x l]; destruct Hl as [[Hnx _] Hl];
    unfold load_next, nx in *; (destruct (m !! h) as [nd|]; [|done]); injection Hnx as ->; cbn [bind].
  - destruct fuel as [|fuel]; [cbn in Hf; lia|]. cbn [foreach_from]. by rewrite Z.eqb_refl.
  - apply foreach_links; [done | by apply NoDup_cons in Hd as [? _] | cbn [length] in Hf; lia].
Qed.

(** The ring of a queue without its head. *)
Lemma queue_inner m a la : queue m a la -> la <> [] ->
  exists first last, nx m a = Some first /\ pv m a = Some last /\
    head la = Some first /\ list.last la = Some last /\ first ∈ la /\ last ∈ la /\ links m la /\ NoDup la.
Proof.
  intros [Hl Hd] Hne. apply NoDup_cons in Hd as [_ Hd]. destruct la as [|x la]; [done|].
  cbn [app] in Hl. destruct Hl as [[Hnx _] Hl]. rewrite (app_comm_cons la [a]) in Hl.
  destruct (last_or x la) as (last & l' & Hll & Hlast).
  assert (Hpv : pv m a = Some last).
  { rewrite Hll, <- (assoc_L (++)) in Hl. by destruct (links_around _ _ _ _ _ Hl) as [_ ?]. }
  apply links_app in Hl as [Hl _]. exists x, last.
  split_and!; try done; [by left | rewrite Hll; set_solver].
Qed.

Lemma queue_front m h l : queue m h l ->
  exists n, nx m h = Some n /\ head (l ++ [h]) = Some n /\ n ∈ h :: l /\ links m (l ++ [h]) /\ NoDup (l ++ [h]).
Proof.
  intros [Hl Hd]. destruct (head_or h l) as (n & l' & Hn & Hh). exists n.
  apply NoDup_rotate in Hd. rewrite Hn in Hl. destruct Hl as [[Hnx _] Hl]. rewrite <- Hn in Hl.
  split_and!; try done. assert (n ∈ l ++ [h]) by (rewrite Hn; left). set_solver.
Qed.

Lemma splice_queue m a la h l : queue m a la -> queue m h l -> a ∉ h :: l ->
  (forall x, x ∈ la -> x ∉ h :: l) -> la <> [] ->
  exists m', __iqueue_splice m a h = Ok m' /\ queue m' h (la ++ l) /\ untouched m m' (la ++ h :: l).
Proof.
  intros Hqa Hq Ha Hdis Hne.
  destruct (queue_inner _ _ _ Hqa Hne) as (first & last & Hnf & Hpl & Hm3 & Hm2 & Hin2 & Hin1 & Hm1 & Hda).
  destruct (queue_front _ _ _ Hq) as (at_ & Hnh & Hhat & Hin3 & Hl & Hfd).
  assert (Hal : is_Some (m !! first) /\ is_Some (m !! last) /\ is_Some (m !! at_)).
  { split_and!; eapply queue_alloc; [exact Hqa | by right | exact Hqa | by right | exact Hq | done]. }
  destruct Hal as (Ha1 & Ha2 & Ha3).
  destruct (splice_links m a h first last at_ Ha1 Ha2 Ha3 Hnf Hpl Hnh) as (m' & -> & Hr).
  assert (Hne3 : h <> last /\ at_ <> first) by set_solver. destruct Hne3 as [Hne1 Hne2].
  exists m'. split; [done|]. split; [|apply (rewired_untouched _ _ _ _ _ Hr); set_solver].
  assert (Hdis' : forall k, k ∈ l ++ [h] -> k ∉ la) by (intros k Hk Hka; apply (Hdis k Hka); set_solver +Hk).
  split.
  - rewrite <- (assoc_L (++)). apply (links_join _ [h] (la ++ l ++ [h]) h first); [done| |done| |].
    + apply (links_join _ la (l ++ [h]) last at_); [| |done|done|].
      * apply (links_rewired _ _ _ _ _ Hm1 Hr Hda); csimpl; intros k Hk Hkl; pose proof (Hdis k Hkl).
        -- set_solver +Hk H Hm2.
        -- set_solver +Hk H Hm3 Hin3.
      * apply (links_rewired _ _ _ _ _ Hl Hr Hfd); csimpl; intros k Hk Hkl; pose proof (Hdis' k Hkl).
        -- rewrite last_snoc. set_solver +Hk H Hin1.
        -- rewrite Hhat. set_solver +Hk H Hin2.
      * apply (linked_rewired _ _ _ _ _ _ Hr); over.
    + destruct la; [done|]. by injection Hm3 as ->.
    + apply (linked_rewired _ _ _ _ _ _ Hr); over.
  - apply NoDup_rotate in Hfd as [Hh Hd]%NoDup_cons. apply NoDup_cons. split.
    + rewrite elem_of_app. intros [Hx|Hx]; [apply (Hdis _ Hx); left | done].
    + apply NoDup_app. split_and!; [done| |done]. intros x Hx Hxl. apply (Hdis _ Hx). by right.
Qed.

Lemma splice_init_queue m a la h l : queue m a la -> queue m h l -> a ∉ h :: l ->
  (forall x, x ∈ la -> x ∉ h :: l) ->
  exists m', iqueue_splice_init m a h = Ok m' /\ queue m' h (la ++ l) /\ queue m' a [] /\
    untouched m m' (a :: la ++ h :: l).
Proof.
  intros Hqa Hq Ha Hdis.
  assert (Hs : exists m1, iqueue_splice m a h = Ok m1 /\ queue m1 h (la ++ l) /\ is_Some (m1 !! a) /\
    untouched m m1 (a :: la ++ h :: l)).
  { unfold iqueue_splice. rewrite (is_empty_queue _ _ _ Hqa). cbn [bind].
    pose proof (queue_alloc _ _ _ a Hqa ltac:(left)) as Hal. case_bool_decide as Hla; cbn [negb].
    - subst la. by exists m.
    - destruct (splice_queue _ _ _ _ _ Hqa Hq Ha Hdis Hla) as (m1 & -> & Hq1 & Hu). exists m1.
      split_and!; [done..| |intros x Hx; apply Hu; set_solver +Hx].
      destruct (queue_inner _ _ _ Hqa Hla) as (f & _ & Hf & _). apply (nx_alloc _ _ f). rewrite <- Hf.
      apply Hu. destruct Hqa as [_ [Haa _]%NoDup_cons]. set_solver +Ha Haa. }
  destruct Hs as (m1 & He & Hq1 & Hal & Hu1). destruct (init_queue m1 a Hal) as (m2 & He2 & Hqa2 & Hu2).
  unfold iqueue_splice_init. rewrite He. cbn [bind]. exists m2. split_and!; [done| |done|].
  - apply (queue_untouched m1 _ [a]); [done..|]. intros y Hy ->%list_elem_of_singleton.
    destruct Hqa as [_ [Haa _]%NoDup_cons]. set_solver +Hy Haa Ha.
  - intros y Hy. destruct (Hu2 y) as [-> ->]; [set_solver +Hy|]. by apply Hu1.
Qed.

(** ** The contract of the queue *)

(** C29.  The macros implement lists.  On a memory in which the nodes [l] hang at
    the head [h], adding at either end, unlinking a node from any position,
    moving another queue to the front, the emptiness test and the loop over the
    queue have the effect and result of the list operation; they never touch a
    node outside the queue, so other queues in the same memory stay as they are;
    the loop ends, visiting every node once and in order. *)
Theorem iqueue_refines_lists m h l :
  queue m h l ->
  (forall node, is_Some (m !! node) -> node ∉ h :: l ->
    (exists m', IQUEUE_ADD m node h = Ok m' /\ queue m' h (node :: l) /\ untouched m m' (node :: h :: l)) /\
    (exists m', IQUEUE_ADD_TAIL m node h = Ok m' /\ queue m' h (l ++ [node]) /\
       untouched m m' (node :: h :: l))) /\
  (forall l1 x l2, l = l1 ++ x :: l2 ->
    (exists m', IQUEUE_DEL m x = Ok m' /\ queue m' h (l1 ++ l2) /\ untouched m m' (h :: l)) /\
    (exists m', IQUEUE_DEL_INIT m x = Ok m' /\ queue m' h (l1 ++ l2) /\ queue m' x [] /\
       untouched m m' (h :: l))) /\
  (forall a la, queue m a la -> a ∉ h :: l -> (forall x, x ∈ la -> x ∉ h :: l) ->
    exists m', iqueue_splice_init m a h = Ok m' /\ queue m' h (la ++ l) /\ queue m' a [] /\
      untouched m m' (a :: la ++ h :: l)) /\
  IQUEUE_IS_EMPTY m h = Ok (bool_decide (l = [])) /\
  iqueue_foreach_entry (S (length l)) m h = Ok (Some l) /\
  (forall m' nodes g k, queue m g k -> untouched m m' nodes -> (forall x, x ∈ g :: k -> x ∉ nodes) ->
    queue m' g k).
Proof.
  intros Hq. split_and!.
  - intros node Ha Hn. by split; [apply add_queue | apply add_tail_queue].
  - intros l1 x l2 ->. split; [|by apply del_init_queue].
    destruct (del_queue _ _ _ _ _ Hq) as (m' & ? & ? & _ & _ & ?). by exists m'.
  - intros. by apply splice_init_queue.
  - by apply is_empty_queue.
  - apply foreach_queue; [done | lia].
  - intros. by eapply queue_untouched.
Qed.

(** Two queue heads at 100 and 200 and three nodes, filled by the macros. *)
Definition demo_memory : heap :=
  list_to_map (map (fun p => (p, {| next := 0; prev := 0 |})) [100; 200; 1; 2; 3]).
Definition demo_queues : outcome heap :=
  let* m := IQUEUE_INIT demo_memory 100 in
  let* m := IQUEUE_INIT m 200 in
  let* m := IQUEUE_ADD_TAIL m 1 100 in
  let* m := IQUEUE_ADD_TAIL m 2 100 in
  IQUEUE_ADD m 3 100.
Definition demo_ring : heap := match demo_queues with Ok m => m | Crash _ => ∅ end.

Lemma iqueue_refines_lists_witness :
  queue demo_ring 100 [3; 1; 2] /\
  (exists m', IQUEUE_DEL demo_ring 1 = Ok m' /\ queue m' 100 [3; 2]) /\
  iqueue_foreach_entry 4 demo_ring 100 = Ok (Some [3; 1; 2]).
Proof.
  assert (Hq : queue demo_ring 100 [3; 1; 2]).
  { split; [vm_compute; tauto|]. apply (bool_decide_unpack _). by vm_compute. }
  split; [done|]. destruct (iqueue_refines_lists demo_ring 100 [3; 1; 2] Hq) as (_ & Hdel & _ & _ & He & _).
  split; [|exact He]. destruct (Hdel [3] 1 [2] eq_refl) as [(m' & Hd & Hq' & _) _]. by exists m'.
Defined.
