(* ===== verification/Endian.v ===== *)
(** * Integers in memory and network byte order ([muduo/net/Endian.h])

    The host is little-endian; the functions of [Endian.h] swap the bytes of an
    integer, so that its memory representation is the big-endian one. *)

From S2P Require Import Prelude.

(** ** Memory representation *)

(** The [n] bytes of an integer in the memory of the host. *)
Fixpoint le_bytes (n : nat) (x : Z) : bytes :=
  match n with O => [] | S n => z2b x :: le_bytes n (x / 256) end.

Fixpoint le_val (l : bytes) : Z :=
  match l with [] => 0 | b :: l => b2z b + 256 * le_val l end.

(** [htobe16], [htobe32], [htobe64] and their inverses on a little-endian host. *)
Definition bswap (n : nat) (x : Z) : Z := le_val (reverse (le_bytes n x)).

Definition hostToNetwork64 (host64 : Z) : Z := bswap 8 host64.
Definition hostToNetwork32 (host32 : Z) : Z := bswap 4 host32.
Definition hostToNetwork16 (host16 : Z) : Z := bswap 2 host16.
Definition networkToHost64 (net64 : Z) : Z := bswap 8 net64.
Definition networkToHost32 (net32 : Z) : Z := bswap 4 net32.
Definition networkToHost16 (net16 : Z) : Z := bswap 2 net16.

(** ** Lemmas *)

Definition pow256 (n : nat) : Z := 256 ^ Z.of_nat n.

Lemma pow256_S n : pow256 (S n) = 256 * pow256 n.
Proof. unfold pow256. rewrite Nat2Z.inj_succ, Z.pow_succ_r; lia. Qed.

Lemma pow256_pos n : 0 < pow256 n.
Proof. unfold pow256. lia. Qed.

Lemma length_le_bytes n x : length (le_bytes n x) = n.
Proof. revert x. induction n; intros; simpl; auto. Qed.

Lemma le_val_range l : 0 <= le_val l < pow256 (length l).
Proof.
  induction l as [|b l IH]; [unfold pow256; simpl; lia|]. cbn [length le_val]. rewrite pow256_S.
  pose proof (b2z_range b) as Hb. unfold is_u8 in Hb. lia.
Qed.

Lemma le_val_bytes n x : le_val (le_bytes n x) = x mod pow256 n.
Proof.
  revert x. induction n as [|n IH]; intros x; cbn [le_bytes le_val].
  - unfold pow256. simpl. by rewrite Z.mod_1_r.
  - rewrite b2z_z2b, IH, pow256_S. unfold u8. pose proof (pow256_pos n).
    rewrite (Z.rem_mul_r x 256 (pow256 n)) by lia. done.
Qed.

Lemma le_bytes_val l : le_bytes (length l) (le_val l) = l.
Proof.
  induction l as [|b l IH]; [done|]. cbn [length le_val le_bytes].
  pose proof (b2z_range b) as Hb. unfold is_u8 in Hb. f_equal.
  - rewrite <- (z2b_b2z b) at 2. unfold z2b. do 3 f_equal.
    unfold u8. rewrite Z.mul_comm, Z.mod_add by lia. done.
  - rewrite Z.mul_comm, Z.div_add, Z.div_small by lia. done.
Qed.

Lemma le_bytes_mod n x : le_bytes n (x mod pow256 n) = le_bytes n x.
Proof.
  rewrite <- le_val_bytes. rewrite <- (length_le_bytes n x) at 1. apply le_bytes_val.
Qed.

Lemma le_bytes_bswap n x : le_bytes n (bswap n x) = reverse (le_bytes n x).
Proof.
  unfold bswap. rewrite <- (length_le_bytes n x) at 1. rewrite <- length_reverse. apply le_bytes_val.
Qed.

Lemma bswap_le_val l : bswap (length l) (le_val l) = le_val (reverse l).
Proof. unfold bswap. by rewrite le_bytes_val. Qed.

(** Swapping twice gives the value back, truncated to its width. *)
Lemma bswap_bswap n x : bswap n (bswap n x) = x mod pow256 n.
Proof. unfold bswap at 1. rewrite le_bytes_bswap, reverse_involutive. apply le_val_bytes. Qed.

(** Signed values of the fixed-width types. *)
Definition signed (n : nat) (x : Z) : Z :=
  (x + pow256 n / 2) mod pow256 n - pow256 n / 2.

Definition is_signed (n : nat) (x : Z) : Prop := - (pow256 n / 2) <= x < pow256 n / 2.

Lemma signed_mod n x : (0 < n)%nat -> is_signed n x -> signed n (x mod pow256 n) = x.
Proof.
  intros Hn Hx. unfold signed, is_signed in *. destruct n as [|n]; [lia|].
  rewrite pow256_S in *. pose proof (pow256_pos n).
  replace (256 * pow256 n / 2) with (128 * pow256 n) in *
    by (replace (256 * pow256 n) with (128 * pow256 n * 2) by lia; rewrite Z.div_mul; lia).
  rewrite Zplus_mod_idemp_l, Z.mod_small; lia.
Qed.
