(* ===== verification/Effects.v ===== *)
(** * Event handlers

    A callback of the programs reads and changes an object, gives data to the
    kernel or to another object, and may end the process.  [M S E A] is such a
    computation over the state [S] with the observable actions [E], in order;
    [wp] is the weakest precondition the proofs about handlers use, with one
    postcondition for a normal return and one for each way to crash. *)

From S2P Require Import Prelude.

Definition M (S E A : Type) : Type := S -> outcome (A * S * list E).

Section monad.
Context {S E : Type}.

Definition mret {A} (a : A) : M S E A := fun s => Ok (a, s, []).

Definition mthen {A B} (m : M S E A) (k : A -> M S E B) : M S E B := fun s =>
  match m s with
  | Ok (a, s', es) =>
      match k a s' with
      | Ok (b, s'', es') => Ok (b, s'', es ++ es')
      | Crash c => Crash c
      end
  | Crash c => Crash c
  end.

Definition mget {A} (f : S -> A) : M S E A := fun s => Ok (f s, s, []).
Definition mmod (f : S -> S) : M S E unit := fun s => Ok (tt, f s, []).
Definition emit (e : E) : M S E unit := fun s => Ok (tt, s, [e]).
Definition lift {A} (o : outcome A) : M S E A := fun s =>
  match o with Ok a => Ok (a, s, []) | Crash c => Crash c end.
Definition mcrash {A} (c : crash) : M S E A := fun _ => Crash c.
Definition massert (b : bool) : M S E unit := lift (assert_ b).

(** [for (x : l) f(x);] *)
Fixpoint for_ {A} (l : list A) (f : A -> M S E unit) : M S E unit :=
  match l with
  | [] => mret tt
  | x :: l => mthen (f x) (fun _ => for_ l f)
  end.
End monad.

Declare Scope handler_scope.
Delimit Scope handler_scope with handler.
Notation "'do' x <- m ; k" := (mthen m (fun x => k))
  (at level 10, x pattern, m at level 100, k at level 200) : handler_scope.

(** Run a computation of a member object; [get] and [put] reach the member. *)
Definition member {S T E A} (get : S -> option T) (put : T -> S -> S) (m : M T E A) : M S E A := fun s =>
  match get s with
  | Some t =>
      match m t with
      | Ok (a, t', es) => Ok (a, put t' s, es)
      | Crash c => Crash c
      end
  | None => Crash NullDeref
  end.

(** ** Weakest preconditions *)

Section wp.
Context {S E : Type}.

Definition wp {A} (C : crash -> Prop) (m : M S E A) (s : S) (Q : A -> S -> list E -> Prop) : Prop :=
  match m s with
  | Ok (a, s', es) => Q a s' es
  | Crash c => C c
  end.

(** No crash at all. *)
Definition safe : crash -> Prop := fun _ => False.

Variable C : crash -> Prop.

Lemma wp_ret {A} (a : A) s (Q : A -> S -> list E -> Prop) : Q a s [] -> wp C (mret a) s Q.
Proof. done. Qed.

Lemma wp_then {A B} (m : M S E A) (k : A -> M S E B) s Q :
  wp C m s (fun a s' es => wp C (k a) s' (fun b s'' es' => Q b s'' (es ++ es'))) ->
  wp C (mthen m k) s Q.
Proof.
  unfold wp, mthen. destruct (m s) as [[[a s'] es]|c]; [|done].
  by destruct (k a s') as [[[b s''] es']|c].
Qed.

Lemma wp_get {A} (f : S -> A) s (Q : A -> S -> list E -> Prop) : Q (f s) s [] -> wp C (mget f) s Q.
Proof. done. Qed.

Lemma wp_mod f s (Q : unit -> S -> list E -> Prop) : Q tt (f s) [] -> wp C (mmod f) s Q.
Proof. done. Qed.

Lemma wp_emit e s (Q : unit -> S -> list E -> Prop) : Q tt s [e] -> wp C (emit e) s Q.
Proof. done. Qed.

Lemma wp_lift {A} (o : outcome A) s (Q : A -> S -> list E -> Prop) a :
  o = Ok a -> Q a s [] -> wp C (lift o) s Q.
Proof. by intros ->. Qed.

Lemma wp_lift_crash {A} (o : outcome A) s (Q : A -> S -> list E -> Prop) :
  match o with Ok a => Q a s [] | Crash c => C c end -> wp C (lift o) s Q.
Proof. unfold wp, lift. by destruct o. Qed.

Lemma wp_assert b s (Q : unit -> S -> list E -> Prop) :
  b = true -> Q tt s [] -> wp C (massert b) s Q.
Proof. by intros ->. Qed.

Lemma wp_assert_crash b s (Q : unit -> S -> list E -> Prop) :
  C AssertFailed -> (b = true -> Q tt s []) -> wp C (massert b) s Q.
Proof. intros Hc Hq. destruct b; [by apply Hq | exact Hc]. Qed.

Lemma wp_crash {A} c s (Q : A -> S -> list E -> Prop) : C c -> wp C (mcrash c) s Q.
Proof. done. Qed.

Lemma wp_weaken {A} (C' : crash -> Prop) (m : M S E A) s Q :
  (forall c, C' c -> C c) -> wp C' m s Q -> wp C m s Q.
Proof. unfold wp. destruct (m s) as [[[a s'] es]|c]; auto. Qed.

Lemma wp_mono {A} (m : M S E A) s (Q Q' : A -> S -> list E -> Prop) :
  wp C m s Q -> (forall a s' es, Q a s' es -> Q' a s' es) -> wp C m s Q'.
Proof. unfold wp. destruct (m s) as [[[a s'] es]|c]; auto. Qed.

(** The invariant [I] of a loop speaks of the state and of the actions so far. *)
Lemma wp_for {A} (l : list A) (f : A -> M S E unit) (I : S -> list E -> Prop) s es0 :
  I s es0 ->
  (forall x s es, x ∈ l -> I s es -> wp C (f x) s (fun _ s' es' => I s' (es ++ es'))) ->
  wp C (for_ l f) s (fun _ s' es' => I s' (es0 ++ es')).
Proof.
  revert s es0. induction l as [|x l IH]; intros s es0 Hi Hstep; simpl.
  - apply wp_ret. by rewrite app_nil_r.
  - apply wp_then. eapply wp_mono; [apply (Hstep x s es0); [left | done]|].
    intros u s' es Hi'. eapply wp_mono; [apply (IH _ _ Hi')|].
    + intros y s2 es2 Hy. apply Hstep. by right.
    + intros ? s2 es2. by rewrite app_assoc.
Qed.
End wp.

Lemma wp_member {S T E A} C (get : S -> option T) (put : T -> S -> S) (m : M T E A) s t Q :
  get s = Some t -> wp C m t (fun a t' es => Q a (put t' s) es) -> wp C (member get put m) s Q.
Proof. unfold wp, member. intros ->. by destruct (m t) as [[[a t'] es]|c]. Qed.

Lemma wp_elim {S E A} (m : M S E A) s Q :
  wp safe m s Q -> exists a s' es, m s = Ok (a, s', es) /\ Q a s' es.
Proof. unfold wp. destruct (m s) as [[[a s'] es]|c]; [by eauto | done]. Qed.

(** Steps through a handler up to the next call that needs a lemma. *)
Ltac wp_step :=
  lazymatch goal with
  | |- wp _ (mret _) _ _ => apply wp_ret
  | |- wp _ (mthen _ _) _ _ => apply wp_then
  | |- wp _ (mget _) _ _ => apply wp_get
  | |- wp _ (mmod _) _ _ => apply wp_mod
  | |- wp _ (emit _) _ _ => apply wp_emit
  end.
Ltac wp_steps := repeat first [wp_step | progress (cbv beta iota); wp_step].
