(* ===== verification/KcpBase.v ===== *)
(** * KCP: segments, the control block, configuration

    [kcp/ikcp.h] (the structures) and the first part of [kcp/ikcp.c]:
    constants, 32-bit helpers, [ikcp_create] and the configuration calls.

    The intrusive queues of the control block are lists, first element first;
    [Iqueue.v] proves that the pointer macros of [ikcp.h] implement the list
    operations used here.  [malloc] is taken to succeed (the code asserts it),
    the log hooks are never installed ([logmask] stays 0), and the fields
    [user], [buffer], [writelog], [logmask] are not part of the record:
    [buffer] is scratch memory of [ikcp_flush], whose use [KcpFlush.v] models. *)

From S2P Require Import Prelude.

(** ** Constants *)

Definition IKCP_RTO_NDL : Z := 30.
Definition IKCP_RTO_MIN : Z := 100.
Definition IKCP_RTO_DEF : Z := 200.
Definition IKCP_RTO_MAX : Z := 60000.
Definition IKCP_CMD_PUSH : Z := 81.
Definition IKCP_CMD_ACK : Z := 82.
Definition IKCP_CMD_WASK : Z := 83.
Definition IKCP_CMD_WINS : Z := 84.
Definition IKCP_ASK_SEND : Z := 1.
Definition IKCP_ASK_TELL : Z := 2.
Definition IKCP_WND_SND : Z := 32.
Definition IKCP_WND_RCV : Z := 128.
Definition IKCP_MTU_DEF : Z := 1400.
Definition IKCP_ACK_FAST : Z := 3.
Definition IKCP_INTERVAL : Z := 100.
Definition IKCP_OVERHEAD : Z := 24.
Definition IKCP_DEADLINK : Z := 20.
Definition IKCP_THRESH_INIT : Z := 2.
Definition IKCP_THRESH_MIN : Z := 2.
Definition IKCP_PROBE_INIT : Z := 7000.
Definition IKCP_PROBE_LIMIT : Z := 120000.

(** The compile-time constants unfold together. *)
Ltac kcp_consts :=
  unfold IKCP_RTO_NDL, IKCP_RTO_MIN, IKCP_RTO_DEF, IKCP_RTO_MAX,
    IKCP_CMD_PUSH, IKCP_CMD_ACK, IKCP_CMD_WASK, IKCP_CMD_WINS,
    IKCP_ASK_SEND, IKCP_ASK_TELL, IKCP_WND_SND, IKCP_WND_RCV, IKCP_MTU_DEF,
    IKCP_ACK_FAST, IKCP_INTERVAL, IKCP_OVERHEAD, IKCP_DEADLINK,
    IKCP_THRESH_INIT, IKCP_THRESH_MIN, IKCP_PROBE_INIT, IKCP_PROBE_LIMIT in *.

(** ** 32-bit helpers *)

Definition _imin_ (a b : Z) : Z := if a <=? b then a else b.
Definition _imax_ (a b : Z) : Z := if a >=? b then a else b.
Definition _ibound_ (lower middle upper : Z) : Z := _imin_ (_imax_ lower middle) upper.

(** The signed distance of two 32-bit sequence numbers or clock readings. *)
Definition _itimediff (later earlier : Z) : Z := s32 (u32 (later - earlier)).

(** ** Segments *)

Record IKCPSEG := {
  seg_conv : Z; seg_cmd : Z; seg_frg : Z; seg_wnd : Z; seg_ts : Z; seg_sn : Z;
  seg_una : Z; seg_len : Z; seg_resendts : Z; seg_rto : Z; seg_fastack : Z; seg_xmit : Z;
  seg_data : bytes
}.

Definition eta_IKCPSEG (r : IKCPSEG) : IKCPSEG := {|
  seg_conv := seg_conv r; seg_cmd := seg_cmd r; seg_frg := seg_frg r;
  seg_wnd := seg_wnd r; seg_ts := seg_ts r; seg_sn := seg_sn r;
  seg_una := seg_una r; seg_len := seg_len r; seg_resendts := seg_resendts r;
  seg_rto := seg_rto r; seg_fastack := seg_fastack r; seg_xmit := seg_xmit r;
  seg_data := seg_data r
|}.

#[export] Instance set_seg_conv : Setter seg_conv := ltac:(build_setter eta_IKCPSEG seg_conv).
#[export] Instance set_seg_cmd : Setter seg_cmd := ltac:(build_setter eta_IKCPSEG seg_cmd).
#[export] Instance set_seg_frg : Setter seg_frg := ltac:(build_setter eta_IKCPSEG seg_frg).
#[export] Instance set_seg_wnd : Setter seg_wnd := ltac:(build_setter eta_IKCPSEG seg_wnd).
#[export] Instance set_seg_ts : Setter seg_ts := ltac:(build_setter eta_IKCPSEG seg_ts).
#[export] Instance set_seg_sn : Setter seg_sn := ltac:(build_setter eta_IKCPSEG seg_sn).
#[export] Instance set_seg_una : Setter seg_una := ltac:(build_setter eta_IKCPSEG seg_una).
#[export] Instance set_seg_len : Setter seg_len := ltac:(build_setter eta_IKCPSEG seg_len).
#[export] Instance set_seg_resendts : Setter seg_resendts := ltac:(build_setter eta_IKCPSEG seg_resendts).
#[export] Instance set_seg_rto : Setter seg_rto := ltac:(build_setter eta_IKCPSEG seg_rto).
#[export] Instance set_seg_fastack : Setter seg_fastack := ltac:(build_setter eta_IKCPSEG seg_fastack).
#[export] Instance set_seg_xmit : Setter seg_xmit := ltac:(build_setter eta_IKCPSEG seg_xmit).
#[export] Instance set_seg_data : Setter seg_data := ltac:(build_setter eta_IKCPSEG seg_data).

(** ** The control block *)

Record IKCPCB := {
  kcp_conv : Z; kcp_mtu : Z; kcp_mss : Z; kcp_state : Z; kcp_snd_una : Z; kcp_snd_nxt : Z;
  kcp_rcv_nxt : Z; kcp_ts_recent : Z; kcp_ts_lastack : Z; kcp_ssthresh : Z; kcp_rx_rttval : Z; kcp_rx_srtt : Z;
  kcp_rx_rto : Z; kcp_rx_minrto : Z; kcp_snd_wnd : Z; kcp_rcv_wnd : Z; kcp_rmt_wnd : Z; kcp_cwnd : Z;
  kcp_probe : Z; kcp_current : Z; kcp_interval : Z; kcp_ts_flush : Z; kcp_xmit : Z; kcp_nrcv_buf : Z;
  kcp_nsnd_buf : Z; kcp_nrcv_que : Z; kcp_nsnd_que : Z; kcp_nodelay : Z; kcp_updated : Z; kcp_ts_probe : Z;
  kcp_probe_wait : Z; kcp_dead_link : Z; kcp_incr : Z;
  kcp_snd_queue : list IKCPSEG; kcp_rcv_queue : list IKCPSEG; kcp_snd_buf : list IKCPSEG; kcp_rcv_buf : list IKCPSEG;
  kcp_acklist : list Z;
  kcp_ackcount : Z; kcp_ackblock : Z; kcp_fastresend : Z; kcp_nocwnd : Z; kcp_stream : Z;
  kcp_output : bool
}.

Definition eta_IKCPCB (r : IKCPCB) : IKCPCB := {|
  kcp_conv := kcp_conv r; kcp_mtu := kcp_mtu r; kcp_mss := kcp_mss r;
  kcp_state := kcp_state r; kcp_snd_una := kcp_snd_una r; kcp_snd_nxt := kcp_snd_nxt r;
  kcp_rcv_nxt := kcp_rcv_nxt r; kcp_ts_recent := kcp_ts_recent r; kcp_ts_lastack := kcp_ts_lastack r;
  kcp_ssthresh := kcp_ssthresh r; kcp_rx_rttval := kcp_rx_rttval r; kcp_rx_srtt := kcp_rx_srtt r;
  kcp_rx_rto := kcp_rx_rto r; kcp_rx_minrto := kcp_rx_minrto r; kcp_snd_wnd := kcp_snd_wnd r;
  kcp_rcv_wnd := kcp_rcv_wnd r; kcp_rmt_wnd := kcp_rmt_wnd r; kcp_cwnd := kcp_cwnd r;
  kcp_probe := kcp_probe r; kcp_current := kcp_current r; kcp_interval := kcp_interval r;
  kcp_ts_flush := kcp_ts_flush r; kcp_xmit := kcp_xmit r; kcp_nrcv_buf := kcp_nrcv_buf r;
  kcp_nsnd_buf := kcp_nsnd_buf r; kcp_nrcv_que := kcp_nrcv_que r; kcp_nsnd_que := kcp_nsnd_que r;
  kcp_nodelay := kcp_nodelay r; kcp_updated := kcp_updated r; kcp_ts_probe := kcp_ts_probe r;
  kcp_probe_wait := kcp_probe_wait r; kcp_dead_link := kcp_dead_link r; kcp_incr := kcp_incr r;
  kcp_snd_queue := kcp_snd_queue r; kcp_rcv_queue := kcp_rcv_queue r; kcp_snd_buf := kcp_snd_buf r;
  kcp_rcv_buf := kcp_rcv_buf r; kcp_acklist := kcp_acklist r; kcp_ackcount := kcp_ackcount r;
  kcp_ackblock := kcp_ackblock r; kcp_fastresend := kcp_fastresend r; kcp_nocwnd := kcp_nocwnd r;
  kcp_stream := kcp_stream r; kcp_output := kcp_output r
|}.

#[export] Instance set_kcp_conv : Setter kcp_conv := ltac:(build_setter eta_IKCPCB kcp_conv).
#[export] Instance set_kcp_mtu : Setter kcp_mtu := ltac:(build_setter eta_IKCPCB kcp_mtu).
#[export] Instance set_kcp_mss : Setter kcp_mss := ltac:(build_setter eta_IKCPCB kcp_mss).
#[export] Instance set_kcp_state : Setter kcp_state := ltac:(build_setter eta_IKCPCB kcp_state).
#[export] Instance set_kcp_snd_una : Setter kcp_snd_una := ltac:(build_setter eta_IKCPCB kcp_snd_una).
#[export] Instance set_kcp_snd_nxt : Setter kcp_snd_nxt := ltac:(build_setter eta_IKCPCB kcp_snd_nxt).
#[export] Instance set_kcp_rcv_nxt : Setter kcp_rcv_nxt := ltac:(build_setter eta_IKCPCB kcp_rcv_nxt).
#[export] Instance set_kcp_ts_recent : Setter kcp_ts_recent := ltac:(build_setter eta_IKCPCB kcp_ts_recent).
#[export] Instance set_kcp_ts_lastack : Setter kcp_ts_lastack := ltac:(build_setter eta_IKCPCB kcp_ts_lastack).
#[export] Instance set_kcp_ssthresh : Setter kcp_ssthresh := ltac:(build_setter eta_IKCPCB kcp_ssthresh).
#[export] Instance set_kcp_rx_rttval : Setter kcp_rx_rttval := ltac:(build_setter eta_IKCPCB kcp_rx_rttval).
#[export] Instance set_kcp_rx_srtt : Setter kcp_rx_srtt := ltac:(build_setter eta_IKCPCB kcp_rx_srtt).
#[export] Instance set_kcp_rx_rto : Setter kcp_rx_rto := ltac:(build_setter eta_IKCPCB kcp_rx_rto).
#[export] Instance set_kcp_rx_minrto : Setter kcp_rx_minrto := ltac:(build_setter eta_IKCPCB kcp_rx_minrto).
#[export] Instance set_kcp_snd_wnd : Setter kcp_snd_wnd := ltac:(build_setter eta_IKCPCB kcp_snd_wnd).
#[export] Instance set_kcp_rcv_wnd : Setter kcp_rcv_wnd := ltac:(build_setter eta_IKCPCB kcp_rcv_wnd).
#[export] Instance set_kcp_rmt_wnd : Setter kcp_rmt_wnd := ltac:(build_setter eta_IKCPCB kcp_rmt_wnd).
#[export] Instance set_kcp_cwnd : Setter kcp_cwnd := ltac:(build_setter eta_IKCPCB kcp_cwnd).
#[export] Instance set_kcp_probe : Setter kcp_probe := ltac:(build_setter eta_IKCPCB kcp_probe).
#[export] Instance set_kcp_current : Setter kcp_current := ltac:(build_setter eta_IKCPCB kcp_current).
#[export] Instance set_kcp_interval : Setter kcp_interval := ltac:(build_setter eta_IKCPCB kcp_interval).
#[export] Instance set_kcp_ts_flush : Setter kcp_ts_flush := ltac:(build_setter eta_IKCPCB kcp_ts_flush).
#[export] Instance set_kcp_xmit : Setter kcp_xmit := ltac:(build_setter eta_IKCPCB kcp_xmit).
#[export] Instance set_kcp_nrcv_buf : Setter kcp_nrcv_buf := ltac:(build_setter eta_IKCPCB kcp_nrcv_buf).
#[export] Instance set_kcp_nsnd_buf : Setter kcp_nsnd_buf := ltac:(build_setter eta_IKCPCB kcp_nsnd_buf).
#[export] Instance set_kcp_nrcv_que : Setter kcp_nrcv_que := ltac:(build_setter eta_IKCPCB kcp_nrcv_que).
#[export] Instance set_kcp_nsnd_que : Setter kcp_nsnd_que := ltac:(build_setter eta_IKCPCB kcp_nsnd_que).
#[export] Instance set_kcp_nodelay : Setter kcp_nodelay := ltac:(build_setter eta_IKCPCB kcp_nodelay).
#[export] Instance set_kcp_updated : Setter kcp_updated := ltac:(build_setter eta_IKCPCB kcp_updated).
#[export] Instance set_kcp_ts_probe : Setter kcp_ts_probe := ltac:(build_setter eta_IKCPCB kcp_ts_probe).
#[export] Instance set_kcp_probe_wait : Setter kcp_probe_wait := ltac:(build_setter eta_IKCPCB kcp_probe_wait).
#[export] Instance set_kcp_dead_link : Setter kcp_dead_link := ltac:(build_setter eta_IKCPCB kcp_dead_link).
#[export] Instance set_kcp_incr : Setter kcp_incr := ltac:(build_setter eta_IKCPCB kcp_incr).
#[export] Instance set_kcp_snd_queue : Setter kcp_snd_queue := ltac:(build_setter eta_IKCPCB kcp_snd_queue).
#[export] Instance set_kcp_rcv_queue : Setter kcp_rcv_queue := ltac:(build_setter eta_IKCPCB kcp_rcv_queue).
#[export] Instance set_kcp_snd_buf : Setter kcp_snd_buf := ltac:(build_setter eta_IKCPCB kcp_snd_buf).
#[export] Instance set_kcp_rcv_buf : Setter kcp_rcv_buf := ltac:(build_setter eta_IKCPCB kcp_rcv_buf).
#[export] Instance set_kcp_acklist : Setter kcp_acklist := ltac:(build_setter eta_IKCPCB kcp_acklist).
#[export] Instance set_kcp_ackcount : Setter kcp_ackcount := ltac:(build_setter eta_IKCPCB kcp_ackcount).
#[export] Instance set_kcp_ackblock : Setter kcp_ackblock := ltac:(build_setter eta_IKCPCB kcp_ackblock).
#[export] Instance set_kcp_fastresend : Setter kcp_fastresend := ltac:(build_setter eta_IKCPCB kcp_fastresend).
#[export] Instance set_kcp_nocwnd : Setter kcp_nocwnd := ltac:(build_setter eta_IKCPCB kcp_nocwnd).
#[export] Instance set_kcp_stream : Setter kcp_stream := ltac:(build_setter eta_IKCPCB kcp_stream).
#[export] Instance set_kcp_output : Setter kcp_output := ltac:(build_setter eta_IKCPCB kcp_output).

Abbreviation ikcpcb := IKCPCB.

(** ** Creation and configuration *)

(** [ikcp_create conv user]. *)
Definition ikcp_create (conv : Z) : ikcpcb := {|
  kcp_conv := conv; kcp_snd_una := 0; kcp_snd_nxt := 0; kcp_rcv_nxt := 0;
  kcp_ts_recent := 0; kcp_ts_lastack := 0; kcp_ts_probe := 0; kcp_probe_wait := 0;
  kcp_snd_wnd := IKCP_WND_SND; kcp_rcv_wnd := IKCP_WND_RCV; kcp_rmt_wnd := IKCP_WND_RCV;
  kcp_cwnd := 0; kcp_incr := 0; kcp_probe := 0;
  kcp_mtu := IKCP_MTU_DEF; kcp_mss := u32 (IKCP_MTU_DEF - IKCP_OVERHEAD); kcp_stream := 0;
  kcp_snd_queue := []; kcp_rcv_queue := []; kcp_snd_buf := []; kcp_rcv_buf := [];
  kcp_nrcv_buf := 0; kcp_nsnd_buf := 0; kcp_nrcv_que := 0; kcp_nsnd_que := 0;
  kcp_state := 0; kcp_acklist := []; kcp_ackblock := 0; kcp_ackcount := 0;
  kcp_rx_srtt := 0; kcp_rx_rttval := 0; kcp_rx_rto := IKCP_RTO_DEF;
  kcp_rx_minrto := IKCP_RTO_MIN; kcp_current := 0; kcp_interval := IKCP_INTERVAL;
  kcp_ts_flush := IKCP_INTERVAL; kcp_nodelay := 0; kcp_updated := 0;
  kcp_ssthresh := IKCP_THRESH_INIT; kcp_fastresend := 0; kcp_nocwnd := 0; kcp_xmit := 0;
  kcp_dead_link := IKCP_DEADLINK; kcp_output := false
|}.

Definition ikcp_setoutput (kcp : ikcpcb) : ikcpcb := kcp <| kcp_output := true |>.

(** [ikcp_release]: the segments it frees, in order, and the control block as
    it stands when it is freed itself. *)
Definition ikcp_release (kcp : ikcpcb) : list IKCPSEG * ikcpcb :=
  (kcp_snd_buf kcp ++ kcp_rcv_buf kcp ++ kcp_snd_queue kcp ++ kcp_rcv_queue kcp,
   kcp <| kcp_snd_buf := [] |> <| kcp_rcv_buf := [] |>
       <| kcp_snd_queue := [] |> <| kcp_rcv_queue := [] |>
       <| kcp_nrcv_buf := 0 |> <| kcp_nsnd_buf := 0 |>
       <| kcp_nrcv_que := 0 |> <| kcp_nsnd_que := 0 |>
       <| kcp_ackcount := 0 |> <| kcp_acklist := [] |>).

Definition ikcp_setmtu (kcp : ikcpcb) (mtu : Z) : Z * ikcpcb :=
  if (mtu <? 50) || (mtu <? s32 IKCP_OVERHEAD) then (-1, kcp)
  else
    let kcp := kcp <| kcp_mtu := u32 mtu |> in
    (0, kcp <| kcp_mss := u32 (kcp_mtu kcp - IKCP_OVERHEAD) |>).

Definition clamp_interval (interval : Z) : Z :=
  if interval >? 5000 then 5000 else if interval <? 10 then 10 else interval.

Definition ikcp_interval (kcp : ikcpcb) (interval : Z) : Z * ikcpcb :=
  (0, kcp <| kcp_interval := u32 (clamp_interval interval) |>).

Definition ikcp_nodelay (kcp : ikcpcb) (nodelay interval resend nc : Z) : Z * ikcpcb :=
  let kcp :=
    if nodelay >=? 0 then
      let kcp := kcp <| kcp_nodelay := u32 nodelay |> in
      if negb (nodelay =? 0) then kcp <| kcp_rx_minrto := IKCP_RTO_NDL |>
      else kcp <| kcp_rx_minrto := IKCP_RTO_MIN |>
    else kcp in
  let kcp :=
    if interval >=? 0 then kcp <| kcp_interval := u32 (clamp_interval interval) |> else kcp in
  let kcp := if resend >=? 0 then kcp <| kcp_fastresend := resend |> else kcp in
  let kcp := if nc >=? 0 then kcp <| kcp_nocwnd := nc |> else kcp in
  (0, kcp).

Definition ikcp_wndsize (kcp : ikcpcb) (sndwnd rcvwnd : Z) : Z * ikcpcb :=
  let kcp := if sndwnd >? 0 then kcp <| kcp_snd_wnd := u32 sndwnd |> else kcp in
  let kcp :=
    if rcvwnd >? 0 then kcp <| kcp_rcv_wnd := _imax_ (u32 rcvwnd) IKCP_WND_RCV |> else kcp in
  (0, kcp).

Definition ikcp_waitsnd (kcp : ikcpcb) : Z := s32 (u32 (kcp_nsnd_buf kcp + kcp_nsnd_que kcp)).

(** The control block both programs set up for a conversation. *)
Definition app_kcp (conv : Z) : ikcpcb :=
  (ikcp_nodelay (ikcp_setoutput (ikcp_create conv)) 1 10 1 1).2.

(** ** Lemmas on the helpers *)

Lemma _imin_spec a b : _imin_ a b = Z.min a b.
Proof. unfold _imin_. bcase; lia. Qed.

Lemma _imax_spec a b : _imax_ a b = Z.max a b.
Proof. unfold _imax_. bcase; lia. Qed.

Lemma _ibound_range lower middle upper :
  lower <= upper -> lower <= _ibound_ lower middle upper <= upper.
Proof. unfold _ibound_. rewrite _imin_spec, _imax_spec. lia. Qed.

Lemma _itimediff_range a b : is_s32 (_itimediff a b).
Proof. apply s32_range. Qed.

Lemma _itimediff_eq a b : _itimediff a b = s32 (a - b).
Proof. unfold _itimediff. apply s32_u32. Qed.

(** Unbounded sequence numbers less than 2^31 apart are ordered by their
    32-bit representations, wrap-around included. *)
Lemma _itimediff_close a b :
  -2147483648 <= a - b < 2147483648 -> _itimediff (u32 a) (u32 b) = a - b.
Proof. intros. rewrite _itimediff_eq. word. Qed.

Lemma _itimediff_close_r a b c :
  -2147483648 <= a - (b + c) < 2147483648 -> _itimediff (u32 a) (u32 (u32 b + c)) = a - (b + c).
Proof. intros. rewrite u32_add_l. by apply _itimediff_close. Qed.

Lemma _itimediff_refl a : _itimediff a a = 0.
Proof. rewrite _itimediff_eq. word. Qed.

(** The signed distance is exactly antisymmetric except at -2^31. *)
Lemma _itimediff_antisym a b :
  _itimediff a b <> -2147483648 -> _itimediff b a = - _itimediff a b.
Proof. rewrite !_itimediff_eq. word. Qed.

(** ** The configuration invariant *)

Record cfg_wf (kcp : ikcpcb) : Prop := {
  cfg_mtu : 50 <= kcp_mtu kcp < 2147483648;
  cfg_mss : kcp_mss kcp = kcp_mtu kcp - IKCP_OVERHEAD;
  cfg_rcv_wnd : IKCP_WND_RCV <= kcp_rcv_wnd kcp < 2147483648;
  cfg_snd_wnd : 0 < kcp_snd_wnd kcp < 2147483648;
  cfg_interval : 10 <= kcp_interval kcp <= 5000;
  cfg_minrto : kcp_rx_minrto kcp = IKCP_RTO_NDL \/ kcp_rx_minrto kcp = IKCP_RTO_MIN;
  cfg_fastresend : 0 <= kcp_fastresend kcp < 2147483648
}.

Lemma clamp_interval_range i : 10 <= clamp_interval i <= 5000.
Proof. unfold clamp_interval. repeat bcase; lia. Qed.

Lemma cfg_wf_create conv : cfg_wf (ikcp_create conv).
Proof. constructor; cbn; kcp_consts; word || auto; lia. Qed.

(** [ikcp_setmtu] accepts exactly the sizes of at least 50 bytes, and then the
    segment payload is the datagram less the header; a refused size changes
    nothing. *)
Lemma ikcp_setmtu_spec kcp mtu :
  is_s32 mtu ->
  (mtu < 50 /\ ikcp_setmtu kcp mtu = (-1, kcp)) \/
  (50 <= mtu /\ exists kcp', ikcp_setmtu kcp mtu = (0, kcp') /\
     kcp_mtu kcp' = mtu /\ kcp_mss kcp' = mtu - IKCP_OVERHEAD).
Proof.
  intros Hm. unfold ikcp_setmtu. change (s32 IKCP_OVERHEAD) with 24.
  destruct ((mtu <? 50) || (mtu <? 24)) eqn:Hb; reflect_bools.
  - left. split; [destruct Hb; reflect_bools; lia | done].
  - right. split; [lia|]. eexists. split; [done|]. simpl. kcp_consts. split; word.
Qed.

Section config.
Variable kcp : ikcpcb.
Hypothesis Hwf : cfg_wf kcp.

Lemma cfg_wf_setmtu mtu : is_s32 mtu -> cfg_wf (ikcp_setmtu kcp mtu).2.
Proof using Hwf.
  intros Hm. unfold ikcp_setmtu. change (s32 IKCP_OVERHEAD) with 24.
  destruct ((mtu <? 50) || (mtu <? 24)) eqn:Hb; [done|].
  reflect_bools. destruct Hwf. constructor; simpl; try done; kcp_consts; word.
Qed.

Lemma cfg_wf_interval interval : cfg_wf (ikcp_interval kcp interval).2.
Proof using Hwf.
  pose proof (clamp_interval_range interval).
  destruct Hwf. constructor; simpl; try done. word.
Qed.

Lemma cfg_wf_nodelay nodelay interval resend nc :
  is_s32 resend -> cfg_wf (ikcp_nodelay kcp nodelay interval resend nc).2.
Proof using Hwf.
  intros Hr. pose proof (clamp_interval_range interval).
  assert (u32 (clamp_interval interval) = clamp_interval interval) as Hc by word.
  destruct Hwf. unfold ikcp_nodelay.
  repeat bcase; constructor; simpl; try done; rewrite ?Hc; auto; word.
Qed.

Lemma cfg_wf_wndsize sndwnd rcvwnd :
  is_s32 sndwnd -> is_s32 rcvwnd -> cfg_wf (ikcp_wndsize kcp sndwnd rcvwnd).2.
Proof using Hwf.
  intros Hs Hr. destruct Hwf. unfold ikcp_wndsize.
  repeat bcase; constructor; simpl; try done; rewrite ?_imax_spec; kcp_consts; word.
Qed.
End config.
