(* ===== verification/KcpWire.v ===== *)
(** * KCP wire format

    The encoders and decoders of [kcp/ikcp.c] (little endian), the segment
    header [ikcp_encode_seg] writes, and the two header readers the proxy and
    the server use to dispatch a datagram ([ikcp_getconv], [ikcp_getsn]).

    An encoder takes the bytes written so far ([char *p] less the start of the
    buffer) and returns them extended; a decoder takes the unread bytes and
    returns the value and the rest.  [unsigned short]/[IUINT32] stores and loads
    through a cast pointer are little endian on every target of the build; the
    other branch of the [#if] computes the same bytes. *)

From S2P Require Import Prelude KcpBase.

Definition ikcp_encode8u (p : bytes) (c : Z) : bytes := p ++ [z2b c].

Definition ikcp_decode8u (p : bytes) : Z * bytes := (byte_at p 0, drop 1 p).

Definition ikcp_encode16u (p : bytes) (w : Z) : bytes :=
  p ++ [z2b (Z.land w 255); z2b (Z.shiftr w 8)].

Definition ikcp_decode16u (p : bytes) : Z * bytes :=
  (u16 (byte_at p 0 + Z.shiftl (byte_at p 1) 8), drop 2 p).

Definition ikcp_encode32u (p : bytes) (l : Z) : bytes :=
  p ++ [z2b (Z.land (Z.shiftr l 0) 255); z2b (Z.land (Z.shiftr l 8) 255);
        z2b (Z.land (Z.shiftr l 16) 255); z2b (Z.land (Z.shiftr l 24) 255)].

Definition ikcp_decode32u (p : bytes) : Z * bytes :=
  let l := byte_at p 3 in
  let l := u32 (byte_at p 2 + Z.shiftl l 8) in
  let l := u32 (byte_at p 1 + Z.shiftl l 8) in
  let l := u32 (byte_at p 0 + Z.shiftl l 8) in
  (l, drop 4 p).

(** [ikcp_encode_seg]: the 24 bytes of a segment header; the casts to [IUINT8]
    and [IUINT16] truncate. *)
Definition ikcp_encode_seg (ptr : bytes) (seg : IKCPSEG) : bytes :=
  let ptr := ikcp_encode32u ptr (seg_conv seg) in
  let ptr := ikcp_encode8u ptr (u8 (seg_cmd seg)) in
  let ptr := ikcp_encode8u ptr (u8 (seg_frg seg)) in
  let ptr := ikcp_encode16u ptr (u16 (seg_wnd seg)) in
  let ptr := ikcp_encode32u ptr (seg_ts seg) in
  let ptr := ikcp_encode32u ptr (seg_sn seg) in
  let ptr := ikcp_encode32u ptr (seg_una seg) in
  let ptr := ikcp_encode32u ptr (seg_len seg) in
  ptr.

(** The locals [ikcp_input] decodes from a header. *)
Record header := {
  h_conv : Z; h_cmd : Z; h_frg : Z; h_wnd : Z; h_ts : Z; h_sn : Z; h_una : Z; h_len : Z
}.

Definition decode_header (data : bytes) : header * bytes :=
  let '(conv, data) := ikcp_decode32u data in
  let '(cmd, data) := ikcp_decode8u data in
  let '(frg, data) := ikcp_decode8u data in
  let '(wnd, data) := ikcp_decode16u data in
  let '(ts, data) := ikcp_decode32u data in
  let '(sn, data) := ikcp_decode32u data in
  let '(una, data) := ikcp_decode32u data in
  let '(len, data) := ikcp_decode32u data in
  ({| h_conv := conv; h_cmd := cmd; h_frg := frg; h_wnd := wnd;
      h_ts := ts; h_sn := sn; h_una := una; h_len := len |}, data).

(** The segment [ikcp_input] builds for a push; the fields it leaves
    uninitialised are those of the sending side. *)
Definition segment_of (h : header) (data : bytes) : IKCPSEG := {|
  seg_conv := h_conv h; seg_cmd := h_cmd h; seg_frg := h_frg h; seg_wnd := h_wnd h;
  seg_ts := h_ts h; seg_sn := h_sn h; seg_una := h_una h; seg_len := h_len h;
  seg_resendts := 0; seg_rto := 0; seg_fastack := 0; seg_xmit := 0;
  seg_data := take (Z.to_nat (h_len h)) data
|}.

Definition ikcp_getconv (ptr : bytes) : Z := (ikcp_decode32u ptr).1.

(** [size] is a [size_t], compared as unsigned with [(int)IKCP_OVERHEAD]. *)
Definition ikcp_getsn (ptr : bytes) (size : Z) : Z :=
  let sn := u32 (-1) in
  if size <? IKCP_OVERHEAD then sn else (ikcp_decode32u (drop 12 ptr)).1.

#[global] Arguments ikcp_decode8u : simpl never.
#[global] Arguments ikcp_decode16u : simpl never.
#[global] Arguments ikcp_decode32u : simpl never.
#[global] Arguments ikcp_encode8u : simpl never.
#[global] Arguments ikcp_encode16u : simpl never.
#[global] Arguments ikcp_encode32u : simpl never.

(** ** Lemmas *)

Lemma land_255 z : Z.land z 255 = u8 z.
Proof. change 255 with (Z.ones 8). by rewrite Z.land_ones. Qed.

Lemma b2z_le_byte l n : b2z (z2b (Z.land (Z.shiftr l n) 255)) = u8 (Z.shiftr l n).
Proof. rewrite land_255, b2z_z2b. word. Qed.

Lemma byte_at_0 b l : byte_at (b :: l) 0 = b2z b. Proof. done. Qed.
Lemma byte_at_S b l i : byte_at (b :: l) (S i) = byte_at l i. Proof. done. Qed.

Lemma decode8u_encode8u c rest : ikcp_decode8u (ikcp_encode8u [] c ++ rest) = (u8 c, rest).
Proof. unfold ikcp_decode8u. simpl. by rewrite byte_at_0, b2z_z2b. Qed.

Lemma decode16u_encode16u w rest : ikcp_decode16u (ikcp_encode16u [] w ++ rest) = (u16 w, rest).
Proof.
  unfold ikcp_decode16u, ikcp_encode16u. simpl.
  rewrite !byte_at_S, !byte_at_0, land_255, !b2z_z2b.
  rewrite Z.shiftl_mul_pow2, Z.shiftr_div_pow2 by lia.
  change (2 ^ 8) with 256. f_equal. word.
Qed.

Lemma decode32u_encode32u l rest : ikcp_decode32u (ikcp_encode32u [] l ++ rest) = (u32 l, rest).
Proof.
  unfold ikcp_decode32u, ikcp_encode32u. simpl.
  rewrite !byte_at_S, !byte_at_0, !b2z_le_byte.
  rewrite !Z.shiftl_mul_pow2, !Z.shiftr_div_pow2 by lia.
  change (2 ^ 0) with 1. change (2 ^ 8) with 256.
  change (2 ^ 16) with 65536. change (2 ^ 24) with 16777216.
  f_equal. word.
Qed.

Lemma encode8u_app p c : ikcp_encode8u p c = p ++ ikcp_encode8u [] c.
Proof. done. Qed.
Lemma encode16u_app p c : ikcp_encode16u p c = p ++ ikcp_encode16u [] c.
Proof. done. Qed.
Lemma encode32u_app p c : ikcp_encode32u p c = p ++ ikcp_encode32u [] c.
Proof. done. Qed.
Lemma encode_seg_app ptr seg : ikcp_encode_seg ptr seg = ptr ++ ikcp_encode_seg [] seg.
Proof. unfold ikcp_encode_seg, ikcp_encode8u, ikcp_encode16u, ikcp_encode32u. by rewrite <- !app_assoc. Qed.

Lemma length_encode_seg ptr seg : length (ikcp_encode_seg ptr seg) = (length ptr + 24)%nat.
Proof. rewrite encode_seg_app, length_app. done. Qed.

(** The header of a segment as the peer decodes it. *)
Definition header_of (seg : IKCPSEG) : header := {|
  h_conv := u32 (seg_conv seg); h_cmd := u8 (seg_cmd seg); h_frg := u8 (seg_frg seg);
  h_wnd := u16 (seg_wnd seg); h_ts := u32 (seg_ts seg); h_sn := u32 (seg_sn seg);
  h_una := u32 (seg_una seg); h_len := u32 (seg_len seg)
|}.

Lemma u8_u8 z : u8 (u8 z) = u8 z. Proof. word. Qed.
Lemma u16_u16 z : u16 (u16 z) = u16 z. Proof. word. Qed.

Lemma encode_seg_fields seg :
  ikcp_encode_seg [] seg =
    ikcp_encode32u [] (seg_conv seg) ++ ikcp_encode8u [] (u8 (seg_cmd seg)) ++
    ikcp_encode8u [] (u8 (seg_frg seg)) ++ ikcp_encode16u [] (u16 (seg_wnd seg)) ++
    ikcp_encode32u [] (seg_ts seg) ++ ikcp_encode32u [] (seg_sn seg) ++
    ikcp_encode32u [] (seg_una seg) ++ ikcp_encode32u [] (seg_len seg).
Proof. done. Qed.

Lemma decode_header_encode_seg seg rest :
  decode_header (ikcp_encode_seg [] seg ++ rest) = (header_of seg, rest).
Proof.
  rewrite encode_seg_fields, <- !app_assoc. unfold decode_header.
  repeat (rewrite decode32u_encode32u || rewrite decode16u_encode16u
          || rewrite decode8u_encode8u).
  unfold header_of. by rewrite !u8_u8, u16_u16.
Qed.

Lemma z2b_eq z b : u8 z = b2z b -> z2b z = b.
Proof. intros Hz. rewrite <- (z2b_b2z b), <- Hz. unfold z2b. by rewrite u8_u8. Qed.

Lemma encode8u_decode8u p :
  (1 <= length p)%nat -> ikcp_encode8u [] (ikcp_decode8u p).1 ++ (ikcp_decode8u p).2 = p.
Proof.
  destruct p as [|b p]; simpl; [lia|]. intros _.
  by rewrite byte_at_0, z2b_b2z, drop_0.
Qed.

Lemma encode16u_decode16u p :
  (2 <= length p)%nat -> ikcp_encode16u [] (ikcp_decode16u p).1 ++ (ikcp_decode16u p).2 = p.
Proof.
  destruct p as [|b0 [|b1 p]]; simpl; try lia. intros _.
  rewrite !byte_at_S, !byte_at_0, drop_0, land_255.
  pose proof (b2z_range b0). pose proof (b2z_range b1).
  rewrite Z.shiftl_mul_pow2, Z.shiftr_div_pow2 by lia. change (2 ^ 8) with 256.
  f_equal; [|f_equal]; apply z2b_eq; word.
Qed.

Lemma encode32u_decode32u p :
  (4 <= length p)%nat -> ikcp_encode32u [] (ikcp_decode32u p).1 ++ (ikcp_decode32u p).2 = p.
Proof.
  destruct p as [|b0 [|b1 [|b2 [|b3 p]]]]; simpl; try lia. intros _.
  rewrite !byte_at_S, !byte_at_0, drop_0, !land_255.
  pose proof (b2z_range b0). pose proof (b2z_range b1).
  pose proof (b2z_range b2). pose proof (b2z_range b3).
  rewrite !Z.shiftl_mul_pow2, !Z.shiftr_div_pow2 by lia.
  change (2 ^ 0) with 1. change (2 ^ 8) with 256.
  change (2 ^ 16) with 65536. change (2 ^ 24) with 16777216.
  f_equal; [|f_equal; [|f_equal; [|f_equal]]]; apply z2b_eq; word.
Qed.

Lemma decode8u_range p : is_u8 (ikcp_decode8u p).1.
Proof. apply byte_at_range. Qed.
Lemma decode16u_range p : is_u16 (ikcp_decode16u p).1.
Proof. apply u16_range. Qed.
Lemma decode32u_range p : is_u32 (ikcp_decode32u p).1.
Proof. apply u32_range. Qed.

(** A decoded header holds values of the declared widths. *)
Record header_wf (h : header) : Prop := {
  hwf_conv : is_u32 (h_conv h); hwf_cmd : is_u8 (h_cmd h); hwf_frg : is_u8 (h_frg h);
  hwf_wnd : is_u16 (h_wnd h); hwf_ts : is_u32 (h_ts h); hwf_sn : is_u32 (h_sn h);
  hwf_una : is_u32 (h_una h); hwf_len : is_u32 (h_len h)
}.

Lemma decode_header_eq data :
  decode_header data =
    ({| h_conv := (ikcp_decode32u data).1; h_cmd := (ikcp_decode8u (drop 4 data)).1;
        h_frg := (ikcp_decode8u (drop 5 data)).1; h_wnd := (ikcp_decode16u (drop 6 data)).1;
        h_ts := (ikcp_decode32u (drop 8 data)).1; h_sn := (ikcp_decode32u (drop 12 data)).1;
        h_una := (ikcp_decode32u (drop 16 data)).1; h_len := (ikcp_decode32u (drop 20 data)).1 |},
     drop 24 data).
Proof.
  cbv beta iota zeta delta [decode_header ikcp_decode32u ikcp_decode16u ikcp_decode8u fst].
  by rewrite !drop_drop.
Qed.

Lemma decode_header_wf data : header_wf (decode_header data).1.
Proof.
  rewrite decode_header_eq. constructor; simpl;
    first [apply decode32u_range | apply decode16u_range | apply decode8u_range].
Qed.

(** Re-encoding the field decoded at offset [n] gives back the bytes from [n]. *)
Lemma encode8u_at n data :
  (n + 1 <= length data)%nat ->
  ikcp_encode8u [] (ikcp_decode8u (drop n data)).1 ++ drop (n + 1) data = drop n data.
Proof.
  intros. rewrite <- (encode8u_decode8u (drop n data)) at 2 by (rewrite length_drop; lia).
  f_equal. unfold ikcp_decode8u. simpl. by rewrite drop_drop.
Qed.
Lemma encode16u_at n data :
  (n + 2 <= length data)%nat ->
  ikcp_encode16u [] (ikcp_decode16u (drop n data)).1 ++ drop (n + 2) data = drop n data.
Proof.
  intros. rewrite <- (encode16u_decode16u (drop n data)) at 2 by (rewrite length_drop; lia).
  f_equal. unfold ikcp_decode16u. simpl. by rewrite drop_drop.
Qed.
Lemma encode32u_at n data :
  (n + 4 <= length data)%nat ->
  ikcp_encode32u [] (ikcp_decode32u (drop n data)).1 ++ drop (n + 4) data = drop n data.
Proof.
  intros. rewrite <- (encode32u_decode32u (drop n data)) at 2 by (rewrite length_drop; lia).
  f_equal. unfold ikcp_decode32u. simpl. by rewrite drop_drop.
Qed.

(** ** The format *)

(** C32.  Decoding what [ikcp_encode_seg] wrote, whatever follows it in the
    datagram, gives back every header field (truncated to its width on the
    wire) and leaves exactly the bytes that follow. *)
Theorem wire_roundtrip seg rest :
  decode_header (ikcp_encode_seg [] seg ++ rest) = (header_of seg, rest).
Proof. apply decode_header_encode_seg. Qed.

(** The format is canonical: re-encoding the segment built from a decoded
    header reproduces the bytes it was decoded from, so no two different
    24-byte headers mean the same thing. *)
Theorem wire_canonical data payload :
  (24 <= length data)%nat ->
  ikcp_encode_seg [] (segment_of (decode_header data).1 payload) ++ (decode_header data).2 = data.
Proof.
  intros Hlen. rewrite decode_header_eq, encode_seg_fields.
  cbn [fst snd segment_of seg_conv seg_cmd seg_frg seg_wnd seg_ts seg_sn seg_una seg_len
       h_conv h_cmd h_frg h_wnd h_ts h_sn h_una h_len].
  rewrite !(u8_small _ (decode8u_range _)), (u16_small _ (decode16u_range _)).
  rewrite <- !app_assoc.
  rewrite (encode32u_at 20), (encode32u_at 16), (encode32u_at 12), (encode32u_at 8) by lia.
  rewrite (encode16u_at 6), (encode8u_at 5), (encode8u_at 4) by lia.
  apply (encode32u_at 0). lia.
Qed.

Lemma wire_canonical_witness :
  let data := replicate 30 (z2b 7) in
  (24 <= length data)%nat /\
  ikcp_encode_seg [] (segment_of (decode_header data).1 []) ++ (decode_header data).2 = data.
Proof. split; [vm_compute; lia | apply (wire_canonical (replicate 30 (z2b 7)) []); vm_compute; lia]. Defined.

(** The dispatchers read the same bytes as the header decoder. *)
Lemma ikcp_getconv_header data : ikcp_getconv data = h_conv (decode_header data).1.
Proof. by rewrite decode_header_eq. Qed.

Lemma ikcp_getsn_header data size :
  IKCP_OVERHEAD <= size -> ikcp_getsn data size = h_sn (decode_header data).1.
Proof. intros. unfold ikcp_getsn. bcase; [lia|]. by rewrite decode_header_eq. Qed.

(** The dispatchers of the proxy and the server read from a datagram the
    conversation id and the sequence number of the segment it starts with; a
    datagram shorter than a header has the sequence number 0xffffffff the
    server tests for. *)
Theorem dispatch_readers seg rest size :
  ikcp_getconv (ikcp_encode_seg [] seg ++ rest) = u32 (seg_conv seg) /\
  ikcp_getsn (ikcp_encode_seg [] seg ++ rest) size =
    (if size <? IKCP_OVERHEAD then 4294967295 else u32 (seg_sn seg)).
Proof.
  split.
  - by rewrite ikcp_getconv_header, decode_header_encode_seg.
  - destruct (size <? IKCP_OVERHEAD) eqn:Hs.
    + unfold ikcp_getsn. by rewrite Hs.
    + reflect_bools. rewrite ikcp_getsn_header by done. by rewrite decode_header_encode_seg.
Qed.
