(* ===== verification/KcpSend.v ===== *)
(** * KCP: queueing a message ([ikcp_send])

    [ikcp_send] of [kcp/ikcp.c] splits a message into segments of at most [mss]
    bytes and appends them to [snd_queue]; the [frg] field counts the fragments
    that follow, so the receiver can tell where a message ends.  The relation
    [message] is the specification shared with the receiving side
    ([KcpRecv.v]): which fragment sequences stand for which message. *)

From S2P Require Import Prelude KcpBase.

(** [ikcp_segment_new]: the fields [malloc] leaves uninitialised are never
    read before they are written; they are 0 here. *)
Definition ikcp_segment_new : IKCPSEG := {|
  seg_conv := 0; seg_cmd := 0; seg_frg := 0; seg_wnd := 0; seg_ts := 0; seg_sn := 0;
  seg_una := 0; seg_len := 0; seg_resendts := 0; seg_rto := 0; seg_fastack := 0;
  seg_xmit := 0; seg_data := []
|}.

(** Streaming mode: extend the last queued segment up to [mss] bytes.  Returns
    the control block, the rest of the buffer and the rest of its length. *)
Definition send_stream (kcp : ikcpcb) (buffer : bytes) (len : Z) : ikcpcb * bytes * Z :=
  match last (kcp_snd_queue kcp) with
  | Some old =>
      if seg_len old <? kcp_mss kcp then
        let capacity := s32 (u32 (kcp_mss kcp - seg_len old)) in
        let extend := if len <? capacity then len else capacity in
        let seg := ikcp_segment_new
          <| seg_data := take (Z.to_nat (seg_len old)) (seg_data old)
                         ++ take (Z.to_nat extend) buffer |>
          <| seg_len := u32 (seg_len old + extend) |>
          <| seg_frg := 0 |> in
        let queue := kcp_snd_queue kcp in
        (kcp <| kcp_snd_queue := take (length queue - 1) queue ++ [seg] |>,
         drop (Z.to_nat extend) buffer, s32 (len - extend))
      else (kcp, buffer, len)
  | None => (kcp, buffer, len)
  end.

Definition frag_count (mss len : Z) : Z :=
  if len <=? s32 mss then 1 else s32 (u32 (len + mss - 1) / mss).

(** The [for (i = 0; i < count; i++)] loop; [n] is [count - i]. *)
Fixpoint send_loop (n : nat) (i count : Z) (buffer : bytes) (len : Z) (kcp : ikcpcb) : ikcpcb :=
  match n with
  | O => kcp
  | S n' =>
      let size := if len >? s32 (kcp_mss kcp) then s32 (kcp_mss kcp) else len in
      let seg := ikcp_segment_new
        <| seg_data := if len >? 0 then take (Z.to_nat size) buffer else [] |>
        <| seg_len := u32 size |>
        <| seg_frg := if kcp_stream kcp =? 0 then u32 (count - i - 1) else 0 |> in
      let kcp := kcp
        <| kcp_snd_queue := kcp_snd_queue kcp ++ [seg] |>
        <| kcp_nsnd_que := u32 (kcp_nsnd_que kcp + 1) |> in
      send_loop n' (i + 1) count (drop (Z.to_nat size) buffer) (s32 (len - size)) kcp
  end.

(** [ikcp_send kcp buffer len], [buffer] not null: the return value and the new
    control block. *)
Definition ikcp_send (kcp : ikcpcb) (buffer : bytes) (len : Z) : outcome (Z * ikcpcb) :=
  if negb (kcp_mss kcp >? 0) then Crash AssertFailed else
  if len <? 0 then Ok (-1, kcp) else
  let '(kcp, buffer, len) :=
    if negb (kcp_stream kcp =? 0) then send_stream kcp buffer len else (kcp, buffer, len) in
  if negb (kcp_stream kcp =? 0) && (len <=? 0) then Ok (0, kcp) else
  let count := frag_count (kcp_mss kcp) len in
  if u32 count >=? IKCP_WND_RCV then Ok (-2, kcp) else
  let count := if count =? 0 then 1 else count in
  Ok (0, send_loop (Z.to_nat count) 0 count buffer len kcp).

(** ** Specification: messages as fragment sequences *)

(** What the wire carries of a segment for the reader: the number of fragments
    that follow, and the payload. *)
Definition frag : Type := Z * bytes.
Definition frag_of (seg : IKCPSEG) : frag := (seg_frg seg, seg_data seg).

Inductive message : list frag -> bytes -> Prop :=
  | message_last d : message [(0, d)] d
  | message_more d l m : message l m -> message ((Z.of_nat (length l), d) :: l) (d ++ m).

(** The payload length field agrees with the payload. *)
Definition seg_sized (seg : IKCPSEG) : Prop := seg_len seg = Z.of_nat (length (seg_data seg)).

(** Reference definition: [n] fragments of [mss] bytes each, the last one takes
    the rest. *)
Fixpoint fragments (mss : nat) (n : nat) (msg : bytes) : list frag :=
  match n with
  | O => []
  | S n' => (Z.of_nat n', take mss msg) :: fragments mss n' (drop mss msg)
  end.

Definition num_fragments (mss : nat) (msg : bytes) : nat :=
  Nat.max 1 ((length msg + mss - 1) / mss).

Lemma length_fragments mss n msg : length (fragments mss n msg) = n.
Proof. revert msg. induction n; intros; simpl; auto. Qed.

Lemma fragments_bound mss n msg :
  Forall (fun f => (length f.2 <= mss)%nat) (fragments mss n msg).
Proof.
  revert msg. induction n; intros; simpl; constructor; auto.
  simpl. rewrite length_take. lia.
Qed.

Lemma fragments_message mss n msg :
  (length msg <= n * mss)%nat -> (1 <= n)%nat -> message (fragments mss n msg) msg.
Proof.
  revert msg. induction n as [|n IH]; intros msg Hlen Hn; [lia|].
  destruct n as [|n].
  - simpl. rewrite take_ge by lia. constructor.
  - assert (message (fragments mss (S n) (drop mss msg)) (drop mss msg)) as Hm
      by (apply IH; [rewrite length_drop; lia | lia]).
    apply (message_more (take mss msg)) in Hm.
    by rewrite length_fragments, take_drop in Hm.
Qed.

Lemma num_fragments_enough mss msg :
  (0 < mss)%nat -> (length msg <= num_fragments mss msg * mss)%nat.
Proof.
  intros Hm. unfold num_fragments.
  pose proof (Nat.div_mod_eq (length msg + mss - 1) mss).
  pose proof (Nat.mod_upper_bound (length msg + mss - 1) mss ltac:(lia)).
  destruct (Nat.max_spec 1 ((length msg + mss - 1) / mss)) as [[? ->]|[? ->]]; nia.
Qed.

(** A queued segment carries its fragment and nothing else yet. *)
Definition seg_of_frag (f : frag) : IKCPSEG :=
  ikcp_segment_new <| seg_data := f.2 |> <| seg_len := Z.of_nat (length f.2) |>
    <| seg_frg := f.1 |>.

Lemma frag_of_seg_of_frag l : map frag_of (map seg_of_frag l) = l.
Proof. induction l as [|[]]; simpl; [done|]. by f_equal. Qed.

Lemma seg_of_frag_sized l : Forall seg_sized (map seg_of_frag l).
Proof. induction l; simpl; constructor; auto. done. Qed.

(** The loop appends exactly the reference fragments. *)
Lemma send_loop_spec n i count buffer kcp :
  kcp_stream kcp = 0 -> is_u32 (kcp_nsnd_que kcp) ->
  0 < kcp_mss kcp < 2147483648 -> Z.of_nat (length buffer) < 2147483648 ->
  i + Z.of_nat n = count -> 0 <= i -> count < 128 ->
  send_loop n i count buffer (Z.of_nat (length buffer)) kcp =
    kcp <| kcp_snd_queue := kcp_snd_queue kcp
             ++ map seg_of_frag (fragments (Z.to_nat (kcp_mss kcp)) n buffer) |>
        <| kcp_nsnd_que := u32 (kcp_nsnd_que kcp + Z.of_nat n) |>.
Proof.
  intros Hst Hq Hmss. revert i buffer kcp Hst Hq Hmss.
  induction n as [|n IH]; intros i buffer kcp Hst Hq Hmss Hlen Hi Hi0 Hc; simpl send_loop.
  - rewrite app_nil_r, Z.add_0_r, u32_small by done. by destruct kcp.
  - rewrite Hst, (s32_small (kcp_mss kcp)) by (unfold is_s32; lia).
    set (size := if _ >? kcp_mss kcp then _ else _).
    assert (Hsize : size = Z.min (Z.of_nat (length buffer)) (kcp_mss kcp))
      by (unfold size; bcase; lia).
    set (m := Z.to_nat (kcp_mss kcp)).
    assert (Hd : drop (Z.to_nat size) buffer = drop m buffer).
    { rewrite Hsize. destruct (decide (Z.of_nat (length buffer) <= kcp_mss kcp)).
      - rewrite !drop_ge by lia. done.
      - f_equal. lia. }
    assert (Ht : (if Z.of_nat (length buffer) >? 0 then take (Z.to_nat size) buffer else [])
                 = take m buffer).
    { bcase; [|by destruct buffer; simpl in *; [rewrite take_nil | lia]].
      rewrite Hsize. destruct (decide (Z.of_nat (length buffer) <= kcp_mss kcp)).
      - rewrite !take_ge by lia. done.
      - f_equal. lia. }
    rewrite Hd, Ht, s32_small by (unfold is_s32; lia).
    replace (Z.of_nat (length buffer) - size) with (Z.of_nat (length (drop m buffer)))
      by (rewrite length_drop; lia).
    assert (Hseg : ikcp_segment_new <| seg_data := take m buffer |> <| seg_len := u32 size |>
                     <| seg_frg := u32 (count - i - 1) |>
                   = seg_of_frag (Z.of_nat n, take m buffer)).
    { unfold seg_of_frag. simpl. replace (u32 (count - i - 1)) with (Z.of_nat n) by word.
      replace (u32 size) with (Z.of_nat (length (take m buffer))); [done|].
      rewrite length_take, u32_small; unfold is_u32; lia. }
    simpl (0 =? 0). cbv iota. rewrite Hseg.
    rewrite IH; simpl; try done; try lia; [| apply u32_range | rewrite length_drop; lia].
    rewrite u32_add_l, <- app_assoc. simpl.
    by replace (kcp_nsnd_que kcp + Z.of_nat (S n)) with (kcp_nsnd_que kcp + 1 + Z.of_nat n) by lia.
Qed.

Lemma frag_count_spec mss msg :
  26 <= mss < 2147483648 -> Z.of_nat (length msg) < 2147483648 ->
  frag_count mss (Z.of_nat (length msg)) = Z.of_nat (num_fragments (Z.to_nat mss) msg).
Proof.
  intros Hm Hl. unfold frag_count, num_fragments.
  rewrite (s32_small mss) by (unfold is_s32; lia).
  assert (Hdiv : Z.of_nat ((length msg + Z.to_nat mss - 1) / Z.to_nat mss)
               = (Z.of_nat (length msg) + mss - 1) / mss).
  { rewrite Nat2Z.inj_div. f_equal; lia. }
  bcase.
  - destruct (decide (length msg = 0%nat)) as [E|E].
    + rewrite Nat.max_l; [done|]. rewrite Nat.div_small; lia.
    + assert ((Z.of_nat (length msg) + mss - 1) / mss = 1); [|lia].
      symmetry. apply (Z.div_unique_pos _ _ _ (Z.of_nat (length msg) - 1)); lia.
  - rewrite u32_small by (unfold is_u32; lia).
    assert (1 <= (Z.of_nat (length msg) + mss - 1) / mss) by (apply Z.div_le_lower_bound; lia).
    assert ((Z.of_nat (length msg) + mss - 1) / mss <= Z.of_nat (length msg) + mss - 1)
      by (apply Z.div_le_upper_bound; nia).
    assert ((Z.of_nat (length msg) + mss - 1) / mss < 2147483648)
      by (apply Z.div_lt_upper_bound; nia).
    rewrite s32_small by (unfold is_s32; lia). lia.
Qed.

(** The segments a message is queued as. *)
Definition send_segments (kcp : ikcpcb) (msg : bytes) : list IKCPSEG :=
  let m := Z.to_nat (kcp_mss kcp) in map seg_of_frag (fragments m (num_fragments m msg) msg).

Lemma send_segments_message kcp msg :
  0 < kcp_mss kcp -> message (map frag_of (send_segments kcp msg)) msg.
Proof.
  intros Hm. unfold send_segments. rewrite frag_of_seg_of_frag.
  apply fragments_message; [apply num_fragments_enough; lia | unfold num_fragments; lia].
Qed.

Lemma send_segments_bound kcp msg :
  Forall (fun s => (length (seg_data s) <= Z.to_nat (kcp_mss kcp))%nat) (send_segments kcp msg).
Proof. unfold send_segments. apply Forall_map, fragments_bound. Qed.

Lemma ikcp_send_eq kcp msg :
  cfg_wf kcp -> kcp_stream kcp = 0 -> is_u32 (kcp_nsnd_que kcp) ->
  Z.of_nat (length msg) < 2147483648 ->
  ikcp_send kcp msg (Z.of_nat (length msg)) =
    let segs := send_segments kcp msg in
    if Z.of_nat (length segs) <? IKCP_WND_RCV
    then Ok (0, kcp <| kcp_snd_queue := kcp_snd_queue kcp ++ segs |>
                    <| kcp_nsnd_que := u32 (kcp_nsnd_que kcp + Z.of_nat (length segs)) |>)
    else Ok (-2, kcp).
Proof.
  intros Hwf Hst Hq Hlen. pose proof (cfg_mtu _ Hwf). pose proof (cfg_mss _ Hwf) as Hmss.
  unfold IKCP_OVERHEAD in Hmss. unfold ikcp_send.
  bcase; [lia|]. bcase; [lia|]. rewrite Hst. simpl (negb _). cbv beta iota zeta.
  rewrite Hst. simpl (negb _ && _). cbv iota.
  rewrite frag_count_spec by lia. unfold send_segments. cbv zeta.
  rewrite length_map, length_fragments.
  set (n := num_fragments (Z.to_nat (kcp_mss kcp)) msg).
  assert (1 <= n)%nat by (unfold n, num_fragments; lia).
  assert (Hn : Z.of_nat n < 4294967296).
  { unfold n. rewrite <- frag_count_spec by lia. unfold frag_count. bcase; [lia|].
    match goal with |- s32 ?x < _ => pose proof (s32_range x) end. unfold is_s32 in *. lia. }
  rewrite u32_small by (unfold is_u32; lia). kcp_consts.
  destruct (Z.of_nat n <? 128) eqn:Hc; reflect_bools.
  - bcase; [lia|]. bcase; [lia|]. rewrite Nat2Z.id, send_loop_spec; try done; try lia.
  - bcase; [done | lia].
Qed.

(** Queueing a message (the non-streaming mode the program uses) either
    appends to the send queue a fragment sequence that stands for exactly that
    message, every fragment no longer than [mss], and counts the fragments, or
    - exactly when 128 or more fragments would be needed - returns -2 and
    changes nothing. *)
Theorem ikcp_send_spec kcp msg :
  cfg_wf kcp -> kcp_stream kcp = 0 -> is_u32 (kcp_nsnd_que kcp) ->
  Z.of_nat (length msg) < 2147483648 ->
  (exists segs,
     ikcp_send kcp msg (Z.of_nat (length msg)) =
       Ok (0, kcp <| kcp_snd_queue := kcp_snd_queue kcp ++ segs |>
                  <| kcp_nsnd_que := u32 (kcp_nsnd_que kcp + Z.of_nat (length segs)) |>) /\
     message (map frag_of segs) msg /\ Forall seg_sized segs /\
     Forall (fun s => Z.of_nat (length (seg_data s)) <= kcp_mss kcp) segs /\
     (length segs < 128)%nat) \/
  (ikcp_send kcp msg (Z.of_nat (length msg)) = Ok (-2, kcp) /\
   127 * kcp_mss kcp < Z.of_nat (length msg)).
Proof.
  intros Hwf Hst Hq Hlen. pose proof (cfg_mtu _ Hwf). pose proof (cfg_mss _ Hwf) as Hmss.
  unfold IKCP_OVERHEAD in Hmss. rewrite ikcp_send_eq by done. cbv zeta. kcp_consts.
  destruct (Z.of_nat (length (send_segments kcp msg)) <? 128) eqn:Hn; reflect_bools; [left|right].
  - exists (send_segments kcp msg). split; [done|].
    split; [apply send_segments_message; lia|]. split; [apply seg_of_frag_sized|].
    split; [|lia]. eapply Forall_impl; [apply send_segments_bound|]. simpl. lia.
  - split; [done|]. unfold send_segments in Hn.
    rewrite length_map, length_fragments in Hn. unfold num_fragments in Hn.
    set (m := Z.to_nat (kcp_mss kcp)) in *.
    pose proof (Nat.div_mod_eq (length msg + m - 1) m).
    assert (128 <= (length msg + m - 1) / m)%nat by lia. nia.
Qed.

Lemma ikcp_send_spec_witness :
  let kcp := ikcp_create 7 in let msg := replicate 3000 (z2b 1) in
  (cfg_wf kcp /\ kcp_stream kcp = 0) /\
  ((exists segs,
     ikcp_send kcp msg (Z.of_nat (length msg)) =
       Ok (0, kcp <| kcp_snd_queue := kcp_snd_queue kcp ++ segs |>
                  <| kcp_nsnd_que := u32 (kcp_nsnd_que kcp + Z.of_nat (length segs)) |>) /\
     message (map frag_of segs) msg /\ Forall seg_sized segs /\
     Forall (fun s => Z.of_nat (length (seg_data s)) <= kcp_mss kcp) segs /\
     (length segs < 128)%nat) \/
   (ikcp_send kcp msg (Z.of_nat (length msg)) = Ok (-2, kcp) /\
    127 * kcp_mss kcp < Z.of_nat (length msg))).
Proof.
  split; [split; [apply cfg_wf_create | reflexivity] |].
  apply (ikcp_send_spec (ikcp_create 7) (replicate 3000 (z2b 1)));
    [apply cfg_wf_create | reflexivity | split; vm_compute; congruence | vm_compute; congruence].
Defined.

Example send_three_fragments :
  match ikcp_send (ikcp_create 7) (replicate 3000 (z2b 1)) 3000 with
  | Ok (r, kcp) => (r, map seg_frg (kcp_snd_queue kcp), map seg_len (kcp_snd_queue kcp))
                   = (0, [2; 1; 0], [1376; 1376; 248])
  | Crash _ => False
  end.
Proof. vm_compute. reflexivity. Qed.
