(* ===== verification/KcpNumbered.v ===== *)
(** * Numbered buffers

    Both [snd_buf] and [rcv_buf] hold segments in increasing sequence order.
    The sequence numbers are 32-bit and wrap around; the invariant relates them
    to unbounded numbers in a window shorter than 2^31, so that comparing two
    of them with [_itimediff] compares the unbounded numbers. *)

From S2P Require Import Prelude KcpBase.

(** [buf] holds the segments of [pend], which numbers them; the numbers lie in
    [lo, hi). *)
Record numbered (lo hi : Z) (pend : list (Z * IKCPSEG)) (buf : list IKCPSEG) : Prop := {
  num_buf : buf = pend.*2;
  num_sn : Forall (fun p => seg_sn p.2 = u32 p.1) pend;
  num_range : Forall (fun p => lo <= p.1 < hi) pend;
  num_sorted : sorted_keys pend
}.

Section numbered.
Context (lo hi : Z).
Implicit Types (pend : list (Z * IKCPSEG)) (buf : list IKCPSEG).

Lemma numbered_nil : numbered lo hi [] [].
Proof. constructor; auto. Qed.

Lemma numbered_length pend buf : numbered lo hi pend buf -> length buf = length pend.
Proof. intros H. rewrite (num_buf _ _ _ _ H). apply length_fmap. Qed.

Lemma numbered_cons p pend buf :
  numbered lo hi (p :: pend) buf <->
  exists buf', buf = p.2 :: buf' /\ seg_sn p.2 = u32 p.1 /\ lo <= p.1 < hi /\
    Forall (fun q => p.1 < q.1) pend /\ numbered lo hi pend buf'.
Proof.
  split.
  - intros [-> Hsn Hr Hs]. rewrite Forall_cons in Hsn, Hr. apply sorted_keys_cons in Hs as [??].
    exists (pend.*2). split_and!; try tauto. constructor; tauto.
  - intros (buf' & -> & Hsn & Hr & Hlt & [-> Hsn' Hr' Hs]).
    constructor; [done|constructor; auto..|]. by apply sorted_keys_cons.
Qed.

(** A strictly increasing buffer fits in its window. *)
Lemma numbered_window pend buf :
  lo <= hi -> numbered lo hi pend buf -> Z.of_nat (length buf) <= hi - lo.
Proof.
  intros Hle H. rewrite (numbered_length _ _ H).
  destruct H as [_ _ Hr Hs]. clear buf. revert lo Hle Hr.
  induction pend as [|p pend IH]; intros lo' Hle Hr; simpl; [lia|].
  apply sorted_keys_cons in Hs as [Hlt Hs]. apply Forall_cons in Hr as [Hp Hr].
  assert (Z.of_nat (length pend) <= hi - (p.1 + 1)); [|lia].
  apply IH; [done | lia |]. rewrite Forall_forall in *.
  intros q Hq. specialize (Hr q Hq). specialize (Hlt q Hq). simpl in *. lia.
Qed.

Lemma numbered_weaken lo' hi' pend buf :
  lo' <= lo -> hi <= hi' -> numbered lo hi pend buf -> numbered lo' hi' pend buf.
Proof.
  intros ?? [? ? Hr ?]. constructor; try done.
  eapply Forall_impl; [exact Hr|]. simpl. lia.
Qed.

(** Raising the lower bound to the first number. *)
Lemma numbered_raise lo' pend buf :
  Forall (fun p => lo' <= p.1) pend -> numbered lo hi pend buf -> numbered lo' hi pend buf.
Proof.
  intros Hlo [? ? Hr ?]. constructor; try done.
  rewrite Forall_forall in *. intros p Hp. specialize (Hr p Hp). specialize (Hlo p Hp).
  simpl in *. lia.
Qed.

Lemma numbered_app_inv pend1 pend2 buf :
  numbered lo hi (pend1 ++ pend2) buf ->
  numbered lo hi pend1 (pend1.*2) /\ numbered lo hi pend2 (pend2.*2).
Proof.
  intros [-> Hsn Hr Hs]. apply Forall_app in Hsn as [??], Hr as [??].
  apply sorted_keys_app in Hs as (_ & ? & ?). split; by constructor.
Qed.

(** Any sublist picked by a predicate stays numbered. *)
Lemma numbered_filter pend buf (P : Z * IKCPSEG -> Prop) `{!forall p, Decision (P p)} :
  numbered lo hi pend buf -> numbered lo hi (filter P pend) ((filter P pend).*2).
Proof.
  intros [-> Hsn Hr Hs]. constructor; [done|..].
  - rewrite Forall_forall in *. intros p [_ Hp]%list_elem_of_filter. auto.
  - rewrite Forall_forall in *. intros p [_ Hp]%list_elem_of_filter. by apply Hr.
  - by apply sorted_keys_filter.
Qed.

(** Comparison of sequence numbers inside a window shorter than 2^31. *)
Section window.
Hypothesis Hwin : hi - lo < 2147483648.

Lemma sn_diff i j :
  lo <= i < hi -> lo <= j < hi -> _itimediff (u32 i) (u32 j) = i - j.
Proof using Hwin. intros. apply _itimediff_close. lia. Qed.

Lemma sn_eqb i j : lo <= i < hi -> lo <= j < hi -> (u32 i =? u32 j) = (i =? j).
Proof using Hwin.
  intros. destruct (Z.eqb_spec i j) as [->|Hne]; [apply Z.eqb_refl|].
  apply Z.eqb_neq. intros Heq. apply Hne. apply u32_inj_close; [lia | done].
Qed.
End window.
End numbered.

#[export] Hint Resolve numbered_nil : core.
