(* ===== verification/KcpRecv.v ===== *)
(** * KCP: the receiving side

    [ikcp_peeksize], [ikcp_recv] and [ikcp_parse_data] of [kcp/ikcp.c]:
    reassembly of segments received out of order, and delivery of whole
    messages.  The abstract specification is a map of the segments that arrived
    ahead of the stream and the queue of segments ready for the reader; the
    refinement theorem says that the ordered list with 32-bit comparisons of the
    code implements it. *)

From S2P Require Import Prelude KcpBase KcpSend KcpNumbered.

(** ** The code *)

(** The [for] loop of [ikcp_peeksize]. *)
Fixpoint peek_loop (queue : list IKCPSEG) (length : Z) : Z :=
  match queue with
  | [] => length
  | seg :: queue =>
      let length := s32 (u32 (length + seg_len seg)) in
      if seg_frg seg =? 0 then length else peek_loop queue length
  end.

Definition ikcp_peeksize (kcp : ikcpcb) : Z :=
  match kcp_rcv_queue kcp with
  | [] => -1
  | seg :: _ =>
      if seg_frg seg =? 0 then s32 (seg_len seg)
      else if kcp_nrcv_que kcp <? u32 (seg_frg seg + 1) then -1
      else peek_loop (kcp_rcv_queue kcp) 0
  end.

(** The "merge fragment" loop of [ikcp_recv]; [queue] runs over the receive
    queue, [out] is what has been copied to the caller's buffer. *)
Fixpoint recv_merge (queue : list IKCPSEG) (ispeek buffer : bool) (out : bytes) (len : Z)
    (kcp : ikcpcb) : bytes * Z * ikcpcb :=
  match queue with
  | [] => (out, len, kcp)
  | seg :: queue =>
      let out := if buffer then out ++ take (Z.to_nat (seg_len seg)) (seg_data seg) else out in
      let len := s32 (u32 (len + seg_len seg)) in
      let fragment := s32 (seg_frg seg) in
      let kcp :=
        if negb ispeek then
          kcp <| kcp_rcv_queue := queue |> <| kcp_nrcv_que := u32 (kcp_nrcv_que kcp - 1) |>
        else kcp in
      if fragment =? 0 then (out, len, kcp)
      else recv_merge queue ispeek buffer out len kcp
  end.

(** "move available data from rcv_buf -> rcv_queue", the loop [ikcp_recv] and
    [ikcp_parse_data] share; [buf] is the current [rcv_buf]. *)
Fixpoint move_ready (buf : list IKCPSEG) (kcp : ikcpcb) : ikcpcb :=
  match buf with
  | [] => kcp
  | seg :: buf =>
      if (seg_sn seg =? kcp_rcv_nxt kcp) && (kcp_nrcv_que kcp <? kcp_rcv_wnd kcp) then
        move_ready buf
          (kcp <| kcp_rcv_buf := buf |>
               <| kcp_nrcv_buf := u32 (kcp_nrcv_buf kcp - 1) |>
               <| kcp_rcv_queue := kcp_rcv_queue kcp ++ [seg] |>
               <| kcp_nrcv_que := u32 (kcp_nrcv_que kcp + 1) |>
               <| kcp_rcv_nxt := u32 (kcp_rcv_nxt kcp + 1) |>)
      else kcp
  end.

(** [ikcp_recv kcp buffer len]: the return value, the bytes stored in the
    caller's buffer (none when [buffer] is null) and the new control block. *)
Definition ikcp_recv (kcp : ikcpcb) (buffer : bool) (len : Z) : outcome (Z * bytes * ikcpcb) :=
  let ispeek := len <? 0 in
  match kcp_rcv_queue kcp with
  | [] => Ok (-1, [], kcp)
  | _ =>
    let len := if len <? 0 then s32 (- len) else len in
    let peeksize := ikcp_peeksize kcp in
    if peeksize <? 0 then Ok (-2, [], kcp) else
    if peeksize >? len then Ok (-3, [], kcp) else
    let recover := kcp_nrcv_que kcp >=? kcp_rcv_wnd kcp in
    let '(out, len, kcp) := recv_merge (kcp_rcv_queue kcp) ispeek buffer [] 0 kcp in
    if negb (len =? peeksize) then Crash AssertFailed else
    let kcp := move_ready (kcp_rcv_buf kcp) kcp in
    let kcp :=
      if (kcp_nrcv_que kcp <? kcp_rcv_wnd kcp) && recover
      then kcp <| kcp_probe := Z.lor (kcp_probe kcp) IKCP_ASK_TELL |> else kcp in
    Ok (len, out, kcp)
  end.

(** The backward scan of [rcv_buf] for the place of sequence number [sn];
    [rbuf] is the part not yet passed, last segment first, [after] the part
    passed.  [None] when the segment is already there. *)
Fixpoint rcv_scan (rbuf : list IKCPSEG) (sn : Z) (after : list IKCPSEG)
    : option (list IKCPSEG * list IKCPSEG) :=
  match rbuf with
  | [] => Some ([], after)
  | seg :: rbuf' =>
      if seg_sn seg =? sn then None
      else if _itimediff sn (seg_sn seg) >? 0 then Some (rbuf, after)
      else rcv_scan rbuf' sn (seg :: after)
  end.

Definition ikcp_parse_data (kcp : ikcpcb) (newseg : IKCPSEG) : ikcpcb :=
  let sn := seg_sn newseg in
  if (_itimediff sn (u32 (kcp_rcv_nxt kcp + kcp_rcv_wnd kcp)) >=? 0)
     || (_itimediff sn (kcp_rcv_nxt kcp) <? 0) then kcp
  else
    let kcp :=
      match rcv_scan (reverse (kcp_rcv_buf kcp)) sn [] with
      | Some (before, after) =>
          kcp <| kcp_rcv_buf := reverse before ++ newseg :: after |>
              <| kcp_nrcv_buf := u32 (kcp_nrcv_buf kcp + 1) |>
      | None => kcp
      end in
    move_ready (kcp_rcv_buf kcp) kcp.

(** ** Invariant *)

(** [n] is the unbounded value of [rcv_nxt]; [pend] numbers the segments that
    wait in [rcv_buf]. *)
Record rcv_wf (n : Z) (pend : list (Z * IKCPSEG)) (kcp : ikcpcb) : Prop := {
  rwf_nxt : kcp_rcv_nxt kcp = u32 n;
  rwf_buf : numbered n (n + kcp_rcv_wnd kcp) pend (kcp_rcv_buf kcp);
  rwf_wnd : IKCP_WND_RCV <= kcp_rcv_wnd kcp < 2147483648;
  rwf_nbuf : kcp_nrcv_buf kcp = Z.of_nat (length (kcp_rcv_buf kcp));
  rwf_nque : kcp_nrcv_que kcp = Z.of_nat (length (kcp_rcv_queue kcp));
  rwf_que : Z.of_nat (length (kcp_rcv_queue kcp)) <= kcp_rcv_wnd kcp
}.

(** ** Abstract specification: a reassembly map *)

Record rx := {
  rx_next : Z;                        (* number of the next segment of the stream *)
  rx_pending : gmap Z IKCPSEG;        (* segments that arrived ahead of it *)
  rx_queue : list IKCPSEG             (* segments ready for the reader *)
}.

(** Move consecutive segments to the queue while it has room. *)
Fixpoint rx_drain (fuel : nat) (wnd : Z) (r : rx) : rx :=
  match fuel with
  | O => r
  | S fuel =>
      match rx_pending r !! rx_next r with
      | Some seg =>
          if Z.of_nat (length (rx_queue r)) <? wnd then
            rx_drain fuel wnd
              {| rx_next := rx_next r + 1; rx_pending := delete (rx_next r) (rx_pending r);
                 rx_queue := rx_queue r ++ [seg] |}
          else r
      | None => r
      end
  end.

Definition rx_settle (wnd : Z) (r : rx) : rx := rx_drain (size (rx_pending r)) wnd r.

(** A push of segment number [i] is stored when it is in the window and new. *)
Definition rx_push (wnd i : Z) (seg : IKCPSEG) (r : rx) : rx :=
  if decide (rx_next r <= i < rx_next r + wnd) then
    rx_settle wnd
      (match rx_pending r !! i with
       | Some _ => r
       | None => {| rx_next := rx_next r; rx_pending := <[i := seg]> (rx_pending r);
                    rx_queue := rx_queue r |}
       end)
  else r.

(** The control block implements the abstract receiver. *)
Definition rx_refines (r : rx) (kcp : ikcpcb) : Prop :=
  exists pend, rcv_wf (rx_next r) pend kcp /\
    rx_pending r = list_to_map pend /\ rx_queue r = kcp_rcv_queue kcp.

(** The part of the control block no receiving operation touches. *)
Definition erase_rcv (kcp : ikcpcb) : ikcpcb :=
  kcp <| kcp_rcv_buf := [] |> <| kcp_nrcv_buf := 0 |> <| kcp_rcv_queue := [] |>
      <| kcp_nrcv_que := 0 |> <| kcp_rcv_nxt := 0 |>.

(** ** The move loop *)

Section move.
Implicit Types (pend : list (Z * IKCPSEG)) (kcp : ikcpcb).

Lemma move_ready_erase buf kcp : erase_rcv (move_ready buf kcp) = erase_rcv kcp.
Proof.
  revert kcp. induction buf as [|seg buf IH]; intros kcp; simpl; [done|].
  bcase; [|done]. by rewrite IH.
Qed.

Lemma rx_settle_stop wnd r :
  rx_pending r !! rx_next r = None \/ wnd <= Z.of_nat (length (rx_queue r)) ->
  rx_settle wnd r = r.
Proof.
  intros H. unfold rx_settle. destruct (size (rx_pending r)); simpl; [done|].
  destruct (rx_pending r !! rx_next r); [|done]. bcase; [|done]. destruct H; [done | lia].
Qed.

Lemma rx_settle_step wnd r seg :
  rx_pending r !! rx_next r = Some seg -> Z.of_nat (length (rx_queue r)) < wnd ->
  rx_settle wnd r =
    rx_settle wnd {| rx_next := rx_next r + 1; rx_pending := delete (rx_next r) (rx_pending r);
                     rx_queue := rx_queue r ++ [seg] |}.
Proof.
  intros Hs Hq. unfold rx_settle. cbn [rx_pending].
  assert (size (rx_pending r) = S (size (delete (rx_next r) (rx_pending r)))) as ->.
  { rewrite map_size_delete_Some by eauto.
    assert (size (rx_pending r) <> 0%nat); [|lia].
    rewrite map_size_non_empty_iff. intros E. by rewrite E in Hs. }
  simpl. rewrite Hs. bcase; [done | lia].
Qed.

Lemma rcv_wf_window n pend kcp :
  rcv_wf n pend kcp -> Z.of_nat (length (kcp_rcv_buf kcp)) <= kcp_rcv_wnd kcp.
Proof.
  intros [_ Hb Hw _ _ _]. unfold IKCP_WND_RCV in Hw.
  apply numbered_window in Hb; lia.
Qed.

(** One iteration of the loop keeps the invariant. *)
Lemma rcv_wf_move n seg pend kcp :
  rcv_wf n ((n, seg) :: pend) kcp -> kcp_nrcv_que kcp < kcp_rcv_wnd kcp ->
  rcv_wf (n + 1) pend
    (kcp <| kcp_rcv_buf := pend.*2 |>
         <| kcp_nrcv_buf := u32 (kcp_nrcv_buf kcp - 1) |>
         <| kcp_rcv_queue := kcp_rcv_queue kcp ++ [seg] |>
         <| kcp_nrcv_que := u32 (kcp_nrcv_que kcp + 1) |>
         <| kcp_rcv_nxt := u32 (kcp_rcv_nxt kcp + 1) |>).
Proof.
  intros Hwf Hroom. pose proof (rcv_wf_window _ _ _ Hwf) as Hwin.
  destruct Hwf as [Hn Hb Hw Hnb Hnq Hq]. unfold IKCP_WND_RCV in Hw.
  apply numbered_cons in Hb as (buf' & Hbuf & _ & _ & Hlt & Hb). simpl in *.
  assert (buf' = pend.*2) as -> by apply (num_buf _ _ _ _ Hb).
  rewrite Hbuf in Hnb, Hwin. simpl in Hnb, Hwin.
  constructor; simpl; kcp_consts; try lia.
  - rewrite Hn, u32_add_l. done.
  - apply (numbered_weaken (n + 1) (n + kcp_rcv_wnd kcp)); [lia | lia |].
    eapply numbered_raise; [|exact Hb]. eapply Forall_impl; [exact Hlt|]. simpl. lia.
  - rewrite Hnb. rewrite u32_small; unfold is_u32; lia.
  - rewrite length_app, u32_small; simpl; unfold is_u32; lia.
  - rewrite length_app. simpl. lia.
Qed.

Lemma move_ready_refines r kcp :
  rx_refines r kcp ->
  rx_refines (rx_settle (kcp_rcv_wnd kcp) r) (move_ready (kcp_rcv_buf kcp) kcp).
Proof.
  intros (pend & Hwf & Hp & Hq). revert r kcp Hwf Hp Hq.
  induction pend as [|[i seg] pend IH]; intros r kcp Hwf Hp Hq.
  - pose proof (rwf_buf _ _ _ Hwf) as Hb. rewrite (num_buf _ _ _ _ Hb). simpl.
    rewrite rx_settle_stop by (left; by rewrite Hp). by exists [].
  - pose proof (rwf_buf _ _ _ Hwf) as Hb. pose proof (rwf_wnd _ _ _ Hwf). unfold IKCP_WND_RCV in *.
    pose proof Hb as Hb'.
    apply numbered_cons in Hb as (buf' & Hbuf & Hsn & Hr & Hlt & Hb). simpl in Hsn, Hr, Hbuf, Hlt.
    assert (buf' = pend.*2) as -> by apply (num_buf _ _ _ _ Hb).
    rewrite Hbuf. simpl move_ready.
    rewrite Hsn, (rwf_nxt _ _ _ Hwf), (rwf_nque _ _ _ Hwf).
    rewrite (sn_eqb (rx_next r) (rx_next r + kcp_rcv_wnd kcp)) by lia.
    destruct (Z.eqb_spec i (rx_next r)) as [->|Hne]; simpl.
    + bcase.
      * assert (Hlk : rx_pending r !! rx_next r = Some seg) by (rewrite Hp; simpl; apply lookup_insert_eq).
        rewrite (rx_settle_step _ _ seg) by (rewrite ?Hq; done).
        pose proof (rcv_wf_move _ _ _ _ Hwf) as Hwf'. rewrite (rwf_nque _ _ _ Hwf), (rwf_nxt _ _ _ Hwf) in Hwf'.
        specialize (Hwf' Hb0).
        refine (IH {| rx_next := rx_next r + 1; rx_pending := delete (rx_next r) (rx_pending r);
                      rx_queue := rx_queue r ++ [seg] |} _ Hwf' _ _); simpl.
        -- rewrite Hp. simpl. rewrite delete_insert_id; [done|].
           apply keys_lookup_None. eapply Forall_impl; [exact Hlt|]. simpl. lia.
        -- by rewrite Hq.
      * rewrite rx_settle_stop by (right; rewrite Hq; lia). by eexists.
    + rewrite rx_settle_stop; [by eexists|]. left. rewrite Hp. apply keys_lookup_None.
      constructor; [simpl; lia|]. eapply Forall_impl; [exact Hlt|]. simpl. lia.
Qed.
End move.

(** ** Storing a segment *)

Section parse_data.
Implicit Types (pend rp ap : list (Z * IKCPSEG)) (kcp : ikcpcb).

(** The scan splits the buffer around the new number, or finds it. *)
Lemma rcv_scan_spec lo hi i rp ap :
  hi - lo < 2147483648 -> lo <= i < hi ->
  Forall (fun p => seg_sn p.2 = u32 p.1 /\ lo <= p.1 < hi) rp ->
  StronglySorted (fun p q => q.1 < p.1) rp ->
  match rcv_scan (rp.*2) (u32 i) (ap.*2) with
  | None => exists seg, (i, seg) ∈ rp
  | Some (before, after) =>
      exists rb mid, rp = mid ++ rb /\ before = rb.*2 /\ after = (reverse mid ++ ap).*2 /\
        Forall (fun p => i < p.1) mid /\ Forall (fun p => p.1 < i) rb
  end.
Proof.
  intros Hwin Hi. revert ap. induction rp as [|[j seg] rp IH]; intros ap Hall Hs; simpl.
  - exists [], []. by split_and!.
  - apply Forall_cons in Hall as [[Hsn Hj] Hall]. simpl in Hsn, Hj.
    apply StronglySorted_cons in Hs as [Hlt Hs].
    rewrite Hsn, (sn_eqb lo hi), (sn_diff lo hi) by done.
    destruct (Z.eqb_spec j i) as [->|Hne].
    + exists seg. by left.
    + bcase.
      * exists ((j, seg) :: rp), []. split_and!; try done. constructor; [simpl; lia|].
        eapply Forall_impl; [exact Hlt|]. simpl. lia.
      * specialize (IH ((j, seg) :: ap) Hall Hs). rewrite fmap_cons in IH. simpl in IH.
        destruct (rcv_scan _ _ _) as [[before after]|].
        -- destruct IH as (rb & mid & -> & -> & -> & Hmid & Hrb).
           exists rb, ((j, seg) :: mid). split_and!; try done.
           ++ by rewrite reverse_cons, <- app_assoc.
           ++ constructor; [simpl; lia | done].
        -- destruct IH as [seg' Hin]. exists seg'. by right.
Qed.


Lemma rcv_wf_insert n pend kcp i newseg :
  rcv_wf n pend kcp -> n <= i < n + kcp_rcv_wnd kcp -> seg_sn newseg = u32 i ->
  match rcv_scan (reverse (kcp_rcv_buf kcp)) (u32 i) [] with
  | None => is_Some ((list_to_map pend : gmap Z IKCPSEG) !! i)
  | Some (before, after) =>
      (list_to_map pend : gmap Z IKCPSEG) !! i = None /\
      exists pend',
        rcv_wf n pend' (kcp <| kcp_rcv_buf := reverse before ++ newseg :: after |>
                            <| kcp_nrcv_buf := u32 (kcp_nrcv_buf kcp + 1) |>) /\
        (list_to_map pend' : gmap Z IKCPSEG) = <[i := newseg]> (list_to_map pend)
  end.
Proof.
  intros Hwf Hi Hsn. destruct (Hwf) as [Hn Hb Hw Hnb Hnq Hq]. unfold IKCP_WND_RCV in Hw.
  destruct (Hb) as [Hbuf Hs Hr Hsort].
  pose proof (rcv_scan_spec n (n + kcp_rcv_wnd kcp) i (reverse pend) []) as Hscan.
  rewrite fmap_reverse, <- Hbuf in Hscan. simpl in Hscan.
  destruct (rcv_scan _ _ _) as [[before after]|].
  - destruct Hscan as (rb & mid & Hrev & -> & -> & Hmid & Hrb); [lia | lia | | |].
    { apply Forall_reverse_iff. rewrite Forall_forall in *. intros p Hp. auto. }
    { by apply (StronglySorted_reverse (fun p q : Z * IKCPSEG => p.1 < q.1)). }
    assert (Hp : pend = reverse rb ++ reverse mid).
    { by rewrite <- reverse_app, <- Hrev, reverse_involutive. }
    apply Forall_reverse_iff in Hmid, Hrb. rewrite app_nil_r, <- fmap_reverse.
    revert Hmid Hrb Hp. generalize (reverse rb), (reverse mid). clear Hrev rb mid.
    intros l1 l2 Hl2 Hl1 ->. split.
    { apply keys_lookup_None, Forall_app. split; (eapply Forall_impl; [eassumption|]); simpl; lia. }
    exists (l1 ++ (i, newseg) :: l2). split.
    + apply Forall_app in Hs as [??], Hr as [??].
      assert (Hb' : numbered n (n + kcp_rcv_wnd kcp) (l1 ++ (i, newseg) :: l2)
                      (l1.*2 ++ newseg :: l2.*2)).
      { constructor; [by rewrite fmap_app | | |].
        - apply Forall_app. split; [done|]. by constructor.
        - apply Forall_app. split; [done|]. constructor; [simpl; lia | done].
        - by apply sorted_keys_middle. }
      constructor; simpl; try done.
      rewrite Hnb, Hbuf, fmap_app, !length_app. simpl.
      apply numbered_window in Hb' as Hlen; [|lia].
      rewrite length_app in Hlen. simpl in Hlen. rewrite u32_small; unfold is_u32; lia.
    + apply list_to_map_middle. eapply Forall_impl; [exact Hl1|]. simpl. lia.
  - destruct Hscan as [seg Hin]; [lia | lia | | |].
    { apply Forall_reverse_iff. rewrite Forall_forall in *. intros p Hp. auto. }
    { by apply (StronglySorted_reverse (fun p q : Z * IKCPSEG => p.1 < q.1)). }
    exists seg. apply sorted_keys_lookup; [done|]. by apply elem_of_reverse.
Qed.
End parse_data.

Lemma parse_data_erase kcp newseg : erase_rcv (ikcp_parse_data kcp newseg) = erase_rcv kcp.
Proof.
  unfold ikcp_parse_data. bcase; [done|]. rewrite move_ready_erase.
  by destruct (rcv_scan _ _ _) as [[]|].
Qed.

(** Two segments of the same window are the same number. *)
Lemma parse_data_window n wnd i :
  0 <= wnd < 2147483648 -> n - 2147483648 <= i < n + 2147483648 ->
  (_itimediff (u32 i) (u32 (u32 n + wnd)) >=? 0) || (_itimediff (u32 i) (u32 n) <? 0) =
  negb (bool_decide (n <= i < n + wnd)).
Proof.
  intros Hw Hi. rewrite u32_add_l, !_itimediff_eq.
  destruct (Z.geb_spec (s32 (u32 i - u32 (n + wnd))) 0), (Z.ltb_spec (s32 (u32 i - u32 n)) 0);
    case_bool_decide; simpl; try done; exfalso; word.
Qed.

Lemma parse_data_sim r kcp i newseg :
  rx_refines r kcp -> seg_sn newseg = u32 i ->
  rx_next r - 2147483648 <= i < rx_next r + 2147483648 ->
  rx_refines (rx_push (kcp_rcv_wnd kcp) i newseg r) (ikcp_parse_data kcp newseg).
Proof.
  intros (pend & Hwf & Hp & Hq) Hsn Hi. unfold ikcp_parse_data, rx_push.
  destruct (rwf_wnd _ _ _ Hwf) as [Hw1 Hw2]. unfold IKCP_WND_RCV in Hw1.
  rewrite Hsn, (rwf_nxt _ _ _ Hwf), parse_data_window by lia.
  case_bool_decide as Hin; simpl; [|rewrite decide_False by done; by exists pend].
  rewrite decide_True by done.
  pose proof (rcv_wf_insert _ _ _ i newseg Hwf Hin Hsn) as Hins.
  destruct (rcv_scan _ _ _) as [[before after]|].
  - destruct Hins as (Hnone & pend' & Hwf' & Hmap). rewrite Hp, Hnone.
    exact (move_ready_refines
             {| rx_next := rx_next r; rx_pending := <[i := newseg]> (list_to_map pend);
                rx_queue := rx_queue r |} _
             (ex_intro _ pend' (conj Hwf' (conj (eq_sym Hmap) Hq)))).
  - destruct Hins as [seg Hseg]. rewrite Hp, Hseg.
    apply move_ready_refines. by exists pend.
Qed.

(** C24.  Reassembly.  Whatever 32-bit sequence number a pushed segment carries
    (every one is the number of exactly one position within 2^31 of the next
    expected segment), [ikcp_parse_data] - a backward scan of an ordered list
    with wrapping comparisons, then the move loop - does to the control block
    what the map-based specification [rx_push] does: out-of-window and duplicate
    segments change nothing, a new one is stored once, and the consecutive
    segments at the front go to the receive queue in order while it has room. *)
Theorem parse_data_refines r kcp i newseg :
  rx_refines r kcp -> seg_sn newseg = u32 i ->
  rx_next r - 2147483648 <= i < rx_next r + 2147483648 ->
  rx_refines (rx_push (kcp_rcv_wnd kcp) i newseg r) (ikcp_parse_data kcp newseg).
Proof. apply parse_data_sim. Qed.

(** A window that wraps around: [rcv_nxt] is 2^32 - 1 and the segment after it,
    number 2^32, arrives first. *)
Lemma parse_data_refines_witness :
  let kcp := ikcp_create 7 <| kcp_rcv_nxt := 4294967295 |> in
  let r := {| rx_next := 4294967295; rx_pending := ∅; rx_queue := [] |} in
  let seg := ikcp_segment_new <| seg_sn := 0 |> in
  (rx_refines r kcp /\ seg_sn seg = u32 4294967296) /\
  rx_refines (rx_push (kcp_rcv_wnd kcp) 4294967296 seg r) (ikcp_parse_data kcp seg).
Proof.
  set (kcp := ikcp_create 7 <| kcp_rcv_nxt := 4294967295 |>).
  set (r := {| rx_next := 4294967295; rx_pending := ∅; rx_queue := [] |}). cbv zeta.
  assert (rx_refines r kcp) as Hr.
  { exists []. split; [|done]. constructor; [done | apply numbered_nil | done..]. }
  split; [done|].
  apply (parse_data_refines r kcp); [exact Hr | done | split; vm_compute; congruence].
Defined.

(** ** Delivering a message *)

Section recv.
Implicit Types (segs queue : list IKCPSEG) (kcp : ikcpcb).

(** The two loops, of [ikcp_peeksize] and [ikcp_recv], add up the same
    lengths. *)
Lemma recv_merge_length queue ispeek buffer out len kcp :
  Forall (fun s => is_u32 (seg_frg s)) queue ->
  (recv_merge queue ispeek buffer out len kcp).1.2 = peek_loop queue len.
Proof.
  intros Hq. revert out len kcp. induction Hq as [|seg queue Hfrg Hq IH]; intros; simpl; [done|].
  assert ((s32 (seg_frg seg) =? 0) = (seg_frg seg =? 0)) as ->.
  { destruct (Z.eqb_spec (seg_frg seg) 0) as [->|]; [done|]. apply Z.eqb_neq. word. }
  bcase; simpl; [done | apply IH].
Qed.

Lemma peeksize_eq kcp seg queue :
  kcp_rcv_queue kcp = seg :: queue ->
  ikcp_peeksize kcp =
    if (seg_frg seg =? 0) || negb (kcp_nrcv_que kcp <? u32 (seg_frg seg + 1))
    then peek_loop (kcp_rcv_queue kcp) 0 else -1.
Proof.
  intros Hq. unfold ikcp_peeksize. rewrite Hq. simpl peek_loop.
  destruct (seg_frg seg =? 0); simpl.
  - by rewrite s32_u32.
  - by destruct (kcp_nrcv_que kcp <? u32 (seg_frg seg + 1)).
Qed.

Lemma message_nonempty l m : message l m -> exists n d l', l = (n, d) :: l' /\ n = Z.of_nat (length l').
Proof. destruct 1; eauto 10. Qed.

Lemma peek_loop_message l m :
  message l m -> forall segs rest len,
  map frag_of segs = l -> Forall seg_sized segs -> 0 <= len ->
  len + Z.of_nat (length m) < 2147483648 ->
  peek_loop (segs ++ rest) len = len + Z.of_nat (length m).
Proof.
  induction 1 as [d|d l m Hm IH]; intros segs rest len Hl Hs Hlen Hb;
    (destruct segs as [|seg segs]; [done|]); simpl in Hl; injection Hl as Hf Hd Hl;
    apply Forall_cons in Hs as [Hseg Hs]; unfold seg_sized in Hseg; rewrite Hd in Hseg;
    simpl; rewrite Hseg, Hf.
  - simpl. rewrite s32_u32. apply s32_small. unfold is_s32. lia.
  - pose proof (message_nonempty _ _ Hm) as (? & ? & ? & Hnil & _).
    rewrite length_app in Hb. rewrite s32_u32, s32_small by (unfold is_s32; lia).
    bcase; [rewrite Hnil in *; simpl in *; lia|].
    rewrite IH by (done || lia). rewrite length_app. lia.
Qed.

(** Without [ispeek] the merge loop takes the whole message and nothing else. *)
Lemma recv_merge_message l m :
  message l m -> forall segs rest out len kcp,
  map frag_of segs = l -> Forall seg_sized segs -> Forall (fun s => is_u32 (seg_frg s)) segs ->
  0 <= len -> len + Z.of_nat (length m) < 2147483648 ->
  recv_merge (segs ++ rest) false true out len kcp =
    (out ++ m, len + Z.of_nat (length m),
     kcp <| kcp_rcv_queue := rest |>
         <| kcp_nrcv_que := u32 (kcp_nrcv_que kcp - Z.of_nat (length segs)) |>).
Proof.
  induction 1 as [d|d l m Hm IH]; intros segs rest out len kcp Hl Hs Hu Hlen Hb;
    (destruct segs as [|seg segs]; [done|]); simpl in Hl; injection Hl as Hf Hd Hl;
    apply Forall_cons in Hs as [Hseg Hs]; unfold seg_sized in Hseg; rewrite Hd in Hseg;
    apply Forall_cons in Hu as [Hu1 Hu]; rewrite Hf in Hu1;
    simpl; rewrite Hseg, Hf, Hd, Nat2Z.id, take_ge by done.
  - destruct segs; [|done]. simpl. by rewrite s32_u32, s32_small by (unfold is_s32; lia).
  - pose proof (message_nonempty _ _ Hm) as (? & ? & ? & Hnil & _).
    rewrite length_app in Hb.
    rewrite s32_u32, (s32_small (len + Z.of_nat (length d))) by (unfold is_s32; lia).
    assert (Hne : (s32 (Z.of_nat (length l)) =? 0) = false).
    { apply Z.eqb_neq. rewrite Hnil in *. simpl in *. word. }
    rewrite Hne, IH by (done || lia). simpl. rewrite length_app, <- app_assoc, u32_sub_l.
    replace (kcp_nrcv_que kcp - Z.of_nat (S (length segs)))
      with (kcp_nrcv_que kcp - 1 - Z.of_nat (length segs)) by lia.
    replace (len + Z.of_nat (length d + length m))
      with (len + Z.of_nat (length d) + Z.of_nat (length m)) by lia.
    done.
Qed.

Lemma message_length l m : message l m -> forall segs, map frag_of segs = l -> (0 < length segs)%nat.
Proof. destruct 1; intros [|]; simpl; (done || lia). Qed.

(** A whole message at the front is seen by [ikcp_peeksize]. *)
Lemma peeksize_message segs rest m kcp :
  kcp_rcv_queue kcp = segs ++ rest -> message (map frag_of segs) m -> Forall seg_sized segs ->
  kcp_nrcv_que kcp = Z.of_nat (length (kcp_rcv_queue kcp)) -> kcp_nrcv_que kcp < 4294967296 ->
  Z.of_nat (length m) < 2147483648 -> ikcp_peeksize kcp = Z.of_nat (length m).
Proof.
  intros Hq Hm Hs Hn Hlt Hlen. pose proof (peek_loop_message _ _ Hm segs rest 0) as Hp.
  destruct segs as [|seg segs]; [by apply message_nonempty in Hm as (? & ? & ? & ? & _)|].
  rewrite (peeksize_eq _ _ _ Hq). rewrite Hq, Hp by (done || lia).
  rewrite Hq, length_app in Hn. simpl in Hn, Hm.
  apply message_nonempty in Hm as (n & d & l & [= Hf Hd Hl] & ->).
  rewrite <- Hl, length_map in Hf. rewrite Hf, Hn. bcase; [lia|].
  exfalso. rewrite u32_small in *; unfold is_u32; lia.
Qed.
End recv.

(** Fields no call on the receive queue touches; [ikcp_recv] may also set the
    window-announcement bit of [probe]. *)
Definition erase_recv (kcp : ikcpcb) : ikcpcb := erase_rcv kcp <| kcp_probe := 0 |>.

Lemma recv_merge_erase queue ispeek buffer out len kcp :
  erase_rcv (recv_merge queue ispeek buffer out len kcp).2 = erase_rcv kcp.
Proof.
  revert out len kcp. induction queue as [|seg queue IH]; intros; simpl; [done|].
  destruct ispeek; simpl; bcase; simpl; try done; by rewrite IH.
Qed.

Lemma recv_total kcp buffer len :
  Forall (fun s => is_u32 (seg_frg s)) (kcp_rcv_queue kcp) ->
  exists ret out kcp', ikcp_recv kcp buffer len = Ok (ret, out, kcp') /\
    (ret < 0 -> out = [] /\ kcp' = kcp) /\
    erase_recv kcp' = erase_recv kcp.
Proof.
  intros Hq. unfold ikcp_recv. destruct (kcp_rcv_queue kcp) as [|seg queue] eqn:Heq; [by eauto 10|].
  cbv zeta. rewrite (peeksize_eq _ _ _ Heq), Heq.
  destruct (_ || _); [|by eauto 10].
  set (ps := peek_loop (seg :: queue) 0). set (len' := if len <? 0 then _ else len).
  bcase; [by eauto 10|]. bcase; [by eauto 10|].
  pose proof (recv_merge_length (seg :: queue) (len <? 0) buffer [] 0 kcp Hq) as Hlen.
  pose proof (recv_merge_erase (seg :: queue) (len <? 0) buffer [] 0 kcp) as Her.
  destruct (recv_merge _ _ _ _ _ _) as [[out ret] kcp1]. simpl in Hlen, Her. subst ret.
  fold ps. rewrite Z.eqb_refl. cbn [negb].
  exists ps. eexists _, _. split; [done|]. split; [lia|].
  unfold erase_recv. rewrite <- Her, <- (move_ready_erase (kcp_rcv_buf kcp1) kcp1).
  by destruct (_ && _).
Qed.

(** The assertion [len == peeksize] of [ikcp_recv] holds in every state, so
    the call always returns; a negative result means that nothing was copied and
    nothing changed, and otherwise only the receive queue and buffer, their
    counters and [probe] may have changed. *)
Theorem ikcp_recv_total kcp buffer len :
  Forall (fun s => is_u32 (seg_frg s)) (kcp_rcv_queue kcp) ->
  exists ret out kcp', ikcp_recv kcp buffer len = Ok (ret, out, kcp') /\
    (ret < 0 -> out = [] /\ kcp' = kcp) /\
    erase_recv kcp' = erase_recv kcp.
Proof. apply recv_total. Qed.

Lemma ikcp_recv_total_witness :
  let kcp := ikcp_create 7
    <| kcp_rcv_queue := [ikcp_segment_new <| seg_data := [z2b 1; z2b 2] |> <| seg_len := 2 |>] |>
    <| kcp_nrcv_que := 1 |> in
  Forall (fun s => is_u32 (seg_frg s)) (kcp_rcv_queue kcp) /\
  exists ret out kcp', ikcp_recv kcp true 2 = Ok (ret, out, kcp') /\
    (ret < 0 -> out = [] /\ kcp' = kcp) /\ erase_recv kcp' = erase_recv kcp.
Proof.
  cbv zeta. split; [repeat constructor; vm_compute; congruence|].
  apply ikcp_recv_total. repeat constructor; vm_compute; congruence.
Defined.

Lemma recv_message r kcp segs rest m len :
  rx_refines r kcp -> rx_queue r = segs ++ rest -> message (map frag_of segs) m ->
  Forall seg_sized segs -> Forall (fun s => is_u32 (seg_frg s)) (rx_queue r) ->
  Z.of_nat (length m) <= len < 2147483648 ->
  exists kcp',
    ikcp_recv kcp true len = Ok (Z.of_nat (length m), m, kcp') /\
    rx_refines (rx_settle (kcp_rcv_wnd kcp)
      {| rx_next := rx_next r; rx_pending := rx_pending r; rx_queue := rest |}) kcp' /\
    erase_recv kcp' = erase_recv kcp /\
    kcp_probe kcp' =
      (if (kcp_nrcv_que kcp' <? kcp_rcv_wnd kcp) && (kcp_nrcv_que kcp >=? kcp_rcv_wnd kcp)
       then Z.lor (kcp_probe kcp) IKCP_ASK_TELL else kcp_probe kcp).
Proof.
  intros (pend & Hwf & Hp & Hqr) Hq Hm Hs Hu [Hlen Hlen'].
  rewrite Hqr in Hq, Hu. destruct (Hwf) as [Hn Hb Hw Hnb Hnq Hcap].
  unfold IKCP_WND_RCV in Hw. unfold ikcp_recv.
  pose proof (peeksize_message segs rest m kcp Hq Hm Hs Hnq ltac:(lia) ltac:(lia)) as Hps.
  destruct (kcp_rcv_queue kcp) as [|seg queue] eqn:Heq.
  { symmetry in Hq. apply app_nil in Hq as [-> _].
    by apply message_nonempty in Hm as (? & ? & ? & ? & _). }
  cbv zeta. rewrite Hps. bcase; [lia|]. bcase; [lia|]. bcase; [lia|].
  rewrite Hq, (recv_merge_message _ _ Hm); try done; try lia.
  2:{ rewrite Hq in Hu. by apply Forall_app in Hu as [??]. }
  simpl app. rewrite Z.add_0_l, Z.eqb_refl. simpl negb. cbv iota.
  set (kcp1 := kcp <| kcp_rcv_queue := rest |> <| kcp_nrcv_que := _ |>).
  assert (Hwf1 : rx_refines {| rx_next := rx_next r; rx_pending := rx_pending r;
                               rx_queue := rest |} kcp1).
  { exists pend. split; [|done]. rewrite Hq, length_app in *.
    constructor; simpl; try done; try (kcp_consts; lia).
    rewrite Hnq, u32_small; unfold is_u32; lia. }
  apply move_ready_refines in Hwf1. change (kcp_rcv_wnd kcp1) with (kcp_rcv_wnd kcp) in Hwf1.
  pose proof (move_ready_erase (kcp_rcv_buf kcp1) kcp1) as Her.
  set (kcp2 := move_ready (kcp_rcv_buf kcp1) kcp1) in *.
  pose proof (f_equal kcp_rcv_wnd Her) as Hw2. simpl in Hw2. rewrite Hw2.
  pose proof (f_equal kcp_probe Her) as Hp2. simpl in Hp2.
  destruct Hwf1 as (pend' & Hwf2 & Hp' & Hq').
  match goal with |- context [if ?b then _ else _] => destruct b eqn:Hc end;
    (eexists; split; [done|]; split; [|split]).
  - exists pend'. split; [|done]. destruct Hwf2. by constructor.
  - unfold erase_recv. change (erase_rcv kcp) with (erase_rcv kcp1). by rewrite <- Her.
  - simpl. by rewrite Hc, Hp2.
  - by exists pend'.
  - unfold erase_recv. change (erase_rcv kcp) with (erase_rcv kcp1). by rewrite <- Her.
  - by rewrite Hc, Hp2.
Qed.

(** When a whole message stands at the front of the receive queue and the
    caller's buffer is large enough, [ikcp_recv] returns exactly that message
    and removes exactly its fragments; segments that waited for room in the
    queue follow, and the freed window is announced when the queue had been
    full. *)
Theorem ikcp_recv_message r kcp segs rest m len :
  rx_refines r kcp -> rx_queue r = segs ++ rest -> message (map frag_of segs) m ->
  Forall seg_sized segs -> Forall (fun s => is_u32 (seg_frg s)) (rx_queue r) ->
  Z.of_nat (length m) <= len < 2147483648 ->
  exists kcp',
    ikcp_recv kcp true len = Ok (Z.of_nat (length m), m, kcp') /\
    rx_refines (rx_settle (kcp_rcv_wnd kcp)
      {| rx_next := rx_next r; rx_pending := rx_pending r; rx_queue := rest |}) kcp' /\
    erase_recv kcp' = erase_recv kcp /\
    kcp_probe kcp' =
      (if (kcp_nrcv_que kcp' <? kcp_rcv_wnd kcp) && (kcp_nrcv_que kcp >=? kcp_rcv_wnd kcp)
       then Z.lor (kcp_probe kcp) IKCP_ASK_TELL else kcp_probe kcp).
Proof. apply recv_message. Qed.

Lemma ikcp_recv_message_witness :
  let seg frg data := ikcp_segment_new <| seg_frg := frg |>
                        <| seg_data := data |> <| seg_len := Z.of_nat (length data) |> in
  let segs := [seg 1 [z2b 10; z2b 20]; seg 0 [z2b 30]] in
  let kcp := ikcp_create 7 <| kcp_rcv_queue := segs |> <| kcp_nrcv_que := 2 |> in
  let r := {| rx_next := 0; rx_pending := ∅; rx_queue := segs |} in
  let m := [z2b 10; z2b 20; z2b 30] in
  (rx_refines r kcp /\ message (map frag_of segs) m) /\
  exists kcp',
    ikcp_recv kcp true 100 = Ok (Z.of_nat (length m), m, kcp') /\
    rx_refines (rx_settle (kcp_rcv_wnd kcp)
      {| rx_next := rx_next r; rx_pending := rx_pending r; rx_queue := [] |}) kcp' /\
    erase_recv kcp' = erase_recv kcp /\
    kcp_probe kcp' =
      (if (kcp_nrcv_que kcp' <? kcp_rcv_wnd kcp) && (kcp_nrcv_que kcp >=? kcp_rcv_wnd kcp)
       then Z.lor (kcp_probe kcp) IKCP_ASK_TELL else kcp_probe kcp).
Proof.
  intros seg segs kcp r m.
  assert (rx_refines r kcp) as Hr.
  { exists []. split; [|done]. constructor; try done; apply numbered_nil. }
  assert (message (map frag_of segs) m) as Hm.
  { apply (message_more [z2b 10; z2b 20] [(0, [z2b 30])] [z2b 30]), message_last. }
  split; [done|].
  apply (ikcp_recv_message r kcp segs [] m 100 Hr); try done.
  - repeat constructor.
  - repeat constructor; vm_compute; congruence.
Defined.
