(* ===== verification/KcpAck.v ===== *)
(** * KCP: acknowledgements

    [ikcp_update_ack] (retransmission timeout), [ikcp_shrink_buf],
    [ikcp_parse_ack], [ikcp_parse_una], [ikcp_parse_fastack] (removal of
    acknowledged segments from [snd_buf] and the duplicate-ack counters), and
    the list of acknowledgements to send ([ikcp_ack_push], [ikcp_ack_get]). *)

From S2P Require Import Prelude KcpBase KcpNumbered.

(** ** The code *)

(** [int] arithmetic that could overflow is wrapped; [update_ack_exact] below
    gives the range in which it does not. *)
Definition ikcp_update_ack (kcp : ikcpcb) (rtt : Z) : ikcpcb :=
  let kcp :=
    if kcp_rx_srtt kcp =? 0 then
      kcp <| kcp_rx_srtt := rtt |> <| kcp_rx_rttval := Z.quot rtt 2 |>
    else
      let delta := s32 (rtt - kcp_rx_srtt kcp) in
      let delta := if delta <? 0 then - delta else delta in
      let kcp := kcp <| kcp_rx_rttval := s32 (Z.quot (s32 (3 * kcp_rx_rttval kcp) + delta) 4) |> in
      let kcp := kcp <| kcp_rx_srtt := Z.quot (s32 (s32 (7 * kcp_rx_srtt kcp) + rtt)) 8 |> in
      if kcp_rx_srtt kcp <? 1 then kcp <| kcp_rx_srtt := 1 |> else kcp in
  let rto := s32 (u32 (kcp_rx_srtt kcp
                       + _imax_ (kcp_interval kcp) (u32 (s32 (4 * kcp_rx_rttval kcp))))) in
  kcp <| kcp_rx_rto := s32 (_ibound_ (u32 (kcp_rx_minrto kcp)) (u32 rto) IKCP_RTO_MAX) |>.

Definition ikcp_shrink_buf (kcp : ikcpcb) : ikcpcb :=
  match kcp_snd_buf kcp with
  | seg :: _ => kcp <| kcp_snd_una := seg_sn seg |>
  | [] => kcp <| kcp_snd_una := kcp_snd_nxt kcp |>
  end.

(** The loop of [ikcp_parse_ack]: the buffer without segment [sn], or [None]
    when no segment is removed. *)
Fixpoint ack_scan (buf : list IKCPSEG) (sn : Z) : option (list IKCPSEG) :=
  match buf with
  | [] => None
  | seg :: buf =>
      if sn =? seg_sn seg then Some buf
      else if _itimediff sn (seg_sn seg) <? 0 then None
      else option_map (cons seg) (ack_scan buf sn)
  end.

Definition ikcp_parse_ack (kcp : ikcpcb) (sn : Z) : ikcpcb :=
  if (_itimediff sn (kcp_snd_una kcp) <? 0) || (_itimediff sn (kcp_snd_nxt kcp) >=? 0)
  then kcp
  else
    match ack_scan (kcp_snd_buf kcp) sn with
    | Some buf => kcp <| kcp_snd_buf := buf |> <| kcp_nsnd_buf := u32 (kcp_nsnd_buf kcp - 1) |>
    | None => kcp
    end.

Fixpoint una_loop (buf : list IKCPSEG) (una : Z) (kcp : ikcpcb) : ikcpcb :=
  match buf with
  | [] => kcp
  | seg :: buf =>
      if _itimediff una (seg_sn seg) >? 0 then
        una_loop buf una
          (kcp <| kcp_snd_buf := buf |> <| kcp_nsnd_buf := u32 (kcp_nsnd_buf kcp - 1) |>)
      else kcp
  end.

Definition ikcp_parse_una (kcp : ikcpcb) (una : Z) : ikcpcb := una_loop (kcp_snd_buf kcp) una kcp.

Fixpoint fastack_scan (buf : list IKCPSEG) (sn : Z) : list IKCPSEG :=
  match buf with
  | [] => []
  | seg :: rest =>
      if _itimediff sn (seg_sn seg) <? 0 then buf
      else (if negb (sn =? seg_sn seg)
            then seg <| seg_fastack := u32 (seg_fastack seg + 1) |> else seg)
           :: fastack_scan rest sn
  end.

Definition ikcp_parse_fastack (kcp : ikcpcb) (sn : Z) : ikcpcb :=
  if (_itimediff sn (kcp_snd_una kcp) <? 0) || (_itimediff sn (kcp_snd_nxt kcp) >=? 0)
  then kcp
  else kcp <| kcp_snd_buf := fastack_scan (kcp_snd_buf kcp) sn |>.

(** [for (newblock = 8; newblock < newsize; newblock <<= 1);] with a bound of
    64 doublings (a [size_t] has 64 bits). *)
Fixpoint grow_block (fuel : nat) (newblock newsize : Z) : Z :=
  match fuel with
  | O => newblock
  | S fuel =>
      if newblock <? newsize then grow_block fuel (u64 (Z.shiftl newblock 1)) newsize
      else newblock
  end.

(** [acklist] is the memory block: two words per acknowledgement, [ackblock]
    acknowledgements.  The words of a fresh block are 0; they are written before
    they are read. *)
Definition ack_reserve (kcp : ikcpcb) (newsize : Z) : ikcpcb :=
  if newsize >? kcp_ackblock kcp then
    let newblock := grow_block 64 8 newsize in
    let acklist := replicate (Z.to_nat (newblock * 2)) 0 in
    let old := take (Z.to_nat (kcp_ackcount kcp * 2)) (kcp_acklist kcp) in
    let acklist := old ++ drop (length old) acklist in
    kcp <| kcp_acklist := acklist |> <| kcp_ackblock := u32 newblock |>
  else kcp.

Definition ikcp_ack_push (kcp : ikcpcb) (sn ts : Z) : ikcpcb :=
  let kcp := ack_reserve kcp (u32 (kcp_ackcount kcp + 1)) in
  let ptr := Z.to_nat (kcp_ackcount kcp * 2) in
  kcp <| kcp_acklist := <[S ptr := ts]> (<[ptr := sn]> (kcp_acklist kcp)) |>
      <| kcp_ackcount := u32 (kcp_ackcount kcp + 1) |>.

Definition ikcp_ack_get (kcp : ikcpcb) (p : Z) : Z * Z :=
  (nth (Z.to_nat (p * 2)) (kcp_acklist kcp) 0, nth (Z.to_nat (p * 2 + 1)) (kcp_acklist kcp) 0).

(** ** Frames: what the operations leave alone *)

Definition erase_snd (kcp : ikcpcb) : ikcpcb :=
  kcp <| kcp_snd_buf := [] |> <| kcp_nsnd_buf := 0 |> <| kcp_snd_una := 0 |>.
Definition erase_rtt (kcp : ikcpcb) : ikcpcb :=
  kcp <| kcp_rx_srtt := 0 |> <| kcp_rx_rttval := 0 |> <| kcp_rx_rto := 0 |>.
Definition erase_ack (kcp : ikcpcb) : ikcpcb :=
  kcp <| kcp_acklist := [] |> <| kcp_ackcount := 0 |> <| kcp_ackblock := 0 |>.

Lemma update_ack_erase kcp rtt : erase_rtt (ikcp_update_ack kcp rtt) = erase_rtt kcp.
Proof. unfold ikcp_update_ack, erase_rtt. by repeat bcase. Qed.

Lemma shrink_buf_erase kcp : erase_snd (ikcp_shrink_buf kcp) = erase_snd kcp.
Proof. unfold ikcp_shrink_buf. by destruct (kcp_snd_buf kcp). Qed.

Lemma parse_ack_erase kcp sn : erase_snd (ikcp_parse_ack kcp sn) = erase_snd kcp.
Proof. unfold ikcp_parse_ack. bcase; [done|]. by destruct (ack_scan _ _). Qed.

Lemma parse_una_erase kcp una : erase_snd (ikcp_parse_una kcp una) = erase_snd kcp.
Proof.
  unfold ikcp_parse_una. generalize (kcp_snd_buf kcp). intros buf. revert kcp.
  induction buf as [|seg buf IH]; intros kcp; simpl; [done|]. bcase; [|done]. by rewrite IH.
Qed.

Lemma parse_fastack_erase kcp sn : erase_snd (ikcp_parse_fastack kcp sn) = erase_snd kcp.
Proof. unfold ikcp_parse_fastack. by bcase. Qed.

Lemma ack_push_erase kcp sn ts : erase_ack (ikcp_ack_push kcp sn ts) = erase_ack kcp.
Proof. unfold ikcp_ack_push, ack_reserve. by bcase. Qed.

(** ** Round-trip time *)

(** The retransmission timeout stays between the configured minimum and
    60 seconds, whatever the measured round-trip time and the previous estimate
    - even one the peer made up. *)
Theorem update_ack_rto_bounds kcp rtt :
  0 <= kcp_rx_minrto kcp <= IKCP_RTO_MAX ->
  kcp_rx_minrto (ikcp_update_ack kcp rtt) = kcp_rx_minrto kcp /\
  kcp_rx_minrto kcp <= kcp_rx_rto (ikcp_update_ack kcp rtt) <= IKCP_RTO_MAX.
Proof.
  intros Hmin. unfold ikcp_update_ack.
  match goal with |- context [upd kcp_rx_rto _ ?x] => set (kcp1 := x) end.
  assert (Heq : kcp_rx_minrto kcp1 = kcp_rx_minrto kcp).
  { unfold kcp1. repeat bcase; done. }
  simpl. rewrite Heq. split; [done|]. unfold IKCP_RTO_MAX in *.
  rewrite (u32_small (kcp_rx_minrto kcp)) by (unfold is_u32; lia).
  pose proof (_ibound_range (kcp_rx_minrto kcp)
    (u32 (s32 (u32 (kcp_rx_srtt kcp1 + _imax_ (kcp_interval kcp1)
      (u32 (s32 (4 * kcp_rx_rttval kcp1))))))) 60000).
  rewrite s32_small; unfold is_s32; lia.
Qed.

Lemma update_ack_rto_bounds_witness :
  let kcp := ikcp_create 7 in
  0 <= kcp_rx_minrto kcp <= IKCP_RTO_MAX /\
  (kcp_rx_minrto (ikcp_update_ack kcp 250) = kcp_rx_minrto kcp /\
   kcp_rx_minrto kcp <= kcp_rx_rto (ikcp_update_ack kcp 250) <= IKCP_RTO_MAX).
Proof.
  split; [split; vm_compute; congruence|].
  apply (update_ack_rto_bounds (ikcp_create 7) 250). split; vm_compute; congruence.
Defined.

(** The estimator of the code without machine arithmetic: smoothed mean with
    weight 1/8, deviation with weight 1/4. *)
Definition rtt_update (srtt rttval rtt : Z) : Z * Z :=
  if srtt =? 0 then (rtt, rtt / 2)
  else (Z.max 1 ((7 * srtt + rtt) / 8), (3 * rttval + Z.abs (rtt - srtt)) / 4).

(** Clock differences below 2^28 ms (three days) cannot overflow. *)
Definition RTT_BOUND : Z := 268435456.
Definition rtt_ok (z : Z) : Prop := 0 <= z < RTT_BOUND.

(** As long as measured round-trip times stay below 2^28 ms the 32-bit
    estimator computes the exact weighted averages: no intermediate value
    overflows, and the new estimates are again in range. *)
Theorem update_ack_exact kcp rtt :
  rtt_ok (kcp_rx_srtt kcp) -> rtt_ok (kcp_rx_rttval kcp) -> rtt_ok rtt ->
  0 <= kcp_interval kcp < RTT_BOUND -> 0 <= kcp_rx_minrto kcp <= IKCP_RTO_MAX ->
  let kcp' := ikcp_update_ack kcp rtt in
  let '(srtt, rttval) := rtt_update (kcp_rx_srtt kcp) (kcp_rx_rttval kcp) rtt in
  kcp_rx_srtt kcp' = srtt /\ kcp_rx_rttval kcp' = rttval /\
  kcp_rx_rto kcp' = Z.min (Z.max (kcp_rx_minrto kcp) (srtt + Z.max (kcp_interval kcp) (4 * rttval)))
                          IKCP_RTO_MAX /\
  rtt_ok srtt /\ rtt_ok rttval.
Proof.
  unfold rtt_ok, RTT_BOUND, IKCP_RTO_MAX. intros Hs Hv Hr Hi Hm.
  unfold ikcp_update_ack, rtt_update. cbv zeta.
  assert (Hrto : forall s v, 0 <= s < 268435456 -> 0 <= v < 268435456 ->
    s32 (_ibound_ (u32 (kcp_rx_minrto kcp))
      (u32 (s32 (u32 (s + _imax_ (kcp_interval kcp) (u32 (s32 (4 * v))))))) 60000) =
    Z.min (Z.max (kcp_rx_minrto kcp) (s + Z.max (kcp_interval kcp) (4 * v))) 60000).
  { intros s v Hs' Hv'. unfold _ibound_. rewrite !_imin_spec, !_imax_spec.
    rewrite u32_s32, u32_u32, u32_s32, !(u32_small (4 * v)), !(u32_small (kcp_rx_minrto kcp)),
      u32_small, s32_small by (unfold is_u32, is_s32; lia). done. }
  bcase; simpl.
  - rewrite Z.quot_div_nonneg by lia. rewrite Hrto by (word || lia). split_and!; word || done.
  - set (d := s32 (rtt - kcp_rx_srtt kcp)).
    assert (Hd : (if d <? 0 then - d else d) = Z.abs (rtt - kcp_rx_srtt kcp)).
    { unfold d. rewrite s32_small by (unfold is_s32; lia). bcase; lia. }
    rewrite Hd. rewrite !(s32_small (3 * _)), !(s32_small (7 * _)) by (unfold is_s32; lia).
    rewrite !(s32_small (7 * _ + _)) by (unfold is_s32; lia).
    rewrite !Z.quot_div_nonneg by lia.
    rewrite !(s32_small (_ / 4)) by word.
    bcase; simpl; rewrite Hrto by word.
    + assert (Z.max 1 ((7 * kcp_rx_srtt kcp + rtt) / 8) = 1) as -> by lia.
      split_and!; word || done.
    + assert (Z.max 1 ((7 * kcp_rx_srtt kcp + rtt) / 8) = (7 * kcp_rx_srtt kcp + rtt) / 8) as -> by lia.
      split_and!; word || done.
Qed.

Lemma update_ack_exact_witness :
  let kcp := ikcp_create 7 <| kcp_rx_srtt := 120 |> <| kcp_rx_rttval := 15 |> in
  (rtt_ok (kcp_rx_srtt kcp) /\ rtt_ok 200) /\
  (let kcp' := ikcp_update_ack kcp 200 in
   let '(srtt, rttval) := rtt_update (kcp_rx_srtt kcp) (kcp_rx_rttval kcp) 200 in
   kcp_rx_srtt kcp' = srtt /\ kcp_rx_rttval kcp' = rttval /\
   kcp_rx_rto kcp' = Z.min (Z.max (kcp_rx_minrto kcp) (srtt + Z.max (kcp_interval kcp) (4 * rttval)))
                           IKCP_RTO_MAX /\
   rtt_ok srtt /\ rtt_ok rttval).
Proof.
  split; [split; split; vm_compute; congruence|].
  apply (update_ack_exact (ikcp_create 7 <| kcp_rx_srtt := 120 |> <| kcp_rx_rttval := 15 |>) 200);
    split; vm_compute; congruence.
Defined.

(** ** The send window *)

(** The number of the oldest segment still in the buffer, [nxt] when none. *)
Definition head_number (pend : list (Z * IKCPSEG)) (nxt : Z) : Z :=
  match pend with p :: _ => p.1 | [] => nxt end.

(** [una], [nxt]: the unbounded values of [snd_una], [snd_nxt]; [pend] numbers
    the segments in flight. *)
Record snd_wf (una nxt : Z) (pend : list (Z * IKCPSEG)) (kcp : ikcpcb) : Prop := {
  swf_una : kcp_snd_una kcp = u32 una;
  swf_nxt : kcp_snd_nxt kcp = u32 nxt;
  swf_win : 0 <= nxt - una < 2147483648;
  swf_buf : numbered una nxt pend (kcp_snd_buf kcp);
  swf_nbuf : kcp_nsnd_buf kcp = Z.of_nat (length (kcp_snd_buf kcp));
  swf_nque : kcp_nsnd_que kcp = u32 (Z.of_nat (length (kcp_snd_queue kcp)))
}.

(** Segments in flight after acknowledging everything below [j], or [j] only. *)
Definition drop_below (j : Z) (pend : list (Z * IKCPSEG)) : list (Z * IKCPSEG) :=
  filter (fun p => j <= p.1) pend.
Definition drop_number (j : Z) (pend : list (Z * IKCPSEG)) : list (Z * IKCPSEG) :=
  filter (fun p => p.1 <> j) pend.

(** [buf] becomes the send buffer, its counter with it. *)
Definition with_snd_buf (buf : list IKCPSEG) (kcp : ikcpcb) : ikcpcb :=
  kcp <| kcp_snd_buf := buf |> <| kcp_nsnd_buf := Z.of_nat (length buf) |>.

Lemma with_snd_buf_id kcp :
  kcp_nsnd_buf kcp = Z.of_nat (length (kcp_snd_buf kcp)) -> with_snd_buf (kcp_snd_buf kcp) kcp = kcp.
Proof. destruct kcp. simpl. intros ->. done. Qed.

Section window.
Context (lo hi : Z).
Hypothesis Hwin : hi - lo < 2147483648.
Implicit Types (pend : list (Z * IKCPSEG)) (kcp : ikcpcb).

Lemma drop_below_all j pend :
  Forall (fun p => j <= p.1) pend -> drop_below j pend = pend.
Proof.
  induction 1 as [|p pend Hp _ IH]; [done|]. unfold drop_below.
  rewrite filter_cons_True by done. by f_equal.
Qed.

Lemma drop_number_all j pend :
  Forall (fun p => p.1 <> j) pend -> drop_number j pend = pend.
Proof.
  induction 1 as [|p pend Hp _ IH]; [done|]. unfold drop_number.
  rewrite filter_cons_True by done. by f_equal.
Qed.

Lemma una_loop_spec j pend buf kcp :
  numbered lo hi pend buf -> hi - 2147483648 <= j < lo + 2147483648 ->
  kcp_snd_buf kcp = buf -> kcp_nsnd_buf kcp = Z.of_nat (length buf) ->
  una_loop buf (u32 j) kcp = with_snd_buf ((drop_below j pend).*2) kcp.
Proof using Hwin.
  revert buf kcp. induction pend as [|p pend IH]; intros buf kcp Hnum Hj Hbuf Hn.
  - rewrite (num_buf _ _ _ _ Hnum) in *. simpl. rewrite <- (with_snd_buf_id kcp) at 1; by rewrite Hbuf.
  - pose proof (numbered_length _ _ _ _ Hnum) as Hlen.
    pose proof (num_buf _ _ _ _ Hnum) as Hb.
    apply numbered_window in Hnum as Hw; [|apply numbered_cons in Hnum as (? & _ & _ & ? & _); lia].
    apply numbered_cons in Hnum as (buf' & -> & Hsn & Hr & Hlt & Hnum).
    simpl. rewrite Hsn, _itimediff_close by lia. bcase.
    + rewrite (IH buf'); simpl; try done.
      * unfold drop_below. rewrite filter_cons_False by lia. done.
      * rewrite Hn. simpl in *. rewrite u32_small; unfold is_u32; lia.
    + rewrite drop_below_all, <- Hb, <- Hbuf.
      * symmetry. apply with_snd_buf_id. by rewrite Hbuf.
      * constructor; [lia|]. eapply Forall_impl; [exact Hlt|]. simpl. lia.
Qed.

Lemma ack_scan_spec j pend buf :
  numbered lo hi pend buf -> hi - 2147483648 <= j < lo + 2147483648 ->
  match ack_scan buf (u32 j) with
  | Some buf' => buf' = (drop_number j pend).*2 /\ length buf = S (length buf')
  | None => drop_number j pend = pend
  end.
Proof using Hwin.
  revert buf. induction pend as [|p pend IH]; intros buf Hnum Hj.
  - rewrite (num_buf _ _ _ _ Hnum). done.
  - apply numbered_cons in Hnum as (buf' & -> & Hsn & Hr & Hlt & Hnum).
    simpl. rewrite Hsn, _itimediff_close by lia.
    destruct (Z.eqb_spec (u32 j) (u32 p.1)) as [Heq|Hne].
    + apply u32_inj_close in Heq as Hpj; [|lia]. split; [|done].
      unfold drop_number. rewrite filter_cons_False by (intros Hne; by apply Hne).
      fold (drop_number j pend). rewrite drop_number_all; [apply (num_buf _ _ _ _ Hnum)|].
      eapply Forall_impl; [exact Hlt|]. simpl. lia.
    + assert (p.1 <> j) by congruence. bcase.
      * apply drop_number_all. constructor; [done|].
        eapply Forall_impl; [exact Hlt|]. simpl. lia.
      * specialize (IH buf' Hnum Hj). unfold drop_number in *. rewrite filter_cons_True by done.
        destruct (ack_scan buf' (u32 j)); simpl; [|by rewrite IH].
        destruct IH as [-> ->]. done.
Qed.
End window.

(** Acknowledgement numbers the comparisons of the code decide correctly: those
    within 2^31 of both ends of the window. *)
Definition ack_window (una nxt j : Z) : Prop := nxt - 2147483648 <= j < una + 2147483648.

(** Duplicate-ack counting: everything in flight below [j] was skipped. *)
Definition bump (j : Z) (p : Z * IKCPSEG) : Z * IKCPSEG :=
  (p.1, if p.1 <? j then p.2 <| seg_fastack := u32 (seg_fastack p.2 + 1) |> else p.2).

Section sender.
Context (una nxt : Z) (pend : list (Z * IKCPSEG)) (kcp : ikcpcb).
Hypothesis Hwf : snd_wf una nxt pend kcp.

Lemma head_number_range : una <= head_number pend nxt <= nxt.
Proof using Hwf.
  destruct Hwf as [_ _ Hw [_ _ Hr _] _ _]. destruct pend; simpl; [lia|].
  apply Forall_cons in Hr as [Hr _]. lia.
Qed.

Lemma shrink_buf_eq : ikcp_shrink_buf kcp = kcp <| kcp_snd_una := u32 (head_number pend nxt) |>.
Proof using Hwf.
  destruct Hwf as [_ Hn _ [-> Hsn _ _] _ _]. unfold ikcp_shrink_buf.
  destruct Hwf as [_ _ _ [-> _ _ _] _ _]. destruct pend; simpl; [by rewrite Hn|].
  apply Forall_cons in Hsn as [-> _]. done.
Qed.

Lemma parse_una_eq j :
  ack_window una nxt j -> ikcp_parse_una kcp (u32 j) = with_snd_buf ((drop_below j pend).*2) kcp.
Proof using Hwf.
  intros Hj. destruct Hwf as [_ _ Hw Hb Hn _]. unfold ikcp_parse_una.
  apply (una_loop_spec una nxt); (done || lia).
Qed.

Lemma parse_ack_eq j :
  ack_window una nxt j -> ikcp_parse_ack kcp (u32 j) = with_snd_buf ((drop_number j pend).*2) kcp.
Proof using Hwf.
  intros Hj. destruct Hwf as [Hu Hx Hw Hb Hn _]. unfold ack_window in Hj.
  unfold ikcp_parse_ack. rewrite Hu, Hx, !_itimediff_close by lia.
  destruct ((j - una <? 0) || (j - nxt >=? 0)) eqn:Hc.
  - assert (drop_number j pend = pend) as ->.
    { apply drop_number_all. eapply Forall_impl; [exact (num_range _ _ _ _ Hb)|]. simpl.
      reflect_bools. intros ? ?. destruct Hc; reflect_bools; lia. }
    rewrite <- (num_buf _ _ _ _ Hb). symmetry. by apply with_snd_buf_id.
  - pose proof (ack_scan_spec una nxt ltac:(lia) j _ _ Hb ltac:(lia)) as Hs.
    destruct (ack_scan _ _) as [buf'|].
    + destruct Hs as [-> Hl]. unfold with_snd_buf. rewrite Hn, Hl.
      apply numbered_window in Hb; [|lia]. rewrite Hl in Hb.
      rewrite (u32_small (_ - 1)) by (unfold is_u32; lia).
      by replace (Z.of_nat (S _) - 1) with (Z.of_nat (length (drop_number j pend).*2)) by lia.
    + rewrite Hs, <- (num_buf _ _ _ _ Hb). symmetry. by apply with_snd_buf_id.
Qed.

(** Removing segments and then shrinking keeps the invariant. *)
Lemma snd_wf_filter (P : Z * IKCPSEG -> Prop) `{!forall p, Decision (P p)} :
  snd_wf una nxt (filter P pend) (with_snd_buf ((filter P pend).*2) kcp).
Proof using Hwf.
  destruct Hwf as [Hu Hx Hw Hb Hn Hq]. constructor; try done.
  eapply numbered_filter, Hb.
Qed.

Lemma snd_wf_shrink : snd_wf (head_number pend nxt) nxt pend (ikcp_shrink_buf kcp).
Proof using Hwf.
  rewrite shrink_buf_eq. pose proof head_number_range. destruct Hwf as [Hu Hx Hw Hb Hn Hq].
  constructor; try done; [lia|]. simpl. apply (numbered_raise una); [|done].
  destruct Hb as [_ _ _ Hs]. destruct pend; simpl; constructor; [done|].
  apply sorted_keys_cons in Hs as [Hs _]. eapply Forall_impl; [exact Hs|]. simpl. lia.
Qed.

Lemma fastack_scan_eq j :
  ack_window una nxt j -> fastack_scan (kcp_snd_buf kcp) (u32 j) = (bump j <$> pend).*2.
Proof using Hwf.
  intros Hj. unfold ack_window in Hj. destruct Hwf as [_ _ Hw Hb _ _]. clear Hwf.
  revert Hb. generalize (kcp_snd_buf kcp). 
  induction pend as [|p pend' IH]; intros buf Hb; [by rewrite (num_buf _ _ _ _ Hb)|].
  pose proof (num_buf _ _ _ _ Hb) as Hbuf.
  apply numbered_cons in Hb as (buf' & -> & Hsn & Hr & Hlt & Hb).
  simpl. rewrite Hsn, _itimediff_close by lia. bcase.
  - injection Hbuf as ->. bcase; [lia|]. f_equal. clear -Hlt Hb0.
    induction Hlt as [|q l Hq Hlt IH']; simpl; [done|]. bcase; [lia|]. f_equal. done.
  - f_equal; [|by apply IH]. destruct (Z.eqb_spec (u32 j) (u32 p.1)) as [Heq|Hne]; simpl.
    + apply u32_inj_close in Heq; [|lia]. bcase; [lia | done].
    + bcase; [done|]. assert (j = p.1) as -> by lia. done.
Qed.

Lemma numbered_bump j : numbered una nxt (bump j <$> pend) ((bump j <$> pend).*2).
Proof using Hwf.
  destruct Hwf as [_ _ _ [_ Hsn Hr Hs] _ _]. constructor; [done|..].
  - apply Forall_fmap. eapply Forall_impl; [exact Hsn|]. intros p Hp. simpl. by bcase.
  - apply Forall_fmap. exact Hr.
  - clear -Hs. induction pend as [|p l IH]; [done|]. rewrite fmap_cons.
    apply sorted_keys_cons in Hs as [Hp Hs]. apply sorted_keys_cons. split; [|auto].
    apply Forall_fmap. exact Hp.
Qed.
End sender.

(** C21.  A cumulative acknowledgement (the [una] field of any segment) removes
    from the send buffer exactly the segments below it; a selective one exactly
    the segment it names, if it is in flight; either way [snd_una] becomes the
    oldest number still in flight and the invariant of the window is kept.
    The numbers may wrap around. *)
Theorem ack_removes_exactly una nxt pend kcp j :
  snd_wf una nxt pend kcp -> ack_window una nxt j ->
  (let pend' := drop_below j pend in
   snd_wf (head_number pend' nxt) nxt pend' (ikcp_shrink_buf (ikcp_parse_una kcp (u32 j)))) /\
  (let pend' := drop_number j pend in
   snd_wf (head_number pend' nxt) nxt pend' (ikcp_shrink_buf (ikcp_parse_ack kcp (u32 j)))).
Proof.
  intros Hwf Hj. cbv zeta.
  rewrite (parse_una_eq una nxt pend), (parse_ack_eq una nxt pend) by done.
  split; eapply snd_wf_shrink, snd_wf_filter, Hwf.
Qed.

Lemma ack_removes_exactly_witness :
  let seg sn := {| seg_conv := 7; seg_cmd := 81; seg_frg := 0; seg_wnd := 0; seg_ts := 0;
                   seg_sn := sn; seg_una := 0; seg_len := 0; seg_resendts := 0; seg_rto := 0;
                   seg_fastack := 0; seg_xmit := 1; seg_data := [] |} in
  let pend := [(4294967295, seg 4294967295); (4294967297, seg 1)] in
  let kcp := ikcp_create 7 <| kcp_snd_una := 4294967295 |> <| kcp_snd_nxt := 2 |>
               <| kcp_snd_buf := pend.*2 |> <| kcp_nsnd_buf := 2 |> in
  (snd_wf 4294967295 4294967298 pend kcp /\ ack_window 4294967295 4294967298 4294967296) /\
  (let pend' := drop_below 4294967296 pend in
   snd_wf (head_number pend' 4294967298) 4294967298 pend'
     (ikcp_shrink_buf (ikcp_parse_una kcp (u32 4294967296)))) /\
  (let pend' := drop_number 4294967296 pend in
   snd_wf (head_number pend' 4294967298) 4294967298 pend'
     (ikcp_shrink_buf (ikcp_parse_ack kcp (u32 4294967296)))).
Proof.
  intros seg pend kcp.
  assert (snd_wf 4294967295 4294967298 pend kcp) as Hwf.
  { constructor; try done. constructor; try done.
    - repeat constructor.
    - repeat constructor; simpl; lia.
    - repeat constructor; simpl; lia. }
  assert (ack_window 4294967295 4294967298 4294967296) as Hj by (unfold ack_window; lia).
  split; [by split|].
  exact (ack_removes_exactly _ _ _ _ _ Hwf Hj).
Defined.

(** An acknowledgement for number [j] in flight increments the duplicate
    counter of every older segment in flight and touches nothing else; for a
    number outside the window it changes nothing. *)
Theorem fastack_counts una nxt pend kcp j :
  snd_wf una nxt pend kcp -> ack_window una nxt j ->
  (una <= j < nxt /\
   ikcp_parse_fastack kcp (u32 j) = kcp <| kcp_snd_buf := (bump j <$> pend).*2 |> /\
   snd_wf una nxt (bump j <$> pend) (ikcp_parse_fastack kcp (u32 j))) \/
  (~ una <= j < nxt /\ ikcp_parse_fastack kcp (u32 j) = kcp).
Proof.
  intros Hwf Hj. pose proof Hwf as [Hu Hx Hw Hb Hn Hq]. unfold ack_window in Hj.
  unfold ikcp_parse_fastack. rewrite Hu, Hx, !_itimediff_close by lia.
  destruct ((j - una <? 0) || (j - nxt >=? 0)) eqn:Hc; [right|left].
  - split; [|done]. intros Hin. reflect_bools. destruct Hc; reflect_bools; lia.
  - reflect_bools. rewrite (fastack_scan_eq una nxt pend) by done. split_and!; try lia; [done|].
    constructor; try done.
    + by apply numbered_bump with (kcp := kcp).
    + simpl. rewrite Hn, (num_buf _ _ _ _ Hb), !length_fmap. done.
Qed.

Lemma fastack_counts_witness :
  let seg sn := {| seg_conv := 7; seg_cmd := 81; seg_frg := 0; seg_wnd := 0; seg_ts := 0;
                   seg_sn := sn; seg_una := 0; seg_len := 0; seg_resendts := 0; seg_rto := 0;
                   seg_fastack := 0; seg_xmit := 1; seg_data := [] |} in
  let pend := [(4294967295, seg 4294967295); (4294967297, seg 1)] in
  let kcp := ikcp_create 7 <| kcp_snd_una := 4294967295 |> <| kcp_snd_nxt := 2 |>
               <| kcp_snd_buf := pend.*2 |> <| kcp_nsnd_buf := 2 |> in
  snd_wf 4294967295 4294967298 pend kcp /\
  ((4294967295 <= 4294967297 < 4294967298 /\
    ikcp_parse_fastack kcp (u32 4294967297) = kcp <| kcp_snd_buf := (bump 4294967297 <$> pend).*2 |> /\
    snd_wf 4294967295 4294967298 (bump 4294967297 <$> pend) (ikcp_parse_fastack kcp (u32 4294967297))) \/
   (~ 4294967295 <= 4294967297 < 4294967298 /\ ikcp_parse_fastack kcp (u32 4294967297) = kcp)).
Proof.
  intros seg pend kcp.
  assert (snd_wf 4294967295 4294967298 pend kcp) as Hwf.
  { constructor; try done. constructor; try done.
    - repeat constructor.
    - repeat constructor; simpl; lia.
    - repeat constructor; simpl; lia. }
  split; [done|]. apply (fastack_counts _ _ _ _ 4294967297 Hwf). unfold ack_window. lia.
Defined.

(** ** The list of acknowledgements to send *)

Record ack_wf (kcp : ikcpcb) : Prop := {
  awf_count : 0 <= kcp_ackcount kcp <= kcp_ackblock kcp;
  awf_block : Z.of_nat (length (kcp_acklist kcp)) = 2 * kcp_ackblock kcp;
}.

(** What the memory block stands for. *)
Definition acks (kcp : ikcpcb) : list (Z * Z) :=
  ikcp_ack_get kcp <$> seqZ 0 (kcp_ackcount kcp).

Lemma grow_block_spec fuel newblock newsize :
  0 < newblock <= 8589934592 -> newsize <= 4294967296 ->
  newsize <= newblock * 2 ^ Z.of_nat fuel ->
  newsize <= grow_block fuel newblock newsize <= Z.max newblock (2 * newsize).
Proof.
  revert newblock. induction fuel as [|fuel IH]; intros nb Hnb Hns Hf; simpl; [lia|].
  bcase; [|lia]. rewrite Z.shiftl_mul_pow2 by lia. change (2 ^ 1) with 2.
  assert (u64 (nb * 2) = nb * 2) as -> by word.
  rewrite Nat2Z.inj_succ, Z.pow_succ_r in Hf by lia.
  specialize (IH (nb * 2) ltac:(lia) Hns ltac:(nia)). lia.
Qed.

Lemma nth_insert_pair (l : list Z) (p q : nat) a b :
  (S p < length l)%nat ->
  nth q (<[S p := b]> (<[p := a]> l)) 0 =
    if decide (q = p) then a else if decide (q = S p) then b else nth q l 0.
Proof.
  intros Hp. rewrite !nth_lookup.
  repeat case_decide; subst; simpl.
  - rewrite list_lookup_insert_ne, list_lookup_insert_eq by lia. done.
  - rewrite list_lookup_insert_eq; [done|]. rewrite length_insert. lia.
  - rewrite !list_lookup_insert_ne by lia. done.
Qed.

(** Growing the block keeps the stored acknowledgements. *)
Lemma nth_grown (old fresh : list Z) (n q : nat) :
  (q < n)%nat -> (n <= length old)%nat ->
  nth q (take n old ++ drop (length (take n old)) fresh) 0 = nth q old 0.
Proof.
  intros Hq Hn. rewrite !nth_lookup, lookup_app_l by (rewrite length_take; lia).
  by rewrite lookup_take_lt.
Qed.

Lemma ack_push_acks kcp sn ts :
  ack_wf kcp -> kcp_ackcount kcp < 2147483647 ->
  ack_wf (ikcp_ack_push kcp sn ts) /\
  acks (ikcp_ack_push kcp sn ts) = acks kcp ++ [(sn, ts)].
Proof.
  intros [Hc Hb] Hlt. unfold ikcp_ack_push.
  rewrite (u32_small (kcp_ackcount kcp + 1)) by (unfold is_u32; lia).
  set (kcp1 := ack_reserve _ _).
  assert (Hk1 : kcp_ackcount kcp1 = kcp_ackcount kcp /\
                kcp_ackcount kcp + 1 <= kcp_ackblock kcp1 /\
                Z.of_nat (length (kcp_acklist kcp1)) = 2 * kcp_ackblock kcp1 /\
                forall q, (q < Z.to_nat (kcp_ackcount kcp * 2))%nat ->
                  nth q (kcp_acklist kcp1) 0 = nth q (kcp_acklist kcp) 0).
  { unfold kcp1, ack_reserve. bcase; [|split_and!; auto; lia].
    pose proof (grow_block_spec 64 8 (kcp_ackcount kcp + 1) ltac:(lia) ltac:(lia) ltac:(lia)).
    revert H. generalize (grow_block 64 8 (kcp_ackcount kcp + 1)). intros nb Hnb.
    cbn -[length take drop replicate nth Z.mul].
    rewrite (u32_small nb) by (unfold is_u32; lia). split_and!; try lia.
    - rewrite length_app, length_drop, length_take, length_replicate. lia.
    - intros q Hq. apply nth_grown; lia. }
  destruct Hk1 as (Hcnt & Hroom & Hlen & Hold). clearbody kcp1.
  rewrite Hcnt, (u32_small (kcp_ackcount kcp + 1)) by (unfold is_u32; lia). split.
  - constructor; simpl; [lia|]. rewrite !length_insert. done.
  - unfold acks at 1. simpl. rewrite seqZ_app, fmap_app by lia. f_equal.
    + apply list_fmap_ext. intros i x Hx. apply lookup_seqZ in Hx as [-> Hi].
      unfold ikcp_ack_get. simpl. rewrite !nth_insert_pair by lia.
      rewrite !decide_False by lia. rewrite !Hold by lia. done.
    + simpl. unfold ikcp_ack_get. simpl. rewrite !nth_insert_pair by lia.
      rewrite decide_True by lia. rewrite decide_False, decide_True by lia. done.
Qed.

(** [ikcp_ack_push] appends the pair to the list the memory block stands
    for, growing the block (to at least the needed size) when it is full: every
    earlier pair survives the copy and no index is out of range. *)
Theorem ack_push_appends kcp sn ts :
  ack_wf kcp -> kcp_ackcount kcp < 2147483647 ->
  ack_wf (ikcp_ack_push kcp sn ts) /\
  acks (ikcp_ack_push kcp sn ts) = acks kcp ++ [(sn, ts)].
Proof. apply ack_push_acks. Qed.

Lemma ack_push_appends_witness :
  let kcp := ikcp_create 7 in
  (ack_wf kcp /\ kcp_ackcount kcp < 2147483647) /\
  ack_wf (ikcp_ack_push kcp 3 40) /\ acks (ikcp_ack_push kcp 3 40) = acks kcp ++ [(3, 40)].
Proof.
  assert (ack_wf (ikcp_create 7)) as Hwf by (constructor; vm_compute; intuition congruence).
  split; [split; [done | vm_compute; done] | apply (ack_push_appends (ikcp_create 7) 3 40); done].
Defined.

Example acks_of_ten_pushes :
  acks (foldl (fun kcp i => ikcp_ack_push kcp i (i * 10)) (ikcp_create 7) (seqZ 0 10)) =
  (fun i => (i, i * 10)) <$> seqZ 0 10.
Proof. vm_compute. reflexivity. Qed.
