(* ===== verification/KcpInput.v ===== *)
(** * KCP: a datagram arrives ([ikcp_input])

    The loop of [ikcp_input] over the segments of a datagram, its early returns
    (which keep what the earlier segments of the datagram did), the duplicate-ack
    and congestion-window updates at its end. *)

From S2P Require Import Prelude KcpBase KcpWire KcpSend KcpNumbered KcpRecv KcpAck.

(** ** The code *)

(** What every accepted segment does first: the peer's window and its
    cumulative acknowledgement. *)
Definition input_una (kcp : ikcpcb) (h : header) : ikcpcb :=
  let kcp := kcp <| kcp_rmt_wnd := h_wnd h |> in
  let kcp := ikcp_parse_una kcp (h_una h) in
  ikcp_shrink_buf kcp.

(** [IKCP_CMD_ACK]. *)
Definition input_ack (kcp : ikcpcb) (h : header) : ikcpcb :=
  let kcp :=
    if _itimediff (kcp_current kcp) (h_ts h) >=? 0
    then ikcp_update_ack kcp (_itimediff (kcp_current kcp) (h_ts h)) else kcp in
  let kcp := ikcp_parse_ack kcp (h_sn h) in
  ikcp_shrink_buf kcp.

(** [IKCP_CMD_PUSH]; [data] are the bytes after the header. *)
Definition input_push (kcp : ikcpcb) (h : header) (data : bytes) : ikcpcb :=
  if _itimediff (h_sn h) (u32 (kcp_rcv_nxt kcp + kcp_rcv_wnd kcp)) <? 0 then
    let kcp := ikcp_ack_push kcp (h_sn h) (h_ts h) in
    if _itimediff (h_sn h) (kcp_rcv_nxt kcp) >=? 0
    then ikcp_parse_data kcp (segment_of h data) else kcp
  else kcp.

(** One accepted segment; [flag] and [maxack] are the locals that remember the
    highest number acknowledged in this datagram. *)
Definition input_segment (kcp : ikcpcb) (h : header) (data : bytes) (flag : bool) (maxack : Z)
    : ikcpcb * bool * Z :=
  let kcp := input_una kcp h in
  if h_cmd h =? IKCP_CMD_ACK then
    let kcp := input_ack kcp h in
    if negb flag then (kcp, true, h_sn h)
    else if _itimediff (h_sn h) maxack >? 0 then (kcp, flag, h_sn h) else (kcp, flag, maxack)
  else if h_cmd h =? IKCP_CMD_PUSH then (input_push kcp h data, flag, maxack)
  else if h_cmd h =? IKCP_CMD_WASK then
    (kcp <| kcp_probe := Z.lor (kcp_probe kcp) IKCP_ASK_TELL |>, flag, maxack)
  else (kcp, flag, maxack).       (* IKCP_CMD_WINS: do nothing *)

Definition known_cmd (cmd : Z) : bool :=
  (cmd =? IKCP_CMD_PUSH) || (cmd =? IKCP_CMD_ACK) || (cmd =? IKCP_CMD_WASK)
  || (cmd =? IKCP_CMD_WINS).

(** How the [while (1)] loop is left: by [break], or by a [return]. *)
Inductive loop_exit :=
  | Break (kcp : ikcpcb) (flag : bool) (maxack : Z)
  | Return (ret : Z) (kcp : ikcpcb).

(** Each iteration consumes at least the 24 bytes of a header, so fuel beyond the
    length of the datagram is never used up ([input_loop_fuel]). *)
Fixpoint input_loop (fuel : nat) (kcp : ikcpcb) (data : bytes) (flag : bool) (maxack : Z)
    : loop_exit :=
  match fuel with
  | O => Break kcp flag maxack
  | S fuel =>
      if Z.of_nat (length data) <? IKCP_OVERHEAD then Break kcp flag maxack else
      let '(h, data) := decode_header data in
      if negb (h_conv h =? kcp_conv kcp) then Return (-1) kcp else
      if (Z.of_nat (length data) <? h_len h) || (s32 (h_len h) <? 0) then Return (-2) kcp else
      if negb (known_cmd (h_cmd h)) then Return (-3) kcp else
      let '(kcp, flag, maxack) := input_segment kcp h data flag maxack in
      input_loop fuel kcp (drop (Z.to_nat (h_len h)) data) flag maxack
  end.

(** The congestion window after an acknowledgement advanced [snd_una]. *)
Definition grow_cwnd (kcp : ikcpcb) : ikcpcb :=
  if kcp_cwnd kcp <? kcp_rmt_wnd kcp then
    let mss := kcp_mss kcp in
    let kcp :=
      if kcp_cwnd kcp <? kcp_ssthresh kcp then
        kcp <| kcp_cwnd := u32 (kcp_cwnd kcp + 1) |> <| kcp_incr := u32 (kcp_incr kcp + mss) |>
      else
        let kcp := if kcp_incr kcp <? mss then kcp <| kcp_incr := mss |> else kcp in
        let kcp := kcp <| kcp_incr :=
          u32 (kcp_incr kcp + u32 (u32 (mss * mss) / kcp_incr kcp + mss / 16)) |> in
        if u32 (u32 (kcp_cwnd kcp + 1) * mss) <=? kcp_incr kcp
        then kcp <| kcp_cwnd := u32 (kcp_cwnd kcp + 1) |> else kcp in
    if kcp_cwnd kcp >? kcp_rmt_wnd kcp then
      kcp <| kcp_cwnd := kcp_rmt_wnd kcp |> <| kcp_incr := u32 (kcp_rmt_wnd kcp * mss) |>
    else kcp
  else kcp.

(** After the loop: [una] is [snd_una] on entry. *)
Definition input_finish (kcp : ikcpcb) (una : Z) (flag : bool) (maxack : Z) : ikcpcb :=
  let kcp := if flag then ikcp_parse_fastack kcp maxack else kcp in
  if _itimediff (kcp_snd_una kcp) una >? 0 then grow_cwnd kcp else kcp.

(** [ikcp_input kcp data size] with [size] the length of [data], not null. *)
Definition ikcp_input (kcp : ikcpcb) (data : bytes) : Z * ikcpcb :=
  let una := kcp_snd_una kcp in
  if s32 (Z.of_nat (length data)) <? s32 IKCP_OVERHEAD then (-1, kcp) else
  match input_loop (S (length data)) kcp data false 0 with
  | Break kcp flag maxack => (0, input_finish kcp una flag maxack)
  | Return ret kcp => (ret, kcp)
  end.

(** ** Termination and return codes *)

Lemma decode_header_length data :
  length (decode_header data).2 = (length data - 24)%nat.
Proof. rewrite decode_header_eq. simpl. by rewrite length_drop. Qed.

Lemma input_loop_fuel f1 f2 kcp data flag maxack :
  (length data < f1)%nat -> (length data < f2)%nat ->
  input_loop f1 kcp data flag maxack = input_loop f2 kcp data flag maxack.
Proof.
  revert f2 kcp data flag maxack. induction f1 as [|f1 IH]; intros f2 kcp data flag maxack H1 H2; [lia|].
  destruct f2 as [|f2]; [lia|]. cbn [input_loop].
  destruct (Z.of_nat (length data) <? IKCP_OVERHEAD) eqn:Hb; [done|].
  reflect_bools. unfold IKCP_OVERHEAD in Hb.
  pose proof (decode_header_length data) as Hlen.
  destruct (decode_header data) as [h data']. simpl in Hlen.
  repeat (match goal with |- context [if ?b then Return _ _ else _] => destruct b; [done|] end).
  destruct (input_segment kcp h data' flag maxack) as [[kcp' flag'] maxack'].
  apply IH; rewrite length_drop; lia.
Qed.

Lemma input_loop_return_codes fuel kcp data flag maxack ret kcp' :
  input_loop fuel kcp data flag maxack = Return ret kcp' -> ret = -1 \/ ret = -2 \/ ret = -3.
Proof.
  revert kcp data flag maxack. induction fuel as [|fuel IH]; intros kcp data flag maxack; cbn [input_loop]; [done|].
  destruct (_ <? IKCP_OVERHEAD); [done|].
  destruct (decode_header data) as [h data'].
  repeat (match goal with |- context [if ?b then Return _ _ else _] =>
            destruct b; [by intros [= <- <-]; auto|] end).
  destruct (input_segment kcp h data' flag maxack) as [[kcp1 flag1] maxack1]. apply IH.
Qed.

(** ** A datagram of whole segments *)

(** The bytes of a segment in a datagram. *)
Definition wire (seg : IKCPSEG) : bytes := ikcp_encode_seg [] seg ++ seg_data seg.

(** A segment another endpoint of conversation [conv] can have written. *)
Record wire_ok (conv : Z) (seg : IKCPSEG) : Prop := {
  wok_conv : seg_conv seg = conv;
  wok_conv_range : is_u32 conv;
  wok_cmd : known_cmd (seg_cmd seg) = true;
  wok_frg : is_u8 (seg_frg seg);
  wok_sized : seg_sized seg;
  wok_len : Z.of_nat (length (seg_data seg)) < 2147483648
}.

(** The segments of a datagram, processed one after the other. *)
Definition input_segments (kcp : ikcpcb) (segs : list IKCPSEG) (flag : bool) (maxack : Z)
    : ikcpcb * bool * Z :=
  foldl (fun '(kcp, flag, maxack) seg => input_segment kcp (header_of seg) (seg_data seg) flag maxack)
    (kcp, flag, maxack) segs.

Lemma length_wire seg : length (wire seg) = (24 + length (seg_data seg))%nat.
Proof. unfold wire. rewrite length_app, length_encode_seg. simpl. lia. Qed.

(** Only the first [len] bytes after the header matter. *)
Lemma input_segment_rest kcp seg rest flag maxack :
  seg_sized seg -> Z.of_nat (length (seg_data seg)) < 2147483648 ->
  input_segment kcp (header_of seg) (seg_data seg ++ rest) flag maxack =
  input_segment kcp (header_of seg) (seg_data seg) flag maxack.
Proof.
  intros Hs Hl. unfold input_segment, input_push.
  assert (segment_of (header_of seg) (seg_data seg ++ rest) =
          segment_of (header_of seg) (seg_data seg)) as ->; [|done].
  unfold segment_of. cbn [header_of h_len]. rewrite Hs, u32_small by (unfold is_u32; lia).
  by rewrite Nat2Z.id, take_app_length, take_ge by lia.
Qed.

(** What an incoming segment never touches: configuration, clock, the queue of
    unsent segments and [snd_nxt]. *)
Definition erase_input (kcp : ikcpcb) : ikcpcb :=
  erase_snd (erase_rtt (erase_ack (erase_rcv kcp))) <| kcp_rmt_wnd := 0 |> <| kcp_probe := 0 |>.

Lemma erase_input_snd kcp kcp' : erase_snd kcp' = erase_snd kcp -> erase_input kcp' = erase_input kcp.
Proof.
  intros H. change (erase_input kcp') with (erase_input (erase_snd kcp')). by rewrite H.
Qed.
Lemma erase_input_rtt kcp kcp' : erase_rtt kcp' = erase_rtt kcp -> erase_input kcp' = erase_input kcp.
Proof.
  intros H. change (erase_input kcp') with (erase_input (erase_rtt kcp')). by rewrite H.
Qed.
Lemma erase_input_ack kcp kcp' : erase_ack kcp' = erase_ack kcp -> erase_input kcp' = erase_input kcp.
Proof.
  intros H. change (erase_input kcp') with (erase_input (erase_ack kcp')). by rewrite H.
Qed.
Lemma erase_input_rcv kcp kcp' : erase_rcv kcp' = erase_rcv kcp -> erase_input kcp' = erase_input kcp.
Proof.
  intros H. unfold erase_input. by rewrite H.
Qed.

Lemma input_una_erase kcp h : erase_input (input_una kcp h) = erase_input kcp.
Proof.
  unfold input_una. etransitivity; [apply erase_input_snd, shrink_buf_erase|].
  etransitivity; [apply erase_input_snd, parse_una_erase|]. done.
Qed.

Lemma input_ack_erase kcp h : erase_input (input_ack kcp h) = erase_input kcp.
Proof.
  unfold input_ack. etransitivity; [apply erase_input_snd, shrink_buf_erase|].
  etransitivity; [apply erase_input_snd, parse_ack_erase|].
  bcase; [apply erase_input_rtt, update_ack_erase | done].
Qed.

Lemma input_push_erase kcp h data : erase_input (input_push kcp h data) = erase_input kcp.
Proof.
  unfold input_push. bcase; [|done].
  pose proof (erase_input_ack _ _ (ack_push_erase kcp (h_sn h) (h_ts h))) as H2.
  bcase; [|done].
  rewrite (erase_input_rcv _ _ (parse_data_erase _ (segment_of h data))). done.
Qed.

Lemma input_segment_erase kcp h data flag maxack :
  erase_input (input_segment kcp h data flag maxack).1.1 = erase_input kcp.
Proof.
  unfold input_segment. rewrite <- (input_una_erase kcp h).
  generalize (input_una kcp h). clear kcp. intros kcp.
  bcase; [|bcase; [|by bcase]]; [|apply input_push_erase].
  repeat bcase; apply input_ack_erase.
Qed.

(** The acknowledgement memory is touched by pushes only. *)
Lemma input_una_ackcount kcp h : kcp_ackcount (input_una kcp h) = kcp_ackcount kcp.
Proof.
  unfold input_una. set (k1 := kcp <| kcp_rmt_wnd := h_wnd h |>).
  rewrite (f_equal kcp_ackcount (shrink_buf_erase (ikcp_parse_una k1 (h_una h)))
    : kcp_ackcount (ikcp_shrink_buf _) = kcp_ackcount (ikcp_parse_una k1 (h_una h))).
  exact (f_equal kcp_ackcount (parse_una_erase k1 (h_una h))).
Qed.

Lemma input_ack_ackcount kcp h : kcp_ackcount (input_ack kcp h) = kcp_ackcount kcp.
Proof.
  unfold input_ack. set (k1 := if _ >=? 0 then _ else kcp).
  assert (E : erase_rtt k1 = erase_rtt kcp) by (unfold k1; bcase; [apply update_ack_erase | done]).
  rewrite <- (f_equal kcp_ackcount E : kcp_ackcount k1 = kcp_ackcount kcp). clearbody k1.
  rewrite (f_equal kcp_ackcount (shrink_buf_erase (ikcp_parse_ack k1 (h_sn h)))
    : kcp_ackcount (ikcp_shrink_buf _) = kcp_ackcount (ikcp_parse_ack k1 (h_sn h))).
  exact (f_equal kcp_ackcount (parse_ack_erase k1 (h_sn h))).
Qed.

Lemma input_segment_conv kcp h data flag maxack :
  kcp_conv (input_segment kcp h data flag maxack).1.1 = kcp_conv kcp.
Proof. exact (f_equal kcp_conv (input_segment_erase kcp h data flag maxack)). Qed.

(** The loop decodes exactly the segments that were written. *)
Lemma input_loop_wire conv segs : forall fuel kcp flag maxack,
  Forall (wire_ok conv) segs -> kcp_conv kcp = conv ->
  (length (concat (map wire segs)) < fuel)%nat ->
  input_loop fuel kcp (concat (map wire segs)) flag maxack =
    let '(kcp, flag, maxack) := input_segments kcp segs flag maxack in Break kcp flag maxack.
Proof.
  induction segs as [|seg segs IH]; intros fuel kcp flag maxack Hok Hc Hf;
    (destruct fuel as [|fuel]; [lia|]); [done|].
  apply Forall_cons in Hok as [Hseg Hok]. destruct (Hseg) as [Hconv Hcr Hcmd _ Hs Hl].
  pose proof (input_segment_conv kcp (header_of seg) (seg_data seg) flag maxack) as Hcv.
  cbn [map concat] in *. rewrite length_app, length_wire in Hf.
  cbn [input_loop]. rewrite length_app, length_wire.
  destruct (_ <? IKCP_OVERHEAD) eqn:Hb; reflect_bools; [kcp_consts; lia|]. clear Hb.
  unfold wire at 1. rewrite <- app_assoc, decode_header_encode_seg.
  cbn [header_of h_conv h_cmd h_len]. rewrite Hconv, u32_small, Hc, Z.eqb_refl by done.
  assert (u32 (seg_len seg) = Z.of_nat (length (seg_data seg))) as ->
    by (rewrite Hs; apply u32_small; unfold is_u32; lia).
  cbn [negb]. rewrite length_app.
  destruct (_ || _) eqn:Hb; reflect_bools.
  { destruct Hb as [Hb|Hb]; reflect_bools; [lia|]. rewrite s32_small in Hb; unfold is_s32; lia. }
  assert (u8 (seg_cmd seg) = seg_cmd seg) as ->.
  { apply u8_small. unfold known_cmd in Hcmd. kcp_consts. reflect_bools.
    intuition (reflect_bools; subst). all: word. }
  rewrite Hcmd. cbn [negb]. rewrite (input_segment_rest _ seg) by done.
  unfold input_segments. cbn [foldl].
  destruct (input_segment kcp (header_of seg) (seg_data seg) flag maxack)
    as [[kcp1 flag1] maxack1] eqn:Hstep.
  rewrite Nat2Z.id, drop_app_length.
  apply IH; [done | | lia].
  simpl in Hcv. congruence.
Qed.
