(* ===== verification/KcpInv.v ===== *)
(** * KCP: the invariant of a control block

    The invariant of the whole control block and its preservation by every call
    except [ikcp_flush] and [ikcp_update] (see [KcpFlush.v]).  In particular
    [ikcp_input] keeps it for every sequence of bytes whatsoever: a peer cannot
    corrupt the queues, the windows or the counters. *)

From S2P Require Import Prelude KcpBase KcpWire KcpSend KcpNumbered KcpRecv KcpAck KcpInput.

(** ** Views: the fields each part of the invariant reads *)

Definition snd_view (k : ikcpcb) :=
  (kcp_snd_una k, kcp_snd_nxt k, kcp_snd_buf k, kcp_nsnd_buf k, kcp_nsnd_que k, kcp_snd_queue k,
   kcp_conv k).
Definition rcv_view (k : ikcpcb) :=
  (kcp_rcv_nxt k, kcp_rcv_buf k, kcp_rcv_wnd k, kcp_nrcv_buf k, kcp_nrcv_que k, kcp_rcv_queue k).
Definition ack_view (k : ikcpcb) := (kcp_acklist k, kcp_ackcount k, kcp_ackblock k).
Definition cfg_view (k : ikcpcb) :=
  (kcp_mtu k, kcp_mss k, kcp_rcv_wnd k, kcp_snd_wnd k, kcp_interval k, kcp_rx_minrto k,
   kcp_fastresend k).

Lemma snd_wf_view una nxt sp k k' :
  snd_view k' = snd_view k -> snd_wf una nxt sp k -> snd_wf una nxt sp k'.
Proof. intros [= E1 E2 E3 E4 E5 E6 _] []. constructor; rewrite ?E1, ?E2, ?E3, ?E4, ?E5, ?E6; done. Qed.

Lemma rcv_wf_view n rp k k' :
  rcv_view k' = rcv_view k -> rcv_wf n rp k -> rcv_wf n rp k'.
Proof. intros [= E1 E2 E3 E4 E5 E6] []. constructor; rewrite ?E1, ?E2, ?E3, ?E4, ?E5, ?E6; done. Qed.

Lemma ack_wf_view k k' : ack_view k' = ack_view k -> ack_wf k -> ack_wf k'.
Proof. intros [= E1 E2 E3] []. constructor; rewrite ?E1, ?E2, ?E3; done. Qed.

Lemma cfg_wf_view k k' : cfg_view k' = cfg_view k -> cfg_wf k -> cfg_wf k'.
Proof.
  intros [= E1 E2 E3 E4 E5 E6 E7] []. constructor; rewrite ?E1, ?E2, ?E3, ?E4, ?E5, ?E6, ?E7; done.
Qed.

(** ** The invariant *)

(** Received segments: the payload has the announced length. *)
Definition rseg_ok (s : IKCPSEG) : Prop := seg_sized s /\ is_u8 (seg_frg s).

(** Segments to send: they fit in a datagram. *)
Definition sseg_ok (mss : Z) (s : IKCPSEG) : Prop :=
  seg_sized s /\ Z.of_nat (length (seg_data s)) <= mss /\ is_u8 (seg_frg s).

(** Segments in flight are pushes of the conversation. *)
Definition flight_ok (conv : Z) (s : IKCPSEG) : Prop :=
  seg_conv s = conv /\ seg_cmd s = IKCP_CMD_PUSH.

(** A window never spans more than what the 16-bit [wnd] field can grant. *)
Definition WINDOW_MAX : Z := 65535.

Record kcp_inv (una nxt : Z) (sp : list (Z * IKCPSEG)) (n : Z) (rp : list (Z * IKCPSEG))
    (k : ikcpcb) : Prop := {
  ki_cfg : cfg_wf k;
  ki_snd : snd_wf una nxt sp k;
  ki_tight : una = head_number sp nxt;
  ki_win : nxt - una <= WINDOW_MAX;
  ki_rmt : is_u16 (kcp_rmt_wnd k) /\ 0 <= kcp_cwnd k;
  ki_rcv : rcv_wf n rp k;
  ki_ack : ack_wf k;
  ki_rseg : Forall rseg_ok (kcp_rcv_buf k ++ kcp_rcv_queue k);
  ki_sseg : Forall (sseg_ok (kcp_mss k)) (kcp_snd_buf k ++ kcp_snd_queue k);
  ki_conv : is_u32 (kcp_conv k);
  ki_flight : Forall (flight_ok (kcp_conv k)) (kcp_snd_buf k)
}.

Definition kcp_wf (k : ikcpcb) : Prop := exists una nxt sp n rp, kcp_inv una nxt sp n rp k.

(** Reads the field [f] of the frame equation [E : erase k' = erase k]. *)
Ltac frame E f :=
  match type of E with ?er ?k' = ?er ?k => rewrite (f_equal f E : f k' = f k) end.

(** Everything but the named view is unchanged. *)
Lemma kcp_inv_view una nxt sp n rp k k' :
  snd_view k' = snd_view k -> rcv_view k' = rcv_view k -> ack_view k' = ack_view k ->
  cfg_view k' = cfg_view k -> is_u16 (kcp_rmt_wnd k') /\ 0 <= kcp_cwnd k' ->
  kcp_inv una nxt sp n rp k -> kcp_inv una nxt sp n rp k'.
Proof.
  intros Hs Hr Ha Hc Hw []. pose proof Hs as [= _ _ E3 _ _ E6 E7].
  pose proof Hr as [= _ F2 _ _ _ F6]. pose proof Hc as [= _ C2 _ _ _ _ _].
  constructor; try done; rewrite ?E3, ?E6, ?E7, ?F2, ?F6, ?C2;
    eauto using snd_wf_view, rcv_wf_view, ack_wf_view, cfg_wf_view.
Qed.

Lemma kcp_inv_create conv : is_u32 conv -> kcp_inv 0 0 [] 0 [] (ikcp_create conv).
Proof.
  intros Hconv. constructor; try done; try apply cfg_wf_create; try (constructor; done || apply numbered_nil).
Qed.

Lemma kcp_inv_setoutput una nxt sp n rp k :
  kcp_inv una nxt sp n rp k -> kcp_inv una nxt sp n rp (ikcp_setoutput k).
Proof. intros H. eapply kcp_inv_view; [..|exact H]; try done. apply H. Qed.

Lemma kcp_inv_nodelay una nxt sp n rp k nodelay interval resend nc :
  is_s32 resend -> kcp_inv una nxt sp n rp k ->
  kcp_inv una nxt sp n rp (ikcp_nodelay k nodelay interval resend nc).2.
Proof.
  intros Hr H. pose proof (cfg_wf_nodelay k (ki_cfg _ _ _ _ _ _ H) nodelay interval resend nc Hr) as Hc.
  destruct H. unfold ikcp_nodelay in *.
  repeat match goal with |- context [if ?b then _ else _] => destruct b end;
    constructor; try done;
    first [by apply (snd_wf_view una nxt sp k) | by apply (rcv_wf_view n rp k)
          | by apply (ack_wf_view k)].
Qed.

(** ** Sending and receiving *)

Lemma sseg_ok_frag mss f :
  Z.of_nat (length f.2) <= mss -> is_u8 f.1 -> sseg_ok mss (seg_of_frag f).
Proof. intros. split_and!; done. Qed.

Lemma fragments_frg m n msg : Forall (fun f => 0 <= f.1 < Z.of_nat n) (fragments m n msg).
Proof.
  revert msg. induction n as [|n IH]; intros msg; simpl; constructor; [simpl; lia|].
  eapply Forall_impl; [apply IH|]. simpl. lia.
Qed.

Lemma send_segments_ok k msg :
  0 < kcp_mss k -> Z.of_nat (length (send_segments k msg)) < IKCP_WND_RCV ->
  Forall (sseg_ok (kcp_mss k)) (send_segments k msg).
Proof.
  intros Hm Hn. unfold send_segments in *. rewrite length_map, length_fragments in Hn.
  apply Forall_map. set (m := Z.to_nat (kcp_mss k)) in *. set (c := num_fragments m msg) in *.
  pose proof (fragments_bound m c msg) as H1. pose proof (fragments_frg m c msg) as H2.
  rewrite Forall_forall in *. intros f Hf. specialize (H1 f Hf). specialize (H2 f Hf). simpl in *.
  apply sseg_ok_frag; [lia|]. unfold is_u8, IKCP_WND_RCV in *. lia.
Qed.

Lemma kcp_inv_mss una nxt sp n rp k : kcp_inv una nxt sp n rp k -> 26 <= kcp_mss k < 2147483648.
Proof.
  intros H. pose proof (ki_cfg _ _ _ _ _ _ H) as []. kcp_consts. lia.
Qed.

Lemma kcp_inv_send una nxt sp n rp k msg :
  kcp_inv una nxt sp n rp k -> kcp_stream k = 0 -> Z.of_nat (length msg) < 2147483648 ->
  exists ret k', ikcp_send k msg (Z.of_nat (length msg)) = Ok (ret, k') /\
    kcp_inv una nxt sp n rp k' /\
    ((ret = 0 /\ kcp_snd_queue k' = kcp_snd_queue k ++ send_segments k msg)
     \/ (ret = -2 /\ k' = k)).
Proof.
  intros H Hst Hl. pose proof (kcp_inv_mss _ _ _ _ _ _ H) as Hm. destruct H as [Hc Hs ? ? ? ? ? ? Hss].
  rewrite ikcp_send_eq; try done.
  2:{ rewrite (swf_nque _ _ _ _ Hs). apply u32_range. }
  cbv zeta. destruct (_ <? IKCP_WND_RCV) eqn:Hb; reflect_bools.
  - eexists _, _. split; [done|]. split; [|left; done].
    constructor; try done; try (by apply (rcv_wf_view n rp k)); try (by apply (ack_wf_view k)).
    + by apply (cfg_wf_view k).
    + destruct Hs as [? ? ? ? ? Hnq]. constructor; try done. simpl. rewrite Hnq, u32_add_l, length_app. f_equal. lia.
    + simpl. rewrite app_assoc. apply Forall_app. split; [done|].
      apply send_segments_ok; [lia | done].
  - eexists _, _. split; [done|]. split; [|by right]. by constructor.
Qed.

Lemma rx_refines_inv r k : rx_refines r k -> exists rp, rcv_wf (rx_next r) rp k.
Proof. intros (rp & H & _). eauto. Qed.

(** The segments the receive side holds, in the abstract receiver. *)
Definition rx_all (P : IKCPSEG -> Prop) (r : rx) : Prop :=
  map_Forall (fun _ s => P s) (rx_pending r) /\ Forall P (rx_queue r).

Lemma rx_drain_all P fuel wnd r : rx_all P r -> rx_all P (rx_drain fuel wnd r).
Proof.
  revert r. induction fuel as [|fuel IH]; intros r [Hp Hq]; simpl; [done|].
  destruct (rx_pending r !! rx_next r) as [s|] eqn:Hs; [|done]. bcase; [|done].
  apply IH. split; simpl.
  - by apply map_Forall_delete.
  - apply Forall_app. split; [done|]. constructor; [|done]. by apply (Hp (rx_next r)).
Qed.

Lemma rx_settle_all P wnd r : rx_all P r -> rx_all P (rx_settle wnd r).
Proof. apply rx_drain_all. Qed.

Lemma rx_push_all P wnd i s r : rx_all P r -> P s -> rx_all P (rx_push wnd i s r).
Proof.
  intros [Hp Hq] Hs. unfold rx_push. case_decide; [|done]. apply rx_drain_all.
  destruct (rx_pending r !! i) eqn:Hi; split; simpl; try done.
  by apply map_Forall_insert_2.
Qed.

Lemma rx_refines_all P r k :
  rx_refines r k -> rx_all P r <-> Forall P (kcp_rcv_buf k ++ kcp_rcv_queue k).
Proof.
  intros (rp & Hwf & Hp & Hq). unfold rx_all. rewrite Hp, Hq, Forall_app.
  destruct (rwf_buf _ _ _ Hwf) as [-> _ _ Hs]. apply and_iff_compat_r.
  rewrite Forall_fmap, Forall_forall. unfold map_Forall. split.
  - intros H [i s] Hin. by apply (H i), sorted_keys_lookup.
  - intros H i s Hin. apply sorted_keys_lookup in Hin; [|done]. by apply (H (i, s)).
Qed.

(** The abstract receiver of a control block. *)
Definition rx_of (n : Z) (rp : list (Z * IKCPSEG)) (k : ikcpcb) : rx :=
  {| rx_next := n; rx_pending := list_to_map rp; rx_queue := kcp_rcv_queue k |}.

Lemma rx_of_refines n rp k : rcv_wf n rp k -> rx_refines (rx_of n rp k) k.
Proof. intros H. by exists rp. Qed.

(** The merge loop removes a prefix of the queue (none of it when peeking). *)
Lemma recv_merge_drop queue ispeek buffer out len k :
  kcp_rcv_queue k = queue -> kcp_nrcv_que k = Z.of_nat (length queue) ->
  Z.of_nat (length queue) < 4294967296 ->
  exists queue', (exists pre, queue = pre ++ queue') /\
    (recv_merge queue ispeek buffer out len k).2 =
      k <| kcp_rcv_queue := queue' |> <| kcp_nrcv_que := Z.of_nat (length queue') |>.
Proof.
  revert out len k. induction queue as [|seg queue IH]; intros out len k Hq Hn Hl.
  - exists []. split; [by exists []|]. simpl in *. destruct k; simpl in *; by subst.
  - cbn [recv_merge]. destruct ispeek; cbn [negb].
    + exists (seg :: queue). split; [by exists []|].
      assert (Hk : k <| kcp_rcv_queue := seg :: queue |>
                     <| kcp_nrcv_que := Z.of_nat (length (seg :: queue)) |> = k)
        by (destruct k; simpl in *; by subst).
      rewrite Hk. clear IH Hk. bcase; [done|]. 
      match goal with |- (recv_merge _ _ _ ?o ?l _).2 = _ => generalize o, l end.
      clear. induction queue as [|seg queue IH]; intros; cbn [recv_merge]; [done|].
      cbn [negb]. bcase; [done | apply IH].
    + set (k1 := k <| kcp_rcv_queue := queue |> <| kcp_nrcv_que := _ |>).
      assert (Hn1 : kcp_nrcv_que k1 = Z.of_nat (length queue)).
      { unfold k1. simpl in *. rewrite Hn, u32_small; unfold is_u32; lia. }
      bcase.
      * exists queue. split; [by exists [seg]|]. cbn [snd]. unfold k1 in *. simpl in Hn1.
        by rewrite Hn1.
      * destruct (IH (if buffer then out ++ take (Z.to_nat (seg_len seg)) (seg_data seg) else out)
                    (s32 (u32 (len + seg_len seg))) k1) as (queue' & [pre ->] & Heq);
          [done | done | simpl in Hl; lia |].
        exists queue'. split; [by exists (seg :: pre)|]. rewrite Heq. done.
Qed.

(** The receive side changed as the abstract receiver did; everything else
    the invariant reads is as before. *)
Lemma kcp_inv_rcv_at una nxt sp n rp k k' n' rp' :
  kcp_inv una nxt sp n rp k -> rcv_wf n' rp' k' -> erase_recv k' = erase_recv k ->
  Forall rseg_ok (kcp_rcv_buf k' ++ kcp_rcv_queue k') -> kcp_inv una nxt sp n' rp' k'.
Proof.
  intros [] Hwf Her Hall. constructor; try done.
  - eapply cfg_wf_view; [|eassumption]. exact (f_equal cfg_view Her).
  - eapply snd_wf_view; [|eassumption]. exact (f_equal snd_view Her).
  - frame Her kcp_rmt_wnd. by frame Her kcp_cwnd.
  - eapply ack_wf_view; [|eassumption]. exact (f_equal ack_view Her).
  - frame Her kcp_snd_buf. frame Her kcp_snd_queue. by frame Her kcp_mss.
  - by frame Her kcp_conv.
  - frame Her kcp_snd_buf. by frame Her kcp_conv.
Qed.

Lemma kcp_inv_rcv una nxt sp n rp k k' r :
  kcp_inv una nxt sp n rp k -> rx_refines r k' -> rx_all rseg_ok r ->
  erase_recv k' = erase_recv k -> exists rp', kcp_inv una nxt sp (rx_next r) rp' k'.
Proof.
  intros H Href Hall Her. destruct (rx_refines_inv _ _ Href) as [rp' Hwf]. exists rp'.
  eapply kcp_inv_rcv_at; [done.. |]. by apply (rx_refines_all rseg_ok r).
Qed.

Lemma rx_of_all una nxt sp n rp k :
  kcp_inv una nxt sp n rp k -> rx_all rseg_ok (rx_of n rp k).
Proof.
  intros H. apply (rx_refines_all _ _ k); [|apply H]. apply rx_of_refines, H.
Qed.

Lemma kcp_inv_recv una nxt sp n rp k buffer len :
  kcp_inv una nxt sp n rp k ->
  exists ret out k' n' rp', ikcp_recv k buffer len = Ok (ret, out, k') /\
    kcp_inv una nxt sp n' rp' k'.
Proof.
  intros H. pose proof (ki_rcv _ _ _ _ _ _ H) as Hwf. pose proof (rx_of_all _ _ _ _ _ _ H) as Hall.
  destruct Hwf as [Hn Hb Hw Hnb Hnq Hcap]. unfold IKCP_WND_RCV in Hw.
  assert (Hu : Forall (fun s => is_u32 (seg_frg s)) (kcp_rcv_queue k)).
  { destruct Hall as [_ Hall]. eapply Forall_impl; [exact Hall|]. intros s [_ Hs]. word. }
  destruct (recv_total k buffer len Hu) as (ret & out & k' & Heq & Hneg & Her).
  exists ret, out, k'. revert Heq. unfold ikcp_recv.
  destruct (kcp_rcv_queue k) as [|seg queue] eqn:Hq; [intros [= <- <- <-]; by exists n, rp|].
  cbv zeta. destruct (ikcp_peeksize k <? 0); [intros [= <- <- <-]; by exists n, rp|].
  destruct (ikcp_peeksize k >? _); [intros [= <- <- <-]; by exists n, rp|].
  destruct (recv_merge_drop _ (len <? 0) buffer [] 0 k Hq Hnq ltac:(lia)) as (queue' & [pre Hpre] & Hm).
  destruct (recv_merge _ _ _ _ _ _) as [[out1 len1] k1]. simpl in Hm.
  destruct (negb _); [done|]. intros Heq. exists (rx_next (rx_settle (kcp_rcv_wnd k1)
    {| rx_next := n; rx_pending := list_to_map rp; rx_queue := queue' |})).
  assert (Href : rx_refines {| rx_next := n; rx_pending := list_to_map rp; rx_queue := queue' |} k1).
  { exists rp. subst k1. split; [|done]. rewrite Hpre, length_app in Hcap.
    constructor; simpl; try done; kcp_consts; lia. }
  apply move_ready_refines in Href.
  assert (Hall' : rx_all rseg_ok {| rx_next := n; rx_pending := list_to_map rp; rx_queue := queue' |}).
  { destruct Hall as [Hp Hqa]. split; [done|]. simpl in *. rewrite Hq, Hpre in Hqa.
    by apply Forall_app in Hqa as [_ ?]. }
  apply (rx_settle_all _ (kcp_rcv_wnd k1)) in Hall'.
  assert (Hr' : rx_refines (rx_settle (kcp_rcv_wnd k1)
    {| rx_next := n; rx_pending := list_to_map rp; rx_queue := queue' |}) k').
  { injection Heq as _ _ <-.
    match goal with |- context [if ?b then _ else _] => destruct b end; [|exact Href].
    destruct Href as (rp' & Hwf' & ?). exists rp'. split; [|done].
    by apply (rcv_wf_view _ _ (move_ready (kcp_rcv_buf k1) k1)). }
  destruct (kcp_inv_rcv _ _ _ _ _ _ _ _ H Hr' Hall' Her) as [rp' Hinv].
  exists rp'. by split.
Qed.

(** ** Input *)

Lemma numbered_drop lo hi sp buf j :
  numbered lo hi sp buf -> numbered lo hi (drop j sp) (drop j buf).
Proof.
  intros H. pose proof (num_buf _ _ _ _ H) as ->. rewrite <- fmap_drop.
  rewrite <- (take_drop j sp) in H. by apply numbered_app_inv in H as [_ ?].
Qed.

(** Whatever number it is given, the cumulative-acknowledgement loop removes a
    prefix of the buffer. *)
Lemma una_loop_prefix buf u k :
  kcp_snd_buf k = buf -> kcp_nsnd_buf k = Z.of_nat (length buf) ->
  Z.of_nat (length buf) < 4294967296 ->
  exists j, una_loop buf u k = with_snd_buf (drop j buf) k.
Proof.
  revert k. induction buf as [|seg buf IH]; intros k Hb Hn Hl; cbn [una_loop].
  - exists O. rewrite drop_0, <- Hb. symmetry. apply with_snd_buf_id. by rewrite Hb.
  - bcase.
    + destruct (IH (k <| kcp_snd_buf := buf |> <| kcp_nsnd_buf := u32 (kcp_nsnd_buf k - 1) |>))
        as [j ->]; [done | | simpl in Hl; lia | by exists (S j)].
      simpl in *. rewrite Hn, u32_small; unfold is_u32; lia.
    + exists O. rewrite drop_0, <- Hb. symmetry. apply with_snd_buf_id. by rewrite Hb.
Qed.

(** Any part of the buffer, then [ikcp_shrink_buf]. *)
Lemma kcp_inv_sub una nxt sp n rp k sp' :
  kcp_inv una nxt sp n rp k -> numbered una nxt sp' (sp'.*2) -> sp'.*2 ⊆ kcp_snd_buf k ->
  kcp_inv (head_number sp' nxt) nxt sp' n rp (ikcp_shrink_buf (with_snd_buf (sp'.*2) k)) /\
  una <= head_number sp' nxt <= nxt.
Proof.
  intros [] Hnum Hsub.
  assert (Hs : snd_wf una nxt sp' (with_snd_buf (sp'.*2) k)) by (destruct ki_snd0; by constructor).
  pose proof (head_number_range _ _ _ _ Hs). split; [|done].
  rewrite (shrink_buf_eq _ _ _ _ Hs).
  constructor; try done; try lia; try (by apply (rcv_wf_view n rp k)); try (by apply (ack_wf_view k)).
  - by apply (cfg_wf_view k).
  - rewrite <- (shrink_buf_eq _ _ _ _ Hs). by apply (snd_wf_shrink una).
  - simpl. apply Forall_app in ki_sseg0 as [Hb Hq]. apply Forall_app. split; [|done].
    rewrite Forall_forall in *. intros s Hin. by apply Hb, Hsub.
  - rewrite Forall_forall in *. intros s Hin. by apply ki_flight0, Hsub.
Qed.

Lemma input_una_inv una nxt sp n rp k h :
  kcp_inv una nxt sp n rp k -> header_wf h ->
  exists una' sp', kcp_inv una' nxt sp' n rp (input_una k h).
Proof.
  intros H Hh. set (k1 := k <| kcp_rmt_wnd := h_wnd h |>).
  assert (H1 : kcp_inv una nxt sp n rp k1) by (eapply kcp_inv_view; [..|exact H]; try done; split; [apply Hh | apply H]).
  clear H. pose proof (ki_snd _ _ _ _ _ _ H1) as [_ _ Hw Hb Hn _].
  apply numbered_window in Hb as Hl; [|lia].
  destruct (una_loop_prefix (kcp_snd_buf k1) (h_una h) k1) as [j Hj]; [done | done | lia |].
  unfold input_una. fold k1. unfold ikcp_parse_una. rewrite Hj.
  assert (Hd : drop j (kcp_snd_buf k1) = (drop j sp).*2).
  { rewrite (num_buf _ _ _ _ Hb). by rewrite fmap_drop. }
  rewrite Hd. eexists _, (drop j sp). eapply kcp_inv_sub; [exact H1| |].
  - rewrite <- Hd. by apply numbered_drop.
  - rewrite <- Hd. apply subseteq_drop.
Qed.

(** A number the guard of [ikcp_parse_ack] and [ikcp_parse_fastack] lets pass
    is one in flight. *)
Lemma guard_number una nxt sn :
  0 <= nxt - una < 2147483648 -> is_u32 sn ->
  (_itimediff sn (u32 una) <? 0) || (_itimediff sn (u32 nxt) >=? 0) = false ->
  exists j, sn = u32 j /\ ack_window una nxt j.
Proof.
  intros Hw Hsn Hg. reflect_bools. rewrite _itimediff_eq in *.
  exists (una + s32 (sn - una)). unfold ack_window. split; word.
Qed.

Lemma parse_ack_inv una nxt sp n rp k sn :
  kcp_inv una nxt sp n rp k -> is_u32 sn ->
  exists una' sp', kcp_inv una' nxt sp' n rp (ikcp_shrink_buf (ikcp_parse_ack k sn)).
Proof.
  intros H Hsn. pose proof (ki_snd _ _ _ _ _ _ H) as Hs.
  pose proof Hs as [Hu Hx Hw Hb Hn _].
  destruct ((_itimediff sn (u32 una) <? 0) || (_itimediff sn (u32 nxt) >=? 0)) eqn:Hg.
  - unfold ikcp_parse_ack. rewrite Hu, Hx, Hg. rewrite <- (with_snd_buf_id k Hn).
    rewrite (num_buf _ _ _ _ Hb). eexists _, sp. eapply kcp_inv_sub; [exact H| |].
    + by rewrite <- (num_buf _ _ _ _ Hb).
    + by rewrite <- (num_buf _ _ _ _ Hb).
  - destruct (guard_number _ _ _ Hw Hsn Hg) as (j & -> & Hj).
    rewrite (parse_ack_eq una nxt sp) by done.
    eexists _, (drop_number j sp). eapply kcp_inv_sub; [exact H| |].
    + eapply numbered_filter, Hb.
    + rewrite (num_buf _ _ _ _ Hb). intros s (p & -> & [_ Hp]%list_elem_of_filter)%list_elem_of_fmap.
      by apply list_elem_of_fmap_2.
Qed.

Lemma kcp_inv_shrink una nxt sp n rp k :
  kcp_inv una nxt sp n rp k -> ikcp_shrink_buf k = k.
Proof.
  intros H. pose proof (ki_snd _ _ _ _ _ _ H) as Hs. rewrite (shrink_buf_eq _ _ _ _ Hs).
  rewrite <- (ki_tight _ _ _ _ _ _ H), <- (swf_una _ _ _ _ Hs). by destruct k.
Qed.

Lemma update_ack_inv una nxt sp n rp k rtt :
  kcp_inv una nxt sp n rp k -> kcp_inv una nxt sp n rp (ikcp_update_ack k rtt).
Proof.
  intros H. pose proof (update_ack_erase k rtt) as E.
  eapply kcp_inv_view; [..|exact H].
  - exact (f_equal snd_view E).
  - exact (f_equal rcv_view E).
  - exact (f_equal ack_view E).
  - exact (f_equal cfg_view E).
  - frame E kcp_rmt_wnd. frame E kcp_cwnd. apply H.
Qed.

Lemma input_ack_inv una nxt sp n rp k h :
  kcp_inv una nxt sp n rp k -> header_wf h ->
  exists una' sp', kcp_inv una' nxt sp' n rp (input_ack k h).
Proof.
  intros H Hh. unfold input_ack. bcase.
  - eapply parse_ack_inv; [by apply update_ack_inv | apply Hh].
  - eapply parse_ack_inv; [done | apply Hh].
Qed.

(** Every 32-bit number is the number of one position near [n]. *)
Lemma sn_position n sn :
  is_u32 sn -> exists i, sn = u32 i /\ n - 2147483648 <= i < n + 2147483648.
Proof. intros Hsn. exists (n + s32 (sn - n)). split; word. Qed.

Lemma ack_push_inv una nxt sp n rp k sn ts :
  kcp_inv una nxt sp n rp k -> kcp_ackcount k < 2147483647 ->
  kcp_inv una nxt sp n rp (ikcp_ack_push k sn ts) /\
  kcp_ackcount (ikcp_ack_push k sn ts) = kcp_ackcount k + 1.
Proof.
  intros H Hc. pose proof (ki_ack _ _ _ _ _ _ H) as Hack. pose proof (ack_push_erase k sn ts) as E.
  destruct (ack_push_acks k sn ts Hack Hc) as [Hwf _]. split.
  - pose proof (f_equal snd_view E : snd_view (ikcp_ack_push k sn ts) = snd_view k) as Es.
    pose proof (f_equal rcv_view E : rcv_view (ikcp_ack_push k sn ts) = rcv_view k) as Er.
    pose proof (f_equal cfg_view E : cfg_view (ikcp_ack_push k sn ts) = cfg_view k) as Ec.
    destruct H. constructor; try done.
    + by apply (cfg_wf_view k).
    + by apply (snd_wf_view una nxt sp k).
    + frame E kcp_rmt_wnd. by frame E kcp_cwnd.
    + by apply (rcv_wf_view n rp k).
    + frame E kcp_rcv_buf. by frame E kcp_rcv_queue.
    + frame E kcp_mss. frame E kcp_snd_buf. by frame E kcp_snd_queue.
    + by frame E kcp_conv.
    + frame E kcp_conv. by frame E kcp_snd_buf.
  - unfold ikcp_ack_push, ack_reserve. destruct Hack as [Hc0 _].
    bcase; simpl; rewrite u32_small; unfold is_u32; lia.
Qed.

Lemma input_push_inv una nxt sp n rp k h data :
  kcp_inv una nxt sp n rp k -> header_wf h -> kcp_ackcount k < 2147483647 ->
  h_len h <= Z.of_nat (length data) ->
  exists n' rp', kcp_inv una nxt sp n' rp' (input_push k h data) /\
    kcp_ackcount k <= kcp_ackcount (input_push k h data) <= kcp_ackcount k + 1.
Proof.
  intros H Hh Hc Hl. unfold input_push. bcase; [|exists n, rp; split; [done | lia]].
  destruct (ack_push_inv _ _ _ _ _ _ (h_sn h) (h_ts h) H Hc) as [H1 Hc1].
  set (k1 := ikcp_ack_push _ _ _) in *. clearbody k1. bcase; [|exists n, rp; split; [done | lia]].
  pose proof (parse_data_erase k1 (segment_of h data)) as E.
  destruct (sn_position n (h_sn h)) as (i & Hi & Hr); [apply Hh|].
  pose proof (parse_data_sim (rx_of n rp k1) k1 i (segment_of h data)) as Hsim.
  destruct (kcp_inv_rcv _ _ _ _ _ _ (ikcp_parse_data k1 (segment_of h data)) _ H1
    (Hsim (rx_of_refines _ _ _ (ki_rcv _ _ _ _ _ _ H1)) Hi Hr)) as [rp' Hinv].
  - apply rx_push_all; [eapply rx_of_all, H1|]. destruct Hh. split; [|done].
    unfold seg_sized. simpl. rewrite length_take. unfold is_u32 in *. lia.
  - unfold erase_recv. rewrite E. reflexivity.
  - eexists _, rp'. split; [exact Hinv|].
    frame E kcp_ackcount. lia.
Qed.

(** One segment of a datagram. *)
Lemma input_segment_inv una nxt sp n rp k h data flag maxack :
  kcp_inv una nxt sp n rp k -> header_wf h -> kcp_ackcount k < 2147483647 ->
  h_len h <= Z.of_nat (length data) ->
  let k' := (input_segment k h data flag maxack).1.1 in
  (exists una' sp' n' rp', kcp_inv una' nxt sp' n' rp' k') /\
  kcp_ackcount k <= kcp_ackcount k' <= kcp_ackcount k + 1.
Proof.
  intros H Hh Hc Hl. cbv zeta. unfold input_segment.
  pose proof (input_una_ackcount k h) as Hu.
  destruct (input_una_inv _ _ _ _ _ _ h H Hh) as (una1 & sp1 & H1). rewrite <- Hu in *. clear H Hu.
  revert H1 Hc. generalize (input_una k h). clear k. intros k H Hc. bcase; [|bcase; [|bcase]].
  - pose proof (input_ack_ackcount k h) as Ha.
    destruct (input_ack_inv _ _ _ _ _ _ h H Hh) as (una2 & sp2 & H2).
    repeat bcase; (split; [by exists una2, sp2, n, rp | simpl; lia]).
  - destruct (input_push_inv _ _ _ _ _ _ h data H Hh Hc Hl) as (n' & rp' & H2 & Hc').
    split; [by exists una1, sp1, n', rp' | done].
  - split; [|simpl; lia]. exists una1, sp1, n, rp. eapply kcp_inv_view; [..|exact H]; try done. apply H.
  - split; [|simpl; lia]. by exists una1, sp1, n, rp.
Qed.

Definition loop_exit_kcp (e : loop_exit) : ikcpcb :=
  match e with Break k _ _ => k | Return _ k => k end.

Lemma input_loop_inv fuel : forall k data flag maxack nxt,
  (exists una sp n rp, kcp_inv una nxt sp n rp k) ->
  kcp_ackcount k + Z.of_nat (length data) < 2147483648 ->
  let k' := loop_exit_kcp (input_loop fuel k data flag maxack) in
  (exists una sp n rp, kcp_inv una nxt sp n rp k') /\
  kcp_ackcount k <= kcp_ackcount k' <= kcp_ackcount k + Z.of_nat (length data).
Proof.
  induction fuel as [|fuel IH]; intros k data flag maxack nxt H Hc; cbv zeta; cbn [input_loop].
  { split; [done | simpl; lia]. }
  destruct (_ <? IKCP_OVERHEAD) eqn:Hb; [split; [done | simpl; lia]|].
  reflect_bools. unfold IKCP_OVERHEAD in Hb.
  pose proof (decode_header_length data) as Hlen. pose proof (decode_header_wf data) as Hh.
  destruct (decode_header data) as [h data']. simpl in Hlen, Hh.
  destruct (negb _); [split; [done | simpl; lia]|].
  destruct (_ || _) eqn:Hb2; [split; [done | simpl; lia]|]. reflect_bools.
  destruct (negb _); [split; [done | simpl; lia]|].
  destruct H as (una & sp & n & rp & H).
  destruct (input_segment_inv _ _ _ _ _ _ h data' flag maxack H Hh ltac:(lia) ltac:(lia)) as [Hi1 Hc1].
  destruct (input_segment k h data' flag maxack) as [[k1 flag1] maxack1]. simpl in Hi1, Hc1.
  destruct (IH k1 (drop (Z.to_nat (h_len h)) data') flag1 maxack1 nxt Hi1) as [Hi2 Hc2].
  - rewrite length_drop. lia.
  - rewrite length_drop in Hc2. split; [done | lia].
Qed.

(** ** Changing the bookkeeping of segments in flight *)

(** The same segment of the stream: the retransmission fields may differ. *)
Definition seg_same (s s' : IKCPSEG) : Prop :=
  seg_sn s' = seg_sn s /\ frag_of s' = frag_of s /\ seg_len s' = seg_len s /\
  seg_conv s' = seg_conv s /\ seg_cmd s' = seg_cmd s.

#[export] Instance seg_same_equiv : Equivalence seg_same.
Proof.
  split; unfold seg_same.
  - intros s. done.
  - intros s t (? & ? & ? & ? & ?). by rewrite H, H0, H1, H2, H3.
  - intros s t u (? & ? & ? & ? & ?) (? & ? & ? & ? & ?). split_and!; congruence.
Qed.

Lemma sseg_ok_same mss s s' : seg_same s s' -> sseg_ok mss s -> sseg_ok mss s'.
Proof.
  intros (_ & [= Hf Hd] & Hl & _) (Hs & Hm & Hb). unfold sseg_ok, seg_sized in *.
  by rewrite Hf, Hd, Hl.
Qed.

Lemma numbered_same lo hi sp buf buf' :
  numbered lo hi sp buf -> Forall2 seg_same buf buf' ->
  numbered lo hi (zip sp.*1 buf') buf' /\ (zip sp.*1 buf').*1 = sp.*1.
Proof.
  intros Hn H. revert sp Hn. induction H as [|s s' buf buf' Hs _ IH]; intros sp Hn.
  - pose proof (numbered_length _ _ _ _ Hn) as Hl. destruct sp; [|done]. by split.
  - destruct sp as [|p sp]; [by apply numbered_length in Hn|].
    apply numbered_cons in Hn as (b & [= -> <-] & Hsn & Hr & Hlt & Hn).
    destruct (IH sp Hn) as [Hn' Hk]. simpl. split; [|f_equal; exact Hk].
    apply numbered_cons. exists buf'. split_and!; try done.
    + simpl. destruct Hs as [-> _]. done.
    + simpl. lia.
    + simpl. lia.
    + simpl. apply (Forall_fmap fst (fun z => p.1 < z)) in Hlt. rewrite <- Hk in Hlt.
      by apply (Forall_fmap fst (fun z => p.1 < z)) in Hlt.
Qed.

Lemma head_number_same sp sp' nxt : sp'.*1 = sp.*1 -> head_number sp' nxt = head_number sp nxt.
Proof. destruct sp, sp'; simpl; congruence. Qed.

Lemma kcp_inv_same_buf una nxt sp n rp k buf' :
  kcp_inv una nxt sp n rp k -> Forall2 seg_same (kcp_snd_buf k) buf' ->
  kcp_inv una nxt (zip sp.*1 buf') n rp (k <| kcp_snd_buf := buf' |>).
Proof.
  intros [] Hs. pose proof (swf_buf _ _ _ _ ki_snd0) as Hb.
  destruct (numbered_same _ _ _ _ _ Hb Hs) as [Hb' Hk].
  constructor; try done; try (by apply (rcv_wf_view n rp k)); try (by apply (ack_wf_view k)).
  - by apply (cfg_wf_view k).
  - destruct ki_snd0. constructor; try done. simpl. by rewrite <- (Forall2_length _ _ _ Hs).
  - by rewrite (head_number_same sp).
  - apply Forall_app in ki_sseg0 as [Ho Hq]. apply Forall_app. split; [|done].
    simpl. clear -Ho Hs. induction Hs; [done|]. apply Forall_cons in Ho as [??].
    constructor; [by eapply sseg_ok_same | auto].
  - simpl. clear -ki_flight0 Hs. induction Hs as [|s s' b b' (_ & _ & _ & Hc & Hm)]; [done|].
    apply Forall_cons in ki_flight0 as [[??] ?]. constructor; [unfold flight_ok; by rewrite Hc, Hm | auto].
Qed.

Lemma fastack_scan_same buf sn : Forall2 seg_same buf (fastack_scan buf sn).
Proof.
  induction buf as [|s buf IH]; simpl; [constructor|]. bcase; [reflexivity|].
  constructor; [by bcase | done].
Qed.

Lemma parse_fastack_inv una nxt sp n rp k sn :
  kcp_inv una nxt sp n rp k -> exists sp', kcp_inv una nxt sp' n rp (ikcp_parse_fastack k sn).
Proof.
  intros H. unfold ikcp_parse_fastack. bcase; [by exists sp|].
  eexists. apply kcp_inv_same_buf; [done | apply fastack_scan_same].
Qed.

(** Growing the window only touches [cwnd] and [incr]. *)
Definition erase_cwnd (k : ikcpcb) : ikcpcb := k <| kcp_cwnd := 0 |> <| kcp_incr := 0 |>.

Lemma grow_cwnd_erase k : erase_cwnd (grow_cwnd k) = erase_cwnd k.
Proof.
  unfold grow_cwnd. bcase; [|done]. cbv zeta.
  set (k1 := if kcp_cwnd k <? kcp_ssthresh k then _ else _).
  assert (E : erase_cwnd k1 = erase_cwnd k) by (unfold k1; repeat bcase; done).
  rewrite <- E. clearbody k1. by bcase.
Qed.

Lemma kcp_inv_erase_cwnd una nxt sp n rp k k' :
  erase_cwnd k' = erase_cwnd k -> 0 <= kcp_cwnd k' ->
  kcp_inv una nxt sp n rp k -> kcp_inv una nxt sp n rp k'.
Proof.
  intros E Hc H. eapply kcp_inv_view; [..|exact H].
  - exact (f_equal snd_view E).
  - exact (f_equal rcv_view E).
  - exact (f_equal ack_view E).
  - exact (f_equal cfg_view E).
  - frame E kcp_rmt_wnd. split; [apply H | done].
Qed.

Lemma grow_cwnd_nonneg k : 0 <= kcp_cwnd k -> 0 <= kcp_rmt_wnd k -> 0 <= kcp_cwnd (grow_cwnd k).
Proof.
  intros Hc Hr. unfold grow_cwnd. bcase; [|done]. cbv zeta.
  set (k1 := if kcp_cwnd k <? kcp_ssthresh k then _ else _).
  assert (H1 : 0 <= kcp_cwnd k1).
  { unfold k1. repeat bcase; simpl; try done; apply u32_range. }
  assert (Hr1 : kcp_rmt_wnd k1 = kcp_rmt_wnd k) by (unfold k1; repeat bcase; done).
  clearbody k1. bcase; simpl; lia.
Qed.

Lemma input_finish_inv una nxt sp n rp k u flag maxack :
  kcp_inv una nxt sp n rp k -> exists sp', kcp_inv una nxt sp' n rp (input_finish k u flag maxack).
Proof.
  intros H. unfold input_finish. set (k1 := if flag then _ else k).
  assert (exists sp', kcp_inv una nxt sp' n rp k1) as [sp' H1].
  { unfold k1. destruct flag; [by eapply parse_fastack_inv | by exists sp]. }
  clearbody k1. exists sp'. bcase; [|done]. destruct (ki_rmt _ _ _ _ _ _ H1) as [[? _] ?].
  eapply kcp_inv_erase_cwnd; [apply grow_cwnd_erase | by apply grow_cwnd_nonneg | done].
Qed.

Lemma input_finish_ackcount k u flag maxack :
  kcp_ackcount (input_finish k u flag maxack) = kcp_ackcount k.
Proof.
  unfold input_finish. set (k1 := if flag then _ else k).
  assert (E : erase_snd k1 = erase_snd k).
  { unfold k1. destruct flag; [apply parse_fastack_erase | done]. }
  clearbody k1. bcase; [frame (grow_cwnd_erase k1) kcp_ackcount|]; by frame E kcp_ackcount.
Qed.

Lemma ikcp_input_inv k data :
  kcp_wf k -> kcp_ackcount k + Z.of_nat (length data) < 2147483648 ->
  kcp_wf (ikcp_input k data).2 /\
  kcp_ackcount k <= kcp_ackcount (ikcp_input k data).2 <= kcp_ackcount k + Z.of_nat (length data).
Proof.
  intros (una & nxt & sp & n & rp & H) Hc. unfold ikcp_input.
  destruct (_ <? _); [split; [by exists una, nxt, sp, n, rp | simpl; lia]|].
  destruct (input_loop_inv (S (length data)) k data false 0 nxt) as [Hinv Hcnt];
    [by exists una, sp, n, rp | done |].
  destruct (input_loop _ _ _ _ _) as [k1 flag maxack|ret k1]; simpl in *.
  - destruct Hinv as (una1 & sp1 & n1 & rp1 & H1). rewrite input_finish_ackcount.
    destruct (input_finish_inv _ _ _ _ _ _ (kcp_snd_una k) flag maxack H1) as [sp2 H2].
    split; [by exists una1, nxt, sp2, n1, rp1 | done].
  - destruct Hinv as (una1 & sp1 & n1 & rp1 & H1).
    split; [by exists una1, nxt, sp1, n1, rp1 | done].
Qed.

(** ** Hostile input *)

(** C4.  Any bytes at all may arrive: [ikcp_input] always terminates with one of
    its documented codes and leaves the control block well formed (queues and
    their counters, windows, acknowledgement memory, segment sizes); a datagram
    shorter than a header, or whose first header names another conversation,
    changes nothing. *)
Theorem input_any_bytes k data :
  kcp_wf k -> kcp_ackcount k + Z.of_nat (length data) < 2147483648 ->
  let '(ret, k') := ikcp_input k data in
  kcp_wf k' /\ (ret = 0 \/ ret = -1 \/ ret = -2 \/ ret = -3) /\
  (Z.of_nat (length data) < IKCP_OVERHEAD \/ h_conv (decode_header data).1 <> kcp_conv k ->
   ret = -1 /\ k' = k).
Proof.
  intros Hk Hc. destruct (ikcp_input_inv k data Hk Hc) as [Hwf _].
  destruct Hk as (una & nxt & sp & n & rp & Hk). pose proof (awf_count _ (ki_ack _ _ _ _ _ _ Hk)).
  revert Hwf. unfold ikcp_input. change (s32 IKCP_OVERHEAD) with 24.
  rewrite s32_small by (unfold is_s32; lia).
  destruct (_ <? 24) eqn:Hlen; [by auto|]. reflect_bools.
  destruct (input_loop _ _ _ _ _) as [k1 flag maxack|ret k1] eqn:Hloop; intros Hwf;
    (split; [done|]); (split; [|intros Hf; revert Hloop]).
  - by left.
  - cbn [input_loop]. destruct (_ <? IKCP_OVERHEAD) eqn:Hb; reflect_bools; [kcp_consts; lia|].
    destruct (decode_header data) as [h data'] eqn:Hd. simpl in Hf.
    destruct Hf as [Hf|Hf]; [lia|]. rewrite (proj2 (Z.eqb_neq _ _)) by done. done.
  - right. by eapply input_loop_return_codes.
  - cbn [input_loop]. destruct (_ <? IKCP_OVERHEAD) eqn:Hb; reflect_bools; [kcp_consts; lia|].
    destruct (decode_header data) as [h data'] eqn:Hd. simpl in Hf.
    destruct Hf as [Hf|Hf]; [lia|]. rewrite (proj2 (Z.eqb_neq _ _)) by done. by intros [= <- <-].
Qed.

(** A push of four bytes followed by a truncated header. *)
Lemma input_any_bytes_witness :
  let k := ikcp_create 7 in
  let push := ikcp_segment_new <| seg_conv := 7 |> <| seg_cmd := IKCP_CMD_PUSH |> <| seg_len := 4 |>
                <| seg_data := [z2b 1; z2b 2; z2b 3; z2b 4] |> in
  let data := wire push ++ [z2b 9; z2b 9] in
  (kcp_wf k /\ kcp_ackcount k + Z.of_nat (length data) < 2147483648) /\
  let '(ret, k') := ikcp_input k data in
  kcp_wf k' /\ (ret = 0 \/ ret = -1 \/ ret = -2 \/ ret = -3) /\
  (Z.of_nat (length data) < IKCP_OVERHEAD \/ h_conv (decode_header data).1 <> kcp_conv k ->
   ret = -1 /\ k' = k).
Proof.
  intros k push data.
  assert (kcp_wf k) as Hk by (exists 0, 0, [], 0, []; apply kcp_inv_create; vm_compute; intuition congruence).
  assert (kcp_ackcount k + Z.of_nat (length data) < 2147483648) as Hc by (vm_compute; done).
  split; [by split|]. exact (input_any_bytes k data Hk Hc).
Defined.
