(* ===== verification/KcpFlush.v ===== *)
(** * KCP: sending ([ikcp_flush], [ikcp_update], [ikcp_check])

    [ikcp_flush] writes acknowledgements, window probes and due data segments
    into a buffer that it hands to the output callback whenever the next segment
    would not fit in the MTU.  The callback is outside the library: the model
    records the datagrams it is given, in order. *)

From S2P Require Import Prelude KcpBase KcpWire KcpSend KcpNumbered KcpRecv KcpAck KcpInput KcpInv.

Open Scope outcome_scope.

(** ** The code *)

Definition ikcp_wnd_unused (kcp : ikcpcb) : Z :=
  if kcp_nrcv_que kcp <? kcp_rcv_wnd kcp then s32 (u32 (kcp_rcv_wnd kcp - kcp_nrcv_que kcp)) else 0.

(** The bytes written so far ([buffer] up to [ptr]) and the datagrams given to
    the output callback. *)
Record writer := { w_ptr : bytes; w_sent : list bytes }.

(** [assert(kcp->output)]; an empty datagram is not handed over. *)
Definition ikcp_output (kcp : ikcpcb) (data : bytes) (sent : list bytes) : outcome (list bytes) :=
  let* _ := assert_ (kcp_output kcp) in
  Ok (match data with [] => sent | _ => sent ++ [data] end).

(** [size + need > (int)kcp->mtu]: start a new datagram. *)
Definition flush_room (kcp : ikcpcb) (need : Z) (w : writer) : outcome writer :=
  let size := Z.of_nat (length (w_ptr w)) in
  if s32 (size + need) >? s32 (kcp_mtu kcp) then
    let* sent := ikcp_output kcp (w_ptr w) (w_sent w) in
    Ok {| w_ptr := []; w_sent := sent |}
  else Ok w.

(** The local [seg] that acknowledgements and probes are written from (its other
    fields are not initialised and not read). *)
Definition flush_seg (kcp : ikcpcb) : IKCPSEG :=
  ikcp_segment_new <| seg_conv := kcp_conv kcp |> <| seg_cmd := IKCP_CMD_ACK |> <| seg_frg := 0 |>
    <| seg_wnd := u32 (ikcp_wnd_unused kcp) |> <| seg_una := kcp_rcv_nxt kcp |>
    <| seg_len := 0 |> <| seg_sn := 0 |> <| seg_ts := 0 |>.

(** One header without payload. *)
Definition flush_header (kcp : ikcpcb) (seg : IKCPSEG) (w : writer) : outcome writer :=
  let* w := flush_room kcp (s32 IKCP_OVERHEAD) w in
  Ok {| w_ptr := ikcp_encode_seg (w_ptr w) seg; w_sent := w_sent w |}.

(** The [for] loop over the acknowledgements, from number [i]. *)
Fixpoint flush_acks (n : nat) (i : Z) (kcp : ikcpcb) (seg : IKCPSEG) (w : writer)
    : outcome (IKCPSEG * writer) :=
  match n with
  | O => Ok (seg, w)
  | S n =>
      let '(sn, ts) := ikcp_ack_get kcp i in
      let seg := seg <| seg_sn := sn |> <| seg_ts := ts |> in
      let* w := flush_header kcp seg w in
      flush_acks n (i + 1) kcp seg w
  end.

(** Window probing: when to ask a peer that announced no room. *)
Definition flush_probe (kcp : ikcpcb) : ikcpcb :=
  if kcp_rmt_wnd kcp =? 0 then
    if kcp_probe_wait kcp =? 0 then
      kcp <| kcp_probe_wait := IKCP_PROBE_INIT |>
          <| kcp_ts_probe := u32 (kcp_current kcp + IKCP_PROBE_INIT) |>
    else if _itimediff (kcp_current kcp) (kcp_ts_probe kcp) >=? 0 then
      let wait := if kcp_probe_wait kcp <? IKCP_PROBE_INIT then IKCP_PROBE_INIT
                  else kcp_probe_wait kcp in
      let wait := u32 (wait + wait / 2) in
      let wait := if wait >? IKCP_PROBE_LIMIT then IKCP_PROBE_LIMIT else wait in
      kcp <| kcp_probe_wait := wait |>
          <| kcp_ts_probe := u32 (kcp_current kcp + wait) |>
          <| kcp_probe := Z.lor (kcp_probe kcp) IKCP_ASK_SEND |>
    else kcp
  else kcp <| kcp_ts_probe := 0 |> <| kcp_probe_wait := 0 |>.

(** [if (kcp->probe & bit)]: write a probe or a window announcement. *)
Definition flush_cmd (kcp : ikcpcb) (bit cmd : Z) (seg : IKCPSEG) (w : writer)
    : outcome (IKCPSEG * writer) :=
  if negb (Z.land (kcp_probe kcp) bit =? 0) then
    let seg := seg <| seg_cmd := cmd |> in
    let* w := flush_header kcp seg w in
    Ok (seg, w)
  else Ok (seg, w).

Definition flush_window (kcp : ikcpcb) : Z :=
  let cwnd := _imin_ (kcp_snd_wnd kcp) (kcp_rmt_wnd kcp) in
  if kcp_nocwnd kcp =? 0 then _imin_ (kcp_cwnd kcp) cwnd else cwnd.

(** A segment enters the send buffer. *)
Definition flush_newseg (kcp : ikcpcb) (wnd : Z) (newseg : IKCPSEG) : IKCPSEG :=
  newseg <| seg_conv := kcp_conv kcp |> <| seg_cmd := IKCP_CMD_PUSH |> <| seg_wnd := wnd |>
    <| seg_ts := kcp_current kcp |> <| seg_sn := kcp_snd_nxt kcp |>
    <| seg_una := kcp_rcv_nxt kcp |> <| seg_resendts := kcp_current kcp |>
    <| seg_rto := u32 (kcp_rx_rto kcp) |> <| seg_fastack := 0 |> <| seg_xmit := 0 |>.

Fixpoint flush_move (queue : list IKCPSEG) (cwnd wnd : Z) (kcp : ikcpcb) : ikcpcb :=
  if _itimediff (kcp_snd_nxt kcp) (u32 (kcp_snd_una kcp + cwnd)) <? 0 then
    match queue with
    | [] => kcp
    | newseg :: queue =>
        flush_move queue cwnd wnd
          (kcp <| kcp_snd_queue := queue |>
               <| kcp_snd_buf := kcp_snd_buf kcp ++ [flush_newseg kcp wnd newseg] |>
               <| kcp_nsnd_que := u32 (kcp_nsnd_que kcp - 1) |>
               <| kcp_nsnd_buf := u32 (kcp_nsnd_buf kcp + 1) |>
               <| kcp_snd_nxt := u32 (kcp_snd_nxt kcp + 1) |>)
    end
  else kcp.

(** Why a segment in flight is sent now. *)
Inductive due := First | Timeout | FastResend | NotDue.

Definition flush_due (kcp : ikcpcb) (resent : Z) (segment : IKCPSEG) : due :=
  if seg_xmit segment =? 0 then First
  else if _itimediff (kcp_current kcp) (seg_resendts segment) >=? 0 then Timeout
  else if seg_fastack segment >=? resent then FastResend
  else NotDue.

(** The retransmission fields of a segment that is sent. *)
Definition flush_mark (kcp : ikcpcb) (rtomin : Z) (d : due) (segment : IKCPSEG) : IKCPSEG :=
  match d with
  | First =>
      let segment := segment <| seg_xmit := u32 (seg_xmit segment + 1) |>
                             <| seg_rto := u32 (kcp_rx_rto kcp) |> in
      segment <| seg_resendts := u32 (kcp_current kcp + seg_rto segment + rtomin) |>
  | Timeout =>
      let segment := segment <| seg_xmit := u32 (seg_xmit segment + 1) |>
        <| seg_rto := u32 (seg_rto segment +
             (if kcp_nodelay kcp =? 0 then kcp_rx_rto kcp else Z.quot (kcp_rx_rto kcp) 2)) |> in
      segment <| seg_resendts := u32 (kcp_current kcp + seg_rto segment) |>
  | FastResend =>
      let segment := segment <| seg_xmit := u32 (seg_xmit segment + 1) |> <| seg_fastack := 0 |> in
      segment <| seg_resendts := u32 (kcp_current kcp + seg_rto segment) |>
  | NotDue => segment
  end.

(** The header fields written at every transmission. *)
Definition flush_stamp (kcp : ikcpcb) (wnd : Z) (segment : IKCPSEG) : IKCPSEG :=
  segment <| seg_ts := kcp_current kcp |> <| seg_wnd := wnd |> <| seg_una := kcp_rcv_nxt kcp |>.

Definition flush_write (kcp : ikcpcb) (segment : IKCPSEG) (w : writer) : outcome writer :=
  let* w := flush_room kcp (s32 (u32 (IKCP_OVERHEAD + seg_len segment))) w in
  let ptr := ikcp_encode_seg (w_ptr w) segment in
  let ptr := if seg_len segment >? 0
             then ptr ++ take (Z.to_nat (seg_len segment)) (seg_data segment) else ptr in
  Ok {| w_ptr := ptr; w_sent := w_sent w |}.

(** The body of the loop over the send buffer; [change] and [lost] are the locals
    that remember a fast retransmission and a timeout. *)
Definition flush_one (segment : IKCPSEG) (resent rtomin wnd : Z) (kcp : ikcpcb)
    (change : Z) (lost : bool) (w : writer) : outcome (IKCPSEG * ikcpcb * Z * bool * writer) :=
  let d := flush_due kcp resent segment in
  let segment := flush_mark kcp rtomin d segment in
  let kcp := match d with
             | Timeout => kcp <| kcp_xmit := u32 (kcp_xmit kcp + 1) |>
             | _ => kcp end in
  let change := match d with FastResend => change + 1 | _ => change end in
  let lost := match d with Timeout => true | _ => lost end in
  match d with
  | NotDue => Ok (segment, kcp, change, lost, w)
  | _ =>
      let segment := flush_stamp kcp wnd segment in
      let* w := flush_write kcp segment w in
      let kcp := if seg_xmit segment >=? kcp_dead_link kcp
                 then kcp <| kcp_state := 4294967295 |> else kcp in
      Ok (segment, kcp, change, lost, w)
  end.

Fixpoint flush_data (buf : list IKCPSEG) (resent rtomin wnd : Z) (kcp : ikcpcb)
    (change : Z) (lost : bool) (w : writer)
    : outcome (list IKCPSEG * ikcpcb * Z * bool * writer) :=
  match buf with
  | [] => Ok ([], kcp, change, lost, w)
  | segment :: buf =>
      let* (segment, kcp, change, lost, w) := flush_one segment resent rtomin wnd kcp change lost w in
      let* (buf, kcp, change, lost, w) := flush_data buf resent rtomin wnd kcp change lost w in
      Ok (segment :: buf, kcp, change, lost, w)
  end.

(** The congestion window after this flush. *)
Definition flush_cwnd (kcp : ikcpcb) (resent cwnd change : Z) (lost : bool) : ikcpcb :=
  let kcp :=
    if negb (change =? 0) then
      let inflight := u32 (kcp_snd_nxt kcp - kcp_snd_una kcp) in
      let kcp := kcp <| kcp_ssthresh := inflight / 2 |> in
      let kcp := if kcp_ssthresh kcp <? IKCP_THRESH_MIN
                 then kcp <| kcp_ssthresh := IKCP_THRESH_MIN |> else kcp in
      let kcp := kcp <| kcp_cwnd := u32 (kcp_ssthresh kcp + resent) |> in
      kcp <| kcp_incr := u32 (kcp_cwnd kcp * kcp_mss kcp) |>
    else kcp in
  let kcp :=
    if lost then
      let kcp := kcp <| kcp_ssthresh := cwnd / 2 |> in
      let kcp := if kcp_ssthresh kcp <? IKCP_THRESH_MIN
                 then kcp <| kcp_ssthresh := IKCP_THRESH_MIN |> else kcp in
      kcp <| kcp_cwnd := 1 |> <| kcp_incr := kcp_mss kcp |>
    else kcp in
  if kcp_cwnd kcp <? 1 then kcp <| kcp_cwnd := 1 |> <| kcp_incr := kcp_mss kcp |> else kcp.

Definition flush_resent (kcp : ikcpcb) : Z :=
  if kcp_fastresend kcp >? 0 then u32 (kcp_fastresend kcp) else 4294967295.
Definition flush_rtomin (kcp : ikcpcb) : Z :=
  if kcp_nodelay kcp =? 0 then u32 (Z.shiftr (kcp_rx_rto kcp) 3) else 0.

Definition ikcp_flush (kcp : ikcpcb) : outcome (ikcpcb * list bytes) :=
  if kcp_updated kcp =? 0 then Ok (kcp, []) else
  let seg := flush_seg kcp in
  let* (seg, w) := flush_acks (Z.to_nat (s32 (kcp_ackcount kcp))) 0 kcp seg
                      {| w_ptr := []; w_sent := [] |} in
  let kcp := kcp <| kcp_ackcount := 0 |> in
  let kcp := flush_probe kcp in
  let* (seg, w) := flush_cmd kcp IKCP_ASK_SEND IKCP_CMD_WASK seg w in
  let* (seg, w) := flush_cmd kcp IKCP_ASK_TELL IKCP_CMD_WINS seg w in
  let kcp := kcp <| kcp_probe := 0 |> in
  let cwnd := flush_window kcp in
  let kcp := flush_move (kcp_snd_queue kcp) cwnd (seg_wnd seg) kcp in
  let resent := flush_resent kcp in
  let rtomin := flush_rtomin kcp in
  let* (buf, kcp, change, lost, w) :=
    flush_data (kcp_snd_buf kcp) resent rtomin (seg_wnd seg) kcp 0 false w in
  let kcp := kcp <| kcp_snd_buf := buf |> in
  let* sent := match w_ptr w with
               | [] => Ok (w_sent w)
               | _ => ikcp_output kcp (w_ptr w) (w_sent w)
               end in
  Ok (flush_cwnd kcp resent cwnd change lost, sent).

(** [ikcp_update] from the computation of [slap] on. *)
Definition update_tick (kcp : ikcpcb) : outcome (ikcpcb * list bytes) :=
  let slap := _itimediff (kcp_current kcp) (kcp_ts_flush kcp) in
  let '(kcp, slap) :=
    if (slap >=? 10000) || (slap <? -10000)
    then (kcp <| kcp_ts_flush := kcp_current kcp |>, 0) else (kcp, slap) in
  if slap >=? 0 then
    let kcp := kcp <| kcp_ts_flush := u32 (kcp_ts_flush kcp + kcp_interval kcp) |> in
    let kcp := if _itimediff (kcp_current kcp) (kcp_ts_flush kcp) >=? 0
               then kcp <| kcp_ts_flush := u32 (kcp_current kcp + kcp_interval kcp) |> else kcp in
    ikcp_flush kcp
  else Ok (kcp, []).

Definition ikcp_update (kcp : ikcpcb) (current : Z) : outcome (ikcpcb * list bytes) :=
  let kcp := kcp <| kcp_current := current |> in
  let kcp := if kcp_updated kcp =? 0
             then kcp <| kcp_updated := 1 |> <| kcp_ts_flush := kcp_current kcp |> else kcp in
  update_tick kcp.

(** The loop of [ikcp_check]: [None] when a segment is already due. *)
Fixpoint check_loop (buf : list IKCPSEG) (current tm_packet : Z) : option Z :=
  match buf with
  | [] => Some tm_packet
  | seg :: buf =>
      let diff := _itimediff (seg_resendts seg) current in
      if diff <=? 0 then None
      else check_loop buf current (if diff <? tm_packet then diff else tm_packet)
  end.

Definition ikcp_check (kcp : ikcpcb) (current : Z) : Z :=
  if kcp_updated kcp =? 0 then current else
  let ts_flush :=
    if (_itimediff current (kcp_ts_flush kcp) >=? 10000) ||
       (_itimediff current (kcp_ts_flush kcp) <? -10000)
    then current else kcp_ts_flush kcp in
  if _itimediff current ts_flush >=? 0 then current else
  let tm_flush := _itimediff ts_flush current in
  match check_loop (kcp_snd_buf kcp) current 2147483647 with
  | None => current
  | Some tm_packet =>
      let minimal := u32 (if tm_packet <? tm_flush then tm_packet else tm_flush) in
      let minimal := if minimal >=? kcp_interval kcp then kcp_interval kcp else minimal in
      u32 (current + minimal)
  end.

(** ** Reference definition: packing segments into datagrams *)

(** The bytes of a datagram that holds these segments. *)
Definition datagram (segs : list IKCPSEG) : bytes := concat (map wire segs).

(** The datagram being filled and the full ones. *)
Record packer := { p_cur : list IKCPSEG; p_done : list (list IKCPSEG) }.

(** A datagram is closed only when the next segment does not fit. *)
Definition pack_room (mtu : Z) (p : packer) (seg : IKCPSEG) : packer :=
  if Z.of_nat (length (datagram (p_cur p)) + length (wire seg)) >? mtu
  then {| p_cur := []; p_done := p_done p ++ [p_cur p] |} else p.

Definition pack_add (mtu : Z) (p : packer) (seg : IKCPSEG) : packer :=
  let p := pack_room mtu p seg in {| p_cur := p_cur p ++ [seg]; p_done := p_done p |}.

Definition pack_all (mtu : Z) (segs : list IKCPSEG) (p : packer) : packer :=
  foldl (pack_add mtu) p segs.

Definition pack_close (p : packer) : list (list IKCPSEG) :=
  match p_cur p with [] => p_done p | cur => p_done p ++ [cur] end.

Definition pack (mtu : Z) (segs : list IKCPSEG) : list (list IKCPSEG) :=
  pack_close (pack_all mtu segs {| p_cur := []; p_done := [] |}).

Definition fits (mtu : Z) (seg : IKCPSEG) : Prop :=
  Z.of_nat (length (wire seg)) <= mtu.

(** Full datagrams are not empty and fit; the one being filled fits. *)
Record packer_ok (mtu : Z) (p : packer) : Prop := {
  pok_cur : Z.of_nat (length (datagram (p_cur p))) <= mtu;
  pok_done : Forall (fun g => g <> [] /\ Z.of_nat (length (datagram g)) <= mtu) (p_done p)
}.

Section packing.
Context (mtu : Z).
Hypothesis Hmtu : 0 <= mtu.

Lemma datagram_app l1 l2 : datagram (l1 ++ l2) = datagram l1 ++ datagram l2.
Proof. unfold datagram. by rewrite map_app, concat_app. Qed.

Lemma datagram_one s : datagram [s] = wire s.
Proof. unfold datagram. simpl. by rewrite app_nil_r. Qed.

Lemma datagram_nil segs : datagram segs = [] -> segs = [].
Proof.
  destruct segs as [|s segs]; [done|]. intros H. apply (f_equal length) in H.
  unfold datagram in H. cbn [map concat] in H. rewrite length_app, length_wire in H. simpl in H. lia.
Qed.

Lemma packer_ok_nil : packer_ok mtu {| p_cur := []; p_done := [] |}.
Proof using Hmtu. constructor; [done | constructor]. Qed.

Lemma pack_add_ok p seg : packer_ok mtu p -> fits mtu seg -> packer_ok mtu (pack_add mtu p seg).
Proof using Hmtu.
  intros [Hc Hd] Hs. unfold fits in Hs. unfold pack_add, pack_room. bcase; constructor; cbn [p_cur p_done app].
  - by rewrite datagram_one.
  - apply Forall_app. split; [done|]. constructor; [|done]. split; [|done].
    intros Hn. rewrite Hn in Hb. change (length (datagram [])) with 0%nat in Hb. lia.
  - rewrite datagram_app, datagram_one, length_app. lia.
  - done.
Qed.

Lemma pack_all_ok segs p :
  packer_ok mtu p -> Forall (fits mtu) segs -> packer_ok mtu (pack_all mtu segs p).
Proof using Hmtu.
  revert p. induction segs as [|s segs IH]; intros p Hp Hs; [done|].
  apply Forall_cons in Hs as [Hs Hr]. apply IH; [by apply pack_add_ok | done].
Qed.

Lemma pack_all_app l1 l2 p : pack_all mtu (l1 ++ l2) p = pack_all mtu l2 (pack_all mtu l1 p).
Proof. apply foldl_app. Qed.

Lemma pack_all_concat segs p :
  concat (p_done (pack_all mtu segs p)) ++ p_cur (pack_all mtu segs p) =
  concat (p_done p) ++ p_cur p ++ segs.
Proof.
  revert p. induction segs as [|s segs IH]; intros p; cbn [pack_all foldl].
  - by rewrite app_nil_r.
  - unfold pack_all in IH. rewrite IH. unfold pack_add, pack_room. bcase; cbn [p_done p_cur app].
    + rewrite concat_app. cbn [concat]. by rewrite app_nil_r, <- !app_assoc.
    + by rewrite <- !app_assoc.
Qed.

(** Packing keeps the segments and their order, and every datagram is a
    non-empty one that fits. *)
Lemma pack_spec segs :
  Forall (fits mtu) segs ->
  concat (pack mtu segs) = segs /\
  Forall (fun g => g <> [] /\ Z.of_nat (length (datagram g)) <= mtu) (pack mtu segs).
Proof using Hmtu.
  intros Hs. pose proof (pack_all_ok segs _ packer_ok_nil Hs) as [Hc Hd].
  pose proof (pack_all_concat segs {| p_cur := []; p_done := [] |}) as Hcat. simpl in Hcat.
  unfold pack, pack_close. destruct (pack_all mtu segs _) as [[|s cur] done_]; simpl in *.
  - by rewrite app_nil_r in Hcat.
  - split.
    + rewrite concat_app. simpl. by rewrite app_nil_r.
    + apply Forall_app. split; [done|]. by constructor.
Qed.
End packing.

(** ** The buffer refines the packer *)

Definition writer_of (p : packer) : writer :=
  {| w_ptr := datagram (p_cur p); w_sent := map datagram (p_done p) |}.

(** Sizes for which the [int] sums of the code do not overflow. *)
Definition mtu_ok (kcp : ikcpcb) : Prop := 50 <= kcp_mtu kcp < 1073741824.

(** The state of the writer between two segments. *)
Record writing (kcp : ikcpcb) (p : packer) : Prop := {
  wr_output : kcp_output kcp = true;
  wr_mtu : mtu_ok kcp;
  wr_pok : packer_ok (kcp_mtu kcp) p
}.

Lemma writing_add kcp p seg :
  writing kcp p -> fits (kcp_mtu kcp) seg -> writing kcp (pack_add (kcp_mtu kcp) p seg).
Proof.
  intros [] Hs. constructor; try done. apply pack_add_ok; try done. unfold mtu_ok in *. lia.
Qed.

Lemma flush_room_eq kcp seg p :
  writing kcp p -> fits (kcp_mtu kcp) seg ->
  flush_room kcp (Z.of_nat (length (wire seg))) (writer_of p) =
    Ok (writer_of (pack_room (kcp_mtu kcp) p seg)).
Proof.
  intros [Ho Hm [Hc _]] Hn. unfold mtu_ok in Hm. unfold fits in Hn.
  unfold flush_room, pack_room. cbn [writer_of w_ptr w_sent].
  rewrite !s32_small, <- Nat2Z.inj_add by (unfold is_s32; lia).
  destruct (_ >? _) eqn:Hb; reflect_bools; [|done].
  unfold ikcp_output. rewrite Ho. cbn [assert_ bind]. unfold writer_of. cbn [p_cur p_done].
  rewrite map_app. cbn [map].
  destruct (datagram (p_cur p)) eqn:Hd; [|done]. cbn [length Nat.add] in Hb. lia.
Qed.

(** Appending a segment to the writer. *)
Lemma writer_of_add mtu p seg :
  writer_of (pack_add mtu p seg) =
    {| w_ptr := w_ptr (writer_of (pack_room mtu p seg)) ++ wire seg;
       w_sent := w_sent (writer_of (pack_room mtu p seg)) |}.
Proof.
  unfold pack_add, writer_of. cbn [p_cur p_done w_ptr w_sent]. by rewrite datagram_app, datagram_one.
Qed.

Lemma flush_header_eq kcp seg p :
  writing kcp p -> seg_data seg = [] ->
  flush_header kcp seg (writer_of p) = Ok (writer_of (pack_add (kcp_mtu kcp) p seg)).
Proof.
  intros Hw Hd. assert (Hl : length (wire seg) = 24%nat) by (rewrite length_wire, Hd; done).
  assert (Hf : fits (kcp_mtu kcp) seg).
  { unfold fits. rewrite Hl. destruct Hw as [_ Hm _]. unfold mtu_ok in Hm. lia. }
  unfold flush_header. change (s32 IKCP_OVERHEAD) with (Z.of_nat 24). rewrite <- Hl.
  rewrite flush_room_eq by done. cbn [bind].
  rewrite writer_of_add. unfold wire. rewrite Hd, app_nil_r, encode_seg_app. done.
Qed.

Lemma flush_write_eq kcp seg p :
  writing kcp p -> seg_sized seg -> fits (kcp_mtu kcp) seg ->
  flush_write kcp seg (writer_of p) = Ok (writer_of (pack_add (kcp_mtu kcp) p seg)).
Proof.
  intros Hw Hs Hf. unfold flush_write.
  assert (s32 (u32 (IKCP_OVERHEAD + seg_len seg)) = Z.of_nat (length (wire seg))) as ->.
  { rewrite Hs, length_wire. destruct Hw as [_ Hm _]. unfold mtu_ok, fits in *.
    rewrite length_wire in Hf. unfold IKCP_OVERHEAD. rewrite u32_small, s32_small;
      unfold is_u32, is_s32; lia. }
  rewrite flush_room_eq by done. cbn [bind]. rewrite writer_of_add.
  assert (Ht : take (Z.to_nat (seg_len seg)) (seg_data seg) = seg_data seg).
  { rewrite Hs, Nat2Z.id. by apply take_ge. }
  rewrite Ht. unfold wire at 1. rewrite encode_seg_app, app_assoc.
  bcase; [done|]. assert (seg_data seg = []) as ->; [|by rewrite app_nil_r].
  rewrite Hs in Hb. destruct (seg_data seg); [done|]. simpl in Hb. lia.
Qed.

(** ** What a flush writes *)

Lemma writing_kcp kcp kcp' p :
  kcp_output kcp' = kcp_output kcp -> kcp_mtu kcp' = kcp_mtu kcp -> writing kcp p -> writing kcp' p.
Proof. intros Ho Hm []. constructor; unfold mtu_ok in *; by rewrite ?Ho, ?Hm. Qed.

Definition ack_seg (seg : IKCPSEG) (a : Z * Z) : IKCPSEG := seg <| seg_sn := a.1 |> <| seg_ts := a.2 |>.

Lemma fits_header kcp p seg : writing kcp p -> seg_data seg = [] -> fits (kcp_mtu kcp) seg.
Proof.
  intros [_ Hm _] Hd. unfold fits, mtu_ok in *. rewrite length_wire, Hd. simpl. lia.
Qed.

Lemma flush_acks_eq n i kcp seg p :
  writing kcp p -> seg_data seg = [] ->
  let segs := ack_seg seg <$> (ikcp_ack_get kcp <$> seqZ i (Z.of_nat n)) in
  flush_acks n i kcp seg (writer_of p) =
    Ok (default seg (last segs), writer_of (pack_all (kcp_mtu kcp) segs p)) /\
  writing kcp (pack_all (kcp_mtu kcp) segs p).
Proof.
  cbv zeta. revert i seg p. induction n as [|n IH]; intros i seg p Hw Hd; [done|].
  cbn [flush_acks]. rewrite seqZ_cons by lia. replace (Z.pred (Z.of_nat (S n))) with (Z.of_nat n) by lia.
  destruct (ikcp_ack_get kcp i) as [sn ts] eqn:Hg.
  assert (Hadd : writing kcp (pack_add (kcp_mtu kcp) p (ack_seg seg (sn, ts)))).
  { apply writing_add; [done|]. by apply (fits_header kcp p). }
  change (seg <| seg_sn := sn |> <| seg_ts := ts |>) with (ack_seg seg (sn, ts)).
  rewrite (flush_header_eq kcp (ack_seg seg (sn, ts)) p Hw Hd). cbn [bind].
  destruct (IH (i + 1) (ack_seg seg (sn, ts)) _ Hadd Hd) as [Heq Hw'].
  change (Z.succ i) with (i + 1). rewrite !fmap_cons, Hg.
  split; [|exact Hw'].
  rewrite Heq.
  f_equal. f_equal. rewrite last_cons.
  change (ack_seg (ack_seg seg (sn, ts))) with (ack_seg seg). by destruct (last _).
Qed.

Definition cmd_segments (kcp : ikcpcb) (bit cmd : Z) (seg : IKCPSEG) : list IKCPSEG :=
  if negb (Z.land (kcp_probe kcp) bit =? 0) then [seg <| seg_cmd := cmd |>] else [].

Lemma flush_cmd_eq kcp bit cmd seg p :
  writing kcp p -> seg_data seg = [] ->
  let segs := cmd_segments kcp bit cmd seg in
  flush_cmd kcp bit cmd seg (writer_of p) =
    Ok (default seg (last segs), writer_of (pack_all (kcp_mtu kcp) segs p)) /\
  writing kcp (pack_all (kcp_mtu kcp) segs p).
Proof.
  intros Hw Hd. unfold flush_cmd, cmd_segments. cbv zeta. destruct (negb _); [|done].
  rewrite flush_header_eq by done. split; [done|].
  apply writing_add; [done|]. by apply (fits_header kcp p).
Qed.

#[export] Instance due_eq_dec : EqDecision due.
Proof. solve_decision. Defined.

(** A segment of the send buffer after the flush. *)
Definition flush_step (kcp : ikcpcb) (resent rtomin wnd : Z) (s : IKCPSEG) : IKCPSEG :=
  match flush_due kcp resent s with
  | NotDue => s
  | d => flush_stamp kcp wnd (flush_mark kcp rtomin d s)
  end.

(** The due segments, as they are written. *)
Definition flush_sent (kcp : ikcpcb) (resent rtomin wnd : Z) (buf : list IKCPSEG) : list IKCPSEG :=
  flush_step kcp resent rtomin wnd <$> filter (fun s => flush_due kcp resent s <> NotDue) buf.

Lemma flush_step_same kcp resent rtomin wnd s : seg_same s (flush_step kcp resent rtomin wnd s).
Proof. unfold flush_step. by destruct (flush_due kcp resent s). Qed.

Lemma flush_step_data kcp resent rtomin wnd s : seg_data (flush_step kcp resent rtomin wnd s) = seg_data s.
Proof. unfold flush_step. by destruct (flush_due kcp resent s). Qed.

Lemma flush_step_len kcp resent rtomin wnd s : seg_len (flush_step kcp resent rtomin wnd s) = seg_len s.
Proof. unfold flush_step. by destruct (flush_due kcp resent s). Qed.

(** The fields the loop over the send buffer may change. *)
Definition erase_link (kcp : ikcpcb) : ikcpcb := kcp <| kcp_xmit := 0 |> <| kcp_state := 0 |>.

Definition is_due (kcp : ikcpcb) (resent : Z) (d : due) (s : IKCPSEG) : bool :=
  bool_decide (flush_due kcp resent s = d).

(** A segment sent [dead_link] times. *)
Definition flush_dead (kcp : ikcpcb) (resent rtomin wnd : Z) (s : IKCPSEG) : bool :=
  negb (is_due kcp resent NotDue s) && (seg_xmit (flush_step kcp resent rtomin wnd s) >=? kcp_dead_link kcp).

Lemma flush_step_link kcp kcp' :
  erase_link kcp' = erase_link kcp -> flush_step kcp' = flush_step kcp.
Proof. intros E. change (flush_step kcp') with (flush_step (erase_link kcp')). by rewrite E. Qed.

Lemma flush_due_link kcp kcp' :
  erase_link kcp' = erase_link kcp -> flush_due kcp' = flush_due kcp.
Proof. intros E. change (flush_due kcp') with (flush_due (erase_link kcp')). by rewrite E. Qed.

Lemma flush_sent_cons kcp resent rtomin wnd s buf :
  flush_sent kcp resent rtomin wnd (s :: buf) =
    (if is_due kcp resent NotDue s then [] else [flush_step kcp resent rtomin wnd s]) ++
    flush_sent kcp resent rtomin wnd buf.
Proof.
  unfold flush_sent, is_due. case_bool_decide as Hd.
  - by rewrite filter_cons_False by (intros Hn; by apply Hn).
  - by rewrite filter_cons_True.
Qed.

(** What one iteration does to the counters and the writer. *)
Lemma flush_one_eq s resent rtomin wnd kcp change lost p :
  writing kcp p -> seg_sized s -> fits (kcp_mtu kcp) s ->
  let p' := pack_all (kcp_mtu kcp) (flush_sent kcp resent rtomin wnd [s]) p in
  exists kcp',
    flush_one s resent rtomin wnd kcp change lost (writer_of p) =
      Ok (flush_step kcp resent rtomin wnd s, kcp',
          change + Z.b2z (is_due kcp resent FastResend s),
          lost || is_due kcp resent Timeout s, writer_of p') /\
    writing kcp p' /\ erase_link kcp' = erase_link kcp /\
    kcp_state kcp' = (if flush_dead kcp resent rtomin wnd s then 4294967295 else kcp_state kcp).
Proof.
  intros Hw Hs Hf. cbv zeta.
  assert (Hs' : seg_sized (flush_step kcp resent rtomin wnd s)).
  { unfold seg_sized. by rewrite flush_step_len, flush_step_data. }
  assert (Hf' : fits (kcp_mtu kcp) (flush_step kcp resent rtomin wnd s)).
  { unfold fits in *. rewrite length_wire in *. by rewrite flush_step_data. }
  pose proof (flush_write_eq kcp _ p Hw Hs' Hf') as Hwr.
  pose proof (writing_add kcp p _ Hw Hf') as Hadd.
  unfold flush_one, flush_dead. rewrite flush_sent_cons, app_nil_r. unfold is_due, flush_step in *.
  destruct (flush_due kcp resent s) eqn:Hd.
  - rewrite Hwr. eexists. split; [simpl; by rewrite Z.add_0_r, orb_false_r|].
    split; [done|]. simpl. by destruct (_ >=? _).
  - change (flush_write (kcp <| kcp_xmit := u32 (kcp_xmit kcp + 1) |>)) with (flush_write kcp).
    change (flush_stamp (kcp <| kcp_xmit := u32 (kcp_xmit kcp + 1) |>)) with (flush_stamp kcp).
    rewrite Hwr. eexists. split; [simpl; by rewrite Z.add_0_r, orb_true_r|].
    split; [done|]. simpl. by destruct (_ >=? _).
  - rewrite Hwr. eexists. split; [simpl; by rewrite orb_false_r|].
    split; [done|]. simpl. by destruct (_ >=? _).
  - exists kcp. split; [simpl; by rewrite Z.add_0_r, orb_false_r | done].
Qed.

Lemma flush_data_eq buf resent rtomin wnd kcp change lost p :
  writing kcp p -> Forall (fun s => seg_sized s /\ fits (kcp_mtu kcp) s) buf ->
  let p' := pack_all (kcp_mtu kcp) (flush_sent kcp resent rtomin wnd buf) p in
  exists kcp',
    flush_data buf resent rtomin wnd kcp change lost (writer_of p) =
      Ok (flush_step kcp resent rtomin wnd <$> buf, kcp',
          change + Z.of_nat (length (List.filter (is_due kcp resent FastResend) buf)),
          lost || existsb (is_due kcp resent Timeout) buf, writer_of p') /\
    writing kcp p' /\ erase_link kcp' = erase_link kcp /\
    kcp_state kcp' = (if existsb (flush_dead kcp resent rtomin wnd) buf then 4294967295
                      else kcp_state kcp).
Proof.
  cbv zeta. revert kcp change lost p. induction buf as [|s buf IH]; intros kcp change lost p Hw Hs.
  { exists kcp. simpl. by rewrite orb_false_r, Z.add_0_r. }
  apply Forall_cons in Hs as [[Hs Hf] Hr].
  destruct (flush_one_eq s resent rtomin wnd kcp change lost p Hw Hs Hf)
    as (kcp1 & Hone & Hw1 & E & Hst). cbn [flush_data]. rewrite Hone. cbn [bind].
  pose proof (f_equal kcp_mtu E : kcp_mtu kcp1 = kcp_mtu kcp) as Hm.
  pose proof (f_equal kcp_output E : kcp_output kcp1 = kcp_output kcp) as Ho.
  apply (writing_kcp kcp kcp1 _ Ho Hm) in Hw1. rewrite <- Hm in Hr.
  destruct (IH kcp1 (change + Z.b2z (is_due kcp resent FastResend s))
    (lost || is_due kcp resent Timeout s) _ Hw1 Hr) as (kcp2 & Hrec & Hw2 & E2 & Hst2).
  rewrite Hrec. cbn [bind]. clear IH Hrec Hone.
  assert (Hdue : is_due kcp1 = is_due kcp) by (unfold is_due; by rewrite (flush_due_link kcp kcp1)).
  assert (Hdead : flush_dead kcp1 = flush_dead kcp).
  { unfold flush_dead. rewrite Hdue, (flush_step_link kcp kcp1 E).
    by rewrite (f_equal kcp_dead_link E : kcp_dead_link kcp1 = kcp_dead_link kcp). }
  assert (Hsent : flush_sent kcp1 = flush_sent kcp).
  { unfold flush_sent. by rewrite (flush_step_link kcp kcp1 E), (flush_due_link kcp kcp1 E). }
  rewrite Hm, Hsent, Hdead, <- pack_all_app in *. rewrite Hdue, (flush_step_link kcp kcp1 E).
  exists kcp2. rewrite (flush_sent_cons _ _ _ _ s buf), (flush_sent_cons _ _ _ _ s []), app_nil_r in *.
  split_and!.
  - simpl. rewrite <- !orb_assoc.
    replace (Z.of_nat (length (if is_due kcp resent FastResend s then _ else _))) with
      (Z.b2z (is_due kcp resent FastResend s) +
       Z.of_nat (length (List.filter (is_due kcp resent FastResend) buf)));
      [by rewrite Z.add_assoc|]. destruct (is_due kcp resent FastResend s); simpl; lia.
  - by apply (writing_kcp kcp1 kcp).
  - congruence.
  - rewrite Hst2, Hst. simpl. by destruct (flush_dead _ _ _ _ s), (existsb _ _).
Qed.
