(* ===== verification/KcpTypes.v ===== *)
(** * KCP: every field keeps its C type

    The model keeps the fields of [ikcp.h] as integers.  [kcp_typed] says that
    each is in the range of its declared type ([IUINT32], [IINT32], [int]), in the
    segments of the four queues and the list of acknowledgements too.  A call
    with arguments of the declared types keeps it, on any typed control block,
    and its result has the declared type: the wrap-arounds written out in the
    definitions are all that the machine does. *)

From S2P Require Import Prelude KcpBase KcpWire KcpSend KcpNumbered KcpRecv KcpAck KcpInput KcpInv KcpFlush.

Open Scope outcome_scope.

Record seg_typed (s : IKCPSEG) : Prop := {
  st_conv : is_u32 (seg_conv s); st_cmd : is_u32 (seg_cmd s); st_frg : is_u32 (seg_frg s);
  st_wnd : is_u32 (seg_wnd s); st_ts : is_u32 (seg_ts s); st_sn : is_u32 (seg_sn s);
  st_una : is_u32 (seg_una s); st_len : is_u32 (seg_len s); st_resendts : is_u32 (seg_resendts s);
  st_rto : is_u32 (seg_rto s); st_fastack : is_u32 (seg_fastack s); st_xmit : is_u32 (seg_xmit s)
}.

Record kcp_typed (k : ikcpcb) : Prop := {
  kt_conv : is_u32 (kcp_conv k); kt_mtu : is_u32 (kcp_mtu k); kt_mss : is_u32 (kcp_mss k);
  kt_state : is_u32 (kcp_state k); kt_snd_una : is_u32 (kcp_snd_una k);
  kt_snd_nxt : is_u32 (kcp_snd_nxt k); kt_rcv_nxt : is_u32 (kcp_rcv_nxt k);
  kt_ts_recent : is_u32 (kcp_ts_recent k); kt_ts_lastack : is_u32 (kcp_ts_lastack k);
  kt_ssthresh : is_u32 (kcp_ssthresh k);
  kt_rx_rttval : is_s32 (kcp_rx_rttval k); kt_rx_srtt : is_s32 (kcp_rx_srtt k);
  kt_rx_rto : is_s32 (kcp_rx_rto k); kt_rx_minrto : is_s32 (kcp_rx_minrto k);
  kt_snd_wnd : is_u32 (kcp_snd_wnd k); kt_rcv_wnd : is_u32 (kcp_rcv_wnd k);
  kt_rmt_wnd : is_u32 (kcp_rmt_wnd k); kt_cwnd : is_u32 (kcp_cwnd k);
  kt_probe : is_u32 (kcp_probe k); kt_current : is_u32 (kcp_current k);
  kt_interval : is_u32 (kcp_interval k); kt_ts_flush : is_u32 (kcp_ts_flush k);
  kt_xmit : is_u32 (kcp_xmit k); kt_nrcv_buf : is_u32 (kcp_nrcv_buf k);
  kt_nsnd_buf : is_u32 (kcp_nsnd_buf k); kt_nrcv_que : is_u32 (kcp_nrcv_que k);
  kt_nsnd_que : is_u32 (kcp_nsnd_que k); kt_nodelay : is_u32 (kcp_nodelay k);
  kt_updated : is_u32 (kcp_updated k); kt_ts_probe : is_u32 (kcp_ts_probe k);
  kt_probe_wait : is_u32 (kcp_probe_wait k); kt_dead_link : is_u32 (kcp_dead_link k);
  kt_incr : is_u32 (kcp_incr k);
  kt_snd_queue : Forall seg_typed (kcp_snd_queue k); kt_rcv_queue : Forall seg_typed (kcp_rcv_queue k);
  kt_snd_buf : Forall seg_typed (kcp_snd_buf k); kt_rcv_buf : Forall seg_typed (kcp_rcv_buf k);
  kt_acklist : Forall is_u32 (kcp_acklist k);
  kt_ackcount : is_u32 (kcp_ackcount k); kt_ackblock : is_u32 (kcp_ackblock k);
  kt_fastresend : is_s32 (kcp_fastresend k); kt_nocwnd : is_s32 (kcp_nocwnd k);
  kt_stream : is_s32 (kcp_stream k)
}.

(** The calls of the interface, with their arguments, and the execution of one:
    the value it returns (0 for a [void] function) and the new block. *)
Inductive call :=
  | CSend (buffer : bytes) (len : Z) | CRecv (buffer : bool) (len : Z) | CPeeksize | CWaitsnd
  | CInput (data : bytes) | CFlush | CUpdate (current : Z) | CCheck (current : Z)
  | CSetmtu (mtu : Z) | CWndsize (sndwnd rcvwnd : Z) | CInterval (interval : Z)
  | CNodelay (nodelay interval resend nc : Z) | CSetoutput.

Definition call_typed (c : call) : Prop :=
  match c with
  | CSend _ len | CRecv _ len => is_s32 len
  | CUpdate current | CCheck current => is_u32 current
  | CSetmtu z | CInterval z => is_s32 z
  | CWndsize a b => is_s32 a /\ is_s32 b
  | CNodelay a b c d => is_s32 a /\ is_s32 b /\ is_s32 c /\ is_s32 d
  | CPeeksize | CWaitsnd | CInput _ | CFlush | CSetoutput => True
  end.

(** [ikcp_check] returns an [IUINT32], the others an [int]. *)
Definition result_typed (c : call) (ret : Z) : Prop :=
  match c with CCheck _ => is_u32 ret | _ => is_s32 ret end.

Definition exec_call (c : call) (k : ikcpcb) : outcome (Z * ikcpcb) :=
  match c with
  | CSend buffer len => ikcp_send k buffer len
  | CRecv buffer len => let* (ret, _, k) := ikcp_recv k buffer len in Ok (ret, k)
  | CPeeksize => Ok (ikcp_peeksize k, k)
  | CWaitsnd => Ok (ikcp_waitsnd k, k)
  | CInput data => Ok (ikcp_input k data)
  | CFlush => let* (k, _) := ikcp_flush k in Ok (0, k)
  | CUpdate current => let* (k, _) := ikcp_update k current in Ok (0, k)
  | CCheck current => Ok (ikcp_check k current, k)
  | CSetmtu mtu => Ok (ikcp_setmtu k mtu)
  | CWndsize a b => Ok (ikcp_wndsize k a b)
  | CInterval i => Ok (ikcp_interval k i)
  | CNodelay a b c d => Ok (ikcp_nodelay k a b c d)
  | CSetoutput => Ok (0, ikcp_setoutput k)
  end.

Fixpoint exec_calls (cs : list call) (k : ikcpcb) : outcome (list Z * ikcpcb) :=
  match cs with
  | [] => Ok ([], k)
  | c :: cs =>
      let* (ret, k) := exec_call c k in
      let* (rets, k) := exec_calls cs k in
      Ok (ret :: rets, k)
  end.

(** ** Automation: a field that is written gets a value in range, the others
    keep theirs *)

Lemma u32_lit z : (0 <=? z) && (z <? 4294967296) = true -> is_u32 z.
Proof. intros H. reflect_bools. unfold is_u32. lia. Qed.
Lemma s32_lit z : (-2147483648 <=? z) && (z <? 2147483648) = true -> is_s32 z.
Proof. intros H. reflect_bools. unfold is_s32. lia. Qed.

Create HintDb typed.
#[export] Hint Resolve u32_range s32_range : typed.
#[export] Hint Extern 2 (is_u32 _) => (apply u32_lit; reflexivity) : typed.
#[export] Hint Extern 2 (is_s32 _) => (apply s32_lit; reflexivity) : typed.
#[export] Hint Extern 1 (Forall _ (_ ++ _)) => (apply Forall_app; split) : typed.
#[export] Hint Constructors Forall : typed.

Ltac typed :=
  match goal with
  | |- kcp_typed _ => repeat match goal with H : kcp_typed _ |- _ => destruct H end
  | |- seg_typed _ => repeat match goal with H : seg_typed _ |- _ => destruct H end
  end; constructor; cbn; auto with typed.

Lemma lor_typed a b : is_u32 a -> is_u32 b -> is_u32 (Z.lor a b).
Proof.
  unfold is_u32. intros [Ha Ha'] [Hb Hb']. split; [by apply Z.lor_nonneg|].
  destruct (Z.eq_dec (Z.lor a b) 0) as [->|Hne]; [lia|].
  change 4294967296 with (2 ^ 32). apply Z.log2_lt_pow2; [pose proof (proj2 (Z.lor_nonneg a b)); lia|].
  rewrite Z.log2_lor by done. apply Z.max_lub_lt.
  - destruct (Z.eq_dec a 0) as [->|]; [done|]. apply Z.log2_lt_pow2; lia.
  - destruct (Z.eq_dec b 0) as [->|]; [done|]. apply Z.log2_lt_pow2; lia.
Qed.
#[export] Hint Resolve lor_typed : typed.

Lemma create_typed conv : is_u32 conv -> kcp_typed (ikcp_create conv).
Proof. intros H. typed. Qed.

(** ** Settings *)

Lemma setmtu_typed k mtu : kcp_typed k -> kcp_typed (ikcp_setmtu k mtu).2.
Proof. intros H. unfold ikcp_setmtu. destruct (_ || _); [done|typed]. Qed.

Lemma max_typed a b : is_u32 a -> is_u32 b -> is_u32 (_imax_ a b).
Proof. rewrite _imax_spec. unfold is_u32. lia. Qed.
Lemma min_typed a b : is_u32 a -> is_u32 b -> is_u32 (_imin_ a b).
Proof. rewrite _imin_spec. unfold is_u32. lia. Qed.
#[export] Hint Resolve max_typed min_typed : typed.

Lemma wndsize_typed k a b : kcp_typed k -> kcp_typed (ikcp_wndsize k a b).2.
Proof. intros H. unfold ikcp_wndsize. destruct (a >? 0), (b >? 0); typed. Qed.

Lemma nodelay_typed k a b c d :
  is_s32 c -> is_s32 d -> kcp_typed k -> kcp_typed (ikcp_nodelay k a b c d).2.
Proof.
  intros Hc Hd H. unfold ikcp_nodelay.
  destruct (a >=? 0), (negb (a =? 0)), (b >=? 0), (c >=? 0), (d >=? 0); typed.
Qed.

(** ** Sending *)

Lemma segment_new_typed : seg_typed ikcp_segment_new.
Proof. typed. Qed.

Lemma seg_in l s : Forall seg_typed l -> s ∈ l -> seg_typed s.
Proof. rewrite Forall_forall. auto. Qed.
Lemma segs_take n l : Forall seg_typed l -> Forall seg_typed (take n l).
Proof. apply Forall_take. Qed.

Lemma send_stream_typed k buffer len k' buffer' len' :
  send_stream k buffer len = (k', buffer', len') -> kcp_typed k -> kcp_typed k'.
Proof.
  unfold send_stream. intros E H. destruct (last _) as [old|]; [|by injection E as <- <- <-].
  destruct (_ <? _); [|by injection E as <- <- <-]. injection E as <- <- <-.
  pose proof (kt_snd_queue _ H). typed. apply Forall_app. split; [by apply Forall_take|].
  constructor; [|done]. typed.
Qed.

Lemma send_loop_typed n i count buffer len k : kcp_typed k -> kcp_typed (send_loop n i count buffer len k).
Proof.
  revert i buffer len k. induction n as [|n IH]; intros i buffer len k H; [done|]. cbn [send_loop].
  apply IH. typed. apply Forall_app. split; [done|]. constructor; [|done].
  constructor; cbn; auto with typed. destruct (_ =? _); auto with typed.
Qed.

(** What a call does: it returns a value and a block in range, or an assertion fails. *)
Definition sound (c : call) (r : outcome (Z * ikcpcb)) : Prop :=
  match r with
  | Ok (ret, k) => result_typed c ret /\ kcp_typed k
  | Crash e => e = AssertFailed
  end.

Lemma send_typed k buffer len : kcp_typed k -> sound (CSend buffer len) (ikcp_send k buffer len).
Proof.
  intros H. unfold ikcp_send. destruct (negb _); [done|]. destruct (len <? 0); [by split; [apply s32_lit|]|].
  destruct (if negb (kcp_stream k =? 0) then _ else _) as [[k1 buffer1] len1] eqn:E.
  assert (H1 : kcp_typed k1).
  { destruct (negb _); [by eapply send_stream_typed|by injection E as <- <- <-]. }
  destruct (negb (kcp_stream k1 =? 0) && _); [by split; [apply s32_lit|]|].
  destruct (_ >=? _); [by split; [apply s32_lit|]|]. split; [by apply s32_lit|]. by apply send_loop_typed.
Qed.

(** ** Receiving *)

Lemma peek_loop_typed q n : is_s32 n -> is_s32 (peek_loop q n).
Proof.
  revert n. induction q as [|seg q IH]; intros n H; cbn [peek_loop]; [done|].
  destruct (_ =? _); auto with typed.
Qed.

Lemma peeksize_typed k : is_s32 (ikcp_peeksize k).
Proof.
  unfold ikcp_peeksize. destruct (kcp_rcv_queue k); [auto with typed|].
  destruct (_ =? _); [auto with typed|]. destruct (_ <? _); [auto with typed|].
  apply peek_loop_typed. auto with typed.
Qed.

Lemma recv_merge_typed q ispeek buffer out len k out' len' k' :
  recv_merge q ispeek buffer out len k = (out', len', k') ->
  Forall seg_typed q -> is_s32 len -> kcp_typed k -> is_s32 len' /\ kcp_typed k'.
Proof.
  revert out len k. induction q as [|seg q IH]; intros out len k; cbn [recv_merge].
  { by intros [= <- <- <-]. }
  intros E Hq Hl H. inversion Hq; subst. set (k1 := if negb ispeek then _ else _) in E.
  assert (H1 : kcp_typed k1) by (subst k1; destruct (negb ispeek); [typed|done]).
  clearbody k1. destruct (_ =? 0).
  - injection E as <- <- <-. auto with typed.
  - eapply IH; [exact E|auto with typed..].
Qed.

Lemma move_ready_typed buf k : Forall seg_typed buf -> kcp_typed k -> kcp_typed (move_ready buf k).
Proof.
  revert k. induction buf as [|seg buf IH]; intros k Hb H; cbn [move_ready]; [done|].
  inversion Hb; subst. destruct (_ && _); [|done]. apply IH; [done|]. typed.
Qed.

Lemma recv_typed k buffer len :
  kcp_typed k -> sound (CRecv buffer len) (let* (ret, _, k) := ikcp_recv k buffer len in Ok (ret, k)).
Proof.
  intros H. unfold ikcp_recv. destruct (kcp_rcv_queue k) as [|seg q] eqn:Eq; [by split; [apply s32_lit|]|].
  rewrite <- Eq. destruct (ikcp_peeksize k <? 0); [by split; [apply s32_lit|]|].
  destruct (_ >? _); [by split; [apply s32_lit|]|].
  destruct (recv_merge _ _ _ _ _ _) as [[out len'] k'] eqn:E.
  destruct (recv_merge_typed _ _ _ _ _ _ _ _ _ E (kt_rcv_queue _ H)) as [Hl H1]; [auto with typed|done|].
  destruct (negb _); [done|]. split; [done|].
  pose proof (move_ready_typed _ _ (kt_rcv_buf _ H1) H1) as H2.
  destruct (_ && _); [|done]. typed.
Qed.

(** ** Acknowledgements *)

Lemma update_ack_typed k rtt : is_s32 rtt -> kcp_typed k -> kcp_typed (ikcp_update_ack k rtt).
Proof.
  intros Hr H. unfold ikcp_update_ack.
  assert (Hq : forall a b, is_s32 a -> 1 < b -> is_s32 (Z.quot a b)).
  { unfold is_s32. intros a b Ha Hb. pose proof (Z.quot_rem' a b). pose proof (Z.rem_bound_abs a b).
    Z.quot_rem_to_equations. nia. }
  set (k1 := if kcp_rx_srtt k =? 0 then _ else _).
  assert (H1 : kcp_typed k1); [|clearbody k1; typed].
  subst k1. destruct (_ =? 0); [typed; apply Hq; [done|lia]|].
  destruct (_ <? 1) in |- *; typed; apply Hq; auto with typed; lia.
Qed.

Lemma shrink_typed k : kcp_typed k -> kcp_typed (ikcp_shrink_buf k).
Proof.
  intros H. unfold ikcp_shrink_buf. pose proof (kt_snd_buf _ H) as Hb.
  destruct (kcp_snd_buf k) as [|seg buf] eqn:E; [typed|]. inversion Hb as [|? ? [] ?]; subst.
  typed.
Qed.

Lemma ack_scan_typed buf sn buf' :
  ack_scan buf sn = Some buf' -> Forall seg_typed buf -> Forall seg_typed buf'.
Proof.
  revert buf'. induction buf as [|seg buf IH]; intros buf'; cbn [ack_scan]; [done|].
  intros E H. inversion H; subst. destruct (_ =? _); [by injection E as <-|].
  destruct (_ <? _); [done|]. destruct (ack_scan buf sn) as [l|]; [|done].
  injection E as <-. constructor; auto.
Qed.

Lemma parse_ack_typed k sn : kcp_typed k -> kcp_typed (ikcp_parse_ack k sn).
Proof.
  intros H. unfold ikcp_parse_ack. destruct (_ || _); [done|].
  destruct (ack_scan _ _) as [buf|] eqn:E; [|done].
  pose proof (ack_scan_typed _ _ _ E (kt_snd_buf _ H)). typed.
Qed.

Lemma una_loop_typed buf una k : Forall seg_typed buf -> kcp_typed k -> kcp_typed (una_loop buf una k).
Proof.
  revert k. induction buf as [|seg buf IH]; intros k Hb H; cbn [una_loop]; [done|].
  inversion Hb; subst. destruct (_ >? 0); [|done]. apply IH; [done|]. typed.
Qed.

Lemma fastack_scan_typed buf sn : Forall seg_typed buf -> Forall seg_typed (fastack_scan buf sn).
Proof.
  induction 1 as [|seg buf Hs Hb IH]; cbn [fastack_scan]; [constructor|].
  destruct (_ <? 0); [by constructor|]. constructor; [|done]. destruct (negb _); [typed|done].
Qed.

Lemma parse_fastack_typed k sn : kcp_typed k -> kcp_typed (ikcp_parse_fastack k sn).
Proof.
  intros H. unfold ikcp_parse_fastack. destruct (_ || _); [done|].
  pose proof (fastack_scan_typed _ sn (kt_snd_buf _ H)). typed.
Qed.

Lemma ack_push_typed k sn ts : is_u32 sn -> is_u32 ts -> kcp_typed k -> kcp_typed (ikcp_ack_push k sn ts).
Proof.
  intros Hsn Hts H. unfold ikcp_ack_push. set (k1 := ack_reserve _ _).
  assert (H1 : kcp_typed k1).
  { subst k1. unfold ack_reserve. destruct (_ >? _); [|done]. pose proof (kt_acklist _ H).
    typed. apply Forall_app. split; [by apply Forall_take|]. apply Forall_drop.
    apply Forall_replicate. auto with typed. }
  clearbody k1. pose proof (kt_acklist _ H1) as Ha. typed. by repeat apply Forall_insert.
Qed.

(** ** Input *)

Lemma parse_data_typed k seg : seg_typed seg -> kcp_typed k -> kcp_typed (ikcp_parse_data k seg).
Proof.
  intros Hs H. unfold ikcp_parse_data. destruct (_ || _); [done|].
  set (k1 := match _ with Some _ => _ | None => _ end).
  assert (H1 : kcp_typed k1); [|apply move_ready_typed; [apply H1|done]].
  subst k1. destruct (rcv_scan _ _ _) as [[before after]|] eqn:E; [|done].
  assert (Hscan : forall rbuf sn acc b a, rcv_scan rbuf sn acc = Some (b, a) ->
            Forall seg_typed rbuf -> Forall seg_typed acc -> Forall seg_typed b /\ Forall seg_typed a).
  { induction rbuf as [|s rbuf IH]; intros sn acc b a; cbn [rcv_scan]; [by intros [= <- <-]|].
    intros Ea Hr Hacc. inversion Hr; subst. destruct (_ =? _); [done|].
    destruct (_ >? 0); [injection Ea as <- <-; by split; [constructor|]|].
    eapply IH; [exact Ea|done|by constructor]. }
  destruct (Hscan _ _ _ _ _ E) as [Hb Ha]; [by apply Forall_reverse, H|constructor|].
  typed. apply Forall_app. split; [by apply Forall_reverse|by constructor].
Qed.

Lemma segment_of_typed h data : header_wf h -> seg_typed (segment_of h data).
Proof.
  intros []. constructor; cbn; auto with typed; word.
Qed.

Lemma input_segment_typed k h data flag maxack k' flag' maxack' :
  input_segment k h data flag maxack = (k', flag', maxack') ->
  header_wf h -> kcp_typed k -> kcp_typed k'.
Proof.
  unfold input_segment. intros E Hh H. set (k1 := input_una k h) in E.
  assert (H1 : kcp_typed k1).
  { subst k1. unfold input_una, ikcp_parse_una. apply shrink_typed, una_loop_typed; [apply H|].
    destruct Hh. typed. word. }
  clearbody k1. destruct (_ =? IKCP_CMD_ACK).
  { assert (H2 : kcp_typed (input_ack k1 h)).
    { unfold input_ack. apply shrink_typed, parse_ack_typed. destruct (_ >=? 0); [|done].
      apply update_ack_typed; [apply _itimediff_range|done]. }
    destruct (negb flag); [by injection E as <- _ _|].
    destruct (_ >? 0); by injection E as <- _ _. }
  destruct (_ =? IKCP_CMD_PUSH).
  { injection E as <- _ _. unfold input_push. destruct (_ <? 0); [|done].
    assert (H2 : kcp_typed (ikcp_ack_push k1 (h_sn h) (h_ts h))) by (destruct Hh; by apply ack_push_typed).
    destruct (_ >=? 0); [|done]. apply parse_data_typed; [by apply segment_of_typed|done]. }
  destruct (_ =? IKCP_CMD_WASK); injection E as <- _ _; [typed|done].
Qed.

Lemma input_loop_typed fuel k data flag maxack :
  kcp_typed k ->
  match input_loop fuel k data flag maxack with
  | Break k' _ _ => kcp_typed k'
  | Return ret k' => is_s32 ret /\ kcp_typed k'
  end.
Proof.
  revert k data flag maxack. induction fuel as [|fuel IH]; intros k data flag maxack H; cbn [input_loop]; [done|].
  destruct (_ <? _); [done|]. pose proof (decode_header_wf data) as Hh.
  destruct (decode_header data) as [h data1]. cbn in Hh.
  destruct (negb _); [by split; [apply s32_lit|]|]. destruct (_ || _); [by split; [apply s32_lit|]|].
  destruct (negb _); [by split; [apply s32_lit|]|].
  destruct (input_segment k h data1 flag maxack) as [[k1 flag1] maxack1] eqn:E.
  apply IH. by eapply input_segment_typed.
Qed.

Lemma grow_cwnd_typed k : kcp_typed k -> kcp_typed (grow_cwnd k).
Proof.
  intros H. unfold grow_cwnd. destruct (_ <? _); [|done].
  set (k1 := if kcp_cwnd k <? kcp_ssthresh k then _ else _).
  assert (H1 : kcp_typed k1); [|clearbody k1; destruct (_ >? _); [typed; apply H|done]].
  subst k1. destruct (_ <? kcp_ssthresh k); [typed|].
  set (k2 := if kcp_incr k <? kcp_mss k then _ else _).
  assert (H2 : kcp_typed k2) by (subst k2; destruct (_ <? _); [typed|done]).
  clearbody k2. destruct (_ <=? _); typed.
Qed.

Lemma input_typed k data : kcp_typed k -> sound (CInput data) (Ok (ikcp_input k data)).
Proof.
  intros H. unfold ikcp_input. destruct (_ <? _); [by split; [apply s32_lit|]|].
  pose proof (input_loop_typed (S (length data)) k data false 0 H) as Hl.
  destruct (input_loop _ _ _ _ _) as [k1 flag maxack|ret k1]; [|done].
  split; [by apply s32_lit|]. unfold input_finish. set (k2 := if flag then _ else _).
  assert (H2 : kcp_typed k2) by (subst k2; destruct flag; [by apply parse_fastack_typed|done]).
  destruct (_ >? 0); [by apply grow_cwnd_typed|done].
Qed.

(** ** Flushing *)

(** The value of a computation satisfies [P]; it only fails an assertion. *)
Definition yields {A} (P : A -> Prop) (m : outcome A) : Prop :=
  match m with Ok a => P a | Crash e => e = AssertFailed end.

Lemma yields_bind {A B} (P : A -> Prop) (Q : B -> Prop) m (f : A -> outcome B) :
  yields P m -> (forall a, P a -> yields Q (f a)) -> yields Q (bind m f).
Proof. destruct m; cbn; auto. Qed.

Lemma room_yields k need w : yields (fun _ => True) (flush_room k need w).
Proof. unfold flush_room, ikcp_output, assert_. destruct (_ >? _), (kcp_output k); done. Qed.

Lemma header_yields k seg w : yields (fun _ => True) (flush_header k seg w).
Proof. eapply yields_bind; [apply room_yields|done]. Qed.

Lemma ack_get_typed k i : kcp_typed k -> is_u32 (ikcp_ack_get k i).1 /\ is_u32 (ikcp_ack_get k i).2.
Proof.
  intros H. assert (Hn : forall n, is_u32 (nth n (kcp_acklist k) 0)).
  { intros n. generalize n. induction (kt_acklist _ H) as [|x l Hx Hl IH]; intros [|m]; cbn; auto with typed. }
  split; apply Hn.
Qed.

Lemma flush_acks_typed n i k seg w :
  kcp_typed k -> seg_typed seg -> yields (fun r => seg_typed r.1) (flush_acks n i k seg w).
Proof.
  intros H. revert i seg w. induction n as [|n IH]; intros i seg w Hs; cbn [flush_acks]; [done|].
  pose proof (ack_get_typed k i H) as [H1 H2]. destruct (ikcp_ack_get k i) as [sn ts]. cbn in H1, H2.
  eapply yields_bind; [apply header_yields|]. intros w' _. apply IH. typed.
Qed.

Lemma flush_cmd_typed k bit cmd seg w :
  is_u32 cmd -> seg_typed seg -> yields (fun r => seg_typed r.1) (flush_cmd k bit cmd seg w).
Proof.
  intros Hc Hs. unfold flush_cmd. destruct (negb _); [|done].
  eapply yields_bind; [apply header_yields|]. intros w' _. cbn. typed.
Qed.

Lemma probe_typed k : kcp_typed k -> kcp_typed (flush_probe k).
Proof.
  intros H. unfold flush_probe. destruct (_ =? 0); [|typed]. destruct (_ =? 0); [typed|].
  destruct (_ >=? 0); [|done]. destruct (_ >? IKCP_PROBE_LIMIT); typed.
Qed.

Lemma move_typed q cwnd wnd k :
  is_u32 wnd -> Forall seg_typed q -> kcp_typed k -> kcp_typed (flush_move q cwnd wnd k).
Proof.
  intros Hw. revert k. induction q as [|seg q IH]; intros k Hq H; cbn [flush_move]; destruct (_ <? 0); try done.
  inversion Hq as [|? ? Hs Hq']; subst. apply IH; [done|].
  assert (Hn : seg_typed (flush_newseg k wnd seg)) by (destruct H; typed).
  typed.
Qed.

Lemma mark_typed k rtomin d seg : kcp_typed k -> seg_typed seg -> seg_typed (flush_mark k rtomin d seg).
Proof. intros H Hs. destruct d; cbn; [..|done]; typed. Qed.

Lemma flush_one_typed seg resent rtomin wnd k change lost w :
  is_u32 wnd -> seg_typed seg -> kcp_typed k ->
  yields (fun '(seg', k', _, _, _) => seg_typed seg' /\ kcp_typed k')
    (flush_one seg resent rtomin wnd k change lost w).
Proof.
  intros Hw Hs H. unfold flush_one. set (d := flush_due k resent seg). clearbody d.
  pose proof (mark_typed k rtomin d seg H Hs) as Hm. set (seg1 := flush_mark _ _ _ _) in *. clearbody seg1.
  set (k1 := match d with Timeout => _ | _ => k end).
  assert (H1 : kcp_typed k1) by (subst k1; destruct d; [done|typed|done|done]). clearbody k1.
  assert (Hst : seg_typed (flush_stamp k1 wnd seg1)) by (destruct H1; typed).
  assert (Hgo : forall (c : Z) (l : bool), yields (fun '(seg', k', _, _, _) => seg_typed seg' /\ kcp_typed k')
    (let* w := flush_write k1 (flush_stamp k1 wnd seg1) w in
     Ok (flush_stamp k1 wnd seg1,
         (if seg_xmit (flush_stamp k1 wnd seg1) >=? kcp_dead_link k1 then k1 <| kcp_state := 4294967295 |> else k1),
         c, l, w))).
  { intros c l. apply (yields_bind (fun _ => True)); [by eapply yields_bind; [apply room_yields|]|].
    intros w' _. cbn [yields]. split; [done|].
    destruct (_ >=? _); [typed|done]. }
  destruct d; [apply Hgo..|done].
Qed.

Lemma flush_data_typed buf resent rtomin wnd k change lost w :
  is_u32 wnd -> Forall seg_typed buf -> kcp_typed k ->
  yields (fun '(buf', k', _, _, _) => Forall seg_typed buf' /\ kcp_typed k')
    (flush_data buf resent rtomin wnd k change lost w).
Proof.
  intros Hw Hb. revert k change lost w. induction Hb as [|seg buf Hs Hb IH]; intros k change lost w H.
  { by split. }
  cbn [flush_data]. eapply yields_bind; [by apply flush_one_typed|].
  intros [[[[seg1 k1] c1] l1] w1] [Hs1 H1]. eapply yields_bind; [by apply IH|].
  intros [[[[buf2 k2] c2] l2] w2] [Hb2 H2]. cbn. auto.
Qed.

Lemma half_typed a : is_u32 a -> is_u32 (a / 2).
Proof. word. Qed.
#[export] Hint Resolve half_typed : typed.

Lemma window_typed k : kcp_typed k -> is_u32 (flush_window k).
Proof. intros []. unfold flush_window. destruct (_ =? 0); auto with typed. Qed.

Lemma flush_cwnd_typed k resent cwnd change lost :
  is_u32 cwnd -> kcp_typed k -> kcp_typed (flush_cwnd k resent cwnd change lost).
Proof.
  intros Hc H. unfold flush_cwnd. set (k1 := if negb _ then _ else _).
  assert (H1 : kcp_typed k1).
  { subst k1. destruct (negb _); [|done]. destruct (_ <? _); typed. }
  clearbody k1. set (k2 := if lost then _ else _).
  assert (H2 : kcp_typed k2).
  { subst k2. destruct lost; [|done]. destruct (_ <? _); typed. }
  clearbody k2. destruct (_ <? 1); [typed|done].
Qed.

Lemma flush_typed k : kcp_typed k -> yields (fun r => kcp_typed r.1) (ikcp_flush k).
Proof.
  intros H. unfold ikcp_flush. destruct (_ =? 0); [done|].
  eapply yields_bind.
  { apply flush_acks_typed; [done|]. destruct H. unfold flush_seg. constructor; cbn; auto with typed. }
  intros [seg1 w1] Hs1. cbn in Hs1. eapply yields_bind; [apply flush_cmd_typed; [by apply u32_lit|done]|].
  intros [seg2 w2] Hs2. cbn in Hs2. eapply yields_bind; [apply flush_cmd_typed; [by apply u32_lit|done]|].
  intros [seg3 w3] Hs3. cbn in Hs3.
  set (k1 := flush_probe _ <| kcp_probe := 0 |>).
  assert (H1 : kcp_typed k1).
  { assert (H0 : kcp_typed (flush_probe (k <| kcp_ackcount := 0 |>))) by (apply probe_typed; typed).
    subst k1. typed. }
  clearbody k1. set (k2 := flush_move _ _ _ _).
  assert (H2 : kcp_typed k2) by (apply move_typed; [apply Hs3|apply H1|done]). clearbody k2.
  eapply yields_bind; [apply flush_data_typed; [apply Hs3|apply H2|exact H2]|].
  intros [[[[buf k3] change] lost] w] [Hb H3]. apply (yields_bind (fun _ => True)).
  { destruct (w_ptr w); [done|]. unfold ikcp_output, assert_. by destruct (kcp_output _). }
  intros sent _. cbn. apply flush_cwnd_typed; [by apply window_typed|]. typed.
Qed.

Lemma update_typed k current :
  is_u32 current -> kcp_typed k -> yields (fun r => kcp_typed r.1) (ikcp_update k current).
Proof.
  intros Hc H. unfold ikcp_update. set (k1 := if _ =? 0 then _ else _).
  assert (H1 : kcp_typed k1) by (subst k1; destruct (_ =? 0); typed). clearbody k1. unfold update_tick.
  destruct (if (_ >=? 10000) || _ then _ else _) as [k2 slap] eqn:E.
  assert (H2 : kcp_typed k2) by (destruct (_ || _); injection E as <- _; [destruct H1; typed|done]).
  destruct (slap >=? 0); [|done]. apply flush_typed. destruct (_ >=? 0); typed.
Qed.

Lemma check_typed k current : is_u32 current -> is_u32 (ikcp_check k current).
Proof.
  intros Hc. unfold ikcp_check. destruct (_ =? 0); [done|]. destruct (_ >=? 0); [done|].
  destruct (check_loop _ _ _); auto with typed.
Qed.

(** ** The theorem *)

Lemma call_sound c k : call_typed c -> kcp_typed k -> sound c (exec_call c k).
Proof.
  intros Hc H. destruct c; cbn in Hc |- *.
  - by apply send_typed.
  - by apply recv_typed.
  - split; [apply peeksize_typed|done].
  - split; [apply s32_range|done].
  - by apply input_typed.
  - pose proof (flush_typed k H) as Hf. destruct (ikcp_flush k) as [[k' out]|e]; [|done].
    by split; [apply s32_lit|].
  - pose proof (update_typed k current Hc H) as Hf. destruct (ikcp_update k current) as [[k' out]|e]; [|done].
    by split; [apply s32_lit|].
  - split; [by apply check_typed|done].
  - pose proof (setmtu_typed k mtu H). unfold ikcp_setmtu in *. destruct (_ || _); by split; [apply s32_lit|].
  - pose proof (wndsize_typed k sndwnd rcvwnd H). by split; [apply s32_lit|].
  - split; [by apply s32_lit|]. typed.
  - destruct Hc as (_ & _ & Hr & Hn). pose proof (nodelay_typed k nodelay interval resend nc Hr Hn H).
    by split; [apply s32_lit|].
  - split; [by apply s32_lit|]. unfold ikcp_setoutput. typed.
Qed.

(** Type soundness: calls with arguments of the declared types, on a
    control block whose fields, queued segments and acknowledgements are in the
    range of their C types (a new one is), return values in range and lead to
    such a control block again, up to the first assertion that fails. *)
Theorem kcp_type_sound k cs :
  kcp_typed k -> Forall call_typed cs ->
  match exec_calls cs k with
  | Ok (rets, k') => Forall2 result_typed cs rets /\ kcp_typed k'
  | Crash e => e = AssertFailed
  end.
Proof.
  intros H Hcs. revert k H. induction Hcs as [|c cs Hc Hcs IH]; intros k H; [by split|].
  cbn [exec_calls]. pose proof (call_sound c k Hc H) as Hs.
  destruct (exec_call c k) as [[ret k1]|e]; [|done]. destruct Hs as [Hr H1]. cbn [bind].
  specialize (IH k1 H1). destruct (exec_calls cs k1) as [[rets k2]|e]; [|done].
  destruct IH. cbn. auto.
Qed.

(** A message is sent, the clock goes around, and bytes arrive. *)
Definition demo_calls : list call :=
  [CSetoutput; CNodelay 1 10 2 1; CSend (replicate 5 (z2b 65)) 5; CUpdate 4294967290; CUpdate 20;
   CInput (replicate 30 (z2b 1)); CRecv true 100; CCheck 30; CWaitsnd].

Lemma demo_calls_run : exists k, exec_calls demo_calls (ikcp_create 7) = Ok ([0; 0; 0; 0; 0; -1; -1; 30; 1], k).
Proof. eexists. vm_compute. reflexivity. Qed.

Lemma kcp_type_sound_witness : exists k,
  exec_calls demo_calls (ikcp_create 7) = Ok ([0; 0; 0; 0; 0; -1; -1; 30; 1], k) /\ kcp_typed k.
Proof.
  destruct demo_calls_run as [k E]. exists k. split; [exact E|].
  pose proof (kcp_type_sound (ikcp_create 7) demo_calls) as H. rewrite E in H. apply H.
  - apply create_typed. by apply u32_lit.
  - unfold demo_calls. repeat constructor; apply s32_lit || apply u32_lit; reflexivity.
Defined.
