(* ===== verification/KcpFlushSpec.v ===== *)
(** * KCP: what a flush does

    [ikcp_flush] sends exactly the acknowledgements, probes and due data segments,
    packed into datagrams no longer than the MTU, moves segments into the window
    without exceeding it, and keeps the invariant; [ikcp_update] calls it when
    its time has come, [ikcp_check] says when that is. *)

From S2P Require Import Prelude KcpBase KcpWire KcpSend KcpNumbered KcpRecv KcpAck KcpInput KcpInv.
From S2P Require Import KcpFlush.

Open Scope outcome_scope.

(** ** Segments enter the window *)

Lemma numbered_snoc lo hi sp buf s :
  numbered lo hi sp buf -> lo <= hi -> seg_sn s = u32 hi ->
  numbered lo (hi + 1) (sp ++ [(hi, s)]) (buf ++ [s]).
Proof.
  intros [Hb Hs Hr Ho] Hlo Hsn. constructor.
  - by rewrite fmap_app, Hb.
  - apply Forall_app. split; [done|]. by constructor.
  - apply Forall_app. split; [|constructor; [simpl; lia | done]].
    eapply Forall_impl; [exact Hr|]. simpl. lia.
  - apply sorted_keys_snoc; [done|]. eapply Forall_impl; [exact Hr|]. simpl. lia.
Qed.

(** One iteration of the loop that fills the window. *)
Definition flush_take (kcp : ikcpcb) (wnd : Z) (newseg : IKCPSEG) (queue : list IKCPSEG) : ikcpcb :=
  kcp <| kcp_snd_queue := queue |>
      <| kcp_snd_buf := kcp_snd_buf kcp ++ [flush_newseg kcp wnd newseg] |>
      <| kcp_nsnd_que := u32 (kcp_nsnd_que kcp - 1) |>
      <| kcp_nsnd_buf := u32 (kcp_nsnd_buf kcp + 1) |>
      <| kcp_snd_nxt := u32 (kcp_snd_nxt kcp + 1) |>.

Lemma flush_take_inv una nxt sp n rp k wnd s queue :
  kcp_inv una nxt sp n rp k -> kcp_snd_queue k = s :: queue -> nxt - una < WINDOW_MAX ->
  kcp_inv una (nxt + 1) (sp ++ [(nxt, flush_newseg k wnd s)]) n rp (flush_take k wnd s queue).
Proof.
  intros [Hcfg Hsnd Htight Hgap Hrmt Hrcv Hack Hrseg Hsseg Hconv Hflight] Hq Hw.
  unfold WINDOW_MAX in *. pose proof Hsnd as [Hu Hx Hwin Hb Hnb Hnq].
  assert (Hs : seg_sn (flush_newseg k wnd s) = u32 nxt) by done.
  pose proof (numbered_snoc _ _ _ _ _ Hb ltac:(lia) Hs) as Hb'.
  apply numbered_window in Hb as Hl; [|lia].
  constructor; try done; try (by apply (rcv_wf_view n rp k)); try (by apply (ack_wf_view k)).
  - by apply (cfg_wf_view k).
  - constructor; try done; simpl.
    + by rewrite Hx, u32_add_l.
    + lia.
    + rewrite Hnb, length_app, u32_small; simpl; unfold is_u32; lia.
    + rewrite Hnq, u32_sub_l, Hq. simpl. f_equal. lia.
  - destruct sp; simpl in *; [done | by rewrite Htight].
  - unfold WINDOW_MAX. lia.
  - simpl. rewrite Hq in Hsseg. rewrite <- app_assoc.
    apply Forall_app in Hsseg as [H1 H2]. apply Forall_cons in H2 as [H2 H3].
    apply Forall_app. split; [done|]. simpl. constructor; [|done]. exact H2.
  - simpl. apply Forall_app. split; [done|]. by constructor.
Qed.

(** The fields the loop touches. *)
Definition erase_move (k : ikcpcb) : ikcpcb :=
  k <| kcp_snd_queue := [] |> <| kcp_snd_buf := [] |> <| kcp_nsnd_que := 0 |>
    <| kcp_nsnd_buf := 0 |> <| kcp_snd_nxt := 0 |>.

Lemma flush_move_inv wnd cwnd una n rp queue : forall nxt sp k,
  kcp_inv una nxt sp n rp k -> kcp_snd_queue k = queue -> 0 <= cwnd <= WINDOW_MAX ->
  let k' := flush_move queue cwnd wnd k in
  exists new nxt',
    kcp_inv una nxt' (sp ++ new) n rp k' /\
    nxt' = nxt + Z.of_nat (length new) /\ new.*1 = seqZ nxt (Z.of_nat (length new)) /\
    queue = take (length new) queue ++ kcp_snd_queue k' /\
    frag_of <$> new.*2 = frag_of <$> take (length new) queue /\
    Forall (fun s => seg_xmit s = 0) new.*2 /\
    nxt' - una <= Z.max (nxt - una) cwnd /\
    (kcp_snd_queue k' = [] \/ cwnd <= nxt' - una) /\
    erase_move k' = erase_move k.
Proof.
  induction queue as [|s queue IH]; intros nxt sp k H Hq Hc; cbv zeta; cbn [flush_move].
  { assert (Hif : (if _itimediff (kcp_snd_nxt k) (u32 (kcp_snd_una k + cwnd)) <? 0 then k else k) = k)
      by (by destruct (_ <? 0)).
    rewrite Hif. exists [], nxt. rewrite app_nil_r. simpl. split_and!; auto; lia. }
  pose proof (ki_snd _ _ _ _ _ _ H) as Hs. pose proof (ki_win _ _ _ _ _ _ H) as Hw.
  unfold WINDOW_MAX in *.
  rewrite (swf_nxt _ _ _ _ Hs), (swf_una _ _ _ _ Hs), u32_add_l, _itimediff_close
    by (pose proof (swf_win _ _ _ _ Hs); lia).
  destruct (_ <? 0) eqn:Hb; reflect_bools.
  - pose proof (flush_take_inv _ _ _ _ _ _ wnd s queue H Hq ltac:(unfold WINDOW_MAX; lia)) as H1.
    rewrite <- (swf_nxt _ _ _ _ Hs).
    destruct (IH _ _ _ H1 eq_refl Hc) as (new & nxt' & Hinv & Hn & Hk & Hqueue & Hf & Hx & Hm & Hstop & E).
    fold (flush_take k wnd s queue). set (k' := flush_move _ _ _ _) in *.
    exists ((nxt, flush_newseg k wnd s) :: new), nxt'. rewrite <- app_assoc in Hinv.
    split_and!; try done.
    + simpl. lia.
    + rewrite fmap_cons, seqZ_cons by (simpl; lia). simpl length. rewrite Hk.
      f_equal. f_equal; lia.
    + simpl. by rewrite <- Hqueue.
    + simpl. f_equal. exact Hf.
    + simpl. by constructor.
    + lia.
  - exists [], nxt. rewrite app_nil_r. simpl. split_and!; auto; lia.
Qed.

(** ** The whole flush *)

(** After the acknowledgements: the probe timer has run. *)
Definition flush_probed (k : ikcpcb) : ikcpcb := flush_probe (k <| kcp_ackcount := 0 |>).

Definition flush_wnd (k : ikcpcb) : Z := u32 (ikcp_wnd_unused k).

(** Before the loop over the send buffer: the window is filled. *)
Definition flush_ready (k : ikcpcb) : ikcpcb :=
  let k1 := flush_probed k <| kcp_probe := 0 |> in
  flush_move (kcp_snd_queue k1) (flush_window k1) (flush_wnd k) k1.

(** The data segments the flush sends. *)
Definition flush_pushes (k : ikcpcb) : list IKCPSEG :=
  let r := flush_ready k in
  flush_sent r (flush_resent r) (flush_rtomin r) (flush_wnd k) (kcp_snd_buf r).

(** The probe timer touches nothing else. *)
Definition erase_probe (k : ikcpcb) : ikcpcb :=
  k <| kcp_probe_wait := 0 |> <| kcp_ts_probe := 0 |> <| kcp_probe := 0 |>.

Lemma flush_probe_erase k : erase_probe (flush_probe k) = erase_probe k.
Proof. unfold flush_probe. by repeat bcase. Qed.

Lemma flush_move_erase queue cwnd wnd k : erase_move (flush_move queue cwnd wnd k) = erase_move k.
Proof.
  revert k. induction queue as [|s queue IH]; intros k; cbn [flush_move]; [by destruct (_ <? 0)|].
  destruct (_ <? 0); [|done]. by rewrite IH.
Qed.

(** What the flush has sent and not yet sent when it starts the data loop. *)
Definition erase_ready (k : ikcpcb) : ikcpcb :=
  erase_move (erase_probe (k <| kcp_ackcount := 0 |>)).

Lemma flush_ready_erase k : erase_ready (flush_ready k) = erase_ready k.
Proof.
  unfold flush_ready, flush_probed, erase_ready. cbv zeta.
  set (k1 := k <| kcp_ackcount := 0 |>). pose proof (flush_probe_erase k1) as E1.
  generalize dependent (flush_probe k1). intros k2 E1.
  pose proof (flush_move_erase (kcp_snd_queue (k2 <| kcp_probe := 0 |>))
    (flush_window (k2 <| kcp_probe := 0 |>)) (flush_wnd k) (k2 <| kcp_probe := 0 |>)) as E2.
  generalize dependent (flush_move (kcp_snd_queue (k2 <| kcp_probe := 0 |>))
    (flush_window (k2 <| kcp_probe := 0 |>)) (flush_wnd k) (k2 <| kcp_probe := 0 |>)). intros k3 E2.
  pose proof (f_equal kcp_ackcount E1 : kcp_ackcount k2 = 0).
  change (erase_move (erase_probe (k3 <| kcp_ackcount := 0 |>)))
    with (erase_probe (erase_move k3 <| kcp_ackcount := 0 |>)). rewrite E2.
  change (erase_move (erase_probe (k2 <| kcp_ackcount := 0 |>)) = erase_move (erase_probe k1)).
  change (erase_move (erase_probe k2) <| kcp_ackcount := 0 |> = erase_move (erase_probe k1)).
  rewrite E1. unfold k1. clear. destruct k. vm_compute. reflexivity.
Qed.

Lemma flush_probed_erase k : erase_probe (flush_probed k) = erase_probe (k <| kcp_ackcount := 0 |>).
Proof. apply flush_probe_erase. Qed.

(** The template keeps its window and has no payload. *)
Definition tmpl (k : ikcpcb) (seg : IKCPSEG) : Prop :=
  seg_conv seg = kcp_conv k /\ known_cmd (seg_cmd seg) = true /\ seg_wnd seg = flush_wnd k /\
  seg_len seg = 0 /\ seg_data seg = [] /\ seg_frg seg = 0 /\ seg_una seg = kcp_rcv_nxt k.

Lemma tmpl_last k seg segs : tmpl k seg -> Forall (tmpl k) segs -> tmpl k (default seg (last segs)).
Proof.
  intros Hs Hl. destruct (last segs) as [s|] eqn:E; [|done]. simpl.
  apply last_Some in E as [l ->]. by apply Forall_app in Hl as [_ [? _]%Forall_cons].
Qed.

Lemma tmpl_flush_seg k : tmpl k (flush_seg k).
Proof. repeat split; reflexivity. Qed.

Lemma tmpl_acks k seg l : tmpl k seg -> Forall (tmpl k) (ack_seg seg <$> l).
Proof.
  intros H. apply Forall_fmap, Forall_true. intros a. exact H.
Qed.

Lemma tmpl_cmd k k1 bit cmd seg :
  known_cmd cmd = true -> tmpl k seg -> Forall (tmpl k) (cmd_segments k1 bit cmd seg).
Proof.
  intros Hc (? & ? & ? & ? & ? & ? & ?). unfold cmd_segments. destruct (negb _); [|done].
  apply Forall_singleton. split_and!; assumption.
Qed.

(** The header-only segments, and the template at their end. *)
Definition flush_headers (k : ikcpcb) : list IKCPSEG * IKCPSEG :=
  let acked := ack_seg (flush_seg k) <$> acks k in
  let seg := default (flush_seg k) (last acked) in
  let asks := cmd_segments (flush_probed k) IKCP_ASK_SEND IKCP_CMD_WASK seg in
  let seg := default seg (last asks) in
  let tells := cmd_segments (flush_probed k) IKCP_ASK_TELL IKCP_CMD_WINS seg in
  (acked ++ asks ++ tells, default seg (last tells)).

Lemma flush_headers_tmpl k :
  Forall (tmpl k) (flush_headers k).1 /\ tmpl k (flush_headers k).2.
Proof.
  unfold flush_headers. cbv zeta. cbn [fst snd].
  pose proof (tmpl_acks k _ (acks k) (tmpl_flush_seg k)) as Ha.
  pose proof (tmpl_last _ _ _ (tmpl_flush_seg k) Ha) as H1.
  pose proof (tmpl_cmd k (flush_probed k) IKCP_ASK_SEND IKCP_CMD_WASK _ eq_refl H1) as Hb.
  pose proof (tmpl_last _ _ _ H1 Hb) as H2.
  pose proof (tmpl_cmd k (flush_probed k) IKCP_ASK_TELL IKCP_CMD_WINS _ eq_refl H2) as Hc.
  split; [|by apply tmpl_last]. by rewrite !Forall_app.
Qed.

(** Everything the flush sends, in order: all pending acknowledgements, a window
    probe when it is time to ask, a window announcement when it was asked for,
    and the due data segments. *)
Definition flush_list (k : ikcpcb) : list IKCPSEG := (flush_headers k).1 ++ flush_pushes k.

(** The control block the flush leaves, [link] carrying the retransmission
    counter and the dead-link flag of the data loop. *)
Definition flush_result (k link : ikcpcb) : ikcpcb :=
  let r := flush_ready k in
  let buf := kcp_snd_buf r in
  flush_cwnd (link <| kcp_snd_buf :=
                flush_step r (flush_resent r) (flush_rtomin r) (flush_wnd k) <$> buf |>)
    (flush_resent r) (flush_window (flush_probed k <| kcp_probe := 0 |>))
    (Z.of_nat (length (List.filter (is_due r (flush_resent r) FastResend) buf)))
    (existsb (is_due r (flush_resent r) Timeout) buf).

Lemma flush_eq k :
  kcp_updated k <> 0 -> kcp_output k = true -> mtu_ok k -> 0 <= kcp_ackcount k < 2147483648 ->
  let r := flush_ready k in
  Forall (fun s => seg_sized s /\ fits (kcp_mtu k) s) (kcp_snd_buf r) ->
  exists link,
    ikcp_flush k = Ok (flush_result k link, map datagram (pack (kcp_mtu k) (flush_list k))) /\
    erase_link link = erase_link r /\
    kcp_state link = (if existsb (flush_dead r (flush_resent r) (flush_rtomin r) (flush_wnd k))
                            (kcp_snd_buf r) then 4294967295 else kcp_state k).
Proof.
  cbv zeta. intros Hup Ho Hm Hac Hbuf. unfold ikcp_flush. rewrite (proj2 (Z.eqb_neq _ _) Hup).
  rewrite s32_small by (unfold is_s32; lia).
  assert (Hw : writing k {| p_cur := []; p_done := [] |}).
  { constructor; try done. apply packer_ok_nil. unfold mtu_ok in Hm. lia. }
  change {| w_ptr := []; w_sent := [] |} with (writer_of {| p_cur := []; p_done := [] |}).
  set (p := {| p_cur := []; p_done := [] |}) in *.
  destruct (flush_acks_eq (Z.to_nat (kcp_ackcount k)) 0 k (flush_seg k) p Hw eq_refl) as [Ha Hwa].
  rewrite Z2Nat.id in Ha, Hwa by lia. fold (acks k) in Ha, Hwa. rewrite Ha. cbn [bind]. clear Ha.
  destruct (flush_headers_tmpl k) as [Hht Hlt]. 
  pose proof (tmpl_flush_seg k) as Ht0. pose proof (tmpl_acks k _ (acks k) Ht0) as Hta.
  unfold flush_list, flush_headers in *. cbv zeta in *. cbn [fst snd] in *.
  set (acked := ack_seg (flush_seg k) <$> acks k) in *. clearbody acked.
  pose proof (tmpl_last _ _ _ Ht0 Hta) as Ht1. set (seg1 := default (flush_seg k) (last acked)) in *.
  clearbody seg1. change (flush_probe (k <| kcp_ackcount := 0 |>)) with (flush_probed k).
  pose proof (f_equal kcp_mtu (flush_probed_erase k) : kcp_mtu (flush_probed k) = kcp_mtu k) as Hpm.
  pose proof (f_equal kcp_output (flush_probed_erase k) : kcp_output (flush_probed k) = kcp_output k) as Hpo.
  apply (writing_kcp k (flush_probed k) _ Hpo Hpm) in Hwa.
  destruct (flush_cmd_eq _ IKCP_ASK_SEND IKCP_CMD_WASK seg1 _ Hwa ltac:(apply Ht1)) as [Hb Hwb].
  rewrite Hb. cbn [bind]. clear Hb.
  pose proof (tmpl_cmd k (flush_probed k) IKCP_ASK_SEND IKCP_CMD_WASK _ eq_refl Ht1) as Htb.
  pose proof (tmpl_last _ _ _ Ht1 Htb) as Ht2.
  set (asks := cmd_segments _ IKCP_ASK_SEND _ _) in *. set (seg2 := default seg1 (last asks)) in *.
  clearbody seg2 asks.
  destruct (flush_cmd_eq _ IKCP_ASK_TELL IKCP_CMD_WINS seg2 _ Hwb ltac:(apply Ht2)) as [Hc Hwc].
  rewrite Hc. cbn [bind]. clear Hc.
  set (tells := cmd_segments _ IKCP_ASK_TELL _ _) in *. set (seg3 := default seg2 (last tells)) in *.
  assert (Hwnd : seg_wnd seg3 = flush_wnd k) by apply Hlt. rewrite Hwnd. clearbody seg3 tells.
  fold (flush_ready k).
  rewrite !Hpm in *.
  pose proof (f_equal kcp_mtu (flush_ready_erase k) : kcp_mtu (flush_ready k) = kcp_mtu k) as Hrm.
  pose proof (f_equal kcp_output (flush_ready_erase k) : kcp_output (flush_ready k) = kcp_output k) as Hro.
  pose proof (writing_kcp (flush_probed k) (flush_ready k) _ ltac:(congruence) ltac:(congruence) Hwc) as Hwr.
  rewrite <- Hrm in Hbuf.
  destruct (flush_data_eq _ (flush_resent (flush_ready k)) (flush_rtomin (flush_ready k)) (flush_wnd k)
    _ 0 false _ Hwr Hbuf) as (link & Hd & Hwd & E & Hst).
  rewrite Hd. cbn [bind]. clear Hd. rewrite Hrm, <- !pack_all_app. fold (flush_pushes k).
  rewrite <- !app_assoc.
  set (all := acked ++ asks ++ tells ++ flush_pushes k).
  exists link. split; [|split; [done|]].
  - assert (Hlo : kcp_output (link <| kcp_snd_buf := flush_step (flush_ready k) (flush_resent (flush_ready k))
        (flush_rtomin (flush_ready k)) (flush_wnd k) <$> kcp_snd_buf (flush_ready k) |>) = true).
    { transitivity (kcp_output (flush_ready k)); [exact (f_equal kcp_output E) | congruence]. }
    unfold ikcp_output. rewrite Hlo. cbn [assert_ bind w_ptr w_sent writer_of]. clear Hlo.
    assert (Hcl : forall q, match datagram (p_cur q) with
        | [] => Ok (map datagram (p_done q))
        | _ :: _ => Ok match datagram (p_cur q) with
                       | [] => map datagram (p_done q)
                       | _ :: _ => map datagram (p_done q) ++ [datagram (p_cur q)]
                       end
        end = Ok (map datagram (pack_close q))).
    { intros q. unfold pack_close. destruct (p_cur q) as [|s cur] eqn:Hcur; [done|].
      destruct (datagram (s :: cur)) as [|b l] eqn:Hdg; [by apply datagram_nil in Hdg|].
      by rewrite map_app, <- Hdg. }
    rewrite Hcl. cbn [bind]. rewrite Z.add_0_l, orb_false_l. unfold flush_result. cbv zeta.
    reflexivity.
  - rewrite Hst. rewrite (f_equal kcp_state (flush_ready_erase k) : kcp_state (flush_ready k) = kcp_state k).
    done.
Qed.

(** ** The invariant through a flush *)

Lemma erase_probe_probe k z : erase_probe (k <| kcp_probe := z |>) = erase_probe k.
Proof. destruct k. vm_compute. reflexivity. Qed.

Lemma erase_link_buf k k' buf :
  erase_link k' = erase_link k ->
  erase_link (k' <| kcp_snd_buf := buf |>) = erase_link (k <| kcp_snd_buf := buf |>).
Proof.
  intros E. apply (f_equal (fun k => k <| kcp_snd_buf := buf |>)) in E.
  assert (Hc : forall k, erase_link (k <| kcp_snd_buf := buf |>) = erase_link k <| kcp_snd_buf := buf |>)
    by (clear; intros []; vm_compute; reflexivity).
  by rewrite !Hc.
Qed.

Lemma flush_window_range una nxt sp n rp k :
  kcp_inv una nxt sp n rp k -> 0 <= flush_window k <= WINDOW_MAX.
Proof.
  intros H. destruct (ki_rmt _ _ _ _ _ _ H) as [[Hr1 Hr2] Hc].
  pose proof (cfg_snd_wnd _ (ki_cfg _ _ _ _ _ _ H)) as Hs.
  unfold flush_window, WINDOW_MAX. rewrite !_imin_spec. destruct (_ =? 0); lia.
Qed.

Lemma flush_probed_inv una nxt sp n rp k :
  kcp_inv una nxt sp n rp k -> kcp_inv una nxt sp n rp (flush_probed k <| kcp_probe := 0 |>).
Proof.
  intros H. set (k1 := flush_probed k <| kcp_probe := 0 |>).
  assert (E : erase_probe k1 = erase_probe (k <| kcp_ackcount := 0 |>)).
  { unfold k1. rewrite erase_probe_probe. apply flush_probed_erase. }
  clearbody k1. apply (kcp_inv_view _ _ _ _ _ (k <| kcp_ackcount := 0 |>)).
  - exact (f_equal snd_view E).
  - exact (f_equal rcv_view E).
  - exact (f_equal ack_view E).
  - exact (f_equal cfg_view E).
  - rewrite (f_equal kcp_rmt_wnd E : kcp_rmt_wnd k1 = kcp_rmt_wnd k),
      (f_equal kcp_cwnd E : kcp_cwnd k1 = kcp_cwnd k). apply H.
  - destruct H as [Hcfg Hsnd Htight Hgap Hrmt Hrcv [Hac Hal] Hrseg Hsseg Hconv Hflight].
    constructor; try done.
    + by apply (cfg_wf_view k).
    + by apply (snd_wf_view una nxt sp k).
    + by apply (rcv_wf_view n rp k).
    + constructor; simpl; [lia | done].
Qed.

(** The window of this flush. *)
Definition flush_limit (k : ikcpcb) : Z := flush_window (flush_probed k <| kcp_probe := 0 |>).

Lemma flush_limit_eq k : flush_limit k = flush_window k.
Proof.
  pose proof (flush_probed_erase k) as E.
  change (flush_limit k) with (flush_window (erase_probe (flush_probed k))). by rewrite E.
Qed.

Lemma flush_ready_inv una nxt sp n rp k :
  kcp_inv una nxt sp n rp k ->
  let r := flush_ready k in
  exists new nxt',
    kcp_inv una nxt' (sp ++ new) n rp r /\
    nxt' = nxt + Z.of_nat (length new) /\ new.*1 = seqZ nxt (Z.of_nat (length new)) /\
    kcp_snd_queue k = take (length new) (kcp_snd_queue k) ++ kcp_snd_queue r /\
    frag_of <$> new.*2 = frag_of <$> take (length new) (kcp_snd_queue k) /\
    Forall (fun s => seg_xmit s = 0) new.*2 /\
    nxt' - una <= Z.max (nxt - una) (flush_window k) /\
    (kcp_snd_queue r = [] \/ flush_window k <= nxt' - una).
Proof.
  intros H. cbv zeta. pose proof (flush_probed_inv _ _ _ _ _ _ H) as H1.
  pose proof (flush_window_range _ _ _ _ _ _ H1) as Hw. fold (flush_limit k) in Hw.
  pose proof (f_equal kcp_snd_queue (flush_probed_erase k)
              : kcp_snd_queue (flush_probed k) = kcp_snd_queue k) as Hq.
  change (kcp_snd_queue (flush_probed k <| kcp_probe := 0 |>) = kcp_snd_queue k) in Hq.
  destruct (flush_move_inv (flush_wnd k) _ _ _ _ _ _ _ _ H1 eq_refl Hw)
    as (new & nxt' & Hinv & Hn & Hk & Hqueue & Hf & Hx & Hm & Hstop & _).
  change (flush_move _ (flush_limit k) _ _) with (flush_ready k) in *.
  rewrite Hq in Hqueue, Hf. rewrite flush_limit_eq in *.
  exists new, nxt'. by split_and!.
Qed.

(** The congestion window after a flush is at least one segment. *)
Definition erase_cong (k : ikcpcb) : ikcpcb := erase_cwnd k <| kcp_ssthresh := 0 |>.

Lemma flush_cwnd_erase k resent cwnd change lost :
  erase_cong (flush_cwnd k resent cwnd change lost) = erase_cong k /\
  (0 <= kcp_cwnd k -> 1 <= kcp_cwnd (flush_cwnd k resent cwnd change lost)).
Proof.
  unfold flush_cwnd. cbv zeta.
  set (k1 := if negb (change =? 0) then _ else k).
  assert (E1 : erase_cong k1 = erase_cong k) by (unfold k1; repeat bcase; done).
  assert (Hc1 : 0 <= kcp_cwnd k -> 0 <= kcp_cwnd k1).
  { unfold k1. destruct (negb _); [|done]. intros _. simpl. apply u32_range. }
  clearbody k1.
  set (k2 := if lost then _ else k1).
  assert (E2 : erase_cong k2 = erase_cong k1) by (unfold k2; destruct lost; [|done]; repeat bcase; done).
  assert (Hc2 : 0 <= kcp_cwnd k1 -> 0 <= kcp_cwnd k2) by (unfold k2; destruct lost; done).
  clearbody k2. rewrite <- E1, <- E2. bcase; (split; [done|]); intros; [done | lia].
Qed.

Lemma kcp_inv_link una nxt sp n rp k k' :
  erase_link k' = erase_link k -> kcp_inv una nxt sp n rp k -> kcp_inv una nxt sp n rp k'.
Proof.
  intros E H. eapply kcp_inv_view; [..|exact H].
  - exact (f_equal snd_view E).
  - exact (f_equal rcv_view E).
  - exact (f_equal ack_view E).
  - exact (f_equal cfg_view E).
  - frame E kcp_rmt_wnd. frame E kcp_cwnd. apply H.
Qed.

Lemma kcp_inv_cong una nxt sp n rp k k' :
  erase_cong k' = erase_cong k -> 0 <= kcp_cwnd k' ->
  kcp_inv una nxt sp n rp k -> kcp_inv una nxt sp n rp k'.
Proof.
  intros E Hc H. eapply kcp_inv_view; [..|exact H].
  - exact (f_equal snd_view E).
  - exact (f_equal rcv_view E).
  - exact (f_equal ack_view E).
  - exact (f_equal cfg_view E).
  - frame E kcp_rmt_wnd. split; [apply H | done].
Qed.

Lemma flush_steps_same r resent rtomin wnd buf :
  Forall2 seg_same buf (flush_step r resent rtomin wnd <$> buf).
Proof. induction buf; constructor; [apply flush_step_same | done]. Qed.

Lemma zip_same lo hi sp buf buf' :
  numbered lo hi sp buf -> Forall2 seg_same buf buf' ->
  (zip sp.*1 buf').*1 = sp.*1 /\ (zip sp.*1 buf').*2 = buf' /\
  Forall2 seg_same sp.*2 (zip sp.*1 buf').*2.
Proof.
  intros Hn Hs. destruct (numbered_same _ _ _ _ _ Hn Hs) as [Hn' Hk].
  split; [done|]. rewrite <- (num_buf _ _ _ _ Hn'), <- (num_buf _ _ _ _ Hn). done.
Qed.

Lemma flush_cwnd_inv una nxt sp n rp r link buf resent cwnd change lost :
  kcp_inv una nxt sp n rp r -> erase_link link = erase_link r ->
  Forall2 seg_same (kcp_snd_buf r) buf ->
  let k' := flush_cwnd (link <| kcp_snd_buf := buf |>) resent cwnd change lost in
  exists sp', kcp_inv una nxt sp' n rp k' /\
    sp'.*1 = sp.*1 /\ Forall2 seg_same sp.*2 sp'.*2 /\
    kcp_snd_queue k' = kcp_snd_queue r /\ 1 <= kcp_cwnd k'.
Proof.
  intros H E Hsame. cbv zeta. apply (erase_link_buf r link buf) in E.
  pose proof (kcp_inv_link _ _ _ _ _ _ _ E (kcp_inv_same_buf _ _ _ _ _ _ _ H Hsame)) as H1.
  pose proof (zip_same _ _ _ _ _ (swf_buf _ _ _ _ (ki_snd _ _ _ _ _ _ H)) Hsame) as (Hz1 & _ & Hz3).
  pose proof (f_equal kcp_snd_queue E) as Hq.
  change (kcp_snd_queue (link <| kcp_snd_buf := buf |>) = kcp_snd_queue r) in Hq.
  revert H1 Hq. generalize (link <| kcp_snd_buf := buf |>). clear E link. intros l H1 Hq.
  destruct (flush_cwnd_erase l resent cwnd change lost) as [E Hc].
  destruct (ki_rmt _ _ _ _ _ _ H1) as [_ Hcw]. specialize (Hc Hcw).
  exists (zip sp.*1 buf). split_and!; try done.
  - eapply kcp_inv_cong; [exact E | lia | exact H1].
  - rewrite <- Hq. exact (f_equal kcp_snd_queue E).
Qed.

Lemma flush_result_inv una nxt sp n rp k link :
  kcp_inv una nxt sp n rp (flush_ready k) -> erase_link link = erase_link (flush_ready k) ->
  exists sp', kcp_inv una nxt sp' n rp (flush_result k link) /\
    sp'.*1 = sp.*1 /\ Forall2 seg_same sp.*2 sp'.*2 /\
    kcp_snd_queue (flush_result k link) = kcp_snd_queue (flush_ready k) /\
    1 <= kcp_cwnd (flush_result k link).
Proof. intros H E. apply (flush_cwnd_inv _ _ _ _ _ _ _ _ _ _ _ _ H E), flush_steps_same. Qed.

(** What a flush leaves alone: the receiving side, the configuration, the
    cumulative acknowledgement. *)
Definition flush_keep (k : ikcpcb) :=
  (rcv_view k, cfg_view k, (kcp_conv k, kcp_output k, kcp_stream k, kcp_updated k),
   (kcp_rmt_wnd k, kcp_snd_una k, kcp_current k, kcp_rx_rto k)).

Lemma erase_ready_keep k : flush_keep (erase_ready k) = flush_keep k.
Proof. destruct k. reflexivity. Qed.

Lemma flush_ready_keep k : flush_keep (flush_ready k) = flush_keep k.
Proof. by rewrite <- (erase_ready_keep k), <- (erase_ready_keep (flush_ready k)), flush_ready_erase. Qed.

Lemma flush_ready_ackcount k : kcp_ackcount (flush_ready k) = 0.
Proof.
  assert (H1 : forall k, kcp_ackcount (erase_move k) = kcp_ackcount k) by done.
  assert (H2 : forall k, kcp_ackcount (erase_probe k) = kcp_ackcount k) by done.
  unfold flush_ready. cbv zeta. rewrite <- H1, flush_move_erase, H1.
  change (kcp_ackcount (flush_probed k) = 0). by rewrite <- H2, flush_probed_erase.
Qed.

Lemma flush_result_keep k link :
  erase_link link = erase_link (flush_ready k) ->
  flush_keep (flush_result k link) = flush_keep k /\ kcp_ackcount (flush_result k link) = 0.
Proof.
  intros E. unfold flush_result. cbv zeta.
  match goal with |- context [flush_cwnd ?l ?a ?b ?c ?d] =>
    pose proof (proj1 (flush_cwnd_erase l a b c d)) as E2; set (res := flush_cwnd l a b c d) in * end.
  clearbody res. apply (erase_link_buf _ _ (flush_step (flush_ready k) (flush_resent (flush_ready k))
    (flush_rtomin (flush_ready k)) (flush_wnd k) <$> kcp_snd_buf (flush_ready k))) in E.
  split.
  - etransitivity; [exact (f_equal flush_keep E2)|]. etransitivity; [exact (f_equal flush_keep E)|].
    apply flush_ready_keep.
  - etransitivity; [exact (f_equal kcp_ackcount E2)|]. etransitivity; [exact (f_equal kcp_ackcount E)|].
    apply flush_ready_ackcount.
Qed.

(** ** A flush in one statement *)

Lemma sseg_fits una nxt sp n rp k s :
  kcp_inv una nxt sp n rp k -> sseg_ok (kcp_mss k) s -> seg_sized s /\ fits (kcp_mtu k) s.
Proof.
  intros H (Hs & Hl & _). split; [done|]. unfold fits. rewrite length_wire.
  rewrite (cfg_mss _ (ki_cfg _ _ _ _ _ _ H)) in Hl. unfold IKCP_OVERHEAD in Hl. lia.
Qed.

Lemma flush_ready_view k :
  kcp_mtu (flush_ready k) = kcp_mtu k /\ kcp_conv (flush_ready k) = kcp_conv k /\
  kcp_rcv_nxt (flush_ready k) = kcp_rcv_nxt k.
Proof.
  pose proof (flush_ready_keep k) as E. by injection E.
Qed.

(** The data segments written are segments of the send buffer. *)
Lemma flush_pushes_from k s :
  s ∈ flush_pushes k -> exists s0, s0 ∈ kcp_snd_buf (flush_ready k) /\ seg_same s0 s /\
    s = flush_step (flush_ready k) (flush_resent (flush_ready k)) (flush_rtomin (flush_ready k))
          (flush_wnd k) s0 /\
    flush_due (flush_ready k) (flush_resent (flush_ready k)) s0 <> NotDue.
Proof.
  unfold flush_pushes, flush_sent. cbv zeta.
  intros (s0 & -> & [Hd Hin]%list_elem_of_filter)%list_elem_of_fmap.
  exists s0. split_and!; try done. apply flush_step_same.
Qed.

Lemma tmpl_wire k seg : is_u32 (kcp_conv k) -> tmpl k seg -> wire_ok (kcp_conv k) seg.
Proof.
  intros Hc (H1 & H2 & _ & H4 & H5 & H6 & _). constructor; try done.
  - by rewrite H6.
  - unfold seg_sized. by rewrite H4, H5.
  - rewrite H5. done.
Qed.

Lemma flight_wire conv mss s :
  is_u32 conv -> mss < 2147483648 -> flight_ok conv s -> sseg_ok mss s -> wire_ok conv s.
Proof.
  intros Hc Hm [H1 H2] (H3 & H4 & H5). constructor; try done; [by rewrite H2 | lia].
Qed.

Lemma flight_same conv mss s s' :
  seg_same s s' -> flight_ok conv s -> sseg_ok mss s -> flight_ok conv s' /\ sseg_ok mss s'.
Proof.
  intros Hs [H1 H2] Ho. split; [|by eapply sseg_ok_same].
  destruct Hs as (_ & _ & _ & Hc & Hm). split; congruence.
Qed.

Lemma flush_list_ok una nxt sp n rp k :
  kcp_inv una nxt sp n rp (flush_ready k) -> is_u32 (kcp_conv k) -> 50 <= kcp_mtu k ->
  Forall (fun s => wire_ok (kcp_conv k) s /\ fits (kcp_mtu k) s) (flush_list k).
Proof.
  intros H Hc Hm. destruct (flush_ready_view k) as (Ermtu & Erc & _).
  pose proof (kcp_inv_mss _ _ _ _ _ _ H) as Hmss.
  apply Forall_app. split.
  - eapply Forall_impl; [apply flush_headers_tmpl|]. intros s Ht.
    split; [by apply tmpl_wire|]. destruct Ht as (_ & _ & _ & _ & Hd & _).
    unfold fits. rewrite length_wire, Hd. simpl. lia.
  - apply Forall_forall. intros s (s0 & Hin & Hsame & _ & _)%flush_pushes_from.
    pose proof (ki_flight _ _ _ _ _ _ H) as Hf. pose proof (ki_sseg _ _ _ _ _ _ H) as Hss.
    apply Forall_app in Hss as [Hss _]. rewrite Forall_forall in Hf, Hss.
    destruct (flight_same _ _ _ _ Hsame (Hf _ Hin) (Hss _ Hin)) as [Hf' Hs'].
    rewrite Erc in Hf'. split; [eapply flight_wire; [done | | done | exact Hs']; lia|].
    rewrite <- Ermtu. by eapply sseg_fits.
Qed.

(** The hypotheses of a flush: [ikcp_update] was called, a callback is set. *)
Record flushable (k : ikcpcb) : Prop := {
  fl_updated : kcp_updated k <> 0;
  fl_output : kcp_output k = true;
  fl_mtu : mtu_ok k;
  fl_acks : kcp_ackcount k < 2147483648
}.

(** [m] segments enter the window. *)
Record flushed (una nxt : Z) (sp : list (Z * IKCPSEG)) (n : Z) (rp : list (Z * IKCPSEG))
    (k : ikcpcb) (m : nat) (sp' : list (Z * IKCPSEG)) (k' : ikcpcb) : Prop := {
  fd_inv : kcp_inv una (nxt + Z.of_nat m) sp' n rp k';
  fd_keys : sp'.*1 = sp.*1 ++ seqZ nxt (Z.of_nat m);
  fd_frags : frag_of <$> sp'.*2 = (frag_of <$> sp.*2) ++ (frag_of <$> take m (kcp_snd_queue k));
  fd_queue : kcp_snd_queue k = take m (kcp_snd_queue k) ++ kcp_snd_queue k';
  fd_window : nxt + Z.of_nat m - una <= Z.max (nxt - una) (flush_window k);
  fd_filled : kcp_snd_queue k' = [] \/ flush_window k <= nxt + Z.of_nat m - una;
  fd_keep : flush_keep k' = flush_keep k;
  fd_acks : kcp_ackcount k' = 0;
  fd_cwnd : 1 <= kcp_cwnd k';
  fd_pushes : forall s, s ∈ flush_pushes k -> exists p, p ∈ sp' /\ seg_same p.2 s
}.

Lemma flush_run una nxt sp n rp k :
  kcp_inv una nxt sp n rp k -> flushable k ->
  exists m sp' k',
    ikcp_flush k = Ok (k', map datagram (pack (kcp_mtu k) (flush_list k))) /\
    flushed una nxt sp n rp k m sp' k' /\
    Forall (fun s => wire_ok (kcp_conv k) s /\ fits (kcp_mtu k) s) (flush_list k).
Proof.
  intros H [Hup Ho Hm Hac].
  destruct (flush_ready_inv _ _ _ _ _ _ H)
    as (new & nxt' & Hr & -> & Hkeys & Hqueue & Hfr & _ & Hwin & Hfill).
  destruct (flush_ready_view k) as (Ermtu & _ & _).
  pose proof (ki_sseg _ _ _ _ _ _ Hr) as Hss. apply Forall_app in Hss as [Hss _].
  destruct (flush_eq k Hup Ho Hm) as (link & Heq & E & _).
  { split; [apply H | done]. }
  { eapply Forall_impl; [exact Hss|]. intros s Hs. rewrite <- Ermtu. by eapply sseg_fits. }
  destruct (flush_result_inv _ _ _ _ _ _ _ Hr E) as (sp' & Hinv & Hk & Hsame & Hq & Hcw).
  destruct (flush_result_keep k link E) as [Hkeep Hack].
  exists (length new), sp', (flush_result k link). split; [exact Heq|]. split.
  - constructor; try done.
    + by rewrite Hk, fmap_app, Hkeys.
    + rewrite <- Hfr, <- fmap_app, <- fmap_app. clear -Hsame.
      induction Hsame as [|s s' l l' (_ & Hf & _) _ IH]; [done|]. rewrite !fmap_cons, IH. by f_equal.
    + by rewrite Hq.
    + by rewrite Hq.
    + intros s (s0 & Hin & Hss0 & _)%flush_pushes_from.
      rewrite (num_buf _ _ _ _ (swf_buf _ _ _ _ (ki_snd _ _ _ _ _ _ Hr))) in Hin.
      clear -Hin Hss0 Hsame. apply list_elem_of_lookup in Hin as [i Hi].
      destruct (Forall2_lookup_l _ _ _ _ _ Hsame Hi) as (s' & Hs' & Hss').
      rewrite list_lookup_fmap in Hs'. destruct (sp' !! i) as [p|] eqn:Hp; [|done].
      injection Hs' as <-. exists p. split; [by eapply list_elem_of_lookup_2|].
      etransitivity; [|exact Hss0]. by symmetry.
  - eapply flush_list_ok; [exact Hr | apply H | unfold mtu_ok in Hm; lia].
Qed.
