(* ===== verification/KcpUpdate.v ===== *)
(** * KCP: the contract of sending

    The properties of [ikcp_flush] (what it puts on the wire, the window it
    keeps, what it retransmits), of [ikcp_update] (when it flushes) and of
    [ikcp_check] (when to call [ikcp_update] again). *)

From S2P Require Import Prelude KcpBase KcpWire KcpSend KcpNumbered KcpRecv KcpAck KcpInput KcpInv.
From S2P Require Import KcpFlush KcpFlushSpec.

Open Scope outcome_scope.

(** ** Sending *)

(** C25.  A flush never fails; it hands the output callback exactly the segments
    of [flush_list] - all pending acknowledgements, probes, due data - in order,
    in datagrams that are never empty and never exceed the MTU (so the buffer of
    [(mtu + 24) * 3] bytes is not overrun), each the encoding of a list of
    segments an endpoint of the conversation accepts. *)
Theorem flush_datagrams k :
  kcp_wf k -> flushable k ->
  exists k', ikcp_flush k = Ok (k', map datagram (pack (kcp_mtu k) (flush_list k))) /\
    kcp_wf k' /\
    concat (pack (kcp_mtu k) (flush_list k)) = flush_list k /\
    Forall (wire_ok (kcp_conv k)) (flush_list k) /\
    Forall (fun d => 0 < Z.of_nat (length d) <= kcp_mtu k)
      (map datagram (pack (kcp_mtu k) (flush_list k))).
Proof.
  intros (una & nxt & sp & n & rp & H) Hf.
  destruct (flush_run _ _ _ _ _ _ H Hf) as (m & sp' & k' & Heq & Hfd & Hok).
  apply Forall_and in Hok as [Hw Hfit].
  assert (Hm : 0 <= kcp_mtu k) by (destruct Hf as [_ _ Hm _]; unfold mtu_ok in Hm; lia).
  destruct (pack_spec (kcp_mtu k) Hm _ Hfit) as [Hcat Hsz].
  exists k'. split_and!; try done.
  - exists una, (nxt + Z.of_nat m), sp', n, rp. apply Hfd.
  - apply Forall_map. eapply Forall_impl; [exact Hsz|]. intros g [Hne Hl].
    destruct g as [|s g]; [done|]. cbv beta in *. split; [|exact Hl].
    unfold datagram. cbn [map concat]. rewrite length_app, length_wire. lia.
Qed.

(** A sender with a message of three bytes that has been updated once. *)
Definition busy_sender : ikcpcb :=
  ikcp_setoutput (ikcp_create 7) <| kcp_updated := 1 |>
    <| kcp_snd_queue := [ikcp_segment_new <| seg_data := [z2b 1; z2b 2; z2b 3] |> <| seg_len := 3 |>] |>
    <| kcp_nsnd_que := 1 |> <| kcp_cwnd := 4 |>.

Lemma busy_sender_inv : kcp_inv 0 0 [] 0 [] busy_sender.
Proof.
  assert (is_u32 7) as H7 by (unfold is_u32; lia).
  pose proof (kcp_inv_create 7 H7) as [].
  constructor; try done; [by apply (cfg_wf_view (ikcp_create 7))|].
  constructor; [|done]. unfold sseg_ok. split_and!; [done | vm_compute; congruence | unfold is_u8; simpl; lia].
Qed.

Lemma busy_sender_flushable : flushable busy_sender.
Proof. constructor; vm_compute; done. Qed.

Lemma flush_datagrams_witness :
  (kcp_wf busy_sender /\ flushable busy_sender) /\
  exists k', ikcp_flush busy_sender = Ok (k', map datagram (pack (kcp_mtu busy_sender) (flush_list busy_sender))) /\
    kcp_wf k' /\
    concat (pack (kcp_mtu busy_sender) (flush_list busy_sender)) = flush_list busy_sender /\
    Forall (wire_ok (kcp_conv busy_sender)) (flush_list busy_sender) /\
    Forall (fun d => 0 < Z.of_nat (length d) <= kcp_mtu busy_sender)
      (map datagram (pack (kcp_mtu busy_sender) (flush_list busy_sender))).
Proof.
  assert (kcp_wf busy_sender) as Hwf by (exists 0, 0, [], 0, []; exact busy_sender_inv).
  split; [split; [exact Hwf | exact busy_sender_flushable]|].
  exact (flush_datagrams busy_sender Hwf busy_sender_flushable).
Defined.

(** The first flush of that sender: one push of 27 bytes. *)
Example busy_sender_flush :
  match ikcp_flush busy_sender with
  | Ok (k', [d]) => d = datagram (flush_list busy_sender) /\ length d = 27%nat /\
                    kcp_snd_nxt k' = 1 /\ kcp_snd_queue k' = []
  | _ => False
  end.
Proof. vm_compute. done. Qed.

(** A segment in flight must be sent now: it was never sent, its timer has
    expired, or enough later segments were acknowledged. *)
Definition must_send (k : ikcpcb) (s : IKCPSEG) : Prop :=
  seg_xmit s = 0 \/ 0 <= _itimediff (kcp_current k) (seg_resendts s) \/
  flush_resent k <= seg_fastack s.

(** What the sender may have in flight: the smaller of the two windows and, with
    congestion control, of the congestion window. *)
Definition may_fly (k : ikcpcb) : Z :=
  if kcp_nocwnd k =? 0 then Z.min (kcp_cwnd k) (Z.min (kcp_snd_wnd k) (kcp_rmt_wnd k))
  else Z.min (kcp_snd_wnd k) (kcp_rmt_wnd k).

Lemma flush_window_may_fly k : flush_window k = may_fly k.
Proof. unfold flush_window, may_fly. rewrite !_imin_spec. destruct (_ =? 0); lia. Qed.

(** C26.  The window: a flush moves a prefix of [m] segments of the queue of unsent
    segments into the send buffer, numbering it from [snd_nxt] on; the segments in
    flight and their order stay the same; afterwards at most
    [min(snd_wnd, rmt_wnd)] segments are in flight, and with congestion control
    ([nocwnd] is 0) at most [cwnd]; if there were more - a window shrank - none is
    added; and this window is filled unless the queue ran empty.  The receiving
    side and the configuration are untouched, and the congestion window does not
    fall below one segment ([flushed]).  The hypotheses are the invariant of the
    control block and a valid configuration, after [ikcp_update] was called. *)
Theorem flush_respects_window una nxt sp n rp k :
  kcp_inv una nxt sp n rp k -> flushable k ->
  exists m sp' k' out, ikcp_flush k = Ok (k', out) /\ flushed una nxt sp n rp k m sp' k' /\
    nxt + Z.of_nat m - una <= Z.max (nxt - una) (may_fly k) /\
    (may_fly k < nxt - una -> m = 0%nat) /\
    (kcp_snd_queue k' = [] \/ may_fly k <= nxt + Z.of_nat m - una).
Proof.
  intros H Hf. destruct (flush_run _ _ _ _ _ _ H Hf) as (m & sp' & k' & Heq & Hfd & _).
  exists m, sp', k', (map datagram (pack (kcp_mtu k) (flush_list k))).
  pose proof (fd_window _ _ _ _ _ _ _ _ _ Hfd) as Hw. pose proof (fd_filled _ _ _ _ _ _ _ _ _ Hfd) as Hl.
  rewrite flush_window_may_fly in Hw, Hl. split_and!; [done..|lia|done].
Qed.

(** The sender later: its segment was flushed and has timed out, two segments
    wait, the peer has room for two, and an acknowledgement is pending. *)
Definition late_sender : ikcpcb :=
  match ikcp_flush busy_sender with Ok (k, _) => k | Crash _ => busy_sender end
    <| kcp_current := 5000 |> <| kcp_rmt_wnd := 2 |>
    <| kcp_snd_queue := [ikcp_segment_new <| seg_data := [z2b 4] |> <| seg_len := 1 |>;
                         ikcp_segment_new <| seg_data := [z2b 5] |> <| seg_len := 1 |>] |> <| kcp_nsnd_que := 2 |>
    <| kcp_acklist := [3; 77] |> <| kcp_ackblock := 1 |> <| kcp_ackcount := 1 |>.

Lemma late_sender_inv : exists nxt sp, kcp_inv 0 nxt sp 0 [] late_sender.
Proof.
  destruct (flush_run _ _ _ _ _ _ busy_sender_inv busy_sender_flushable) as (m & sp' & k' & Heq & Hfd & _).
  pose proof (fd_inv _ _ _ _ _ _ _ _ _ Hfd) as Hinv. unfold late_sender. rewrite Heq.
  pose proof (fd_keep _ _ _ _ _ _ _ _ _ Hfd) as E. assert (Hmss : kcp_mss k' = 1376) by (injection E; intros; assumption).
  clear Heq Hfd E.
  exists (0 + Z.of_nat m), sp'. destruct Hinv as [Hc Hs Ht Hw Hr Hrcv Ha Hrs Hss Hcv Hfl].
  split; try done.
  - by apply (cfg_wf_view k').
  - destruct Hs. by constructor.
  - split; [vm_compute; done|]. apply Hr.
  - destruct Hrcv. by constructor.
  - apply Forall_app in Hss as [Hss _]. apply Forall_app. split; [exact Hss|].
    cbn [kcp_snd_queue upd set_kcp_snd_queue]. simpl kcp_mss. rewrite Hmss.
    repeat constructor; unfold seg_sized; cbn; lia.
Qed.

Lemma late_sender_flushable : flushable late_sender.
Proof. constructor; vm_compute; done. Qed.

Lemma late_sender_values :
  length (kcp_snd_buf late_sender) = 1%nat /\ Forall (must_send late_sender) (kcp_snd_buf late_sender) /\
  acks late_sender = [(3, 77)] /\ may_fly late_sender = 2.
Proof.
  split_and!; [vm_compute; done| |vm_compute; done..].
  assert (E : forallb (fun s => 0 <=? _itimediff (kcp_current late_sender) (seg_resendts s)) (kcp_snd_buf late_sender)
    = true) by (vm_compute; reflexivity).
  apply Forall_forall. intros s Hs. rewrite forallb_forall in E. right. left.
  by apply Z.leb_le, E, list_elem_of_In.
Qed.

Lemma flush_respects_window_witness : exists nxt sp,
  (kcp_inv 0 nxt sp 0 [] late_sender /\ flushable late_sender) /\
  exists m sp' k' out, ikcp_flush late_sender = Ok (k', out) /\
    flushed 0 nxt sp 0 [] late_sender m sp' k' /\
    nxt + Z.of_nat m - 0 <= Z.max (nxt - 0) (may_fly late_sender) /\
    (may_fly late_sender < nxt - 0 -> m = 0%nat) /\
    (kcp_snd_queue k' = [] \/ may_fly late_sender <= nxt + Z.of_nat m - 0).
Proof.
  destruct late_sender_inv as (nxt & sp & Hinv). exists nxt, sp.
  split; [split; [exact Hinv | exact late_sender_flushable]|].
  exact (flush_respects_window _ _ _ _ _ _ Hinv late_sender_flushable).
Defined.

(** One of the two waiting segments has moved into the window, the other waits. *)
Example late_sender_flush :
  match ikcp_flush late_sender with
  | Ok (k', [_]) => length (kcp_snd_buf k') = 2%nat /\ length (kcp_snd_queue k') = 1%nat /\ kcp_ackcount k' = 0
  | _ => False
  end.
Proof. vm_compute. done. Qed.

Lemma must_send_due k s : must_send k s -> flush_due k (flush_resent k) s <> NotDue.
Proof.
  intros H. unfold flush_due. repeat bcase; try done. destruct H as [H|[H|H]]; lia.
Qed.

Lemma flush_ready_due k :
  flush_due (flush_ready k) = flush_due k /\ flush_resent (flush_ready k) = flush_resent k.
Proof.
  pose proof (flush_ready_keep k) as E. unfold flush_keep, cfg_view in E.
  assert (Ec : kcp_current (flush_ready k) = kcp_current k) by congruence.
  assert (Ef : kcp_fastresend (flush_ready k) = kcp_fastresend k) by congruence.
  unfold flush_due, flush_resent. by rewrite Ec, Ef.
Qed.

(** What was in flight is still there before the data loop. *)
Lemma flush_move_keeps queue cwnd wnd k s :
  s ∈ kcp_snd_buf k -> s ∈ kcp_snd_buf (flush_move queue cwnd wnd k).
Proof.
  revert k. induction queue as [|x queue IH]; intros k Hs; cbn [flush_move]; destruct (_ <? 0); try done.
  apply IH. simpl. apply elem_of_app. by left.
Qed.

Lemma flush_ready_keeps k s : s ∈ kcp_snd_buf k -> s ∈ kcp_snd_buf (flush_ready k).
Proof.
  intros Hs. apply flush_move_keeps. change (s ∈ kcp_snd_buf (flush_probed k)).
  by rewrite (f_equal kcp_snd_buf (flush_probed_erase k) : kcp_snd_buf (flush_probed k) = kcp_snd_buf k).
Qed.

(** [s] is encoded in one of the datagrams. *)
Definition carried (out : list bytes) (P : IKCPSEG -> Prop) : Prop :=
  exists g s, datagram g ∈ out /\ s ∈ g /\ P s.

Lemma pack_carries mtu segs s (P : IKCPSEG -> Prop) :
  0 <= mtu -> Forall (fits mtu) segs -> s ∈ segs -> P s -> carried (map datagram (pack mtu segs)) P.
Proof.
  intros Hm Hf Hs HP. destruct (pack_spec mtu Hm segs Hf) as [Hcat _]. rewrite <- Hcat in Hs.
  apply list_elem_of_In, in_concat in Hs as (g & Hg & Hsg).
  exists g, s. split_and!; [|by apply list_elem_of_In|done].
  apply list_elem_of_In, in_map, Hg.
Qed.

(** C27.  Nothing that must be sent stays behind: every segment in flight that
    was never sent, has timed out or was skipped often enough leaves with this
    flush, stamped with the current time and the current cumulative
    acknowledgement; and so does every pending acknowledgement. *)
Theorem flush_retransmits k :
  kcp_wf k -> flushable k ->
  exists k' out, ikcp_flush k = Ok (k', out) /\
    (forall s, s ∈ kcp_snd_buf k -> must_send k s ->
       carried out (fun s' => seg_same s s' /\ seg_xmit s' = u32 (seg_xmit s + 1) /\
                              seg_ts s' = kcp_current k /\ seg_una s' = kcp_rcv_nxt k)) /\
    (forall a, a ∈ acks k ->
       carried out (fun s' => seg_cmd s' = IKCP_CMD_ACK /\ (seg_sn s', seg_ts s') = a /\
                              seg_una s' = kcp_rcv_nxt k)).
Proof.
  intros (una & nxt & sp & n & rp & H) Hf.
  destruct (flush_run _ _ _ _ _ _ H Hf) as (m & sp' & k' & Heq & Hfd & Hok).
  apply Forall_and in Hok as [_ Hfit].
  assert (Hm : 0 <= kcp_mtu k) by (destruct Hf as [_ _ Hm _]; unfold mtu_ok in Hm; lia).
  exists k', (map datagram (pack (kcp_mtu k) (flush_list k))). split_and!; [done|..].
  - intros s Hs Hmust. destruct (flush_ready_due k) as [Ed Er].
    apply must_send_due in Hmust. rewrite <- Ed, <- Er in Hmust.
    set (s' := flush_step (flush_ready k) (flush_resent (flush_ready k)) (flush_rtomin (flush_ready k))
                 (flush_wnd k) s).
    apply (pack_carries _ _ s' _ Hm Hfit).
    + apply elem_of_app. right. apply list_elem_of_fmap_2, list_elem_of_filter.
      split; [done | by apply flush_ready_keeps].
    + split; [apply flush_step_same|]. unfold s', flush_step.
      pose proof (flush_ready_keep k) as E. injection E. intros. destruct (flush_due _ _ s) eqn:Hd; [..|done]; simpl; split_and!; done.
  - intros a Ha. apply (pack_carries _ _ (ack_seg (flush_seg k) a) _ Hm Hfit).
    + apply elem_of_app. left. apply elem_of_app. left. by apply list_elem_of_fmap_2.
    + by destruct a.
Qed.

Lemma flush_retransmits_witness :
  (kcp_wf late_sender /\ flushable late_sender) /\
  (length (kcp_snd_buf late_sender) = 1%nat /\ Forall (must_send late_sender) (kcp_snd_buf late_sender) /\
   acks late_sender = [(3, 77)]) /\
  exists k' out, ikcp_flush late_sender = Ok (k', out) /\
    (forall s, s ∈ kcp_snd_buf late_sender -> must_send late_sender s ->
       carried out (fun s' => seg_same s s' /\ seg_xmit s' = u32 (seg_xmit s + 1) /\
                              seg_ts s' = kcp_current late_sender /\ seg_una s' = kcp_rcv_nxt late_sender)) /\
    (forall a, a ∈ acks late_sender ->
       carried out (fun s' => seg_cmd s' = IKCP_CMD_ACK /\ (seg_sn s', seg_ts s') = a /\
                              seg_una s' = kcp_rcv_nxt late_sender)).
Proof.
  assert (kcp_wf late_sender) as Hwf by (destruct late_sender_inv as (nxt & sp & Hi); by exists 0, nxt, sp, 0, []).
  split; [split; [exact Hwf | exact late_sender_flushable]|].
  split; [split_and!; apply late_sender_values|].
  exact (flush_retransmits late_sender Hwf late_sender_flushable).
Defined.

(** ** When to flush *)

(** The deadline of the next flush has been reached, or is off by ten seconds
    and more. *)
Definition flush_now (k : ikcpcb) (current : Z) : Prop :=
  kcp_updated k = 0 \/ 0 <= _itimediff current (kcp_ts_flush k) \/
  _itimediff current (kcp_ts_flush k) < -10000.

Lemma update_tick_spec k :
  is_u32 (kcp_current k) -> 10 <= kcp_interval k <= 5000 ->
  let d := _itimediff (kcp_current k) (kcp_ts_flush k) in
  ((0 <= d \/ d < -10000) /\
   exists f, update_tick k = ikcp_flush (k <| kcp_ts_flush := f |>) /\
     0 < _itimediff f (kcp_current k) <= kcp_interval k) \/
  (-10000 <= d < 0 /\ update_tick k = Ok (k, [])).
Proof.
  intros Hc Hi. cbv zeta. unfold update_tick.
  pose proof (_itimediff_eq (kcp_current k) (kcp_ts_flush k)) as Hd.
  set (d := _itimediff (kcp_current k) (kcp_ts_flush k)) in *. clearbody d.
  destruct ((d >=? 10000) || (d <? -10000)) eqn:Hb; reflect_bools.
  - left. split; [destruct Hb; reflect_bools; lia|]. simpl.
    rewrite _itimediff_eq. bcase.
    + exfalso. word.
    + eexists. split; [done|]. rewrite _itimediff_eq. word.
  - destruct (d >=? 0) eqn:Hd0; reflect_bools; [left | right; split; [lia | done]].
    split; [lia|]. simpl. rewrite _itimediff_eq. bcase.
    + eexists. split; [done|]. rewrite _itimediff_eq. word.
    + eexists. split; [done|]. rewrite _itimediff_eq. word.
Qed.

Lemma update_cases k current :
  is_u32 current -> 10 <= kcp_interval k <= 5000 ->
  (flush_now k current /\
   exists k1, ikcp_update k current = ikcp_flush k1 /\
     kcp_updated k1 <> 0 /\ kcp_current k1 = current /\
     0 < _itimediff (kcp_ts_flush k1) current <= kcp_interval k /\
     k1 = k <| kcp_current := current |> <| kcp_updated := kcp_updated k1 |>
            <| kcp_ts_flush := kcp_ts_flush k1 |>) \/
  (~ flush_now k current /\ ikcp_update k current = Ok (k <| kcp_current := current |>, [])).
Proof.
  intros Hc Hi. unfold ikcp_update, flush_now. cbv zeta.
  destruct (kcp_updated (k <| kcp_current := current |>) =? 0) eqn:Hu; reflect_bools;
    simpl in Hu.
  - left. split; [by left|].
    match goal with |- context [update_tick ?k] =>
      destruct (update_tick_spec k Hc Hi) as [[_ (f & -> & Hf)]|[Hd _]] end.
    + eexists. split; [done|]. simpl. done.
    + simpl in Hd. rewrite _itimediff_refl in Hd. lia.
  - match goal with |- context [update_tick ?k] =>
      destruct (update_tick_spec k Hc Hi) as [[Hd (f & -> & Hf)]|[Hd ->]] end;
      simpl in Hd.
    + left. split; [by right|]. eexists. split; [done|]. simpl. done.
    + right. split; [|done]. lia.
Qed.

(** [ikcp_update] flushes exactly when the flush deadline is reached (at
    the first call, after a jump of the clock of ten seconds and more too), and
    then the next deadline is after now and at most one interval away, wherever
    the 32-bit clock wraps; otherwise it only records the time. *)
Theorem update_schedule k current :
  is_u32 current -> 10 <= kcp_interval k <= 5000 ->
  (flush_now k current /\
   exists k1, ikcp_update k current = ikcp_flush k1 /\
     kcp_updated k1 <> 0 /\ kcp_current k1 = current /\
     0 < _itimediff (kcp_ts_flush k1) current <= kcp_interval k /\
     k1 = k <| kcp_current := current |> <| kcp_updated := kcp_updated k1 |>
            <| kcp_ts_flush := kcp_ts_flush k1 |>) \/
  (~ flush_now k current /\ ikcp_update k current = Ok (k <| kcp_current := current |>, [])).
Proof. apply update_cases. Qed.

Lemma update_schedule_witness :
  let k := ikcp_setoutput (ikcp_create 7) in
  (is_u32 4294967290 /\ 10 <= kcp_interval k <= 5000) /\
  ((flush_now k 4294967290 /\
   exists k1, ikcp_update k 4294967290 = ikcp_flush k1 /\
     kcp_updated k1 <> 0 /\ kcp_current k1 = 4294967290 /\
     0 < _itimediff (kcp_ts_flush k1) 4294967290 <= kcp_interval k /\
     k1 = k <| kcp_current := 4294967290 |> <| kcp_updated := kcp_updated k1 |>
            <| kcp_ts_flush := kcp_ts_flush k1 |>) \/
  (~ flush_now k 4294967290 /\ ikcp_update k 4294967290 = Ok (k <| kcp_current := 4294967290 |>, []))).
Proof.
  assert (is_u32 4294967290) as Hc by (unfold is_u32; lia).
  assert (10 <= kcp_interval (ikcp_setoutput (ikcp_create 7)) <= 5000) as Hi by (vm_compute; intuition congruence).
  split; [by split|]. exact (update_schedule (ikcp_setoutput (ikcp_create 7)) 4294967290 Hc Hi).
Defined.

(** ** When to call again *)

Lemma check_loop_spec buf current tm :
  match check_loop buf current tm with
  | Some tm' => tm' <= tm /\ Forall (fun s => tm' <= _itimediff (seg_resendts s) current) buf /\
                (0 < tm -> 0 < tm') /\ (tm' = tm \/ Exists (fun s => _itimediff (seg_resendts s) current = tm') buf)
  | None => Exists (fun s => _itimediff (seg_resendts s) current <= 0) buf
  end.
Proof.
  revert tm. induction buf as [|s buf IH]; intros tm; simpl; [split_and!; [lia | done | done | by left]|].
  bcase; [by left|]. specialize (IH (if _itimediff (seg_resendts s) current <? tm
                                  then _itimediff (seg_resendts s) current else tm)).
  destruct (check_loop _ _ _) as [tm'|]; [|by right]. destruct IH as (H1 & H2 & H3 & H4).
  revert H1 H3 H4. bcase; intros H1 H3 H4; split_and!; try lia; try (constructor; try done; lia);
    destruct H4 as [->|H4]; auto.
Qed.

(** C18.  [ikcp_check] names the next moment at which there is work, whatever the state
    and wherever the 32-bit clock wraps: at most one interval from now; a call of
    [ikcp_update] at any earlier moment would do nothing but record the time, with
    no retransmission timer expired; and if it is earlier than a whole interval,
    then at that moment the flush deadline is reached or a segment in flight is to
    be sent again.  (The interval is in the range to which the code clamps it.) *)
Theorem check_next_work k current :
  is_u32 current -> 10 <= kcp_interval k <= 5000 ->
  exists d, ikcp_check k current = u32 (current + d) /\ 0 <= d <= kcp_interval k /\
    (forall e, 0 <= e < d ->
      ikcp_update k (u32 (current + e)) = Ok (k <| kcp_current := u32 (current + e) |>, []) /\
      Forall (fun s => _itimediff (u32 (current + e)) (seg_resendts s) < 0) (kcp_snd_buf k)) /\
    (d < kcp_interval k -> flush_now k (u32 (current + d)) \/
       Exists (fun s => _itimediff (seg_resendts s) (u32 (current + d)) <= 0) (kcp_snd_buf k)).
Proof.
  intros Hc Hi. unfold ikcp_check.
  assert (H0 : flush_now k current \/ Exists (fun s => _itimediff (seg_resendts s) current <= 0) (kcp_snd_buf k) ->
    exists d, current = u32 (current + d) /\ 0 <= d <= kcp_interval k /\
    (forall e, 0 <= e < d ->
      ikcp_update k (u32 (current + e)) = Ok (k <| kcp_current := u32 (current + e) |>, []) /\
      Forall (fun s => _itimediff (u32 (current + e)) (seg_resendts s) < 0) (kcp_snd_buf k)) /\
    (d < kcp_interval k -> flush_now k (u32 (current + d)) \/
       Exists (fun s => _itimediff (seg_resendts s) (u32 (current + d)) <= 0) (kcp_snd_buf k))).
  { intros Hw. exists 0. rewrite Z.add_0_r, u32_small by done. split_and!; try lia. done. }
  destruct (kcp_updated k =? 0) eqn:Hu; reflect_bools; [apply H0; left; by left|].
  set (ts := if _ || _ then current else kcp_ts_flush k).
  destruct (_itimediff current ts >=? 0) eqn:Hts; reflect_bools.
  { apply H0. left. right. unfold ts in Hts. destruct (_ || _) eqn:Hb; reflect_bools; [|lia].
    destruct Hb; reflect_bools; lia. }
  assert (Hn : ts = kcp_ts_flush k /\ -10000 <= _itimediff current (kcp_ts_flush k) < 0).
  { unfold ts in *. destruct (_ || _) eqn:Hb; [rewrite _itimediff_refl in Hts; lia|].
    reflect_bools. split; [done | lia]. }
  destruct Hn as [Hn Hd]. clearbody ts. subst ts. clear Hts.
  pose proof (check_loop_spec (kcp_snd_buf k) current 2147483647) as Hloop.
  destruct (check_loop _ _ _) as [tm|]; [|apply H0; by right]. destruct Hloop as (Hl1 & Hl2 & Hl3 & Hl4).
  rewrite _itimediff_eq in Hd.
  set (m := if tm <? _ then tm else _).
  assert (Hm : 0 < m <= 10000 /\ m <= tm /\ m <= s32 (kcp_ts_flush k - current) /\
    (m = tm \/ m = s32 (kcp_ts_flush k - current))).
  { unfold m. rewrite _itimediff_eq. bcase; word. }
  clearbody m. rewrite (u32_small m) by (unfold is_u32; lia).
  set (d := if m >=? kcp_interval k then kcp_interval k else m).
  assert (Hdm : d <= m /\ 0 < d <= kcp_interval k /\ (d < kcp_interval k -> d = m)) by (unfold d; bcase; lia). clearbody d.
  exists d. split_and!; [done | lia | lia | |].
  - intros e He. split.
    + unfold ikcp_update. cbv zeta. simpl. rewrite (proj2 (Z.eqb_neq _ _) Hu).
      match goal with |- context [update_tick ?k] =>
        destruct (update_tick_spec k (u32_range _) Hi) as [[Hx _]|[_ Hx]]; [exfalso | exact Hx] end.
      simpl in Hx. rewrite _itimediff_eq in Hx. word.
    + eapply Forall_impl; [exact Hl2|]. intros s Hs. cbv beta in *. rewrite _itimediff_eq in *. word.
  - intros Hlt. destruct Hdm as (_ & _ & Heq). rewrite (Heq Hlt) in *.
    destruct Hm as (Hm1 & Hm2 & Hm3 & [Hm|Hm]).
    + right. destruct Hl4 as [->|Hl4]; [lia|]. eapply Exists_impl; [exact Hl4|].
      intros s Hs. cbv beta in *. rewrite _itimediff_eq in *. word.
    + left. right. left. rewrite _itimediff_eq. word.
Qed.

(** A segment in flight times out at 225, the next flush is due at 300. *)
Definition waiting_sender : ikcpcb := late_sender <| kcp_ts_flush := 300 |>.

Lemma check_next_work_witness :
  (is_u32 150 /\ length (kcp_snd_buf waiting_sender) = 1%nat /\ ikcp_check waiting_sender 150 = 225) /\
  exists d, ikcp_check waiting_sender 150 = u32 (150 + d) /\ 0 <= d <= kcp_interval waiting_sender /\
    (forall e, 0 <= e < d ->
      ikcp_update waiting_sender (u32 (150 + e)) = Ok (waiting_sender <| kcp_current := u32 (150 + e) |>, []) /\
      Forall (fun s => _itimediff (u32 (150 + e)) (seg_resendts s) < 0) (kcp_snd_buf waiting_sender)) /\
    (d < kcp_interval waiting_sender -> flush_now waiting_sender (u32 (150 + d)) \/
       Exists (fun s => _itimediff (seg_resendts s) (u32 (150 + d)) <= 0) (kcp_snd_buf waiting_sender)).
Proof.
  assert (is_u32 150) as Hc by (unfold is_u32; lia).
  assert (10 <= kcp_interval waiting_sender <= 5000) as Hi by (vm_compute; intuition congruence).
  split; [split_and!; [exact Hc | vm_compute; reflexivity..]|]. exact (check_next_work waiting_sender 150 Hc Hi).
Defined.

Example busy_sender_check : ikcp_check (busy_sender <| kcp_ts_flush := 60 |>) 40 = 60.
Proof. vm_compute. reflexivity. Qed.
