(* ===== verification/KcpPeer.v ===== *)
(** * KCP: one endpoint of a conversation

    What an endpoint does with segments that its peer really sent.  [ty] are the
    fragments the peer has put on the wire so far, in order; [c] of them have
    been handed to the reader.  The numbers stay below 2^31 here, so the numbers
    on the wire are the positions in the stream. *)

From S2P Require Import Prelude KcpBase KcpWire KcpSend KcpNumbered KcpRecv KcpAck KcpInput KcpInv.

Definition SEQ_MAX : Z := 2147483648.

(** ** The receiver against the stream of its peer *)

(** Segment [i] has arrived. *)
Definition received (r : rx) (i : Z) : Prop := 0 <= i < rx_next r \/ is_Some (rx_pending r !! i).

(** Position [i] of a stream. *)
Definition at_pos (t : list frag) (i : Z) (f : frag) : Prop := 0 <= i /\ t !! Z.to_nat i = Some f.

(** The queue continues what was read, the pending segments are further parts of
    the stream. *)
Record in_ok (t : list frag) (c : nat) (r : rx) : Prop := {
  io_next : rx_next r = Z.of_nat (c + length (rx_queue r));
  io_queue : take c t ++ (frag_of <$> rx_queue r) = take (c + length (rx_queue r)) t;
  io_bound : (c + length (rx_queue r) <= length t)%nat;
  io_pending : map_Forall (fun i s => at_pos t i (frag_of s)) (rx_pending r)
}.

Lemma at_pos_bound t i f : at_pos t i f -> 0 <= i < Z.of_nat (length t).
Proof. intros [Hi Hl]. apply lookup_lt_Some in Hl. lia. Qed.

Lemma received_bound t c r i : in_ok t c r -> received r i -> 0 <= i < Z.of_nat (length t).
Proof.
  intros [Hn _ Hb Hp] [Hi|[s Hs]]; [lia|]. exact (at_pos_bound _ _ _ (Hp i s Hs)).
Qed.

(** More of the stream becomes known. *)
Lemma in_ok_prefix t t' c r : t `prefix_of` t' -> in_ok t c r -> in_ok t' c r.
Proof.
  intros [u ->] [Hn Hq Hb Hp]. constructor; try done.
  - by rewrite !take_app_le by lia.
  - rewrite length_app. lia.
  - intros i s Hi. destruct (Hp i s Hi) as [H0 Hl]. split; [done|]. by apply lookup_app_l_Some.
Qed.

(** Everything received stays received. *)
Definition rx_le (r r' : rx) : Prop := forall i, received r i -> received r' i.

#[export] Instance rx_le_preorder : PreOrder rx_le.
Proof. split; [by intros r i|]. intros r1 r2 r3 H1 H2 i Hi. by apply H2, H1. Qed.

Lemma rx_drain_ok t c fuel wnd r :
  in_ok t c r -> in_ok t c (rx_drain fuel wnd r) /\ rx_le r (rx_drain fuel wnd r) /\
  rx_next r <= rx_next (rx_drain fuel wnd r).
Proof.
  revert r. induction fuel as [|fuel IH]; intros r H; [by split_and!|]. cbn [rx_drain].
  destruct (rx_pending r !! rx_next r) as [s|] eqn:Hs; [|by split_and!].
  destruct (_ <? wnd); [|by split_and!].
  set (r1 := {| rx_next := rx_next r + 1; rx_pending := _; rx_queue := _ |}).
  destruct H as [Hn Hq Hb Hp]. destruct (Hp _ _ Hs) as [Hi Hl].
  assert (Hlen : (c + length (rx_queue r) < length t)%nat).
  { apply lookup_lt_Some in Hl. lia. }
  assert (H1 : in_ok t c r1).
  { constructor; simpl; rewrite ?length_app; simpl.
    - lia.
    - rewrite fmap_app, app_assoc, Hq. rewrite Hn, Nat2Z.id in Hl.
      rewrite Nat.add_1_r, Nat.add_succ_r. by rewrite (take_S_r _ _ _ Hl).
    - lia.
    - by apply map_Forall_delete. }
  destruct (IH r1 H1) as (H2 & H3 & H4). split_and!; [done | | simpl in H4; lia].
  intros i Hi'. apply H3. destruct Hi' as [Hi'|[s' Hs']]; [left; simpl; lia|].
  destruct (decide (i = rx_next r)) as [->|Hne]; [left; simpl; lia|].
  right. exists s'. simpl. by rewrite lookup_delete_ne.
Qed.

Lemma rx_settle_ok t c wnd r :
  in_ok t c r -> in_ok t c (rx_settle wnd r) /\ rx_le r (rx_settle wnd r) /\
  rx_next r <= rx_next (rx_settle wnd r).
Proof. apply rx_drain_ok. Qed.

Lemma rx_push_ok t c wnd i s r :
  in_ok t c r -> at_pos t i (frag_of s) ->
  let r' := rx_push wnd i s r in
  in_ok t c r' /\ rx_le r r' /\ rx_next r <= rx_next r' /\
  (i < rx_next r + wnd -> received r' i).
Proof.
  intros H Hi. cbv zeta. unfold rx_push. case_decide as Hw.
  2:{ split_and!; try done. intros Hlt. left. destruct Hi. lia. }
  set (r1 := match rx_pending r !! i with Some _ => r | None => _ end).
  assert (H1 : in_ok t c r1 /\ rx_le r r1 /\ rx_next r1 = rx_next r /\ received r1 i).
  { unfold r1. destruct (rx_pending r !! i) as [s'|] eqn:Hs.
    - split_and!; try done. right. by exists s'.
    - destruct H as [Hn Hq Hb Hp]. split_and!; [constructor; try done | | done |].
      + simpl. by apply map_Forall_insert_2.
      + intros j [Hj|[s' Hj]]; [by left|]. right. exists s'. simpl.
        rewrite lookup_insert_ne; [done|]. intros ->. congruence.
      + right. exists s. simpl. apply lookup_insert_eq. }
  clearbody r1. destruct H1 as (H1 & H2 & H3 & H4).
  destruct (rx_settle_ok t c wnd r1 H1) as (H5 & H6 & H7).
  split_and!; [done | by transitivity r1 | lia |]. intros _. by apply H6.
Qed.

(** ** The endpoint *)

(** [r] is the abstract receiver of the control block; pending acknowledgements
    are for segments that have arrived. *)
Record peer_ok (ty : list frag) (c : nat) (una nxt : Z) (sp : list (Z * IKCPSEG)) (r : rx)
    (k : ikcpcb) : Prop := {
  po_inv : exists rp, kcp_inv una nxt sp (rx_next r) rp k /\
             rx_pending r = list_to_map rp /\ rx_queue r = kcp_rcv_queue k;
  po_una : 0 <= una;
  po_in : in_ok ty c r;
  po_acks : Forall (fun a => received r a.1) (acks k)
}.

Lemma peer_refines ty c una nxt sp r k : peer_ok ty c una nxt sp r k -> rx_refines r k.
Proof. intros [(rp & H & Hp & Hq) _ _ _]. exists rp. split; [apply H | done]. Qed.

Lemma kcp_inv_una una nxt sp n rp k : kcp_inv una nxt sp n rp k -> 0 <= nxt - una.
Proof. intros H. apply (ki_snd _ _ _ _ _ _ H). Qed.

(** Acknowledging only removes segments that the peer [ry] has received. *)
Definition shrunk (ry : rx) (sp sp' : list (Z * IKCPSEG)) : Prop :=
  (forall p', p' ∈ sp' -> exists p, p ∈ sp /\ p.1 = p'.1 /\ frag_of p.2 = frag_of p'.2) /\
  (forall p, p ∈ sp -> p.1 ∈ sp'.*1 \/ received ry p.1).

#[export] Instance shrunk_preorder ry : PreOrder (shrunk ry).
Proof.
  split.
  - intros sp. split; [by eauto|]. intros p Hp. left. by apply list_elem_of_fmap_2.
  - intros s1 s2 s3 [H1 H2] [H3 H4]. split.
    + intros p'' (p' & Hp' & E1 & E2)%H3. destruct (H1 p' Hp') as (p & Hp & E3 & E4).
      exists p. split_and!; [done | congruence | congruence].
    + intros p [Hp|Hp]%H2; [|by right].
      apply list_elem_of_fmap in Hp as (q & Eq & [Hq|Hq]%H4); rewrite Eq; [by left | by right].
Qed.

Lemma shrunk_filter ry sp (P : Z * IKCPSEG -> Prop) `{!forall p, Decision (P p)} :
  (forall p, p ∈ sp -> ~ P p -> received ry p.1) -> shrunk ry sp (filter P sp).
Proof.
  intros Hrec. split.
  - intros p [_ Hp]%list_elem_of_filter. by exists p.
  - intros p Hp. destruct (decide (P p)) as [HP|HP].
    + left. by apply list_elem_of_fmap_2, list_elem_of_filter.
    + right. by apply Hrec.
Qed.

Lemma shrunk_keys ry sp sp' :
  sp'.*1 = sp.*1 -> frag_of <$> sp'.*2 = frag_of <$> sp.*2 -> shrunk ry sp sp'.
Proof.
  intros Hk Hf. split.
  - intros p' Hp'. apply list_elem_of_lookup in Hp' as [i Hi].
    assert (E1 : sp'.*1 !! i = Some p'.1) by (by rewrite list_lookup_fmap, Hi).
    assert (E2 : (frag_of <$> sp'.*2) !! i = Some (frag_of p'.2))
      by (by rewrite !list_lookup_fmap, Hi).
    rewrite Hk in E1. rewrite Hf in E2. rewrite !list_lookup_fmap in *.
    destruct (sp !! i) as [p|] eqn:Hp; [|done]. exists p.
    split; [by eapply list_elem_of_lookup_2|]. simpl in *. split; congruence.
  - intros p Hp. left. rewrite Hk. by apply list_elem_of_fmap_2.
Qed.

(** A segment its sender wrote truthfully: [ty] is the sender's stream, [ry] what
    the sender has received. *)
Record seg_true (ty : list frag) (ry : rx) (s : IKCPSEG) : Prop := {
  st_push : seg_cmd s = IKCP_CMD_PUSH -> at_pos ty (seg_sn s) (frag_of s);
  st_ack : seg_cmd s = IKCP_CMD_ACK -> received ry (seg_sn s);
  st_una : 0 <= seg_una s <= rx_next ry
}.

(** ** One true segment arrives *)

Section arrival.
Context (ty : list frag) (c : nat) (nxt : Z) (ry : rx).
(** The peer [ry] has received segments this endpoint sent. *)
Hypothesis Hry : forall i, received ry i -> 0 <= i < nxt.
Hypothesis Hnry : rx_next ry <= nxt.
Hypothesis Hnxt : nxt < SEQ_MAX.
Hypothesis Hty : Z.of_nat (length ty) < SEQ_MAX.

(** The pending acknowledgements are in the acknowledgement memory. *)
Lemma acks_view k k' : ack_view k' = ack_view k -> acks k' = acks k.
Proof. intros [= E1 E2 _]. unfold acks, ikcp_ack_get. by rewrite E1, E2. Qed.

(** Dropping acknowledged segments of the window. *)
Lemma peer_filter una sp r k (P : Z * IKCPSEG -> Prop) `{!forall p, Decision (P p)} :
  peer_ok ty c una nxt sp r k ->
  (forall p, p ∈ sp -> ~ P p -> received ry p.1) ->
  exists una' sp', peer_ok ty c una' nxt sp' r (ikcp_shrink_buf (with_snd_buf ((filter P sp).*2) k)) /\
    shrunk ry sp sp'.
Proof.
  intros [(rp & Hk & Hp & Hq) Hu Hin Hacks] Hrec.
  pose proof (swf_buf _ _ _ _ (ki_snd _ _ _ _ _ _ Hk)) as Hb.
  destruct (kcp_inv_sub _ _ _ _ _ _ (filter P sp) Hk) as [Hinv Hrange].
  - eapply numbered_filter, Hb.
  - rewrite (num_buf _ _ _ _ Hb). intros s (p & -> & [_ Hin']%list_elem_of_filter)%list_elem_of_fmap.
    by apply list_elem_of_fmap_2.
  - exists (head_number (filter P sp) nxt), (filter P sp). split; [|by apply shrunk_filter].
    constructor; [|lia|done|].
    + exists rp. split; [exact Hinv|]. split; [done|].
      rewrite Hq. symmetry. exact (f_equal kcp_rcv_queue (shrink_buf_erase _)).
    + set (k1 := with_snd_buf ((filter P sp).*2) k).
      rewrite (acks_view k (ikcp_shrink_buf k1)); [done | exact (f_equal ack_view (shrink_buf_erase k1))].
Qed.

Lemma in_flight_range una sp r k p :
  peer_ok ty c una nxt sp r k -> p ∈ sp -> una <= p.1 < nxt.
Proof.
  intros [(rp & H & _) _ _ _] Hp.
  pose proof (num_range _ _ _ _ (swf_buf _ _ _ _ (ki_snd _ _ _ _ _ _ H))) as Hr.
  rewrite Forall_forall in Hr. by apply Hr.
Qed.

Lemma peer_rmt una sp r k w :
  peer_ok ty c una nxt sp r k -> is_u16 w -> peer_ok ty c una nxt sp r (k <| kcp_rmt_wnd := w |>).
Proof.
  intros [(rp & H & Hp & Hq) Hu Hin Hacks] Hw. constructor; try done.
  exists rp. split; [|done]. eapply kcp_inv_view; [..|exact H]; try done. split; [done | apply H].
Qed.

Lemma peer_input_una una sp r k h :
  peer_ok ty c una nxt sp r k -> header_wf h -> 0 <= h_una h <= rx_next ry ->
  exists una' sp', peer_ok ty c una' nxt sp' r (input_una k h) /\ shrunk ry sp sp'.
Proof using Hry Hnry Hnxt.
  intros H Hh Hu. apply (peer_rmt _ _ _ _ (h_wnd h)) in H; [|apply Hh].
  unfold input_una. set (k1 := k <| kcp_rmt_wnd := h_wnd h |>) in *. clearbody k1.
  destruct (po_inv _ _ _ _ _ _ _ H) as (rp & Hk & _).
  unfold SEQ_MAX in *. pose proof (po_una _ _ _ _ _ _ _ H). pose proof (kcp_inv_una _ _ _ _ _ _ Hk).
  rewrite <- (u32_small (h_una h)) by apply Hh.
  rewrite (parse_una_eq una nxt sp k1 (ki_snd _ _ _ _ _ _ Hk)) by (unfold ack_window; lia).
  apply (peer_filter _ _ _ _ _ H). intros p Hp Hlt. left.
  pose proof (in_flight_range _ _ _ _ _ H Hp). lia.
Qed.

Lemma peer_rtt una sp r k rtt :
  peer_ok ty c una nxt sp r k -> peer_ok ty c una nxt sp r (ikcp_update_ack k rtt).
Proof.
  intros [(rp & H & Hp & Hq) Hu Hin Hacks]. pose proof (update_ack_erase k rtt) as E.
  constructor; try done.
  - exists rp. split; [by apply update_ack_inv|]. split; [done|]. by frame E kcp_rcv_queue.
  - rewrite (acks_view k); [done | exact (f_equal ack_view E)].
Qed.

Lemma peer_input_ack una sp r k h :
  peer_ok ty c una nxt sp r k -> header_wf h -> received ry (h_sn h) ->
  exists una' sp', peer_ok ty c una' nxt sp' r (input_ack k h) /\ shrunk ry sp sp'.
Proof using Hry Hnxt.
  intros H Hh Hrec. unfold input_ack. set (k1 := if _ >=? 0 then _ else k).
  assert (H1 : peer_ok ty c una nxt sp r k1) by (unfold k1; bcase; [by apply peer_rtt | done]).
  clearbody k1. clear H. destruct (po_inv _ _ _ _ _ _ _ H1) as (rp & Hk & _).
  unfold SEQ_MAX in *. pose proof (po_una _ _ _ _ _ _ _ H1). pose proof (kcp_inv_una _ _ _ _ _ _ Hk).
  pose proof (Hry _ Hrec). rewrite <- (u32_small (h_sn h)) by apply Hh.
  rewrite (parse_ack_eq una nxt sp k1 (ki_snd _ _ _ _ _ _ Hk)) by (unfold ack_window; lia).
  apply (peer_filter _ _ _ _ _ H1). intros p Hp Hne.
  apply dec_stable in Hne. by rewrite Hne.
Qed.

(** A push: acknowledged when it is not ahead of the window, stored when it is in
    the window and new. *)
Lemma peer_input_push una sp r k h data :
  peer_ok ty c una nxt sp r k -> header_wf h -> kcp_ackcount k < 2147483647 ->
  h_len h <= Z.of_nat (length data) -> at_pos ty (h_sn h) (frag_of (segment_of h data)) ->
  exists r', peer_ok ty c una nxt sp r' (input_push k h data) /\ rx_le r r' /\ rx_next r <= rx_next r' /\
    kcp_ackcount (input_push k h data) <= kcp_ackcount k + 1.
Proof using Hty.
  intros H Hh Hc Hl Hat. unfold input_push. bcase; [|exists r; split_and!; (done || lia)].
  destruct H as [(rp & Hk & Hp & Hq) Hu Hin Hacks].
  destruct (ack_push_inv _ _ _ _ _ _ (h_sn h) (h_ts h) Hk Hc) as [Hk1 Hc1].
  destruct (ack_push_acks k (h_sn h) (h_ts h) (ki_ack _ _ _ _ _ _ Hk) Hc) as [_ Ha1].
  pose proof (ack_push_erase k (h_sn h) (h_ts h)) as E.
  set (k1 := ikcp_ack_push _ _ _) in *.
  assert (Hq1 : rx_queue r = kcp_rcv_queue k1) by (by frame E kcp_rcv_queue).
  assert (Hw1 : kcp_rcv_wnd k1 = kcp_rcv_wnd k) by (by frame E kcp_rcv_wnd).
  clearbody k1. clear E.
  pose proof (at_pos_bound _ _ _ Hat) as Hbd. unfold SEQ_MAX in Hty.
  pose proof (ki_rcv _ _ _ _ _ _ Hk1) as Hwf. pose proof (ki_rcv _ _ _ _ _ _ Hk) as Hwf0.
  assert (Hn : 0 <= rx_next r < 2147483648) by (destruct Hin as [-> _ ? _]; lia).
  assert (Hi : h_sn h = u32 (h_sn h)) by (symmetry; apply u32_small, Hh).
  pose proof (rwf_wnd _ _ _ Hwf0) as [Hwlo Hwnd]. unfold IKCP_WND_RCV in Hwlo.
  assert (Hdiff : _itimediff (h_sn h) (kcp_rcv_nxt k1) = h_sn h - rx_next r).
  { rewrite (rwf_nxt _ _ _ Hwf), Hi, _itimediff_close; lia. }
  rewrite Hdiff. bcase.
  - assert (Href : rx_refines r k1) by (by exists rp).
    pose proof (parse_data_sim r k1 (h_sn h) (segment_of h data) Href Hi ltac:(lia)) as Hr'.
    pose proof (parse_data_erase k1 (segment_of h data)) as Ed.
    assert (Hall : rx_all rseg_ok (rx_push (kcp_rcv_wnd k1) (h_sn h) (segment_of h data) r)).
    { apply rx_push_all; [apply (rx_refines_all rseg_ok r k1 Href), Hk1|]. destruct Hh. split; [|done].
      unfold seg_sized. simpl. rewrite length_take. unfold is_u32 in *. lia. }
    destruct (rx_push_ok ty c (kcp_rcv_wnd k1) (h_sn h) (segment_of h data) r Hin Hat)
      as (Hin' & Hle & Hnx & Hrec).
    set (r' := rx_push _ _ _ _) in *. clearbody r'.
    exists r'. split; [|split_and!; [done | done | frame Ed kcp_ackcount; lia]].
    assert (Ee : erase_recv (ikcp_parse_data k1 (segment_of h data)) = erase_recv k1)
      by (unfold erase_recv; rewrite Ed; reflexivity).
    destruct Hr' as (rp' & Hwf' & Hp' & Hq').
    constructor; try done.
    + exists rp'. split; [|done].
      apply (kcp_inv_rcv_at _ _ _ _ _ _ _ _ _ Hk1 Hwf' Ee).
      apply (rx_refines_all rseg_ok r'); [by exists rp' | done].
    + rewrite (acks_view k1); [|exact (f_equal ack_view Ed)]. rewrite Ha1.
      apply Forall_app. split.
      * eapply Forall_impl; [exact Hacks|]. intros a. apply Hle.
      * constructor; [|done]. apply Hrec. rewrite Hw1.
        rewrite (rwf_nxt _ _ _ Hwf0), Hi, _itimediff_close_r in Hb; lia.
  - exists r. split; [|split_and!; (done || lia)]. constructor; try done.
    + by exists rp.
    + rewrite Ha1. apply Forall_app. split; [done|]. constructor; [|done]. left. simpl. lia.
Qed.

Lemma header_of_wf s : header_wf (header_of s).
Proof.
  constructor; simpl; first [apply u32_range | apply u16_range | apply u8_range].
Qed.

(** The segment the receiver builds carries the fragment that was sent. *)
Lemma segment_of_frag conv s :
  wire_ok conv s -> frag_of (segment_of (header_of s) (seg_data s)) = frag_of s /\
  h_len (header_of s) = Z.of_nat (length (seg_data s)).
Proof.
  intros [_ _ _ Hf Hs Hl]. unfold frag_of, segment_of, header_of. simpl.
  rewrite Hs, u8_small by done. rewrite u32_small by (unfold is_u32; lia).
  by rewrite Nat2Z.id, take_ge.
Qed.

Lemma peer_probe una sp r k p :
  peer_ok ty c una nxt sp r k -> peer_ok ty c una nxt sp r (k <| kcp_probe := p |>).
Proof.
  intros [(rp & H & Hp & Hq) Hu Hin Hacks]. constructor; try done.
  exists rp. split; [|done]. eapply kcp_inv_view; [..|exact H]; try done. apply H.
Qed.

Lemma received_number i : received ry i -> u32 i = i.
Proof using Hry Hnxt Hty. intros Hi%Hry. apply u32_small. unfold SEQ_MAX, is_u32 in *. lia. Qed.

Lemma peer_input_segment conv una sp r k s flag maxack :
  peer_ok ty c una nxt sp r k -> kcp_ackcount k < 2147483647 ->
  wire_ok conv s -> seg_true ty ry s ->
  let k' := (input_segment k (header_of s) (seg_data s) flag maxack).1.1 in
  exists una' sp' r', peer_ok ty c una' nxt sp' r' k' /\ shrunk ry sp sp' /\ rx_le r r' /\
    rx_next r <= rx_next r' /\ kcp_ackcount k' <= kcp_ackcount k + 1.
Proof using Hry Hnry Hnxt Hty.
  intros H Hc Hw Ht. cbv zeta. unfold input_segment.
  pose proof (header_of_wf s) as Hh. pose proof (st_una _ _ _ Ht) as Hun. unfold SEQ_MAX in *.
  assert (Hu : 0 <= h_una (header_of s) <= rx_next ry).
  { simpl. rewrite u32_small; unfold is_u32; lia. }
  destruct (peer_input_una _ _ _ _ _ H Hh Hu) as (una1 & sp1 & H1 & Hsh1).
  rewrite <- (input_una_ackcount k (header_of s)) in *.
  revert H1 Hc. generalize (input_una k (header_of s)). clear H k. intros k H Hc.
  assert (Hcmd : h_cmd (header_of s) = seg_cmd s).
  { simpl. apply u8_small. pose proof (wok_cmd _ _ Hw) as Hk. unfold known_cmd in Hk. kcp_consts.
    reflect_bools. intuition (reflect_bools; subst). all: word. }
  rewrite Hcmd. bcase; [|bcase; [|bcase]].
  - pose proof (st_ack _ _ _ Ht Hb) as Hrec.
    assert (Hrec' : received ry (h_sn (header_of s))) by (simpl; by rewrite received_number).
    destruct (peer_input_ack _ _ _ _ _ H Hh Hrec') as (una2 & sp2 & H2 & Hsh2).
    pose proof (input_ack_ackcount k (header_of s)) as Ha.
    exists una2, sp2, r. assert (Hsh : shrunk ry sp sp2) by (by transitivity sp1).
    repeat bcase; (split_and!; [done | done | done | lia | simpl; lia]).
  - pose proof (st_push _ _ _ Ht Hb0) as Hat. destruct (segment_of_frag _ _ Hw) as [Hf Hl].
    pose proof (at_pos_bound _ _ _ Hat) as Hbd.
    destruct (peer_input_push una1 sp1 r k (header_of s) (seg_data s) H Hh Hc) as (r' & H2 & Hle & Hnx & Hc2).
    { rewrite Hl. done. }
    { rewrite Hf. simpl. rewrite u32_small; [done | unfold is_u32; lia]. }
    exists una1, sp1, r'. by split_and!.
  - exists una1, sp1, r. split_and!; [by apply peer_probe | done | done | lia | simpl; lia].
  - exists una1, sp1, r. split_and!; [done | done | done | lia | simpl; lia].
Qed.

Lemma peer_input_segments conv segs : forall una sp r k flag maxack,
  peer_ok ty c una nxt sp r k -> kcp_ackcount k + Z.of_nat (length segs) < 2147483648 ->
  Forall (fun s => wire_ok conv s /\ seg_true ty ry s) segs ->
  let k' := (input_segments k segs flag maxack).1.1 in
  exists una' sp' r', peer_ok ty c una' nxt sp' r' k' /\ shrunk ry sp sp' /\ rx_le r r' /\
    rx_next r <= rx_next r'.
Proof using Hry Hnry Hnxt Hty.
  induction segs as [|s segs IH]; intros una sp r k flag maxack H Hc Hs; cbv zeta.
  { exists una, sp, r. by split_and!. }
  apply Forall_cons in Hs as [[Hw Ht] Hs]. cbn [length] in Hc.
  destruct (peer_input_segment conv una sp r k s flag maxack H ltac:(lia) Hw Ht)
    as (una1 & sp1 & r1 & H1 & Hsh1 & Hle1 & Hn1 & Hc1).
  unfold input_segments. cbn [foldl]. fold (input_segments).
  destruct (input_segment k (header_of s) (seg_data s) flag maxack) as [[k1 flag1] maxack1].
  cbn [fst] in *.
  destruct (IH una1 sp1 r1 k1 flag1 maxack1 H1 ltac:(lia) Hs) as (una2 & sp2 & r2 & H2 & Hsh2 & Hle2 & Hn2).
  exists una2, sp2, r2. split_and!; [exact H2 | by transitivity sp1 | by transitivity r1 | lia].
Qed.

Lemma peer_finish una sp r k u flag maxack :
  peer_ok ty c una nxt sp r k ->
  exists sp', peer_ok ty c una nxt sp' r (input_finish k u flag maxack) /\ shrunk ry sp sp'.
Proof.
  intros [(rp & Hk & Hp & Hq) Hu Hin Hacks]. unfold input_finish.
  set (k1 := if flag then _ else k).
  assert (H1 : exists sp', kcp_inv una nxt sp' (rx_next r) rp k1 /\ shrunk ry sp sp').
  { unfold k1. destruct flag; [|by exists sp]. unfold ikcp_parse_fastack. bcase; [by exists sp|].
    pose proof (fastack_scan_same (kcp_snd_buf k) maxack) as Hsame.
    pose proof (swf_buf _ _ _ _ (ki_snd _ _ _ _ _ _ Hk)) as Hb.
    eexists. split; [by apply kcp_inv_same_buf|].
    destruct (numbered_same _ _ _ _ _ Hb Hsame) as [Hb' Hkeys]. apply shrunk_keys; [done|].
    rewrite <- (num_buf _ _ _ _ Hb'), <- (num_buf _ _ _ _ Hb).
    clear -Hsame. induction Hsame as [|s s' l l' (_ & Hf & _) _ IH]; [done|].
    rewrite !fmap_cons, IH. by f_equal. }
  assert (E1 : erase_snd k1 = erase_snd k) by (unfold k1; destruct flag; [apply parse_fastack_erase | done]).
  clearbody k1. destruct H1 as (sp' & H1 & Hsh). exists sp'. split; [|done].
  assert (Hpo : peer_ok ty c una nxt sp' r k1).
  { constructor; try done.
    - exists rp. split; [done|]. split; [done|]. by frame E1 kcp_rcv_queue.
    - rewrite (acks_view k); [done | exact (f_equal ack_view E1)]. }
  bcase; [|done]. pose proof (grow_cwnd_erase k1) as E2.
  destruct Hpo as [(rp' & Hk1 & Hp1 & Hq1) _ _ Ha1]. destruct (ki_rmt _ _ _ _ _ _ Hk1) as [[? _] ?].
  constructor; try done.
  - exists rp'. split; [|split; [done|]].
    + eapply kcp_inv_erase_cwnd; [exact E2 | by apply grow_cwnd_nonneg | done].
    + by frame E2 kcp_rcv_queue.
  - rewrite (acks_view k1); [done | exact (f_equal ack_view E2)].
Qed.

(** A datagram of true segments. *)
Lemma peer_input conv segs una sp r k :
  peer_ok ty c una nxt sp r k -> kcp_conv k = conv -> segs <> [] ->
  Z.of_nat (length (concat (map wire segs))) < 2147483648 ->
  kcp_ackcount k + Z.of_nat (length segs) < 2147483648 ->
  Forall (fun s => wire_ok conv s /\ seg_true ty ry s) segs ->
  exists una' sp' r', peer_ok ty c una' nxt sp' r' (ikcp_input k (concat (map wire segs))).2 /\
    (ikcp_input k (concat (map wire segs))).1 = 0 /\
    shrunk ry sp sp' /\ rx_le r r' /\ rx_next r <= rx_next r'.
Proof using Hry Hnry Hnxt Hty.
  intros H Hconv Hne Hlen Hc Hs. unfold ikcp_input. change (s32 IKCP_OVERHEAD) with 24.
  rewrite s32_small by (unfold is_s32; lia).
  destruct (_ <? 24) eqn:Hb; reflect_bools.
  { destruct segs as [|s segs]; [done|]. cbn [map concat] in Hb.
    rewrite length_app, length_wire in Hb. lia. }
  rewrite (input_loop_wire conv) by
    (done || lia || (eapply Forall_impl; [exact Hs|]; by intros s [? _])).
  destruct (peer_input_segments conv segs una sp r k false 0 H Hc Hs)
    as (una1 & sp1 & r1 & H1 & Hsh & Hle & Hn).
  destruct (input_segments k segs false 0) as [[k1 flag] maxack]. cbn [fst snd] in *.
  destruct (peer_finish una1 sp1 r1 k1 (kcp_snd_una k) flag maxack H1) as (sp2 & H2 & Hsh2).
  exists una1, sp2, r1. split_and!; [done | done | by transitivity sp1 | done | done].
Qed.
End arrival.
