(* ===== verification/KcpPeerOps.v ===== *)
(** * KCP: the calls of an endpoint, against the streams

    Sending, receiving, flushing and updating, in terms of the stream of
    fragments an endpoint has put on the wire ([tx]) and of the peer's stream
    ([ty]). *)

From S2P Require Import Prelude KcpBase KcpWire KcpSend KcpNumbered KcpRecv KcpAck KcpInput KcpInv.
From S2P Require Import KcpFlush KcpFlushSpec KcpUpdate KcpPeer.

Open Scope outcome_scope.

(** ** Streams of messages *)

Definition msg_frags (mss : Z) (msg : bytes) : list frag :=
  fragments (Z.to_nat mss) (num_fragments (Z.to_nat mss) msg) msg.

(** The fragments of a sequence of messages. *)
Definition stream (mss : Z) (msgs : list bytes) : list frag := concat (map (msg_frags mss) msgs).

Lemma stream_app mss l1 l2 : stream mss (l1 ++ l2) = stream mss l1 ++ stream mss l2.
Proof. unfold stream. by rewrite map_app, concat_app. Qed.

Lemma stream_one mss m : stream mss [m] = msg_frags mss m.
Proof. unfold stream. simpl. apply app_nil_r. Qed.

Lemma send_segments_frags k msg : frag_of <$> send_segments k msg = msg_frags (kcp_mss k) msg.
Proof. apply frag_of_seg_of_frag. Qed.

Lemma msg_frags_message mss msg : 0 < mss -> message (msg_frags mss msg) msg.
Proof.
  intros Hm. apply fragments_message; [apply num_fragments_enough; lia | unfold num_fragments; lia].
Qed.

(** The first fragment says how many follow. *)
Lemma msg_frags_head mss msg :
  exists (d : bytes) (l : list frag), msg_frags mss msg = (Z.of_nat (length l), d) :: l.
Proof.
  unfold msg_frags. assert (1 <= num_fragments (Z.to_nat mss) msg)%nat as H by (unfold num_fragments; lia).
  destruct (num_fragments (Z.to_nat mss) msg) as [|n]; [lia|]. simpl.
  exists (take (Z.to_nat mss) msg), (fragments (Z.to_nat mss) n (drop (Z.to_nat mss) msg)).
  by rewrite length_fragments.
Qed.

(** What no call of an endpoint changes. *)
Definition static (k : ikcpcb) := (kcp_conv k, kcp_mtu k, kcp_mss k, kcp_stream k, kcp_output k).

(** ** The sender's stream *)

(** [tx] are the fragments put in the window so far; those in flight are parts
    of it. *)
Record out_ok (tx : list frag) (sp : list (Z * IKCPSEG)) : Prop := {
  oo_flight : Forall (fun p => at_pos tx p.1 (frag_of p.2)) sp
}.

Lemma out_ok_shrunk ry tx sp sp' : shrunk ry sp sp' -> out_ok tx sp -> out_ok tx sp'.
Proof.
  intros [Hs _] [Ho]. constructor. rewrite Forall_forall in *. intros p' Hp'.
  destruct (Hs p' Hp') as (p & Hp & <- & <-). by apply Ho.
Qed.

Lemma at_pos_app t u i f : at_pos t i f -> at_pos (t ++ u) i f.
Proof. intros [Hi Hl]. split; [done|]. by apply lookup_app_l_Some. Qed.

(** Segments that enter the window extend the stream. *)
Lemma out_ok_flush tx sp sp' nxt m new :
  out_ok tx sp -> nxt = Z.of_nat (length tx) -> length new = m ->
  sp'.*1 = sp.*1 ++ seqZ nxt (Z.of_nat m) ->
  frag_of <$> sp'.*2 = (frag_of <$> sp.*2) ++ new -> out_ok (tx ++ new) sp'.
Proof.
  intros [Ho] -> Hm Hk Hf. constructor. apply Forall_lookup. intros i p Hp.
  assert (E1 : sp'.*1 !! i = Some p.1) by (by rewrite list_lookup_fmap, Hp).
  assert (E2 : (frag_of <$> sp'.*2) !! i = Some (frag_of p.2)) by (by rewrite !list_lookup_fmap, Hp).
  rewrite Hk in E1. rewrite Hf in E2.
  destruct (decide (i < length sp)%nat) as [Hlt|Hge].
  - rewrite lookup_app_l in E1 by (by rewrite length_fmap).
    rewrite lookup_app_l in E2 by (by rewrite !length_fmap).
    rewrite !list_lookup_fmap in *. destruct (sp !! i) as [q|] eqn:Hq; [|done].
    apply (inj Some) in E1, E2. rewrite Forall_lookup in Ho. apply at_pos_app.
    rewrite <- E1, <- E2. by apply (Ho i).
  - rewrite lookup_app_r in E1 by (rewrite length_fmap; lia).
    rewrite lookup_app_r in E2 by (rewrite !length_fmap; lia).
    rewrite !length_fmap in *. apply lookup_seqZ in E1 as [E1 Hi].
    rewrite E1. split; [lia|].
    replace (Z.to_nat (Z.of_nat (length tx) + Z.of_nat (i - length sp))) with
      (length tx + (i - length sp))%nat by lia.
    by rewrite lookup_app_r, Nat.add_comm, Nat.add_sub by lia.
Qed.

(** ** Flushing and updating *)

Section peer.
Context (ty : list frag) (c : nat).

(** The fields an update changes before the flush are not read by the
    invariants. *)
Lemma peer_clock una nxt sp r k cur upd_ ts :
  peer_ok ty c una nxt sp r k ->
  peer_ok ty c una nxt sp r
    (k <| kcp_current := cur |> <| kcp_updated := upd_ |> <| kcp_ts_flush := ts |>).
Proof.
  intros [(rp & H & Hp & Hq) Hu Hin Hacks]. constructor; try done.
  exists rp. split; [|done]. eapply kcp_inv_view; [..|exact H]; try done. apply H.
Qed.

Lemma flush_headers_ack k s :
  s ∈ (flush_headers k).1 -> seg_cmd s = IKCP_CMD_ACK -> exists a, a ∈ acks k /\ seg_sn s = a.1.
Proof.
  unfold flush_headers. cbv zeta. cbn [fst]. rewrite !elem_of_app. intros [Hs|Hs] Hc.
  - apply list_elem_of_fmap in Hs as (a & -> & Ha). by exists a.
  - exfalso. unfold cmd_segments in Hs.
    destruct Hs as [Hs|Hs]; destruct (negb _); set_unfold in Hs; subst; try done;
      by destruct Hs as [->|?].
Qed.

(** Everything a flush writes is true. *)
Lemma flush_list_true tx una nxt sp r k m sp' k' rp :
  peer_ok ty c una nxt sp r k -> Z.of_nat (length ty) < SEQ_MAX ->
  Z.of_nat (length tx) < SEQ_MAX -> out_ok tx sp' ->
  flushed una nxt sp (rx_next r) rp k m sp' k' ->
  Forall (seg_true tx r) (flush_list k).
Proof.
  intros [(rp0 & Hk & _ & _) Hu Hin Hacks] Hty Htx [Ho] Hfd. unfold SEQ_MAX in *.
  assert (Hn : 0 <= rx_next r < 2147483648) by (destruct Hin as [-> _ ? _]; lia).
  assert (Hrn : kcp_rcv_nxt k = rx_next r).
  { rewrite (rwf_nxt _ _ _ (ki_rcv _ _ _ _ _ _ Hk)). apply u32_small. unfold is_u32. lia. }
  apply Forall_app. split.
  - apply Forall_forall. intros s Hs. destruct (flush_headers_tmpl k) as [Ht _].
    rewrite Forall_forall in Ht. pose proof (Ht s Hs) as (_ & _ & _ & _ & _ & _ & Hun).
    constructor.
    + intros Hc. exfalso. revert Hs. unfold flush_headers. cbv zeta. cbn [fst].
      rewrite !elem_of_app. unfold cmd_segments. intros [Hs|[Hs|Hs]].
      * apply list_elem_of_fmap in Hs as (a & -> & _). done.
      * destruct (negb _); set_unfold in Hs; [destruct Hs as [->|?]|]; done.
      * destruct (negb _); set_unfold in Hs; [destruct Hs as [->|?]|]; done.
    + intros Hc. destruct (flush_headers_ack k s Hs Hc) as (a & Ha & ->).
      rewrite Forall_forall in Hacks. by apply Hacks.
    + rewrite Hun, Hrn. lia.
  - apply Forall_forall. intros s Hs.
    destruct (fd_pushes _ _ _ _ _ _ _ _ _ Hfd s Hs) as (p & Hp & Hsame).
    apply flush_pushes_from in Hs as (s0 & _ & _ & -> & Hd).
    pose proof (num_sn _ _ _ _ (swf_buf _ _ _ _ (ki_snd _ _ _ _ _ _ (fd_inv _ _ _ _ _ _ _ _ _ Hfd)))) as Hsn.
    rewrite Forall_forall in Ho, Hsn. pose proof (Ho p Hp) as Hat. pose proof (at_pos_bound _ _ _ Hat).
    destruct Hsame as (E1 & E2 & _ & _ & E5). constructor.
    + intros _. rewrite E1, E2, (Hsn p Hp), u32_small by (unfold is_u32; lia). exact Hat.
    + intros Hc. exfalso. rewrite E5 in Hc.
      pose proof (ki_flight _ _ _ _ _ _ (fd_inv _ _ _ _ _ _ _ _ _ Hfd)) as Hfl.
      rewrite Forall_forall in Hfl. destruct (Hfl p.2) as [_ Hc'].
      { rewrite (num_buf _ _ _ _ (swf_buf _ _ _ _ (ki_snd _ _ _ _ _ _ (fd_inv _ _ _ _ _ _ _ _ _ Hfd)))).
        by apply list_elem_of_fmap_2. }
      rewrite Hc' in Hc. done.
    + pose proof (flush_ready_keep k) as Ekeep.
      assert (Er : kcp_rcv_nxt (flush_ready k) = kcp_rcv_nxt k) by (by injection Ekeep).
      unfold flush_step. destruct (flush_due _ _ s0); [..|done];
        unfold flush_stamp; cbn [seg_una set_seg_ts set_seg_wnd set_seg_una upd]; rewrite Er, Hrn; lia.
Qed.

(** A datagram an honest endpoint wrote: [tx] is its stream, [r] what it had
    received. *)
Definition honest (conv : Z) (tx : list frag) (r : rx) (d : bytes) : Prop :=
  exists g, d = datagram g /\ g <> [] /\ Z.of_nat (length d) < 2147483648 /\
    Forall (fun s => wire_ok conv s /\ seg_true tx r s) g.

Lemma honest_mono conv tx tx' r r' d :
  tx `prefix_of` tx' -> rx_le r r' -> rx_next r <= rx_next r' ->
  honest conv tx r d -> honest conv tx' r' d.
Proof.
  intros [u ->] Hle Hn (g & Hd & Hne & Hl & Hg). exists g. split_and!; try done.
  eapply Forall_impl; [exact Hg|]. intros s [Hw [Hp Ha Hun]]. split; [done|]. constructor.
  - intros Hc. apply at_pos_app. by apply Hp.
  - intros Hc. by apply Hle, Ha.
  - lia.
Qed.

Lemma pack_honest conv tx r mtu segs :
  0 <= mtu < 2147483648 -> Forall (fun s => wire_ok conv s /\ fits mtu s) segs ->
  Forall (seg_true tx r) segs -> Forall (honest conv tx r) (map datagram (pack mtu segs)).
Proof.
  intros Hm Hs Ht. destruct (pack_spec mtu (proj1 Hm) segs) as [Hcat Hsz].
  { eapply Forall_impl; [exact Hs|]. by intros s [_ ?]. }
  apply Forall_map, Forall_forall. intros g Hg. rewrite Forall_forall in Hsz.
  destruct (Hsz g Hg) as [Hne Hl]. exists g. split_and!; [done | done | lia |].
  apply Forall_forall. intros s Hin.
  assert (Hin' : s ∈ segs).
  { rewrite <- Hcat. apply list_elem_of_In, in_concat. exists g.
    split; by apply list_elem_of_In. }
  rewrite Forall_forall in Hs, Ht. split; [by apply Hs | by apply Ht].
Qed.

Lemma peer_flush tx una nxt sp r k :
  peer_ok ty c una nxt sp r k -> flushable k -> Z.of_nat (length ty) < SEQ_MAX ->
  nxt = Z.of_nat (length tx) -> out_ok tx sp ->
  nxt + Z.of_nat (length (kcp_snd_queue k)) < SEQ_MAX ->
  exists k' out sp' new, ikcp_flush k = Ok (k', out) /\
    peer_ok ty c una (Z.of_nat (length (tx ++ new))) sp' r k' /\ out_ok (tx ++ new) sp' /\
    frag_of <$> kcp_snd_queue k = new ++ (frag_of <$> kcp_snd_queue k') /\
    sp'.*1 = sp.*1 ++ seqZ nxt (Z.of_nat (length new)) /\
    Forall (honest (kcp_conv k) (tx ++ new) r) out /\
    static k' = static k /\ kcp_updated k' = kcp_updated k /\ kcp_ackcount k' = 0.
Proof.
  intros Hpo Hfl Hty -> Hout Hmax.
  destruct (po_inv _ _ _ _ _ _ _ Hpo) as (rp & Hk & Hp & Hq).
  destruct (flush_run _ _ _ _ _ _ Hk Hfl) as (m & sp' & k' & Heq & Hfd & Hok).
  set (new := frag_of <$> take m (kcp_snd_queue k)).
  assert (Hm : length new = m).
  { pose proof (f_equal length (fd_keys _ _ _ _ _ _ _ _ _ Hfd)) as E1.
    pose proof (f_equal length (fd_frags _ _ _ _ _ _ _ _ _ Hfd)) as E2. fold new in E2.
    rewrite length_fmap, length_app, length_fmap, length_seqZ in E1.
    rewrite length_app, !length_fmap in E2. lia. }
  assert (Hout' : out_ok (tx ++ new) sp').
  { eapply out_ok_flush; [exact Hout | done | exact Hm | |]; apply Hfd. }
  assert (Hqueue : frag_of <$> kcp_snd_queue k = new ++ (frag_of <$> kcp_snd_queue k')).
  { unfold new. rewrite <- fmap_app. f_equal. apply Hfd. }
  pose proof (fd_keep _ _ _ _ _ _ _ _ _ Hfd) as Ekeep.
  pose proof (f_equal length Hqueue) as Hlq. rewrite length_app, !length_fmap in Hlq.
  exists k', (map datagram (pack (kcp_mtu k) (flush_list k))), sp', new. split_and!; try done.
  - constructor.
    + exists rp. split; [|split; [done|]].
      * rewrite length_app, Nat2Z.inj_add, Hm. apply Hfd.
      * rewrite Hq. by injection Ekeep.
    + apply Hpo.
    + apply Hpo.
    + unfold acks. rewrite (fd_acks _ _ _ _ _ _ _ _ _ Hfd). constructor.
  - rewrite Hm. apply Hfd.
  - apply pack_honest; [destruct Hfl as [_ _ Hmtu _]; unfold mtu_ok in Hmtu; lia | exact Hok |].
    eapply flush_list_true; [exact Hpo | done | rewrite length_app; lia | done | exact Hfd].
  - injection Ekeep. intros. unfold static. congruence.
  - by injection Ekeep.
  - apply Hfd.
Qed.

(** The hypotheses on the configuration, and room for acknowledgements. *)
Record peer_cfg (k : ikcpcb) : Prop := {
  pc_stream : kcp_stream k = 0;
  pc_output : kcp_output k = true;
  pc_mtu : mtu_ok k
}.

Lemma peer_cfg_static k k' : static k' = static k -> peer_cfg k -> peer_cfg k'.
Proof. intros [= E1 E2 E3 E4 E5] [H1 H2 H3]. constructor; unfold mtu_ok in *; congruence. Qed.

Lemma peer_update tx una nxt sp r k cur :
  peer_ok ty c una nxt sp r k -> peer_cfg k -> is_u32 cur -> kcp_ackcount k < 2147483648 ->
  Z.of_nat (length ty) < SEQ_MAX -> nxt = Z.of_nat (length tx) -> out_ok tx sp ->
  nxt + Z.of_nat (length (kcp_snd_queue k)) < SEQ_MAX ->
  exists k' out sp' new, ikcp_update k cur = Ok (k', out) /\
    peer_ok ty c una (Z.of_nat (length (tx ++ new))) sp' r k' /\ out_ok (tx ++ new) sp' /\
    frag_of <$> kcp_snd_queue k = new ++ (frag_of <$> kcp_snd_queue k') /\
    sp'.*1 = sp.*1 ++ seqZ nxt (Z.of_nat (length new)) /\
    Forall (honest (kcp_conv k) (tx ++ new) r) out /\
    static k' = static k /\ kcp_ackcount k' <= kcp_ackcount k.
Proof.
  intros Hpo [Hst Ho Hmtu] Hcur Hac Hty Hnxt Hout Hmax.
  destruct (po_inv _ _ _ _ _ _ _ Hpo) as (rp & Hk & _ & _).
  pose proof (cfg_interval _ (ki_cfg _ _ _ _ _ _ Hk)) as Hi.
  pose proof (awf_count _ (ki_ack _ _ _ _ _ _ Hk)) as Hac0.
  destruct (update_cases k cur Hcur Hi) as [[_ (k1 & -> & Hup & _ & _ & Hk1)]|[_ ->]].
  - assert (Hpo1 : peer_ok ty c una nxt sp r k1) by (rewrite Hk1; by apply peer_clock).
    assert (E : kcp_snd_queue k1 = kcp_snd_queue k /\ static k1 = static k /\ kcp_ackcount k1 = kcp_ackcount k)
      by (rewrite Hk1; done).
    clear Hk1. destruct E as (Eq & Es & Ea). injection Es as Ec Em Ess Est Eo.
    destruct (peer_flush tx una nxt sp r k1) as (k' & out & sp' & new & H1 & H2 & H3 & H4 & H5 & H6 & H7 & _ & H8);
      try done.
    { constructor; unfold mtu_ok in *; congruence || lia. }
    { by rewrite Eq. }
    exists k', out, sp', new. rewrite Eq in H4. rewrite Ec in H6. split_and!; try done; [|lia].
    rewrite H7. unfold static. congruence.
  - exists (k <| kcp_current := cur |>), [], sp, []. rewrite app_nil_r. simpl.
    split_and!; try done; [|by rewrite app_nil_r].
    rewrite <- Hnxt. pose proof (peer_clock una nxt sp r k cur (kcp_updated k) (kcp_ts_flush k) Hpo) as H.
    assert (E : k <| kcp_current := cur |> <| kcp_updated := kcp_updated k |> <| kcp_ts_flush := kcp_ts_flush k |>
                = k <| kcp_current := cur |>) by (destruct k; done).
    by rewrite E in H.
Qed.

(** ** Sending and receiving messages *)

Lemma peer_send una nxt sp r k msg :
  peer_ok ty c una nxt sp r k -> peer_cfg k -> Z.of_nat (length msg) < 2147483648 ->
  exists ret k', ikcp_send k msg (Z.of_nat (length msg)) = Ok (ret, k') /\
    ((ret = 0 /\ peer_ok ty c una nxt sp r k' /\ static k' = static k /\
      kcp_ackcount k' = kcp_ackcount k /\
      frag_of <$> kcp_snd_queue k' = (frag_of <$> kcp_snd_queue k) ++ msg_frags (kcp_mss k) msg)
     \/ (ret = -2 /\ k' = k)).
Proof.
  intros Hpo Hcfg Hl. destruct (po_inv _ _ _ _ _ _ _ Hpo) as (rp & Hk & Hp & Hq).
  destruct (kcp_inv_send _ _ _ _ _ _ msg Hk (pc_stream _ Hcfg) Hl) as (ret & k' & Heq & Hk' & Hcase).
  exists ret, k'. split; [done|]. destruct Hcase as [[-> Hqueue]|[-> ->]]; [left | by right].
  revert Heq. rewrite ikcp_send_eq; try done; [|apply Hk|apply Hcfg|].
  2:{ rewrite (swf_nque _ _ _ _ (ki_snd _ _ _ _ _ _ Hk)). apply u32_range. }
  cbv zeta. destruct (_ <? IKCP_WND_RCV); [|done]. intros Heq.
  injection Heq as Heq. split; [done|].
  assert (Hpo' : peer_ok ty c una nxt sp r k').
  { constructor; [|apply Hpo..|].
    - exists rp. split; [done|]. split; [done|]. by rewrite <- Heq.
    - rewrite <- Heq. apply Hpo. }
  split; [done|]. rewrite Hqueue, fmap_app, send_segments_frags. by rewrite <- Heq.
Qed.

(** A successful read means that a whole message was waiting. *)
Lemma recv_ready k len ret out k' :
  ikcp_recv k true len = Ok (ret, out, k') -> 0 <= ret -> is_s32 len -> 0 <= len ->
  0 <= ikcp_peeksize k <= len /\ kcp_rcv_queue k <> [].
Proof.
  unfold ikcp_recv. destruct (kcp_rcv_queue k) as [|s q]; [by intros [= <-]|]. cbv zeta.
  destruct (ikcp_peeksize k <? 0) eqn:H1; [by intros [= <-]|].
  destruct (len <? 0) eqn:H2; reflect_bools; [lia|].
  destruct (ikcp_peeksize k >? len) eqn:H3; [by intros [= <-]|].
  reflect_bools. intros _ _ _ _. split; [lia | done].
Qed.

(** Reading: the next message of the peer, whole, or nothing. *)
Section reading.
Context (mss : Z) (sent : list bytes) (j : nat).
Hypothesis Hpre : ty `prefix_of` stream mss sent.
Hypothesis Hj : (j <= length sent)%nat.
Hypothesis Hc : c = length (stream mss (take j sent)).

Lemma stream_take_S m :
  sent !! j = Some m -> stream mss (take (S j) sent) = stream mss (take j sent) ++ msg_frags mss m.
Proof. intros Hm. by rewrite (take_S_r _ _ _ Hm), stream_app, stream_one. Qed.

(** What waits for the reader is the beginning of the next messages. *)
Lemma queue_next q :
  take c ty ++ q = take (c + length q) ty -> (c + length q <= length ty)%nat -> q <> [] ->
  exists m u, sent !! j = Some m /\ q = take (length q) (msg_frags mss m ++ u).
Proof using Hpre Hj Hc.
  intros Hq Hb Hne. destruct Hpre as [v Hv].
  assert (Hd : q = take (length q) (drop c (stream mss sent))).
  { rewrite Hv, drop_app_le, take_app_le by (rewrite ?length_drop; lia).
    rewrite take_drop_commute, <- Hq, drop_app_length'; [done|].
    rewrite length_take. lia. }
  rewrite <- (take_drop j sent), stream_app, Hc, drop_app_length in Hd.
  destruct (drop j sent) as [|m l] eqn:Hdrop.
  { exfalso. apply Hne. rewrite Hd. apply take_nil. }
  exists m, (stream mss l). split; [|exact Hd].
  rewrite <- (Nat.add_0_r j), <- lookup_drop, Hdrop. done.
Qed.

(** Removing a whole message from the front of the queue. *)
Lemma in_ok_read r m rest :
  in_ok ty c r -> sent !! j = Some m -> frag_of <$> rx_queue r = msg_frags mss m ++ (frag_of <$> rest) ->
  in_ok ty (length (stream mss (take (S j) sent)))
    {| rx_next := rx_next r; rx_pending := rx_pending r; rx_queue := rest |}.
Proof using Hc Hj.
  intros [Hn Hq Hb Hp] Hm Hf. rewrite (stream_take_S m Hm), length_app, <- Hc.
  pose proof (f_equal length Hf) as Hl. rewrite length_app, !length_fmap in Hl.
  constructor; simpl.
  - lia.
  - rewrite Hf in Hq. rewrite app_assoc in Hq.
    assert (Ht : take (c + length (msg_frags mss m)) ty = take c ty ++ msg_frags mss m).
    { transitivity (take (c + length (msg_frags mss m)) (take (c + length (rx_queue r)) ty)).
      { by rewrite take_take, Nat.min_l by lia. }
      rewrite <- Hq. apply take_app_length'. rewrite length_app, length_take. lia. }
    rewrite Ht, Hq. f_equal. lia.
  - lia.
  - done.
Qed.

Lemma peer_recv una nxt sp r k len :
  peer_ok ty c una nxt sp r k -> 0 < mss ->
  Forall (fun m => Z.of_nat (length m) < 2147483648) sent -> is_s32 len -> 0 <= len ->
  exists ret out k', ikcp_recv k true len = Ok (ret, out, k') /\ static k' = static k /\
    ack_view k' = ack_view k /\ kcp_snd_queue k' = kcp_snd_queue k /\
    ((ret < 0 /\ out = [] /\ k' = k) \/
     (0 <= ret /\ exists r', sent !! j = Some out /\
        peer_ok ty (length (stream mss (take (S j) sent))) una nxt sp r' k' /\
        rx_le r r' /\ rx_next r <= rx_next r')).
Proof using Hpre Hj Hc.
  intros Hpo Hmss Hsent Hlen Hl0.
  pose proof (po_inv _ _ _ _ _ _ _ Hpo) as (rp & Hk & Hp & Hq).
  pose proof (ki_rseg _ _ _ _ _ _ Hk) as Hrs. apply Forall_app in Hrs as [_ Hrq].
  assert (Hu : Forall (fun s => is_u32 (seg_frg s)) (kcp_rcv_queue k)).
  { eapply Forall_impl; [exact Hrq|]. intros s [_ Hs]. word. }
  destruct (recv_total k true len Hu) as (ret & out & k' & Heq & Hneg & Her).
  exists ret, out, k'. split; [done|].
  split; [exact (f_equal static Her)|]. split; [exact (f_equal ack_view Her)|].
  split; [exact (f_equal kcp_snd_queue Her)|].
  destruct (decide (ret < 0)) as [Hr|Hr]; [left; destruct (Hneg Hr); done | right].
  split; [lia|]. destruct (recv_ready _ _ _ _ _ Heq ltac:(lia) Hlen Hl0) as [[Hps1 Hps2] Hne].
  pose proof (po_in _ _ _ _ _ _ _ Hpo) as Hin.
  destruct (queue_next (frag_of <$> rx_queue r)) as (m & u & Hm & Hqm).
  { rewrite length_fmap. apply Hin. }
  { rewrite length_fmap. apply Hin. }
  { rewrite Hq. by destruct (kcp_rcv_queue k). }
  rewrite length_fmap in Hqm.
  assert (Hfull : (length (msg_frags mss m) <= length (rx_queue r))%nat).
  { destruct (msg_frags_head mss m) as (d & l & Hd). rewrite Hd in Hqm |- *. rewrite Hq in *.
    destruct (kcp_rcv_queue k) as [|s q] eqn:Hrq'; [done|].
    rewrite (peeksize_eq _ _ _ Hrq') in Hps1. cbn [length take app] in Hqm. 
    rewrite fmap_cons in Hqm. injection Hqm as Hfrg _ _.
    apply Forall_cons in Hrq as [[_ Hf8] _]. unfold is_u8 in Hf8.
    rewrite (rwf_nque _ _ _ (ki_rcv _ _ _ _ _ _ Hk)), Hrq' in Hps1.
    rewrite u32_small in Hps1 by (unfold is_u32; lia).
    destruct (_ || _) eqn:Hc1 in Hps1; [|lia]. reflect_bools. cbn [length] in *.
    destruct Hc1 as [Hc1|Hc1]; [|apply negb_true_iff in Hc1]; reflect_bools; lia. }
  set (L := length (msg_frags mss m)) in *.
  assert (Hsplit : rx_queue r = take L (rx_queue r) ++ drop L (rx_queue r)) by (by rewrite take_drop).
  assert (Hseg : frag_of <$> take L (rx_queue r) = msg_frags mss m).
  { rewrite fmap_take, Hqm, take_take, Nat.min_l by done. apply take_app_length. }
  assert (Hmsg : message (map frag_of (take L (rx_queue r))) m).
  { change (map frag_of (take L (rx_queue r))) with (frag_of <$> take L (rx_queue r)).
    rewrite Hseg. by apply msg_frags_message. }
  rewrite <- Hq in Hrq, Hu.
  assert (Hsz : Forall seg_sized (take L (rx_queue r))).
  { apply Forall_take. eapply Forall_impl; [exact Hrq|]. by intros s [? _]. }
  assert (Hml : Z.of_nat (length m) < 2147483648).
  { rewrite Forall_lookup in Hsent. by apply (Hsent j). }
  pose proof (rwf_nque _ _ _ (ki_rcv _ _ _ _ _ _ Hk)) as Hnq.
  pose proof (rwf_que _ _ _ (ki_rcv _ _ _ _ _ _ Hk)) as Hcap.
  pose proof (rwf_wnd _ _ _ (ki_rcv _ _ _ _ _ _ Hk)) as [_ Hwnd].
  rewrite (peeksize_message _ _ m k (eq_trans (eq_sym Hq) Hsplit) Hmsg Hsz Hnq ltac:(lia) Hml) in Hps2.
  destruct (recv_message r k _ _ m len (peer_refines _ _ _ _ _ _ _ Hpo) Hsplit Hmsg Hsz Hu)
    as (k2 & Heq2 & Href & Her2 & _); [unfold is_s32 in Hlen; lia|].
  rewrite Heq2 in Heq. injection Heq as <- <- <-.
  set (r1 := {| rx_next := rx_next r; rx_pending := rx_pending r; rx_queue := drop L (rx_queue r) |}) in *.
  assert (Hin1 : in_ok ty (length (stream mss (take (S j) sent))) r1).
  { apply (in_ok_read r m); [done | done |]. by rewrite <- Hseg, <- fmap_app, <- Hsplit. }
  destruct (rx_settle_ok _ _ (kcp_rcv_wnd k) r1 Hin1) as (Hin2 & Hle & Hn2).
  exists (rx_settle (kcp_rcv_wnd k) r1). split; [done|]. split; [|done].
  assert (Hall : rx_all rseg_ok (rx_settle (kcp_rcv_wnd k) r1)).
  { apply rx_settle_all. destruct (proj2 (rx_refines_all rseg_ok r k (peer_refines _ _ _ _ _ _ _ Hpo))
      (ki_rseg _ _ _ _ _ _ Hk)) as [Hpa Hqa]. split; [done|]. simpl. by apply Forall_drop. }
  pose proof (proj1 (rx_refines_all _ _ _ Href) Hall) as Hall'.
  destruct Href as (rp' & Hwf' & Hp' & Hq').
  constructor; [|apply Hpo|done|].
  - exists rp'. split; [|done]. by eapply kcp_inv_rcv_at.
  - rewrite (acks_view k); [|exact (f_equal ack_view Her2)].
    eapply Forall_impl; [apply Hpo|]. intros a. apply Hle.
Qed.
End reading.
End peer.
