(* ===== verification/KcpEndpoint.v ===== *)
(** * KCP as the applications use it

    Both programs create their control blocks the same way ([ikcp_create],
    [ikcp_setoutput], [ikcp_nodelay(kcp, 1, 10, 1, 1)]) and then call only
    [ikcp_send], [ikcp_input], [ikcp_peeksize], [ikcp_recv], [ikcp_update] and
    [ikcp_flush].  [endpoint] is the invariant of such a control block, one lemma
    per call; the size of what [ikcp_recv] copies is proved here too. *)

From S2P Require Import Prelude KcpBase KcpWire KcpSend KcpNumbered KcpRecv KcpAck KcpInput KcpInv.
From S2P Require Import KcpFlush KcpFlushSpec KcpUpdate KcpPeer KcpPeerOps.

Open Scope outcome_scope.

(** ** The segments the receive side holds *)

Definition rcv_all (P : IKCPSEG -> Prop) (k : ikcpcb) : Prop :=
  Forall P (kcp_rcv_buf k) /\ Forall P (kcp_rcv_queue k).

Lemma rcv_all_view P k k' : rcv_view k' = rcv_view k -> rcv_all P k -> rcv_all P k'.
Proof. unfold rcv_all. intros [=]. congruence. Qed.

Lemma move_ready_all P buf k :
  kcp_rcv_buf k = buf -> rcv_all P k -> rcv_all P (move_ready buf k).
Proof.
  revert k. induction buf as [|seg buf IH]; intros k Hb H; simpl; [done|].
  bcase; [|done]. destruct H as [Hbuf Hq]. rewrite Hb in Hbuf. inversion_clear Hbuf.
  apply IH; [done|]. split; simpl; [done|]. apply Forall_app. by split; [|constructor].
Qed.

Lemma rcv_scan_all P rbuf sn after before' after' :
  rcv_scan rbuf sn after = Some (before', after') ->
  Forall P rbuf -> Forall P after -> Forall P before' /\ Forall P after'.
Proof.
  revert after. induction rbuf as [|seg rbuf IH]; intros after; simpl; [by intros [= <- <-]|].
  repeat case_match; try done; [by intros [= <- <-]|].
  intros Heq Hr Ha. inversion_clear Hr. by eapply IH; [done..|constructor].
Qed.

Lemma parse_data_all P k s : rcv_all P k -> P s -> rcv_all P (ikcp_parse_data k s).
Proof.
  intros [Hb Hq] Hs. unfold ikcp_parse_data. bcase; [by split|].
  apply move_ready_all; [done|].
  destruct (rcv_scan _ _ _) as [[before after]|] eqn:Hscan; [|by split].
  apply (rcv_scan_all P) in Hscan as [H1 H2]; [|by apply Forall_reverse_iff|constructor].
  split; simpl; [|done]. apply Forall_app. split; [by apply Forall_reverse_iff|by constructor].
Qed.

Lemma input_segment_all P k h data flag maxack :
  (h_cmd h = IKCP_CMD_PUSH -> P (segment_of h data)) ->
  rcv_all P k -> rcv_all P (input_segment k h data flag maxack).1.1.
Proof.
  intros Hs H. unfold input_segment.
  assert (H1 : rcv_all P (input_una k h)).
  { unfold input_una. eapply rcv_all_view; [|exact H].
    etransitivity; [exact (f_equal rcv_view (shrink_buf_erase _))|].
    exact (f_equal rcv_view (parse_una_erase _ _)). }
  clear H. generalize dependent (input_una k h). clear k. intros k H. bcase.
  - assert (rcv_all P (input_ack k h)); [|by repeat bcase].
    unfold input_ack. eapply rcv_all_view; [|exact H].
    etransitivity; [exact (f_equal rcv_view (shrink_buf_erase _))|].
    etransitivity; [exact (f_equal rcv_view (parse_ack_erase _ _))|].
    bcase; [exact (f_equal rcv_view (update_ack_erase _ _)) | done].
  - bcase; [|by bcase]. simpl. unfold input_push. bcase; [|done].
    assert (H1 : rcv_all P (ikcp_ack_push k (h_sn h) (h_ts h))).
    { eapply rcv_all_view; [|exact H]. exact (f_equal rcv_view (ack_push_erase k (h_sn h) (h_ts h))). }
    bcase; [|done]. apply parse_data_all; [done|]. by apply Hs.
Qed.

(** Every segment stored while a datagram is read is at most as long as it. *)
Lemma input_loop_all m fuel : forall k data flag maxack,
  (length data <= m)%nat -> rcv_all (fun s => (length (seg_data s) <= m)%nat) k ->
  rcv_all (fun s => (length (seg_data s) <= m)%nat) (loop_exit_kcp (input_loop fuel k data flag maxack)).
Proof.
  induction fuel as [|fuel IH]; intros k data flag maxack Hl H; [done|]. cbn [input_loop].
  bcase; [done|]. pose proof (decode_header_length data) as Hd.
  destruct (decode_header data) as [h data']. simpl in Hd.
  repeat (match goal with |- context [if ?b then Return _ _ else _] => destruct b; [done|] end).
  pose proof (input_segment_all (fun s => (length (seg_data s) <= m)%nat) k h data' flag maxack) as Hseg.
  destruct (input_segment k h data' flag maxack) as [[k' flag'] maxack'].
  apply IH; [rewrite length_drop; lia|]. apply Hseg; [|done].
  intros _. simpl. rewrite length_take. lia.
Qed.

Lemma input_finish_rcv k u flag maxack : rcv_view (input_finish k u flag maxack) = rcv_view k.
Proof.
  unfold input_finish. set (k1 := if flag then _ else k).
  assert (E : rcv_view k1 = rcv_view k).
  { unfold k1. destruct flag; [exact (f_equal rcv_view (parse_fastack_erase k maxack)) | done]. }
  clearbody k1. rewrite <- E. bcase; [exact (f_equal rcv_view (grow_cwnd_erase k1)) | done].
Qed.

Lemma input_all m k data :
  (length data <= m)%nat -> rcv_all (fun s => (length (seg_data s) <= m)%nat) k ->
  rcv_all (fun s => (length (seg_data s) <= m)%nat) (ikcp_input k data).2.
Proof.
  intros Hl H. unfold ikcp_input. bcase; [done|].
  pose proof (input_loop_all m (S (length data)) k data false 0 Hl H) as Hloop.
  destruct (input_loop _ _ _ _ _) as [k1 flag maxack|ret k1]; simpl in *; [|done].
  by eapply rcv_all_view; [apply input_finish_rcv|].
Qed.

(** ** What [ikcp_recv] copies *)

Definition queue_bytes (queue : list IKCPSEG) : Z :=
  foldr (fun s n => Z.of_nat (length (seg_data s)) + n) 0 queue.

Lemma queue_bytes_nonneg queue : 0 <= queue_bytes queue.
Proof. induction queue; simpl; lia. Qed.

Lemma queue_bytes_bound m queue :
  Forall (fun s => (length (seg_data s) <= m)%nat) queue ->
  queue_bytes queue <= Z.of_nat m * Z.of_nat (length queue).
Proof. induction 1; simpl; lia. Qed.

Lemma recv_merge_out queue ispeek : forall out len k,
  Forall seg_sized queue -> len = Z.of_nat (length out) ->
  Z.of_nat (length out) + queue_bytes queue < 2147483648 ->
  (recv_merge queue ispeek true out len k).1.2 =
    Z.of_nat (length (recv_merge queue ispeek true out len k).1.1).
Proof.
  induction queue as [|s queue IH]; intros out len k Hs Hl Hb; [done|].
  inversion_clear Hs as [|? ? Hsz Hs']. simpl in Hb. pose proof (queue_bytes_nonneg queue).
  cbn [recv_merge]. unfold seg_sized in Hsz. rewrite Hsz, Nat2Z.id, take_ge by lia.
  assert (E : s32 (u32 (len + Z.of_nat (length (seg_data s)))) = Z.of_nat (length (out ++ seg_data s))).
  { rewrite length_app. word. }
  rewrite E. destruct (_ =? 0); [done|]. apply IH; [done | done |]. rewrite length_app. lia.
Qed.

(** A call that returns a size has copied exactly that many bytes, never more
    than the caller's buffer holds; the size is the one [ikcp_peeksize]
    announces. *)
Lemma recv_size k len ret out k' :
  Forall seg_sized (kcp_rcv_queue k) -> queue_bytes (kcp_rcv_queue k) < 2147483648 ->
  0 <= len -> ikcp_recv k true len = Ok (ret, out, k') -> 0 <= ret ->
  ret = ikcp_peeksize k /\ ret = Z.of_nat (length out) /\ ret <= len.
Proof.
  intros Hs Hb Hl Heq Hret. unfold ikcp_recv in Heq.
  destruct (kcp_rcv_queue k) as [|s queue] eqn:Hq; [injection Heq as <- <- <-; lia|].
  cbv zeta in Heq. revert Heq. rewrite (proj2 (Z.ltb_ge len 0)) by done.
  bcase; [intros [= <- <- <-]; lia|]. bcase; [intros [= <- <- <-]; lia|].
  pose proof (recv_merge_out (s :: queue) false [] 0 k Hs eq_refl ltac:(simpl in *; lia)) as Hm.
  destruct (recv_merge _ _ _ _ _ _) as [[out1 len1] k1]. simpl in Hm. bcase; [done|].
  intros [= <- <- _]. lia.
Qed.

Lemma peeksize_range k : is_s32 (ikcp_peeksize k).
Proof.
  assert (Hloop : forall q z, is_s32 z -> is_s32 (peek_loop q z)).
  { induction q as [|s q IH]; intros z Hz; cbn [peek_loop]; [done|].
    bcase; [apply s32_range | apply IH, s32_range]. }
  unfold ikcp_peeksize. destruct (kcp_rcv_queue k) as [|s q]; [unfold is_s32; lia|].
  bcase; [apply s32_range|]. bcase; [unfold is_s32; lia|]. apply Hloop. unfold is_s32; lia.
Qed.

(** ** The invariant of a session's control block *)

Definition DATAGRAM_MAX : Z := 4096.

Record endpoint (conv : Z) (k : ikcpcb) : Prop := {
  ep_wf : kcp_wf k;
  ep_static : static k = static (app_kcp conv);
  ep_wnd : kcp_rcv_wnd k = IKCP_WND_RCV;
  ep_small : rcv_all (fun s => (length (seg_data s) <= Z.to_nat DATAGRAM_MAX)%nat) k
}.

Section endpoint.
Context {conv : Z} {k : ikcpcb}.
Hypothesis Hep : endpoint conv k.

Lemma endpoint_conv : kcp_conv k = conv.
Proof using Hep. by injection (ep_static _ _ Hep). Qed.
Lemma endpoint_stream : kcp_stream k = 0.
Proof using Hep. by injection (ep_static _ _ Hep). Qed.
Lemma endpoint_mss : kcp_mss k = 1376.
Proof using Hep. injection (ep_static _ _ Hep) as _ _ -> _ _. reflexivity. Qed.
Lemma endpoint_mtu : kcp_mtu k = 1400.
Proof using Hep. injection (ep_static _ _ Hep) as _ -> _ _ _. reflexivity. Qed.
Lemma endpoint_output : kcp_output k = true.
Proof using Hep. by injection (ep_static _ _ Hep). Qed.

Lemma endpoint_acks : 0 <= kcp_ackcount k.
Proof using Hep. destruct (ep_wf _ _ Hep) as (? & ? & ? & ? & ? & H). apply (awf_count _ (ki_ack _ _ _ _ _ _ H)). Qed.

Lemma endpoint_sized :
  Forall seg_sized (kcp_rcv_queue k) /\ queue_bytes (kcp_rcv_queue k) < 2147483648.
Proof using Hep.
  destruct (ep_wf _ _ Hep) as (? & ? & ? & n & rp & H). split.
  - pose proof (ki_rseg _ _ _ _ _ _ H) as Hr. apply Forall_app in Hr as [_ Hr].
    eapply Forall_impl; [exact Hr|]. by intros s [].
  - pose proof (queue_bytes_bound _ _ (proj2 (ep_small _ _ Hep))) as Hb.
    pose proof (rwf_que _ _ _ (ki_rcv _ _ _ _ _ _ H)) as Hq. rewrite (ep_wnd _ _ Hep) in Hq.
    kcp_consts. unfold DATAGRAM_MAX in *. lia.
Qed.
End endpoint.

Lemma endpoint_create conv : is_u32 conv -> endpoint conv (app_kcp conv).
Proof.
  intros Hc. constructor; [|done..|by split; constructor].
  exists 0, 0, [], 0, []. apply kcp_inv_nodelay; [unfold is_s32; lia|].
  apply kcp_inv_setoutput. by apply kcp_inv_create.
Qed.

(** Fewer than 128 fragments of 1376 bytes each. *)
Definition MESSAGE_MAX : Z := 174752.

Lemma endpoint_send conv k msg :
  endpoint conv k -> Z.of_nat (length msg) < 2147483648 ->
  exists ret k', ikcp_send k msg (Z.of_nat (length msg)) = Ok (ret, k') /\ endpoint conv k' /\
    kcp_ackcount k' = kcp_ackcount k /\ kcp_updated k' = kcp_updated k /\
    ((ret = 0 /\ kcp_snd_queue k' = kcp_snd_queue k ++ send_segments k msg) \/ (ret = -2 /\ k' = k)) /\
    (Z.of_nat (length msg) <= MESSAGE_MAX -> ret = 0).
Proof.
  intros Hep Hl. destruct (ep_wf _ _ Hep) as (una & nxt & sp & n & rp & H).
  destruct (kcp_inv_send _ _ _ _ _ _ msg H (endpoint_stream Hep) Hl) as (ret & k' & Heq & H' & Hcase).
  exists ret, k'. split; [done|]. revert Heq.
  rewrite ikcp_send_eq; [|apply H|apply (endpoint_stream Hep)| |done].
  2:{ rewrite (swf_nque _ _ _ _ (ki_snd _ _ _ _ _ _ H)). apply u32_range. }
  cbv zeta. intros Heq.
  assert (Hframe : endpoint conv k' /\ kcp_ackcount k' = kcp_ackcount k /\ kcp_updated k' = kcp_updated k).
  { revert Heq. bcase; intros [= <- <-]; [|done]. split; [|done].
    destruct Hep as [? Hst ? ?]. constructor; [by exists una, nxt, sp, n, rp | exact Hst | done | done]. }
  destruct Hframe as (? & ? & ?). split_and!; try done. intros Hm.
  revert Heq. bcase; [by intros [= <- _]|].
  exfalso. unfold send_segments in Hb. rewrite length_map, length_fragments, (endpoint_mss Hep) in Hb.
  unfold num_fragments in Hb. change (Z.to_nat 1376) with 1376%nat in Hb. unfold MESSAGE_MAX, IKCP_WND_RCV in *.
  assert (length msg + 1376 - 1 < 128 * 1376)%nat by lia.
  assert ((length msg + 1376 - 1) / 1376 < 128)%nat by (apply Nat.Div0.div_lt_upper_bound; lia). lia.
Qed.

(** What an incoming datagram never touches. *)
Lemma input_frame k data :
  let view k := (static k, kcp_rcv_wnd k, kcp_updated k, kcp_snd_queue k) in
  view (ikcp_input k data).2 = view k.
Proof.
  assert (Hloop : forall fuel k data flag maxack, erase_input (loop_exit_kcp (input_loop fuel k data flag maxack)) = erase_input k).
  { clear. induction fuel as [|fuel IH]; intros k data flag maxack; [done|]. cbn [input_loop].
    bcase; [done|]. destruct (decode_header data) as [h data'].
    repeat (match goal with |- context [if ?b then Return _ _ else _] => destruct b; [done|] end).
    pose proof (input_segment_erase k h data' flag maxack) as E.
    destruct (input_segment k h data' flag maxack) as [[k' flag'] maxack'].
    by rewrite IH. }
  assert (Hfin : forall k u flag maxack, erase_snd (erase_cwnd (input_finish k u flag maxack)) = erase_snd (erase_cwnd k)).
  { clear. intros k u flag maxack. unfold input_finish. set (k1 := if flag then _ else k).
    assert (E : erase_snd (erase_cwnd k1) = erase_snd (erase_cwnd k)).
    { unfold k1. destruct flag; [|done]. exact (f_equal erase_cwnd (parse_fastack_erase k maxack)). }
    clearbody k1. rewrite <- E. bcase; [|done]. by rewrite grow_cwnd_erase. }
  intros view. unfold ikcp_input. bcase; [done|].
  pose proof (Hloop (S (length data)) k data false 0) as E1.
  destruct (input_loop _ _ _ _ _) as [k1 flag maxack|ret k1]; simpl in *;
    [rewrite <- (f_equal view E1 : view k1 = view k); exact (f_equal view (Hfin _ _ _ _))|].
  exact (f_equal view E1).
Qed.

Lemma input_static k data : static (ikcp_input k data).2 = static k /\
  kcp_rcv_wnd (ikcp_input k data).2 = kcp_rcv_wnd k /\
  kcp_updated (ikcp_input k data).2 = kcp_updated k.
Proof.
  pose proof (input_frame k data) as E. cbv zeta in E.
  split_and!; [exact (f_equal (fun p => p.1.1.1) E) | exact (f_equal (fun p => p.1.1.2) E) | exact (f_equal (fun p => p.1.2) E)].
Qed.

Lemma endpoint_input conv k data :
  endpoint conv k -> Z.of_nat (length data) <= DATAGRAM_MAX ->
  kcp_ackcount k + DATAGRAM_MAX < 2147483648 ->
  endpoint conv (ikcp_input k data).2 /\
  kcp_ackcount (ikcp_input k data).2 <= kcp_ackcount k + Z.of_nat (length data) /\
  kcp_updated (ikcp_input k data).2 = kcp_updated k.
Proof.
  intros Hep Hl Hc. destruct (ikcp_input_inv k data (ep_wf _ _ Hep)) as [Hwf [_ Hac]]; [lia|].
  destruct (input_static k data) as (Hst & Hw & Hu). split_and!; [|done|done].
  destruct Hep as [_ Hst0 Hw0 Hsm]. constructor; [done | congruence | congruence |].
  apply input_all; [unfold DATAGRAM_MAX in *; lia | done].
Qed.

(** [ikcp_recv] with a buffer of the size [ikcp_peeksize] announced. *)
Lemma endpoint_recv conv k :
  endpoint conv k -> 0 <= ikcp_peeksize k ->
  exists out k', ikcp_recv k true (ikcp_peeksize k) = Ok (ikcp_peeksize k, out, k') /\
    Z.of_nat (length out) = ikcp_peeksize k /\ endpoint conv k' /\
    kcp_ackcount k' = kcp_ackcount k /\ kcp_updated k' = kcp_updated k.
Proof.
  intros Hep Hp. destruct (ep_wf _ _ Hep) as (una & nxt & sp & n & rp & H).
  destruct (kcp_inv_recv _ _ _ _ _ _ true (ikcp_peeksize k) H) as (ret & out & k' & n' & rp' & Heq & H').
  destruct (recv_total k true (ikcp_peeksize k)) as (ret2 & out2 & k2 & Heq2 & _ & Her).
  { pose proof (ki_rseg _ _ _ _ _ _ H) as Hr. apply Forall_app in Hr as [_ Hr].
    eapply Forall_impl; [exact Hr|]. intros s [_ Hu]. word. }
  rewrite Heq in Heq2. injection Heq2 as <- <- <-.
  assert (Hret : 0 <= ret /\ rcv_all (fun s => (length (seg_data s) <= Z.to_nat DATAGRAM_MAX)%nat) k').
  { revert Heq. unfold ikcp_recv. destruct (kcp_rcv_queue k) as [|s queue] eqn:Hq.
    { exfalso. revert Hp. unfold ikcp_peeksize. rewrite Hq. lia. }
    cbv zeta. rewrite (proj2 (Z.ltb_ge (ikcp_peeksize k) 0)) by done.
    bcase; [lia|].
    destruct (recv_merge_drop _ false true [] 0 k Hq) as (queue' & [pre Hpre] & Hm);
      [rewrite <- Hq; apply (rwf_nque _ _ _ (ki_rcv _ _ _ _ _ _ H)) | | ].
    { rewrite <- Hq. pose proof (rwf_que _ _ _ (ki_rcv _ _ _ _ _ _ H)).
      pose proof (rwf_wnd _ _ _ (ki_rcv _ _ _ _ _ _ H)). lia. }
    destruct (recv_merge _ _ _ _ _ _) as [[out1 len1] k1]. simpl in Hm. bcase; [done|].
    intros [= <- <- <-]. split; [lia|].
    assert (Hall : rcv_all (fun s => (length (seg_data s) <= Z.to_nat DATAGRAM_MAX)%nat) k1).
    { pose proof (ep_small _ _ Hep) as [Hs1 Hs2]. subst k1. split; [done|]. simpl.
      rewrite Hq, Hpre in Hs2. by apply Forall_app in Hs2 as [_ ?]. }
    apply (move_ready_all _ (kcp_rcv_buf k1)) in Hall; [|done].
    match goal with |- context [if ?b then _ else _] => destruct b end; exact Hall. }
  destruct Hret as [Hret Hall]. destruct (endpoint_sized Hep) as [Hsz Hqb].
  destruct (recv_size k _ _ _ _ Hsz Hqb Hp Heq Hret) as (-> & Hlen & _).
  exists out, k'. split_and!; try done.
  - constructor; [by exists una, nxt, sp, n', rp' | | | done].
    + rewrite <- (ep_static _ _ Hep). exact (f_equal static Her).
    + rewrite <- (ep_wnd _ _ Hep). by frame Her kcp_rcv_wnd.
  - by frame Her kcp_ackcount.
  - by frame Her kcp_updated.
Qed.

Lemma endpoint_flush conv k :
  endpoint conv k -> kcp_ackcount k < 2147483648 ->
  exists k' out, ikcp_flush k = Ok (k', out) /\ endpoint conv k' /\ kcp_updated k' = kcp_updated k /\
    kcp_ackcount k' <= kcp_ackcount k /\
    Forall (fun d => 0 < Z.of_nat (length d) <= 1400) out /\
    (kcp_updated k = 0 -> k' = k /\ out = []).
Proof.
  intros Hep Hac. destruct (decide (kcp_updated k = 0)) as [Hu|Hu].
  { exists k, []. unfold ikcp_flush. rewrite Hu. split_and!; auto; lia. }
  destruct (ep_wf _ _ Hep) as (una & nxt & sp & n & rp & H).
  assert (Hf : flushable k).
  { constructor; [done | exact (endpoint_output Hep) | | done]. unfold mtu_ok. rewrite (endpoint_mtu Hep). lia. }
  destruct (flush_run _ _ _ _ _ _ H Hf) as (m & sp' & k' & Heq & Hfd & Hfits).
  exists k', (map datagram (pack (kcp_mtu k) (flush_list k))).
  pose proof (fd_keep _ _ _ _ _ _ _ _ _ Hfd) as Hkeep. pose proof (fd_acks _ _ _ _ _ _ _ _ _ Hfd) as Hack.
  pose proof (endpoint_acks Hep). split_and!; try done; try lia.
  - destruct Hep as [_ Hst Hw [Hsb Hsq]]. injection Hkeep. intros.
    constructor; [by eexists _, _, _, _, _; exact (fd_inv _ _ _ _ _ _ _ _ _ Hfd) | | congruence |].
    + rewrite <- Hst. unfold static. congruence.
    + split; congruence.
  - injection Hkeep. congruence.
  - rewrite <- (endpoint_mtu Hep).
    apply Forall_and in Hfits as [_ Hfit]. assert (Hm : 0 <= kcp_mtu k) by (rewrite (endpoint_mtu Hep); lia).
    destruct (pack_spec (kcp_mtu k) Hm _ Hfit) as [_ Hsz].
    apply Forall_map. eapply Forall_impl; [exact Hsz|]. intros [|s g] [Hne Hl]; [done|].
    cbv beta in *. split; [|exact Hl].
    unfold datagram. cbn [map concat]. rewrite length_app, length_wire. lia.
Qed.

Lemma endpoint_update conv k cur :
  endpoint conv k -> is_u32 cur -> kcp_ackcount k < 2147483648 ->
  exists k' out, ikcp_update k cur = Ok (k', out) /\ endpoint conv k' /\ kcp_updated k' <> 0 /\
    kcp_ackcount k' <= kcp_ackcount k /\
    Forall (fun d => 0 < Z.of_nat (length d) <= 1400) out.
Proof.
  intros Hep Hc Hac. destruct (ep_wf _ _ Hep) as (una & nxt & sp & n & rp & H).
  assert (Hframe : forall k1, kcp_ackcount k1 = kcp_ackcount k -> static k1 = static k ->
    snd_view k1 = snd_view k -> rcv_view k1 = rcv_view k -> ack_view k1 = ack_view k ->
    cfg_view k1 = cfg_view k -> kcp_rmt_wnd k1 = kcp_rmt_wnd k /\ kcp_cwnd k1 = kcp_cwnd k ->
    endpoint conv k1).
  { intros k1 _ E1 E2 E3 E4 E5 [E6 E7]. destruct Hep as [_ Hst Hw Hsm].
    constructor; [|congruence|by injection E3; congruence|by eapply rcv_all_view].
    exists una, nxt, sp, n, rp. eapply kcp_inv_view; [..|exact H]; try done.
    rewrite E6, E7. apply H. }
  destruct (update_cases k cur Hc (cfg_interval _ (ki_cfg _ _ _ _ _ _ H)))
    as [[_ (k1 & -> & Hu & _ & _ & E)]|[Hn ->]].
  - assert (H1 : endpoint conv k1 /\ kcp_ackcount k1 = kcp_ackcount k).
    { split; [apply Hframe|]; by rewrite E. }
    destruct H1 as [H1 Hac1]. rewrite <- Hac1 in Hac.
    destruct (endpoint_flush _ _ H1 Hac) as (k' & out & -> & H' & Hu' & Hac' & Hout & _).
    exists k', out. split_and!; try done; [congruence | lia].
  - eexists _, []. split; [done|]. split; [by apply Hframe|]. split_and!; [|simpl; lia|constructor].
    simpl. intros Hu. apply Hn. by left.
Qed.
