(* ===== verification/KcpProtocol.v ===== *)
(** * KCP: two endpoints and a network

    Two control blocks of one conversation exchange datagrams over a network
    that loses, duplicates, delays and reorders them at will: a datagram, once
    emitted, may be delivered any number of times at any later moment, or never.
    The end-to-end theorems follow: what the reader gets is a prefix of what the
    writer sent, no call ever fails an assertion, and a fragment leaves the
    sender's buffers only when the receiver has it.

    The runs considered have fewer than 2^31 fragments per direction (beyond, a
    datagram delayed for 2^31 fragments could be taken for a new one; 32-bit
    numbers give no protection against that). *)

From S2P Require Import Prelude KcpBase KcpWire KcpSend KcpNumbered KcpRecv KcpAck KcpInput KcpInv.
From S2P Require Import KcpFlush KcpFlushSpec KcpUpdate KcpPeer KcpPeerOps.

Open Scope outcome_scope.

(** ** The system *)

(** An endpoint: its control block, the datagrams it has emitted, the messages
    its user sent (and [ikcp_send] accepted) and the messages its user read. *)
Record peer := { p_kcp : ikcpcb; p_out : list bytes; p_sent : list bytes; p_got : list bytes }.

Definition peer_mss (x : peer) : Z := kcp_mss (p_kcp x).

(** A call at endpoint [x]; [y] is the other one. *)
Inductive local_step (x y : peer) : peer -> Prop :=
  | step_send msg ret k' :
      Z.of_nat (length msg) < 2147483648 ->
      Z.of_nat (length (stream (peer_mss x) (p_sent x ++ [msg]))) < SEQ_MAX ->
      ikcp_send (p_kcp x) msg (Z.of_nat (length msg)) = Ok (ret, k') ->
      local_step x y {| p_kcp := k'; p_out := p_out x;
                        p_sent := if ret =? 0 then p_sent x ++ [msg] else p_sent x;
                        p_got := p_got x |}
  | step_recv len ret out k' :
      is_s32 len -> 0 <= len -> ikcp_recv (p_kcp x) true len = Ok (ret, out, k') ->
      local_step x y {| p_kcp := k'; p_out := p_out x; p_sent := p_sent x;
                        p_got := if ret <? 0 then p_got x else p_got x ++ [out] |}
  | step_update cur k' out :
      is_u32 cur -> ikcp_update (p_kcp x) cur = Ok (k', out) ->
      local_step x y {| p_kcp := k'; p_out := p_out x ++ out; p_sent := p_sent x; p_got := p_got x |}
  | step_flush k' out :
      ikcp_flush (p_kcp x) = Ok (k', out) ->
      local_step x y {| p_kcp := k'; p_out := p_out x ++ out; p_sent := p_sent x; p_got := p_got x |}
  | step_input d :
      d ∈ p_out y -> kcp_ackcount (p_kcp x) + Z.of_nat (length d) < 2147483648 ->
      local_step x y {| p_kcp := (ikcp_input (p_kcp x) d).2; p_out := p_out x; p_sent := p_sent x;
                        p_got := p_got x |}.

Inductive step : peer * peer -> peer * peer -> Prop :=
  | step_left x y x' : local_step x y x' -> step (x, y) (x', y)
  | step_right x y y' : local_step y x y' -> step (x, y) (x, y').

(** A control block at the start of a conversation. *)
Record fresh (conv : Z) (k : ikcpcb) : Prop := {
  fr_inv : kcp_inv 0 0 [] 0 [] k;
  fr_conv : kcp_conv k = conv;
  fr_cfg : peer_cfg k;
  fr_acks : kcp_ackcount k = 0;
  fr_queues : kcp_snd_queue k = [] /\ kcp_rcv_queue k = []
}.

Definition new_peer (k : ikcpcb) : peer := {| p_kcp := k; p_out := []; p_sent := []; p_got := [] |}.

Definition initial (s : peer * peer) : Prop :=
  exists conv k1 k2, fresh conv k1 /\ fresh conv k2 /\ s = (new_peer k1, new_peer k2).

Definition reachable (s : peer * peer) : Prop := exists s0, initial s0 /\ rtc step s0 s.

Lemma app_kcp_fresh conv : is_u32 conv -> fresh conv (app_kcp conv).
Proof.
  intros Hc. constructor; try done.
  apply kcp_inv_nodelay; [unfold is_s32; lia|]. apply kcp_inv_setoutput. by apply kcp_inv_create.
Qed.

(** ** The invariant *)

(** What the proof knows of an endpoint beyond its state: the unbounded value of
    [snd_una], the fragments sent, the segments in flight, the abstract receiver,
    and how many messages were read. *)
Record ghost := { g_una : Z; g_tx : list frag; g_sp : list (Z * IKCPSEG); g_rx : rx; g_read : nat }.

Definition g_count (mss : Z) (msgs : list bytes) (g : ghost) : nat :=
  length (stream mss (take (g_read g) msgs)).

(** Endpoint [x] alone, against the fragments [ty] its peer has sent, [c] of
    which were read. *)
Record peer_inv (conv : Z) (ty : list frag) (c : nat) (g : ghost) (x : peer) : Prop := {
  pi_ok : peer_ok ty c (g_una g) (Z.of_nat (length (g_tx g))) (g_sp g) (g_rx g) (p_kcp x);
  pi_cfg : peer_cfg (p_kcp x);
  pi_conv : kcp_conv (p_kcp x) = conv;
  pi_acks : kcp_ackcount (p_kcp x) < 2147483648;
  pi_out : out_ok (g_tx g) (g_sp g);
  pi_stream : stream (peer_mss x) (p_sent x) = g_tx g ++ (frag_of <$> kcp_snd_queue (p_kcp x));
  pi_max : Z.of_nat (length (stream (peer_mss x) (p_sent x))) < SEQ_MAX;
  pi_small : Forall (fun m => Z.of_nat (length m) < 2147483648) (p_sent x);
  pi_honest : Forall (honest conv (g_tx g) (g_rx g)) (p_out x)
}.

(** The direction from [x] to [y]. *)
Record link (gx : ghost) (x : peer) (gy : ghost) (y : peer) : Prop := {
  lk_got : p_got y = take (g_read gy) (p_sent x);
  lk_read : (g_read gy <= length (p_sent x))%nat;
  lk_cover : forall i, 0 <= i < Z.of_nat (length (g_tx gx)) ->
               i ∈ (g_sp gx).*1 \/ received (g_rx gy) i
}.

Record sys_inv (conv : Z) (gx gy : ghost) (x y : peer) : Prop := {
  si_x : peer_inv conv (g_tx gy) (g_count (peer_mss y) (p_sent y) gx) gx x;
  si_y : peer_inv conv (g_tx gx) (g_count (peer_mss x) (p_sent x) gy) gy y;
  si_xy : link gx x gy y;
  si_yx : link gy y gx x
}.

Lemma sys_inv_sym conv gx gy x y : sys_inv conv gx gy x y -> sys_inv conv gy gx y x.
Proof. intros []. by constructor. Qed.

Lemma sys_inv_initial conv k1 k2 :
  fresh conv k1 -> fresh conv k2 -> exists gx gy, sys_inv conv gx gy (new_peer k1) (new_peer k2).
Proof.
  intros H1 H2.
  set (g := {| g_una := 0; g_tx := []; g_sp := []; g_read := 0;
               g_rx := {| rx_next := 0; rx_pending := ∅; rx_queue := [] |} |}).
  assert (Hp : forall k mss, fresh conv k -> peer_inv conv [] (g_count mss [] g) g (new_peer k)).
  { intros k mss [Hi Hc Hcfg Ha [Hq1 Hq2]]. constructor; simpl; try done; try lia.
    - constructor; try done.
      + by exists [].
      + unfold acks. rewrite Ha. constructor.
    - by rewrite Hq1. }
  assert (Hl : forall k k', link g (new_peer k) g (new_peer k')).
  { intros k k'. constructor; simpl; [done | lia | lia]. }
  exists g, g. constructor; [apply Hp | apply Hp | apply Hl | apply Hl]; done.
Qed.

(** ** Preservation *)

(** More of the peer's stream, the same reader. *)
Lemma peer_inv_stream conv ty ty' c g x :
  ty `prefix_of` ty' -> peer_inv conv ty c g x -> peer_inv conv ty' c g x.
Proof.
  intros Hp [[] ? ? ? ? ? ? ? ?]. constructor; try done. constructor; try done.
  by eapply in_ok_prefix.
Qed.

Lemma rx_bounds ty c una nxt sp r k :
  peer_ok ty c una nxt sp r k ->
  (forall i, received r i -> 0 <= i < Z.of_nat (length ty)) /\ rx_next r <= Z.of_nat (length ty).
Proof.
  intros H. pose proof (po_in _ _ _ _ _ _ _ H) as Hin. split.
  - intros i. by apply (received_bound ty c).
  - destruct Hin as [-> _ ? _]. lia.
Qed.

Lemma stream_max_tx conv ty c g x :
  peer_inv conv ty c g x ->
  Z.of_nat (length (g_tx g)) + Z.of_nat (length (kcp_snd_queue (p_kcp x))) < SEQ_MAX.
Proof.
  intros H. pose proof (pi_max _ _ _ _ _ H) as Hm. rewrite (pi_stream _ _ _ _ _ H) in Hm.
  rewrite length_app, length_fmap in Hm. lia.
Qed.

Lemma honest_list_mono conv tx tx' r r' l :
  tx `prefix_of` tx' -> rx_le r r' -> rx_next r <= rx_next r' ->
  Forall (honest conv tx r) l -> Forall (honest conv tx' r') l.
Proof. intros H1 H2 H3 H. eapply Forall_impl; [exact H|]. intros d. by apply honest_mono. Qed.

Lemma static_mss k k' : static k' = static k -> kcp_mss k' = kcp_mss k.
Proof. intros E. by injection E. Qed.

(** Frames of [ikcp_input]. *)
Definition input_keep (k : ikcpcb) := (static k, kcp_snd_queue k).

Lemma input_loop_keep fuel : forall k data flag maxack,
  input_keep (loop_exit_kcp (input_loop fuel k data flag maxack)) = input_keep k.
Proof.
  induction fuel as [|fuel IH]; intros k data flag maxack; [done|]. cbn [input_loop].
  destruct (_ <? IKCP_OVERHEAD); [done|]. destruct (decode_header data) as [h data'].
  destruct (negb _); [done|]. destruct (_ || _); [done|]. destruct (negb _); [done|].
  pose proof (input_segment_erase k h data' flag maxack) as E.
  destruct (input_segment k h data' flag maxack) as [[k1 flag1] maxack1]. cbn [fst] in E.
  rewrite IH. exact (f_equal input_keep E).
Qed.

Lemma input_keep_eq k data : input_keep (ikcp_input k data).2 = input_keep k.
Proof.
  unfold ikcp_input. destruct (_ <? _); [done|].
  pose proof (input_loop_keep (S (length data)) k data false 0) as E.
  destruct (input_loop _ _ _ _ _) as [k1 flag maxack|ret k1]; cbn [loop_exit_kcp snd] in *; [|done].
  rewrite <- E. unfold input_finish. set (k2 := if flag then _ else k1).
  assert (E2 : erase_snd k2 = erase_snd k1) by (unfold k2; destruct flag; [apply parse_fastack_erase | done]).
  transitivity (input_keep k2); [|exact (f_equal input_keep E2)].
  bcase; [exact (f_equal input_keep (grow_cwnd_erase k2)) | done].
Qed.

Lemma length_datagram g : (length g <= length (datagram g))%nat.
Proof.
  unfold datagram. induction g as [|s g IH]; cbn [map concat length]; [lia|].
  rewrite length_app, length_wire. lia.
Qed.

(** The new endpoint and its effect on the other one. *)
Definition step_ok (conv : Z) (gx gy : ghost) (x' y : peer) : Prop :=
  exists gx', sys_inv conv gx' gy x' y.

Section preserve.
Context (conv : Z) (gx gy : ghost) (x y : peer).
Hypothesis Hinv : sys_inv conv gx gy x y.

Lemma step_send_ok msg ret k' :
  Z.of_nat (length msg) < 2147483648 ->
  Z.of_nat (length (stream (peer_mss x) (p_sent x ++ [msg]))) < SEQ_MAX ->
  ikcp_send (p_kcp x) msg (Z.of_nat (length msg)) = Ok (ret, k') ->
  step_ok conv gx gy {| p_kcp := k'; p_out := p_out x;
                        p_sent := if ret =? 0 then p_sent x ++ [msg] else p_sent x;
                        p_got := p_got x |} y.
Proof using Hinv.
  intros Hl Hmax Heq. destruct Hinv as [Hx Hy Hxy Hyx].
  destruct (peer_send _ _ _ _ _ _ _ msg (pi_ok _ _ _ _ _ Hx) (pi_cfg _ _ _ _ _ Hx) Hl)
    as (ret' & k'' & Heq' & Hcase). rewrite Heq in Heq'. injection Heq' as <- <-.
  exists gx. destruct Hcase as [(-> & Hok & Hst & Hac & Hq)|[-> ->]]; [|by destruct x].
  rewrite Z.eqb_refl. pose proof (static_mss _ _ Hst) as Hmss.
  destruct Hxy as [Hgot Hread Hcover].
  assert (Htake : take (g_read gy) (p_sent x ++ [msg]) = take (g_read gy) (p_sent x))
    by (by rewrite take_app_le).
  constructor.
  - destruct Hx as [H1 H2 H3 H4 H5 H6 H7 H8 H9]. constructor; simpl; try done.
    + by apply (peer_cfg_static (p_kcp x)).
    + injection Hst. intros. congruence.
    + lia.
    + unfold peer_mss in *. simpl. rewrite Hmss, stream_app, stream_one, H6, Hq, app_assoc. done.
    + unfold peer_mss in *. simpl. by rewrite Hmss.
    + apply Forall_app. by split; [|constructor].
  - unfold g_count, peer_mss in *. simpl. by rewrite Htake, Hmss.
  - constructor; simpl; [by rewrite Htake | rewrite length_app; lia | done].
  - by destruct Hyx.
Qed.

Lemma step_recv_ok len ret out k' :
  is_s32 len -> 0 <= len -> ikcp_recv (p_kcp x) true len = Ok (ret, out, k') ->
  step_ok conv gx gy {| p_kcp := k'; p_out := p_out x; p_sent := p_sent x;
                        p_got := if ret <? 0 then p_got x else p_got x ++ [out] |} y.
Proof using Hinv.
  intros Hs Hl Heq. destruct Hinv as [Hx Hy Hxy Hyx].
  pose proof (pi_cfg _ _ _ _ _ Hy) as Hcy.
  assert (Hmss : 0 < peer_mss y).
  { destruct (po_inv _ _ _ _ _ _ _ (pi_ok _ _ _ _ _ Hy)) as (rp & Hk & _).
    pose proof (kcp_inv_mss _ _ _ _ _ _ Hk). unfold peer_mss. lia. }
  assert (Hpre : g_tx gy `prefix_of` stream (peer_mss y) (p_sent y)).
  { rewrite (pi_stream _ _ _ _ _ Hy). by apply prefix_app_r. }
  destruct (peer_recv _ _ (peer_mss y) (p_sent y) (g_read gx) Hpre (lk_read _ _ _ _ Hyx) eq_refl
    _ _ _ _ _ len (pi_ok _ _ _ _ _ Hx) Hmss (pi_small _ _ _ _ _ Hy) Hs Hl)
    as (ret' & out' & k'' & Heq' & Hst & Hac & Hq & Hcase).
  rewrite Heq in Heq'. injection Heq' as <- <- <-.
  destruct Hcase as [(Hr & -> & ->)|(Hr & r' & Hm & Hok & Hle & Hn)].
  { exists gx. rewrite (proj2 (Z.ltb_lt _ _) Hr). by destruct x. }
  rewrite (proj2 (Z.ltb_ge _ _) Hr).
  exists {| g_una := g_una gx; g_tx := g_tx gx; g_sp := g_sp gx; g_rx := r'; g_read := S (g_read gx) |}.
  pose proof (static_mss _ _ Hst) as Hms. constructor.
  - destruct Hx as [H1 H2 H3 H4 H5 H6 H7 H8 H9]. constructor; simpl; try done.
    + by apply (peer_cfg_static (p_kcp x)).
    + injection Hst. intros. congruence.
    + injection Hac as _ -> _. done.
    + unfold peer_mss in *. simpl. by rewrite Hms, Hq.
    + unfold peer_mss in *. simpl. by rewrite Hms.
    + by eapply honest_list_mono.
  - unfold g_count, peer_mss in *. simpl. by rewrite Hms.
  - by destruct Hxy.
  - destruct Hyx as [Hgot Hread Hcover]. constructor; simpl.
    + by rewrite Hgot, (take_S_r _ _ _ Hm).
    + apply lookup_lt_Some in Hm. lia.
    + intros i Hi. destruct (Hcover i Hi) as [?|?]; [by left | right; by apply Hle].
Qed.

(** [ikcp_flush] and [ikcp_update]: new fragments enter the window. *)
Lemma step_emit_ok k' out sp' new :
  peer_ok (g_tx gy) (g_count (peer_mss y) (p_sent y) gx) (g_una gx)
    (Z.of_nat (length (g_tx gx ++ new))) sp' (g_rx gx) k' ->
  out_ok (g_tx gx ++ new) sp' ->
  frag_of <$> kcp_snd_queue (p_kcp x) = new ++ (frag_of <$> kcp_snd_queue k') ->
  sp'.*1 = (g_sp gx).*1 ++ seqZ (Z.of_nat (length (g_tx gx))) (Z.of_nat (length new)) ->
  Forall (honest conv (g_tx gx ++ new) (g_rx gx)) out ->
  static k' = static (p_kcp x) -> kcp_ackcount k' < 2147483648 ->
  step_ok conv gx gy {| p_kcp := k'; p_out := p_out x ++ out; p_sent := p_sent x; p_got := p_got x |} y.
Proof using Hinv.
  intros Hok Hout Hq Hk Hh Hst Hac. destruct Hinv as [Hx Hy Hxy Hyx].
  exists {| g_una := g_una gx; g_tx := g_tx gx ++ new; g_sp := sp'; g_rx := g_rx gx; g_read := g_read gx |}.
  pose proof (static_mss _ _ Hst) as Hms.
  assert (Hpre : g_tx gx `prefix_of` g_tx gx ++ new) by (by apply prefix_app_r).
  constructor.
  - destruct Hx as [H1 H2 H3 H4 H5 H6 H7 H8 H9]. constructor; simpl; try done.
    + by apply (peer_cfg_static (p_kcp x)).
    + injection Hst. intros. congruence.
    + unfold peer_mss in *. simpl. by rewrite Hms, H6, Hq, app_assoc.
    + unfold peer_mss in *. simpl. by rewrite Hms.
    + apply Forall_app. split; [|done]. by eapply honest_list_mono.
  - unfold g_count, peer_mss in *. simpl. rewrite Hms. by eapply peer_inv_stream.
  - destruct Hxy as [Hgot Hread Hcover]. constructor; simpl; [done | done |].
    intros i Hi. rewrite Hk. rewrite length_app in Hi.
    destruct (decide (i < Z.of_nat (length (g_tx gx)))) as [Hlt|Hge].
    + destruct (Hcover i ltac:(lia)) as [?|?]; [left | by right]. apply elem_of_app. by left.
    + left. apply elem_of_app. right. apply elem_of_seqZ. lia.
  - by destruct Hyx.
Qed.

Lemma step_update_ok cur k' out :
  is_u32 cur -> ikcp_update (p_kcp x) cur = Ok (k', out) ->
  step_ok conv gx gy {| p_kcp := k'; p_out := p_out x ++ out; p_sent := p_sent x; p_got := p_got x |} y.
Proof using Hinv.
  intros Hc Heq. pose proof Hinv as [Hx Hy Hxy Hyx].
  pose proof (stream_max_tx _ _ _ _ _ Hy). pose proof (pi_acks _ _ _ _ _ Hx).
  destruct (peer_update _ _ (g_tx gx) _ _ _ _ _ cur (pi_ok _ _ _ _ _ Hx) (pi_cfg _ _ _ _ _ Hx) Hc)
    as (k'' & out' & sp' & new & Heq' & H1 & H2 & H3 & H4 & H5 & H6 & H7);
    try done; try lia; try apply Hx.
  { by apply (stream_max_tx _ _ _ _ _ Hx). }
  rewrite Heq in Heq'. injection Heq' as <- <-. rewrite (pi_conv _ _ _ _ _ Hx) in H5.
  eapply step_emit_ok; try done. lia.
Qed.

Lemma step_flush_ok k' out :
  ikcp_flush (p_kcp x) = Ok (k', out) ->
  step_ok conv gx gy {| p_kcp := k'; p_out := p_out x ++ out; p_sent := p_sent x; p_got := p_got x |} y.
Proof using Hinv.
  intros Heq. pose proof Hinv as [Hx Hy Hxy Hyx].
  destruct (decide (kcp_updated (p_kcp x) = 0)) as [Hu|Hu].
  - revert Heq. unfold ikcp_flush. rewrite Hu. intros [= <- <-]. exists gx.
    rewrite app_nil_r. by destruct x.
  - pose proof (stream_max_tx _ _ _ _ _ Hy). pose proof (pi_cfg _ _ _ _ _ Hx) as [].
    destruct (peer_flush _ _ (g_tx gx) _ _ _ _ _ (pi_ok _ _ _ _ _ Hx))
      as (k'' & out' & sp' & new & Heq' & H1 & H2 & H3 & H4 & H5 & H6 & _ & H7);
      try done; try lia; try apply Hx.
    { constructor; try done. apply Hx. }
    { by apply (stream_max_tx _ _ _ _ _ Hx). }
    rewrite Heq in Heq'. injection Heq' as <- <-. rewrite (pi_conv _ _ _ _ _ Hx) in H5.
    eapply step_emit_ok; try done. lia.
Qed.

Lemma step_input_ok d :
  d ∈ p_out y -> kcp_ackcount (p_kcp x) + Z.of_nat (length d) < 2147483648 ->
  step_ok conv gx gy {| p_kcp := (ikcp_input (p_kcp x) d).2; p_out := p_out x; p_sent := p_sent x;
                        p_got := p_got x |} y.
Proof using Hinv.
  intros Hd Hac. pose proof Hinv as [Hx Hy Hxy Hyx].
  pose proof (pi_honest _ _ _ _ _ Hy) as Hh. rewrite Forall_forall in Hh.
  destruct (Hh d Hd) as (g & -> & Hne & Hl & Hg).
  destruct (rx_bounds _ _ _ _ _ _ _ (pi_ok _ _ _ _ _ Hy)) as [Hrb Hrn].
  pose proof (stream_max_tx _ _ _ _ _ Hx). pose proof (stream_max_tx _ _ _ _ _ Hy).
  pose proof (length_datagram g) as Hgl.
  assert (Hmx : Z.of_nat (length (g_tx gx)) < SEQ_MAX) by lia.
  assert (Hmy : Z.of_nat (length (g_tx gy)) < SEQ_MAX) by lia.
  assert (Hgn : kcp_ackcount (p_kcp x) + Z.of_nat (length g) < 2147483648) by lia.
  destruct (peer_input _ _ _ (g_rx gy) Hrb Hrn Hmx Hmy conv g _ _ _ _
    (pi_ok _ _ _ _ _ Hx) (pi_conv _ _ _ _ _ Hx) Hne Hl Hgn Hg)
    as (una' & sp' & r' & Hok & _ & Hsh & Hle & Hn).
  change (concat (map wire g)) with (datagram g) in Hok.
  assert (Hac' : kcp_ackcount (ikcp_input (p_kcp x) (datagram g)).2 < 2147483648).
  { destruct (po_inv _ _ _ _ _ _ _ (pi_ok _ _ _ _ _ Hx)) as (rp & Hk & _).
    destruct (ikcp_input_inv (p_kcp x) (datagram g)) as [_ Hc]; [by eexists _, _, _, _, rp | done | lia]. }
  pose proof (input_keep_eq (p_kcp x) (datagram g)) as Ek.
  set (k' := (ikcp_input (p_kcp x) (datagram g)).2) in *. clearbody k'.
  pose proof (f_equal fst Ek : static k' = static (p_kcp x)) as Hst.
  pose proof (f_equal snd Ek : kcp_snd_queue k' = kcp_snd_queue (p_kcp x)) as Hq. clear Ek.
  pose proof (static_mss _ _ Hst) as Hms.
  exists {| g_una := una'; g_tx := g_tx gx; g_sp := sp'; g_rx := r'; g_read := g_read gx |}.
  constructor.
  - destruct Hx as [H1 H2 H3 H4 H5 H6 H7 H8 H9]. constructor; simpl; try done.
    + by apply (peer_cfg_static (p_kcp x)).
    + injection Hst. intros. congruence.
    + by eapply out_ok_shrunk.
    + unfold peer_mss in *. simpl. by rewrite Hms, Hq.
    + unfold peer_mss in *. simpl. by rewrite Hms.
    + by eapply honest_list_mono.
  - unfold g_count, peer_mss in *. simpl. by rewrite Hms.
  - destruct Hxy as [Hgot Hread Hcover]. constructor; simpl; [done | done |].
    intros i Hi. destruct (Hcover i Hi) as [Hin|?]; [|by right].
    apply list_elem_of_fmap in Hin as (p & -> & Hp). by apply Hsh.
  - destruct Hyx as [Hgot Hread Hcover]. constructor; simpl; [done | done |].
    intros i Hi. destruct (Hcover i Hi) as [?|?]; [by left | right; by apply Hle].
Qed.

Lemma local_step_ok x' : local_step x y x' -> step_ok conv gx gy x' y.
Proof using Hinv.
  destruct 1; eauto using step_send_ok, step_recv_ok, step_update_ok, step_flush_ok, step_input_ok.
Qed.
End preserve.

Lemma reachable_inv x y : reachable (x, y) -> exists conv gx gy, sys_inv conv gx gy x y.
Proof.
  intros (s0 & (conv & k1 & k2 & H1 & H2 & ->) & Hrun).
  destruct (sys_inv_initial conv k1 k2 H1 H2) as (gx & gy & H0). exists conv.
  remember (new_peer k1, new_peer k2) as s1 eqn:E1. remember (x, y) as s2 eqn:E2.
  assert (H : forall s, rtc step s (x, y) -> forall gx gy, sys_inv conv gx gy s.1 s.2 ->
              exists gx gy, sys_inv conv gx gy x y).
  { clear. intros s Hrun. remember (x, y) as t eqn:Et. induction Hrun as [s|s1 s2 s3 Hs Hrun IH];
      intros gx gy H; subst; [by exists gx, gy|].
    destruct Hs as [a b a' Hl|a b b' Hl]; simpl in *.
    - destruct (local_step_ok conv gx gy a b H a' Hl) as (gx' & H'). by apply (IH eq_refl gx' gy).
    - destruct (local_step_ok conv gy gx b a (sys_inv_sym _ _ _ _ _ H) b' Hl) as (gy' & H').
      apply (IH eq_refl gx gy'). by apply sys_inv_sym. }
  subst. by apply (H _ Hrun gx gy).
Qed.

(** ** Runs *)

(** An executable scheduler: [Deliver n] hands over the [n]-th datagram the other
    endpoint ever emitted. *)
Inductive action := Send (msg : bytes) | Recv (len : Z) | Update (cur : Z) | Deliver (n : nat).

Definition do_action (x y : peer) (a : action) : option peer :=
  match a with
  | Send msg =>
      if (Z.of_nat (length msg) <? 2147483648) &&
         (Z.of_nat (length (stream (peer_mss x) (p_sent x ++ [msg]))) <? SEQ_MAX) then
        match ikcp_send (p_kcp x) msg (Z.of_nat (length msg)) with
        | Ok (ret, k') => Some {| p_kcp := k'; p_out := p_out x;
                                  p_sent := if ret =? 0 then p_sent x ++ [msg] else p_sent x;
                                  p_got := p_got x |}
        | Crash _ => None
        end
      else None
  | Recv len =>
      if (0 <=? len) && (len <? 2147483648) then
        match ikcp_recv (p_kcp x) true len with
        | Ok (ret, out, k') => Some {| p_kcp := k'; p_out := p_out x; p_sent := p_sent x;
                                       p_got := if ret <? 0 then p_got x else p_got x ++ [out] |}
        | Crash _ => None
        end
      else None
  | Update cur =>
      if (0 <=? cur) && (cur <? 4294967296) then
        match ikcp_update (p_kcp x) cur with
        | Ok (k', out) => Some {| p_kcp := k'; p_out := p_out x ++ out; p_sent := p_sent x;
                                  p_got := p_got x |}
        | Crash _ => None
        end
      else None
  | Deliver n =>
      match p_out y !! n with
      | Some d =>
          if kcp_ackcount (p_kcp x) + Z.of_nat (length d) <? 2147483648 then
            Some {| p_kcp := (ikcp_input (p_kcp x) d).2; p_out := p_out x; p_sent := p_sent x;
                    p_got := p_got x |}
          else None
      | None => None
      end
  end.

Lemma do_action_step x y a x' : do_action x y a = Some x' -> local_step x y x'.
Proof.
  destruct a as [msg|len|cur|n]; simpl.
  - destruct (_ && _) eqn:Hb; [|done]. reflect_bools.
    destruct (ikcp_send _ _ _) as [[ret k']|] eqn:Hs; [|done]. intros [= <-]. by apply step_send.
  - destruct (_ && _) eqn:Hb; [|done]. reflect_bools.
    destruct (ikcp_recv _ _ _) as [[[ret out] k']|] eqn:Hs; [|done]. intros [= <-].
    eapply step_recv; [|done|exact Hs]. unfold is_s32. lia.
  - destruct (_ && _) eqn:Hb; [|done]. reflect_bools.
    destruct (ikcp_update _ _) as [[k' out]|] eqn:Hs; [|done]. intros [= <-].
    eapply step_update; [|exact Hs]. unfold is_u32. lia.
  - destruct (p_out y !! n) as [d|] eqn:Hd; [|done]. destruct (_ <? _) eqn:Hb; [|done]. reflect_bools.
    intros [= <-]. apply step_input; [by eapply list_elem_of_lookup_2 | done].
Qed.

(** [true] acts at the first endpoint, [false] at the second. *)
Fixpoint exec (acts : list (bool * action)) (s : peer * peer) : option (peer * peer) :=
  match acts with
  | [] => Some s
  | (b, a) :: acts =>
      match (if b : bool then option_map (fun x => (x, s.2)) (do_action s.1 s.2 a)
             else option_map (fun y => (s.1, y)) (do_action s.2 s.1 a)) with
      | Some s => exec acts s
      | None => None
      end
  end.

Lemma exec_steps acts s s' : exec acts s = Some s' -> rtc step s s'.
Proof.
  revert s. induction acts as [|[[] a] acts IH]; intros [x y]; simpl.
  - by intros [= <-].
  - destruct (do_action x y a) as [x'|] eqn:Ha; [|done]. simpl. intros H.
    eapply rtc_l; [|by apply IH]. apply step_left. by eapply do_action_step.
  - destruct (do_action y x a) as [y'|] eqn:Ha; [|done]. simpl. intros H.
    eapply rtc_l; [|by apply IH]. apply step_right. by eapply do_action_step.
Qed.

Lemma exec_reachable conv k1 k2 acts s :
  fresh conv k1 -> fresh conv k2 -> exec acts (new_peer k1, new_peer k2) = Some s -> reachable s.
Proof.
  intros H1 H2 H. exists (new_peer k1, new_peer k2). split; [by exists conv, k1, k2|].
  by eapply exec_steps.
Qed.

(** Two messages of 3 and 5 bytes; the datagrams arrive in the wrong order and
    one of them twice; both sides keep their clocks. *)
Definition demo_msgs : list bytes := [map z2b [1; 2; 3]; map z2b [4; 5; 6; 7; 8]].
Definition demo_acts : list (bool * action) :=
  [(true, Update 0); (false, Update 0); (true, Send (map z2b [1; 2; 3])); (true, Update 10);
   (true, Send (map z2b [4; 5; 6; 7; 8])); (true, Update 20);
   (false, Deliver 1); (false, Recv 100); (false, Deliver 0); (false, Deliver 1);
   (false, Recv 100); (false, Recv 100); (false, Update 30); (true, Deliver 0)].
Definition demo_run : peer * peer :=
  default (new_peer (app_kcp 7), new_peer (app_kcp 7))
    (exec demo_acts (new_peer (app_kcp 7), new_peer (app_kcp 7))).

Example demo_run_delivers :
  p_got demo_run.2 = demo_msgs /\ p_sent demo_run.1 = demo_msgs /\
  ikcp_waitsnd (p_kcp demo_run.1) = 0 /\ length (p_out demo_run.1) = 2%nat.
Proof. vm_compute. done. Qed.

Lemma demo_reachable : reachable demo_run.
Proof.
  assert (Hf : fresh 7 (app_kcp 7)) by (apply app_kcp_fresh; unfold is_u32; lia).
  apply (exec_reachable 7 (app_kcp 7) (app_kcp 7) demo_acts); [done | done |].
  unfold demo_run. destruct (exec demo_acts _) eqn:E; [done|].
  exfalso. revert E. vm_compute. discriminate.
Qed.

(** ** End to end *)

Lemma link_prefix gx x gy y : link gx x gy y -> p_got y `prefix_of` p_sent x.
Proof. intros []. rewrite lk_got0. apply prefix_take. Qed.

(** C1.  Reliable, ordered, exactly-once delivery: in every reachable state of
    the two endpoints - whatever the network lost, duplicated, delayed or
    reordered - the messages read at one side are a prefix of the messages sent
    at the other, each of them whole, in both directions. *)
Theorem kcp_delivers_prefix x y :
  reachable (x, y) -> p_got y `prefix_of` p_sent x /\ p_got x `prefix_of` p_sent y.
Proof.
  intros (conv & gx & gy & [])%reachable_inv. split; by eapply link_prefix.
Qed.

Lemma kcp_delivers_prefix_witness :
  reachable (demo_run.1, demo_run.2) /\
  p_got demo_run.2 `prefix_of` p_sent demo_run.1 /\ p_got demo_run.1 `prefix_of` p_sent demo_run.2.
Proof.
  assert (H : reachable (demo_run.1, demo_run.2)) by (rewrite <- surjective_pairing; exact demo_reachable).
  split; [exact H|]. exact (kcp_delivers_prefix _ _ H).
Defined.

(** The counters of the two send lists are exact, so [ikcp_waitsnd] is 0 exactly
    when both are empty. *)
Lemma waitsnd_empty una nxt sp n rp k :
  kcp_inv una nxt sp n rp k -> Z.of_nat (length (kcp_snd_queue k)) < SEQ_MAX ->
  ikcp_waitsnd k = 0 -> kcp_snd_buf k = [] /\ kcp_snd_queue k = [].
Proof.
  intros H Hl Hw. pose proof (ki_snd _ _ _ _ _ _ H) as [_ _ Hwin Hb Hnb Hnq].
  pose proof (ki_win _ _ _ _ _ _ H) as Hgap. unfold WINDOW_MAX, SEQ_MAX in *.
  apply numbered_window in Hb; [|lia]. unfold ikcp_waitsnd in Hw. rewrite Hnb, Hnq in Hw.
  assert (Z.of_nat (length (kcp_snd_buf k)) = 0 /\ Z.of_nat (length (kcp_snd_queue k)) = 0) as [H1 H2]
    by (split; word).
  split; apply length_zero_iff_nil; lia.
Qed.

(** C3.  Nothing is dropped: when the sender's backlog ([ikcp_waitsnd]) is 0,
    every fragment of every message it ever sent is at the other side - read,
    waiting to be read, or buffered behind the reader's full queue - and once
    the other side's queue and buffer are empty too, every message has been
    read. *)
Theorem kcp_loses_nothing x y :
  reachable (x, y) -> ikcp_waitsnd (p_kcp x) = 0 ->
  (exists r, rx_refines r (p_kcp y) /\
     stream (peer_mss x) (p_got y) ++ (frag_of <$> rx_queue r) =
       take (Z.to_nat (rx_next r)) (stream (peer_mss x) (p_sent x)) /\
     forall i f, at_pos (stream (peer_mss x) (p_sent x)) i f ->
       i < rx_next r \/ exists s, rx_pending r !! i = Some s /\ frag_of s = f) /\
  (kcp_rcv_buf (p_kcp y) = [] -> kcp_rcv_queue (p_kcp y) = [] -> p_got y = p_sent x).
Proof.
  intros (conv & gx & gy & [Hx Hy Hxy Hyx])%reachable_inv Hw.
  pose proof (stream_max_tx _ _ _ _ _ Hx) as Hmax.
  destruct (po_inv _ _ _ _ _ _ _ (pi_ok _ _ _ _ _ Hx)) as (rp & Hk & _).
  destruct (waitsnd_empty _ _ _ _ _ _ Hk) as [Hb Hq]; [lia | done |].
  pose proof (pi_stream _ _ _ _ _ Hx) as Hst. rewrite Hq, app_nil_r in Hst.
  assert (Hsp : g_sp gx = []).
  { pose proof (numbered_length _ _ _ _ (swf_buf _ _ _ _ (ki_snd _ _ _ _ _ _ Hk))) as Hl.
    rewrite Hb in Hl. by apply length_zero_iff_nil. }
  assert (Hall : forall i, 0 <= i < Z.of_nat (length (g_tx gx)) -> received (g_rx gy) i).
  { intros i Hi. destruct (lk_cover _ _ _ _ Hxy i Hi) as [Hin|?]; [|done].
    rewrite Hsp in Hin. by apply not_elem_of_nil in Hin. }
  pose proof (po_in _ _ _ _ _ _ _ (pi_ok _ _ _ _ _ Hy)) as [Hn Hqu Hbd Hpe].
  unfold g_count in *. rewrite Hst in *.
  assert (Hgot : stream (peer_mss x) (p_got y) =
                 take (length (stream (peer_mss x) (take (g_read gy) (p_sent x)))) (g_tx gx)).
  { rewrite (lk_got _ _ _ _ Hxy), <- Hst.
    rewrite <- (take_drop (g_read gy) (p_sent x)) at 3. by rewrite stream_app, take_app_length. }
  pose proof (peer_refines _ _ _ _ _ _ _ (pi_ok _ _ _ _ _ Hy)) as Href. split.
  - exists (g_rx gy). split; [done|]. split; [by rewrite Hgot, Hqu, Hn, Nat2Z.id|].
    intros i f Hat. pose proof (at_pos_bound _ _ _ Hat) as Hi.
    destruct (Hall i Hi) as [?|[s Hs]]; [left; lia | right; exists s; split; [done|]].
    destruct (Hpe i s Hs) as [_ E]. destruct Hat as [_ E']. congruence.
  - intros Hrb Hrq. destruct Href as (rp' & Hwf & Hp & Hqr). rewrite Hrq in Hqr.
    assert (Hrp : rp' = []).
    { pose proof (numbered_length _ _ _ _ (rwf_buf _ _ _ Hwf)) as Hl. rewrite Hrb in Hl.
      by apply length_zero_iff_nil. }
    rewrite Hrp in Hp. simpl in Hp.
    assert (Hfull : (length (g_tx gx) <= length (stream (peer_mss x) (p_got y)))%nat).
    { rewrite Hgot, length_take. rewrite Hqr in Hn. simpl in Hn.
      destruct (decide (length (g_tx gx) <= length (stream (peer_mss x) (take (g_read gy) (p_sent x))))%nat)
        as [?|Hlt]; [lia|].
      destruct (Hall (Z.of_nat (length (g_tx gx)) - 1) ltac:(lia)) as [?|[s Hs]]; [lia|].
      by rewrite Hp, lookup_empty in Hs. }
    rewrite (lk_got _ _ _ _ Hxy). apply take_ge.
    destruct (drop (g_read gy) (p_sent x)) as [|m l] eqn:Hd.
    { apply (f_equal length) in Hd. rewrite length_drop in Hd. simpl in Hd. lia. }
    exfalso. rewrite <- Hst in Hfull. rewrite (lk_got _ _ _ _ Hxy) in Hfull.
    rewrite <- (take_drop (g_read gy) (p_sent x)), Hd in Hfull at 1.
    rewrite stream_app, length_app in Hfull. unfold stream in Hfull at 2. cbn [map concat] in Hfull.
    destruct (msg_frags_head (peer_mss x) m) as (d & l' & ->) in Hfull.
    rewrite length_app in Hfull. simpl in Hfull. lia.
Qed.

Lemma kcp_loses_nothing_witness :
  (reachable (demo_run.1, demo_run.2) /\ ikcp_waitsnd (p_kcp demo_run.1) = 0) /\
  ((exists r, rx_refines r (p_kcp demo_run.2) /\
     stream (peer_mss demo_run.1) (p_got demo_run.2) ++ (frag_of <$> rx_queue r) =
       take (Z.to_nat (rx_next r)) (stream (peer_mss demo_run.1) (p_sent demo_run.1)) /\
     forall i f, at_pos (stream (peer_mss demo_run.1) (p_sent demo_run.1)) i f ->
       i < rx_next r \/ exists s, rx_pending r !! i = Some s /\ frag_of s = f) /\
  (kcp_rcv_buf (p_kcp demo_run.2) = [] -> kcp_rcv_queue (p_kcp demo_run.2) = [] ->
   p_got demo_run.2 = p_sent demo_run.1)).
Proof.
  assert (H : reachable (demo_run.1, demo_run.2)) by (rewrite <- surjective_pairing; exact demo_reachable).
  assert (Hw : ikcp_waitsnd (p_kcp demo_run.1) = 0) by apply demo_run_delivers.
  split; [by split|]. exact (kcp_loses_nothing _ _ H Hw).
Defined.

(** C2.  No call can end the process: in every reachable state [ikcp_send],
    [ikcp_recv], [ikcp_update] and [ikcp_flush] return - the assertions of the
    library hold, the output callback is set when it is needed - and a datagram
    of the peer is accepted whole (return code 0). *)
Theorem kcp_never_crashes x y :
  reachable (x, y) ->
  (forall msg, Z.of_nat (length msg) < 2147483648 ->
     is_ok (ikcp_send (p_kcp x) msg (Z.of_nat (length msg))) = true) /\
  (forall len, is_s32 len -> 0 <= len -> is_ok (ikcp_recv (p_kcp x) true len) = true) /\
  (forall cur, is_u32 cur -> is_ok (ikcp_update (p_kcp x) cur) = true) /\
  is_ok (ikcp_flush (p_kcp x)) = true /\
  (forall d, d ∈ p_out y -> kcp_ackcount (p_kcp x) + Z.of_nat (length d) < 2147483648 ->
     (ikcp_input (p_kcp x) d).1 = 0).
Proof.
  intros (conv & gx & gy & [Hx Hy Hxy Hyx])%reachable_inv.
  pose proof (stream_max_tx _ _ _ _ _ Hx) as Hmx. pose proof (stream_max_tx _ _ _ _ _ Hy) as Hmy.
  assert (Htx : Z.of_nat (length (g_tx gx)) < SEQ_MAX) by lia.
  assert (Hty : Z.of_nat (length (g_tx gy)) < SEQ_MAX) by lia.
  pose proof (pi_ok _ _ _ _ _ Hx) as Hok. pose proof (pi_cfg _ _ _ _ _ Hx) as Hcfg.
  destruct (po_inv _ _ _ _ _ _ _ Hok) as (rp & Hk & _). split_and!.
  - intros msg Hl. by destruct (peer_send _ _ _ _ _ _ _ msg Hok Hcfg Hl) as (ret & k' & -> & _).
  - intros len Hs Hl. pose proof (ki_rseg _ _ _ _ _ _ Hk) as Hrs. apply Forall_app in Hrs as [_ Hrq].
    destruct (recv_total (p_kcp x) true len) as (ret & out & k' & -> & _); [|done].
    eapply Forall_impl; [exact Hrq|]. intros s [_ Hu]. word.
  - intros cur Hc.
    by destruct (peer_update _ _ (g_tx gx) _ _ _ _ _ cur Hok Hcfg Hc (pi_acks _ _ _ _ _ Hx) Hty
      eq_refl (pi_out _ _ _ _ _ Hx) Hmx) as (k' & out & sp' & new & -> & _).
  - destruct (decide (kcp_updated (p_kcp x) = 0)) as [Hu|Hu]; [unfold ikcp_flush; by rewrite Hu|].
    assert (Hf : flushable (p_kcp x)) by (destruct Hcfg; constructor; try done; apply Hx).
    by destruct (peer_flush _ _ (g_tx gx) _ _ _ _ _ Hok Hf Hty eq_refl (pi_out _ _ _ _ _ Hx) Hmx)
      as (k' & out & sp' & new & -> & _).
  - intros d Hd Hac. pose proof (pi_honest _ _ _ _ _ Hy) as Hh. rewrite Forall_forall in Hh.
    destruct (Hh d Hd) as (g & -> & Hne & Hl & Hg).
    destruct (rx_bounds _ _ _ _ _ _ _ (pi_ok _ _ _ _ _ Hy)) as [Hrb Hrn].
    pose proof (length_datagram g) as Hgl.
    assert (Hgn : kcp_ackcount (p_kcp x) + Z.of_nat (length g) < 2147483648) by lia.
    unfold datagram in *.
    by destruct (peer_input _ _ _ (g_rx gy) Hrb Hrn Htx Hty conv g _ _ _ _ Hok
      (pi_conv _ _ _ _ _ Hx) Hne Hl Hgn Hg) as (una' & sp' & r' & _ & -> & _).
Qed.

Lemma kcp_never_crashes_witness :
  reachable (demo_run.1, demo_run.2) /\
  ((forall msg, Z.of_nat (length msg) < 2147483648 ->
     is_ok (ikcp_send (p_kcp demo_run.1) msg (Z.of_nat (length msg))) = true) /\
  (forall len, is_s32 len -> 0 <= len -> is_ok (ikcp_recv (p_kcp demo_run.1) true len) = true) /\
  (forall cur, is_u32 cur -> is_ok (ikcp_update (p_kcp demo_run.1) cur) = true) /\
  is_ok (ikcp_flush (p_kcp demo_run.1)) = true /\
  (forall d, d ∈ p_out demo_run.2 -> kcp_ackcount (p_kcp demo_run.1) + Z.of_nat (length d) < 2147483648 ->
     (ikcp_input (p_kcp demo_run.1) d).1 = 0)).
Proof.
  assert (H : reachable (demo_run.1, demo_run.2)) by (rewrite <- surjective_pairing; exact demo_reachable).
  split; [exact H|]. exact (kcp_never_crashes _ _ H).
Defined.
