(* ===== verification/Buffer.v ===== *)
(** * The byte buffer of a TCP connection ([muduo/net/Buffer.h], [Buffer.cc])

    A vector with two indices: bytes are appended at [writerIndex_], read from
    [readerIndex_], and the part before [readerIndex_] is reused when more room
    is needed.  The indices are [size_t]; a [char*] into the buffer is an offset
    from its beginning.  The specification is the byte sequence between the two
    indices ([contents]): every operation acts on it as on a queue, and under
    [buffer_wf] no assertion fails and no access leaves the vector. *)

From S2P Require Import Prelude Endian.

Open Scope outcome_scope.

(** ** Vectors *)

(** [std::vector<char>::max_size()]. *)
Definition VECTOR_MAX : Z := 9223372036854775807.

(** [v.resize(n)]: new elements are zero. *)
Definition vector_resize (v : bytes) (n : Z) : outcome bytes :=
  if n >? VECTOR_MAX then Crash LengthError
  else Ok (take (Z.to_nat n) v ++ replicate (Z.to_nat n - length v) (z2b 0)).

(** Writing [data] at offset [off]. *)
Definition store (v : bytes) (off : Z) (data : bytes) : outcome bytes :=
  if (0 <=? off) && (off + Z.of_nat (length data) <=? Z.of_nat (length v))
  then Ok (take (Z.to_nat off) v ++ data ++ drop (Z.to_nat off + length data) v)
  else Crash OutOfBounds.

(** The bytes at offsets [from] to [to], the end excluded. *)
Definition slice (v : bytes) (from to : Z) : bytes :=
  take (Z.to_nat (to - from)) (drop (Z.to_nat from) v).

(** ** The class *)

Record Buffer := { buffer_ : bytes; readerIndex_ : Z; writerIndex_ : Z }.

Definition eta_Buffer (r : Buffer) : Buffer := {|
  buffer_ := buffer_ r; readerIndex_ := readerIndex_ r; writerIndex_ := writerIndex_ r |}.
#[export] Instance set_buffer_ : Setter buffer_ := ltac:(build_setter eta_Buffer buffer_).
#[export] Instance set_readerIndex_ : Setter readerIndex_ := ltac:(build_setter eta_Buffer readerIndex_).
#[export] Instance set_writerIndex_ : Setter writerIndex_ := ltac:(build_setter eta_Buffer writerIndex_).

Definition kCheapPrepend : Z := 8.
Definition kInitialSize : Z := 1024.

Definition buffer_size (b : Buffer) : Z := Z.of_nat (length (buffer_ b)).

Definition readableBytes (b : Buffer) : Z := u64 (writerIndex_ b - readerIndex_ b).
Definition writableBytes (b : Buffer) : Z := u64 (buffer_size b - writerIndex_ b).
Definition prependableBytes (b : Buffer) : Z := readerIndex_ b.

Definition new_Buffer (initialSize : Z) : outcome Buffer :=
  let* v := vector_resize [] (u64 (kCheapPrepend + initialSize)) in
  let b := {| buffer_ := v; readerIndex_ := kCheapPrepend; writerIndex_ := kCheapPrepend |} in
  let* _ := assert_ (readableBytes b =? 0) in
  let* _ := assert_ (writableBytes b =? initialSize) in
  let* _ := assert_ (prependableBytes b =? kCheapPrepend) in
  Ok b.

Definition swap (b rhs : Buffer) : Buffer * Buffer := (rhs, b).

Definition peek (b : Buffer) : Z := readerIndex_ b.
Definition beginWrite (b : Buffer) : Z := writerIndex_ b.

(** [std::search] for carriage return and line feed. *)
Fixpoint search_crlf (l : bytes) : option nat :=
  match l with
  | c1 :: ((c2 :: _) as l') =>
      if (b2z c1 =? 13) && (b2z c2 =? 10) then Some O else S <$> search_crlf l'
  | _ => None
  end.

(** [memchr] for a line feed. *)
Fixpoint search_eol (l : bytes) : option nat :=
  match l with
  | [] => None
  | c :: l => if b2z c =? 10 then Some O else S <$> search_eol l
  end.

Definition findCRLF (b : Buffer) : option Z :=
  (fun i : nat => peek b + Z.of_nat i) <$> search_crlf (slice (buffer_ b) (peek b) (beginWrite b)).

Definition findCRLF_from (b : Buffer) (start : Z) : outcome (option Z) :=
  let* _ := assert_ (peek b <=? start) in
  let* _ := assert_ (start <=? beginWrite b) in
  Ok ((fun i : nat => start + Z.of_nat i) <$> search_crlf (slice (buffer_ b) start (beginWrite b))).

Definition findEOL (b : Buffer) : option Z :=
  (fun i : nat => peek b + Z.of_nat i) <$> search_eol (slice (buffer_ b) (peek b) (beginWrite b)).

Definition findEOL_from (b : Buffer) (start : Z) : outcome (option Z) :=
  let* _ := assert_ (peek b <=? start) in
  let* _ := assert_ (start <=? beginWrite b) in
  Ok ((fun i : nat => start + Z.of_nat i) <$> search_eol (slice (buffer_ b) start (beginWrite b))).

Definition retrieveAll (b : Buffer) : Buffer :=
  b <| readerIndex_ := kCheapPrepend |> <| writerIndex_ := kCheapPrepend |>.

Definition retrieve (b : Buffer) (len : Z) : outcome Buffer :=
  let* _ := assert_ (len <=? readableBytes b) in
  if len <? readableBytes b then Ok (b <| readerIndex_ := u64 (readerIndex_ b + len) |>)
  else Ok (retrieveAll b).

Definition retrieveUntil (b : Buffer) (to : Z) : outcome Buffer :=
  let* _ := assert_ (peek b <=? to) in
  let* _ := assert_ (to <=? beginWrite b) in
  retrieve b (u64 (to - peek b)).

Definition retrieveInt64 (b : Buffer) : outcome Buffer := retrieve b 8.
Definition retrieveInt32 (b : Buffer) : outcome Buffer := retrieve b 4.
Definition retrieveInt16 (b : Buffer) : outcome Buffer := retrieve b 2.
Definition retrieveInt8 (b : Buffer) : outcome Buffer := retrieve b 1.

Definition retrieveAsString (b : Buffer) (len : Z) : outcome (bytes * Buffer) :=
  let* _ := assert_ (len <=? readableBytes b) in
  let result := slice (buffer_ b) (peek b) (peek b + len) in
  let* b := retrieve b len in
  Ok (result, b).

Definition retrieveAllAsString (b : Buffer) : outcome (bytes * Buffer) :=
  retrieveAsString b (readableBytes b).

(** [StringPiece(peek(), static_cast<int>(readableBytes()))]. *)
Definition toStringPiece (b : Buffer) : bytes :=
  slice (buffer_ b) (peek b) (peek b + s32 (readableBytes b)).

Definition makeSpace (b : Buffer) (len : Z) : outcome Buffer :=
  if u64 (writableBytes b + prependableBytes b) <? u64 (len + kCheapPrepend) then
    let* v := vector_resize (buffer_ b) (u64 (writerIndex_ b + len)) in
    Ok (b <| buffer_ := v |>)
  else
    let* _ := assert_ (kCheapPrepend <? readerIndex_ b) in
    let readable := readableBytes b in
    let* v := store (buffer_ b) kCheapPrepend (slice (buffer_ b) (readerIndex_ b) (writerIndex_ b)) in
    let b := b <| buffer_ := v |> <| readerIndex_ := kCheapPrepend |> in
    let b := b <| writerIndex_ := u64 (readerIndex_ b + readable) |> in
    let* _ := assert_ (readable =? readableBytes b) in
    Ok b.

Definition ensureWritableBytes (b : Buffer) (len : Z) : outcome Buffer :=
  let* b := if writableBytes b <? len then makeSpace b len else Ok b in
  let* _ := assert_ (writableBytes b >=? len) in
  Ok b.

Definition hasWritten (b : Buffer) (len : Z) : outcome Buffer :=
  let* _ := assert_ (len <=? writableBytes b) in
  Ok (b <| writerIndex_ := u64 (writerIndex_ b + len) |>).

Definition append (b : Buffer) (data : bytes) : outcome Buffer :=
  let* b := ensureWritableBytes b (Z.of_nat (length data)) in
  let* v := store (buffer_ b) (beginWrite b) data in
  hasWritten (b <| buffer_ := v |>) (Z.of_nat (length data)).

Definition unwrite (b : Buffer) (len : Z) : outcome Buffer :=
  let* _ := assert_ (len <=? readableBytes b) in
  Ok (b <| writerIndex_ := u64 (writerIndex_ b - len) |>).

Definition appendInt64 (b : Buffer) (x : Z) : outcome Buffer := append b (le_bytes 8 (hostToNetwork64 x)).
Definition appendInt32 (b : Buffer) (x : Z) : outcome Buffer := append b (le_bytes 4 (hostToNetwork32 x)).
Definition appendInt16 (b : Buffer) (x : Z) : outcome Buffer := append b (le_bytes 2 (hostToNetwork16 x)).
Definition appendInt8 (b : Buffer) (x : Z) : outcome Buffer := append b (le_bytes 1 x).

(** [memcpy] of [n] bytes from [peek()] into an integer. *)
Definition peek_raw (b : Buffer) (n : nat) : outcome Z :=
  let* _ := assert_ (readableBytes b >=? Z.of_nat n) in
  Ok (le_val (slice (buffer_ b) (peek b) (peek b + Z.of_nat n))).

Definition peekInt64 (b : Buffer) : outcome Z :=
  let* be64 := peek_raw b 8 in Ok (signed 8 (networkToHost64 be64)).
Definition peekInt32 (b : Buffer) : outcome Z :=
  let* be32 := peek_raw b 4 in Ok (signed 4 (networkToHost32 be32)).
Definition peekInt16 (b : Buffer) : outcome Z :=
  let* be16 := peek_raw b 2 in Ok (signed 2 (networkToHost16 be16)).
Definition peekInt8 (b : Buffer) : outcome Z :=
  let* x := peek_raw b 1 in Ok (signed 1 x).

Definition readInt64 (b : Buffer) : outcome (Z * Buffer) :=
  let* result := peekInt64 b in let* b := retrieveInt64 b in Ok (result, b).
Definition readInt32 (b : Buffer) : outcome (Z * Buffer) :=
  let* result := peekInt32 b in let* b := retrieveInt32 b in Ok (result, b).
Definition readInt16 (b : Buffer) : outcome (Z * Buffer) :=
  let* result := peekInt16 b in let* b := retrieveInt16 b in Ok (result, b).
Definition readInt8 (b : Buffer) : outcome (Z * Buffer) :=
  let* result := peekInt8 b in let* b := retrieveInt8 b in Ok (result, b).

Definition prepend (b : Buffer) (data : bytes) : outcome Buffer :=
  let len := Z.of_nat (length data) in
  let* _ := assert_ (len <=? prependableBytes b) in
  let b := b <| readerIndex_ := u64 (readerIndex_ b - len) |> in
  let* v := store (buffer_ b) (readerIndex_ b) data in
  Ok (b <| buffer_ := v |>).

Definition prependInt64 (b : Buffer) (x : Z) : outcome Buffer := prepend b (le_bytes 8 (hostToNetwork64 x)).
Definition prependInt32 (b : Buffer) (x : Z) : outcome Buffer := prepend b (le_bytes 4 (hostToNetwork32 x)).
Definition prependInt16 (b : Buffer) (x : Z) : outcome Buffer := prepend b (le_bytes 2 (hostToNetwork16 x)).
Definition prependInt8 (b : Buffer) (x : Z) : outcome Buffer := prepend b (le_bytes 1 x).

Definition shrink (b : Buffer) (reserve : Z) : outcome Buffer :=
  let* other := new_Buffer kInitialSize in
  let* other := ensureWritableBytes other (u64 (readableBytes b + reserve)) in
  let* other := append other (toStringPiece b) in
  let '(b, _) := swap b other in
  Ok b.

(** [Buffer::readFd].  [rd] is what [readv] did: [None] an error, [Some data] the
    bytes it scattered over the writable part and then over [extrabuf]; it never
    delivers more than the [iovec]s hold. *)
Definition EXTRABUF : Z := 65536.
Definition iov_total (b : Buffer) : Z :=
  let writable := writableBytes b in
  if writable <? EXTRABUF then writable + EXTRABUF else writable.

Definition readFd (b : Buffer) (rd : option bytes) : outcome (Z * Buffer) :=
  let writable := writableBytes b in
  match rd with
  | None => Ok (-1, b)
  | Some data =>
      let n := Z.of_nat (length data) in
      let* v := store (buffer_ b) (writerIndex_ b) (take (Z.to_nat writable) data) in
      let b := b <| buffer_ := v |> in
      if n <=? writable then Ok (n, b <| writerIndex_ := u64 (writerIndex_ b + n) |>)
      else
        let b := b <| writerIndex_ := buffer_size b |> in
        let* b := append b (drop (Z.to_nat writable) data) in
        Ok (n, b)
  end.

(** ** Invariant and specification *)

Record buffer_wf (b : Buffer) : Prop := {
  bw_reader : 0 <= readerIndex_ b <= writerIndex_ b;
  bw_writer : writerIndex_ b <= buffer_size b;
  bw_size : kCheapPrepend <= buffer_size b <= VECTOR_MAX
}.

(** The bytes a reader sees. *)
Definition contents (b : Buffer) : bytes := slice (buffer_ b) (readerIndex_ b) (writerIndex_ b).

(** The buffer is a queue that holds [q]. *)
Definition holds (b : Buffer) (q : bytes) : Prop := buffer_wf b /\ contents b = q.

(** The three parts of the vector. *)
Record layout (b : Buffer) (pre q post : bytes) : Prop := {
  ly_buffer : buffer_ b = pre ++ q ++ post;
  ly_reader : readerIndex_ b = Z.of_nat (length pre);
  ly_writer : writerIndex_ b = Z.of_nat (length pre + length q);
  ly_size : kCheapPrepend <= Z.of_nat (length pre + length q + length post) <= VECTOR_MAX
}.

Lemma slice_middle (pre q post : bytes) a b :
  a = Z.of_nat (length pre) -> b = Z.of_nat (length pre + length q) -> slice (pre ++ q ++ post) a b = q.
Proof.
  intros -> ->. unfold slice. rewrite Nat2Z.id, drop_app_length.
  replace (Z.to_nat _) with (length q) by lia. apply take_app_length.
Qed.

Lemma layout_holds b pre q post : layout b pre q post -> holds b q.
Proof.
  intros [Hb Hr Hw Hm]. split.
  - constructor; unfold buffer_size; rewrite ?Hr, ?Hw, ?Hb, ?length_app; lia.
  - unfold contents. rewrite Hb. by apply slice_middle.
Qed.

Lemma holds_layout b q : holds b q -> exists pre post, layout b pre q post.
Proof.
  intros [[Hr Hw Hm] <-]. unfold buffer_size in *.
  set (r := Z.to_nat (readerIndex_ b)). set (n := Z.to_nat (writerIndex_ b - readerIndex_ b)).
  exists (take r (buffer_ b)), (drop n (drop r (buffer_ b))).
  constructor; unfold contents, slice; fold r n.
  - by rewrite !take_drop.
  - rewrite length_take. lia.
  - rewrite !length_take, length_drop. lia.
  - rewrite !length_take, !length_drop. lia.
Qed.

Lemma VECTOR_MAX_u64 z : 0 <= z <= 2 * VECTOR_MAX -> u64 z = z.
Proof. unfold VECTOR_MAX. intros. word. Qed.

Section layout_facts.
Context (b : Buffer) (pre q post : bytes).
Hypothesis Hl : layout b pre q post.

Lemma layout_readable : readableBytes b = Z.of_nat (length q).
Proof using Hl.
  destruct Hl as [_ Hr Hw Hm]. unfold readableBytes. rewrite VECTOR_MAX_u64; lia.
Qed.

Lemma layout_size : buffer_size b = Z.of_nat (length pre + length q + length post).
Proof using Hl. unfold buffer_size. rewrite (ly_buffer _ _ _ _ Hl), !length_app. lia. Qed.

Lemma layout_writable : writableBytes b = Z.of_nat (length post).
Proof using Hl.
  pose proof layout_size as Hs. destruct Hl as [_ Hr Hw Hm].
  unfold writableBytes. rewrite VECTOR_MAX_u64; lia.
Qed.

Lemma layout_contents : contents b = q.
Proof using Hl. by apply layout_holds in Hl as [_ ?]. Qed.
End layout_facts.

Lemma holds_readable b q : holds b q -> readableBytes b = Z.of_nat (length q).
Proof. intros (pre & post & Hl)%holds_layout. by eapply layout_readable. Qed.

(** Resizing to at least the length adds zeros at the end. *)
Lemma vector_resize_grow v n :
  Z.of_nat (length v) <= n <= VECTOR_MAX ->
  vector_resize v n = Ok (v ++ replicate (Z.to_nat n - length v) (z2b 0)).
Proof.
  intros Hn. unfold vector_resize. bcase; [lia|]. by rewrite take_ge by lia.
Qed.

Lemma store_middle (pre data old post : bytes) off :
  length old = length data -> off = Z.of_nat (length pre) ->
  store (pre ++ old ++ post) off data = Ok (pre ++ data ++ post).
Proof.
  intros Hl ->. unfold store. rewrite !length_app.
  destruct (_ && _) eqn:Hb; reflect_bools.
  - by rewrite Nat2Z.id, take_app_length, drop_app_add, <- Hl, drop_app_length.
  - destruct Hb as [Hb|Hb]; reflect_bools; lia.
Qed.

(** ** Reading *)

Lemma retrieveAll_layout b pre q post :
  layout b pre q post -> exists pre' post', layout (retrieveAll b) pre' [] post' /\
    Z.of_nat (length pre') = kCheapPrepend.
Proof.
  intros Hl. pose proof (layout_size _ _ _ _ Hl) as Hsz. destruct Hl as [Hb Hr Hw Hm].
  unfold buffer_size in Hsz. unfold kCheapPrepend in *.
  exists (take 8 (buffer_ b)), (drop 8 (buffer_ b)).
  assert (Hp : length (take 8 (buffer_ b)) = 8%nat) by (rewrite length_take; lia).
  split; [|by rewrite Hp]. constructor; simpl.
  - by rewrite take_drop.
  - by rewrite Hp.
  - by rewrite Hp.
  - rewrite Hp, length_drop. unfold kCheapPrepend. lia.
Qed.

Lemma retrieve_layout b pre q post len :
  layout b pre q post -> 0 <= len <= Z.of_nat (length q) ->
  exists b' pre' post', retrieve b len = Ok b' /\ layout b' pre' (drop (Z.to_nat len) q) post'.
Proof.
  intros Hl Hlen. unfold retrieve. rewrite (layout_readable _ _ _ _ Hl).
  unfold assert_. bcase; [|lia]. cbn [bind]. bcase.
  - destruct (Hl) as [Hb' Hr Hw Hm].
    eexists _, (pre ++ take (Z.to_nat len) q), post. split; [done|].
    constructor; simpl; rewrite ?length_app, ?length_take, ?length_drop.
    + by rewrite <- app_assoc, (app_assoc (take _ _)), take_drop.
    + rewrite Hr, VECTOR_MAX_u64; lia.
    + lia.
    + lia.
  - destruct (retrieveAll_layout _ _ _ _ Hl) as (pre' & post' & H & _).
    exists (retrieveAll b), pre', post'. split; [done|]. by rewrite drop_ge by lia.
Qed.

(** Overflow of the assertion [len <= readableBytes()]. *)
Lemma retrieve_too_much b pre q post len :
  layout b pre q post -> Z.of_nat (length q) < len -> retrieve b len = Crash AssertFailed.
Proof.
  intros Hl Hlen. unfold retrieve. rewrite (layout_readable _ _ _ _ Hl).
  unfold assert_. bcase; [lia | done].
Qed.

(** ** Writing *)

(** The vector can hold [len] more bytes: where it ends, or from the front. *)
Definition fits (pre q post : bytes) (len : Z) : Prop :=
  Z.of_nat (length pre + length q) + len <= VECTOR_MAX \/
  Z.of_nat (length q) + len + kCheapPrepend <= Z.of_nat (length pre + length q + length post).

#[export] Instance fits_dec pre q post len : Decision (fits pre q post len).
Proof. unfold fits. apply _. Defined.

(** Making room keeps the contents: the vector grows, or the contents move to
    the front. *)
Lemma ensureWritable_layout b pre q post len :
  layout b pre q post -> 0 <= len <= VECTOR_MAX -> fits pre q post len ->
  exists b' pre' post', ensureWritableBytes b len = Ok b' /\ layout b' pre' q post' /\
    len <= Z.of_nat (length post') /\
    Z.of_nat (length pre' + length q + length post') <=
      Z.max (Z.of_nat (length pre + length q + length post)) (Z.of_nat (length pre + length q) + len).
Proof.
  intros Hl Hlen Hmax. unfold fits in Hmax. unfold ensureWritableBytes.
  rewrite (layout_writable _ _ _ _ Hl).
  destruct (Z.of_nat (length post) <? len) eqn:Hroom; reflect_bools.
  2:{ cbn [bind]. rewrite (layout_writable _ _ _ _ Hl). unfold assert_. bcase; [|lia].
      exists b, pre, post. split; [done|]. split; [done | lia]. }
  unfold makeSpace. rewrite (layout_writable _ _ _ _ Hl).
  pose proof (ly_size _ _ _ _ Hl) as Hsz. unfold kCheapPrepend in *.
  unfold prependableBytes. rewrite (ly_reader _ _ _ _ Hl), (ly_writer _ _ _ _ Hl).
  rewrite !VECTOR_MAX_u64 by lia.
  destruct (_ <? len + 8) eqn:Hgrow; reflect_bools.
  - rewrite vector_resize_grow; rewrite (ly_buffer _ _ _ _ Hl), ?length_app; [|lia]. cbn [bind].
    set (fill := replicate _ _).
    assert (Hfill : Z.of_nat (length post + length fill) = len).
    { unfold fill. rewrite length_replicate. lia. }
    set (b' := b <| buffer_ := _ |>).
    assert (Hl' : layout b' pre q (post ++ fill)).
    { constructor; simpl.
      - by rewrite <- !app_assoc.
      - apply Hl.
      - apply Hl.
      - rewrite length_app. unfold kCheapPrepend. lia. }
    rewrite (layout_writable _ _ _ _ Hl'), length_app. unfold assert_. bcase; [|lia]. cbn [bind].
    exists b', pre, (post ++ fill). rewrite length_app. split; [done|]. split; [done | lia].
  - unfold assert_ at 1. bcase; [|lia]. cbn [bind].
    rewrite (layout_readable _ _ _ _ Hl), (ly_buffer _ _ _ _ Hl).
    rewrite slice_middle by done.
    assert (Hsplit : exists old, pre ++ q ++ post = take 8 pre ++ old ++ drop (length q + 8) (pre ++ q ++ post)
              /\ length old = length q).
    { exists (take (length q) (drop 8 (pre ++ q ++ post))). split.
      - rewrite <- (take_drop 8 (pre ++ q ++ post)) at 1. rewrite take_app_le by lia. f_equal.
        rewrite <- (take_drop (length q) (drop 8 (pre ++ q ++ post))) at 1.
        by rewrite drop_drop, Nat.add_comm.
      - rewrite length_take, length_drop, !length_app. lia. }
    destruct Hsplit as (old & Hold & Hlo). rewrite Hold, store_middle;
      [|done | rewrite length_take; lia]. cbn [bind].
    set (rest := drop (length q + 8) (pre ++ q ++ post)).
    assert (Hrest : length rest = (length pre + length post - 8)%nat).
    { unfold rest. rewrite length_drop, !length_app. lia. }
    assert (Hp8 : length (take 8 pre) = 8%nat) by (rewrite length_take; lia).
    simpl readerIndex_. rewrite VECTOR_MAX_u64 by lia.
    set (b' := upd writerIndex_ _ _).
    assert (Hl' : layout b' (take 8 pre) q rest).
    { constructor; simpl; rewrite ?Hp8, ?Hrest; try done; unfold kCheapPrepend; lia. }
    rewrite (layout_readable _ _ _ _ Hl'), Z.eqb_refl. cbn [assert_ bind].
    rewrite (layout_writable _ _ _ _ Hl'). unfold assert_. bcase; [|lia]. cbn [bind].
    exists b', (take 8 pre), rest. split; [done|]. split; [done | lia].
Qed.

Lemma append_fits b pre q post data :
  layout b pre q post -> Z.of_nat (length data) <= VECTOR_MAX -> fits pre q post (Z.of_nat (length data)) ->
  exists b' pre' post', append b data = Ok b' /\ layout b' pre' (q ++ data) post' /\
    Z.of_nat (length pre' + length (q ++ data) + length post') <=
      Z.max (Z.of_nat (length pre + length q + length post))
            (Z.of_nat (length pre + length q + length data)).
Proof.
  intros Hl Hlen Hmax. unfold append.
  destruct (ensureWritable_layout _ _ _ _ (Z.of_nat (length data)) Hl ltac:(lia) Hmax)
    as (b1 & pre1 & post1 & -> & Hl1 & Hroom & Hcap). cbn [bind].
  pose proof (take_drop (length data) post1) as Hsp.
  assert (Hlt : length (take (length data) post1) = length data) by (rewrite length_take; lia).
  unfold beginWrite. rewrite (ly_buffer _ _ _ _ Hl1), (ly_writer _ _ _ _ Hl1), <- Hsp, app_assoc.
  rewrite store_middle by (done || (rewrite length_app; lia)). cbn [bind]. unfold hasWritten.
  set (b2 := b1 <| buffer_ := _ |>).
  assert (Hl2 : layout b2 pre1 q (data ++ drop (length data) post1)).
  { destruct Hl1 as [_ Hr Hw Hm]. constructor; simpl; try done.
    - by rewrite <- app_assoc.
    - rewrite length_app, length_drop. lia. }
  rewrite (layout_writable _ _ _ _ Hl2), length_app. unfold assert_. bcase; [|lia]. cbn [bind].
  pose proof (ly_size _ _ _ _ Hl2) as Hsz2. rewrite length_app in Hsz2.
  eexists _, pre1, (drop (length data) post1). split; [done|]. split.
  - destruct Hl2 as [Hbf Hr Hw _]. constructor; simpl.
    + by rewrite <- !app_assoc.
    + apply Hl1.
    + rewrite (ly_writer _ _ _ _ Hl1), VECTOR_MAX_u64, length_app by lia. lia.
    + rewrite length_app. lia.
  - rewrite length_app, length_drop. lia.
Qed.

Lemma append_layout b pre q post data :
  layout b pre q post -> Z.of_nat (length pre + length q + length data) <= VECTOR_MAX ->
  exists b' pre' post', append b data = Ok b' /\ layout b' pre' (q ++ data) post' /\
    Z.of_nat (length pre' + length (q ++ data) + length post') <=
      Z.max (Z.of_nat (length pre + length q + length post))
            (Z.of_nat (length pre + length q + length data)).
Proof. intros Hl Hmax. apply append_fits; [done | lia | left; lia]. Qed.

(** Whatever is appended, [append] adds it or the vector refuses to grow. *)
Lemma append_holds b q data : holds b q -> Z.of_nat (length data) <= VECTOR_MAX ->
  match append b data with Ok b' => holds b' (q ++ data) | Crash c => c = LengthError end.
Proof.
  intros (pre & post & Hl)%holds_layout Hlen. pose proof (ly_size _ _ _ _ Hl) as Hsz.
  destruct (decide (fits pre q post (Z.of_nat (length data)))) as [Hf|Hf].
  { destruct (append_fits _ _ _ _ _ Hl Hlen Hf) as (b' & pre' & post' & -> & Hl' & _).
    by eapply layout_holds. }
  unfold fits, kCheapPrepend in *. unfold append, ensureWritableBytes.
  rewrite (layout_writable _ _ _ _ Hl). bcase; [|lia].
  unfold makeSpace. rewrite (layout_writable _ _ _ _ Hl). unfold prependableBytes, kCheapPrepend.
  rewrite (ly_reader _ _ _ _ Hl), (ly_writer _ _ _ _ Hl), !VECTOR_MAX_u64 by (unfold VECTOR_MAX in *; lia).
  bcase; [|lia]. unfold vector_resize. by bcase; [|lia].
Qed.

Lemma retrieve_holds b q n : holds b q -> 0 <= n <= Z.of_nat (length q) ->
  exists b', retrieve b n = Ok b' /\ holds b' (drop (Z.to_nat n) q).
Proof.
  intros (pre & post & Hl)%holds_layout Hn.
  destruct (retrieve_layout _ _ _ _ n Hl Hn) as (b' & pre' & post' & -> & Hl').
  exists b'. split; [done|]. by eapply layout_holds.
Qed.

Lemma retrieveAllAsString_holds b q : holds b q ->
  exists b', retrieveAllAsString b = Ok (q, b') /\ holds b' [].
Proof.
  intros Hh. destruct (retrieve_holds b q (Z.of_nat (length q)) Hh ltac:(lia)) as (b' & Hr & Hb').
  rewrite Nat2Z.id, drop_all in Hb'. exists b'. split; [|done].
  destruct (holds_layout _ _ Hh) as (pre & post & Hl).
  unfold retrieveAllAsString, retrieveAsString. rewrite (layout_readable _ _ _ _ Hl), Z.leb_refl.
  cbn [assert_ bind]. rewrite Hr. cbn [bind]. do 2 f_equal. unfold peek.
  rewrite (ly_buffer _ _ _ _ Hl), (ly_reader _ _ _ _ Hl). apply slice_middle; [done | lia].
Qed.

Lemma retrieveAll_holds b q : holds b q -> holds (retrieveAll b) [].
Proof.
  intros (pre & post & Hl)%holds_layout. destruct (retrieveAll_layout _ _ _ _ Hl) as (pre' & post' & Hl' & _).
  by eapply layout_holds.
Qed.

Lemma prepend_layout b pre q post data :
  layout b pre q post -> (length data <= length pre)%nat ->
  exists b' pre', prepend b data = Ok b' /\ layout b' pre' (data ++ q) post.
Proof.
  intros Hl Hlen. unfold prepend, prependableBytes. rewrite (ly_reader _ _ _ _ Hl).
  pose proof (ly_size _ _ _ _ Hl) as Hsz. unfold kCheapPrepend in Hsz.
  unfold assert_. bcase; [|lia]. cbn [bind]. simpl readerIndex_.
  set (n := (length pre - length data)%nat).
  assert (Hp : pre = take n pre ++ drop n pre) by (by rewrite take_drop).
  assert (Hn : length (take n pre) = n) by (rewrite length_take; lia).
  assert (Hd : length (drop n pre) = length data) by (rewrite length_drop; lia).
  rewrite VECTOR_MAX_u64 by lia. simpl buffer_. rewrite (ly_buffer _ _ _ _ Hl).
  replace (pre ++ q ++ post) with (take n pre ++ drop n pre ++ q ++ post) by (by rewrite app_assoc, <- Hp).
  rewrite store_middle by (done || lia). cbn [bind].
  eexists _, (take n pre). split; [done|]. constructor; simpl.
  - by rewrite <- app_assoc.
  - lia.
  - rewrite (ly_writer _ _ _ _ Hl), length_app. lia.
  - rewrite length_app. unfold kCheapPrepend. lia.
Qed.

Lemma peek_raw_layout b pre q post n :
  layout b pre q post -> (n <= length q)%nat -> peek_raw b n = Ok (le_val (take n q)).
Proof.
  intros Hl Hn. unfold peek_raw. rewrite (layout_readable _ _ _ _ Hl).
  unfold assert_. bcase; [|lia]. cbn [bind]. do 2 f_equal.
  unfold peek. rewrite (ly_buffer _ _ _ _ Hl), (ly_reader _ _ _ _ Hl).
  rewrite <- (take_drop n q) at 1. rewrite <- app_assoc.
  apply slice_middle; [done|]. rewrite length_take. lia.
Qed.

(** What an integer written in network order reads back as. *)
Lemma network_roundtrip n x rest :
  (0 < n)%nat -> is_signed n x ->
  signed n (bswap n (le_val (take n (le_bytes n (bswap n x) ++ rest)))) = x.
Proof.
  intros Hn Hx. rewrite take_app_length' by (by rewrite length_le_bytes).
  pose proof (bswap_le_val (le_bytes n (bswap n x))) as H. rewrite length_le_bytes in H.
  rewrite H, le_bytes_bswap, reverse_involutive, le_val_bytes. by apply signed_mod.
Qed.

(** ** The properties *)

(** C28.  A buffer is a byte queue: [append] adds bytes at the end - growing the
    vector or moving the contents to the front when there is no room - and
    [retrieveAsString] takes bytes off the front; no assertion fails and no
    access leaves the vector, as long as the total size stays below what a
    [std::vector] can hold. *)
Theorem buffer_queue b q data n :
  holds b q -> Z.of_nat (length data) + buffer_size b <= VECTOR_MAX -> 0 <= n <= Z.of_nat (length q) ->
  (exists b', append b data = Ok b' /\ holds b' (q ++ data)) /\
  (exists b', retrieveAsString b n = Ok (take (Z.to_nat n) q, b') /\ holds b' (drop (Z.to_nat n) q)).
Proof.
  intros (pre & post & Hl)%holds_layout Hmax Hn. pose proof (layout_size _ _ _ _ Hl) as Hsz. split.
  - destruct (append_layout _ _ _ _ data Hl) as (b' & pre' & post' & Heq & Hl' & _); [lia|].
    exists b'. split; [done|]. by eapply layout_holds.
  - unfold retrieveAsString. rewrite (layout_readable _ _ _ _ Hl). unfold assert_. bcase; [|lia].
    cbn [bind]. destruct (retrieve_layout _ _ _ _ n Hl Hn) as (b' & pre' & post' & -> & Hl').
    cbn [bind]. exists b'. split; [|by eapply layout_holds]. do 2 f_equal.
    unfold peek. rewrite (ly_buffer _ _ _ _ Hl), (ly_reader _ _ _ _ Hl).
    rewrite <- (take_drop (Z.to_nat n) q) at 1. rewrite <- app_assoc.
    apply slice_middle; [done|]. rewrite length_take. lia.
Qed.

(** A buffer with 8 + 4 bytes that holds two of them; appending three bytes moves
    nothing but makes it grow. *)
Definition small_buffer : Buffer :=
  {| buffer_ := replicate 8 (z2b 0) ++ map z2b [1; 2; 3; 4]; readerIndex_ := 10; writerIndex_ := 12 |}.

Lemma small_buffer_holds : holds small_buffer (map z2b [3; 4]).
Proof.
  split; [|reflexivity]. constructor; unfold buffer_size, kCheapPrepend, VECTOR_MAX; simpl; lia.
Qed.

Lemma buffer_queue_witness :
  holds small_buffer (map z2b [3; 4]) /\
  ((exists b', append small_buffer (map z2b [5; 6; 7]) = Ok b' /\
      holds b' (map z2b [3; 4] ++ map z2b [5; 6; 7])) /\
   (exists b', retrieveAsString small_buffer 1 = Ok (take (Z.to_nat 1) (map z2b [3; 4]), b') /\
      holds b' (drop (Z.to_nat 1) (map z2b [3; 4])))).
Proof.
  split; [exact small_buffer_holds|].
  apply (buffer_queue small_buffer (map z2b [3; 4]) (map z2b [5; 6; 7]) 1 small_buffer_holds);
    unfold buffer_size, VECTOR_MAX; simpl; lia.
Defined.

(** The bytes of an integer in network order. *)
Definition be_bytes (n : nat) (x : Z) : bytes := reverse (le_bytes n x).

(** Append [n] bytes, consume what was there before, read them back. *)
Lemma int_roundtrip n q b x (append_int : Buffer -> Z -> outcome Buffer)
    (read_int : Buffer -> outcome (Z * Buffer)) :
  append_int b x = append b (le_bytes n (bswap n x)) ->
  (forall b, read_int b = let* be := peek_raw b n in let* b := retrieve b (Z.of_nat n) in
                          Ok (signed n (bswap n be), b)) ->
  (0 < n)%nat -> is_signed n x -> holds b q -> buffer_size b + Z.of_nat n <= VECTOR_MAX ->
  exists b1 b2 b3, append_int b x = Ok b1 /\ holds b1 (q ++ be_bytes n x) /\
    retrieve b1 (Z.of_nat (length q)) = Ok b2 /\ read_int b2 = Ok (x, b3) /\ holds b3 [].
Proof.
  intros Ha Hr Hn Hx (pre & post & Hl)%holds_layout Hmax. pose proof (layout_size _ _ _ _ Hl) as Hsz.
  rewrite Ha, le_bytes_bswap. fold (be_bytes n x).
  assert (Hlen : length (be_bytes n x) = n) by (unfold be_bytes; by rewrite length_reverse, length_le_bytes).
  destruct (append_layout _ _ _ _ (be_bytes n x) Hl) as (b1 & pre1 & post1 & -> & Hl1 & _);
    [rewrite Hlen; lia|].
  destruct (retrieve_layout _ _ _ _ (Z.of_nat (length q)) Hl1) as (b2 & pre2 & post2 & Hret & Hl2).
  { rewrite length_app. lia. }
  rewrite Nat2Z.id, drop_app_length in Hl2.
  destruct (retrieve_layout _ _ _ _ (Z.of_nat n) Hl2 ltac:(lia)) as (b3 & pre3 & post3 & Hret3 & Hl3).
  rewrite drop_ge in Hl3 by lia.
  exists b1, b2, b3. split_and!; [done | by eapply layout_holds | done | | by eapply layout_holds].
  rewrite Hr, (peek_raw_layout _ _ _ _ n Hl2) by lia. cbn [bind]. rewrite Hret3. cbn [bind].
  do 2 f_equal. unfold be_bytes. rewrite <- le_bytes_bswap, <- (app_nil_r (le_bytes n (bswap n x))).
  by apply network_roundtrip.
Qed.

(** Integers survive the buffer: what [appendInt64], [appendInt32] and
    [appendInt16] write - the big-endian bytes - is read back by the matching
    [readInt] once the bytes before it are consumed, for every value of the
    type, and nothing is left over. *)
Theorem buffer_int_roundtrip b q x :
  holds b q -> buffer_size b + 8 <= VECTOR_MAX ->
  (is_signed 8 x -> exists b1 b2 b3, appendInt64 b x = Ok b1 /\ holds b1 (q ++ be_bytes 8 x) /\
     retrieve b1 (Z.of_nat (length q)) = Ok b2 /\ readInt64 b2 = Ok (x, b3) /\ holds b3 []) /\
  (is_signed 4 x -> exists b1 b2 b3, appendInt32 b x = Ok b1 /\ holds b1 (q ++ be_bytes 4 x) /\
     retrieve b1 (Z.of_nat (length q)) = Ok b2 /\ readInt32 b2 = Ok (x, b3) /\ holds b3 []) /\
  (is_signed 2 x -> exists b1 b2 b3, appendInt16 b x = Ok b1 /\ holds b1 (q ++ be_bytes 2 x) /\
     retrieve b1 (Z.of_nat (length q)) = Ok b2 /\ readInt16 b2 = Ok (x, b3) /\ holds b3 []).
Proof.
  intros H Hmax. split_and!; intros Hx.
  - apply (int_roundtrip 8); try (done || lia). intros b'. unfold readInt64, peekInt64. by destruct (peek_raw b' 8).
  - apply (int_roundtrip 4); try (done || lia).
    intros b'. unfold readInt32, peekInt32. by destruct (peek_raw b' 4).
  - apply (int_roundtrip 2); try (done || lia).
    intros b'. unfold readInt16, peekInt16. by destruct (peek_raw b' 2).
Qed.

Lemma buffer_int_roundtrip_witness :
  (holds small_buffer (map z2b [3; 4]) /\ is_signed 4 (-2)) /\
  exists b1 b2 b3, appendInt32 small_buffer (-2) = Ok b1 /\
    holds b1 (map z2b [3; 4] ++ be_bytes 4 (-2)) /\
    retrieve b1 (Z.of_nat (length (map z2b [3; 4]))) = Ok b2 /\ readInt32 b2 = Ok (-2, b3) /\ holds b3 [].
Proof.
  assert (is_signed 4 (-2)) as Hx by (vm_compute; intuition congruence).
  split; [split; [exact small_buffer_holds | exact Hx]|].
  apply (buffer_int_roundtrip small_buffer (map z2b [3; 4]) (-2) small_buffer_holds);
    [unfold buffer_size, VECTOR_MAX; simpl; lia | exact Hx].
Defined.

(** Bytes can be put before the contents as long as there is room in front
    (8 bytes in a fresh or drained buffer), and [shrink] gives back memory
    without changing the contents. *)
Theorem buffer_prepend_shrink b q data reserve :
  holds b q -> 0 <= reserve -> buffer_size b + reserve + 1032 < 2147483648 ->
  (Z.of_nat (length data) <= prependableBytes b ->
     exists b', prepend b data = Ok b' /\ holds b' (data ++ q)) /\
  (exists b', shrink b reserve = Ok b' /\ holds b' q).
Proof.
  intros (pre & post & Hl)%holds_layout Hres Hmax. pose proof (layout_size _ _ _ _ Hl) as Hsz. split.
  - intros Hlen. unfold prependableBytes in Hlen. rewrite (ly_reader _ _ _ _ Hl) in Hlen.
    destruct (prepend_layout _ _ _ _ data Hl) as (b' & pre' & Heq & Hl'); [lia|].
    exists b'. split; [done|]. by eapply layout_holds.
  - unfold shrink. rewrite (layout_readable _ _ _ _ Hl).
    unfold new_Buffer. rewrite vector_resize_grow by (vm_compute; split; congruence). cbn [bind].
    set (b0 := {| buffer_ := _; readerIndex_ := _; writerIndex_ := _ |}).
    assert (Hl0 : layout b0 (replicate 8 (z2b 0)) [] (replicate 1024 (z2b 0))).
    { constructor; try (vm_compute; done). }
    rewrite (layout_readable _ _ _ _ Hl0), (layout_writable _ _ _ _ Hl0), length_replicate.
    change (let* _ := assert_ (Z.of_nat (length []) =? 0) in
            let* _ := assert_ (Z.of_nat 1024 =? kInitialSize) in
            let* _ := assert_ (prependableBytes b0 =? kCheapPrepend) in Ok b0) with (Ok b0).
    cbn [bind].
    rewrite !VECTOR_MAX_u64 by (unfold VECTOR_MAX; lia).
    destruct (ensureWritable_layout _ _ _ _ (Z.of_nat (length q) + reserve) Hl0)
      as (b1 & pre1 & post1 & -> & Hl1 & Hroom & Hcap); [unfold VECTOR_MAX; lia | left; unfold VECTOR_MAX; simpl; lia |].
    rewrite !length_replicate in Hcap. cbn [length] in *.
    cbn [bind]. assert (Hq : toStringPiece b = q).
    { unfold toStringPiece. rewrite (layout_readable _ _ _ _ Hl), s32_small by (unfold is_s32; lia).
      transitivity (contents b); [|by eapply layout_contents]. unfold contents, peek. f_equal.
      rewrite (ly_reader _ _ _ _ Hl), (ly_writer _ _ _ _ Hl). lia. }
    rewrite Hq.
    destruct (append_layout _ _ _ _ q Hl1) as (b2 & pre2 & post2 & -> & Hl2 & _);
      [unfold VECTOR_MAX; simpl; lia|].
    cbn [bind swap]. exists b2. split; [done|]. by eapply layout_holds.
Qed.

Lemma buffer_prepend_shrink_witness :
  holds small_buffer (map z2b [3; 4]) /\
  ((exists b', prepend small_buffer (map z2b [9; 9]) = Ok b' /\ holds b' (map z2b [9; 9] ++ map z2b [3; 4])) /\
   (exists b', shrink small_buffer 0 = Ok b' /\ holds b' (map z2b [3; 4]))).
Proof.
  split; [exact small_buffer_holds|].
  destruct (buffer_prepend_shrink small_buffer (map z2b [3; 4]) (map z2b [9; 9]) 0 small_buffer_holds)
    as [H1 H2]; [lia | unfold buffer_size; simpl; lia |].
  split; [apply H1; unfold prependableBytes; simpl; lia | exact H2].
Defined.

(** ** Reading from a descriptor *)

(** The largest writable part a connection's input buffer reaches when it is
    emptied after every read. *)
Definition READ_MAX : Z := 131071.

(** The two cases: everything fits the writable part, or the vector is full and
    the rest is appended. *)
Lemma readFd_split b pre q post data :
  layout b pre q post ->
  exists b1,
    (length data <= length post)%nat /\ readFd b (Some data) = Ok (Z.of_nat (length data), b1) /\
      layout b1 pre (q ++ data) (drop (length data) post) \/
    (length post < length data)%nat /\ layout b1 pre (q ++ take (length post) data) [] /\
      readFd b (Some data) =
        (let* b2 := append b1 (drop (length post) data) in Ok (Z.of_nat (length data), b2)).
Proof.
  intros Hl. unfold readFd. rewrite (layout_writable _ _ _ _ Hl), Nat2Z.id.
  pose proof (ly_size _ _ _ _ Hl) as Hsz. unfold kCheapPrepend in Hsz.
  rewrite (ly_buffer _ _ _ _ Hl), (ly_writer _ _ _ _ Hl).
  set (n := (length post `min` length data)%nat).
  assert (Ht : length (take (length post) data) = n) by apply length_take.
  assert (Hp : length (take n post) = n) by (rewrite length_take; lia).
  assert (Hrest : length (drop n post) = (length post - n)%nat) by apply length_drop.
  replace (pre ++ q ++ post) with ((pre ++ q) ++ take n post ++ drop n post)
    by (by rewrite take_drop, app_assoc).
  rewrite store_middle by (rewrite ?length_app; lia). cbn [bind].
  bcase.
  - rewrite take_ge in * by lia. eexists. left. split; [lia|]. split; [done|].
    replace (length data) with n by lia. constructor; simpl.
    + by rewrite <- !app_assoc.
    + apply Hl.
    + rewrite (ly_writer _ _ _ _ Hl), VECTOR_MAX_u64, length_app by lia. lia.
    + rewrite length_app, Hrest. unfold kCheapPrepend. lia.
  - assert (Hn : n = length post) by lia.
    assert (drop n post = []) as -> by (apply drop_ge; lia). rewrite app_nil_r.
    eexists. right. split; [lia|]. split; [|done]. constructor; simpl.
    + by rewrite app_nil_r, app_assoc.
    + apply Hl.
    + unfold buffer_size. simpl. rewrite !length_app. lia.
    + rewrite length_app, Ht. unfold kCheapPrepend. simpl. lia.
Qed.

Lemma readFd_layout b pre q post data :
  layout b pre q post -> Z.of_nat (length data) <= iov_total b ->
  Z.of_nat (length pre + length q + length data) <= VECTOR_MAX ->
  exists b' pre' post', readFd b (Some data) = Ok (Z.of_nat (length data), b') /\
    layout b' pre' (q ++ data) post' /\
    Z.of_nat (length pre' + length (q ++ data) + length post') <=
      Z.max (Z.of_nat (length pre + length q + length post))
            (Z.of_nat (length pre + length q + length data)).
Proof.
  intros Hl Hiov Hmax. destruct (readFd_split _ _ _ _ data Hl) as [b1 [(Hn & -> & Hl1)|(Hn & Hl1 & ->)]].
  - exists b1, pre, (drop (length data) post). split; [done|]. split; [done|].
    rewrite length_app, length_drop. lia.
  - destruct (append_layout _ _ _ _ (drop (length post) data) Hl1) as (b2 & pre2 & post2 & -> & Hl2 & Hcap).
    { rewrite length_app, length_take, length_drop. lia. }
    rewrite <- app_assoc, take_drop in Hl2, Hcap. cbn [bind].
    exists b2, pre2, post2. split; [done|]. split; [done|].
    rewrite !length_app, length_take, length_drop in Hcap. rewrite length_app. simpl in Hcap. lia.
Qed.

Lemma readFd_any b q data : holds b q -> Z.of_nat (length data) <= VECTOR_MAX ->
  match readFd b (Some data) with
  | Ok (n, b') => n = Z.of_nat (length data) /\ holds b' (q ++ data)
  | Crash c => c = LengthError
  end.
Proof.
  intros (pre & post & Hl)%holds_layout Hlen.
  destruct (readFd_split _ _ _ _ data Hl) as [b1 [(Hn & -> & Hl1)|(Hn & Hl1 & ->)]].
  - split; [done|]. by eapply layout_holds.
  - apply layout_holds in Hl1. pose proof (append_holds _ _ (drop (length post) data) Hl1) as Ha.
    rewrite length_drop in Ha. specialize (Ha ltac:(lia)).
    destruct (append _ _) as [b2|c]; cbn [bind]; [|done].
    rewrite <- app_assoc, take_drop in Ha. done.
Qed.

Lemma readFd_holds b q data :
  holds b q -> buffer_size b + EXTRABUF <= VECTOR_MAX -> Z.of_nat (length data) <= iov_total b ->
  (exists b', readFd b (Some data) = Ok (Z.of_nat (length data), b') /\ holds b' (q ++ data)) /\
  readFd b None = Ok (-1, b) /\
  (q = [] -> readerIndex_ b = kCheapPrepend -> buffer_size b <= kCheapPrepend + READ_MAX ->
   Z.of_nat (length data) <= READ_MAX /\
   exists b', readFd b (Some data) = Ok (Z.of_nat (length data), b') /\
     buffer_size (retrieveAll b') <= kCheapPrepend + READ_MAX).
Proof.
  intros (pre & post & Hl)%holds_layout Hmax Hiov. pose proof (layout_size _ _ _ _ Hl) as Hsz.
  unfold iov_total in Hiov. rewrite (layout_writable _ _ _ _ Hl) in Hiov.
  assert (Hd : Z.of_nat (length data) <= Z.of_nat (length post) + EXTRABUF)
    by (revert Hiov; bcase; unfold EXTRABUF in *; lia).
  assert (Hiov' : Z.of_nat (length data) <= iov_total b).
  { unfold iov_total. by rewrite (layout_writable _ _ _ _ Hl). }
  destruct (readFd_layout _ _ _ _ data Hl Hiov' ltac:(lia)) as (b' & pre' & post' & Heq & Hl' & Hcap).
  split_and!; [|done|].
  - exists b'. split; [done|]. by eapply layout_holds.
  - intros -> Hr Hb. rewrite (ly_reader _ _ _ _ Hl) in Hr. unfold READ_MAX, kCheapPrepend, EXTRABUF in *.
    cbn [length app] in *. assert (Hdm : Z.of_nat (length data) <= 131071) by (revert Hiov; bcase; lia).
    split; [done|]. exists b'. split; [done|].
    change (buffer_size (retrieveAll b')) with (buffer_size b'). rewrite (layout_size _ _ _ _ Hl'). lia.
Qed.

(** [readFd] loses nothing and invents nothing: whatever [readv] delivers -
    at most what the two areas hold - is appended to the contents, the part that
    went to the stack area included, and its count is returned; on an error the
    buffer is unchanged.  A buffer that is drained after every read never makes
    [readFd] read more than 131071 bytes at once. *)
Theorem readFd_appends b q data :
  holds b q -> buffer_size b + EXTRABUF <= VECTOR_MAX -> Z.of_nat (length data) <= iov_total b ->
  (exists b', readFd b (Some data) = Ok (Z.of_nat (length data), b') /\ holds b' (q ++ data)) /\
  readFd b None = Ok (-1, b) /\
  (q = [] -> readerIndex_ b = kCheapPrepend -> buffer_size b <= kCheapPrepend + READ_MAX ->
   Z.of_nat (length data) <= READ_MAX /\
   exists b', readFd b (Some data) = Ok (Z.of_nat (length data), b') /\
     buffer_size (retrieveAll b') <= kCheapPrepend + READ_MAX).
Proof. apply readFd_holds. Qed.

Lemma readFd_appends_witness :
  holds small_buffer (map z2b [3; 4]) /\
  ((exists b', readFd small_buffer (Some (map z2b [5; 6; 7])) = Ok (3, b') /\
      holds b' (map z2b [3; 4] ++ map z2b [5; 6; 7])) /\
   readFd small_buffer None = Ok (-1, small_buffer) /\
   (map z2b [3; 4] = [] -> readerIndex_ small_buffer = kCheapPrepend ->
    buffer_size small_buffer <= kCheapPrepend + READ_MAX ->
    3 <= READ_MAX /\
    exists b', readFd small_buffer (Some (map z2b [5; 6; 7])) = Ok (3, b') /\
      buffer_size (retrieveAll b') <= kCheapPrepend + READ_MAX)).
Proof.
  split; [exact small_buffer_holds|].
  apply (readFd_appends small_buffer (map z2b [3; 4]) (map z2b [5; 6; 7]) small_buffer_holds);
    vm_compute; congruence.
Defined.

(** ** Searching *)

(** A line ends at offset [i]. *)
Definition crlf_at (l : bytes) (i : nat) : Prop :=
  (b2z <$> l !! i) = Some 13 /\ (b2z <$> l !! S i) = Some 10.

Lemma search_crlf_spec l :
  match search_crlf l with
  | Some i => crlf_at l i /\ forall j, (j < i)%nat -> ~ crlf_at l j
  | None => forall j, ~ crlf_at l j
  end.
Proof.
  induction l as [|c1 l IH]; [intros j [H _]; done|]. cbn [search_crlf].
  destruct l as [|c2 l].
  { intros [|j] [H1 H2]; [done|]. by destruct j. }
  destruct (_ && _) eqn:Hb; reflect_bools.
  - split; [by split; simpl; f_equal|]. intros j Hj. lia.
  - assert (H0 : ~ crlf_at (c1 :: c2 :: l) 0).
    { intros [H1 H2]. simpl in *. destruct Hb as [Hb|Hb]; reflect_bools; congruence. }
    destruct (search_crlf (c2 :: l)) as [i|]; simpl.
    + destruct IH as [Hi Hmin]. split; [done|]. intros [|j] Hj; [done|]. apply Hmin. lia.
    + intros [|j]; [done|]. apply IH.
Qed.

(** [findCRLF] returns the position of the first line end of the contents,
    and a null pointer exactly when there is none (a lone carriage return at the
    end does not count); consuming up to just behind it ([retrieveUntil]) leaves
    what follows. *)
Theorem findCRLF_first b q :
  holds b q ->
  match findCRLF b with
  | Some p => exists i, p = peek b + Z.of_nat i /\ crlf_at q i /\
                (forall j, (j < i)%nat -> ~ crlf_at q j) /\
                exists b', retrieveUntil b (p + 2) = Ok b' /\ holds b' (drop (i + 2) q)
  | None => forall j, ~ crlf_at q j
  end.
Proof.
  intros H. pose proof H as [_ Hc]. apply holds_layout in H as (pre & post & Hl).
  unfold findCRLF. change (slice (buffer_ b) (peek b) (beginWrite b)) with (contents b). rewrite Hc.
  pose proof (search_crlf_spec q) as Hs. destruct (search_crlf q) as [i|]; simpl; [|done].
  destruct Hs as [Hi Hmin]. exists i. split_and!; try done.
  assert (Hlen : (i + 2 <= length q)%nat).
  { destruct Hi as [_ Hi]. destruct (q !! S i) eqn:Hq; [|done]. apply lookup_lt_Some in Hq. lia. }
  unfold retrieveUntil, peek, beginWrite. rewrite (ly_reader _ _ _ _ Hl), (ly_writer _ _ _ _ Hl).
  pose proof (ly_size _ _ _ _ Hl).
  unfold assert_. bcase; [|lia]. cbn [bind]. bcase; [|lia]. cbn [bind].
  rewrite VECTOR_MAX_u64 by lia.
  destruct (retrieve_layout _ _ _ _ (Z.of_nat (i + 2)) Hl ltac:(lia)) as (b' & pre' & post' & Hr & Hl').
  replace (Z.of_nat (length pre) + Z.of_nat i + 2 - Z.of_nat (length pre)) with (Z.of_nat (i + 2)) by lia.
  exists b'. split; [done|]. rewrite Nat2Z.id in Hl'. by eapply layout_holds.
Qed.

Lemma findCRLF_first_witness :
  let b := {| buffer_ := replicate 8 (z2b 0) ++ map z2b [65; 13; 13; 10; 66]; readerIndex_ := 8; writerIndex_ := 13 |} in
  let q := map z2b [65; 13; 13; 10; 66] in
  holds b q /\
  match findCRLF b with
  | Some p => exists i, p = peek b + Z.of_nat i /\ crlf_at q i /\
                (forall j, (j < i)%nat -> ~ crlf_at q j) /\
                exists b', retrieveUntil b (p + 2) = Ok b' /\ holds b' (drop (i + 2) q)
  | None => forall j, ~ crlf_at q j
  end.
Proof.
  intros b q. assert (H : holds b q).
  { split; [|reflexivity]. constructor; unfold buffer_size, kCheapPrepend, VECTOR_MAX; simpl; lia. }
  split; [exact H|]. exact (findCRLF_first b q H).
Defined.
