(* ===== verification/ZlibStream.v ===== *)
(** * Compressing into a buffer ([muduo/net/ZlibStream.h])

    A [ZlibOutputStream] gives what is written to it to [deflate] of zlib, which
    puts the compressed bytes behind the contents of a [Buffer].  zlib is the
    class [Zlib]; what its manual promises is the class [ZlibLaws].  A pointer to
    input is the bytes from there on.  [ZlibInputStream] has a constructor only. *)

From S2P Require Import Prelude Endian Buffer.
#[local] Open Scope Z_scope.
#[local] Open Scope outcome_scope.

Module ZlibStream.

Definition Z_NO_FLUSH : Z := 0.
Definition Z_FINISH : Z := 4.
Definition Z_OK : Z := 0.
Definition Z_STREAM_END : Z := 1.

(** [deflate stream flush in avail_out]: the result, the stream, how many bytes
    it took from [in], and what it wrote. *)
Class Zlib := {
  z_stream : Type;
  deflateInit : Z * z_stream;
  deflate : z_stream -> Z -> bytes -> Z -> Z * z_stream * nat * bytes;
  deflateEnd : z_stream -> Z
}.

(** [stream_at f s i o]: [s] took [i] and wrote [o], and was called with
    [Z_FINISH] if [f]; [stream_done s i o]: it wrote everything. *)
Class ZlibLaws `{Zlib} (inflate : bytes -> option bytes) (deflateBound : nat -> nat) := {
  stream_at : bool -> z_stream -> bytes -> bytes -> Prop;
  stream_done : z_stream -> bytes -> bytes -> Prop;
  at_init : deflateInit.1 = Z_OK -> stream_at false deflateInit.2 [] [];
  (* with input and room, deflate makes progress *)
  at_no_flush s i o inp n e s' k p :
    stream_at false s i o -> inp <> [] -> 0 < n -> deflate s Z_NO_FLUSH inp n = (e, s', k, p) ->
    e = Z_OK /\ (k <= length inp)%nat /\ Z.of_nat (length p) <= n /\ (0 < k + length p)%nat /\
    stream_at false s' (i ++ take k inp) (o ++ p);
  (* with room left over, Z_FINISH takes and writes everything; no input is added
     after it *)
  at_finish f s i o inp n e s' k p :
    stream_at f s i o -> (f = true -> inp = []) -> 0 < n -> deflate s Z_FINISH inp n = (e, s', k, p) ->
    (k <= length inp)%nat /\ Z.of_nat (length p) <= n /\
    (e = Z_OK /\ Z.of_nat (length p) = n /\ stream_at true s' (i ++ take k inp) (o ++ p) \/
     e = Z_STREAM_END /\ k = length inp /\ stream_done s' (i ++ inp) (o ++ p));
  at_bound f s i o : stream_at f s i o -> (length o <= deflateBound (length i))%nat;
  done_end s i o : stream_done s i o -> deflateEnd s = Z_OK;
  done_inflate s i o : stream_done s i o -> inflate o = Some i;
  bound_mono m n : (m <= n)%nat -> (deflateBound m <= deflateBound n)%nat
}.

(** ** The class *)

Section stream.
Context `{Zlib}.

Record ZlibOutputStream := Stream {
  output_ : Buffer;
  zstream_ : z_stream;
  next_in : option bytes;      (* [None] is [NULL] *)
  avail_in : Z;
  zerror_ : Z;
  bufferSize_ : Z
}.

Definition new_ZlibOutputStream (output : Buffer) : ZlibOutputStream :=
  Stream output deflateInit.2 None 0 deflateInit.1 1024.

Definition compress (flush : Z) (s : ZlibOutputStream) : outcome (Z * ZlibOutputStream) :=
  let* b := ensureWritableBytes (output_ s) (bufferSize_ s) in
  let avail_out := u32 (s32 (writableBytes b)) in
  let '(error, z, k, p) :=
    deflate (zstream_ s) flush (take (Z.to_nat (avail_in s)) (default [] (next_in s))) avail_out in
  let* v := store (buffer_ b) (beginWrite b) p in
  let b := b <| buffer_ := v |> in
  let* b := hasWritten b (u64 (writableBytes b - (avail_out - Z.of_nat (length p)))) in
  let bufferSize :=
    if (writableBytes b =? 0) && (bufferSize_ s <? 65536) then bufferSize_ s * 2 else bufferSize_ s in
  Ok (error, Stream b z (drop k <$> next_in s) (avail_in s - Z.of_nat k) (zerror_ s) bufferSize).

Definition set_zerror (e : Z) (s : ZlibOutputStream) : ZlibOutputStream :=
  Stream (output_ s) (zstream_ s) (next_in s) (avail_in s) e (bufferSize_ s).

(** The loops return [None] when [fuel] rounds are not enough. *)
Fixpoint write_loop (fuel : nat) (s : ZlibOutputStream) : option (outcome ZlibOutputStream) :=
  match fuel with
  | O => None
  | S fuel =>
      if (0 <? avail_in s) && (zerror_ s =? Z_OK) then
        match compress Z_NO_FLUSH s with
        | Ok (e, s) => write_loop fuel (set_zerror e s)
        | Crash c => Some (Crash c)
        end
      else Some (Ok s)
  end.

Definition is_end (p : option bytes) : bool := match p with Some [] => true | _ => false end.

(** [write] of a [StringPiece]. *)
Definition write (fuel : nat) (buf : bytes) (s : ZlibOutputStream) : option (outcome (bool * ZlibOutputStream)) :=
  if negb (zerror_ s =? Z_OK) then Some (Ok (false, s))
  else if negb (match next_in s with None => avail_in s =? 0 | Some _ => false end) then Some (Crash AssertFailed)
  else
    let s := Stream (output_ s) (zstream_ s) (Some buf) (u32 (Z.of_nat (length buf))) (zerror_ s) (bufferSize_ s) in
    (fun o => let* s := o in
       if avail_in s =? 0 then
         let* _ := assert_ (is_end (next_in s)) in
         Ok (zerror_ s =? Z_OK, Stream (output_ s) (zstream_ s) None (avail_in s) (zerror_ s) (bufferSize_ s))
       else Ok (zerror_ s =? Z_OK, s)) <$> write_loop fuel s.

(** [write] of a [Buffer]. *)
Definition write_buffer (input : Buffer) (s : ZlibOutputStream) : outcome (bool * Buffer * ZlibOutputStream) :=
  if negb (zerror_ s =? Z_OK) then Ok (false, input, s)
  else
    let s := Stream (output_ s) (zstream_ s) (Some (drop (Z.to_nat (peek input)) (buffer_ input)))
               (u32 (s32 (readableBytes input))) (zerror_ s) (bufferSize_ s) in
    let* s :=
      if (0 <? avail_in s) && (zerror_ s =? Z_OK) then
        let* r := compress Z_NO_FLUSH s in Ok (set_zerror r.1 r.2)
      else Ok s in
    let* input := retrieve input (u64 (readableBytes input - avail_in s)) in
    Ok (zerror_ s =? Z_OK, input, s).

Fixpoint finish_loop (fuel : nat) (s : ZlibOutputStream) : option (outcome ZlibOutputStream) :=
  match fuel with
  | O => None
  | S fuel =>
      if zerror_ s =? Z_OK then
        match compress Z_FINISH s with
        | Ok (e, s) => finish_loop fuel (set_zerror e s)
        | Crash c => Some (Crash c)
        end
      else Some (Ok s)
  end.

(** [finish]; the destructor calls it, too. *)
Definition finish (fuel : nat) (s : ZlibOutputStream) : option (outcome (bool * ZlibOutputStream)) :=
  if negb (zerror_ s =? Z_OK) then Some (Ok (false, s))
  else (fun o => let* s := o in Ok (deflateEnd (zstream_ s) =? Z_OK, set_zerror Z_STREAM_END s)) <$> finish_loop fuel s.

(** Pieces that are written one after the other. *)
Fixpoint write_all (fuel : nat) (pieces : list bytes) (s : ZlibOutputStream) : option (outcome (bool * ZlibOutputStream)) :=
  match pieces with
  | [] => Some (Ok (true, s))
  | buf :: pieces =>
      match write fuel buf s with
      | Some (Ok (true, s)) => write_all fuel pieces s
      | r => r
      end
  end.


(** ** One call of [deflate] *)

(** The output holds [q], begins at [R] at most and has at most [C] bytes. *)
Definition outbuf (R C : Z) (b : Buffer) (q : bytes) : Prop :=
  holds b q /\ readerIndex_ b <= R /\ buffer_size b <= C.

Lemma ensureWritable_reader b len b' : ensureWritableBytes b len = Ok b' -> readerIndex_ b' <= readerIndex_ b.
Proof.
  unfold ensureWritableBytes. destruct (writableBytes b <? len).
  - unfold makeSpace. destruct (_ <? u64 (len + kCheapPrepend)).
    + intros (b1 & (v & _ & [= <-])%bind_ok & (? & _ & [= <-])%bind_ok)%bind_ok. done.
    + unfold assert_. bcase; [|done]. cbn [bind].
      intros (b1 & (v & _ & H1)%bind_ok & (? & _ & [= <-])%bind_ok)%bind_ok. revert H1. cbv zeta.
      intros (? & _ & [= <-])%bind_ok. cbn. lia.
  - cbn [bind]. by intros (? & _ & [= <-])%bind_ok.
Qed.

Lemma ensureWritable_outbuf R C b q len :
  outbuf R C b q -> 0 <= len -> R + Z.of_nat (length q) + len <= C -> C < 4294967296 ->
  exists b' pre post, ensureWritableBytes b len = Ok b' /\ layout b' pre q post /\
    Z.of_nat (length pre) <= R /\ len <= Z.of_nat (length post) /\
    Z.of_nat (length pre + length q + length post) <= C.
Proof.
  intros ((pre & post & Hl)%holds_layout & HR & HC) H0 Hroom Hbig.
  pose proof (layout_size _ _ _ _ Hl) as Hsz. pose proof (ly_reader _ _ _ _ Hl) as Hrd.
  destruct (ensureWritable_layout _ _ _ _ len Hl) as (b' & pre' & post' & He & Hl' & Hlen & Hcap);
    [unfold VECTOR_MAX; lia|left; unfold VECTOR_MAX; lia|].
  pose proof (ensureWritable_reader _ _ _ He) as Hr. pose proof (ly_reader _ _ _ _ Hl') as Hrd'.
  exists b', pre', post'. split_and!; [done|done|lia|done|lia].
Qed.

Definition next_size (bs bs' : Z) : Prop := bs' = bs \/ bs < 65536 /\ bs' = bs * 2.

Lemma compress_spec R C q rest flush s :
  outbuf R C (output_ s) q -> 0 < bufferSize_ s -> R + Z.of_nat (length q) + bufferSize_ s <= C -> C < 4294967296 ->
  take (Z.to_nat (avail_in s)) (default [] (next_in s)) = rest ->
  (forall n e z k p, 0 < n -> deflate (zstream_ s) flush rest n = (e, z, k, p) -> Z.of_nat (length p) <= n) ->
  exists n e z k p b' bs', bufferSize_ s <= n /\ deflate (zstream_ s) flush rest n = (e, z, k, p) /\
    compress flush s = Ok (e, Stream b' z (drop k <$> next_in s) (avail_in s - Z.of_nat k) (zerror_ s) bs') /\
    outbuf R C b' (q ++ p) /\ next_size (bufferSize_ s) bs'.
Proof.
  intros Ho Hbs Hroom HC Hin Hd.
  destruct (ensureWritable_outbuf _ _ _ _ (bufferSize_ s) Ho ltac:(lia) Hroom HC)
    as (b & pre & post & He & Hl & HR & Hlen & Hcap).
  unfold compress. rewrite He. cbn [bind]. rewrite (layout_writable _ _ _ _ Hl).
  assert (Hn : u32 (s32 (Z.of_nat (length post))) = Z.of_nat (length post)) by (rewrite u32_s32; word).
  rewrite Hn, Hin.
  destruct (deflate (zstream_ s) flush rest (Z.of_nat (length post))) as [[[e z] k] p] eqn:Ed.
  pose proof (Hd (Z.of_nat (length post)) _ _ _ _ ltac:(lia) Ed) as Hp.
  pose proof (take_drop (length p) post) as Hsp.
  assert (Hlt : length (take (length p) post) = length p) by (rewrite length_take; lia).
  unfold beginWrite. rewrite (ly_buffer _ _ _ _ Hl), (ly_writer _ _ _ _ Hl), <- Hsp, app_assoc.
  rewrite store_middle by (done || (rewrite length_app; lia)). cbn [bind].
  set (b2 := b <| buffer_ := _ |>).
  assert (Hl2 : layout b2 pre q (p ++ drop (length p) post)).
  { destruct Hl as [_ Hr Hw Hm]. constructor; simpl; try done.
    - by rewrite <- app_assoc.
    - rewrite length_app, length_drop. lia. }
  rewrite (layout_writable _ _ _ _ Hl2). unfold hasWritten. rewrite (layout_writable _ _ _ _ Hl2), Hsp.
  rewrite length_app, length_drop. rewrite VECTOR_MAX_u64 by (unfold VECTOR_MAX; lia).
  unfold assert_. bcase; [|lia]. cbn [bind].
  do 7 eexists. split; [exact Hlen|]. split; [exact Ed|]. split; [reflexivity|]. split.
  2:{ unfold next_size. bcase; [right; lia|by left]. }
  assert (Hl3 : layout (b2 <| writerIndex_ := u64 (writerIndex_ b2 + (Z.of_nat (length p + (length post - length p)) -
      (Z.of_nat (length post) - Z.of_nat (length p)))) |>) pre (q ++ p) (drop (length p) post)).
  { destruct Hl2 as [Hbuf Hr Hw Hm]. constructor; simpl.
    - by rewrite <- !app_assoc.
    - apply Hr.
    - rewrite (ly_writer _ _ _ _ Hl), VECTOR_MAX_u64, length_app by (unfold VECTOR_MAX; lia). lia.
    - rewrite length_app, length_drop. unfold kCheapPrepend, VECTOR_MAX in *. rewrite length_app, length_drop in Hm. lia. }
  split_and!; [by eapply layout_holds| |].
  - rewrite (ly_reader _ _ _ _ Hl3). lia.
  - rewrite (layout_size _ _ _ _ Hl3), length_app, length_drop. lia.
Qed.


(** ** Streams *)

Section laws.
Context {inflate : bytes -> option bytes} {deflateBound : nat -> nat} {Laws : ZlibLaws inflate deflateBound}.
Context (R C : Z) (q : bytes) (L : nat).
Hypothesis Hroom : R + Z.of_nat (length q + L) + 65536 <= C < 4294967296.

Definition sizes : list Z := [1024; 2048; 4096; 8192; 16384; 32768; 65536].

(** The stream took [i] and wrote [o] behind [q]. *)
Record taking (i o : bytes) (s : ZlibOutputStream) : Prop := {
  t_out : outbuf R C (output_ s) (q ++ o);
  t_bound : (length o <= L)%nat;
  t_error : zerror_ s = Z_OK;
  t_size : bufferSize_ s ∈ sizes
}.

Lemma sizes_range bs : bs ∈ sizes -> 0 < bs <= 65536.
Proof. unfold sizes. set_unfold. intuition lia. Qed.
Lemma sizes_next bs bs' : bs ∈ sizes -> next_size bs bs' -> bs' ∈ sizes.
Proof. intros Hs [->|[H1 ->]]; [done|]. revert Hs. unfold sizes. set_unfold. intuition lia. Qed.

Lemma compress_taking flush i o rest s :
  taking i o s -> take (Z.to_nat (avail_in s)) (default [] (next_in s)) = rest ->
  (forall n e z k p, 0 < n -> deflate (zstream_ s) flush rest n = (e, z, k, p) -> Z.of_nat (length p) <= n) ->
  exists n e z k p b' bs', 0 < n /\ deflate (zstream_ s) flush rest n = (e, z, k, p) /\
    compress flush s = Ok (e, Stream b' z (drop k <$> next_in s) (avail_in s - Z.of_nat k) (zerror_ s) bs') /\
    outbuf R C b' (q ++ o ++ p) /\ bs' ∈ sizes.
Proof using Hroom.
  intros [Ho Hb He Hs] Hin Hd. pose proof (sizes_range _ Hs) as Hbs.
  destruct (compress_spec R C (q ++ o) rest flush s Ho) as (n & e & z & k & p & b' & bs' & H1 & H2 & H3 & H4 & H5);
    [lia|rewrite length_app; lia|lia|done|done|].
  exists n, e, z, k, p, b', bs'. split_and!; [lia|done|done|by rewrite app_assoc|by eapply sizes_next].
Qed.

Lemma write_loop_spec fuel rest i o s :
  taking i o s -> stream_at false (zstream_ s) i o -> next_in s = Some rest -> avail_in s = Z.of_nat (length rest) ->
  (deflateBound (length i + length rest) <= L)%nat -> (length rest + (L - length o) < fuel)%nat ->
  exists o' s', write_loop fuel s = Some (Ok s') /\ taking (i ++ rest) o' s' /\
    stream_at false (zstream_ s') (i ++ rest) o' /\ next_in s' = Some [] /\ avail_in s' = 0.
Proof using Hroom Laws.
  revert rest i o s. induction fuel as [|fuel IH]; intros rest i o s Ht Hat Hin Hav HL Hf; [lia|]. cbn [write_loop].
  rewrite (t_error _ _ _ Ht), Hav, Z.eqb_refl, andb_true_r.
  destruct rest as [|x rest'] eqn:Er.
  { exists o, s. cbn. rewrite app_nil_r. done. }
  rewrite <- Er in *. assert (Hne : rest <> []) by (by rewrite Er). assert (0 < length rest)%nat by (rewrite Er; cbn; lia).
  bcase; [|lia].
  assert (Hd : forall n e z k p, 0 < n -> deflate (zstream_ s) Z_NO_FLUSH rest n = (e, z, k, p) -> Z.of_nat (length p) <= n).
  { intros n e z k p Hn Hdef. by destruct (at_no_flush _ _ _ _ _ _ _ _ _ Hat Hne Hn Hdef) as (_ & _ & ? & _). }
  destruct (compress_taking Z_NO_FLUSH i o rest s Ht) as (n & e & z & k & p & b' & bs' & Hn & Hdef & -> & Ho & Hs);
    [by rewrite Hin, Hav, Nat2Z.id; apply firstn_all|done|].
  destruct (at_no_flush _ _ _ _ _ _ _ _ _ Hat Hne Hn Hdef) as (-> & Hk & Hp & Hpro & Hat').
  pose proof (at_bound _ _ _ _ Hat') as Hbd. rewrite !length_app, length_take in Hbd.
  assert (deflateBound (length i + k `min` length rest) <= L)%nat.
  { etrans; [apply bound_mono|exact HL]. lia. }
  destruct (IH (drop k rest) (i ++ take k rest) (o ++ p) (set_zerror Z_OK
    (Stream b' z (drop k <$> next_in s) (avail_in s - Z.of_nat k) (zerror_ s) bs'))) as (o' & s' & E & Ht' & Hat2 & Hin' & Hav').
  - split; cbn; [done|rewrite length_app; lia|done|done].
  - exact Hat'.
  - cbn. by rewrite Hin.
  - cbn. rewrite Hav, length_drop. lia.
  - rewrite length_app, length_take, length_drop. replace (_ + _)%nat with (length i + length rest)%nat by lia. done.
  - rewrite length_drop, length_app. lia.
  - rewrite <- app_assoc, take_drop in Ht', Hat2. by exists o', s'.
Qed.

(** [write] takes everything; between writes nothing of the input is left. *)
Definition idle (s : ZlibOutputStream) : Prop := next_in s = None /\ avail_in s = 0.

Lemma write_spec fuel buf i o s :
  taking i o s -> stream_at false (zstream_ s) i o -> idle s -> Z.of_nat (length buf) < 2147483648 ->
  (deflateBound (length i + length buf) <= L)%nat -> (length buf + (L - length o) < fuel)%nat ->
  exists o' s', write fuel buf s = Some (Ok (true, s')) /\ taking (i ++ buf) o' s' /\
    stream_at false (zstream_ s') (i ++ buf) o' /\ idle s'.
Proof using Hroom Laws.
  intros Ht Hat [Hn Ha] Hlen HL Hf. unfold write. rewrite (t_error _ _ _ Ht), Hn, Ha. cbn [negb Z.eqb].
  rewrite u32_small by word.
  edestruct (write_loop_spec fuel buf i o) as (o' & s' & -> & Ht' & Hat' & Hin' & Hav');
    [split; [apply Ht..|reflexivity|apply Ht]|exact Hat|reflexivity|reflexivity|done|done|].
  cbn [fmap option_fmap option_map bind]. rewrite Hav', Hin', (t_error _ _ _ Ht'). cbn.
  eexists o', _. split; [reflexivity|]. split; [|split; [exact Hat'|done]].
  destruct Ht'. by split.
Qed.

Lemma write_pieces_spec fuel pieces i o s :
  taking i o s -> stream_at false (zstream_ s) i o -> idle s ->
  Forall (fun buf => Z.of_nat (length buf) < 2147483648) pieces ->
  (deflateBound (length i + length (concat pieces)) <= L)%nat -> (length (concat pieces) + L < fuel)%nat ->
  exists o' s', write_all fuel pieces s = Some (Ok (true, s')) /\ taking (i ++ concat pieces) o' s' /\
    stream_at false (zstream_ s') (i ++ concat pieces) o' /\ idle s'.
Proof using Hroom Laws.
  revert i o s. induction pieces as [|buf pieces IH]; intros i o s Ht Hat Hid Hlen HL Hf; cbn [write_all concat] in *.
  { exists o, s. by rewrite app_nil_r. }
  rewrite length_app in HL, Hf. apply Forall_cons in Hlen as [Hl Hlen].
  destruct (write_spec fuel buf i o s Ht Hat Hid Hl) as (o1 & s1 & -> & Ht1 & Hat1 & Hid1).
  { etrans; [apply bound_mono|exact HL]. lia. }
  { lia. }
  destruct (IH (i ++ buf) o1 s1 Ht1 Hat1 Hid1 Hlen) as (o' & s' & -> & Ht' & Hat' & Hid').
  { rewrite length_app. by rewrite <- Nat.add_assoc. }
  { lia. }
  rewrite <- app_assoc in Ht', Hat'. by exists o', s'.
Qed.

Lemma finish_loop_spec fuel f i o s :
  taking i o s -> stream_at f (zstream_ s) i o -> idle s ->
  (deflateBound (length i) <= L)%nat -> (S (L - length o) < fuel)%nat ->
  exists o' s', finish_loop fuel s = Some (Ok s') /\ outbuf R C (output_ s') (q ++ o') /\
    stream_done (zstream_ s') i o' /\ bufferSize_ s' ∈ sizes.
Proof using Hroom Laws.
  revert f o s. induction fuel as [|fuel IH]; intros f o s Ht Hat [Hin Hav] HL Hf; [lia|]. cbn [finish_loop].
  rewrite (t_error _ _ _ Ht). cbn [Z.eqb Z_OK].
  destruct (compress_taking Z_FINISH i o [] s Ht) as (n & e & z & k & p & b' & bs' & Hn & Hdef & -> & Ho & Hs);
    [by rewrite Hin, Hav| |].
  { intros n e z k p Hn Hdef. by destruct (at_finish _ _ _ _ _ _ _ _ _ _ Hat ltac:(done) Hn Hdef) as (_ & ? & _). }
  destruct (at_finish _ _ _ _ _ _ _ _ _ _ Hat ltac:(done) Hn Hdef) as (Hk & Hp & [(-> & Hfull & Hat')|(-> & _ & Hdone)]).
  - rewrite take_nil, app_nil_r in Hat'. pose proof (at_bound _ _ _ _ Hat') as Hbd. rewrite length_app in Hbd.
    cbn [length] in Hk. apply (IH true (o ++ p)); [|exact Hat'| |done|].
    + split; cbn; [done|rewrite length_app; lia|done|done].
    + split; cbn; [by rewrite Hin|lia].
    + rewrite length_app. lia.
  - rewrite app_nil_r in Hdone. exists (o ++ p). eexists. destruct fuel as [|fuel]; [lia|]. cbn. done.
Qed.

Lemma finish_spec fuel i o s :
  taking i o s -> stream_at false (zstream_ s) i o -> idle s ->
  (deflateBound (length i) <= L)%nat -> (S L < fuel)%nat ->
  exists z s', finish fuel s = Some (Ok (true, s')) /\ outbuf R C (output_ s') (q ++ z) /\
    inflate z = Some i /\ bufferSize_ s' ∈ sizes /\ zerror_ s' = Z_STREAM_END.
Proof using Hroom Laws.
  intros Ht Hat Hid HL Hf. unfold finish. rewrite (t_error _ _ _ Ht). cbn [negb Z.eqb Z_OK].
  destruct (finish_loop_spec fuel false i o s Ht Hat Hid HL) as (z & s' & -> & Ho & Hd & Hs); [lia|].
  cbn [fmap option_fmap option_map bind]. rewrite (done_end _ _ _ Hd). cbn.
  eexists z, _. split; [reflexivity|]. split_and!; [done|by eapply done_inflate|done|done].
Qed.

(** [write] of a [Buffer] takes a part of it off the front, all of it or what
    [deflate] takes at once. *)
Lemma write_buffer_spec input x i o s :
  taking i o s -> stream_at false (zstream_ s) i o -> holds input x -> x <> [] -> Z.of_nat (length x) < 4294967296 ->
  (deflateBound (length i + length x) <= L)%nat ->
  exists k p input' s', write_buffer input s = Ok (true, input', s') /\ holds input' (drop k x) /\
    taking (i ++ take k x) (o ++ p) s' /\ stream_at false (zstream_ s') (i ++ take k x) (o ++ p) /\
    (0 < k + length p)%nat /\ (k <= length x)%nat.
Proof using Hroom Laws.
  intros Ht Hat Hx Hne Hlen HL. unfold write_buffer. rewrite (t_error _ _ _ Ht). cbn [negb Z.eqb Z_OK avail_in zerror_].
  rewrite (holds_readable _ _ Hx). assert (Hu : u32 (s32 (Z.of_nat (length x))) = Z.of_nat (length x)) by (rewrite u32_s32; word).
  rewrite Hu. assert (0 < length x)%nat by (destruct x; cbn; [done|lia]).
  destruct (0 <? Z.of_nat (length x)) eqn:E; reflect_bools; [|lia]. cbn [andb].
  set (s0 := Stream _ _ _ _ _ _). destruct (holds_layout _ _ Hx) as (pre & post & Hl).
  assert (Hin : take (Z.to_nat (avail_in s0)) (default [] (next_in s0)) = x).
  { cbn. unfold peek. rewrite (ly_buffer _ _ _ _ Hl), (ly_reader _ _ _ _ Hl), !Nat2Z.id, drop_app_length.
    apply take_app_length. }
  assert (Hd : forall n e z k p, 0 < n -> deflate (zstream_ s0) Z_NO_FLUSH x n = (e, z, k, p) -> Z.of_nat (length p) <= n).
  { intros n e z k p Hn Hdef. by destruct (at_no_flush _ _ _ _ _ _ _ _ _ Hat Hne Hn Hdef) as (_ & _ & ? & _). }
  destruct (compress_taking Z_NO_FLUSH i o x s0) as (n & e & z & k & p & b' & bs' & Hn & Hdef & -> & Ho & Hs);
    [destruct Ht; by split|exact Hin|exact Hd|].
  destruct (at_no_flush _ _ _ _ _ _ _ _ _ Hat Hne Hn Hdef) as (-> & Hk & Hp & Hpro & Hat').
  cbn [bind fst snd avail_in set_zerror]. replace (u64 _) with (Z.of_nat k) by (cbn; word).
  destruct (retrieve_holds input x (Z.of_nat k) Hx ltac:(lia)) as (input' & -> & Hx'). rewrite Nat2Z.id in Hx'. cbn [bind].
  pose proof (at_bound _ _ _ _ Hat') as Hbd. rewrite !length_app, length_take in Hbd.
  assert (deflateBound (length i + k `min` length x) <= L)%nat by (etrans; [apply bound_mono|exact HL]; lia).
  exists k, p, input'. eexists. split; [reflexivity|]. split_and!; [done| |exact Hat'|done|done].
  split; cbn; [done|rewrite length_app; lia|done|done].
Qed.
End laws.

(** It leaves a pointer into the buffer behind: the other [write] stops at its
    assertion. *)
Lemma write_after_buffer input s input' s' fuel buf :
  write_buffer input s = Ok (true, input', s') -> write fuel buf s' = Some (Crash AssertFailed).
Proof.
  unfold write_buffer. destruct (zerror_ s =? Z_OK) eqn:He; cbn [negb]; [|done]. rewrite andb_comm.
  intros (s1 & Hs1 & (input1 & _ & E)%bind_ok)%bind_ok. injection E as Hz -> ->.
  unfold write. rewrite Hz. cbn [negb]. assert (exists p, next_in s' = Some p) as [p ->]; [|done].
  revert Hs1. cbn [zerror_]. rewrite He. cbn [andb]. bcase; [|intros [= <-]; eauto].
  intros ([e s2] & Hc & [= <-])%bind_ok. revert Hc. unfold compress. cbn [next_in].
  intros (b & _ & H1)%bind_ok. destruct (deflate _ _ _ _) as [[[??]?]?].
  apply bind_ok in H1 as (v & _ & (b3 & _ & [= <- <-])%bind_ok). cbn. eauto.
Qed.

(** A stream that was finished or has failed writes nothing. *)
Lemma closed_writes_nothing fuel buf input s :
  zerror_ s <> Z_OK ->
  write fuel buf s = Some (Ok (false, s)) /\ write_buffer input s = Ok (false, input, s) /\
  finish fuel s = Some (Ok (false, s)).
Proof. intros He. apply Z.eqb_neq in He. unfold write, write_buffer, finish. by rewrite He. Qed.

(** Pieces that are written to a new stream, which is then finished, are put
    compressed behind what the buffer holds: every [write] and [finish] report
    success, no assertion fails, the loops end, [inflate] gives back what was
    written, and the destructor, which finishes again, changes nothing.  The
    buffer may grow to 4 GB less one byte, what a [z_stream] can count. *)
Theorem zlib_stream_roundtrip inflate deflateBound `{!ZlibLaws inflate deflateBound} b q pieces fuel :
  let L := deflateBound (length (concat pieces)) in
  holds b q -> Z.max (buffer_size b) (readerIndex_ b + Z.of_nat (length q + L) + 65536) < 4294967296 ->
  Forall (fun buf => Z.of_nat (length buf) < 2147483648) pieces ->
  deflateInit.1 = Z_OK -> (length (concat pieces) + L + 2 <= fuel)%nat ->
  exists s1 s z, write_all fuel pieces (new_ZlibOutputStream b) = Some (Ok (true, s1)) /\
    finish fuel s1 = Some (Ok (true, s)) /\ holds (output_ s) (q ++ z) /\ inflate z = Some (concat pieces) /\
    1024 <= bufferSize_ s <= 65536 /\ finish fuel s = Some (Ok (false, s)).
Proof.
  intros L Hb Hbig Hlen Hi Hf.
  set (C := Z.max (buffer_size b) (readerIndex_ b + Z.of_nat (length q + L) + 65536)) in *.
  assert (Hroom : readerIndex_ b + Z.of_nat (length q + L) + 65536 <= C < 4294967296) by lia.
  destruct (write_pieces_spec (readerIndex_ b) C q L Hroom fuel pieces [] [] (new_ZlibOutputStream b))
    as (o & s1 & E1 & Ht & Hat & Hid); [| | |done|done|lia|].
  - split; cbn; [|lia|done|by left]. rewrite app_nil_r. split_and!; [done|lia|lia].
  - by apply at_init.
  - done.
  - destruct (finish_spec (readerIndex_ b) C q L Hroom fuel (concat pieces) o s1 Ht Hat Hid) as (z & s & E2 & Ho & Hz & Hs & He);
      [done|lia|].
    exists s1, s, z. split_and!; [done|done|apply Ho|done|..].
    + revert Hs. unfold sizes. set_unfold. intuition lia.
    + revert Hs. unfold sizes. set_unfold. intuition lia.
    + apply (closed_writes_nothing fuel [] b). by rewrite He.
Qed.

End stream.

(** ** The promises can be kept

    A [deflate] that writes two bytes for each byte and one at the end. *)
Definition coded (i : bytes) : bytes := concat (map (fun b => [z2b 1; b]) i).
Fixpoint decoded (o : bytes) : option bytes :=
  match o with
  | [] => None
  | m :: o => if b2z m =? 0 then Some [] else match o with [] => None | b :: o => cons b <$> decoded o end
  end.

(** What is still to be written, and whether the end was asked for. *)
Definition demo_deflate (s : bytes * bool) (flush : Z) (inp : bytes) (n : Z) : Z * (bytes * bool) * nat * bytes :=
  let pending := s.1 ++ coded inp ++ (if (flush =? Z_FINISH) && negb s.2 then [z2b 0] else []) in
  let rest := drop (Z.to_nat n) pending in
  (if (flush =? Z_FINISH) && match rest with [] => true | _ => false end then Z_STREAM_END else Z_OK,
   (rest, s.2 || (flush =? Z_FINISH)), length inp, take (Z.to_nat n) pending).
#[export] Instance demo_zlib : Zlib := {|
  z_stream := bytes * bool;
  deflateInit := (Z_OK, ([], false));
  deflate := demo_deflate;
  deflateEnd s := Z_OK
|}.

Lemma coded_app i j : coded (i ++ j) = coded i ++ coded j.
Proof. unfold coded. by rewrite map_app, concat_app. Qed.
Lemma length_coded i : length (coded i) = (2 * length i)%nat.
Proof. induction i as [|b i IH]; [done|]. change (coded (b :: i)) with (z2b 1 :: b :: coded i). cbn [length]. lia. Qed.
Lemma decoded_coded i : decoded (coded i ++ [z2b 0]) = Some i.
Proof.
  induction i as [|b i IH]; [done|]. change (coded (b :: i)) with (z2b 1 :: b :: coded i).
  change (((z2b 1 :: b :: coded i) ++ [z2b 0])) with (z2b 1 :: b :: (coded i ++ [z2b 0])).
  cbn [decoded]. rewrite b2z_z2b. cbn [u8 Z.eqb Z.modulo Z.div_eucl Z.pos_div_eucl Z.ltb Z.leb Z.compare Pos.compare Pos.compare_cont snd].
  by rewrite IH.
Qed.

Definition demo_bound (n : nat) : nat := 2 * n + 1.
Definition demo_end (f : bool) : bytes := if f then [z2b 0] else [].

#[export, refine] Instance demo_laws : ZlibLaws decoded demo_bound := {|
  stream_at f s i o := s.2 = f /\ o ++ s.1 = coded i ++ demo_end f;
  stream_done s i o := o = coded i ++ demo_end true
|}.
Proof.
  - done.
  - intros s i o inp n e s' k p [Hf Ho] Hne Hn. cbn. unfold demo_deflate. cbn. rewrite Hf. intros [= <- <- <- <-]. cbn.
    rewrite !app_nil_r in *. destruct inp as [|b inp]; [done|]. split_and!; [done|done| |cbn; lia|done|].
    + rewrite length_take. lia.
    + rewrite <- app_assoc, take_drop, firstn_all, coded_app, app_assoc, Ho. done.
  - intros f s i o inp n e s' k p [Hf Ho] Hinp Hn. cbn. unfold demo_deflate. cbn. rewrite Hf. intros [= <- <- <- <-].
    set (pending := s.1 ++ _). assert (Hp : o ++ pending = coded (i ++ inp) ++ demo_end true).
    { unfold pending. rewrite coded_app, app_assoc, Ho. destruct f; cbn.
      - rewrite Hinp by done. cbn. by rewrite !app_nil_r.
      - by rewrite app_nil_r, <- app_assoc. }
    rewrite firstn_all, length_take. split_and!; [done|lia|]. destruct (drop (Z.to_nat n) pending) as [|x rest] eqn:Er.
    + right. split_and!; [done|done|]. change [z2b 0] with (demo_end true). rewrite <- Hp.
      by rewrite <- (take_drop (Z.to_nat n) pending) at 2; rewrite Er, app_nil_r.
    + left. split_and!; [done| |by rewrite orb_true_r|].
      * apply (f_equal length) in Er. rewrite length_drop in Er. cbn in Er. lia.
      * cbn [fst]. rewrite <- app_assoc, <- Er. rewrite (take_drop (Z.to_nat n) pending). exact Hp.
  - intros f s i o [_ Ho]. unfold demo_bound. apply (f_equal length) in Ho. rewrite !length_app, length_coded in Ho.
    destruct f; cbn in Ho; lia.
  - done.
  - intros s i o ->. apply decoded_coded.
  - intros m n Hmn. unfold demo_bound. lia.
Qed.

Lemma zlib_stream_roundtrip_demo : exists b s1 s z,
  write_all 1000 [[z2b 7; z2b 8]; []; [z2b 9]] (new_ZlibOutputStream b) = Some (Ok (true, s1)) /\
  finish 1000 s1 = Some (Ok (true, s)) /\ holds (output_ s) (map z2b [3; 4] ++ z) /\ decoded z = Some (map z2b [7; 8; 9]) /\
  1024 <= bufferSize_ s <= 65536 /\ finish 1000 s = Some (Ok (false, s)).
Proof.
  exists small_buffer. refine (zlib_stream_roundtrip decoded demo_bound small_buffer (map z2b [3; 4])
    [[z2b 7; z2b 8]; []; [z2b 9]] 1000 small_buffer_holds _ _ _ _).
  - vm_compute. reflexivity.
  - repeat constructor.
  - reflexivity.
  - cbn. lia.
Qed.
End ZlibStream.
