(* ===== verification/StringPiece.v ===== *)
(** * String views ([muduo/base/StringPiece.h])

    A [StringPiece] is a pointer and a length.  A pointer is the bytes of its
    object from there on, [None] is [NULL]; a read behind the object is
    [OutOfBounds].  The specification is the bytes the piece covers
    ([piece_bytes]), in the order of their [unsigned char] values. *)

From S2P Require Import Prelude.
#[local] Open Scope Z_scope.
#[local] Open Scope outcome_scope.

Module StringPiece.

(** ** The C library *)

Fixpoint strlen (p : bytes) : outcome nat :=
  match p with
  | [] => Crash OutOfBounds
  | b :: p => if b2z b =? 0 then Ok O else let* n := strlen p in Ok (S n)
  end.

(** [memcmp], of which only the sign is specified; a negative [n] is a large
    [size_t]. *)
Fixpoint cmp_bytes (n : nat) (p q : bytes) : outcome Z :=
  match n with
  | O => Ok 0
  | S n =>
      match p, q with
      | b :: p, c :: q =>
          if b2z b =? b2z c then cmp_bytes n p q else Ok (if b2z b <? b2z c then -1 else 1)
      | _, _ => Crash OutOfBounds
      end
  end.
Definition memcmp (p q : option bytes) (n : Z) : outcome Z :=
  if n =? 0 then Ok 0
  else match p, q with
  | Some p, Some q => if n <? 0 then Crash OutOfBounds else cmp_bytes (Z.to_nat n) p q
  | _, _ => Crash NullDeref
  end.

(** ** The class *)

Record StringPiece := Piece { ptr_ : option bytes; length_ : Z }.

Definition empty_piece : StringPiece := Piece None 0.
Definition piece_of_c_str (str : bytes) : outcome StringPiece :=
  let* n := strlen str in Ok (Piece (Some str) (s32 (Z.of_nat n))).
(** [data()] of a string is followed by a zero. *)
Definition piece_of_string (str : bytes) : StringPiece :=
  Piece (Some (str ++ [z2b 0])) (s32 (Z.of_nat (length str))).
Definition piece_of (offset : option bytes) (len : Z) : StringPiece := Piece offset len.

Definition size (x : StringPiece) : Z := length_ x.
Definition empty (x : StringPiece) : bool := length_ x =? 0.
Definition clear (x : StringPiece) : StringPiece := Piece None 0.
Definition index (x : StringPiece) (i : Z) : outcome Byte.byte :=
  match ptr_ x with
  | Some p => match (if i <? 0 then None else p !! Z.to_nat i) with Some b => Ok b | None => Crash OutOfBounds end
  | None => Crash NullDeref
  end.

(** Arithmetic on the pointer stays inside the object or one behind it. *)
Definition remove_prefix (n : Z) (x : StringPiece) : outcome StringPiece :=
  let* len := chk32 (length_ x - n) in
  match ptr_ x with
  | Some p => if (0 <=? n) && (n <=? Z.of_nat (length p)) then Ok (Piece (Some (drop (Z.to_nat n) p)) len) else Crash OutOfBounds
  | None => if n =? 0 then Ok x else Crash NullDeref
  end.
Definition remove_suffix (n : Z) (x : StringPiece) : outcome StringPiece :=
  let* len := chk32 (length_ x - n) in Ok (Piece (ptr_ x) len).

Definition piece_eq (x y : StringPiece) : outcome bool :=
  if length_ x =? length_ y then let* r := memcmp (ptr_ x) (ptr_ y) (length_ x) in Ok (r =? 0) else Ok false.
Definition piece_ne (x y : StringPiece) : outcome bool := let* b := piece_eq x y in Ok (negb b).

Definition min_length (x y : StringPiece) : Z := if length_ x <? length_ y then length_ x else length_ y.
(** [STRINGPIECE_BINARY_PREDICATE(cmp, auxcmp)]. *)
Definition binary_predicate (cmp auxcmp : Z -> Z -> bool) (x y : StringPiece) : outcome bool :=
  let* r := memcmp (ptr_ x) (ptr_ y) (min_length x y) in
  Ok (auxcmp r 0 || (r =? 0) && cmp (length_ x) (length_ y)).
Definition piece_lt := binary_predicate Z.ltb Z.ltb.
Definition piece_le := binary_predicate Z.leb Z.ltb.
Definition piece_ge := binary_predicate Z.geb Z.gtb.
Definition piece_gt := binary_predicate Z.gtb Z.gtb.

Definition compare (x y : StringPiece) : outcome Z :=
  let* r := memcmp (ptr_ x) (ptr_ y) (min_length x y) in
  Ok (if r =? 0 then if length_ x <? length_ y then -1 else if length_ x >? length_ y then 1 else r else r).

(** The constructor of [std::string] from a pointer and a length. *)
Definition as_string (x : StringPiece) : outcome bytes :=
  if length_ x <? 0 then Crash LengthError
  else match ptr_ x with
  | Some p => if length_ x <=? Z.of_nat (length p) then Ok (take (Z.to_nat (length_ x)) p) else Crash OutOfBounds
  | None => if length_ x =? 0 then Ok [] else Crash NullDeref
  end.
Definition CopyToString (x : StringPiece) : outcome bytes := as_string x.

Definition starts_with (this x : StringPiece) : outcome bool :=
  if length_ this >=? length_ x then let* r := memcmp (ptr_ this) (ptr_ x) (length_ x) in Ok (r =? 0) else Ok false.

(** ** What a piece covers *)

Record covers (x : StringPiece) (s : bytes) : Prop := {
  c_length : length_ x = Z.of_nat (length s);
  c_bytes : s = [] \/ exists rest, ptr_ x = Some (s ++ rest)
}.

(** The order of byte strings. *)
Fixpoint lex (s t : bytes) : comparison :=
  match s, t with
  | [], [] => Eq
  | [], _ => Lt
  | _, [] => Gt
  | b :: s, c :: t => match b2z b ?= b2z c with Eq => lex s t | r => r end
  end.

Lemma lex_eq s t : lex s t = Eq <-> s = t.
Proof.
  revert t. induction s as [|b s IH]; intros [|c t]; cbn; [naive_solver..|].
  destruct (Z.compare_spec (b2z b) (b2z c)) as [H|H|H].
  - apply b2z_inj in H as ->. rewrite IH. naive_solver.
  - split; [done|]. intros [= -> ->]. lia.
  - split; [done|]. intros [= -> ->]. lia.
Qed.
Lemma lex_sym s t : lex t s = CompOpp (lex s t).
Proof.
  revert t. induction s as [|b s IH]; intros [|c t]; cbn; [done..|].
  rewrite (Z.compare_antisym (b2z b) (b2z c)). destruct (b2z b ?= b2z c); [apply IH|done..].
Qed.
Lemma lex_trans s t u : lex s t = Lt -> lex t u = Lt -> lex s u = Lt.
Proof.
  revert t u. induction s as [|b s IH]; intros [|c t] [|d u]; cbn; [done..|].
  destruct (Z.compare_spec (b2z b) (b2z c)) as [H|H|H], (Z.compare_spec (b2z c) (b2z d)) as [H'|H'|H']; try done.
  - rewrite H, H', Z.compare_refl. apply IH.
  - intros _ _. by rewrite (proj2 (Z.compare_lt_iff _ _)) by lia.
  - intros _ _. by rewrite (proj2 (Z.compare_lt_iff _ _)) by lia.
  - intros _ _. by rewrite (proj2 (Z.compare_lt_iff _ _)) by lia.
Qed.

(** ** The operations on what the pieces cover *)

Definition same_prefix (s t : bytes) : Prop :=
  take (length s `min` length t) s = take (length s `min` length t) t.

Lemma cmp_bytes_spec s t rs rt :
  exists r, cmp_bytes (length s `min` length t) (s ++ rs) (t ++ rt) = Ok r /\
    lex s t = match r ?= 0 with Eq => Nat.compare (length s) (length t) | c => c end /\
    (r = 0 <-> same_prefix s t).
Proof.
  unfold same_prefix. revert t. induction s as [|b s IH]; intros [|c t]; cbn [length Nat.min cmp_bytes app take];
    [by exists 0..|].
  cbn [lex Nat.compare]. destruct (Z.compare_spec (b2z b) (b2z c)) as [H|H|H].
  - rewrite H, Z.eqb_refl. destruct (IH t) as (r & H1 & H2 & H3). exists r. split; [done|split; [done|]].
    apply b2z_inj in H as ->. rewrite H3. split; [by intros ->|by intros [= ->]].
  - rewrite (proj2 (Z.eqb_neq _ _)), (proj2 (Z.ltb_lt _ _)) by lia. exists (-1). split; [done|split; [done|]].
    split; [done|]. intros [= -> _]. lia.
  - rewrite (proj2 (Z.eqb_neq _ _)), (proj2 (Z.ltb_ge _ _)) by lia. exists 1. split; [done|split; [done|]].
    split; [done|]. intros [= -> _]. lia.
Qed.

Lemma min_length_spec x y s t :
  covers x s -> covers y t -> min_length x y = Z.of_nat (length s `min` length t).
Proof. intros [Hx _] [Hy _]. unfold min_length. rewrite Hx, Hy. bcase; lia. Qed.

Lemma memcmp_spec x y s t :
  covers x s -> covers y t ->
  exists r, memcmp (ptr_ x) (ptr_ y) (min_length x y) = Ok r /\
    lex s t = match r ?= 0 with Eq => length_ x ?= length_ y | c => c end /\
    (r = 0 <-> same_prefix s t).
Proof.
  intros Hx Hy. rewrite (min_length_spec _ _ _ _ Hx Hy). destruct Hx as [Hx Hsx], Hy as [Hy Hsy].
  rewrite Hx, Hy, Nat2Z.inj_compare. unfold memcmp.
  destruct Hsx as [->|[rs Hps]]; [exists 0; by destruct t|].
  destruct Hsy as [->|[rt Hpt]]; [exists 0; unfold same_prefix; rewrite Nat.min_0_r; by destruct s|].
  rewrite Hps, Hpt. destruct (cmp_bytes_spec s t rs rt) as (r & Hc & Hl). bcase.
  - assert (Hm : (length s `min` length t = 0)%nat) by lia. rewrite Hm in Hc. exists r. split; [by rewrite <- Hc|done].
  - bcase; [lia|]. rewrite Nat2Z.id. by exists r.
Qed.

(** The cases of [r ?= 0] and of the lengths. *)
Ltac order_cases r x y :=
  destruct (Z.compare_spec r 0), (Z.compare_spec (length_ x) (length_ y)); subst;
  rewrite ?Z.gtb_ltb, ?Z.geb_leb;
  repeat match goal with
  | |- context [Z.ltb ?a ?b] => destruct (Z.ltb_spec a b)
  | |- context [Z.leb ?a ?b] => destruct (Z.leb_spec a b)
  | |- context [Z.eqb ?a ?b] => destruct (Z.eqb_spec a b)
  end; cbn; try done; try lia;
  match goal with |- context [Z.compare ?a 0] => destruct (Z.compare_spec a 0) end; done || lia.

(** The relational operators compare the byte strings: they are those of one
    order, in which [compare] and [==] agree with them. *)
Theorem piece_order x y s t : covers x s -> covers y t ->
  piece_lt x y = Ok (match lex s t with Lt => true | _ => false end) /\
  piece_le x y = Ok (match lex s t with Gt => false | _ => true end) /\
  piece_gt x y = Ok (match lex s t with Gt => true | _ => false end) /\
  piece_ge x y = Ok (match lex s t with Lt => false | _ => true end) /\
  piece_eq x y = Ok (match lex s t with Eq => true | _ => false end) /\
  piece_ne x y = Ok (match lex s t with Eq => false | _ => true end) /\
  exists c, compare x y = Ok c /\ c ?= 0 = lex s t.
Proof.
  intros Hx Hy. destruct (memcmp_spec _ _ _ _ Hx Hy) as (r & Hr & Hl & _).
  assert (He : piece_eq x y = Ok (match lex s t with Eq => true | _ => false end)).
  { unfold piece_eq. bcase.
    - assert (Hm : length_ x = min_length x y) by (unfold min_length; bcase; lia). rewrite Hm, Hr, Hl. cbn [bind].
      f_equal. order_cases r x y.
    - rewrite Hl. f_equal. order_cases r x y. }
  split_and!; [..|exact He|unfold piece_ne; rewrite He; by destruct (lex s t)|];
    unfold piece_lt, piece_le, piece_gt, piece_ge, compare, binary_predicate; rewrite Hr, Hl; cbn [bind].
  1-4: f_equal; order_cases r x y.
  eexists. split; [reflexivity|]. order_cases r x y.
Qed.

Lemma prefix_take (s t : bytes) : t `prefix_of` s <-> (length t <= length s)%nat /\ take (length t) s = t.
Proof.
  split.
  - intros [u ->]. rewrite length_app. split; [lia|]. apply take_app_length.
  - intros [_ H]. exists (drop (length t) s). rewrite <- H at 1. by rewrite take_drop.
Qed.

Theorem starts_with_prefix x y s t : covers x s -> covers y t ->
  starts_with x y = Ok (bool_decide (t `prefix_of` s)).
Proof.
  intros Hx Hy. destruct (memcmp_spec _ _ _ _ Hx Hy) as (r & Hr & _ & H0). unfold starts_with, same_prefix in *.
  pose proof (c_length _ _ Hx) as Lx. pose proof (c_length _ _ Hy) as Ly.
  rewrite Z.geb_leb. destruct (Z.leb_spec (length_ y) (length_ x)) as [Hle|Hle].
  - assert (Hm : length_ y = min_length x y) by (unfold min_length; bcase; lia). rewrite Hm, Hr. cbn [bind]. f_equal.
    replace (length s `min` length t)%nat with (length t) in H0 by lia. rewrite firstn_all in H0.
    destruct (Z.eqb_spec r 0) as [E|E].
    + symmetry. apply bool_decide_eq_true, prefix_take. split; [lia|]. by apply H0.
    + symmetry. apply bool_decide_eq_false. intros [_ H]%prefix_take. by apply H0 in H.
  - f_equal. symmetry. apply bool_decide_eq_false. intros [H _]%prefix_take. lia.
Qed.

(** Making pieces, copying them, taking off their ends. *)
Lemma piece_of_string_covers str : Z.of_nat (length str) < 2147483648 -> covers (piece_of_string str) str.
Proof. intros H. split; cbn; [word|]. right. by exists [z2b 0]. Qed.

Lemma piece_of_c_str_covers s rest :
  Forall (fun b => b2z b <> 0) s -> Z.of_nat (length s) < 2147483648 ->
  exists x, piece_of_c_str (s ++ z2b 0 :: rest) = Ok x /\ covers x s.
Proof.
  intros Hs Hl. assert (Hn : strlen (s ++ z2b 0 :: rest) = Ok (length s)).
  { clear Hl. induction Hs as [|b s Hb Hs IH]; [done|]. cbn [app strlen]. apply Z.eqb_neq in Hb. by rewrite Hb, IH. }
  unfold piece_of_c_str. rewrite Hn. cbn [bind]. eexists. split; [reflexivity|]. split; cbn; [word|]. right. by eexists.
Qed.

Theorem piece_parts x s n :
  covers x s -> 0 < n <= Z.of_nat (length s) -> Z.of_nat (length s) < 2147483648 ->
  as_string x = Ok s /\
  (exists y, remove_prefix n x = Ok y /\ covers y (drop (Z.to_nat n) s)) /\
  (exists y, remove_suffix n x = Ok y /\ covers y (take (length s - Z.to_nat n) s)) /\
  (forall i, 0 <= i < Z.of_nat (length s) -> exists b, index x i = Ok b /\ s !! Z.to_nat i = Some b).
Proof.
  intros [Hl Hb] Hn Hmax. destruct Hb as [->|[rest Hp]]; [cbn in Hn; lia|].
  unfold as_string, remove_prefix, remove_suffix, index. rewrite Hl, Hp, !chk32_ok by lia. cbn [bind]. split_and!.
  - bcase; [lia|]. rewrite length_app. bcase; [|lia]. by rewrite Nat2Z.id, take_app_length.
  - destruct (_ && _) eqn:E; reflect_bools; [|destruct E as [E|E]; reflect_bools; rewrite ?length_app in *; lia]. eexists. split; [reflexivity|]. split; cbn.
    + rewrite length_drop. lia.
    + right. exists rest. by rewrite drop_app_le by lia.
  - eexists. split; [reflexivity|]. split; cbn.
    + rewrite length_take. lia.
    + right. exists (drop (length s - Z.to_nat n) s ++ rest). by rewrite app_assoc, take_drop.
  - intros i Hi. bcase; [lia|]. rewrite lookup_app_l by lia.
    destruct (lookup_lt_is_Some_2 s (Z.to_nat i)) as [b Hget]; [lia|]. rewrite Hget. eauto.
Qed.

(** Nothing is checked: more than the length leaves a negative length, which no
    [std::string] has. *)
Theorem remove_suffix_too_long s n : 0 <= Z.of_nat (length s) < n -> n < 2147483648 ->
  bind (remove_suffix n (piece_of_string s)) as_string = Crash LengthError.
Proof.
  intros H1 H2. unfold remove_suffix, piece_of_string. cbn [length_ ptr_]. rewrite chk32_ok by word. cbn [bind].
  unfold as_string. cbn [length_]. bcase; [done|word].
Qed.

(** A string of 2^31 characters or more has a negative length. *)
Theorem long_string_fails s : 2147483648 <= Z.of_nat (length s) < 4294967296 ->
  as_string (piece_of_string s) = Crash LengthError.
Proof. intros H. unfold as_string, piece_of_string. cbn [length_]. bcase; [done|word]. Qed.

End StringPiece.
