(* ===== verification/ReadFile.v ===== *)
(** * Reading small files ([FileUtil::ReadSmallFile] of [muduo/base/FileUtil.cc])

    A file is read in pieces of at most 64 KB until its end, a limit or an
    error.  The calls of the system are parameters: the k-th [read] of a file
    returns some of the bytes that are left, or fails. *)

From S2P Require Import Prelude.
#[local] Open Scope Z_scope.
#[local] Open Scope outcome_scope.

Module ReadSmallFile.

Definition kBufferSize : Z := 65536.
Definition EISDIR : Z := 21.

Inductive file_type := Regular | Directory | Other.
Record stat := Stat { st_mode : file_type; st_size : Z; st_mtime : Z; st_ctime : Z }.

(** A file that was opened, or the [errno] of [open]. *)
Record file := File { data : bytes; offset : nat; calls : nat }.

Section system.
Context (open_ : file + Z) (fstat : stat + Z) (read_ : nat -> file -> nat + Z) (pread : nat + Z).

Record ReadSmallFile := Small { fd_ : option file; err_ : Z; buf_ : bytes }.

Definition new_ReadSmallFile : ReadSmallFile :=
  let buf := z2b 0 :: replicate (Z.to_nat 65535) (z2b 0) in
  match open_ with
  | inl f => Small (Some f) 0 buf
  | inr errno => Small None errno buf
  end.

(** [read(fd_, buf_, toRead)]: the bytes, or [errno]. *)
Definition sys_read (toRead : Z) (f : file) : outcome ((bytes + Z) * file) :=
  if toRead >? kBufferSize then Crash OutOfBounds
  else
    let next n := File (data f) (offset f + n) (S (calls f)) in
    match read_ (Z.to_nat toRead) f with
    | inl n => Ok (inl (take n (drop (offset f) (data f))), next n)
    | inr errno => Ok (inr errno, next O)
    end.

(** What the pointers [fileSize], [modifyTime] and [createTime] receive. *)
Record attributes := Attr { fileSize : option Z; modifyTime : option Z; createTime : option Z }.

(** The first part of [readToString]: [err] and the attributes. *)
Definition read_stat (maxSize : Z) (want_size want_mtime want_ctime : bool) (err : Z) : outcome (Z * attributes) :=
  if want_size then
    match fstat with
    | inl st =>
        let* r := match st_mode st with
          | Regular =>
              if s32 (Z.min maxSize (st_size st)) <? 0 then Crash LengthError else Ok (err, Some (st_size st))
          | Directory => Ok (EISDIR, None)
          | Other => Ok (err, None)
          end in
        Ok (r.1, Attr r.2 (if want_mtime then Some (st_mtime st) else None) (if want_ctime then Some (st_ctime st) else None))
    | inr errno => Ok (errno, Attr None None None)
    end
  else Ok (err, Attr None None None).

(** The loop; [None] if [fuel] rounds are not enough. *)
Fixpoint read_loop (fuel : nat) (maxSize : Z) (err : Z) (content : bytes) (f : file)
    : option (outcome (Z * bytes * file)) :=
  match fuel with
  | O => None
  | S fuel =>
      if Z.of_nat (length content) <? u64 maxSize then
        let toRead := Z.min (u64 (u64 maxSize - Z.of_nat (length content))) kBufferSize in
        match sys_read toRead f with
        | Ok (inl [], f) => Some (Ok (err, content, f))
        | Ok (inl buf, f) => read_loop fuel maxSize err (content ++ buf) f
        | Ok (inr errno, f) => Some (Ok (errno, content, f))
        | Crash c => Some (Crash c)
        end
      else Some (Ok (err, content, f))
  end.

Definition readToString (fuel : nat) (maxSize : Z) (want_size want_mtime want_ctime : bool) (content : bytes)
    (this : ReadSmallFile) : option (outcome (Z * bytes * attributes)) :=
  match fd_ this with
  | Some f =>
      match read_stat maxSize want_size want_mtime want_ctime (err_ this) with
      | Ok (err, attrs) =>
          (fun o => let* r := o in Ok (r.1.1, r.1.2, attrs)) <$> read_loop fuel maxSize err [] f
      | Crash c => Some (Crash c)
      end
  | None => Some (Ok (err_ this, content, Attr None None None))
  end.

Definition readFile (fuel : nat) (maxSize : Z) (want_size want_mtime want_ctime : bool) (content : bytes)
    : option (outcome (Z * bytes * attributes)) :=
  readToString fuel maxSize want_size want_mtime want_ctime content new_ReadSmallFile.

(** [readToBuffer]: the result, [*size] and the object; [pread] starts at the
    beginning of the file. *)
Definition readToBuffer (this : ReadSmallFile) : outcome (Z * option Z * ReadSmallFile) :=
  match fd_ this with
  | Some f =>
      match pread with
      | inl n =>
          if kBufferSize <=? Z.of_nat n then Crash OutOfBounds
          else
            let read := take n (data f) in
            let buf := read ++ z2b 0 :: drop (S (length read)) (buf_ this) in
            Ok (err_ this, Some (Z.of_nat n), Small (fd_ this) (err_ this) buf)
      | inr errno => Ok (errno, None, this)
      end
  | None => Ok (err_ this, None, this)
  end.

(** ** Properties *)

(** What POSIX says of [read]: not more than is asked for and is left, and
    nothing only at the end. *)
Hypothesis read_le : forall n f m, read_ n f = inl m -> (m <= n)%nat /\ (m <= length (data f) - offset f)%nat.
Hypothesis read_some : forall n f, read_ n f = inl O -> n = O \/ (length (data f) <= offset f)%nat.

Lemma read_loop_spec fuel maxSize err f :
  0 <= maxSize < 2147483648 -> (offset f <= length (data f))%nat -> Z.of_nat (offset f) <= maxSize ->
  (length (data f) - offset f < fuel)%nat ->
  exists e m f', read_loop fuel maxSize err (take (offset f) (data f)) f = Some (Ok (e, take m (data f), f')) /\
    Z.of_nat m <= maxSize /\
    (e = err /\ Z.of_nat m = Z.min maxSize (Z.of_nat (length (data f))) \/ exists n g, read_ n g = inr e).
Proof using read_le read_some.
  intros Hmax. revert f. induction fuel as [|fuel IH]; intros f Ho Hm Hf; [lia|]. cbn [read_loop].
  assert (Hu : u64 maxSize = maxSize) by word. rewrite Hu. rewrite length_take, Nat.min_l by lia.
  bcase.
  2:{ eexists err, (offset f), f. split; [done|]. split; [done|]. left. split; [done|lia]. }
  unfold sys_read, kBufferSize. assert (Hu2 : u64 (maxSize - Z.of_nat (offset f)) = maxSize - Z.of_nat (offset f)) by word.
  rewrite Hu2. bcase; [lia|].
  destruct (read_ _ f) as [n|errno] eqn:Er.
  2:{ exists errno, (offset f). eexists. split; [reflexivity|]. split; [lia|]. right. eauto. }
  destruct (read_le _ _ _ Er) as [H1 H2].
  assert (Hlen : length (take n (drop (offset f) (data f))) = n) by (rewrite length_take, length_drop; lia).
  destruct (take n (drop (offset f) (data f))) as [|x buf] eqn:Eb; cbn in Hlen.
  - subst n. destruct (read_some _ _ Er) as [H|H]; [lia|].
    exists err, (offset f). eexists. split; [reflexivity|]. split; [lia|]. left. split; [done|lia].
  - rewrite <- Eb. rewrite take_take_drop.
    apply (IH (File (data f) (offset f + n) (S (calls f)))); cbn; lia.
Qed.

(** [readFile] reads the first [maxSize] bytes of a file, all of it if it is
    shorter, however [read] splits them; after an error it returns the error and
    what it had read.  No read is larger than the buffer. *)
Theorem read_file_prefix bs maxSize want_size want_mtime want_ctime content fuel :
  open_ = inl (File bs 0 0) -> 0 <= maxSize < 2147483648 -> (length bs < fuel)%nat ->
  (forall st, fstat = inl st -> 0 <= st_size st) ->
  exists e m attrs, readFile fuel maxSize want_size want_mtime want_ctime content = Some (Ok (e, take m bs, attrs)) /\
    Z.of_nat m <= maxSize /\
    (Z.of_nat m = Z.min maxSize (Z.of_nat (length bs)) \/ exists n f, read_ n f = inr e).
Proof using read_le read_some.
  intros Ho Hmax Hf Hst. unfold readFile, readToString, new_ReadSmallFile. rewrite Ho. cbn [fd_ err_].
  assert (exists e attrs, read_stat maxSize want_size want_mtime want_ctime 0 = Ok (e, attrs)) as (e0 & attrs & ->).
  { unfold read_stat. destruct want_size; [|eauto]. destruct fstat as [st|errno]; [|eauto].
    specialize (Hst st eq_refl). destruct (st_mode st); [|cbn; eauto..].
    destruct (s32 _ <? 0) eqn:E; reflect_bools; [exfalso; word|]. cbn. eauto. }
  destruct (read_loop_spec fuel maxSize e0 (File bs 0 0)) as (e & m & f' & Hr & H1 & H2); cbn in *; [done|lia|lia|lia|].
  rewrite take_0 in Hr. rewrite Hr. cbn. exists e, m, attrs. split; [done|]. split; [done|]. destruct H2 as [[_ H2]|H2]; [by left|by right].
Qed.

(** The buffer holds the beginning of the file and a zero behind it. *)
Theorem read_to_buffer_spec bs this n :
  fd_ this = Some (File bs 0 0) -> Z.of_nat (length (buf_ this)) = 65536 -> pread = inl n ->
  Z.of_nat n < 65536 -> (n <= length bs)%nat ->
  exists buf, readToBuffer this = Ok (err_ this, Some (Z.of_nat n), Small (fd_ this) (err_ this) buf) /\
    Z.of_nat (length buf) = 65536 /\ take n buf = take n bs /\ buf !! n = Some (z2b 0).
Proof.
  intros Hfd Hlen Hp Hn Hb. unfold readToBuffer. rewrite Hfd, Hp. unfold kBufferSize. bcase; [lia|].
  eexists. split; [reflexivity|]. cbn [data]. assert (Ht : length (take n bs) = n) by (rewrite length_take; lia). rewrite Ht.
  split_and!.
  - rewrite length_app, Ht. cbn [length]. rewrite length_drop. lia.
  - rewrite take_app_le by lia. apply firstn_all2. lia.
  - rewrite lookup_app_r by lia. by rewrite Ht, Nat.sub_diag.
Qed.

(** The times are read only if the size is asked for. *)
Theorem times_need_size maxSize want_mtime want_ctime err :
  read_stat maxSize false want_mtime want_ctime err = Ok (err, Attr None None None).
Proof. done. Qed.

End system.

(** A file that is read two bytes at a time. *)
Definition two_at_a_time (n : nat) (f : file) : nat + Z := inl (Nat.min (Nat.min n 2) (length (data f) - offset f)).
Definition demo_file : bytes := map z2b [5; 6; 7; 8; 9].
Lemma read_file_demo :
  readFile (inl (File demo_file 0 0)) (inl (Stat Regular 5 100 200)) two_at_a_time 10 4 true true false [] =
    Some (Ok (0, map z2b [5; 6; 7; 8], Attr (Some 5) (Some 100) None)) /\
  exists e m attrs,
    readFile (inl (File demo_file 0 0)) (inl (Stat Regular 5 100 200)) two_at_a_time 10 4 true true false [] =
      Some (Ok (e, take m demo_file, attrs)) /\ Z.of_nat m <= 4 /\
    (Z.of_nat m = Z.min 4 (Z.of_nat (length demo_file)) \/ exists n f, two_at_a_time n f = inr e).
Proof.
  split; [vm_compute; reflexivity|].
  apply (read_file_prefix (inl (File demo_file 0 0)) (inl (Stat Regular 5 100 200)) two_at_a_time);
    [intros n f m [= <-]; lia|intros n f [= H]; lia|done|lia|cbn; lia|by intros st [= <-]].
Qed.
End ReadSmallFile.
