(* ===== verification/Http.v ===== *)
(** * HTTP requests

    [muduo/net/http/HttpRequest.h], [HttpContext.h], [HttpContext.cc],
    [HttpResponse.h], [HttpResponse.cc] and the connection handling of
    [HttpServer.cc]: the parser of request lines and headers, which a server
    calls with whatever has arrived, and the answers.  A [const char*] range is
    the list of its bytes. *)

From stdpp Require Import strings pretty.
From S2P Require Import Prelude Effects Buffer.

Open Scope Z_scope.

(** ** Characters *)

Definition str (s : string) : bytes := String.list_byte_of_string s.

Definition SP : byte := z2b 32.
Definition COLON : byte := z2b 58.
Definition QUESTION : byte := z2b 63.
Definition CRLF : bytes := [z2b 13; z2b 10].

(** [isspace] in the C locale. *)
Definition isspace (c : byte) : bool := (b2z c =? 32) || ((9 <=? b2z c) && (b2z c <=? 13)).

#[export] Instance byte_countable : Countable byte.
Proof. refine (inj_countable Byte.to_N Byte.of_N _). intros b. apply Byte.of_to_N. Defined.

(** [std::find] splits a range before the first occurrence; [None] is its end. *)
Fixpoint find_char (c : byte) (l : bytes) : option (bytes * bytes) :=
  match l with
  | [] => None
  | x :: l' =>
      if decide (x = c) then Some ([], l)
      else match find_char c l' with Some (a, b) => Some (x :: a, b) | None => None end
  end.

(** ** Requests *)

Inductive Method := kInvalid | kGet | kPost | kHead | kPut | kDelete.
Inductive Version := kUnknown | kHttp10 | kHttp11.
#[export] Instance Method_eq_dec : EqDecision Method.
Proof. solve_decision. Defined.
#[export] Instance Version_eq_dec : EqDecision Version.
Proof. solve_decision. Defined.

Record HttpRequest := mk_HttpRequest {
  method_ : Method;
  version_ : Version;
  path_ : bytes;
  query_ : bytes;
  receiveTime_ : Z;
  headers_ : gmap bytes bytes
}.

Definition eta_HttpRequest (r : HttpRequest) : HttpRequest :=
  mk_HttpRequest (method_ r) (version_ r) (path_ r) (query_ r) (receiveTime_ r) (headers_ r).
#[export] Instance set_method_ : Setter method_ := ltac:(build_setter eta_HttpRequest method_).
#[export] Instance set_version_ : Setter version_ := ltac:(build_setter eta_HttpRequest version_).
#[export] Instance set_path_ : Setter path_ := ltac:(build_setter eta_HttpRequest path_).
#[export] Instance set_query_ : Setter query_ := ltac:(build_setter eta_HttpRequest query_).
#[export] Instance set_receiveTime_ : Setter receiveTime_ := ltac:(build_setter eta_HttpRequest receiveTime_).
#[export] Instance set_headers_ : Setter headers_ := ltac:(build_setter eta_HttpRequest headers_).

Definition new_HttpRequest : HttpRequest := {|
  method_ := kInvalid; version_ := kUnknown; path_ := []; query_ := []; receiveTime_ := 0; headers_ := ∅ |}.

Definition method_of (m : bytes) : Method :=
  if decide (m = str "GET") then kGet
  else if decide (m = str "POST") then kPost
  else if decide (m = str "HEAD") then kHead
  else if decide (m = str "PUT") then kPut
  else if decide (m = str "DELETE") then kDelete
  else kInvalid.

Definition setMethod (m : bytes) (r : HttpRequest) : outcome (bool * HttpRequest) :=
  bind (assert_ (bool_decide (method_ r = kInvalid))) (fun _ =>
  let r := r <| method_ := method_of m |> in
  Ok (negb (bool_decide (method_ r = kInvalid)), r)).

Definition methodString (r : HttpRequest) : bytes :=
  match method_ r with
  | kGet => str "GET"
  | kPost => str "POST"
  | kHead => str "HEAD"
  | kPut => str "PUT"
  | kDelete => str "DELETE"
  | kInvalid => str "UNKNOWN"
  end.

(** The two loops of [addHeader]. *)
Fixpoint skip_spaces (l : bytes) : bytes :=
  match l with
  | c :: l' => if isspace c then skip_spaces l' else l
  | [] => []
  end.
Definition trim_end (l : bytes) : bytes := reverse (skip_spaces (reverse l)).

(** [rest] begins at the colon. *)
Definition addHeader (field rest : bytes) (r : HttpRequest) : HttpRequest :=
  let value := skip_spaces (drop 1 rest) in
  let value := trim_end value in
  r <| headers_ := <[field := value]> (headers_ r) |>.

Definition getHeader (field : bytes) (r : HttpRequest) : bytes := default [] (headers_ r !! field).

(** ** The parser *)

Inductive HttpRequestParseState := kExpectRequestLine | kExpectHeaders | kExpectBody | kGotAll.
#[export] Instance ParseState_eq_dec : EqDecision HttpRequestParseState.
Proof. solve_decision. Defined.

Record HttpContext := mk_HttpContext { parse_state : HttpRequestParseState; request_ : HttpRequest }.

Definition new_HttpContext : HttpContext := mk_HttpContext kExpectRequestLine new_HttpRequest.
Definition gotAll (c : HttpContext) : bool := bool_decide (parse_state c = kGotAll).
Definition reset (c : HttpContext) : HttpContext := mk_HttpContext kExpectRequestLine new_HttpRequest.

(** The part of the line behind the method. *)
Definition parse_target (rest : bytes) (r : HttpRequest) : bool * HttpRequest :=
  match find_char SP rest with
  | None => (false, r)
  | Some (target, rest) =>
      let r :=
        match find_char QUESTION target with
        | Some (path, query) => r <| path_ := path |> <| query_ := query |>
        | None => r <| path_ := target |>
        end in
      let version := drop 1 rest in
      if (Z.of_nat (length version) =? 8) && bool_decide (take 7 version = str "HTTP/1.") then
        match drop 7 version with
        | [c] => if b2z c =? 49 then (true, r <| version_ := kHttp11 |>)
                 else if b2z c =? 48 then (true, r <| version_ := kHttp10 |>)
                 else (false, r)
        | _ => (false, r)
        end
      else (false, r)
  end.

Definition processRequestLine (line : bytes) (r : HttpRequest) : outcome (bool * HttpRequest) :=
  match find_char SP line with
  | None => Ok (false, r)
  | Some (m, rest) =>
      bind (setMethod m r) (fun '(ok, r) =>
      if ok : bool then Ok (parse_target (drop 1 rest) r) else Ok (false, r))
  end.

(** The loop of [parseRequest]; [None] is out of fuel. *)
Fixpoint parseRequest (fuel : nat) (c : HttpContext) (buf : Buffer) (receiveTime : Z) :
    outcome (option (bool * HttpContext * Buffer)) :=
  match fuel with
  | O => Ok None
  | S fuel =>
      match parse_state c with
      | kExpectRequestLine =>
          match findCRLF buf with
          | Some crlf =>
              bind (processRequestLine (slice (buffer_ buf) (peek buf) crlf) (request_ c)) (fun '(ok, r) =>
              if ok : bool then
                bind (retrieveUntil buf (crlf + 2)) (fun buf =>
                parseRequest fuel (mk_HttpContext kExpectHeaders (r <| receiveTime_ := receiveTime |>)) buf receiveTime)
              else Ok (Some (false, mk_HttpContext (parse_state c) r, buf)))
          | None => Ok (Some (true, c, buf))
          end
      | kExpectHeaders =>
          match findCRLF buf with
          | Some crlf =>
              match find_char COLON (slice (buffer_ buf) (peek buf) crlf) with
              | Some (field, rest) =>
                  bind (retrieveUntil buf (crlf + 2)) (fun buf =>
                  parseRequest fuel (mk_HttpContext (parse_state c) (addHeader field rest (request_ c))) buf receiveTime)
              | None =>
                  bind (retrieveUntil buf (crlf + 2)) (fun buf =>
                  Ok (Some (true, mk_HttpContext kGotAll (request_ c), buf)))
              end
          | None => Ok (Some (true, c, buf))
          end
      | kExpectBody | kGotAll => parseRequest fuel c buf receiveTime
      end
  end.

(** ** Responses *)

Record HttpResponse := mk_HttpResponse {
  resp_headers : list (bytes * bytes);       (* in the order of the map *)
  statusCode_ : Z;
  statusMessage_ : bytes;
  closeConnection_ : bool;
  body_ : bytes
}.

Definition eta_HttpResponse (r : HttpResponse) : HttpResponse :=
  mk_HttpResponse (resp_headers r) (statusCode_ r) (statusMessage_ r) (closeConnection_ r) (body_ r).
#[export] Instance set_resp_headers : Setter resp_headers := ltac:(build_setter eta_HttpResponse resp_headers).
#[export] Instance set_statusCode_ : Setter statusCode_ := ltac:(build_setter eta_HttpResponse statusCode_).
#[export] Instance set_statusMessage_ : Setter statusMessage_ := ltac:(build_setter eta_HttpResponse statusMessage_).
#[export] Instance set_closeConnection_ : Setter closeConnection_ :=
  ltac:(build_setter eta_HttpResponse closeConnection_).
#[export] Instance set_body_ : Setter body_ := ltac:(build_setter eta_HttpResponse body_).

Definition new_HttpResponse (close : bool) : HttpResponse := {|
  resp_headers := []; statusCode_ := 0; statusMessage_ := []; closeConnection_ := close; body_ := [] |}.

(** [std::string]'s order, and the assignment to an element of the map. *)
Fixpoint string_lt (a b : bytes) : bool :=
  match a, b with
  | [], [] => false
  | [], _ => true
  | _, [] => false
  | x :: a, y :: b => (b2z x <? b2z y) || ((b2z x =? b2z y) && string_lt a b)
  end.
Fixpoint map_assign (key value : bytes) (l : list (bytes * bytes)) : list (bytes * bytes) :=
  match l with
  | [] => [(key, value)]
  | (k, v) :: l' =>
      if string_lt key k then (key, value) :: l
      else if string_lt k key then (k, v) :: map_assign key value l'
      else (key, value) :: l'
  end.
Definition resp_addHeader (key value : bytes) (r : HttpResponse) : HttpResponse :=
  r <| resp_headers := map_assign key value (resp_headers r) |>.
Definition setContentType (t : bytes) (r : HttpResponse) : HttpResponse := resp_addHeader (str "Content-Type") t r.

(** [snprintf] into an array of 32 characters. *)
Definition snprintf32 (s : bytes) : bytes := take 31 s.

(** The arguments of the calls of [append], in order. *)
Definition response_pieces (r : HttpResponse) : list bytes :=
  [snprintf32 (str "HTTP/1.1 " ++ str (pretty (statusCode_ r)) ++ str " "); statusMessage_ r; CRLF] ++
  (if closeConnection_ r then [str "Connection: close" ++ CRLF]
   else [snprintf32 (str "Content-Length: " ++ str (pretty (Z.of_nat (length (body_ r)))) ++ CRLF);
         str "Connection: Keep-Alive" ++ CRLF]) ++
  concat (map (fun h => [h.1; str ": "; h.2; CRLF]) (resp_headers r)) ++
  [CRLF; body_ r].

Fixpoint append_all (l : list bytes) (output : Buffer) : outcome Buffer :=
  match l with
  | [] => Ok output
  | p :: l => bind (append output p) (append_all l)
  end.

Definition appendToBuffer (r : HttpResponse) (output : Buffer) : outcome Buffer :=
  append_all (response_pieces r) output.

(** ** The server *)

Section server.
Open Scope handler_scope.

(** What it does with the connection. *)
Inductive http_action :=
  | HttpSend (data : bytes)
  | HttpShutdown.

Variable httpCallback : HttpRequest -> HttpResponse -> HttpResponse.

Definition defaultHttpCallback (_ : HttpRequest) (resp : HttpResponse) : HttpResponse :=
  resp <| statusCode_ := 404 |> <| statusMessage_ := str "Not Found" |> <| closeConnection_ := true |>.

Definition wants_close (req : HttpRequest) : bool :=
  let connection := getHeader (str "Connection") req in
  bool_decide (connection = str "close") ||
  (bool_decide (version_ req = kHttp10) && negb (bool_decide (connection = str "Keep-Alive"))).

Definition onRequest (req : HttpRequest) : M HttpContext http_action unit :=
  let response := httpCallback req (new_HttpResponse (wants_close req)) in
  do buf <- lift (new_Buffer kInitialSize);
  do buf <- lift (appendToBuffer response buf);
  do _ <- emit (HttpSend (contents buf));
  if closeConnection_ response then emit HttpShutdown else mret tt.

(** [onMessage]; the context is the state, and the input buffer is returned.
    [None] is out of fuel. *)
Definition http_onMessage (fuel : nat) (buf : Buffer) (receiveTime : Z) : M HttpContext http_action (option Buffer) :=
  do c <- mget id;
  do result <- lift (parseRequest fuel c buf receiveTime);
  match result with
  | None => mret None
  | Some (ok, c, buf) =>
      do _ <- mmod (fun _ => c);
      do _ <- (if negb ok then
                 do _ <- emit (HttpSend (str "HTTP/1.1 400 Bad Request" ++ CRLF ++ CRLF));
                 emit HttpShutdown
               else mret tt);
      do _ <- (if gotAll c then do _ <- onRequest (request_ c); mmod reset else mret tt);
      mret (Some buf)
  end.
End server.

(** ** The grammar *)

(** The first line of a byte sequence. *)
Definition first_line (q line rest : bytes) : Prop :=
  q = line ++ CRLF ++ rest /\ search_crlf q = Some (length line).

(** What a complete line does to a context. *)
Definition http_line (t : Z) (c : HttpContext) (line : bytes) : outcome (bool * HttpContext) :=
  match parse_state c with
  | kExpectRequestLine =>
      bind (processRequestLine line (request_ c)) (fun '(ok, r) =>
      if ok : bool then Ok (true, mk_HttpContext kExpectHeaders (r <| receiveTime_ := t |>))
      else Ok (false, mk_HttpContext (parse_state c) r))
  | kExpectHeaders =>
      match find_char COLON line with
      | Some (field, rest) => Ok (true, mk_HttpContext (parse_state c) (addHeader field rest (request_ c)))
      | None => Ok (true, mk_HttpContext kGotAll (request_ c))
      end
  | _ => Ok (true, c)
  end.

(** A context that reads lines, and whose next line does not fail the assertion
    of [setMethod]. *)
Definition ctx_ok (c : HttpContext) : Prop :=
  parse_state c = kExpectHeaders \/ parse_state c = kExpectRequestLine /\ method_ (request_ c) = kInvalid.

(** [reads t c q ok c' rest]: from [c], the bytes [q] lead to [c'] and leave
    [rest], line by line. *)
Inductive reads (t : Z) : HttpContext -> bytes -> bool -> HttpContext -> bytes -> Prop :=
  | reads_more c q : ctx_ok c -> search_crlf q = None -> reads t c q true c q
  | reads_bad c q line rest c' : ctx_ok c -> first_line q line rest -> http_line t c line = Ok (false, c') ->
      reads t c q false c' q
  | reads_done c q line rest c' : ctx_ok c -> first_line q line rest -> http_line t c line = Ok (true, c') ->
      gotAll c' = true -> reads t c q true c' rest
  | reads_line c q line rest c1 ok c' rest' : ctx_ok c -> first_line q line rest -> http_line t c line = Ok (true, c1) ->
      gotAll c1 = false -> reads t c1 rest ok c' rest' -> reads t c q ok c' rest'.

(** ** Lemmas *)

Lemma search_crlf_app q1 q2 i : search_crlf q1 = Some i -> search_crlf (q1 ++ q2) = Some i.
Proof.
  revert i. induction q1 as [|c1 [|c2 q1] IH]; intros i H; [done..|].
  cbn in *. destruct (_ && _); [done|].
  destruct (match q1 with [] => None | _ => _ end) as [j|] eqn:E; [|done].
  specialize (IH j). cbn in IH. rewrite IH; [done|]. done.
Qed.

Lemma first_line_app q1 line rest q2 : first_line q1 line rest -> first_line (q1 ++ q2) line (rest ++ q2).
Proof. intros [-> Hs]. split; [by rewrite <-!(assoc_L (++))|]. by apply search_crlf_app. Qed.

Lemma crlf_bytes q i : crlf_at q i -> q = take i q ++ CRLF ++ drop (i + 2) q.
Proof.
  intros [H1 H2]. destruct (q !! i) as [a|] eqn:Ha; [|done]. destruct (q !! S i) as [b|] eqn:Hb; [|done].
  cbn in H1, H2. injection H1 as H1. injection H2 as H2.
  assert (a = z2b 13) as -> by (rewrite <-H1; symmetry; apply z2b_b2z).
  assert (b = z2b 10) as -> by (rewrite <-H2; symmetry; apply z2b_b2z).
  rewrite <-(take_drop i q) at 1. f_equal. rewrite (drop_S q (z2b 13) i Ha), (drop_S q (z2b 10) (S i) Hb).
  cbn. do 2 f_equal. f_equal. lia.
Qed.

Lemma first_line_intro q i : search_crlf q = Some i -> first_line q (take i q) (drop (i + 2) q) /\ (i + 2 <= length q)%nat.
Proof.
  intros Hs. pose proof (search_crlf_spec q) as Hsp. rewrite Hs in Hsp. destruct Hsp as [Hi _].
  assert (Hl : (i + 2 <= length q)%nat).
  { destruct Hi as [_ Hi]. destruct (q !! S i) eqn:E; [|done]. apply lookup_lt_Some in E. lia. }
  split; [|done]. split; [by apply crlf_bytes|]. rewrite Hs. f_equal. rewrite length_take. lia.
Qed.

Lemma first_line_unique q line rest i : first_line q line rest -> search_crlf q = Some i ->
  line = take i q /\ rest = drop (i + 2) q.
Proof.
  intros [-> H1] H2. rewrite H1 in H2. injection H2 as <-. split; [by rewrite take_app_length|].
  rewrite (assoc_L (++)), drop_app_length'; [done|]. rewrite length_app. done.
Qed.

(** The line of a buffer. *)
Lemma buffer_line b q i : holds b q -> search_crlf q = Some i ->
  findCRLF b = Some (peek b + Z.of_nat i) /\ slice (buffer_ b) (peek b) (peek b + Z.of_nat i) = take i q /\
  exists b', retrieveUntil b (peek b + Z.of_nat i + 2) = Ok b' /\ holds b' (drop (i + 2) q).
Proof.
  intros Hb Hs. pose proof (findCRLF_first b q Hb) as Hf. pose proof Hb as [_ Hc].
  assert (Hfind : findCRLF b = Some (peek b + Z.of_nat i)).
  { unfold findCRLF. change (slice (buffer_ b) (peek b) (beginWrite b)) with (contents b). by rewrite Hc, Hs. }
  split; [done|]. rewrite Hfind in Hf. destruct Hf as (j & Hj & _ & _ & b' & Hr & Hh).
  assert (j = i) as -> by lia. split; [|by exists b'].
  destruct (first_line_intro _ _ Hs) as [_ Hl]. apply holds_layout in Hb as (pre & post & Hly).
  unfold slice, peek. rewrite (ly_buffer _ _ _ _ Hly), (ly_reader _ _ _ _ Hly), Nat2Z.id, drop_app_length.
  replace (Z.to_nat _) with i by lia. rewrite take_app_le by lia. done.
Qed.

Lemma buffer_no_line b q : holds b q -> search_crlf q = None -> findCRLF b = None.
Proof.
  intros [_ Hc] Hs. unfold findCRLF. change (slice (buffer_ b) (peek b) (beginWrite b)) with (contents b).
  by rewrite Hc, Hs.
Qed.

Lemma setMethod_ok m r : method_ r = kInvalid -> setMethod m r =
  Ok (negb (bool_decide (method_of m = kInvalid)), r <| method_ := method_of m |>).
Proof. intros Hm. unfold setMethod, assert_. by rewrite bool_decide_true. Qed.

Lemma http_line_ok t c line : ctx_ok c -> exists ok c', http_line t c line = Ok (ok, c') /\
  (ok = true -> gotAll c' = false -> ctx_ok c') /\ (ok = false -> parse_state c = kExpectRequestLine).
Proof.
  unfold ctx_ok, http_line. intros [Hc|[Hc Hm]]; rewrite Hc.
  - destruct (find_char COLON line) as [[f rest]|]; eexists _, _; (split; [done|]); split; try done; auto.
  - unfold processRequestLine. destruct (find_char SP line) as [[m rest]|].
    + rewrite (setMethod_ok _ _ Hm). cbn. destruct (negb _).
      * cbn. destruct (parse_target _ _) as [[] r]; eexists _, _; (split; [done|]); split; try done; auto.
      * eexists _, _. split; [done|]. done.
    + eexists _, _. split; [done|]. done.
Qed.

(** ** The parser implements the grammar *)

(** One turn of the loop on a complete line. *)
Lemma parseRequest_line fuel c b q t i ok c' : holds b q -> search_crlf q = Some i -> ctx_ok c ->
  http_line t c (take i q) = Ok (ok, c') ->
  exists b', holds b' (drop (i + 2) q) /\
  parseRequest (S fuel) c b t =
    if negb ok then Ok (Some (false, c', b))
    else if gotAll c' then Ok (Some (true, c', b')) else parseRequest fuel c' b' t.
Proof.
  intros Hb Hs Hc Hline. destruct (buffer_line _ _ _ Hb Hs) as (Hf & Hsl & b' & Hr & Hh). exists b'. split; [done|].
  cbn [parseRequest]. rewrite Hf, Hsl. unfold http_line in Hline. destruct Hc as [Hc|[Hc _]]; rewrite Hc in *.
  - destruct (find_char COLON _) as [[f rest]|]; simplify_eq/=; rewrite Hr; cbn; [|done].
    unfold gotAll. cbn. done.
  - destruct (processRequestLine _ _) as [[[] r]|]; simplify_eq/=; [|done]. rewrite Hr. cbn. done.
Qed.

Lemma parseRequest_reads fuel c b q t : holds b q -> ctx_ok c -> (length q < fuel)%nat ->
  exists ok c' b' rest, parseRequest fuel c b t = Ok (Some (ok, c', b')) /\ holds b' rest /\ reads t c q ok c' rest.
Proof.
  revert c b q. induction fuel as [|fuel IH]; intros c b q Hb Hc Hl; [lia|].
  destruct (search_crlf q) as [i|] eqn:Hs.
  - destruct (first_line_intro _ _ Hs) as [Hfl Hlen]. destruct (http_line_ok t c (take i q) Hc) as (ok & c1 & Hline & Hok & _).
    destruct (parseRequest_line fuel _ _ _ t _ _ _ Hb Hs Hc Hline) as (b1 & Hb1 & Hp). rewrite Hp. destruct ok; cbn.
    + destruct (gotAll c1) eqn:Hg.
      * eexists _, _, _, _. split_and!; [done..|]. by apply (reads_done _ _ _ (take i q)).
      * destruct (IH c1 b1 (drop (i + 2) q) Hb1 (Hok eq_refl eq_refl)) as (ok & c' & b' & rest & Hp' & Hb' & Hr).
        { rewrite length_drop. lia. }
        eexists _, _, _, _. split_and!; [done..|]. by apply (reads_line _ _ _ (take i q) (drop (i + 2) q) c1).
    + eexists _, _, _, _. split_and!; [done..|]. by apply (reads_bad _ _ _ (take i q) (drop (i + 2) q)).
  - exists true, c, b, q. split_and!; [|done|by constructor]. cbn. rewrite (buffer_no_line _ _ Hb Hs).
    by destruct Hc as [->|[-> _]].
Qed.

Lemma first_line_det q l1 r1 l2 r2 : first_line q l1 r1 -> first_line q l2 r2 -> l1 = l2 /\ r1 = r2.
Proof.
  intros [E1 S1] [E2 S2]. rewrite S1 in S2. injection S2 as Hl. rewrite E1 in E2.
  apply app_inj_1 in E2 as [-> E2]; [|done]. by apply app_inv_head in E2.
Qed.

Lemma reads_det t c q ok c' rest : reads t c q ok c' rest -> forall ok2 c2 rest2, reads t c q ok2 c2 rest2 ->
  ok = ok2 /\ c' = c2 /\ rest = rest2.
Proof.
  induction 1; intros ok2 c2 rest2 H'; inversion H'; subst; clear H'; try done;
  repeat match goal with
  | H1 : first_line ?q ?l1 _, H2 : first_line ?q ?l2 _ |- _ =>
      destruct (first_line_det _ _ _ _ _ H1 H2); subst; clear H1
  | H1 : first_line ?q _ _, H2 : search_crlf ?q = None |- _ => destruct H1 as [_ H1]; congruence
  | H1 : http_line ?t ?c ?l = _, H2 : http_line ?t ?c ?l = _ |- _ => rewrite H1 in H2; simplify_eq
  end; try congruence; auto.
Qed.

(** ** Input in pieces *)

Lemma reads_app t c a ok c1 r1 : reads t c a ok c1 r1 -> forall b,
  if negb ok || gotAll c1 then reads t c (a ++ b) ok c1 (r1 ++ b)
  else forall ok2 c2 r2, reads t c1 (r1 ++ b) ok2 c2 r2 -> reads t c (a ++ b) ok2 c2 r2.
Proof.
  induction 1 as [c q Hc Hs|c q line rest c' Hc Hfl Hl|c q line rest c' Hc Hfl Hl Hg|c q line rest c1 ok c' rest' Hc Hfl Hl Hg Hr IH];
    intros b; cbn [negb orb].
  - replace (gotAll c) with false; [by auto|]. symmetry. apply bool_decide_eq_false. by destruct Hc as [->|[-> _]].
  - apply (reads_bad _ _ _ line (rest ++ b)); [done | by apply first_line_app | done].
  - rewrite Hg. apply (reads_done _ _ _ line (rest ++ b)); [done | by apply first_line_app | done | done].
  - specialize (IH b). pose proof (first_line_app _ _ _ b Hfl) as Hfl'. destruct (negb ok || gotAll c').
    + by apply (reads_line _ _ _ line (rest ++ b) c1).
    + intros ok2 c2 r2 H2. apply (reads_line _ _ _ line (rest ++ b) c1); auto.
Qed.

Lemma reads_ctx_ok t c q ok c' r : reads t c q ok c' r -> ok = true -> gotAll c' = false -> ctx_ok c'.
Proof. induction 1 as [| | |c q line rest c1 ok c' rest' Hc Hfl Hl Hg Hr IH]; intros Hok Hga; try done; auto. congruence. Qed.

(** C30.  The parser does not depend on how the input is cut.  From a context that
    waits for a request line or for headers ([ctx_ok]; the context of a refused
    request is not reset and does not satisfy it, [refused_then_abort]), on a buffer with
    the bytes [a] its loop ends within one round more than there are bytes; and if the
    request is neither complete nor refused by then and [b] arrives, it goes on
    to the same verdict, the same request and the same rest as when [a] and [b]
    arrive together.  If it is complete or refused, [b] stays in the buffer.  The
    receive time, which is only stored in the request, is the same for both
    arrivals. *)
Theorem http_parse_pieces c a b t buf buf' :
  ctx_ok c -> holds buf a -> holds buf' (a ++ b) ->
  exists ok1 c1 buf1 r1 ok c' buf2 rest,
    parseRequest (S (length a)) c buf t = Ok (Some (ok1, c1, buf1)) /\ holds buf1 r1 /\
    parseRequest (S (length (a ++ b))) c buf' t = Ok (Some (ok, c', buf2)) /\ holds buf2 rest /\
    if negb ok1 || gotAll c1 then ok = ok1 /\ c' = c1 /\ rest = r1 ++ b
    else forall buf1', holds buf1' (r1 ++ b) -> exists buf3,
      parseRequest (S (length (r1 ++ b))) c1 buf1' t = Ok (Some (ok, c', buf3)) /\ holds buf3 rest.
Proof.
  intros Hc Ha Hab.
  destruct (parseRequest_reads (S (length a)) c buf a t Ha Hc) as (ok1 & c1 & buf1 & r1 & Hp1 & Hb1 & H1); [lia|].
  destruct (parseRequest_reads (S (length (a ++ b))) c buf' (a ++ b) t Hab Hc) as (ok & c' & buf2 & rest & Hp & Hb2 & H); [lia|].
  exists ok1, c1, buf1, r1, ok, c', buf2, rest. split_and!; try done.
  pose proof (reads_app _ _ _ _ _ _ H1 b) as Happ. destruct (negb ok1 || gotAll c1) eqn:Hd.
  - by destruct (reads_det _ _ _ _ _ _ H _ _ _ Happ) as (-> & -> & ->).
  - intros buf1' Hb1'. apply orb_false_iff in Hd as [Hok Hg]. apply negb_false_iff in Hok. subst ok1.
    pose proof (reads_ctx_ok _ _ _ _ _ _ H1 eq_refl Hg) as Hc1.
    destruct (parseRequest_reads (S (length (r1 ++ b))) c1 buf1' (r1 ++ b) t Hb1' Hc1)
      as (ok3 & c3 & buf3 & r3 & Hp3 & Hb3 & H3); [lia|].
    destruct (reads_det _ _ _ _ _ _ H _ _ _ (Happ _ _ _ H3)) as (-> & -> & ->). by exists buf3.
Qed.

(** A context that is not reset after a complete request never returns. *)
Lemma gotAll_never_returns fuel c buf t : gotAll c = true -> parseRequest fuel c buf t = Ok None.
Proof.
  intros Hg. apply bool_decide_eq_true in Hg. induction fuel as [|fuel IH]; [done|]. cbn. by rewrite Hg.
Qed.

(** ** Printing and parsing *)

Definition plain (l : bytes) : Prop := z2b 13 ∉ l.

Definition version_string (v : Version) : bytes :=
  match v with kHttp11 => str "HTTP/1.1" | _ => str "HTTP/1.0" end.

Definition print_header (h : bytes * bytes) : bytes := h.1 ++ str ": " ++ h.2 ++ CRLF.

Definition print_request (r : HttpRequest) (hs : list (bytes * bytes)) : bytes :=
  methodString r ++ [SP] ++ path_ r ++ query_ r ++ [SP] ++ version_string (version_ r) ++ CRLF ++
  concat (map print_header hs) ++ CRLF.

Record header_ok (h : bytes * bytes) : Prop := {
  ho_field : plain h.1 /\ COLON ∉ h.1;
  ho_value : plain h.2 /\ skip_spaces h.2 = h.2 /\ trim_end h.2 = h.2
}.

Record request_ok (r : HttpRequest) : Prop := {
  ro_method : method_ r <> kInvalid;
  ro_version : version_ r <> kUnknown;
  ro_path : plain (path_ r) /\ SP ∉ path_ r /\ QUESTION ∉ path_ r;
  ro_query : plain (query_ r) /\ SP ∉ query_ r /\ (query_ r = [] \/ exists q, query_ r = QUESTION :: q)
}.

Lemma find_char_app c l x : c ∉ l -> find_char c (l ++ c :: x) = Some (l, c :: x).
Proof.
  induction l as [|y l IH]; intros H; cbn; [by rewrite decide_True|].
  rewrite decide_False by set_solver. by rewrite IH by set_solver.
Qed.

Lemma find_char_none c l : c ∉ l -> find_char c l = None.
Proof.
  induction l as [|y l IH]; intros H; cbn; [done|]. rewrite decide_False by set_solver. by rewrite IH by set_solver.
Qed.


Lemma first_line_plain line rest : plain line -> first_line (line ++ CRLF ++ rest) line rest.
Proof.
  intros Hp. split; [done|]. unfold plain in Hp. induction line as [|x line IH].
  - done.
  - assert (Hx : b2z x <> 13). { intros Hx. apply Hp. assert (x = z2b 13) as -> by (apply b2z_inj; rewrite Hx; done). left. }
    change ((x :: line) ++ CRLF ++ rest) with (x :: (line ++ CRLF ++ rest)). specialize (IH ltac:(set_solver)).
    destruct (line ++ CRLF ++ rest) as [|y l] eqn:E; [by destruct line|].
    change (search_crlf (x :: y :: l)) with
      (if (b2z x =? 13) && (b2z y =? 10) then Some O else S <$> search_crlf (y :: l)).
    rewrite IH. by rewrite (proj2 (Z.eqb_neq _ _) Hx).
Qed.

Lemma plain_app a b : plain a -> plain b -> plain (a ++ b).
Proof. unfold plain. set_solver. Qed.

Lemma method_facts r : method_ r <> kInvalid ->
  method_of (methodString r) = method_ r /\ plain (methodString r) /\ SP ∉ methodString r.
Proof.
  unfold methodString, plain. intros Hm. destruct (method_ r); try done; (split; [by vm_compute|]);
    split; apply (bool_decide_unpack _); by vm_compute.
Qed.

Lemma version_facts v : v <> kUnknown -> plain (version_string v) /\
  forall target r, SP ∉ target -> parse_target (target ++ SP :: version_string v) r =
    (true, match find_char QUESTION target with
           | Some (path, query) => r <| path_ := path |> <| query_ := query |>
           | None => r <| path_ := target |>
           end <| version_ := v |>).
Proof.
  intros Hv. split.
  - unfold plain. destruct v; try done; apply (bool_decide_unpack _); by vm_compute.
  - intros target r Ht. unfold parse_target. rewrite (find_char_app _ _ _ Ht). by destruct v.
Qed.

(** The request line. *)
Lemma request_line r t : request_ok r ->
  let line := methodString r ++ [SP] ++ path_ r ++ query_ r ++ [SP] ++ version_string (version_ r) in
  plain line /\ http_line t new_HttpContext line =
    Ok (true, mk_HttpContext kExpectHeaders (r <| receiveTime_ := t |> <| headers_ := ∅ |>)).
Proof.
  intros [Hm Hv (Hp1 & Hp2 & Hp3) (Hq1 & Hq2 & Hq3)]. cbv zeta.
  destruct (method_facts r Hm) as (Hmo & Hmp & Hms). destruct (version_facts _ Hv) as [Hvp Hpt].
  assert (Hsp : plain [SP]) by (unfold plain; apply (bool_decide_unpack _); by vm_compute).
  split; [by repeat apply plain_app|].
  unfold http_line, processRequestLine. cbn [parse_state new_HttpContext request_].
  change ([SP] ++ ?x) with (SP :: x). rewrite (find_char_app _ _ _ Hms), setMethod_ok by done. rewrite Hmo.
  rewrite bool_decide_false by done. cbn [negb bind drop].
  rewrite (assoc_L (++) (path_ r)). rewrite drop_0, Hpt by set_solver. cbn [bind].
  do 3 f_equal. destruct r as [m v p q rt h]. cbn in *. destruct Hq3 as [->|[q' ->]].
  - rewrite app_nil_r, (find_char_none _ _ Hp3). done.
  - rewrite (find_char_app _ _ _ Hp3). done.
Qed.

(** A header line. *)
Lemma header_line h t r : header_ok h ->
  plain (h.1 ++ str ": " ++ h.2) /\ http_line t (mk_HttpContext kExpectHeaders r) (h.1 ++ str ": " ++ h.2) =
    Ok (true, mk_HttpContext kExpectHeaders (r <| headers_ := <[h.1 := h.2]> (headers_ r) |>)).
Proof.
  intros [[Hf Hfc] (Hv & Hvs & Hvt)]. split.
  - repeat apply plain_app; try done. unfold plain. apply (bool_decide_unpack _). by vm_compute.
  - unfold http_line. cbn [parse_state request_].
    change (str ": " ++ h.2) with (COLON :: SP :: h.2). rewrite (find_char_app _ _ _ Hfc).
    unfold addHeader. cbn [drop]. change (skip_spaces (SP :: h.2)) with (skip_spaces h.2). by rewrite Hvs, Hvt.
Qed.

Lemma headers_read t hs r rest : Forall header_ok hs ->
  reads t (mk_HttpContext kExpectHeaders r) (concat (map print_header hs) ++ CRLF ++ rest) true
    (mk_HttpContext kGotAll (r <| headers_ := foldl (fun m h => <[h.1 := h.2]> m) (headers_ r) hs |>)) rest.
Proof.
  intros Hhs. revert r. induction Hhs as [|h hs Hh Hhs IH]; intros r; cbn [map concat foldl].
  - replace (r <| headers_ := headers_ r |>) with r by by destruct r.
    apply (reads_done _ _ _ [] rest); [by left | by apply first_line_plain, not_elem_of_nil | done | done].
  - destruct (header_line h t r Hh) as [Hp Hl].
    apply (reads_line _ _ _ (h.1 ++ str ": " ++ h.2) (concat (map print_header hs) ++ CRLF ++ rest)
      (mk_HttpContext kExpectHeaders (r <| headers_ := <[h.1 := h.2]> (headers_ r) |>))); [by left | | done | done |
      exact (IH (r <| headers_ := <[h.1 := h.2]> (headers_ r) |>))].
    unfold print_header at 1. rewrite <-!(assoc_L (++)).
    rewrite (assoc_L (++) (str ": ")), (assoc_L (++) h.1). by apply first_line_plain.
Qed.

(** A printed request is parsed back.  On a buffer with the text of a request
    and its headers the parser, from a fresh context, recognises the complete
    request with the same method, version, path, query and headers, stamps it
    with the time, and leaves what follows in the buffer. *)
Theorem http_request_roundtrip r hs t rest buf :
  request_ok r -> Forall header_ok hs -> headers_ r = foldl (fun m h => <[h.1 := h.2]> m) ∅ hs ->
  holds buf (print_request r hs ++ rest) -> exists buf',
    parseRequest (S (length (print_request r hs ++ rest))) new_HttpContext buf t =
      Ok (Some (true, mk_HttpContext kGotAll (r <| receiveTime_ := t |>), buf')) /\ holds buf' rest.
Proof.
  intros Hr Hhs Hmap Hb. assert (Hc : ctx_ok new_HttpContext) by by right.
  destruct (parseRequest_reads _ _ _ _ t Hb Hc (Nat.lt_succ_diag_r _)) as (ok & c' & b' & rest' & Hp & Hb' & Hreads).
  destruct (request_line r t Hr) as [Hpl Hline].
  assert (H : reads t new_HttpContext (print_request r hs ++ rest) true
    (mk_HttpContext kGotAll (r <| receiveTime_ := t |>)) rest).
  { eapply (reads_line _ _ _ _ (concat (map print_header hs) ++ CRLF ++ rest) _); [done | | exact Hline | done |].
    - unfold print_request. rewrite <-!(assoc_L (++)).
      repeat rewrite (assoc_L (++) _ _ (CRLF ++ concat _ ++ CRLF ++ rest)). by apply first_line_plain.
    - pose proof (headers_read t hs (r <| receiveTime_ := t |> <| headers_ := ∅ |>) rest Hhs) as H. cbn [headers_ upd] in H.
      change (headers_ (r <| receiveTime_ := t |> <| headers_ := ∅ |>)) with (∅ : gmap bytes bytes) in H.
      rewrite <-Hmap in H. destruct r; exact H. }
  destruct (reads_det _ _ _ _ _ _ Hreads _ _ _ H) as (-> & -> & ->). by exists b'.
Qed.

(** ** Responses *)

Lemma append_all_holds l b q : holds b q -> Forall (fun p => Z.of_nat (length p) <= VECTOR_MAX) l ->
  (exists b', append_all l b = Ok b' /\ holds b' (q ++ concat l)) \/ append_all l b = Crash LengthError.
Proof.
  intros Hb Hl. revert b q Hb. induction Hl as [|p l Hp Hl IH]; intros b q Hb; cbn.
  - left. exists b. by rewrite app_nil_r.
  - pose proof (append_holds b q p Hb Hp) as Ha. destruct (append b p) as [b'|c]; cbn; [|right; by rewrite Ha].
    rewrite (assoc_L (++)). by apply IH.
Qed.

(** ** Examples *)

Definition buffer_of (q : bytes) : Buffer := {|
  buffer_ := replicate 8 (z2b 0) ++ q; readerIndex_ := 8; writerIndex_ := 8 + Z.of_nat (length q) |}.

Lemma buffer_of_holds q : Z.of_nat (length q) <= 1000000 -> holds (buffer_of q) q.
Proof.
  intros Hl. apply (layout_holds _ (replicate 8 (z2b 0)) q []). constructor; cbn; rewrite ?app_nil_r; try done; try lia.
  unfold kCheapPrepend, VECTOR_MAX. lia.
Qed.

Definition demo_headers : list (bytes * bytes) := [(str "Host", str "example.org")].
Definition demo_request : HttpRequest := {|
  method_ := kGet; version_ := kHttp11; path_ := str "/index"; query_ := str "?a=b"; receiveTime_ := 0;
  headers_ := foldl (fun m h => <[h.1 := h.2]> m) ∅ demo_headers |}.
Definition demo_text : bytes := print_request demo_request demo_headers.

Lemma demo_request_ok : request_ok demo_request /\ Forall header_ok demo_headers.
Proof.
  split.
  - constructor; try done; (split_and!; [..|try (right; by eexists)]); unfold plain; apply (bool_decide_unpack _); by vm_compute.
  - repeat constructor; unfold plain; try done; apply (bool_decide_unpack _); by vm_compute.
Qed.

Lemma http_request_roundtrip_witness : exists buf',
  parseRequest (S (length (demo_text ++ str "POST"))) new_HttpContext (buffer_of (demo_text ++ str "POST")) 77 =
    Ok (Some (true, mk_HttpContext kGotAll (demo_request <| receiveTime_ := 77 |>), buf')) /\ holds buf' (str "POST").
Proof.
  apply (http_request_roundtrip demo_request demo_headers 77 (str "POST")); [apply demo_request_ok.. | |].
  - reflexivity.
  - apply buffer_of_holds. vm_compute. discriminate.
Defined.

(** The first piece ends in the middle of the header. *)
Lemma http_parse_pieces_witness :
  (exists ok1 c1 buf1 r1 ok c' buf2 rest,
    parseRequest (S (length (take 30 demo_text))) new_HttpContext (buffer_of (take 30 demo_text)) 77 =
      Ok (Some (ok1, c1, buf1)) /\ holds buf1 r1 /\
    parseRequest (S (length (take 30 demo_text ++ drop 30 demo_text))) new_HttpContext
      (buffer_of (take 30 demo_text ++ drop 30 demo_text)) 77 = Ok (Some (ok, c', buf2)) /\ holds buf2 rest) /\
  match parseRequest 31 new_HttpContext (buffer_of (take 30 demo_text)) 77 with
  | Ok (Some (ok, c, buf)) => ok && negb (gotAll c) && bool_decide (contents buf = str "Host:")
  | _ => false
  end = true.
Proof.
  split; [|vm_compute; reflexivity].
  assert (Ha : holds (buffer_of (take 30 demo_text)) (take 30 demo_text)).
  { apply buffer_of_holds. vm_compute. discriminate. }
  assert (Hab : holds (buffer_of (take 30 demo_text ++ drop 30 demo_text)) (take 30 demo_text ++ drop 30 demo_text)).
  { apply buffer_of_holds. vm_compute. discriminate. }
  destruct (http_parse_pieces new_HttpContext (take 30 demo_text) (drop 30 demo_text) 77 _ _ ltac:(by right) Ha Hab)
    as (ok1 & c1 & buf1 & r1 & ok & c' & buf2 & rest & H1 & Hb1 & H2 & Hb2 & _).
  exists ok1, c1, buf1, r1, ok, c', buf2, rest. exact (conj H1 (conj Hb1 (conj H2 Hb2))).
Defined.

(** ** What a client can do *)

(** After a request line with a known method and a wrong version, the context
    keeps the method; the next input makes the parser read the line again, and
    the assertion of [setMethod] fails. *)
Lemma refused_then_abort :
  match http_onMessage defaultHttpCallback 50 (buffer_of (str "GET / HTTP/2.0" ++ CRLF)) 1 new_HttpContext with
  | Ok (Some _, c, es) =>
      (es, match http_onMessage defaultHttpCallback 50 (buffer_of (str "GET / HTTP/2.0" ++ CRLF ++ str "x")) 2 c with
           | Ok _ => None | Crash e => Some e end)
  | _ => ([], None)
  end = ([HttpSend (str "HTTP/1.1 400 Bad Request" ++ CRLF ++ CRLF); HttpShutdown], Some AssertFailed).
Proof. by vm_compute. Qed.

(** Of two requests that arrive together only the first is answered; the other
    stays in the buffer until more input arrives. *)
Lemma pipelined_request_waits :
  let cb := fun _ resp => resp <| statusCode_ := 200 |> <| statusMessage_ := str "OK" |> in
  match http_onMessage cb 500 (buffer_of (demo_text ++ demo_text)) 1 new_HttpContext with
  | Ok (Some buf, c, es) => (length es, contents buf, c)
  | _ => (O, [], new_HttpContext)
  end = (1%nat, demo_text, new_HttpContext).
Proof. by vm_compute. Qed.
