(* ===== verification/ControlSession.v ===== *)
(** * The control session

    [kcp/ControlSession.h] and [kcp/ControlSession.cpp]: the KCP conversation
    number 0, over which the two programs create and destroy sessions. *)

From S2P Require Import Prelude Endian KcpBase KcpWire KcpSend KcpRecv KcpInput KcpInv KcpFlush.
From S2P Require Import KcpEndpoint.

Open Scope outcome_scope.

(** ** The code *)

Definition CMD_CREATE_SESSION : Z := 1.
Definition CMD_DESTROY_SESSION : Z := 2.
Definition RSP_CREATE_SESSION : Z := 3.

Record ControlSession := { kcp_ : ikcpcb; recvBuffer_ : bytes }.

(** [size_t getMsgLength(uint8_t cmd)]. *)
Definition getMsgLength (cmd : Z) : Z :=
  if cmd =? CMD_CREATE_SESSION then 1
  else if cmd =? CMD_DESTROY_SESSION then 5
  else if cmd =? RSP_CREATE_SESSION then 5
  else 0.

(** The constructor; [cb] is not null. *)
Definition new_ControlSession : ControlSession :=
  let kcp := ikcp_create 0 in
  let kcp := ikcp_setoutput kcp in
  let kcp := (ikcp_nodelay kcp 1 10 1 1).2 in
  {| kcp_ := kcp; recvBuffer_ := [] |}.

(** The destructor: the segments freed; nothing is flushed. *)
Definition delete_ControlSession (c : ControlSession) : list IKCPSEG := (ikcp_release (kcp_ c)).1.

(** A failed [ikcp_send] is only logged. *)
Definition sendMsg (c : ControlSession) (cmd : bytes) (len : Z) : outcome ControlSession :=
  let* (ret, kcp) := ikcp_send (kcp_ c) cmd (s32 len) in
  Ok {| kcp_ := kcp; recvBuffer_ := recvBuffer_ c |}.

(** [std::string::resize]: [max_size()] of a 64-bit [std::string]. *)
Definition STRING_MAX : Z := 9223372036854775807.

Definition string_resize (s : bytes) (n : Z) : outcome bytes :=
  if n >? STRING_MAX then Crash LengthError
  else Ok (take (Z.to_nat n) s ++ replicate (Z.to_nat n - length s) (z2b 0)).

(** A callee writes [out] at the start of the string's storage. *)
Definition overwrite (s out : bytes) : outcome bytes :=
  if (length s <? length out)%nat then Crash OutOfBounds else Ok (out ++ drop (length out) s).

(** One pass through the body of the parsing loop: [None] when it breaks.
    [recvBuffer_[0]] of an empty string is its terminating zero. *)
Definition parse_body (recvBuffer : bytes) (aryMsg : list bytes)
    : outcome (option (bytes * list bytes)) :=
  let cmd := byte_at recvBuffer 0 in
  let cmdLength := getMsgLength cmd in
  let* _ := assert_ (cmdLength >? 0) in
  if Z.of_nat (length recvBuffer) <? cmdLength then Ok None
  else Ok (Some (drop (Z.to_nat cmdLength) recvBuffer,
                 aryMsg ++ [take (Z.to_nat cmdLength) recvBuffer])).

(** [while (cond(recvBuffer_)) ...]; a pass removes at least one byte, so fuel
    beyond the length of the buffer is not used up. *)
Fixpoint parse_loop (cond : bytes -> bool) (fuel : nat) (recvBuffer : bytes) (aryMsg : list bytes)
    : outcome (bytes * list bytes) :=
  match fuel with
  | O => Ok (recvBuffer, aryMsg)
  | S fuel =>
      if cond recvBuffer then
        let* next := parse_body recvBuffer aryMsg in
        match next with
        | Some (recvBuffer, aryMsg) => parse_loop cond fuel recvBuffer aryMsg
        | None => Ok (recvBuffer, aryMsg)
        end
      else Ok (recvBuffer, aryMsg)
  end.

(** [recvBuffer_.empty()], the condition the loop is written with. *)
Definition is_empty (s : bytes) : bool := match s with [] => true | _ => false end.

(** [parseMsg packet packetlen aryMsg]: the return value, [aryMsg] afterwards and
    the session. *)
Definition parseMsg (c : ControlSession) (packet : bytes) (aryMsg : list bytes)
    : outcome (Z * list bytes * ControlSession) :=
  let '(inputRet, kcp) := ikcp_input (kcp_ c) packet in
  if inputRet <? 0 then Ok (-1, aryMsg, {| kcp_ := kcp; recvBuffer_ := recvBuffer_ c |}) else
  let len := ikcp_peeksize kcp in
  if len =? 0 then Ok (0, aryMsg, {| kcp_ := kcp; recvBuffer_ := recvBuffer_ c |}) else
  let* payload := string_resize [] (u64 len) in
  let* (ret, out, kcp) := ikcp_recv kcp true len in
  let* payload := overwrite payload out in
  let* _ := assert_ (ret >=? 0) in
  let* payload := string_resize payload ret in
  let recvBuffer := recvBuffer_ c ++ payload in
  let aryMsg := [] in
  let* (recvBuffer, aryMsg) := parse_loop is_empty (S (length recvBuffer)) recvBuffer aryMsg in
  Ok (1, aryMsg, {| kcp_ := kcp; recvBuffer_ := recvBuffer |}).

(** ** The parsing loop *)

Lemma getMsgLength_range cmd : 0 <= getMsgLength cmd <= 5.
Proof. unfold getMsgLength. repeat bcase; lia. Qed.

(** The commands of the control protocol, as their senders write them. *)
Inductive command :=
  | CreateSession
  | DestroySession (id : Z)
  | SessionCreated (id : Z).

Definition encode_command (c : command) : bytes :=
  match c with
  | CreateSession => [z2b CMD_CREATE_SESSION]
  | DestroySession id => z2b CMD_DESTROY_SESSION :: le_bytes 4 (hostToNetwork32 id)
  | SessionCreated id => z2b RSP_CREATE_SESSION :: le_bytes 4 (hostToNetwork32 id)
  end.

Lemma encode_command_length c :
  Z.of_nat (length (encode_command c)) = getMsgLength (byte_at (encode_command c) 0).
Proof. destruct c; reflexivity. Qed.

Lemma encode_command_cons c : exists b l, encode_command c = b :: l /\
  Z.of_nat (S (length l)) = getMsgLength (b2z b) /\ 0 < getMsgLength (b2z b).
Proof. destruct c; eexists _, _; split_and!; reflexivity. Qed.

Lemma parse_body_command c rest ary :
  parse_body (encode_command c ++ rest) ary = Ok (Some (rest, ary ++ [encode_command c])).
Proof.
  destruct (encode_command_cons c) as (b & l & -> & Hl & Hpos). unfold parse_body.
  change (byte_at ((b :: l) ++ rest) 0) with (b2z b). rewrite <- Hl in *.
  unfold assert_. bcase; [|lia]. cbn [bind]. rewrite length_app. simpl length. bcase; [lia|].
  rewrite Nat2Z.id. change (S (length l)) with (length (b :: l)).
  by rewrite drop_app_length, take_app_length.
Qed.

(** With the condition negated the loop cuts the buffer into the commands it
    consists of, and keeps an incomplete one for the next packet. *)
Lemma parse_loop_fixed cmds c n fuel ary :
  (n < length (encode_command c))%nat -> (length cmds < fuel)%nat ->
  parse_loop (fun s => negb (is_empty s)) fuel
    (concat (map encode_command cmds) ++ take n (encode_command c)) ary =
  Ok (take n (encode_command c), ary ++ map encode_command cmds).
Proof.
  intros Hn. revert fuel ary. induction cmds as [|d cmds IH]; intros fuel ary Hf;
    (destruct fuel as [|fuel]; [simpl in Hf; lia|]); cbn [parse_loop map concat].
  - rewrite app_nil_l, app_nil_r.
    destruct (encode_command_cons c) as (b & l & Hc & Hl & Hpos). rewrite Hc in *.
    destruct n as [|n]; [done|]. simpl (negb _). cbv iota. unfold parse_body.
    change (byte_at (take (S n) (b :: l)) 0) with (b2z b).
    unfold assert_. bcase; [|lia]. cbn [bind]. rewrite length_take.
    simpl length in *. bcase; [done | lia].
  - rewrite <- app_assoc.
    destruct (encode_command_cons d) as (b & l & Hd & _).
    assert (negb (is_empty (encode_command d ++ concat (map encode_command cmds) ++ take n (encode_command c))) = true)
      as -> by (by rewrite Hd).
    rewrite parse_body_command. cbn [bind]. rewrite IH by (simpl in Hf; lia).
    by rewrite <- app_assoc.
Qed.

(** ** The session *)

Record control_wf (c : ControlSession) : Prop := {
  cw_endpoint : endpoint 0 (kcp_ c);
  cw_silent : kcp_updated (kcp_ c) = 0
}.

Lemma control_wf_new : control_wf new_ControlSession.
Proof. constructor; [|done]. apply (endpoint_create 0). unfold is_u32. lia. Qed.

Lemma sendMsg_ok c cmd :
  control_wf c -> Z.of_nat (length cmd) <= MESSAGE_MAX ->
  exists c', sendMsg c cmd (Z.of_nat (length cmd)) = Ok c' /\ control_wf c' /\
    recvBuffer_ c' = recvBuffer_ c /\ kcp_ackcount (kcp_ c') = kcp_ackcount (kcp_ c) /\
    kcp_snd_queue (kcp_ c') = kcp_snd_queue (kcp_ c) ++ send_segments (kcp_ c) cmd.
Proof.
  intros [Hep Hu] Hl. unfold sendMsg. unfold MESSAGE_MAX in *.
  rewrite s32_small by (unfold is_s32; lia).
  destruct (endpoint_send 0 (kcp_ c) cmd Hep ltac:(lia)) as (ret & k' & Heq & Hep' & Hac & Hu' & Hcase & Hret).
  rewrite Heq. cbn [bind]. eexists. split; [done|]. split_and!; try done.
  - constructor; simpl; [done | congruence].
  - specialize (Hret Hl). by destruct Hcase as [[_ ?]|[? _]]; [|lia].
Qed.

(** What one datagram does to the control session. *)
Lemma parseMsg_cases c packet ary :
  control_wf c -> Z.of_nat (length packet) <= DATAGRAM_MAX ->
  kcp_ackcount (kcp_ c) + DATAGRAM_MAX < 2147483648 ->
  let '(ret, k) := ikcp_input (kcp_ c) packet in
  let c1 := {| kcp_ := k; recvBuffer_ := recvBuffer_ c |} in
  (ret < 0 /\ control_wf c1 /\ parseMsg c packet ary = Ok (-1, ary, c1)) \/
  (0 <= ret /\ ikcp_peeksize k = 0 /\ control_wf c1 /\ parseMsg c packet ary = Ok (0, ary, c1)) \/
  (0 <= ret /\ ikcp_peeksize k < 0 /\ parseMsg c packet ary = Crash LengthError) \/
  (0 <= ret /\ 0 < ikcp_peeksize k /\ exists c2 msg, parseMsg c packet ary = Ok (1, [], c2) /\
     control_wf c2 /\ recvBuffer_ c2 = recvBuffer_ c ++ msg /\
     Z.of_nat (length msg) = ikcp_peeksize k).
Proof.
  intros [Hep Hu] Hl Hc. destruct (endpoint_input 0 (kcp_ c) packet Hep Hl Hc) as (Hep1 & _ & Hu1).
  unfold parseMsg. destruct (ikcp_input (kcp_ c) packet) as [ret k]. simpl in Hep1, Hu1.
  assert (Hw1 : control_wf {| kcp_ := k; recvBuffer_ := recvBuffer_ c |})
    by (constructor; simpl; [done | congruence]).
  bcase; [by left|]. bcase; [right; left; by split_and!|].
  destruct (decide (ikcp_peeksize k < 0)) as [Hneg|Hpos]; [right; right; left | right; right; right].
  - split_and!; [lia | lia |]. unfold string_resize, STRING_MAX.
    pose proof (peeksize_range k).
    by assert (u64 (ikcp_peeksize k) >? 9223372036854775807 = true) as -> by word.
  - split_and!; [lia | lia |]. pose proof (peeksize_range k).
    destruct (endpoint_recv 0 k Hep1 ltac:(lia)) as (out & k2 & Heq & Hlen & Hep2 & _ & Hu2).
    assert (Hres : forall s n, is_s32 n -> string_resize s n =
      Ok (take (Z.to_nat n) s ++ replicate (Z.to_nat n - length s) (z2b 0))).
    { intros s n Hn. unfold string_resize, STRING_MAX. bcase; [unfold is_s32 in Hn; lia | done]. }
    assert (u64 (ikcp_peeksize k) = ikcp_peeksize k) as -> by word.
    rewrite Hres by done. cbn [bind]. rewrite Heq. cbn [bind].
    rewrite <- Hlen. rewrite Nat2Z.id, take_nil, Nat.sub_0_r, app_nil_l.
    unfold overwrite. rewrite length_replicate. rewrite (proj2 (Nat.ltb_ge _ _)) by lia. cbn [bind].
    rewrite drop_replicate, Nat.sub_diag, app_nil_r. unfold assert_. bcase; [|lia]. cbn [bind].
    rewrite Hres by (by rewrite Hlen). rewrite Nat2Z.id, Nat.sub_diag, app_nil_r, take_ge by lia. cbn [bind].
    assert (Hne : is_empty (recvBuffer_ c ++ out) = false).
    { destruct (recvBuffer_ c); [|done]. destruct out; [simpl in Hlen; lia | done]. }
    cbn [parse_loop]. rewrite Hne. cbn [bind]. eexists _, out. split_and!; try done.
    constructor; simpl; [done | congruence].
Qed.

(** ** Properties *)

(** The parsing loop of [parseMsg] has its condition the wrong way round.  As
    written it never takes a command out of a buffer that holds any, and on an
    empty buffer its assertion fails; with the condition negated it would cut the
    buffer into exactly the commands that were sent and keep an incomplete one
    for the next packet. *)
Theorem parse_loop_condition buf fuel :
  (buf <> [] -> forall ary, parse_loop is_empty fuel buf ary = Ok (buf, ary)) /\
  (forall ary, parse_loop is_empty (S fuel) [] ary = Crash AssertFailed) /\
  (forall cmds c n, buf = concat (map encode_command cmds) ++ take n (encode_command c) ->
     (n < length (encode_command c))%nat ->
     parse_loop (fun s => negb (is_empty s)) (S (length buf)) buf [] =
       Ok (take n (encode_command c), map encode_command cmds)).
Proof.
  split_and!; [|done|].
  - intros Hne ary. destruct fuel; [done|]. by destruct buf.
  - intros cmds c n -> Hn. rewrite parse_loop_fixed; [done | done |].
    rewrite length_app. clear. induction cmds as [|d cmds IH]; [simpl; lia|].
    cbn [map concat]. rewrite length_app. destruct (encode_command_cons d) as (b & l & -> & _).
    simpl in *. lia.
Qed.

Lemma parse_loop_condition_witness :
  let buf := encode_command CreateSession ++ encode_command (DestroySession 9) ++ [z2b 3; z2b 0] in
  buf <> [] /\
  (forall ary, parse_loop is_empty 40 buf ary = Ok (buf, ary)) /\
  parse_loop (fun s => negb (is_empty s)) (S (length buf)) buf [] =
    Ok ([z2b 3; z2b 0], [encode_command CreateSession; encode_command (DestroySession 9)]).
Proof.
  intros buf. destruct (parse_loop_condition buf 40) as (H1 & _ & H2).
  assert (Hne : buf <> []) by done. split; [done|]. split; [exact (H1 Hne)|].
  exact (H2 [CreateSession; DestroySession 9] (SessionCreated 0) 2%nat eq_refl ltac:(simpl; lia)).
Defined.

(** Whatever datagram arrives, [parseMsg] never yields a control message: it
    returns -1 or 0 without one, or 1 with an empty list while the bytes it
    received pile up in [recvBuffer_]; the one other outcome is the end of the
    process, by [payload.resize((size_t)-1)]. *)
Theorem control_messages_lost c packet :
  control_wf c -> Z.of_nat (length packet) <= DATAGRAM_MAX ->
  kcp_ackcount (kcp_ c) + DATAGRAM_MAX < 2147483648 ->
  match parseMsg c packet [] with
  | Ok (ret, aryMsg, c') =>
      aryMsg = [] /\ (ret = -1 \/ ret = 0 \/ ret = 1) /\ control_wf c' /\
      recvBuffer_ c `prefix_of` recvBuffer_ c'
  | Crash e => e = LengthError
  end.
Proof.
  intros Hw Hl Hc. pose proof (parseMsg_cases c packet [] Hw Hl Hc) as H.
  destruct (ikcp_input (kcp_ c) packet) as [ret k].
  destruct H as [(_ & ? & ->)|[(_ & _ & ? & ->)|[(_ & _ & ->)|(_ & _ & c2 & msg & -> & ? & Hb & _)]]];
    try done; split_and!; auto.
  rewrite Hb. by eexists.
Qed.

Lemma control_messages_lost_witness :
  let push := ikcp_segment_new <| seg_cmd := IKCP_CMD_PUSH |> <| seg_len := 5 |>
                <| seg_data := encode_command (SessionCreated 77) |> in
  let packet := wire push in
  (control_wf new_ControlSession /\ Z.of_nat (length packet) <= DATAGRAM_MAX) /\
  match parseMsg new_ControlSession packet [] with
  | Ok (ret, aryMsg, c') =>
      aryMsg = [] /\ (ret = -1 \/ ret = 0 \/ ret = 1) /\ control_wf c' /\
      recvBuffer_ new_ControlSession `prefix_of` recvBuffer_ c'
  | Crash e => e = LengthError
  end.
Proof.
  intros push packet. assert (Hl : Z.of_nat (length packet) <= DATAGRAM_MAX) by (vm_compute; done).
  split; [split; [exact control_wf_new | exact Hl]|].
  exact (control_messages_lost new_ControlSession packet control_wf_new Hl ltac:(vm_compute; done)).
Defined.

Lemma input_no_push conv k s :
  kcp_conv k = conv -> wire_ok conv s -> seg_cmd s <> IKCP_CMD_PUSH -> seg_data s = [] ->
  kcp_rcv_buf k = [] -> kcp_rcv_queue k = [] ->
  (ikcp_input k (wire s)).1 = 0 /\ ikcp_peeksize (ikcp_input k (wire s)).2 = -1.
Proof.
  intros Hconv Hok Hcmd Hd Hb Hq. unfold ikcp_input. rewrite length_wire, Hd.
  change (s32 (Z.of_nat (24 + length (@nil byte))) <? s32 IKCP_OVERHEAD) with false. cbv iota.
  assert (E : wire s = concat (map wire [s])) by (simpl; by rewrite app_nil_r).
  rewrite E at 1 2. rewrite (input_loop_wire conv); [ | by constructor | done | ].
  2:{ rewrite <- E, length_wire. rewrite Hd. simpl. lia. }
  unfold input_segments. cbn [foldl].
  pose proof (input_segment_all (fun _ => False) k (header_of s) (seg_data s) false 0) as Hall.
  destruct (input_segment k (header_of s) (seg_data s) false 0) as [[k1 flag] maxack].
  assert (rcv_all (fun _ => False) k1) as [_ Hq1].
  { apply Hall; [|split; rewrite ?Hb, ?Hq; constructor]. intros Hc. apply Hcmd.
    simpl in Hc. rewrite u8_small in Hc; [done|].
    destruct Hok as [_ _ Hk _ _ _]. unfold known_cmd in Hk. kcp_consts. unfold is_u8.
    reflect_bools. intuition (reflect_bools; lia). }
  split; [done|]. simpl. unfold ikcp_peeksize.
  assert (kcp_rcv_queue (input_finish k1 (kcp_snd_una k) flag maxack) = kcp_rcv_queue k1) as ->.
  { pose proof (input_finish_rcv k1 (kcp_snd_una k) flag maxack) as Hr. by injection Hr. }
  by inversion Hq1.
Qed.

(** A bare acknowledgement or window probe for conversation 0 - 24 bytes any
    peer sends as a matter of course - ends the process while the control session
    holds no data: nothing is ready, [ikcp_peeksize] returns -1, only 0 is checked
    for, and resizing a string to [(size_t)-1] throws. *)
Theorem bare_segment_ends_process c s ary :
  control_wf c -> kcp_rcv_buf (kcp_ c) = [] -> kcp_rcv_queue (kcp_ c) = [] ->
  kcp_ackcount (kcp_ c) + DATAGRAM_MAX < 2147483648 ->
  wire_ok 0 s -> seg_cmd s <> IKCP_CMD_PUSH -> seg_data s = [] ->
  length (wire s) = 24%nat /\ parseMsg c (wire s) ary = Crash LengthError.
Proof.
  intros Hw Hb Hq Hc Hok Hcmd Hd.
  assert (Hl : length (wire s) = 24%nat) by (rewrite length_wire, Hd; simpl; lia). split; [done|].
  destruct (input_no_push 0 (kcp_ c) s (endpoint_conv (cw_endpoint _ Hw)) Hok Hcmd Hd Hb Hq) as [Hr Hp].
  pose proof (parseMsg_cases c (wire s) ary Hw ltac:(rewrite Hl; unfold DATAGRAM_MAX; lia) Hc) as H.
  destruct (ikcp_input (kcp_ c) (wire s)) as [ret k]. simpl in Hr, Hp. rewrite Hr, Hp in H.
  destruct H as [(H & _)|[(_ & H & _)|[(_ & _ & H)|(_ & H & _)]]]; [lia | lia | exact H | lia].
Qed.

Lemma bare_segment_ends_process_witness :
  let ack := ikcp_segment_new <| seg_cmd := IKCP_CMD_ACK |> <| seg_wnd := 128 |> in
  wire_ok 0 ack /\
  length (wire ack) = 24%nat /\ parseMsg new_ControlSession (wire ack) [] = Crash LengthError.
Proof.
  intros ack.
  assert (Hok : wire_ok 0 ack).
  { constructor; try done; unfold is_u32, is_u8; simpl; lia. }
  split; [exact Hok|].
  exact (bare_segment_ends_process new_ControlSession ack [] control_wf_new eq_refl eq_refl
    ltac:(vm_compute; done) Hok ltac:(done) eq_refl).
Defined.
