(* ===== verification/KcpDataSession.v ===== *)
(** * The proxy's sessions

    [KcpProxy/KcpTunnel.cpp] and [KcpProxy/KcpDataSession.cpp]: the UDP socket
    towards the server and the session that belongs to one TCP connection of a
    client.  Log statements are not modelled. *)

From S2P Require Import Prelude Effects KcpBase KcpSend KcpRecv KcpInput KcpInv KcpFlush KcpPeerOps.
From S2P Require Import KcpEndpoint ControlSession.

Open Scope outcome_scope.
Open Scope handler_scope.

(** ** Observable actions of the proxy *)

Inductive action :=
  | UdpSend (buf : bytes)                 (* send(g_udpSock, buf, ...) *)
  | TcpSend (conn : nat) (data : bytes)   (* connPtr->send(data) *)
  | TcpForceClose (conn : nat).           (* connPtr->forceClose() *)

(** ** KcpTunnel *)

(** [KcpTunnel::init]: [sock] is what [socket] returned, [ret] what [connect]
    returned.  [assert(g_udpSock)] tests for 0, so a failed [socket] call is
    caught only by the [connect] that follows. *)
Definition tunnel_init (sock ret : Z) : outcome Z :=
  let* _ := assert_ (negb (sock =? 0)) in
  let* _ := assert_ (ret =? 0) in
  Ok sock.

Section tunnel.
(** [KcpTunnel::g_udpSock] *)
Variable g_udpSock : Z.

(** [KcpTunnel::output], given to KCP as its output callback; the call is retried
    while the socket buffer is full and its result is not looked at. *)
Definition tunnel_output {S : Type} (buf : bytes) : M S action unit :=
  do _ <- massert (g_udpSock >=? 0);
  do _ <- massert (Z.of_nat (length buf) >? 0);
  emit (UdpSend buf).

(** ** KcpDataSession *)

(** [conn_] is the number of the connection the weak pointer was made from. *)
Record KcpDataSession := {
  ds_kcp : option ikcpcb; id_ : Z; ds_conn : nat; payloadList_ : list bytes
}.

Definition eta_KcpDataSession (r : KcpDataSession) : KcpDataSession := {|
  ds_kcp := ds_kcp r; id_ := id_ r; ds_conn := ds_conn r; payloadList_ := payloadList_ r
|}.

#[export] Instance set_ds_kcp : Setter ds_kcp := ltac:(build_setter eta_KcpDataSession ds_kcp).
#[export] Instance set_id_ : Setter id_ := ltac:(build_setter eta_KcpDataSession id_).
#[export] Instance set_payloadList_ : Setter payloadList_ := ltac:(build_setter eta_KcpDataSession payloadList_).

(** [CLOCK_MONOTONIC] in milliseconds. *)
Definition iclock (tv_sec tv_nsec : Z) : Z := u32 (tv_sec * 1000 + tv_nsec / 1000000).

Definition new_KcpDataSession (ref : nat) : KcpDataSession :=
  {| ds_kcp := None; id_ := 0; ds_conn := ref; payloadList_ := [] |}.

Abbreviation session_op := (M KcpDataSession action).

(** A library call on [kcp_]; every one dereferences it. *)
Definition kcp_call {A} (f : ikcpcb -> outcome (A * ikcpcb)) : session_op A := fun s =>
  match ds_kcp s with
  | None => Crash NullDeref
  | Some k =>
      match f k with
      | Ok (a, k') => Ok (a, s <| ds_kcp := Some k' |>, [])
      | Crash c => Crash c
      end
  end.

(** [ikcp_flush] and [ikcp_update] hand their datagrams to the callback. *)
Definition kcp_output_call (f : ikcpcb -> outcome (ikcpcb * list bytes)) : session_op unit :=
  do out <- kcp_call (fun k => let* (k', out) := f k in Ok (out, k'));
  for_ out tunnel_output.

(** The [while(!payloadList_.empty())] loop of [init]. *)
Fixpoint init_loop (payloads : list bytes) : session_op unit :=
  match payloads with
  | [] => mret tt
  | payload :: rest =>
      do ret <- kcp_call (fun k => ikcp_send k payload (s32 (Z.of_nat (length payload))));
      if negb (ret =? 0) then mret tt else
      do _ <- mmod (fun s => s <| payloadList_ := rest |>);
      init_loop rest
  end.

Definition session_init (id : Z) : session_op unit :=
  do kcp <- mget ds_kcp;
  do _ <- massert (match kcp with None => true | Some _ => false end);
  do _ <- mmod (fun s => s <| id_ := id |>);
  let kcp := ikcp_create id in
  let kcp := ikcp_setoutput kcp in
  let kcp := (ikcp_nodelay kcp 1 10 1 1).2 in
  do _ <- mmod (fun s => s <| ds_kcp := Some kcp |>);
  do payloads <- mget payloadList_;
  init_loop payloads.

Definition session_update (tv_sec tv_nsec : Z) : session_op unit :=
  kcp_output_call (fun k => ikcp_update k (iclock tv_sec tv_nsec)).

Definition sendToTunnel (data : bytes) : session_op unit :=
  do kcp <- mget ds_kcp;
  match kcp with
  | None => mmod (fun s => s <| payloadList_ := payloadList_ s ++ [data] |>)
  | Some _ =>
      do ret <- kcp_call (fun k => ikcp_send k data (s32 (Z.of_nat (length data))));
      mret tt
  end.

(** [alive] tells whether the connection object of a weak pointer still exists. *)
Definition recvFromTunnel (alive : nat -> bool) (input : bytes) : session_op Z :=
  do inputRet <- kcp_call (fun k => Ok (ikcp_input k input));
  if inputRet <? 0 then mret (-1) else
  do len <- kcp_call (fun k => Ok (ikcp_peeksize k, k));
  if len <=? 0 then mret 0 else
  do output <- lift (string_resize [] (u64 len));
  do (ret, out) <- kcp_call (fun k => let* (ret, out, k') := ikcp_recv k true len in Ok ((ret, out), k'));
  do output <- lift (overwrite output out);
  do _ <- massert (ret >=? 0);
  do conn <- mget ds_conn;
  do _ <- massert (alive conn);
  do _ <- emit (TcpSend conn (take (Z.to_nat len) output));
  mret 1.

Definition forceConnClose (alive : nat -> bool) : session_op unit :=
  do conn <- mget ds_conn;
  do _ <- massert (alive conn);
  emit (TcpForceClose conn).

(** The destructor; the control block is released after the flush. *)
Definition delete_KcpDataSession : session_op unit :=
  do kcp <- mget ds_kcp;
  match kcp with
  | None => mret tt
  | Some _ =>
      do _ <- kcp_output_call ikcp_flush;
      mmod (fun s => s <| ds_kcp := None |>)
  end.

(** ** The invariant of a session *)

Record session_wf (s : KcpDataSession) : Prop := {
  sw_uninited : ds_kcp s = None -> id_ s = 0;
  sw_inited : forall k, ds_kcp s = Some k -> is_u32 (id_ s) /\ endpoint (id_ s) k;
  sw_payloads : Forall (fun m => Z.of_nat (length m) <= MESSAGE_MAX) (payloadList_ s)
}.

(** Room for the acknowledgements of one more datagram. *)
Definition ack_room (s : KcpDataSession) : Prop :=
  match ds_kcp s with Some k => kcp_ackcount k + DATAGRAM_MAX < 2147483648 | None => True end.

Lemma wp_kcp_call {A} C (f : ikcpcb -> outcome (A * ikcpcb)) s (Q : A -> KcpDataSession -> list action -> Prop) k a k' :
  ds_kcp s = Some k -> f k = Ok (a, k') -> Q a (s <| ds_kcp := Some k' |>) [] ->
  wp C (kcp_call f) s Q.
Proof. unfold wp, kcp_call. intros -> ->. done. Qed.

Lemma set_kcp_same s k : ds_kcp s = Some k -> s <| ds_kcp := Some k |> = s.
Proof. destruct s. simpl. by intros ->. Qed.

Lemma session_wf_new c : session_wf (new_KcpDataSession c).
Proof. constructor; [done | done | constructor]. Qed.

Lemma session_wf_kcp s k : session_wf s -> ds_kcp s <> None -> endpoint (id_ s) k -> session_wf (s <| ds_kcp := Some k |>).
Proof.
  intros [H1 H2 H3] Hne Hk. constructor; simpl; [done | | done].
  intros ? [= <-]. destruct (ds_kcp s) as [k0|]; [|done]. by destruct (H2 k0 eq_refl).
Qed.

(** The callback gets every datagram, in order. *)
Lemma wp_outputs {S} C out (s : S) :
  0 <= g_udpSock -> Forall (fun d => 0 < Z.of_nat (length d) <= 1400) out ->
  wp C (for_ out tunnel_output) s (fun _ s' es => s' = s /\ es = UdpSend <$> out).
Proof.
  intros Hg. induction 1 as [|d out Hd Hout IH]; [done|]. simpl.
  apply wp_then. unfold tunnel_output at 1. wp_steps.
  apply wp_assert; [apply Z.geb_le; lia|]. wp_steps. apply wp_assert; [apply Z.gtb_lt; lia|].
  wp_steps. eapply wp_mono; [exact IH|]. simpl. by intros _ s' es [-> ->].
Qed.

Lemma wp_kcp_output_call C f s k k' out (Q : unit -> KcpDataSession -> list action -> Prop) :
  0 <= g_udpSock -> ds_kcp s = Some k -> f k = Ok (k', out) ->
  Forall (fun d => 0 < Z.of_nat (length d) <= 1400) out ->
  Q tt (s <| ds_kcp := Some k' |>) (UdpSend <$> out) ->
  wp C (kcp_output_call f) s Q.
Proof.
  intros Hg Hk Hf Hout HQ. unfold kcp_output_call. wp_steps.
  eapply wp_kcp_call; [exact Hk | by rewrite Hf |].
  eapply wp_mono; [by apply wp_outputs|]. intros [] s' es [-> ->]. done.
Qed.

(** What a control block has accepted and not yet put in its window. *)
Definition queued (k : ikcpcb) : list frag := frag_of <$> kcp_snd_queue k.

Lemma endpoint_accepts conv k msg :
  endpoint conv k -> Z.of_nat (length msg) <= MESSAGE_MAX ->
  exists k', ikcp_send k msg (s32 (Z.of_nat (length msg))) = Ok (0, k') /\ endpoint conv k' /\
    kcp_ackcount k' = kcp_ackcount k /\ queued k' = queued k ++ msg_frags 1376 msg.
Proof.
  intros Hep Hl. rewrite s32_small by (unfold is_s32, MESSAGE_MAX in *; lia).
  destruct (endpoint_send conv k msg Hep) as (ret & k' & Heq & Hep' & Hac & _ & Hcase & Hret);
    [unfold MESSAGE_MAX in *; lia|].
  specialize (Hret Hl) as ->. exists k'. split_and!; try done.
  destruct Hcase as [[_ Hq]|[? _]]; [|done]. unfold queued. rewrite Hq, fmap_app. f_equal.
  unfold send_segments. rewrite (endpoint_mss Hep). apply frag_of_seg_of_frag.
Qed.

Lemma wp_init_loop payloads s k :
  session_wf s -> ds_kcp s = Some k -> payloadList_ s = payloads ->
  wp safe (init_loop payloads) s (fun _ s' es =>
    es = [] /\ session_wf s' /\ id_ s' = id_ s /\ ds_conn s' = ds_conn s /\ payloadList_ s' = [] /\
    exists k', ds_kcp s' = Some k' /\ kcp_ackcount k' = kcp_ackcount k /\
      queued k' = queued k ++ stream 1376 payloads).
Proof.
  revert s k. induction payloads as [|m payloads IH]; intros s k Hs Hk Hp; cbn [init_loop].
  - apply wp_ret. split_and!; try done. exists k. by rewrite app_nil_r.
  - pose proof Hs as [_ Hi Hpl]. destruct (Hi k Hk) as [Hid Hep]. rewrite Hp in Hpl.
    inversion_clear Hpl as [|? ? Hm Hpl'].
    destruct (endpoint_accepts _ k m Hep Hm) as (k' & Heq & Hep' & Hac & Hq).
    wp_steps. eapply wp_kcp_call; [exact Hk | exact Heq |]. simpl (negb _). cbv iota. wp_steps.
    eapply wp_mono; [eapply (IH _ k')|]; [| done | done |].
    + constructor; simpl; [done | | done]. by intros ? [= <-].
    + simpl. intros [] s' es (-> & Hw & Hid' & Hc' & Hpl2 & k2 & Hk2 & Hac2 & Hq2).
      split_and!; try done. exists k2. split_and!; [done | congruence |].
      rewrite Hq2, Hq, <- app_assoc. f_equal.
Qed.

Lemma wp_session_init s id :
  session_wf s -> ds_kcp s = None -> is_u32 id ->
  wp safe (session_init id) s (fun _ s' es =>
    es = [] /\ session_wf s' /\ id_ s' = id /\ ds_conn s' = ds_conn s /\ payloadList_ s' = [] /\
    exists k, ds_kcp s' = Some k /\ kcp_ackcount k = 0 /\ queued k = stream 1376 (payloadList_ s)).
Proof.
  intros Hs Hk Hid. pose proof (endpoint_create id Hid) as Hep.
  assert (Hk0 : kcp_ackcount (app_kcp id) = 0 /\ queued (app_kcp id) = []) by done. unfold app_kcp in *.
  unfold session_init. wp_steps. rewrite Hk. apply wp_assert; [done|]. cbv zeta.
  set (k0 := (ikcp_nodelay (ikcp_setoutput (ikcp_create id)) 1 10 1 1).2) in *. clearbody k0. wp_steps.
  eapply wp_mono; [eapply wp_init_loop with (k := k0)|]; [| done | done |].
  - constructor; simpl; [done | | apply Hs]. by intros ? [= <-].
  - destruct Hk0 as [Ha0 Hq0]. simpl. intros [] s' es (-> & Hw & Hid' & Hc' & Hp & k & Hk' & Hac & Hq).
    split_and!; try done. exists k. rewrite Hq, Hq0, Hac. done.
Qed.

Lemma wp_session_update s k sec nsec :
  0 <= g_udpSock -> session_wf s -> ds_kcp s = Some k -> ack_room s ->
  wp safe (session_update sec nsec) s (fun _ s' es =>
    session_wf s' /\ exists k', s' = s <| ds_kcp := Some k' |> /\ kcp_ackcount k' <= kcp_ackcount k /\
    exists out, ikcp_update k (iclock sec nsec) = Ok (k', out) /\ es = UdpSend <$> out).
Proof.
  intros Hg Hs Hk Hr. pose proof (sw_inited _ Hs k Hk) as [Hid Hep].
  unfold ack_room in Hr. rewrite Hk in Hr.
  destruct (endpoint_update _ k (iclock sec nsec) Hep) as (k' & out & Heq & Hep' & _ & Hac & Hout);
    [apply u32_range | unfold DATAGRAM_MAX in *; lia |].
  eapply wp_kcp_output_call; [done | exact Hk | exact Heq | done |].
  split; [apply session_wf_kcp; congruence|]. eauto 10.
Qed.

(** Application data is buffered until the session has its number, and accepted by
    KCP as one message afterwards. *)
Lemma wp_sendToTunnel s data :
  session_wf s -> Z.of_nat (length data) <= MESSAGE_MAX ->
  wp safe (sendToTunnel data) s (fun _ s' es =>
    es = [] /\ session_wf s' /\ id_ s' = id_ s /\ ds_conn s' = ds_conn s /\
    match ds_kcp s with
    | None => s' = s <| payloadList_ := payloadList_ s ++ [data] |>
    | Some k => exists k', s' = s <| ds_kcp := Some k' |> /\ kcp_ackcount k' = kcp_ackcount k /\
                  queued k' = queued k ++ msg_frags 1376 data
    end).
Proof.
  intros Hs Hl. unfold sendToTunnel. wp_steps. destruct (ds_kcp s) as [k|] eqn:Hk.
  - pose proof (sw_inited _ Hs k Hk) as [Hid Hep].
    destruct (endpoint_accepts _ k data Hep Hl) as (k' & Heq & Hep' & Hac & Hq).
    wp_steps. eapply wp_kcp_call; [exact Hk | exact Heq |]. wp_steps.
    split_and!; try done; [|by exists k']. apply session_wf_kcp; congruence.
  - wp_steps. split_and!; try done. destruct Hs as [H1 H2 H3].
    constructor; simpl; [done | done |]. apply Forall_app. split; [done|]. by constructor.
Qed.

(** A datagram: refused by KCP, or accepted without a complete message, or the
    first complete message - and only that one - goes to the client. *)
Lemma wp_recvFromTunnel alive s k input :
  session_wf s -> ds_kcp s = Some k -> ack_room s -> alive (ds_conn s) = true ->
  Z.of_nat (length input) <= DATAGRAM_MAX ->
  wp safe (recvFromTunnel alive input) s (fun ret s' es =>
    session_wf s' /\
    let '(inputRet, k1) := ikcp_input k input in
    (ret = -1 /\ inputRet < 0 /\ s' = s <| ds_kcp := Some k1 |> /\ es = []) \/
    (ret = 0 /\ 0 <= inputRet /\ ikcp_peeksize k1 <= 0 /\ s' = s <| ds_kcp := Some k1 |> /\ es = []) \/
    (ret = 1 /\ 0 <= inputRet /\ exists msg k2,
       ikcp_recv k1 true (ikcp_peeksize k1) = Ok (Z.of_nat (length msg), msg, k2) /\ msg <> [] /\
       s' = s <| ds_kcp := Some k2 |> /\ es = [TcpSend (ds_conn s) msg])).
Proof.
  intros Hs Hk Hr Ha Hl. pose proof (sw_inited _ Hs k Hk) as [Hid Hep].
  unfold ack_room in Hr. rewrite Hk in Hr.
  destruct (endpoint_input _ k input Hep Hl Hr) as (Hep1 & _ & _).
  assert (Hne : ds_kcp s <> None) by (by rewrite Hk).
  destruct (ikcp_input k input) as [inputRet k1] eqn:Hin. simpl in Hep1.
  unfold recvFromTunnel. wp_steps. eapply wp_kcp_call; [exact Hk | by rewrite Hin |]. cbv beta.
  pose proof (session_wf_kcp s k1 Hs Hne Hep1) as Hs1.
  set (s1 := s <| ds_kcp := Some k1 |>) in *.
  bcase; [wp_steps; split; [done|]; left; by split_and!|].
  wp_steps. eapply (wp_kcp_call _ _ s1 _ k1); [done | done |]. cbv beta.
  change (s1 <| ds_kcp := Some k1 |>) with s1.
  bcase; [wp_steps; split; [done|]; right; left; split_and!; done || lia|].
  pose proof (peeksize_range k1) as Hpr.
  destruct (endpoint_recv _ k1 Hep1 ltac:(lia)) as (out & k2 & Heq & Hlen & Hep2 & _ & _).
  assert (u64 (ikcp_peeksize k1) = ikcp_peeksize k1) as -> by word.
  wp_steps. eapply wp_lift.
  { unfold string_resize, STRING_MAX. destruct (_ >? _) eqn:Hb1; reflect_bools; [word|done]. }
  wp_steps. eapply (wp_kcp_call _ _ s1 _ k1); [done | by rewrite Heq |].
  rewrite take_nil, Nat.sub_0_r, app_nil_l. wp_steps. eapply wp_lift.
  { unfold overwrite. rewrite length_replicate. rewrite (proj2 (Nat.ltb_ge _ _)) by lia. done. }
  rewrite drop_replicate. wp_steps. apply wp_assert; [apply Z.geb_le; lia|]. wp_steps.
  apply wp_assert; [done|]. wp_steps.
  split; [by apply (session_wf_kcp s)|]. right; right. split_and!; [done | lia |].
  exists out, k2. rewrite Hlen. split_and!; try done.
  - intros ->. simpl in Hlen. lia.
  - simpl. rewrite <- Hlen, Nat2Z.id, Nat.sub_diag. by rewrite app_nil_r, take_ge by lia.
Qed.

Lemma wp_delete s :
  0 <= g_udpSock -> session_wf s -> ack_room s ->
  wp safe delete_KcpDataSession s (fun _ s' es => Forall (fun a => exists d, a = UdpSend d) es).
Proof.
  intros Hg Hs Hr. unfold delete_KcpDataSession. wp_steps. unfold ack_room in Hr.
  destruct (ds_kcp s) as [k|] eqn:Hk; [|wp_steps; constructor].
  pose proof (sw_inited _ Hs k Hk) as [Hid Hep].
  destruct (endpoint_flush _ k Hep ltac:(unfold DATAGRAM_MAX in *; lia)) as (k' & out & Heq & _ & _ & _ & Hout & _).
  wp_steps. eapply wp_kcp_output_call; [done | exact Hk | exact Heq | done |]. wp_steps.
  rewrite app_nil_r. apply Forall_fmap, Forall_true. intros d. by eexists.
Qed.
End tunnel.
