(* ===== verification/KcpProxy.v ===== *)
(** * The proxy

    [KcpProxy/KcpProxy.cpp]: TCP clients on one side, the UDP tunnel on the other.
    Connections are numbered; a connection object owns its session (as its
    context), and [sessionMap_] and [uninitedSessList_] hold weak pointers to
    sessions, that is, connection numbers.  A number is never used twice, so a
    weak pointer is expired exactly when its number is no longer in [conns]. *)

From S2P Require Import Prelude Effects Endian Buffer KcpBase KcpWire KcpSend KcpRecv KcpInput.
From S2P Require Import KcpInv KcpFlush KcpPeerOps KcpEndpoint ControlSession KcpDataSession.

Open Scope outcome_scope.
Open Scope handler_scope.

(** ** The code *)

Record Connection := { cn_connected : bool; cn_context : option KcpDataSession }.

Record KcpProxy := {
  controlSess_ : ControlSession;
  sessionMap_ : gmap Z nat;
  uninitedSessList_ : list nat;
  conns : gmap nat Connection;
  nextConn : nat
}.

Definition eta_KcpProxy (r : KcpProxy) : KcpProxy := {|
  controlSess_ := controlSess_ r; sessionMap_ := sessionMap_ r;
  uninitedSessList_ := uninitedSessList_ r; conns := conns r; nextConn := nextConn r
|}.

#[export] Instance set_controlSess_ : Setter controlSess_ := ltac:(build_setter eta_KcpProxy controlSess_).
#[export] Instance set_sessionMap_ : Setter sessionMap_ := ltac:(build_setter eta_KcpProxy sessionMap_).
#[export] Instance set_uninitedSessList_ : Setter uninitedSessList_ :=
  ltac:(build_setter eta_KcpProxy uninitedSessList_).
#[export] Instance set_conns : Setter conns := ltac:(build_setter eta_KcpProxy conns).
#[export] Instance set_nextConn : Setter nextConn := ltac:(build_setter eta_KcpProxy nextConn).

(** [KcpProxy::KcpProxy] *)
Definition new_KcpProxy : KcpProxy := {|
  controlSess_ := new_ControlSession; sessionMap_ := ∅; uninitedSessList_ := [];
  conns := ∅; nextConn := 0
|}.

Abbreviation proxy_op := (M KcpProxy action).

(** The session a connection owns; for a weak pointer, what [lock] returns. *)
Definition session_of (c : nat) (p : KcpProxy) : option KcpDataSession := conns p !! c ≫= cn_context.
Definition set_session (c : nat) (s : KcpDataSession) (p : KcpProxy) : KcpProxy :=
  p <| conns := alter (fun cn => {| cn_connected := cn_connected cn; cn_context := Some s |}) c (conns p) |>.
Definition alive (p : KcpProxy) (c : nat) : bool := bool_decide (is_Some (conns p !! c)).

(** A call on the session of connection [c]. *)
Definition on_session {A} (c : nat) (m : M KcpDataSession action A) : proxy_op A :=
  member (session_of c) (set_session c) m.

(** [boost::any_cast<KcpDataSessionPtr>(conn->getContext())] *)
Definition get_context (c : nat) : proxy_op KcpDataSession :=
  do sess <- mget (session_of c);
  match sess with Some s => mret s | None => mcrash BadCast end.

(** [it->second.lock()] followed by [assert(sess)]. *)
Definition lock (c : nat) : proxy_op unit :=
  do sess <- mget (session_of c);
  massert (match sess with Some _ => true | None => false end).

Definition control_send (cmd : bytes) (len : Z) : proxy_op unit :=
  do c <- mget controlSess_;
  do c <- lift (sendMsg c cmd len);
  mmod (fun p => p <| controlSess_ := c |>).

(** [memcpy(&id, controlMsg.c_str() + 1, 4)]: the string ends with a zero byte, an
    access beyond it is outside the object. *)
Definition read_id (controlMsg : bytes) : outcome Z :=
  if Z.of_nat (length controlMsg) + 1 <? 5 then Crash OutOfBounds
  else Ok (le_val (take 4 (drop 1 (controlMsg ++ [z2b 0])))).

Definition notifyDeadSessionId (id : Z) : proxy_op unit :=
  let cmd := z2b CMD_DESTROY_SESSION :: le_bytes 4 (hostToNetwork32 id) in
  control_send cmd 5.

(** [erase] of the first entry whose session is the one of [c]. *)
Fixpoint erase_first (c : nat) (l : list nat) : list nat :=
  match l with
  | [] => []
  | d :: l => if bool_decide (d = c) then l else d :: erase_first c l
  end.

Section proxy.
Variable g_udpSock : Z.

Definition onConnection (c : nat) : proxy_op unit :=
  do connected <- mget (fun p => match conns p !! c with Some cn => cn_connected cn | None => false end);
  if connected : bool then
    do _ <- mmod (set_session c (new_KcpDataSession c));
    do _ <- mmod (fun p => p <| uninitedSessList_ := uninitedSessList_ p ++ [c] |>);
    control_send [z2b CMD_CREATE_SESSION] 1
  else
    do sess <- get_context c;
    do _ <- mmod (fun p => p <| uninitedSessList_ := erase_first c (uninitedSessList_ p) |>);
    if negb (id_ sess =? 0) then
      do _ <- mmod (fun p => p <| sessionMap_ := delete (id_ sess) (sessionMap_ p) |>);
      notifyDeadSessionId (id_ sess)
    else mret tt.

(** [onMessage c buf]: the buffer afterwards. *)
Definition onMessage (c : nat) (buf : Buffer) : proxy_op Buffer :=
  do _ <- get_context c;
  do _ <- on_session c (sendToTunnel (contents buf));
  mret (retrieveAll buf).

Definition handleControlMessage (controlMsg : bytes) : proxy_op unit :=
  do _ <- massert (negb (is_empty controlMsg));
  let cmd := byte_at controlMsg 0 in
  if cmd =? RSP_CREATE_SESSION then
    do newSessId <- lift (read_id controlMsg);
    let newSessId := networkToHost32 newSessId in
    do uninited <- mget uninitedSessList_;
    match uninited with
    | c :: rest =>
        do _ <- lock c;
        do _ <- on_session c (session_init newSessId);
        do _ <- mmod (fun p => p <| uninitedSessList_ := rest |>);
        mmod (fun p => p <| sessionMap_ := <[newSessId := c]> (sessionMap_ p) |>)
    | [] => notifyDeadSessionId newSessId
    end
  else if cmd =? CMD_DESTROY_SESSION then
    do sessId <- lift (read_id controlMsg);
    let sessId := networkToHost32 sessId in
    do sess <- mget (fun p => sessionMap_ p !! sessId);
    match sess with
    | Some c =>
        do _ <- lock c;
        do alive <- mget alive;
        on_session c (forceConnClose alive)
    | None => mret tt
    end
  else mret tt.

(** [onKcpTunnelMessage]; [received] is what [read] put in the buffer of 4096
    zeros, or [None] when it failed. *)
Definition onKcpTunnelMessage (received : option bytes) : proxy_op unit :=
  match received with
  | None => mret tt
  | Some buf =>
      let sessId := ikcp_getconv buf in
      if sessId =? 0 then
        do ctrl <- mget controlSess_;
        do (ret, aryMsg, ctrl) <- lift (parseMsg ctrl buf []);
        do _ <- mmod (fun p => p <| controlSess_ := ctrl |>);
        for_ aryMsg handleControlMessage
      else
        do sess <- mget (fun p => sessionMap_ p !! sessId);
        match sess with
        | None => notifyDeadSessionId sessId
        | Some c =>
            do _ <- lock c;
            do alive <- mget alive;
            do ret <- on_session c (recvFromTunnel alive buf);
            mret tt
        end
  end.

(** A [std::map] is traversed in the order of its keys. *)
Definition ordered {A} (m : gmap Z A) : list (Z * A) :=
  @merge_sort _ (fun x y => x.1 <= y.1) (fun x y => Z_le_dec x.1 y.1) (map_to_list m).

(** [clock] is the clock reading of each session's update. *)
Definition onUpdateTunnelTimer (clock : Z -> Z * Z) : proxy_op unit :=
  do sessions <- mget (fun p => ordered (sessionMap_ p));
  for_ sessions (fun '(id, c) =>
    do _ <- lock c;
    on_session c (session_update g_udpSock (clock id).1 (clock id).2)).

(** ** The callbacks as events *)

(** What the event loop delivers: a client connected, data of a client, the client
    is gone (the connection callback, then the end of the connection object), a
    datagram, a tick of the 10 ms timer. *)
Inductive event :=
  | Connected
  | Message (c : nat) (buf : Buffer)
  | Disconnected (c : nat)
  | Destroyed (c : nat)
  | Datagram (received : option bytes)
  | Tick (clock : Z -> Z * Z).

Definition handle (e : event) : proxy_op unit :=
  match e with
  | Connected =>
      do c <- mget nextConn;
      do _ <- mmod (fun p => p <| nextConn := S c |>
                         <| conns := <[c := {| cn_connected := true; cn_context := None |}]> (conns p) |>);
      onConnection c
  | Message c buf => do _ <- onMessage c buf; mret tt
  | Disconnected c =>
      do _ <- mmod (fun p => p <| conns :=
                alter (fun cn => {| cn_connected := false; cn_context := cn_context cn |}) c (conns p) |>);
      onConnection c
  | Destroyed c =>
      do _ <- on_session c (delete_KcpDataSession g_udpSock);
      mmod (fun p => p <| conns := delete c (conns p) |>)
  | Datagram received => onKcpTunnelMessage received
  | Tick clock => onUpdateTunnelTimer clock
  end.
End proxy.

(** ** Sessions and connections *)

Lemma session_of_set c s p c' :
  is_Some (conns p !! c) ->
  session_of c' (set_session c s p) = if decide (c' = c) then Some s else session_of c' p.
Proof.
  intros [cn Hcn]. unfold session_of, set_session. simpl. destruct (decide (c' = c)) as [->|Hne].
  - by rewrite lookup_alter_eq, Hcn.
  - by rewrite lookup_alter_ne by done.
Qed.

Lemma session_of_conn c s p : session_of c p = Some s -> is_Some (conns p !! c).
Proof. unfold session_of. by destruct (conns p !! c). Qed.

(** ** The tunnel as it is *)

(** Whatever arrives, the parser produces no message ([parse_loop_condition]). *)
Lemma parseMsg_none c packet ret ary c' :
  parseMsg c packet [] = Ok (ret, ary, c') -> ary = [].
Proof.
  unfold parseMsg. destruct (ikcp_input _ _) as [inputRet k].
  destruct (inputRet <? 0); [by intros [= _ <- _]|].
  destruct (_ =? 0); [by intros [= _ <- _]|].
  intros (payload & _ & H)%bind_ok. apply bind_ok in H as ([[ret1 out] k1] & _ & H).
  apply bind_ok in H as (p2 & _ & H). apply bind_ok in H as (_ & _ & H).
  apply bind_ok in H as (p3 & _ & H). apply bind_ok in H as ([buf ary1] & H1 & [= _ <- _]).
  cbn [parse_loop] in H1. destruct (is_empty _) eqn:He; [|by injection H1].
  destruct (recvBuffer_ c ++ p3); [|done]. done.
Qed.

(** A proxy none of whose sessions has its number. *)
Definition dead (p : KcpProxy) : Prop :=
  sessionMap_ p = ∅ /\ forall c s, session_of c p = Some s -> ds_kcp s = None /\ id_ s = 0.

Definition any_crash : crash -> Prop := fun _ => True.

Lemma wp_control_send cmd len p (Q : unit -> KcpProxy -> list action -> Prop) :
  (forall c, Q tt (p <| controlSess_ := c |>) []) -> wp any_crash (control_send cmd len) p Q.
Proof.
  intros H. unfold control_send. wp_steps. apply wp_lift_crash.
  destruct (sendMsg _ _ _); [|done]. wp_steps. apply H.
Qed.

Lemma dead_handle g e p :
  dead p -> wp any_crash (handle g e) p (fun _ p' es => dead p' /\ es = []).
Proof.
  intros [Hm Hs]. destruct e as [|c buf|c|c|received|clock]; cbn [handle].
  - wp_steps. unfold onConnection. wp_steps. simpl. rewrite lookup_insert_eq. simpl. wp_steps.
    apply wp_control_send. intros ctrl. split; [|done]. split; [done|]. intros c s.
    set (p1 := p <| nextConn := _ |> <| conns := _ |>).
    assert (is_Some (conns p1 !! nextConn p)) as Hc by (simpl; rewrite lookup_insert_eq; by eexists).
    change (session_of c (set_session (nextConn p) (new_KcpDataSession (nextConn p)) p1) = Some s ->
            ds_kcp s = None /\ id_ s = 0).
    rewrite session_of_set by done. case_decide; [by intros [= <-]|].
    unfold session_of. simpl. rewrite lookup_insert_ne by done. apply Hs.
  - wp_steps. unfold onMessage, get_context. wp_steps.
    destruct (session_of c p) as [s|] eqn:Hc; [|by apply wp_crash]. wp_steps.
    destruct (Hs c s Hc) as [Hk Hid]. eapply wp_member; [exact Hc|].
    unfold sendToTunnel. wp_steps. rewrite Hk. wp_steps. split; [|done]. split; [done|].
    intros c' s'. rewrite session_of_set by (by eapply session_of_conn).
    case_decide; [|apply Hs]. by intros [= <-].
  - wp_steps. unfold onConnection. wp_steps. simpl. rewrite lookup_alter_eq.
    set (p1 := p <| conns := _ |>).
    assert (H1 : forall c', session_of c' p1 = session_of c' p).
    { intros c'. unfold session_of, p1. simpl. destruct (decide (c = c')) as [->|];
        [rewrite lookup_alter_eq; by destruct (conns p !! c') | by rewrite lookup_alter_ne]. }
    assert (dead p1) as Hd1 by (split; [done|]; intros c' s'; rewrite H1; apply Hs).
    assert ((match (fun cn => {| cn_connected := false; cn_context := cn_context cn |}) <$> conns p !! c with
      | Some cn => cn_connected cn | None => false end) = false) as -> by (by destruct (conns p !! c)).
    unfold get_context. wp_steps. rewrite H1.
    destruct (session_of c p) as [s|] eqn:Hc; [|by apply wp_crash]. wp_steps.
    destruct (Hs c s Hc) as [_ ->]. simpl. wp_steps. split; [|done]. destruct Hd1. by split.
  - wp_steps. unfold on_session, member, wp.
    destruct (session_of c p) as [s|] eqn:Hc; [|done]. destruct (Hs c s Hc) as [Hk Hid].
    unfold delete_KcpDataSession, mthen, mget. rewrite Hk. simpl. split; [|done].
    split; [done|]. intros c' s'. unfold session_of, set_session. simpl.
    destruct (decide (c = c')) as [->|]; [by rewrite lookup_delete_eq|].
    rewrite lookup_delete_ne, lookup_alter_ne by done. apply Hs.
  - unfold onKcpTunnelMessage. destruct received as [buf|]; [|by wp_steps].
    cbv zeta. bcase.
    + wp_steps. apply wp_lift_crash. destruct (parseMsg _ _ _) as [[[ret ary] ctrl]|] eqn:Hp; [|done].
      wp_steps. apply parseMsg_none in Hp as ->. by wp_steps.
    + wp_steps. rewrite Hm, lookup_empty. apply wp_control_send. intros ctrl. done.
  - unfold onUpdateTunnelTimer. wp_steps. rewrite Hm. unfold ordered. rewrite map_to_list_empty.
    cbn. by wp_steps.
Qed.

(** C19.  The proxy as it stands never sends anything: whatever connections, data
    and datagrams arrive, in whatever order, no session ever gets its number, no
    datagram leaves the UDP socket (not even the request to create a session: the
    control session is never updated, so KCP never flushes it) and nothing is sent
    to a client. *)
Theorem proxy_never_sends g evs :
  match for_ evs (handle g) new_KcpProxy with
  | Ok (_, p, actions) => actions = [] /\ sessionMap_ p = ∅
  | Crash _ => True
  end.
Proof.
  assert (H : wp any_crash (for_ evs (handle g)) new_KcpProxy (fun _ p es => dead p /\ [] ++ es = [])).
  { apply (wp_for any_crash evs (handle g) (fun p es => dead p /\ es = [])).
    - split; [|done]. split; [done|]. intros c s. unfold session_of. simpl. by rewrite lookup_empty.
    - intros e p es _ [Hd ->]. eapply wp_mono; [by apply dead_handle|]. done. }
  unfold wp in H. destruct (for_ _ _ _) as [[[a p] es]|]; [|done]. destruct H as [[Hm _] Hes]. done.
Qed.

(** ** The invariant of the session tables *)

Definition live (p : KcpProxy) (c : nat) (s : KcpDataSession) : Prop :=
  conns p !! c = Some {| cn_connected := true; cn_context := Some s |}.

Record proxy_wf (p : KcpProxy) : Prop := {
  pw_control : control_wf (controlSess_ p);
  pw_nodup : NoDup (uninitedSessList_ p);
  (* every weak pointer of the list is alive, its session has no number *)
  pw_list c : c ∈ uninitedSessList_ p -> exists s, live p c s /\ ds_kcp s = None;
  (* every weak pointer of the map is alive, its session has the number of its key *)
  pw_map id c : sessionMap_ p !! id = Some c ->
    id <> 0 /\ exists s k, live p c s /\ ds_kcp s = Some k /\ id_ s = id;
  (* every connection has its session; a connected one without number is listed *)
  pw_conn c cn : conns p !! c = Some cn -> exists s, cn_context cn = Some s /\ session_wf s /\
    ds_conn s = c /\ (cn_connected cn = true -> ds_kcp s = None -> c ∈ uninitedSessList_ p);
  pw_fresh c : (nextConn p <= c)%nat -> conns p !! c = None
}.

Lemma proxy_wf_new : proxy_wf new_KcpProxy.
Proof.
  constructor; simpl.
  - apply control_wf_new.
  - constructor.
  - intros c Hc. by apply elem_of_nil in Hc.
  - intros id c. by rewrite lookup_empty.
  - intros c cn. by rewrite lookup_empty.
  - intros c _. apply lookup_empty.
Qed.

Lemma live_session p c s : live p c s -> session_of c p = Some s.
Proof. unfold live, session_of. by intros ->. Qed.

Lemma set_session_lookup c s p c' cn :
  conns p !! c = Some cn ->
  conns (set_session c s p) !! c' =
    if decide (c' = c) then Some {| cn_connected := cn_connected cn; cn_context := Some s |}
    else conns p !! c'.
Proof.
  intros Hc. unfold set_session. simpl. case_decide as Hd.
  - subst. by rewrite lookup_alter_eq, Hc.
  - by rewrite lookup_alter_ne.
Qed.

(** Replacing a session by one that has the same number, or none like it. *)
Lemma proxy_wf_set_session p c cn s s' :
  proxy_wf p -> conns p !! c = Some cn -> cn_context cn = Some s -> session_wf s' ->
  ds_conn s' = ds_conn s -> id_ s' = id_ s -> (ds_kcp s' = None <-> ds_kcp s = None) ->
  proxy_wf (set_session c s' p).
Proof.
  intros Hp Hc Hs Hs' Hconn Hid Hk. constructor; try apply Hp.
  - intros d Hd. apply (pw_list _ Hp) in Hd as (t & Ht & Hk'). unfold live in *.
    rewrite (set_session_lookup _ _ _ _ _ Hc). case_decide; [|by exists t]. subst d.
    rewrite Hc in Ht. injection Ht as ->. injection Hs as <-. exists s'. simpl. naive_solver.
  - intros id d Hd. apply (pw_map _ Hp) in Hd as (Hne & t & k & Ht & Hk' & Hid'). split; [done|].
    unfold live in *. rewrite (set_session_lookup _ _ _ _ _ Hc). case_decide; [|by exists t, k]. subst d.
    rewrite Hc in Ht. injection Ht as ->. injection Hs as <-. destruct (ds_kcp s') as [k'|] eqn:Hk2.
    + exists s', k'. simpl. split_and!; congruence.
    + rewrite (proj1 Hk eq_refl) in Hk'. done.
  - intros d dn. rewrite (set_session_lookup _ _ _ _ _ Hc). case_decide; [|apply Hp]. subst d.
    intros [= <-]. apply (pw_conn _ Hp) in Hc as (t & Ht & Hw & Hc' & Hin).
    rewrite Hs in Ht. injection Ht as <-. exists s'. simpl. split_and!; try done; [congruence|].
    intros Hup Hn. apply Hin; [done|]. by apply Hk.
  - intros d Hd. rewrite (set_session_lookup _ _ _ _ _ Hc).
    case_decide; [|by apply Hp]. subst d. by rewrite (pw_fresh _ Hp c Hd) in Hc.
Qed.

Lemma proxy_wf_control p c : proxy_wf p -> control_wf c -> proxy_wf (p <| controlSess_ := c |>).
Proof. intros [] ?. by constructor. Qed.

Lemma wp_control_msg cmd len p Q :
  proxy_wf p -> len = Z.of_nat (length cmd) -> len <= MESSAGE_MAX ->
  (forall c, control_wf c ->
     kcp_snd_queue (kcp_ c) = kcp_snd_queue (kcp_ (controlSess_ p)) ++ send_segments (kcp_ (controlSess_ p)) cmd ->
     Q tt (p <| controlSess_ := c |>) []) ->
  wp safe (control_send cmd len) p Q.
Proof.
  intros Hp -> Hl H. destruct (sendMsg_ok _ _ (pw_control _ Hp) Hl) as (c' & Heq & Hw & _ & _ & Hq).
  unfold control_send. wp_steps. eapply wp_lift; [exact Heq|]. wp_steps. by apply H.
Qed.

(** ** Numbers on the wire *)

Lemma read_id_command b id :
  is_u32 id -> networkToHost32 (le_val (le_bytes 4 (hostToNetwork32 id))) = id /\
  read_id (z2b b :: le_bytes 4 (hostToNetwork32 id)) = Ok (le_val (le_bytes 4 (hostToNetwork32 id))).
Proof.
  intros Hid. split.
  - unfold networkToHost32, hostToNetwork32. rewrite le_val_bytes.
    assert (Hb : 0 <= bswap 4 id < pow256 4).
    { unfold bswap. pose proof (le_val_range (reverse (le_bytes 4 id))) as H.
      rewrite length_reverse, length_le_bytes in H. exact H. }
    rewrite Z.mod_small by done. rewrite bswap_bswap. apply Z.mod_small.
    unfold is_u32 in Hid. unfold pow256. simpl. lia.
  - unfold read_id. rewrite length_cons, length_le_bytes. bcase; [lia|].
    pose proof (take_app_length (le_bytes 4 (hostToNetwork32 id)) [z2b 0]) as Ht.
    rewrite length_le_bytes in Ht. exact (f_equal (fun l => Ok (le_val l)) Ht).
Qed.

(** ** The handlers keep the tables in order *)

(** Room for the acknowledgements of one more datagram, in every session. *)
Definition proxy_room (p : KcpProxy) : Prop :=
  kcp_ackcount (kcp_ (controlSess_ p)) + DATAGRAM_MAX < 2147483648 /\
  forall c s, session_of c p = Some s -> ack_room s.

(** What the event loop can deliver.  A datagram of the control session that ends
    the process ([bare_segment_ends_process]) is excluded. *)
Definition legal (p : KcpProxy) (e : event) : Prop :=
  match e with
  | Connected => True
  | Message c buf => (exists s, live p c s) /\ Z.of_nat (length (contents buf)) <= MESSAGE_MAX
  | Disconnected c => exists s, live p c s
  | Destroyed c => exists s, conns p !! c = Some {| cn_connected := false; cn_context := Some s |}
  | Datagram None => True
  | Datagram (Some d) => Z.of_nat (length d) <= DATAGRAM_MAX /\
      (ikcp_getconv d = 0 -> is_ok (parseMsg (controlSess_ p) d []) = true)
  | Tick _ => True
  end.

Lemma erase_first_elem c l d : NoDup l -> d ∈ erase_first c l <-> d ∈ l /\ d <> c.
Proof.
  induction l as [|x l IH]; intros Hnd; simpl; [rewrite elem_of_nil; naive_solver|].
  apply NoDup_cons in Hnd as [Hx Hnd]. rewrite elem_of_cons. case_bool_decide as Hd; subst.
  - split; [|naive_solver]. intros Hin. split; [by right|]. by intros ->.
  - rewrite elem_of_cons, IH by done. naive_solver.
Qed.

Lemma erase_first_NoDup c l : NoDup l -> NoDup (erase_first c l).
Proof.
  induction l as [|x l IH]; intros Hnd; simpl; [constructor|].
  pose proof (NoDup_cons_1_2 _ _ Hnd) as Hnd'. apply NoDup_cons in Hnd as [Hx _].
  case_bool_decide; [done|]. constructor; [|by apply IH].
  rewrite erase_first_elem by done. naive_solver.
Qed.

(** The tables after a connection was accepted. *)
Lemma proxy_wf_connect p :
  proxy_wf p ->
  let c := nextConn p in
  proxy_wf (set_session c (new_KcpDataSession c)
    (p <| nextConn := S c |> <| conns := <[c := {| cn_connected := true; cn_context := None |}]> (conns p) |>)
    <| uninitedSessList_ := uninitedSessList_ p ++ [c] |>).
Proof.
  intros Hp c. set (p1 := set_session _ _ _).
  assert (Hfresh : conns p !! c = None) by (apply (pw_fresh _ Hp); lia).
  assert (Hl : forall d, conns p1 !! d = if decide (d = c)
    then Some {| cn_connected := true; cn_context := Some (new_KcpDataSession c) |} else conns p !! d).
  { intros d. unfold p1. erewrite set_session_lookup by (simpl; apply lookup_insert_eq).
    case_decide; [done|]. simpl. by rewrite lookup_insert_ne. }
  assert (Hlive : forall d s, live p d s -> conns p1 !! d = Some {| cn_connected := true; cn_context := Some s |}).
  { intros d s Hd. unfold live in *. rewrite Hl. case_decide; [congruence | done]. }
  constructor; cbn [upd set_uninitedSessList_ sessionMap_ controlSess_ uninitedSessList_ nextConn].
  - apply Hp.
  - apply NoDup_app. split_and!; [apply Hp | | apply NoDup_singleton].
    intros d Hd Hin. apply list_elem_of_singleton in Hin as ->.
    apply (pw_list _ Hp) in Hd as (s & Hs & _). unfold live in Hs. congruence.
  - intros d Hd. unfold live. simpl. rewrite Hl. case_decide as Hdc; [by eexists|].
    apply elem_of_app in Hd as [Hd|Hd]; [|by apply list_elem_of_singleton in Hd].
    apply (pw_list _ Hp) in Hd as (s & Hs & Hk). by exists s.
  - intros id d Hd. apply (pw_map _ Hp) in Hd as (Hne & s & k & Hs & Hk & Hid). split; [done|].
    exists s, k. split_and!; [|done..]. by apply Hlive.
  - intros d cn. simpl. rewrite Hl. case_decide as Hdc; [intros [= <-]; subst d|].
    + exists (new_KcpDataSession c). split_and!; [done | apply session_wf_new | done |].
      intros _ _. apply elem_of_app. right. by apply list_elem_of_singleton.
    + intros Hd. apply (pw_conn _ Hp) in Hd as (s & Hs & Hw & Hc & Hin). exists s. split_and!; try done.
      intros H1 H2. apply elem_of_app. left. by apply Hin.
  - intros d Hd. change (S c <= d)%nat in Hd. simpl. rewrite Hl. case_decide; [lia|]. apply Hp. unfold c in *. lia.
Qed.

(** The tables after a connection was lost. *)
Lemma proxy_wf_disconnect p c s m :
  proxy_wf p -> live p c s ->
  m = (if negb (id_ s =? 0) then delete (id_ s) (sessionMap_ p) else sessionMap_ p) ->
  proxy_wf (p <| conns := alter (fun cn => {| cn_connected := false; cn_context := cn_context cn |}) c (conns p) |>
              <| uninitedSessList_ := erase_first c (uninitedSessList_ p) |>
              <| sessionMap_ := m |>).
Proof.
  intros Hp Hs ->. set (conns' := alter _ c (conns p)).
  assert (Hl : forall d, d <> c -> conns' !! d = conns p !! d) by (intros; by apply lookup_alter_ne).
  assert (Hc : conns' !! c = Some {| cn_connected := false; cn_context := Some s |})
    by (unfold conns'; rewrite lookup_alter_eq, Hs; done).
  constructor; cbn [upd set_uninitedSessList_ set_sessionMap_ set_conns sessionMap_ controlSess_
                    uninitedSessList_ nextConn conns].
  - apply Hp.
  - apply erase_first_NoDup, Hp.
  - intros d [Hd Hne]%erase_first_elem; [|apply Hp]. unfold live. simpl. rewrite Hl by done.
    by apply (pw_list _ Hp).
  - intros id d Hd.
    assert (Hd' : sessionMap_ p !! id = Some d /\ (id_ s <> 0 -> id <> id_ s)).
    { revert Hd. destruct (id_ s =? 0) eqn:Hz; simpl; reflect_bools; [by split|].
      rewrite lookup_delete_Some. intros [? ?]. split; [done | congruence]. }
    destruct Hd' as [Hm Hne]. apply (pw_map _ Hp) in Hm as (Hid & t & k & Ht & Hk & Hkey). split; [done|].
    exists t, k. split_and!; [|done..]. unfold live in *. simpl. rewrite Hl; [done|].
    intros ->. rewrite Hs in Ht. injection Ht as ->. apply Hne; congruence.
  - intros d dn. destruct (decide (d = c)) as [->|Hne].
    + rewrite Hc. intros [= <-]. apply (pw_conn _ Hp) in Hs as (t & [= <-] & Hw & Hcn & _).
      exists s. split_and!; try done.
    + rewrite Hl by done. intros Hd. apply (pw_conn _ Hp) in Hd as (t & Ht & Hw & Hcn & Hin).
      exists t. split_and!; try done. intros H1 H2. apply erase_first_elem; [apply Hp|]. split; [by apply Hin | done].
  - intros d Hd. rewrite Hl; [by apply Hp|]. intros ->.
    pose proof (pw_fresh _ Hp c Hd). unfold live in Hs. congruence.
Qed.

Lemma proxy_wf_destroy p c s :
  proxy_wf p -> conns p !! c = Some {| cn_connected := false; cn_context := Some s |} ->
  proxy_wf (p <| conns := delete c (conns p) |>).
Proof.
  intros Hp Hc. assert (Hne : forall d t, live p d t -> d <> c) by (unfold live; intros d t Hd ->; congruence).
  constructor; cbn [upd set_conns sessionMap_ controlSess_ uninitedSessList_ nextConn conns]; try apply Hp.
  - intros d Hd. apply (pw_list _ Hp) in Hd as (t & Ht & Hk). exists t. split; [|done].
    unfold live. simpl. rewrite lookup_delete_ne by (symmetry; by eapply Hne). done.
  - intros id d Hd. apply (pw_map _ Hp) in Hd as (Hid & t & k & Ht & Hk). split; [done|]. exists t, k.
    split; [|done]. unfold live. simpl. rewrite lookup_delete_ne by (symmetry; by eapply Hne). done.
  - intros d dn. rewrite lookup_delete_Some. intros [_ Hd]. by apply (pw_conn _ Hp).
  - intros d Hd. apply lookup_delete_None. right. by apply Hp.
Qed.

Lemma wp_lock C c s p (Q : unit -> KcpProxy -> list action -> Prop) :
  live p c s -> Q tt p [] -> wp C (lock c) p Q.
Proof.
  intros Hs HQ. unfold lock. wp_steps. rewrite (live_session _ _ _ Hs). by apply wp_assert.
Qed.

Lemma live_alive p c s : live p c s -> alive p c = true.
Proof. unfold live, alive. intros ->. apply bool_decide_eq_true. by eexists. Qed.

Lemma live_wf p c s : proxy_wf p -> live p c s -> session_wf s /\ ds_conn s = c.
Proof.
  intros Hp Hs. apply (pw_conn _ Hp) in Hs as (t & [= <-] & Hw & Hc & _). done.
Qed.

(** An operation on a session that keeps its number. *)
Lemma wp_on_session {A} p c s (m : M KcpDataSession action A) (Q : A -> KcpProxy -> list action -> Prop) :
  proxy_wf p -> live p c s ->
  wp safe m s (fun a s' es => session_wf s' /\ ds_conn s' = ds_conn s /\ id_ s' = id_ s /\
    (ds_kcp s' = None <-> ds_kcp s = None) /\
    (proxy_wf (set_session c s' p) -> Q a (set_session c s' p) es)) ->
  wp safe (on_session c m) p Q.
Proof.
  intros Hp Hs H. eapply wp_member; [by apply live_session|].
  eapply wp_mono; [exact H|]. intros a s' es (Hw & Hc & Hid & Hk & HQ). apply HQ.
  by eapply (proxy_wf_set_session p c _ s).
Qed.

Lemma ordered_elem {A} (m : gmap Z A) id x : (id, x) ∈ ordered m <-> m !! id = Some x.
Proof. unfold ordered. rewrite merge_sort_Permutation. apply elem_of_map_to_list. Qed.

Section handlers.
Variable g : Z.
Hypothesis Hg : 0 <= g.

Lemma wp_tick_one p id c sec nsec Q :
  proxy_wf p -> proxy_room p -> sessionMap_ p !! id = Some c ->
  (forall p' es, proxy_wf p' -> proxy_room p' -> sessionMap_ p' = sessionMap_ p -> Q tt p' es) ->
  wp safe (do _ <- lock c; on_session c (session_update g sec nsec)) p Q.
Proof using Hg.
  intros Hp [Hrc Hrs] Hm HQ. destruct (pw_map _ Hp id c Hm) as (_ & s & k & Hs & Hk & _).
  destruct (live_wf _ _ _ Hp Hs) as [Hw Hc]. pose proof (Hrs c s (live_session _ _ _ Hs)) as Hr.
  wp_steps. eapply wp_lock; [exact Hs|]. apply (wp_on_session _ _ s); [done | done |].
  eapply wp_mono; [by apply (wp_session_update g s k)|].
  intros [] s' es (Hw' & k' & -> & Hac & out & _ & ->). do 3 (split; [done|]).
  split; [simpl; by rewrite Hk|]. intros Hp'. apply HQ; [done | | done]. split; [done|].
  intros d t. rewrite session_of_set by (eapply session_of_conn; by apply live_session).
  case_decide; [|apply Hrs]. intros [= <-]. unfold ack_room in *. rewrite Hk in Hr. simpl. lia.
Qed.

Lemma handle_wf e p :
  proxy_wf p -> proxy_room p -> legal p e -> wp safe (handle g e) p (fun _ p' _ => proxy_wf p').
Proof using Hg.
  intros Hp Hroom Hlegal.
  destruct e as [|c buf|c|c|[d|]|clock]; cbn [handle legal] in *.
  - wp_steps. unfold onConnection. wp_steps. simpl. rewrite lookup_insert_eq. simpl. wp_steps.
    pose proof (proxy_wf_connect p Hp) as Hp'. apply wp_control_msg; [exact Hp' | done | vm_compute; done |].
    intros ctrl Hc _. by apply proxy_wf_control.
  - destruct Hlegal as [[s Hs] Hl]. destruct (live_wf _ _ _ Hp Hs) as [Hw Hc].
    unfold onMessage, get_context. wp_steps. rewrite (live_session _ _ _ Hs). wp_steps.
    apply (wp_on_session _ _ s); [done | done |].
    eapply wp_mono; [by apply wp_sendToTunnel|]. intros [] s' es (_ & Hw' & Hid & Hc' & Hcase).
    do 3 (split; [done|]). split; [|intros; by wp_steps]. destruct (ds_kcp s) as [k|] eqn:Hk.
    + by destruct Hcase as (k' & -> & _).
    + subst s'. simpl. by rewrite Hk.
  - destruct Hlegal as [s Hs]. unfold onConnection, get_context. wp_steps.
    set (p1 := upd conns _ p).
    assert (Hc1 : conns p1 !! c = Some {| cn_connected := false; cn_context := Some s |})
      by (unfold p1; simpl; rewrite lookup_alter_eq, Hs; done).
    rewrite Hc1. simpl. wp_steps. unfold session_of. rewrite Hc1. simpl. wp_steps.
    destruct (negb (id_ s =? 0)) eqn:Hz; wp_steps.
    + apply wp_control_msg; [|done|vm_compute; done|].
      * eapply (proxy_wf_disconnect p c s); [done | done |]. by rewrite Hz.
      * intros ctrl Hctrl _. apply proxy_wf_control; [|done].
        eapply (proxy_wf_disconnect p c s); [done | done |]. by rewrite Hz.
    + pose proof (proxy_wf_disconnect p c s (sessionMap_ p) Hp Hs) as H. rewrite Hz in H.
      specialize (H eq_refl). unfold p1. by destruct p.
  - destruct Hlegal as [s Hs]. wp_steps.
    pose proof Hs as (t & [= <-] & Hw & _)%(pw_conn _ Hp).
    assert (Hso : session_of c p = Some s) by (unfold session_of; by rewrite Hs).
    eapply wp_member; [exact Hso|]. eapply wp_mono.
    { apply wp_delete; [done | done |]. by apply (proj2 Hroom c s). }
    intros [] s' es _. wp_steps. pose proof (proxy_wf_destroy p c s Hp Hs) as H.
    assert (E : delete c (conns (set_session c s' p)) = delete c (conns p)).
    { unfold set_session. simpl. apply map_eq. intros d. destruct (decide (d = c)) as [->|];
        [by rewrite !lookup_delete_eq | by rewrite !lookup_delete_ne, lookup_alter_ne]. }
    unfold set_session in *. rewrite E. exact H.
  - destruct Hlegal as [Hl Hctl]. unfold onKcpTunnelMessage. cbv zeta. bcase.
    + specialize (Hctl Hb). wp_steps.
      pose proof (parseMsg_cases (controlSess_ p) d [] (pw_control _ Hp) Hl (proj1 Hroom)) as Hcases.
      destruct (ikcp_input _ _) as [ret k].
      destruct (parseMsg (controlSess_ p) d []) as [[[r ary] ctrl]|] eqn:Hparse; [|done].
      eapply wp_lift; [done|]. wp_steps. pose proof (parseMsg_none _ _ _ _ _ Hparse) as ->. wp_steps.
      apply proxy_wf_control; [done|].
      destruct Hcases as [(_ & ? & Heq)|[(_ & _ & ? & Heq)|[(_ & _ & ?)|(_ & _ & c2 & msg & Heq & ? & _)]]];
        try done; by injection Heq as _ ->.
    + wp_steps. destruct (sessionMap_ p !! ikcp_getconv d) as [c|] eqn:Hm.
      * destruct (pw_map _ Hp _ c Hm) as (_ & s & k & Hs & Hk & _).
        destruct (live_wf _ _ _ Hp Hs) as [Hw Hc]. wp_steps. eapply wp_lock; [exact Hs|]. wp_steps.
        apply (wp_on_session _ _ s); [done | done |]. eapply wp_mono.
        { apply (wp_recvFromTunnel (alive p) s k); [done | done | | | done].
          - apply (proj2 Hroom c s). by apply live_session.
          - rewrite Hc. by eapply live_alive. }
        intros ret s' es [Hw' Hcase]. destruct (ikcp_input k d) as [inputRet k1].
        assert (Hs' : exists k2, s' = s <| ds_kcp := Some k2 |>) by naive_solver.
        destruct Hs' as [k2 ->]. do 3 (split; [done|]). split; [simpl; by rewrite Hk | intros; by wp_steps].
      * apply wp_control_msg; [done | done | vm_compute; done |]. intros ctrl Hctrl _. by apply proxy_wf_control.
  - by wp_steps.
  - unfold onUpdateTunnelTimer. wp_steps.
    eapply wp_mono; [apply (wp_for safe (ordered (sessionMap_ p)) _
      (fun p' _ => proxy_wf p' /\ proxy_room p' /\ sessionMap_ p' = sessionMap_ p) p [])|].
    + done.
    + intros [id c] p' es Hin (Hp' & Hr' & Hm'). apply (wp_tick_one p' id c); [done | done | |].
      * rewrite Hm'. by apply ordered_elem.
      * intros p2 es2 H1 H2 H3. split_and!; [done | done | congruence].
    + intros ? p' es H. exact (proj1 H).
Qed.

Lemma handle_ok e p : proxy_wf p -> proxy_room p -> legal p e ->
  exists p' actions, handle g e p = Ok (tt, p', actions) /\ proxy_wf p'.
Proof using Hg.
  intros Hp Hroom Hlegal. pose proof (handle_wf e p Hp Hroom Hlegal) as H. unfold wp in H.
  destruct (handle g e p) as [[[[] p'] es]|]; [by exists p', es | done].
Qed.
End handlers.

(** Two clients; the second one has already sent three bytes. *)
Definition demo_buffer : Buffer :=
  {| buffer_ := replicate 8 (z2b 0) ++ map z2b [65; 66; 67]; readerIndex_ := 8; writerIndex_ := 11 |}.
Definition proxy_after (g : Z) (evs : list event) (p : KcpProxy) : KcpProxy :=
  match for_ evs (handle g) p with Ok (_, p', _) => p' | Crash _ => p end.
Definition demo_proxy : KcpProxy := proxy_after 5 [Connected; Connected; Message 1 demo_buffer] new_KcpProxy.

Lemma handle_after g e p p' es :
  0 <= g -> proxy_wf p -> proxy_room p -> legal p e -> handle g e p = Ok (tt, p', es) -> proxy_wf p'.
Proof.
  intros Hg Hp Hr Hl Heq. destruct (handle_ok g Hg e p Hp Hr Hl) as (p2 & es2 & Heq2 & H). congruence.
Qed.

Lemma dead_room p :
  dead p -> kcp_ackcount (kcp_ (controlSess_ p)) + DATAGRAM_MAX < 2147483648 -> proxy_room p.
Proof.
  intros [_ Hd] Ha. split; [done|]. intros c s Hs. destruct (Hd c s Hs) as [Hk _].
  unfold ack_room. by rewrite Hk.
Qed.

Lemma dead_step g e p p' es :
  0 <= g -> proxy_wf p /\ dead p -> kcp_ackcount (kcp_ (controlSess_ p)) + DATAGRAM_MAX < 2147483648 ->
  legal p e -> handle g e p = Ok (tt, p', es) -> proxy_wf p' /\ dead p'.
Proof.
  intros Hg [Hp Hd] Ha Hl Heq. split.
  - eapply handle_after; [exact Hg | exact Hp | by apply dead_room | exact Hl | exact Heq].
  - pose proof (dead_handle g e p Hd) as H. unfold wp in H. rewrite Heq in H. apply H.
Qed.

Lemma demo_proxy_wf : proxy_wf demo_proxy /\ dead demo_proxy.
Proof.
  set (evs := [Connected; Connected; Message 1 demo_buffer]).
  set (p1 := proxy_after 5 (take 1 evs) new_KcpProxy). set (p2 := proxy_after 5 (take 2 evs) new_KcpProxy).
  assert (E1 : handle 5 Connected new_KcpProxy = Ok (tt, p1, [])) by (vm_compute; reflexivity).
  assert (E2 : handle 5 Connected p1 = Ok (tt, p2, [])) by (vm_compute; reflexivity).
  assert (E3 : handle 5 (Message 1 demo_buffer) p2 = Ok (tt, demo_proxy, [])) by (vm_compute; reflexivity).
  assert (H0 : proxy_wf new_KcpProxy /\ dead new_KcpProxy).
  { split; [apply proxy_wf_new|]. split; [done|]. intros c s. unfold session_of. simpl. by rewrite lookup_empty. }
  assert (H1 : proxy_wf p1 /\ dead p1) by (by eapply (dead_step 5 Connected new_KcpProxy); [| |vm_compute| |]).
  assert (H2 : proxy_wf p2 /\ dead p2) by (by eapply (dead_step 5 Connected p1); [| |vm_compute| |]).
  eapply (dead_step 5 (Message 1 demo_buffer) p2); [done | exact H2 | by vm_compute | | exact E3].
  split; [|by vm_compute]. eexists. vm_compute. reflexivity.
Qed.

(** ** Control messages *)

Lemma wp_command b l p (Q : unit -> KcpProxy -> list action -> Prop) k :
  handleControlMessage (z2b b :: l) = mthen (massert true) (fun _ => k) ->
  wp safe k p Q -> wp safe (handleControlMessage (z2b b :: l)) p Q.
Proof. intros -> H. wp_steps. by apply wp_assert. Qed.

Lemma wp_created id p Q :
  is_u32 id ->
  (forall c rest, uninitedSessList_ p = c :: rest ->
     wp safe (do _ <- lock c;
       do _ <- on_session c (session_init id);
       do _ <- mmod (fun p => p <| uninitedSessList_ := rest |>);
       mmod (fun p => p <| sessionMap_ := <[id := c]> (sessionMap_ p) |>)) p Q) ->
  (uninitedSessList_ p = [] -> wp safe (notifyDeadSessionId id) p Q) ->
  wp safe (handleControlMessage (encode_command (SessionCreated id))) p Q.
Proof.
  intros Hid Hcons Hnil. destruct (read_id_command RSP_CREATE_SESSION id Hid) as [H1 H2].
  eapply wp_command; [reflexivity|]. cbv zeta. simpl (_ =? _). cbv iota.
  wp_steps. eapply wp_lift; [exact H2|]. rewrite H1. wp_steps.
  destruct (uninitedSessList_ p) as [|c rest]; [by apply Hnil | by apply Hcons].
Qed.

Lemma wp_destroy id p (Q : unit -> KcpProxy -> list action -> Prop) :
  is_u32 id ->
  (forall c, sessionMap_ p !! id = Some c ->
     wp safe (do _ <- lock c; do alive <- mget alive; on_session c (forceConnClose alive)) p Q) ->
  (sessionMap_ p !! id = None -> Q tt p []) ->
  wp safe (handleControlMessage (encode_command (DestroySession id))) p Q.
Proof.
  intros Hid Hsome Hnone. destruct (read_id_command CMD_DESTROY_SESSION id Hid) as [H1 H2].
  eapply wp_command; [reflexivity|]. cbv zeta. simpl (_ =? _). cbv iota.
  wp_steps. eapply wp_lift; [exact H2|]. rewrite H1. wp_steps.
  destruct (sessionMap_ p !! id) as [c|]; [by apply Hsome | wp_steps; by apply Hnone].
Qed.

(** The session at the head of the list got the number [id]. *)
Lemma proxy_wf_number p c rest s s' k id :
  proxy_wf p -> uninitedSessList_ p = c :: rest -> live p c s ->
  session_wf s' -> ds_conn s' = ds_conn s -> id_ s' = id -> id <> 0 -> ds_kcp s' = Some k -> ds_kcp s = None ->
  proxy_wf (set_session c s' p <| uninitedSessList_ := rest |> <| sessionMap_ := <[id := c]> (sessionMap_ p) |>).
Proof.
  intros Hp Hlist Hs Hw Hc Hid Hne Hk Hk0.
  pose proof (pw_nodup _ Hp) as Hnd. rewrite Hlist in Hnd. apply NoDup_cons in Hnd as [Hnin Hnd].
  set (p' := upd sessionMap_ _ _).
  assert (Hl : forall d, conns p' !! d = if decide (d = c)
    then Some {| cn_connected := true; cn_context := Some s' |} else conns p !! d)
    by (intros d; exact (set_session_lookup c s' p d _ Hs)).
  constructor.
  - apply (pw_control _ Hp).
  - done.
  - intros d Hd. unfold live. rewrite Hl.
    case_decide; [by subst|]. apply (pw_list _ Hp). rewrite Hlist. by right.
  - intros i d Hd. unfold live. rewrite Hl.
    change (<[id := c]> (sessionMap_ p) !! i = Some d) in Hd.
    apply lookup_insert_Some in Hd as [[<- <-]|[Hi Hd]].
    + split; [done|]. exists s', k. by rewrite decide_True.
    + apply (pw_map _ Hp) in Hd as (Hi0 & t & kt & Ht & Hkt & Hit). split; [done|].
      exists t, kt. case_decide; [|done]. subst d. unfold live in *. rewrite Hs in Ht. injection Ht as ->. congruence.
  - intros d dn. rewrite Hl. case_decide as Hd.
    + intros [= <-]. subst d. exists s'. destruct (live_wf _ _ _ Hp Hs) as [_ Hcc]. simpl.
      split_and!; [done | done | congruence | congruence].
    + intros H. apply (pw_conn _ Hp) in H as (t & Ht & Htw & Htc & Hin). exists t. split_and!; try done.
      intros H1 H2. specialize (Hin H1 H2). rewrite Hlist in Hin. by apply elem_of_cons in Hin as [?|?].
  - intros d Hd. rewrite Hl.
    case_decide; [|by apply (pw_fresh _ Hp)]. subst d. pose proof (pw_fresh _ Hp c Hd).
    unfold live in Hs. congruence.
Qed.

Lemma set_session_same c s p : live p c s -> set_session c s p = p.
Proof.
  intros Hs. unfold set_session, live in *.
  assert (E : alter (fun cn => {| cn_connected := cn_connected cn; cn_context := Some s |}) c (conns p) = conns p).
  { apply map_eq. intros d. destruct (decide (d = c)) as [->|]; [|by rewrite lookup_alter_ne].
    rewrite lookup_alter_eq. by rewrite Hs. }
  rewrite E. by destruct p.
Qed.

(** What a control message does.  A new session number (not 0) goes to the
    client that has waited longest: its session is opened, everything the client
    sent before is queued in order, and the number is registered; without a
    waiting client the number is reported dead.  A destroyed session's connection
    is closed by force; an unknown number is ignored. *)
Theorem control_commands id p :
  is_u32 id -> proxy_wf p ->
  match uninitedSessList_ p with
  | c :: rest => id <> 0 -> exists s s' k p', live p c s /\
      handleControlMessage (encode_command (SessionCreated id)) p = Ok (tt, p', []) /\ proxy_wf p' /\
      sessionMap_ p' = <[id := c]> (sessionMap_ p) /\ uninitedSessList_ p' = rest /\
      live p' c s' /\ id_ s' = id /\ payloadList_ s' = [] /\ ds_kcp s' = Some k /\
      queued k = stream 1376 (payloadList_ s) /\
      (forall d, d <> c -> session_of d p' = session_of d p)
  | [] => exists ctrl, handleControlMessage (encode_command (SessionCreated id)) p =
        Ok (tt, p <| controlSess_ := ctrl |>, []) /\ control_wf ctrl /\
      kcp_snd_queue (kcp_ ctrl) = kcp_snd_queue (kcp_ (controlSess_ p)) ++
        send_segments (kcp_ (controlSess_ p)) (encode_command (DestroySession id))
  end /\
  handleControlMessage (encode_command (DestroySession id)) p =
    Ok (tt, p, match sessionMap_ p !! id with Some c => [TcpForceClose c] | None => [] end).
Proof.
  intros Hid Hp. split.
  - destruct (uninitedSessList_ p) as [|c rest] eqn:Hlist.
    + assert (H : wp safe (handleControlMessage (encode_command (SessionCreated id))) p (fun _ p' es =>
        exists ctrl, p' = p <| controlSess_ := ctrl |> /\ es = [] /\ control_wf ctrl /\
        kcp_snd_queue (kcp_ ctrl) = kcp_snd_queue (kcp_ (controlSess_ p)) ++
          send_segments (kcp_ (controlSess_ p)) (encode_command (DestroySession id)))).
      { apply wp_created; [done | congruence |]. intros _.
        apply wp_control_msg; [done | done | vm_compute; done |]. eauto 10. }
      apply wp_elim in H as ([] & p' & es & Heq & ctrl & -> & -> & Hc & Hq). by exists ctrl.
    + intros Hne. destruct (pw_list _ Hp c) as (s & Hs & Hk); [rewrite Hlist; by left|].
      destruct (live_wf _ _ _ Hp Hs) as [Hw Hc].
      assert (H : wp safe (handleControlMessage (encode_command (SessionCreated id))) p (fun _ p' es =>
        es = [] /\ exists s' k, session_wf s' /\ ds_conn s' = ds_conn s /\ id_ s' = id /\ payloadList_ s' = [] /\
        ds_kcp s' = Some k /\ queued k = stream 1376 (payloadList_ s) /\
        p' = set_session c s' p <| uninitedSessList_ := rest |> <| sessionMap_ := <[id := c]> (sessionMap_ p) |>)).
      { apply wp_created; [done | | congruence]. intros c' rest' Heq.
        rewrite Hlist in Heq. injection Heq as <- <-. wp_steps. eapply wp_lock; [exact Hs|]. wp_steps.
        eapply wp_member; [by apply live_session|]. eapply wp_mono; [by apply wp_session_init|].
        intros [] s' es (-> & Hw' & Hid' & Hc' & Hp' & k & Hk' & _ & Hq). wp_steps. split; [done|].
        by exists s', k. }
      apply wp_elim in H as ([] & p' & es & Heq & -> & s' & k & Hw' & Hc' & Hid' & Hpl & Hk' & Hq & Hp').
      exists s, s', k, p'. split_and!; try done; subst p'; try done.
      * by eapply proxy_wf_number.
      * unfold live. etransitivity; [exact (set_session_lookup c s' p c _ Hs)|]. by rewrite decide_True.
      * intros d Hd. change (session_of d (set_session c s' p) = session_of d p).
        rewrite session_of_set by (by eexists). by rewrite decide_False.
  - assert (H : wp safe (handleControlMessage (encode_command (DestroySession id))) p (fun _ p' es =>
      p' = p /\ es = match sessionMap_ p !! id with Some c => [TcpForceClose c] | None => [] end)).
    { apply wp_destroy; [done | | by intros ->]. intros c Hm. rewrite Hm.
      destruct (pw_map _ Hp id c Hm) as (_ & s & k & Hs & Hk & _). destruct (live_wf _ _ _ Hp Hs) as [_ Hc].
      wp_steps. eapply wp_lock; [exact Hs|]. wp_steps. eapply wp_member; [by apply live_session|].
      unfold forceConnClose. wp_steps. apply wp_assert; [rewrite Hc; by eapply live_alive|]. wp_steps.
      rewrite Hc. split; [by apply set_session_same | done]. }
    apply wp_elim in H as ([] & p' & es & Heq & -> & ->). done.
Qed.

Lemma control_commands_witness :
  (is_u32 77 /\ proxy_wf demo_proxy /\ uninitedSessList_ demo_proxy = [0%nat; 1%nat]) /\
  (77 <> 0 -> exists s s' k p', live demo_proxy 0 s /\
      handleControlMessage (encode_command (SessionCreated 77)) demo_proxy = Ok (tt, p', []) /\ proxy_wf p' /\
      sessionMap_ p' = <[77 := 0%nat]> (sessionMap_ demo_proxy) /\ uninitedSessList_ p' = [1%nat] /\
      live p' 0 s' /\ id_ s' = 77 /\ payloadList_ s' = [] /\ ds_kcp s' = Some k /\
      queued k = stream 1376 (payloadList_ s) /\
      (forall d, d <> 0%nat -> session_of d p' = session_of d demo_proxy)).
Proof.
  assert (Hid : is_u32 77) by (unfold is_u32; lia).
  assert (Hl : uninitedSessList_ demo_proxy = [0%nat; 1%nat]) by (vm_compute; reflexivity).
  split; [split; [exact Hid | split; [exact (proj1 demo_proxy_wf) | exact Hl]]|].
  destruct (control_commands 77 demo_proxy Hid (proj1 demo_proxy_wf)) as [H _].
  rewrite Hl in H. exact H.
Defined.

(** ** Relaying *)

(** The proxy relays both ways.  Bytes of a client are kept in order until the
    session has its number and are queued as one KCP message afterwards, and the
    connection's buffer is empty then; a datagram for a registered number goes
    through KCP and at most one message - the first complete one, whole - is sent
    to the client that owns the number and to no other; a number nobody owns is
    reported dead over the control session. *)
Theorem proxy_relays g p :
  proxy_wf p ->
  (forall c s buf, live p c s -> Z.of_nat (length (contents buf)) <= MESSAGE_MAX ->
     onMessage c buf p = Ok (retrieveAll buf, set_session c (match ds_kcp s with
       | None => s <| payloadList_ := payloadList_ s ++ [contents buf] |>
       | Some k => s <| ds_kcp := match ikcp_send k (contents buf) (Z.of_nat (length (contents buf))) with
                                  | Ok (_, k') => Some k' | Crash _ => None end |> end) p, []) /\
     forall k, ds_kcp s = Some k -> exists k',
       ikcp_send k (contents buf) (Z.of_nat (length (contents buf))) = Ok (0, k') /\
       queued k' = queued k ++ msg_frags 1376 (contents buf)) /\
  (forall c s k d, live p c s -> ds_kcp s = Some k -> ack_room s -> ikcp_getconv d = id_ s ->
     sessionMap_ p !! id_ s = Some c -> Z.of_nat (length d) <= DATAGRAM_MAX ->
     exists k', let k1 := (ikcp_input k d).2 in
     (handle g (Datagram (Some d)) p = Ok (tt, set_session c (s <| ds_kcp := Some k' |>) p, []) /\ k' = k1) \/
     (exists msg, msg <> [] /\ ikcp_recv k1 true (ikcp_peeksize k1) = Ok (Z.of_nat (length msg), msg, k') /\
        handle g (Datagram (Some d)) p =
          Ok (tt, set_session c (s <| ds_kcp := Some k' |>) p, [TcpSend c msg]))) /\
  (forall d, ikcp_getconv d <> 0 -> sessionMap_ p !! ikcp_getconv d = None ->
     exists ctrl, handle g (Datagram (Some d)) p = Ok (tt, p <| controlSess_ := ctrl |>, []) /\
       kcp_snd_queue (kcp_ ctrl) = kcp_snd_queue (kcp_ (controlSess_ p)) ++
         send_segments (kcp_ (controlSess_ p)) (encode_command (DestroySession (ikcp_getconv d)))).
Proof.
  intros Hp. split_and!.
  - intros c s buf Hs Hl. destruct (live_wf _ _ _ Hp Hs) as [Hw Hc]. split.
    + assert (H : wp safe (onMessage c buf) p (fun b p' es => b = retrieveAll buf /\ es = [] /\
        p' = set_session c (match ds_kcp s with
         | None => s <| payloadList_ := payloadList_ s ++ [contents buf] |>
         | Some k => s <| ds_kcp := match ikcp_send k (contents buf) (Z.of_nat (length (contents buf))) with
                                    | Ok (_, k') => Some k' | Crash _ => None end |> end) p)).
      { unfold onMessage, get_context. wp_steps. rewrite (live_session _ _ _ Hs). wp_steps.
        eapply wp_member; [by apply live_session|]. unfold sendToTunnel. wp_steps.
        destruct (ds_kcp s) as [k|] eqn:Hk; [|by wp_steps].
        destruct (sw_inited _ Hw k Hk) as [_ Hep].
        destruct (endpoint_accepts _ k (contents buf) Hep Hl) as (k' & Heq & _).
        wp_steps. eapply wp_kcp_call; [exact Hk | exact Heq |]. wp_steps.
        rewrite s32_small in Heq by (unfold is_s32, MESSAGE_MAX in *; lia). by rewrite Heq. }
      apply wp_elim in H as (b & p' & es & Heq & -> & -> & ->). done.
    + intros k Hk. destruct (sw_inited _ Hw k Hk) as [_ Hep].
      destruct (endpoint_accepts _ k (contents buf) Hep Hl) as (k' & Heq & _ & _ & Hq).
      rewrite s32_small in Heq by (unfold is_s32, MESSAGE_MAX in *; lia). by exists k'.
  - intros c s k d Hs Hk Hroom Hconv Hm Hl. destruct (live_wf _ _ _ Hp Hs) as [Hw Hc].
    destruct (pw_map _ Hp _ _ Hm) as [Hne _].
    assert (H : wp safe (handle g (Datagram (Some d))) p (fun _ p' es => exists k',
      p' = set_session c (s <| ds_kcp := Some k' |>) p /\
      ((es = [] /\ k' = (ikcp_input k d).2) \/ exists msg, msg <> [] /\ es = [TcpSend c msg] /\
         ikcp_recv (ikcp_input k d).2 true (ikcp_peeksize (ikcp_input k d).2) =
           Ok (Z.of_nat (length msg), msg, k')))).
    { cbn [handle]. unfold onKcpTunnelMessage. cbv zeta. rewrite Hconv. bcase; [done|]. wp_steps. rewrite Hm.
      wp_steps. eapply wp_lock; [exact Hs|]. wp_steps. eapply wp_member; [by apply live_session|].
      eapply wp_mono; [apply (wp_recvFromTunnel (alive p) s k); try done; rewrite Hc; by eapply live_alive|].
      intros ret s' es [_ Hcase]. wp_steps. destruct (ikcp_input k d) as [inputRet k1]. simpl.
      destruct Hcase as [(_ & _ & -> & ->)|[(_ & _ & _ & -> & ->)|(_ & _ & msg & k2 & Hrecv & Hmsg & -> & ->)]];
        [exists k1; auto | exists k1; auto |].
      exists k2. split; [done|]. right. exists msg. by rewrite Hc. }
    apply wp_elim in H as ([] & p' & es & Heq & k' & -> & Hcase). exists k'.
    destruct Hcase as [[-> ->]|(msg & Hmsg & -> & Hrecv)]; [by left|]. right. by exists msg.
  - intros d Hne Hm.
    assert (H : wp safe (handle g (Datagram (Some d))) p (fun _ p' es => exists ctrl,
      p' = p <| controlSess_ := ctrl |> /\ es = [] /\
      kcp_snd_queue (kcp_ ctrl) = kcp_snd_queue (kcp_ (controlSess_ p)) ++
        send_segments (kcp_ (controlSess_ p)) (encode_command (DestroySession (ikcp_getconv d))))).
    { cbn [handle]. unfold onKcpTunnelMessage. cbv zeta. rewrite (proj2 (Z.eqb_neq _ _) Hne). wp_steps. rewrite Hm.
      apply wp_control_msg; [done | done | vm_compute; done |]. eauto 10. }
    apply wp_elim in H as ([] & p' & es & Heq & ctrl & -> & -> & Hq). by exists ctrl.
Qed.

Lemma proxy_relays_witness :
  proxy_wf demo_proxy /\
  onMessage 0 demo_buffer demo_proxy =
    Ok (retrieveAll demo_buffer, set_session 0 (new_KcpDataSession 0 <| payloadList_ := [map z2b [65; 66; 67]] |>) demo_proxy, []) /\
  exists ctrl, handle 5 (Datagram (Some [z2b 9; z2b 0; z2b 0])) demo_proxy =
    Ok (tt, demo_proxy <| controlSess_ := ctrl |>, []) /\
    kcp_snd_queue (kcp_ ctrl) = kcp_snd_queue (kcp_ (controlSess_ demo_proxy)) ++
      send_segments (kcp_ (controlSess_ demo_proxy)) (encode_command (DestroySession 9)).
Proof.
  destruct (proxy_relays 5 demo_proxy (proj1 demo_proxy_wf)) as (H1 & _ & H3).
  split; [exact (proj1 demo_proxy_wf)|]. split.
  - assert (Hs : live demo_proxy 0 (new_KcpDataSession 0)) by (vm_compute; reflexivity).
    exact (proj1 (H1 0%nat (new_KcpDataSession 0) demo_buffer Hs ltac:(vm_compute; done))).
  - exact (H3 [z2b 9; z2b 0; z2b 0] ltac:(vm_compute; done) ltac:(vm_compute; done)).
Defined.

(** A server that hands out the number 0 brings the proxy down: the entry for 0 is
    not removed when its client leaves ([sess->id() != 0]), so the next timer tick
    finds an expired weak pointer and its assertion fails. *)
Theorem zero_number_ends_process :
  match handleControlMessage (encode_command (SessionCreated 0)) demo_proxy with
  | Ok (_, p, _) => for_ [Disconnected 0; Destroyed 0; Tick (fun _ => (0, 0))] (handle 5) p = Crash AssertFailed
  | Crash _ => False
  end.
Proof. vm_compute. reflexivity. Qed.
