(* ===== verification/KcpDesk.v ===== *)
(** * What the proxy does in its runs

    The behaviour of [KcpProxy.v] over whole runs, against a specification that
    knows nothing of sessions, KCP or weak pointers.  Control messages never come
    through ([control_messages_lost]), so what a run leaves behind is: the
    clients, each with the data it has sent, those still connected waiting for a
    number in the order in which they came, and the commands for the server that
    lie in the queue of the control session. *)

From S2P Require Import Prelude Effects Endian Buffer KcpBase KcpWire KcpSend KcpRecv KcpInput.
From S2P Require Import KcpInv KcpFlush KcpPeerOps KcpEndpoint ControlSession KcpDataSession KcpProxy.

Open Scope outcome_scope.
Open Scope handler_scope.

(** ** The specification *)

Record Desk := Desk_ {
  next_client : nat;
  waiting : list nat;                       (* connected, without a number, first come first *)
  clients : gmap nat (bool * list bytes);   (* connected, and what it has sent *)
  commands : list bytes                     (* queued for the server *)
}.

Definition new_Desk : Desk := Desk_ 0 [] ∅ [].

Definition desk_step (d : Desk) (e : event) : Desk :=
  match e with
  | Connected => Desk_ (S (next_client d)) (waiting d ++ [next_client d])
      (<[next_client d := (true, [])]> (clients d)) (commands d ++ [encode_command CreateSession])
  | Message c buf => Desk_ (next_client d) (waiting d)
      (alter (fun cl => (cl.1, cl.2 ++ [contents buf])) c (clients d)) (commands d)
  | Disconnected c => Desk_ (next_client d) (filter (fun w => w <> c) (waiting d))
      (alter (fun cl => (false, cl.2)) c (clients d)) (commands d)
  | Destroyed c => Desk_ (next_client d) (waiting d) (delete c (clients d)) (commands d)
  | Datagram (Some data) =>
      if ikcp_getconv data =? 0 then d
      else Desk_ (next_client d) (waiting d) (clients d)
             (commands d ++ [encode_command (DestroySession (ikcp_getconv data))])
  | Datagram None | Tick _ => d
  end.

(** What the event loop can deliver: data and the end of a connection that is up,
    and the end of the object of one that is down. *)
Definition possible (d : Desk) (e : event) : Prop :=
  match e with
  | Message c _ | Disconnected c => exists sent, clients d !! c = Some (true, sent)
  | Destroyed c => exists sent, clients d !! c = Some (false, sent)
  | _ => True
  end.

Fixpoint possible_run (d : Desk) (evs : list event) : Prop :=
  match evs with
  | [] => True
  | e :: evs => possible d e /\ possible_run (desk_step d e) evs
  end.

(** ** The proxy as a desk *)

Definition client_of (cn : Connection) : bool * list bytes :=
  (cn_connected cn, match cn_context cn with Some s => payloadList_ s | None => [] end).

Definition desk_of (p : KcpProxy) : Desk := {|
  next_client := nextConn p;
  waiting := uninitedSessList_ p;
  clients := client_of <$> conns p;
  commands := map seg_data (kcp_snd_queue (kcp_ (controlSess_ p)))
|}.

(** The control session sends messages of up to 1376 bytes in one segment. *)
Definition mute (k : ikcpcb) : Prop := kcp_mss k = 1376 /\ kcp_stream k = 0.

(** The session of a client that has no number. *)
Definition unnumbered (s : KcpDataSession) : Prop := ds_kcp s = None /\ id_ s = 0.

Record desk_inv (p : KcpProxy) : Prop := {
  di_map : sessionMap_ p = ∅;
  di_mute : mute (kcp_ (controlSess_ p));
  di_conns c cn : conns p !! c = Some cn -> exists s, cn_context cn = Some s /\ unnumbered s;
  di_nodup : NoDup (uninitedSessList_ p);
  di_fresh c : c ∈ uninitedSessList_ p -> (c < nextConn p)%nat
}.

(** ** The control session *)

Lemma mute_send k cmd : mute k -> (0 < length cmd <= 5)%nat ->
  exists k', ikcp_send k cmd (s32 (Z.of_nat (length cmd))) = Ok (0, k') /\ mute k' /\
    map seg_data (kcp_snd_queue k') = map seg_data (kcp_snd_queue k) ++ [cmd].
Proof.
  intros [Hm Hs] Hl. rewrite s32_small by (unfold is_s32; lia). unfold ikcp_send. rewrite Hm, Hs.
  change (negb (1376 >? 0)) with false. change (negb (0 =? 0)) with false. cbn [andb]. cbv iota.
  rewrite Hm, Hs. change (negb (0 =? 0)) with false. cbn [andb]. cbv iota. bcase; [lia|]. unfold frag_count. change (s32 1376) with 1376. bcase; [|lia].
  change (u32 1 >=? IKCP_WND_RCV) with false. change (1 =? 0) with false. cbv iota.
  change (Z.to_nat 1) with 1%nat. cbn [send_loop]. rewrite Hm. change (s32 1376) with 1376.
  eexists. split; [reflexivity|]. split; [done|]. cbn.
  rewrite map_app. cbn. do 2 f_equal. repeat bcase; try lia. rewrite take_ge; [done | lia].
Qed.

Lemma recv_frame k buffer len ret out k' : ikcp_recv k buffer len = Ok (ret, out, k') -> erase_recv k' = erase_recv k.
Proof.
  unfold ikcp_recv. destruct (kcp_rcv_queue k) as [|seg queue]; [by intros [= _ _ <-]|].
  cbv zeta. destruct (_ <? 0); [by intros [= _ _ <-]|]. destruct (_ >? _); [by intros [= _ _ <-]|].
  pose proof (recv_merge_erase (seg :: queue) (len <? 0) buffer [] 0 k) as Her.
  destruct (recv_merge _ _ _ _ _ _) as [[o l] k1]. cbn in Her. destruct (negb _); [done|].
  intros [= _ _ <-]. unfold erase_recv. rewrite <- Her, <- (move_ready_erase (kcp_rcv_buf k1) k1).
  by destruct (_ && _).
Qed.

(** A datagram leaves what is queued alone. *)
Lemma parseMsg_mute c data ret ary c' : parseMsg c data [] = Ok (ret, ary, c') -> mute (kcp_ c) ->
  mute (kcp_ c') /\ kcp_snd_queue (kcp_ c') = kcp_snd_queue (kcp_ c).
Proof.
  intros H [Hm Hs]. pose proof (input_frame (kcp_ c) data) as E. cbv zeta in E.
  unfold parseMsg in H. destruct (ikcp_input _ _) as [inputRet k]. cbn [snd] in E.
  assert (Hk : mute k /\ kcp_snd_queue k = kcp_snd_queue (kcp_ c)).
  { injection E as _ _ E1 E2 _ _ _ E3. unfold mute. by rewrite E1, E2. }
  destruct (inputRet <? 0); [by injection H as _ _ <-|]. destruct (_ =? 0); [by injection H as _ _ <-|].
  apply bind_ok in H as (payload & _ & H). apply bind_ok in H as ([[ret1 out] k1] & Hr & H).
  apply recv_frame in Hr as Er. apply bind_ok in H as (p2 & _ & H). apply bind_ok in H as (_ & _ & H).
  apply bind_ok in H as (p3 & _ & H). apply bind_ok in H as ([buf ary1] & _ & [= _ _ <-]).
  destruct Hk as [[K1 K2] K3]. cbn [kcp_]. unfold mute.
  pose proof (f_equal kcp_mss Er : kcp_mss k1 = kcp_mss k) as ->.
  pose proof (f_equal kcp_stream Er : kcp_stream k1 = kcp_stream k) as ->.
  by pose proof (f_equal kcp_snd_queue Er : kcp_snd_queue k1 = kcp_snd_queue k) as ->.
Qed.

Lemma wp_command_queued cmd p (C : crash -> Prop) Q : mute (kcp_ (controlSess_ p)) -> (0 < length cmd <= 5)%nat ->
  (forall ctrl, mute (kcp_ ctrl) ->
     map seg_data (kcp_snd_queue (kcp_ ctrl)) = map seg_data (kcp_snd_queue (kcp_ (controlSess_ p))) ++ [cmd] ->
     Q tt (p <| controlSess_ := ctrl |>) []) ->
  wp C (control_send cmd (Z.of_nat (length cmd))) p Q.
Proof.
  intros Hm Hl HQ. destruct (mute_send _ cmd Hm Hl) as (k' & Hk & Hm' & Hq).
  unfold control_send, sendMsg. wp_steps. eapply wp_lift; [by rewrite Hk|]. wp_steps. by apply HQ.
Qed.

(** ** One event *)

Lemma desk_client p c (b : bool) sent : clients (desk_of p) !! c = Some (b, sent) -> desk_inv p ->
  exists s, conns p !! c = Some {| cn_connected := b; cn_context := Some s |} /\ payloadList_ s = sent /\ unnumbered s.
Proof.
  intros H Hi. cbn in H. rewrite lookup_fmap in H. destruct (conns p !! c) as [[up ctx]|] eqn:Hc; [|done].
  destruct (di_conns _ Hi _ _ Hc) as (s & Hs & Hu). cbn in Hs. subst ctx. injection H as -> <-. by exists s.
Qed.

Lemma alter_insert {A} (f : A -> A) (m : gmap nat A) c x : m !! c = Some x -> alter f c m = <[c := f x]> m.
Proof.
  intros Hc. apply map_eq. intros d. destruct (decide (d = c)) as [->|Hd].
  - by rewrite lookup_alter_eq, lookup_insert_eq, Hc.
  - by rewrite lookup_alter_ne, lookup_insert_ne.
Qed.

Lemma insert_alter {A} (m : gmap nat A) c x y : m !! c = Some x -> <[c := y]> m = alter (fun _ => y) c m.
Proof. intros Hc. by rewrite (alter_insert _ _ _ _ Hc). Qed.

Lemma filter_absent (c : nat) (l : list nat) : c ∉ l -> filter (fun w => w <> c) l = l.
Proof.
  induction l as [|d l IH]; intros Hc; [done|]. apply not_elem_of_cons in Hc as [Hcd Hc].
  rewrite filter_cons, decide_True by congruence. by rewrite IH.
Qed.

Lemma erase_first_filter (c : nat) (l : list nat) : NoDup l -> erase_first c l = filter (fun w => w <> c) l.
Proof.
  induction l as [|d l IH]; intros Hn; [done|]. apply NoDup_cons in Hn as [Hd Hn]. cbn [erase_first].
  rewrite filter_cons. case_bool_decide as Hc.
  - subst d. rewrite decide_False by tauto. by rewrite filter_absent.
  - rewrite decide_True by done. by rewrite IH.
Qed.

(** The state after a change of the connections. *)
Lemma desk_inv_insert p c cn s n l ctrl : desk_inv p -> cn_context cn = Some s -> unnumbered s -> mute (kcp_ ctrl) ->
  NoDup l -> (forall d, d ∈ l -> (d < n)%nat) ->
  desk_inv {| controlSess_ := ctrl; sessionMap_ := sessionMap_ p; uninitedSessList_ := l;
              conns := <[c := cn]> (conns p); nextConn := n |}.
Proof.
  intros Hi Hs Hu Hm Hn Hf. constructor; cbn; try done; [apply Hi|]. intros d dn.
  rewrite lookup_insert_Some. intros [[<- <-]|[_ Hd]]; [by exists s | by eapply di_conns].
Qed.

Definition command_datagram (e : event) : Prop := exists d, e = Datagram (Some d) /\ ikcp_getconv d = 0.

Abbreviation steps_to p e m :=
  (wp (fun _ => command_datagram e) m p (fun _ p' es => desk_inv p' /\ desk_of p' = desk_step (desk_of p) e /\ es = [])).

Lemma desk_connected g p : desk_inv p -> steps_to p Connected (handle g Connected).
Proof.
  intros Hi. cbn [handle]. wp_steps. unfold onConnection. wp_steps. cbn. rewrite lookup_insert_eq. cbn. wp_steps.
  match goal with |- wp _ _ ?x _ => set (p1 := x) end.
  assert (E : p1 = {| controlSess_ := controlSess_ p; sessionMap_ := sessionMap_ p;
    uninitedSessList_ := uninitedSessList_ p ++ [nextConn p];
    conns := <[nextConn p := {| cn_connected := true; cn_context := Some (new_KcpDataSession (nextConn p)) |}]> (conns p);
    nextConn := S (nextConn p) |}).
  { unfold p1, set_session. cbn. f_equal. rewrite (alter_insert _ _ _ _ (lookup_insert_eq _ _ _)). by rewrite insert_insert_eq. }
  rewrite E. clear p1 E.
  eapply (wp_command_queued [z2b CMD_CREATE_SESSION]); [apply Hi | cbn; lia|]. intros ctrl Hm Hq. split_and!; [| |done].
  - apply (desk_inv_insert p _ _ (new_KcpDataSession (nextConn p))); try done.
    + apply NoDup_app. split_and!; [apply Hi | | apply NoDup_singleton].
      intros d Hd ->%list_elem_of_singleton. pose proof (di_fresh _ Hi _ Hd). lia.
    + intros d [Hd| ->%list_elem_of_singleton]%elem_of_app; [|cbn; lia]. pose proof (di_fresh _ Hi _ Hd). cbn; lia.
  - unfold desk_of. cbn in *. by rewrite Hq, fmap_insert.
Qed.

(** A client that exists changes. *)
Lemma desk_change p c b s cn' s' l f : desk_inv p ->
  conns p !! c = Some {| cn_connected := b; cn_context := Some s |} ->
  cn_context cn' = Some s' -> unnumbered s' -> client_of cn' = f (b, payloadList_ s) ->
  NoDup l -> (forall d, d ∈ l -> d ∈ uninitedSessList_ p) ->
  let p' := {| controlSess_ := controlSess_ p; sessionMap_ := sessionMap_ p; uninitedSessList_ := l;
               conns := <[c := cn']> (conns p); nextConn := nextConn p |} in
  desk_inv p' /\ desk_of p' = Desk_ (nextConn p) l (alter f c (client_of <$> conns p)) (commands (desk_of p)).
Proof.
  intros Hi Hc Hs Hu Hf Hn Hl p'. split.
  - apply (desk_inv_insert p _ _ s'); try done; [apply Hi|]. intros d Hd. by apply (di_fresh _ Hi), Hl.
  - unfold desk_of. cbn. f_equal. rewrite fmap_insert, Hf. symmetry. rewrite (alter_insert _ _ c (b, payloadList_ s)); [done|].
    by rewrite lookup_fmap, Hc.
Qed.

Lemma desk_message g p c buf : desk_inv p -> possible (desk_of p) (Message c buf) ->
  steps_to p (Message c buf) (handle g (Message c buf)).
Proof.
  intros Hi [sent Hc]. destruct (desk_client _ _ _ _ Hc Hi) as (s & Hs & <- & Hk & Hid).
  assert (Hso : session_of c p = Some s) by (unfold session_of; by rewrite Hs).
  cbn [handle]. wp_steps. unfold onMessage, get_context. wp_steps. rewrite Hso. wp_steps.
  eapply wp_member; [exact Hso|]. unfold sendToTunnel. wp_steps. rewrite Hk. wp_steps.
  unfold set_session. rewrite (alter_insert _ _ _ _ Hs). cbn [cn_connected].
  destruct (desk_change p c true s {| cn_connected := true; cn_context := Some (s <| payloadList_ := payloadList_ s ++ [contents buf] |>) |}
    (s <| payloadList_ := payloadList_ s ++ [contents buf] |>) (uninitedSessList_ p)
    (fun cl => (cl.1, cl.2 ++ [contents buf])) Hi Hs) as [H1 H2]; try done. apply Hi.
Qed.

Lemma desk_disconnected g p c : desk_inv p -> possible (desk_of p) (Disconnected c) ->
  steps_to p (Disconnected c) (handle g (Disconnected c)).
Proof.
  intros Hi [sent Hc]. destruct (desk_client _ _ _ _ Hc Hi) as (s & Hs & <- & Hk & Hid).
  cbn [handle]. wp_steps. rewrite (alter_insert _ _ _ _ Hs). cbn [cn_connected cn_context].
  unfold onConnection. wp_steps. cbn. rewrite lookup_insert_eq. cbn. unfold get_context. wp_steps.
  unfold session_of. cbn. rewrite lookup_insert_eq. cbn. wp_steps. rewrite Hid. cbn. wp_steps.
  destruct (desk_change p c true s {| cn_connected := false; cn_context := Some s |} s
    (filter (fun w => w <> c) (uninitedSessList_ p)) (fun cl => (false, cl.2)) Hi Hs) as [H1 H2]; try done.
  - apply NoDup_filter, Hi.
  - intros d [_ Hd]%list_elem_of_filter. done.
  - rewrite erase_first_filter by apply Hi. split_and!; [exact H1 | exact H2 | done].
Qed.

Lemma desk_destroyed g p c : desk_inv p -> possible (desk_of p) (Destroyed c) ->
  steps_to p (Destroyed c) (handle g (Destroyed c)).
Proof.
  intros Hi [sent Hc]. destruct (desk_client _ _ _ _ Hc Hi) as (s & Hs & <- & Hk & Hid).
  assert (Hso : session_of c p = Some s) by (unfold session_of; by rewrite Hs).
  cbn [handle]. wp_steps. eapply wp_member; [exact Hso|]. unfold delete_KcpDataSession. wp_steps. rewrite Hk. wp_steps.
  unfold set_session. cbn. rewrite (alter_insert _ _ _ _ Hs), delete_insert_eq. split_and!; [| |done].
  - constructor; cbn; try apply Hi. intros d dn [_ Hd]%lookup_delete_Some. by eapply di_conns.
  - unfold desk_of. cbn. by rewrite fmap_delete.
Qed.

Lemma desk_datagram g p data : desk_inv p -> steps_to p (Datagram data) (handle g (Datagram data)).
Proof.
  intros Hi. cbn [handle]. unfold onKcpTunnelMessage. destruct data as [d|]; [|by wp_steps].
  cbv zeta. cbn [desk_step]. destruct (ikcp_getconv d =? 0) eqn:Hz.
  - wp_steps. apply wp_lift_crash. destruct (parseMsg _ _ _) as [[[ret ary] ctrl]|] eqn:Hp.
    2:{ exists d. split; [done|]. by apply Z.eqb_eq. }
    wp_steps. pose proof (parseMsg_none _ _ _ _ _ Hp) as ->.
    destruct (parseMsg_mute _ _ _ _ _ Hp (di_mute _ Hi)) as [Hm Hq]. wp_steps. split_and!; [| |done].
    + constructor; try apply Hi. exact Hm.
    + unfold desk_of. cbn. by rewrite Hq.
  - wp_steps. rewrite (di_map _ Hi), lookup_empty.
    apply (wp_command_queued (encode_command (DestroySession (ikcp_getconv d)))); [apply Hi | cbn; lia|].
    intros ctrl Hm Hq. split_and!; [| |done].
    + constructor; try apply Hi. exact Hm.
    + unfold desk_of. cbn in *. by rewrite Hq.
Qed.

Lemma desk_handle g p e : desk_inv p -> possible (desk_of p) e -> steps_to p e (handle g e).
Proof.
  intros Hi He. destruct e as [|c buf|c|c|d|clock].
  - by apply desk_connected.
  - by apply desk_message.
  - by apply desk_disconnected.
  - by apply desk_destroyed.
  - by apply desk_datagram.
  - cbn [handle]. unfold onUpdateTunnelTimer. wp_steps. rewrite (di_map _ Hi). unfold ordered. rewrite map_to_list_empty.
    cbn. by wp_steps.
Qed.

Lemma desk_new : desk_inv new_KcpProxy /\ desk_of new_KcpProxy = new_Desk.
Proof.
  split; [|reflexivity]. constructor; cbn; [done | by vm_compute | | constructor |].
  - intros c cn. by rewrite lookup_empty.
  - intros c Hc. by apply elem_of_nil in Hc.
Qed.

Lemma desk_run g evs : forall p, desk_inv p -> possible_run (desk_of p) evs ->
  match for_ evs (handle g) p with
  | Ok (_, p', actions) => desk_of p' = foldl desk_step (desk_of p) evs /\ actions = []
  | Crash _ => exists d, Datagram (Some d) ∈ evs /\ ikcp_getconv d = 0
  end.
Proof.
  induction evs as [|e evs IH]; intros p Hi Hp; [done|]. destruct Hp as [He Hp]. cbn [for_]. unfold mthen.
  pose proof (desk_handle g p e Hi He) as H. unfold wp in H.
  destruct (handle g e p) as [[[[] p1] es]|c].
  - destruct H as (Hi1 & Hd & ->). rewrite <- Hd in Hp. specialize (IH p1 Hi1 Hp). cbn [foldl]. rewrite <- Hd.
    destruct (for_ evs (handle g) p1) as [[[a p2] es2]|c]; [done|]. destruct IH as (d & Hin & Hz). exists d. split; [by right | done].
  - destruct H as (d & -> & Hz). exists d. split; [left | done].
Qed.

(** ** The property *)

(** C17.  What a run of the proxy leaves behind, exactly.  Whatever clients do and
    whatever arrives on the tunnel, in any order the event loop can deliver: the
    clients that are connected wait for their number in the order in which they
    came; every byte a client has sent is kept for it, message by message and in
    order, until its connection object is destroyed; and the queue of the control
    session holds one request per connection made and one notice for each
    datagram with a number other than 0, in the order of these events.  (That no number
    ever arrives and nothing leaves is C19.)  A run can only fail at a datagram
    with the number 0, for the control session (see
    [bare_segment_ends_process]). *)
Theorem proxy_keeps_clients g evs :
  possible_run new_Desk evs ->
  match for_ evs (handle g) new_KcpProxy with
  | Ok (_, p, _) => desk_of p = foldl desk_step new_Desk evs
  | Crash _ => exists d, Datagram (Some d) ∈ evs /\ ikcp_getconv d = 0
  end.
Proof.
  intros Hp. destruct desk_new as [Hi Hd]. rewrite <- Hd in *. pose proof (desk_run g evs _ Hi Hp) as H.
  destruct (for_ evs (handle g) new_KcpProxy) as [[[a p] es]|c]; [apply H | exact H].
Qed.

(** Three clients; the second sends twice, the first leaves, and a datagram comes
    for a session the proxy does not know. *)
Definition demo_text (l : list Z) : Buffer :=
  {| buffer_ := replicate 8 (z2b 0) ++ map z2b l; readerIndex_ := 8; writerIndex_ := 8 + Z.of_nat (length l) |}.
Definition desk_events : list event :=
  [Connected; Connected; Message 1 (demo_text [65; 66]); Connected; Message 1 (demo_text [67]); Disconnected 0;
   Datagram (Some (map z2b [9; 0; 0; 0; 81])); Tick (fun _ => (1, 0)); Destroyed 0].

Lemma desk_events_possible : possible_run new_Desk desk_events.
Proof. cbn. split_and!; try done; eexists; vm_compute; reflexivity. Qed.

Lemma proxy_keeps_clients_witness :
  possible_run new_Desk desk_events /\
  match for_ desk_events (handle 5) new_KcpProxy with
  | Ok (_, p, _) =>
      uninitedSessList_ p = [1; 2]%nat /\
      client_of <$> conns p !! 1%nat = Some (true, [map z2b [65; 66]; map z2b [67]]) /\
      length (commands (desk_of p)) = 4%nat
  | Crash _ => False
  end.
Proof.
  split; [exact desk_events_possible|].
  pose proof (proxy_keeps_clients 5 desk_events desk_events_possible) as H.
  assert (Hok : is_ok (for_ desk_events (handle 5) new_KcpProxy) = true) by (vm_compute; reflexivity).
  destruct (for_ desk_events (handle 5) new_KcpProxy) as [[[a p] es]|c]; [|discriminate Hok].
  split_and!.
  - exact (f_equal waiting H).
  - rewrite <- lookup_fmap. exact (f_equal (fun d => clients d !! 1%nat) H).
  - exact (f_equal (fun d => length (commands d)) H).
Defined.
