(* ===== verification/KcpServer.v ===== *)
(** * The server

    [KcpServer/KcpServerSession.cpp] and [KcpServer/KcpServer.cpp]: the UDP tunnel
    on one side, one TCP connection per session to the destination server on the
    other.  Session objects are numbered and stay in [sessions] as long as a timer,
    a TCP callback or the map refers to them; [sessionMap_] maps session ids to
    those numbers. *)

From S2P Require Import Prelude Effects Endian Buffer KcpBase KcpWire KcpSend KcpRecv KcpInput.
From S2P Require Import KcpInv KcpFlush KcpPeerOps KcpEndpoint ControlSession KcpDataSession KcpProxy.

Open Scope outcome_scope.
Open Scope handler_scope.

(** ** Observable actions of the server; [n] is a session object *)

Inductive server_action :=
  | SendTo (remote : Z) (buf : bytes)      (* sendto(g_udpServer, buf, ..., remote) *)
  | DestConnect (n : nat)                  (* client_->connect() *)
  | DestCheckLater (n : nat)               (* loop_->runAfter(3, onCheckConnection) *)
  | DestSend (n : nat) (data : bytes)      (* conn->send(data) *)
  | DestClose (n : nat).                   (* forceClose of the connection, in ~TcpClient *)

(** ** KcpServerSession *)

(** [ss_client] is the state of [client_]: reset, or without or with a
    connection; [ss_connLostCb] tells whether [connLostCb_] holds a function. *)
Record KcpServerSession := {
  ss_kcp : ikcpcb; ss_client : option bool; ss_remoteAddr : Z; ss_payloadList : list bytes;
  ss_lastActive : Z; ss_connLostCb : bool
}.

Definition eta_KcpServerSession (r : KcpServerSession) : KcpServerSession := {|
  ss_kcp := ss_kcp r; ss_client := ss_client r; ss_remoteAddr := ss_remoteAddr r;
  ss_payloadList := ss_payloadList r; ss_lastActive := ss_lastActive r; ss_connLostCb := ss_connLostCb r
|}.

#[export] Instance set_ss_kcp : Setter ss_kcp := ltac:(build_setter eta_KcpServerSession ss_kcp).
#[export] Instance set_ss_client : Setter ss_client := ltac:(build_setter eta_KcpServerSession ss_client).
#[export] Instance set_ss_payloadList : Setter ss_payloadList :=
  ltac:(build_setter eta_KcpServerSession ss_payloadList).
#[export] Instance set_ss_lastActive : Setter ss_lastActive :=
  ltac:(build_setter eta_KcpServerSession ss_lastActive).

Abbreviation ssession_op := (M KcpServerSession server_action).

Section session.
(** [g_udpServer], and what [sendto] finally returns for a datagram (the call is
    repeated while the socket buffer is full). *)
Variable g_udpServer : Z.
Variable sendto : Z -> bytes -> Z.

(** [KcpServerSession::output]; [peer] is the session's peer, [None] when KCP was
    created without a user pointer. *)
Definition server_output {S : Type} (peer : option Z) (buf : bytes) : M S server_action unit :=
  match peer with
  | None => mcrash AssertFailed
  | Some remote =>
      do _ <- massert (g_udpServer >=? 0);
      do _ <- massert (Z.of_nat (length buf) >? 0);
      do _ <- emit (SendTo remote buf);
      massert (sendto remote buf =? Z.of_nat (length buf))
  end.

(** The constructor; [now] is [Timestamp::now()] in microseconds. *)
Definition new_KcpServerSession (id remote now : Z) : KcpServerSession :=
  let kcp := ikcp_create id in
  let kcp := (ikcp_nodelay kcp 1 10 1 1).2 in
  let kcp := ikcp_setoutput kcp in
  {| ss_kcp := kcp; ss_client := Some false; ss_remoteAddr := remote; ss_payloadList := [];
     ss_lastActive := now; ss_connLostCb := false |}.

(** [ikcp_flush] and [ikcp_update] with the session's callback. *)
Definition server_output_call (f : ikcpcb -> outcome (ikcpcb * list bytes)) : ssession_op unit :=
  do kcp <- mget ss_kcp;
  do (kcp, out) <- lift (f kcp);
  do _ <- mmod (fun s => s <| ss_kcp := kcp |>);
  do remote <- mget ss_remoteAddr;
  for_ out (server_output (Some remote)).

(** The destructor; the control block is released after the flush. *)
Definition delete_KcpServerSession : ssession_op unit := server_output_call ikcp_flush.

(** [connectSvr(cb)] on session object [n]: [cb] is not stored. *)
Definition connectSvr (n : nat) : ssession_op unit :=
  do _ <- emit (DestConnect n);
  emit (DestCheckLater n).

(** [client_.reset()]: [~TcpClient] closes a connection it has. *)
Definition disconnectSvr (n : nat) : ssession_op unit :=
  do client <- mget ss_client;
  do _ <- mmod (fun s => s <| ss_client := None |>);
  match client with
  | Some true => emit (DestClose n)
  | _ => mret tt
  end.

(** [extractTunnelPayload(input, output)]: [output] afterwards. *)
Definition extractTunnelPayload (input : bytes) : ssession_op bytes :=
  do kcp <- mget ss_kcp;
  let '(inputRet, kcp) := ikcp_input kcp input in
  do _ <- mmod (fun s => s <| ss_kcp := kcp |>);
  if inputRet <? 0 then mret [] else
  let peekSize := ikcp_peeksize kcp in
  if peekSize <=? 0 then mret [] else
  do output <- lift (string_resize [] (u64 peekSize));
  do (recvRet, out, kcp) <- lift (ikcp_recv kcp true peekSize);
  do _ <- mmod (fun s => s <| ss_kcp := kcp |>);
  do output <- lift (overwrite output out);
  if recvRet <=? 0 then mret output else
  lift (string_resize output (u64 recvRet)).

Definition server_recvFromTunnel (n : nat) (packet : bytes) (now : Z) : ssession_op unit :=
  do payload <- extractTunnelPayload packet;
  if is_empty payload then mret tt else
  do _ <- mmod (fun s => s <| ss_lastActive := now |>);
  do client <- mget ss_client;
  match client with
  | Some true => emit (DestSend n payload)
  | Some false => mmod (fun s => s <| ss_payloadList := ss_payloadList s ++ [payload] |>)
  | None => mret tt
  end.

(** Calling [connLostCb_]: the session id the server is told, if it is set. *)
Definition call_connLostCb : ssession_op Z :=
  do cb <- mget ss_connLostCb;
  if cb : bool then mget (fun s => kcp_conv (ss_kcp s)) else mcrash BadFunctionCall.

(** The [while(!payloadList_.empty())] loop. *)
Fixpoint send_payloads (n : nat) (payloads : list bytes) : ssession_op unit :=
  match payloads with
  | [] => mret tt
  | payload :: rest =>
      do _ <- emit (DestSend n payload);
      do _ <- mmod (fun s => s <| ss_payloadList := rest |>);
      send_payloads n rest
  end.

(** [onConnection]; the result is the id [connLostCb_] was called with. *)
Definition server_onConnection (n : nat) (connected : bool) : ssession_op (option Z) :=
  if connected then
    do payloads <- mget ss_payloadList;
    do _ <- send_payloads n payloads;
    mret None
  else
    do id <- call_connLostCb;
    mret (Some id).

Definition onCheckConnection : ssession_op (option Z) :=
  do client <- mget ss_client;
  match client with
  | Some false =>
      do _ <- mmod (fun s => s <| ss_client := None |>);
      do id <- call_connLostCb;
      mret (Some id)
  | _ => mret None
  end.

(** [onMessage]: the buffer afterwards. *)
Definition server_onMessage (buf : Buffer) : ssession_op Buffer :=
  do kcp <- mget ss_kcp;
  do (sendRet, kcp) <- lift (ikcp_send kcp (contents buf) (s32 (readableBytes buf)));
  do _ <- mmod (fun s => s <| ss_kcp := kcp |>);
  do _ <- massert (sendRet =? 0);
  mret (retrieveAll buf).

Definition updateKcp (tv_sec tv_nsec : Z) : ssession_op unit :=
  server_output_call (fun k => ikcp_update k (iclock tv_sec tv_nsec)).

(** More than an hour without data from the tunnel; [double] is exact enough here:
    a microsecond is far above its spacing near 3600. *)
Definition isIdle (now : Z) (s : KcpServerSession) : bool := now - ss_lastActive s >? 3600 * 1000000.
End session.

(** ** KcpServer *)

Record KcpServer := {
  sv_sessionMap : gmap Z nat;
  sv_controlSess : ControlSession;
  sv_id : Z;
  sessions : gmap nat KcpServerSession;
  nextSession : nat
}.

Definition eta_KcpServer (r : KcpServer) : KcpServer := {|
  sv_sessionMap := sv_sessionMap r; sv_controlSess := sv_controlSess r; sv_id := sv_id r;
  sessions := sessions r; nextSession := nextSession r
|}.

#[export] Instance set_sv_sessionMap : Setter sv_sessionMap := ltac:(build_setter eta_KcpServer sv_sessionMap).
#[export] Instance set_sv_controlSess : Setter sv_controlSess := ltac:(build_setter eta_KcpServer sv_controlSess).
#[export] Instance set_sv_id : Setter sv_id := ltac:(build_setter eta_KcpServer sv_id).
#[export] Instance set_sessions : Setter sessions := ltac:(build_setter eta_KcpServer sessions).
#[export] Instance set_nextSession : Setter nextSession := ltac:(build_setter eta_KcpServer nextSession).

Abbreviation server_op := (M KcpServer server_action).

(** [KcpServer::KcpServer] at [time(NULL)] = [now_sec]. *)
Definition new_KcpServer (now_sec : Z) : KcpServer := {|
  sv_sessionMap := ∅; sv_controlSess := new_ControlSession; sv_id := u32 (u32 now_sec + 24 * 3600);
  sessions := ∅; nextSession := 0
|}.

Section server.
Variable g_udpServer : Z.
Variable sendto : Z -> bytes -> Z.

(** A call on session object [n]. *)
Definition on_ssession {A} (n : nat) (m : M KcpServerSession server_action A) : server_op A :=
  member (fun v => sessions v !! n) (fun s v => v <| sessions := <[n := s]> (sessions v) |>) m.

Definition onSessionConnectionLost (sessId : Z) : server_op unit :=
  mmod (fun v => v <| sv_sessionMap := delete sessId (sv_sessionMap v) |>).

(** A callback of a session, and the server's callback when the session called it. *)
Definition with_lost (m : server_op (option Z)) : server_op unit :=
  do lost <- m;
  match lost with
  | Some id => onSessionConnectionLost id
  | None => mret tt
  end.

Definition server_control_send (cmd : bytes) (len : Z) : server_op unit :=
  do c <- mget sv_controlSess;
  do c <- lift (sendMsg c cmd len);
  mmod (fun v => v <| sv_controlSess := c |>).

(** [id = id_++], and once more when that was 0. *)
Definition take_id : server_op Z :=
  do id <- mget sv_id;
  do _ <- mmod (fun v => v <| sv_id := u32 (id + 1) |>);
  if id =? 0 then
    do id <- mget sv_id;
    do _ <- mmod (fun v => v <| sv_id := u32 (id + 1) |>);
    mret id
  else mret id.

(** [handleControlMessage]; [char] is signed, 1 and 2 are the same either way. *)
Definition server_handleControlMessage (controlMsg : bytes) (remote now : Z) : server_op unit :=
  do _ <- massert (negb (is_empty controlMsg));
  let cmd := byte_at controlMsg 0 in
  if cmd =? CMD_CREATE_SESSION then
    do id <- take_id;
    do n <- mget nextSession;
    do _ <- mmod (fun v => v <| nextSession := S n |>
                             <| sessions := <[n := new_KcpServerSession id remote now]> (sessions v) |>);
    do _ <- on_ssession n (connectSvr n);
    do _ <- mmod (fun v => v <| sv_sessionMap := <[id := n]> (sv_sessionMap v) |>);
    let msg := z2b RSP_CREATE_SESSION :: le_bytes 4 (hostToNetwork32 id) in
    server_control_send msg 5
  else if cmd =? CMD_DESTROY_SESSION then
    do id <- lift (read_id controlMsg);
    let id := networkToHost32 id in
    do sess <- mget (fun v => sv_sessionMap v !! id);
    match sess with
    | Some n => on_ssession n (disconnectSvr n)
    | None => mret tt
    end
  else massert false.

(** [notifyPeerException]: 8 bytes, a zero word and the id; nothing calls it. *)
Definition notifyPeerException (sessId remote : Z) : server_op unit :=
  emit (SendTo remote (le_bytes 4 0 ++ le_bytes 4 (hostToNetwork32 sessId))).

Definition dispatchKcpPacket (packet : bytes) (remote now : Z) : server_op unit :=
  let sn := ikcp_getsn packet (Z.of_nat (length packet)) in
  if sn =? u32 (-1) then mret tt else
  let id := ikcp_getconv packet in
  if id =? 0 then
    do ctrl <- mget sv_controlSess;
    do (ret, aryMsg, ctrl) <- lift (parseMsg ctrl packet []);
    do _ <- mmod (fun v => v <| sv_controlSess := ctrl |>);
    for_ aryMsg (fun msg => server_handleControlMessage msg remote now)
  else
    do sess <- mget (fun v => sv_sessionMap v !! id);
    match sess with
    | Some n => on_ssession n (server_recvFromTunnel n packet now)
    | None => mret tt
    end.

Definition onUdpTunnelReadable (received : option bytes) (remote now : Z) : server_op unit :=
  match received with
  | None => mret tt
  | Some buf => dispatchKcpPacket buf remote now
  end.

Definition onUpdateKcpTimer (clock : Z -> Z * Z) : server_op unit :=
  do entries <- mget (fun v => ordered (sv_sessionMap v));
  for_ entries (fun '(id, n) => on_ssession n (updateKcp g_udpServer sendto (clock id).1 (clock id).2)).

Definition onCheckDeadSessionTimer (now : Z) : server_op unit :=
  do entries <- mget (fun v => ordered (sv_sessionMap v));
  for_ entries (fun '(id, n) =>
    do idle <- on_ssession n (mget (isIdle now));
    if idle : bool then mmod (fun v => v <| sv_sessionMap := delete id (sv_sessionMap v) |>) else mret tt).

(** ** The callbacks as events *)

(** A datagram; the 10 ms and the 15 s timers; the connection of session object [n]
    to the destination came up, delivered data, went down; its 3 s check; its last
    reference is gone. *)
Inductive server_event :=
  | UdpReadable (received : option bytes) (remote now : Z)
  | UpdateTick (clock : Z -> Z * Z)
  | DeadTick (now : Z)
  | DestUp (n : nat)
  | DestData (n : nat) (buf : Buffer)
  | DestDown (n : nat)
  | DestCheck (n : nat)
  | Released (n : nat).

Definition server_handle (e : server_event) : server_op unit :=
  match e with
  | UdpReadable received remote now => onUdpTunnelReadable received remote now
  | UpdateTick clock => onUpdateKcpTimer clock
  | DeadTick now => onCheckDeadSessionTimer now
  | DestUp n =>
      do _ <- on_ssession n (mmod (fun s => s <| ss_client := Some true |>));
      with_lost (on_ssession n (server_onConnection n true))
  | DestData n buf => do _ <- on_ssession n (server_onMessage buf); mret tt
  | DestDown n =>
      do _ <- with_lost (on_ssession n (server_onConnection n false));
      on_ssession n (mmod (fun s => s <| ss_client := match ss_client s with Some _ => Some false | None => None end |>))
  | DestCheck n => with_lost (on_ssession n onCheckConnection)
  | Released n =>
      do _ <- on_ssession n (delete_KcpServerSession g_udpServer sendto);
      mmod (fun v => v <| sessions := delete n (sessions v) |>)
  end.
End server.

(** ** The server as it is *)

Definition inert (v : KcpServer) : Prop := sv_sessionMap v = ∅ /\ sessions v = ∅.

Lemma wp_on_none {A} n v (m : M KcpServerSession server_action A) Q :
  sessions v = ∅ -> wp any_crash (on_ssession n m) v Q.
Proof. intros H. unfold wp, on_ssession, member. by rewrite H, lookup_empty. Qed.

Lemma ordered_empty {A} : ordered (∅ : gmap Z A) = [].
Proof. unfold ordered. by rewrite map_to_list_empty. Qed.

Lemma inert_handle g sendto e v :
  inert v -> wp any_crash (server_handle g sendto e) v (fun _ v' es => inert v' /\ es = []).
Proof.
  intros [Hm Hs]. destruct e as [received remote now|clock|now|n|n buf|n|n|n]; cbn [server_handle].
  - unfold onUdpTunnelReadable. destruct received as [buf|]; [|by wp_steps].
    unfold dispatchKcpPacket. cbv zeta. bcase; [by wp_steps|]. bcase.
    + wp_steps. apply wp_lift_crash. destruct (parseMsg _ _ _) as [[[ret ary] ctrl]|] eqn:Hp; [|done].
      wp_steps. apply parseMsg_none in Hp as ->. by wp_steps.
    + wp_steps. rewrite Hm, lookup_empty. by wp_steps.
  - unfold onUpdateKcpTimer. wp_steps. rewrite Hm, ordered_empty. by wp_steps.
  - unfold onCheckDeadSessionTimer. wp_steps. rewrite Hm, ordered_empty. by wp_steps.
  - wp_steps. by apply wp_on_none.
  - wp_steps. by apply wp_on_none.
  - unfold with_lost. wp_steps. by apply wp_on_none.
  - unfold with_lost. wp_steps. by apply wp_on_none.
  - wp_steps. by apply wp_on_none.
Qed.

(** C20.  The server as it stands never acts: whatever datagrams and timer ticks
    arrive, no session is ever created, nothing is sent to a proxy (no reply to a
    request for a session either: the control session is never flushed) and no
    connection to the destination is attempted. *)
Theorem server_never_acts g sendto now_sec evs :
  match for_ evs (server_handle g sendto) (new_KcpServer now_sec) with
  | Ok (_, v, actions) => actions = [] /\ sv_sessionMap v = ∅ /\ sessions v = ∅
  | Crash _ => True
  end.
Proof.
  assert (H : wp any_crash (for_ evs (server_handle g sendto)) (new_KcpServer now_sec)
    (fun _ v es => inert v /\ [] ++ es = [])).
  { apply (wp_for any_crash evs (server_handle g sendto) (fun v es => inert v /\ es = [])); [done|].
    intros e v es _ [Hi ->]. eapply wp_mono; [by apply inert_handle|]. done. }
  unfold wp in H. destruct (for_ _ _ _) as [[[a v] es]|]; [|done]. destruct H as [[? ?] ?]. done.
Qed.

(** ** Session numbers *)

(** The numbers [n] creations after a counter value of [id] hand out. *)
Fixpoint ids (n : nat) (id : Z) : list Z :=
  match n with
  | O => []
  | S n => let id := if id =? 0 then 1 else id in id :: ids n (u32 (id + 1))
  end.

Lemma take_id_eq v :
  is_u32 (sv_id v) ->
  let id := if sv_id v =? 0 then 1 else sv_id v in
  take_id v = Ok (id, v <| sv_id := u32 (id + 1) |>, []).
Proof.
  intros Hid. unfold take_id, mthen, mget, mmod, mret. simpl. bcase; [|done].
  rewrite Hb. simpl. by destruct v.
Qed.

(** The position of a number in the cycle 1, ..., 2^32 - 1. *)
Lemma ids_cycle n id j :
  1 <= id < 4294967296 -> ids n id !! j = Some (1 + (id - 1 + Z.of_nat j) mod 4294967295) \/ ids n id !! j = None.
Proof.
  revert id j. induction n as [|n IH]; intros id j Hid; [by right|].
  cbn [ids]. cbv zeta. bcase; [lia|]. destruct j as [|j]; simpl.
  - left. f_equal. rewrite Z.mod_small by lia. lia.
  - assert (Hn : ids n (u32 (id + 1)) = ids n (if decide (id = 4294967295) then 1 else id + 1)).
    { case_decide; [subst; destruct n; done|]. by rewrite u32_small by (unfold is_u32; lia). }
    rewrite Hn. case_decide as Hd.
    + destruct (IH 1 j ltac:(lia)) as [->| ->]; [left | by right]. do 2 f_equal. subst id.
      replace (4294967295 - 1 + Z.of_nat (S j)) with (1 - 1 + Z.of_nat j + 1 * 4294967295) by lia.
      by rewrite Z_mod_plus_full.
    + destruct (IH (id + 1) j ltac:(lia)) as [->| ->]; [left | by right]. do 2 f_equal. f_equal. lia.
Qed.

(** The server numbers sessions 1 to 2^32 - 1 in a cycle that skips 0, the
    number of the control session: the counter stays a 32-bit value, a number handed
    out is never 0, and none comes twice within 2^32 - 1 consecutive creations. *)
Theorem session_numbers v n i j a :
  is_u32 (sv_id v) ->
  (exists id v', take_id v = Ok (id, v', []) /\ is_u32 (sv_id v') /\ id <> 0 /\ is_u32 id /\
     ids (S n) (sv_id v) = id :: ids n (sv_id v')) /\
  (ids n (sv_id v) !! i = Some a -> a <> 0 /\
   (ids n (sv_id v) !! j = Some a -> Z.of_nat n <= 4294967295 -> i = j)).
Proof.
  intros Hid. split.
  - rewrite take_id_eq by done. eexists _, _. split; [done|]. simpl. unfold is_u32 in *.
    split_and!; try (by bcase; word); done.
  - assert (Hc : ids n (sv_id v) = ids n (if sv_id v =? 0 then 1 else sv_id v)).
    { bcase; [|done]. rewrite Hb. destruct n; done. }
    rewrite Hc. set (id := if sv_id v =? 0 then 1 else sv_id v).
    assert (Hr : 1 <= id < 4294967296) by (unfold id, is_u32 in *; bcase; lia). clearbody id. intros Hi.
    assert (Hlen : forall k id b, ids n id !! k = Some b -> Z.of_nat k < Z.of_nat n).
    { intros k id' b Hk. apply lookup_lt_Some in Hk. revert Hk. clear. revert id' k.
      induction n as [|n IH]; intros id' k; cbn [ids]; [simpl; lia|]. cbv zeta.
      destruct k as [|k]; [simpl; lia|]. intros Hk. simpl in Hk. specialize (IH _ k ltac:(apply PeanoNat.lt_S_n, Hk)). lia. }
    destruct (ids_cycle n id i Hr) as [Ha|Ha]; [|congruence].
    rewrite Hi in Ha. injection Ha as ->.
    split; [pose proof (Z.mod_pos_bound (id - 1 + Z.of_nat i) 4294967295); lia|].
    intros Hj Hn. destruct (ids_cycle n id j Hr) as [Hb|Hb]; [|congruence].
    rewrite Hj in Hb. injection Hb as Hb. apply Hlen in Hi, Hj.
    assert (H : (id - 1 + Z.of_nat i) mod 4294967295 = (id - 1 + Z.of_nat j) mod 4294967295) by lia.
    clear Hb. Z.div_mod_to_equations. lia.
Qed.

Lemma session_numbers_witness :
  let v := new_KcpServer 4294880894 in
  is_u32 (sv_id v) /\
  (exists id v', take_id v = Ok (id, v', []) /\ is_u32 (sv_id v') /\ id <> 0 /\ is_u32 id /\
     ids 3 (sv_id v) = id :: ids 2 (sv_id v')) /\
  ids 3 (sv_id v) = [4294967294; 4294967295; 1].
Proof.
  intros v. assert (Hid : is_u32 (sv_id v)) by (vm_compute; intuition congruence).
  split; [exact Hid|]. split; [|vm_compute; reflexivity].
  exact (proj1 (session_numbers v 2 0%nat 0%nat 0 Hid)).
Defined.

(** ** The invariant of the server *)

Record ssession_wf (id : Z) (s : KcpServerSession) : Prop := {
  sw_id : is_u32 id;
  sw_endpoint : endpoint id (ss_kcp s);
  sw_callback : ss_connLostCb s = false
}.

Record server_wf (v : KcpServer) : Prop := {
  svw_control : control_wf (sv_controlSess v);
  svw_id : is_u32 (sv_id v);
  (* the map's entries are session objects, registered under their own number *)
  svw_map id n : sv_sessionMap v !! id = Some n -> id <> 0 /\ exists s, sessions v !! n = Some s /\ ssession_wf id s;
  svw_sessions n s : sessions v !! n = Some s -> exists id, ssession_wf id s;
  svw_fresh n : (nextSession v <= n)%nat -> sessions v !! n = None
}.

Lemma server_wf_new now : server_wf (new_KcpServer now).
Proof.
  constructor; simpl.
  - apply control_wf_new.
  - apply u32_range.
  - intros id n. by rewrite lookup_empty.
  - intros n s. by rewrite lookup_empty.
  - intros n _. apply lookup_empty.
Qed.

Lemma ssession_wf_new id remote now : is_u32 id -> ssession_wf id (new_KcpServerSession id remote now).
Proof. intros Hid. constructor; [done | by apply (endpoint_create id) | done]. Qed.

Definition put_session (n : nat) (s : KcpServerSession) (v : KcpServer) : KcpServer :=
  v <| sessions := <[n := s]> (sessions v) |>.

Lemma ssession_conv id s : ssession_wf id s -> kcp_conv (ss_kcp s) = id.
Proof. intros [_ He _]. exact (endpoint_conv He). Qed.

Lemma server_wf_put v n s s' id :
  server_wf v -> sessions v !! n = Some s -> ssession_wf id s -> ssession_wf id s' -> server_wf (put_session n s' v).
Proof.
  intros Hv Hn Hs Hs'. constructor; simpl; try apply Hv.
  - intros i m Hm. apply (svw_map _ Hv) in Hm as (Hi & t & Ht & Hw). split; [done|].
    destruct (decide (m = n)) as [->|Hne]; [|by exists t; rewrite lookup_insert_ne].
    exists s'. rewrite lookup_insert_eq. split; [done|]. rewrite Hn in Ht. injection Ht as ->.
    apply ssession_conv in Hs as E1, Hw as E2. congruence.
  - intros m t. rewrite lookup_insert_Some. intros [[<- <-]|[_ Ht]]; [by exists id|]. by apply (svw_sessions _ Hv m).
  - intros m Hm. apply lookup_insert_None. split; [by apply Hv|]. intros ->.
    by rewrite (svw_fresh _ Hv m Hm) in Hn.
Qed.

(** An operation on a session that keeps its invariant. *)
Lemma wp_on_ssession {A} v n s id (m : M KcpServerSession server_action A) (Q : A -> KcpServer -> list server_action -> Prop) :
  server_wf v -> sessions v !! n = Some s -> ssession_wf id s ->
  wp safe m s (fun a s' es => ssession_wf id s' /\
    (server_wf (put_session n s' v) -> Q a (put_session n s' v) es)) ->
  wp safe (on_ssession n m) v Q.
Proof.
  intros Hv Hn Hs H. eapply wp_member; [exact Hn|]. eapply wp_mono; [exact H|].
  intros a s' es [Hs' HQ]. apply HQ. by eapply server_wf_put.
Qed.

Definition sack_room (s : KcpServerSession) : Prop := kcp_ackcount (ss_kcp s) + DATAGRAM_MAX < 2147483648.

Lemma ssession_wf_kcp id s k : ssession_wf id s -> endpoint id k -> ssession_wf id (s <| ss_kcp := k |>).
Proof. intros [] ?. by constructor. Qed.

(** ** Session operations *)

Section session_ops.
Context (g : Z) (sendto : Z -> bytes -> Z).
Hypothesis Hg : 0 <= g.
(** UDP sends a datagram whole. *)
Hypothesis sendto_whole : forall remote d, sendto remote d = Z.of_nat (length d).

Lemma wp_server_outputs {S} remote out (s : S) :
  Forall (fun d => 0 < Z.of_nat (length d) <= 1400) out ->
  wp safe (for_ out (server_output g sendto (Some remote))) s
    (fun _ s' es => s' = s /\ es = SendTo remote <$> out).
Proof using Hg sendto_whole.
  induction 1 as [|d out Hd Hout IH]; [done|]. simpl. apply wp_then. unfold server_output at 1. wp_steps.
  apply wp_assert; [apply Z.geb_le; lia|]. wp_steps. apply wp_assert; [apply Z.gtb_lt; lia|]. wp_steps.
  apply wp_assert; [by rewrite sendto_whole, Z.eqb_refl|].
  eapply wp_mono; [exact IH|]. intros ? s' es [-> ->]. done.
Qed.

Lemma wp_updateKcp id s sec nsec :
  ssession_wf id s -> sack_room s ->
  wp safe (updateKcp g sendto sec nsec) s (fun _ s' es =>
    ssession_wf id s' /\ exists k' out, ikcp_update (ss_kcp s) (iclock sec nsec) = Ok (k', out) /\
      s' = s <| ss_kcp := k' |> /\ kcp_ackcount k' <= kcp_ackcount (ss_kcp s) /\
      es = SendTo (ss_remoteAddr s) <$> out).
Proof using Hg sendto_whole.
  intros Hs Hr. unfold sack_room, DATAGRAM_MAX in Hr.
  destruct (endpoint_update id (ss_kcp s) (iclock sec nsec) (sw_endpoint _ _ Hs))
    as (k' & out & Heq & Hep & _ & Hac & Hout); [apply u32_range | lia |].
  unfold updateKcp, server_output_call. wp_steps. eapply wp_lift; [exact Heq|]. wp_steps.
  eapply wp_mono; [by apply wp_server_outputs|]. intros [] s' es [-> ->].
  split; [by apply ssession_wf_kcp|]. by exists k', out.
Qed.

Lemma wp_delete_server id s :
  ssession_wf id s -> sack_room s ->
  wp safe (delete_KcpServerSession g sendto) s (fun _ _ _ => True).
Proof using Hg sendto_whole.
  intros Hs Hr. unfold sack_room, DATAGRAM_MAX in Hr.
  destruct (endpoint_flush id (ss_kcp s) (sw_endpoint _ _ Hs)) as (k' & out & Heq & _ & _ & _ & Hout & _); [lia|].
  unfold delete_KcpServerSession, server_output_call. wp_steps. eapply wp_lift; [exact Heq|]. wp_steps.
  eapply wp_mono; [by apply wp_server_outputs|]. done.
Qed.
End session_ops.

(** The payload of a datagram: nothing, or the first complete message. *)
Definition payload_of (k : ikcpcb) (packet : bytes) : bytes * ikcpcb :=
  let '(ret, k1) := ikcp_input k packet in
  if (ret <? 0) || (ikcp_peeksize k1 <=? 0) then ([], k1)
  else match ikcp_recv k1 true (ikcp_peeksize k1) with
       | Ok (_, out, k2) => (out, k2)
       | Crash _ => ([], k1)
       end.

Lemma wp_extract id s packet :
  ssession_wf id s -> sack_room s -> Z.of_nat (length packet) <= DATAGRAM_MAX ->
  wp safe (extractTunnelPayload packet) s (fun payload s' es =>
    es = [] /\ ssession_wf id s' /\ (payload, ss_kcp s') = payload_of (ss_kcp s) packet /\
    s' = s <| ss_kcp := (payload_of (ss_kcp s) packet).2 |>).
Proof.
  intros Hs Hr Hl. destruct (endpoint_input id (ss_kcp s) packet (sw_endpoint _ _ Hs) Hl Hr) as (Hep & _ & _).
  unfold extractTunnelPayload, payload_of. wp_steps.
  destruct (ikcp_input (ss_kcp s) packet) as [ret k1]. simpl in Hep. wp_steps.
  pose proof (ssession_wf_kcp _ _ _ Hs Hep) as Hs1.
  bcase; [by wp_steps|]. bcase; [by wp_steps|]. cbn [orb].
  pose proof (peeksize_range k1) as Hpr.
  destruct (endpoint_recv id k1 Hep ltac:(lia)) as (out & k2 & Heq & Hlen & Hep2 & _ & _).
  assert (u64 (ikcp_peeksize k1) = ikcp_peeksize k1) as -> by word.
  wp_steps. eapply wp_lift.
  { unfold string_resize, STRING_MAX. bcase; [word|done]. }
  wp_steps. eapply wp_lift; [exact Heq|]. cbv beta. wp_steps. rewrite take_nil, Nat.sub_0_r, app_nil_l. eapply wp_lift.
  { unfold overwrite. rewrite length_replicate. rewrite (proj2 (Nat.ltb_ge _ _)) by lia. done. }
  rewrite drop_replicate. bcase; [lia|]. eapply wp_lift.
  { unfold string_resize, STRING_MAX.
    assert (u64 (ikcp_peeksize k1) = ikcp_peeksize k1) as -> by word. bcase; [word|done]. }
  rewrite Heq, <- Hlen, Nat2Z.id, Nat.sub_diag. cbn [replicate]. rewrite (app_nil_r out), take_ge by lia.
  rewrite Nat.sub_diag. cbn [replicate]. rewrite (app_nil_r out).
  split_and!; first [done | by apply (ssession_wf_kcp id s)].
Qed.

(** ** The callbacks keep the tables in order *)

Definition server_room (v : KcpServer) : Prop :=
  kcp_ackcount (kcp_ (sv_controlSess v)) + DATAGRAM_MAX < 2147483648 /\
  forall n s, sessions v !! n = Some s -> sack_room s.

(** The callbacks that do not end the process: not the loss of a connection
    ([lost_connection_ends_process]), nor a datagram of the control session without
    a complete message ([bare_segment_ends_process]). *)
Definition server_legal (v : KcpServer) (e : server_event) : Prop :=
  match e with
  | UdpReadable None _ _ => True
  | UdpReadable (Some d) _ _ => Z.of_nat (length d) <= DATAGRAM_MAX /\
      (ikcp_getconv d = 0 -> is_ok (parseMsg (sv_controlSess v) d []) = true)
  | UpdateTick _ | DeadTick _ => True
  | DestUp n => is_Some (sessions v !! n)
  | DestData n buf => is_Some (sessions v !! n) /\
      exists q, holds buf q /\ Z.of_nat (length q) <= MESSAGE_MAX
  | DestDown _ => False
  | DestCheck n => exists s, sessions v !! n = Some s /\ ss_client s <> Some false
  | Released n => is_Some (sessions v !! n) /\ forall id, sv_sessionMap v !! id <> Some n
  end.

Lemma holds_readable_contents buf q : holds buf q -> readableBytes buf = Z.of_nat (length q) /\ contents buf = q.
Proof.
  intros H. split; [|apply H]. apply holds_layout in H as (pre & post & Hl). by apply layout_readable in Hl.
Qed.

Lemma wp_server_onMessage id s buf q :
  ssession_wf id s -> holds buf q -> Z.of_nat (length q) <= MESSAGE_MAX ->
  wp safe (server_onMessage buf) s (fun b s' es =>
    b = retrieveAll buf /\ es = [] /\ ssession_wf id s' /\
    exists k', s' = s <| ss_kcp := k' |> /\ kcp_ackcount k' = kcp_ackcount (ss_kcp s) /\
      queued k' = queued (ss_kcp s) ++ msg_frags 1376 q).
Proof.
  intros Hs Hb Hl. destruct (holds_readable_contents _ _ Hb) as [Hr Hc].
  destruct (endpoint_accepts id (ss_kcp s) q (sw_endpoint _ _ Hs) Hl) as (k' & Heq & Hep & Hac & Hq).
  unfold server_onMessage. wp_steps. rewrite Hc, Hr. eapply wp_lift; [exact Heq|]. wp_steps.
  apply wp_assert; [done|]. wp_steps. split_and!; try done; [by apply ssession_wf_kcp|]. by exists k'.
Qed.

Lemma wp_server_recv id n s packet now :
  ssession_wf id s -> sack_room s -> Z.of_nat (length packet) <= DATAGRAM_MAX ->
  wp safe (server_recvFromTunnel n packet now) s (fun _ s' es =>
    ssession_wf id s' /\ ss_client s' = ss_client s /\
    let '(payload, k') := payload_of (ss_kcp s) packet in
    ss_kcp s' = k' /\
    if is_empty payload then s' = s <| ss_kcp := k' |> /\ es = []
    else ss_lastActive s' = now /\
      match ss_client s with
      | Some true => es = [DestSend n payload] /\ ss_payloadList s' = ss_payloadList s
      | Some false => es = [] /\ ss_payloadList s' = ss_payloadList s ++ [payload]
      | None => es = [] /\ ss_payloadList s' = ss_payloadList s
      end).
Proof.
  intros Hs Hr Hl. unfold server_recvFromTunnel. wp_steps.
  eapply wp_mono; [by apply (wp_extract id)|]. intros payload s' es (-> & Hw & Hp & ->).
  destruct (payload_of (ss_kcp s) packet) as [pl k']. simpl in Hp. injection Hp as ->. simpl in Hw.
  destruct (is_empty pl); wp_steps; [by split_and!|]. simpl ss_client.
  assert (Hw' : forall l, ssession_wf id (s <| ss_kcp := k' |> <| ss_lastActive := now |> <| ss_payloadList := l |>))
    by (intros l; destruct Hw; by constructor).
  pose proof (Hw' (ss_payloadList s)) as Hw0.
  assert (Hw1 : ssession_wf id (s <| ss_kcp := k' |> <| ss_lastActive := now |>)) by (destruct Hw; by constructor).
  destruct (ss_client s) as [[]|] eqn:Hc; wp_steps; split_and!; first [done | apply Hw'].
Qed.

Lemma wp_send_payloads id n : forall payloads s,
  ssession_wf id s -> ss_payloadList s = payloads ->
  wp safe (send_payloads n payloads) s (fun _ s' es =>
    ssession_wf id s' /\ s' = s <| ss_payloadList := [] |> /\ es = DestSend n <$> payloads).
Proof.
  induction payloads as [|m payloads IH]; intros s Hs Hp; simpl.
  - apply wp_ret. split_and!; try done. destruct s. simpl in *. by subst.
  - wp_steps. eapply wp_mono; [apply IH; [destruct Hs; by constructor | done]|].
    intros [] s' es (Hw & -> & ->). by split_and!.
Qed.

Lemma wp_server_control v cmd len Q :
  server_wf v -> len = Z.of_nat (length cmd) -> len <= MESSAGE_MAX ->
  (forall c, control_wf c ->
     kcp_snd_queue (kcp_ c) = kcp_snd_queue (kcp_ (sv_controlSess v)) ++ send_segments (kcp_ (sv_controlSess v)) cmd ->
     Q tt (v <| sv_controlSess := c |>) []) ->
  wp safe (server_control_send cmd len) v Q.
Proof.
  intros Hv -> Hl H. destruct (sendMsg_ok _ _ (svw_control _ Hv) Hl) as (c' & Heq & Hw & _ & _ & Hq).
  unfold server_control_send. wp_steps. eapply wp_lift; [exact Heq|]. wp_steps. by apply H.
Qed.

Lemma server_wf_control v c : server_wf v -> control_wf c -> server_wf (v <| sv_controlSess := c |>).
Proof. intros [] ?. by constructor. Qed.

Lemma server_wf_unregister v id : server_wf v -> server_wf (v <| sv_sessionMap := delete id (sv_sessionMap v) |>).
Proof.
  intros [? ? Hm ? ?]. constructor; simpl; try done.
  intros i n [_ Hi]%lookup_delete_Some. by apply Hm.
Qed.

Lemma server_wf_release v n :
  server_wf v -> (forall id, sv_sessionMap v !! id <> Some n) ->
  server_wf (v <| sessions := delete n (sessions v) |>).
Proof.
  intros [? ? Hm Hs Hf] Hn. constructor; simpl; try done.
  - intros i m Hi. destruct (Hm i m Hi) as (Hne & s & Hsm & Hw). split; [done|]. exists s.
    rewrite lookup_delete_ne; [done|]. intros <-. by apply (Hn i).
  - intros m s [_ Hi]%lookup_delete_Some. by apply (Hs m).
  - intros m Hm'. apply lookup_delete_None. right. by apply Hf.
Qed.

Section server_handlers.
Context (g : Z) (sendto : Z -> bytes -> Z).
Hypothesis Hg : 0 <= g.
Hypothesis sendto_whole : forall remote d, sendto remote d = Z.of_nat (length d).

Lemma wp_update_one v id n sec nsec Q :
  server_wf v -> server_room v -> sv_sessionMap v !! id = Some n ->
  (forall v' es, server_wf v' -> server_room v' -> sv_sessionMap v' = sv_sessionMap v -> Q tt v' es) ->
  wp safe (on_ssession n (updateKcp g sendto sec nsec)) v Q.
Proof using Hg sendto_whole.
  intros Hv [Hrc Hrs] Hm HQ. destruct (svw_map _ Hv id n Hm) as (_ & s & Hs & Hw).
  eapply wp_on_ssession; [exact Hv | exact Hs | exact Hw |].
  eapply wp_mono; [by apply (wp_updateKcp g sendto Hg sendto_whole id s); [|eapply Hrs]|].
  intros [] s' es (Hw' & k' & out & _ & -> & Hac & ->). split; [done|]. intros Hv'. apply HQ; [done | | done].
  split; [done|]. intros m t. simpl. rewrite lookup_insert_Some. intros [[<- <-]|[_ Ht]]; [|by eapply Hrs].
  specialize (Hrs n s Hs). unfold sack_room in *. simpl. lia.
Qed.

Lemma server_handle_wf e v :
  server_wf v -> server_room v -> server_legal v e ->
  wp safe (server_handle g sendto e) v (fun _ v' _ => server_wf v').
Proof using Hg sendto_whole.
  intros Hv Hroom Hlegal. destruct e as [[d|] remote now|clock|now|n|n buf|n|n|n]; cbn [server_handle server_legal] in *.
  - destruct Hlegal as [Hl Hctl]. unfold onUdpTunnelReadable, dispatchKcpPacket. cbv zeta.
    bcase; [by wp_steps|]. bcase.
    + specialize (Hctl Hb0). wp_steps.
      pose proof (parseMsg_cases (sv_controlSess v) d [] (svw_control _ Hv) Hl (proj1 Hroom)) as Hcases.
      destruct (ikcp_input _ _) as [ret k].
      destruct (parseMsg (sv_controlSess v) d []) as [[[r ary] ctrl]|] eqn:Hparse; [|done].
      eapply wp_lift; [done|]. pose proof (parseMsg_none _ _ _ _ _ Hparse) as ->. wp_steps.
      apply server_wf_control; [done|].
      destruct Hcases as [(_ & ? & Heq)|[(_ & _ & ? & Heq)|[(_ & _ & ?)|(_ & _ & c2 & msg & Heq & ? & _)]]];
        try done; by injection Heq as _ ->.
    + wp_steps. destruct (sv_sessionMap v !! ikcp_getconv d) as [n|] eqn:Hm; [|by wp_steps].
      destruct (svw_map _ Hv _ n Hm) as (_ & s & Hs & Hw).
      eapply wp_on_ssession; [exact Hv | exact Hs | exact Hw |].
      eapply wp_mono; [apply (wp_server_recv (ikcp_getconv d)); [done | by eapply (proj2 Hroom) | done]|].
      intros [] s' es (Hw' & _). by split.
  - by wp_steps.
  - unfold onUpdateKcpTimer. wp_steps.
    eapply wp_mono; [apply (wp_for safe (ordered (sv_sessionMap v)) _
      (fun v' _ => server_wf v' /\ server_room v' /\ sv_sessionMap v' = sv_sessionMap v) v [])|].
    + done.
    + intros [id n] v' es Hin (Hv' & Hr' & Hm'). apply (wp_update_one v' id n); [done | done | |].
      * rewrite Hm'. by apply ordered_elem.
      * intros v2 es2 H1 H2 H3. split_and!; [done | done | congruence].
    + intros ? v' es H. exact (proj1 H).
  - unfold onCheckDeadSessionTimer. wp_steps.
    eapply wp_mono; [apply (wp_for safe (ordered (sv_sessionMap v)) _
      (fun v' _ => server_wf v' /\ sessions v' = sessions v) v [])|].
    + done.
    + intros [id n] v' es Hin [Hv' Hs']. apply ordered_elem, (svw_map _ Hv) in Hin as (_ & s & Hs & Hw).
      wp_steps. rewrite <- Hs' in Hs. eapply wp_on_ssession; [exact Hv' | exact Hs | exact Hw |].
      apply wp_get. split; [done|].
      assert (E : put_session n s v' = v').
      { unfold put_session. rewrite insert_id by done. by destruct v'. }
      rewrite E. intros _. destruct (isIdle now s); wp_steps; [|done].
      split; [by apply server_wf_unregister | done].
    + intros ? v' es H. exact (proj1 H).
  - destruct Hlegal as [s Hs]. pose proof Hs as [id Hw]%(svw_sessions _ Hv).
    unfold with_lost. wp_steps. eapply wp_on_ssession; [exact Hv | exact Hs | exact Hw |].
    apply wp_mod. split; [destruct Hw; by constructor|]. intros Hv1.
    set (s1 := s <| ss_client := Some true |>).
    assert (Hw1 : ssession_wf id s1) by (destruct Hw; by constructor).
    wp_steps. eapply (wp_on_ssession (put_session n s1 v) n s1 id); [done | apply lookup_insert_eq | done |].
    unfold server_onConnection. wp_steps. eapply wp_mono; [by apply (wp_send_payloads id)|].
    intros [] s' es (Hw' & _ & _). wp_steps. split; [done|]. intros Hv2. by wp_steps.
  - destruct Hlegal as ([s Hs] & q & Hb & Hl). pose proof Hs as [id Hw]%(svw_sessions _ Hv).
    wp_steps. eapply wp_on_ssession; [exact Hv | exact Hs | exact Hw |].
    eapply wp_mono; [by apply (wp_server_onMessage id s buf q)|].
    intros b s' es (_ & _ & Hw' & _). split; [done|]. intros Hv'. by wp_steps.
  - done.
  - destruct Hlegal as (s & Hs & Hc). pose proof Hs as [id Hw]%(svw_sessions _ Hv).
    unfold with_lost. wp_steps. eapply wp_on_ssession; [exact Hv | exact Hs | exact Hw |].
    unfold onCheckConnection. wp_steps. destruct (ss_client s) as [[]|]; [|done|]; wp_steps; (split; [done|]);
      intros Hv'; by wp_steps.
  - destruct Hlegal as [[s Hs] Hn]. pose proof Hs as [id Hw]%(svw_sessions _ Hv).
    wp_steps. eapply wp_member; [exact Hs|].
    eapply wp_mono; [by apply (wp_delete_server g sendto Hg sendto_whole id s); [|eapply (proj2 Hroom)]|].
    intros [] s' es _. wp_steps. simpl. pose proof (server_wf_release v n Hv Hn) as H.
    assert (E : delete n (<[n:=s']> (sessions v)) = delete n (sessions v)) by apply delete_insert_eq.
    change (server_wf (v <| sessions := delete n (<[n:=s']> (sessions v)) |>)). by rewrite E.
Qed.
End server_handlers.

(** ** Control messages *)

Lemma server_wf_create v id remote now :
  server_wf v -> is_u32 id -> id <> 0 ->
  let n := nextSession v in
  server_wf (v <| sv_id := u32 (id + 1) |> <| nextSession := S n |>
               <| sessions := <[n := new_KcpServerSession id remote now]> (sessions v) |>
               <| sv_sessionMap := <[id := n]> (sv_sessionMap v) |>).
Proof.
  intros Hv Hid Hne n. pose proof (ssession_wf_new id remote now Hid) as Hnew.
  assert (Hf : sessions v !! n = None) by (apply (svw_fresh _ Hv); done).
  constructor; simpl.
  - apply Hv.
  - apply u32_range.
  - intros i m. rewrite lookup_insert_Some. intros [[<- <-]|[_ Hm]].
    + split; [done|]. eexists. by rewrite lookup_insert_eq.
    + apply (svw_map _ Hv) in Hm as (Hi & s & Hs & Hw). split; [done|]. exists s.
      rewrite lookup_insert_ne; [done | congruence].
  - intros m s. rewrite lookup_insert_Some. intros [[<- <-]|[_ Hs]]; [by exists id | by apply (svw_sessions _ Hv m)].
  - intros m Hm. apply lookup_insert_None. split; [apply (svw_fresh _ Hv); lia | lia].
Qed.

(** The number the next session gets. *)
Definition next_id (v : KcpServer) : Z := if sv_id v =? 0 then 1 else sv_id v.

Definition created (v : KcpServer) (remote now : Z) : KcpServer :=
  let n := nextSession v in let id := next_id v in
  v <| sv_id := u32 (id + 1) |> <| nextSession := S n |>
    <| sessions := <[n := new_KcpServerSession id remote now]> (sessions v) |>
    <| sv_sessionMap := <[id := n]> (sv_sessionMap v) |>.

Lemma server_create v remote now :
  server_wf v ->
  exists ctrl, server_handleControlMessage (encode_command CreateSession) remote now v =
    Ok (tt, created v remote now <| sv_controlSess := ctrl |>,
        [DestConnect (nextSession v); DestCheckLater (nextSession v)]) /\
    server_wf (created v remote now <| sv_controlSess := ctrl |>) /\
    kcp_snd_queue (kcp_ ctrl) = kcp_snd_queue (kcp_ (sv_controlSess v)) ++
      send_segments (kcp_ (sv_controlSess v)) (encode_command (SessionCreated (next_id v))).
Proof.
  intros Hv. pose proof (svw_id _ Hv) as Hid.
  assert (Hn : is_u32 (next_id v) /\ next_id v <> 0) by (unfold next_id, is_u32 in *; bcase; lia).
  pose proof (server_wf_create v (next_id v) remote now Hv (proj1 Hn) (proj2 Hn)) as Hc.
  assert (H : wp safe (server_handleControlMessage (encode_command CreateSession) remote now) v (fun _ v' es =>
    es = [DestConnect (nextSession v); DestCheckLater (nextSession v)] /\
    exists ctrl, v' = created v remote now <| sv_controlSess := ctrl |> /\ control_wf ctrl /\
    kcp_snd_queue (kcp_ ctrl) = kcp_snd_queue (kcp_ (sv_controlSess v)) ++
      send_segments (kcp_ (sv_controlSess v)) (encode_command (SessionCreated (next_id v))))).
  { unfold server_handleControlMessage. wp_steps. apply wp_assert; [done|]. cbv zeta.
    change (byte_at (encode_command CreateSession) 0 =? CMD_CREATE_SESSION) with true. wp_steps.
    unfold wp at 1. rewrite (take_id_eq v Hid). cbv zeta. fold (next_id v). wp_steps.
    eapply (wp_member safe _ _ _ _ (new_KcpServerSession (next_id v) remote now)); [simpl; apply lookup_insert_eq|].
    unfold connectSvr. wp_steps. apply wp_server_control; [| done | vm_compute; done |].
    { change (sessions ?x) with (sessions x). simpl. rewrite insert_insert_eq. exact Hc. }
    intros ctrl Hctrl Hq. simpl. split; [done|]. exists ctrl. split_and!; try done.
    unfold created. simpl. by rewrite insert_insert_eq. }
  apply wp_elim in H as ([] & v' & es & Heq & -> & ctrl & -> & Hctrl & Hq).
  exists ctrl. split_and!; try done. apply server_wf_control; [exact Hc | done].
Qed.

(** A server that has created one session. *)
Definition demo_server : KcpServer :=
  match server_handleControlMessage (encode_command CreateSession) 99 1000 (new_KcpServer 1600000000) with
  | Ok (_, v, _) => v
  | Crash _ => new_KcpServer 1600000000
  end.

Lemma demo_server_wf : server_wf demo_server.
Proof.
  destruct (server_create (new_KcpServer 1600000000) 99 1000 (server_wf_new _)) as (ctrl & Heq & Hw & _).
  unfold demo_server. rewrite Heq. exact Hw.
Qed.

(** What the server does with a control message.  A request for a session gets
    the next number: a session object is made for the sender's address, registered,
    its connection to the destination is started with a check three seconds later,
    and the number goes back over the control session.  Destroying a session drops
    its client, which closes a connection it has; an unknown number is ignored; a
    reply (RSP_CREATE_SESSION) sent to the server ends its process. *)
Theorem server_commands id remote now v :
  server_wf v -> is_u32 id ->
  (exists ctrl, server_handleControlMessage (encode_command CreateSession) remote now v =
    Ok (tt, created v remote now <| sv_controlSess := ctrl |>,
        [DestConnect (nextSession v); DestCheckLater (nextSession v)]) /\
    server_wf (created v remote now <| sv_controlSess := ctrl |>) /\
    kcp_snd_queue (kcp_ ctrl) = kcp_snd_queue (kcp_ (sv_controlSess v)) ++
      send_segments (kcp_ (sv_controlSess v)) (encode_command (SessionCreated (next_id v)))) /\
  (forall n s, sv_sessionMap v !! id = Some n -> sessions v !! n = Some s ->
    server_handleControlMessage (encode_command (DestroySession id)) remote now v =
      Ok (tt, put_session n (s <| ss_client := None |>) v,
          match ss_client s with Some true => [DestClose n] | _ => [] end)) /\
  (sv_sessionMap v !! id = None ->
    server_handleControlMessage (encode_command (DestroySession id)) remote now v = Ok (tt, v, [])) /\
  server_handleControlMessage (encode_command (SessionCreated id)) remote now v = Crash AssertFailed.
Proof.
  intros Hv Hid. destruct (read_id_command CMD_DESTROY_SESSION id Hid) as [H1 H2].
  assert (Hd : forall Q : unit -> KcpServer -> list server_action -> Prop,
    wp safe (do sess <- mget (fun v => sv_sessionMap v !! id);
             match sess with Some n => on_ssession n (disconnectSvr n) | None => mret tt end) v Q ->
    wp safe (server_handleControlMessage (encode_command (DestroySession id)) remote now) v Q).
  { intros Q HQ. unfold server_handleControlMessage. wp_steps. apply wp_assert; [done|]. cbv zeta.
    change (byte_at (encode_command (DestroySession id)) 0 =? CMD_CREATE_SESSION) with false.
    change (byte_at (encode_command (DestroySession id)) 0 =? CMD_DESTROY_SESSION) with true.
    wp_steps. eapply wp_lift; [exact H2|]. rewrite H1. exact HQ. }
  split_and!; [by apply server_create | | |done].
  - intros n s Hm Hs.
    assert (H : wp safe (server_handleControlMessage (encode_command (DestroySession id)) remote now) v (fun _ v' es =>
      v' = put_session n (s <| ss_client := None |>) v /\
      es = match ss_client s with Some true => [DestClose n] | _ => [] end)).
    { apply Hd. wp_steps. rewrite Hm. eapply wp_member; [exact Hs|]. unfold disconnectSvr. wp_steps.
      destruct (ss_client s) as [[]|]; by wp_steps. }
    apply wp_elim in H as ([] & v' & es & Heq & -> & ->). done.
  - intros Hm.
    assert (H : wp safe (server_handleControlMessage (encode_command (DestroySession id)) remote now) v (fun _ v' es =>
      v' = v /\ es = [])) by (apply Hd; wp_steps; rewrite Hm; by wp_steps).
    apply wp_elim in H as ([] & v' & es & Heq & -> & ->). done.
Qed.

Lemma server_commands_witness :
  (server_wf demo_server /\ is_u32 5) /\
  server_handleControlMessage (encode_command (DestroySession 5)) 99 2000 demo_server = Ok (tt, demo_server, []).
Proof.
  assert (H5 : is_u32 5) by (unfold is_u32; lia).
  split; [split; [exact demo_server_wf | exact H5]|].
  destruct (server_commands 5 99 2000 demo_server demo_server_wf H5) as (_ & _ & H & _).
  exact (H ltac:(vm_compute; reflexivity)).
Defined.

(** ** Losing the destination *)

(** [connectSvr] does not keep the callback it is given, so [connLostCb_] of
    every session is empty: when the destination closes a session's connection, or
    when it could not be reached within three seconds, the call of the empty
    function throws and the server process ends. *)
Theorem lost_connection_ends_process g sendto n s v :
  server_wf v -> sessions v !! n = Some s ->
  server_handle g sendto (DestDown n) v = Crash BadFunctionCall /\
  (ss_client s = Some false -> server_handle g sendto (DestCheck n) v = Crash BadFunctionCall).
Proof.
  intros Hv Hs. pose proof Hs as [id [_ _ Hcb]]%(svw_sessions _ Hv). split.
  - cbn [server_handle]. unfold with_lost, mthen, on_ssession, member. rewrite Hs.
    unfold server_onConnection, call_connLostCb, mthen, mget. by rewrite Hcb.
  - intros Hc. cbn [server_handle]. unfold with_lost, mthen, on_ssession, member. rewrite Hs.
    unfold onCheckConnection, call_connLostCb, mthen, mget. rewrite Hc. unfold mmod. simpl. by rewrite Hcb.
Qed.

Lemma lost_connection_ends_process_witness :
  (server_wf demo_server /\ sv_sessionMap demo_server = {[ 1600086400 := 0%nat ]}) /\
  server_handle 5 (fun _ d => Z.of_nat (length d)) (DestDown 0) demo_server = Crash BadFunctionCall /\
  server_handle 5 (fun _ d => Z.of_nat (length d)) (DestCheck 0) demo_server = Crash BadFunctionCall.
Proof.
  split; [split; [exact demo_server_wf | vm_compute; reflexivity]|].
  assert (Hs : sessions demo_server !! 0%nat = Some (new_KcpServerSession 1600086400 99 1000))
    by (vm_compute; reflexivity).
  destruct (lost_connection_ends_process 5 (fun _ d => Z.of_nat (length d)) 0%nat _ demo_server demo_server_wf Hs) as [H1 H2].
  split; [exact H1 | exact (H2 eq_refl)].
Defined.

(** ** Relaying *)

(** The server relays both ways.  A datagram for a registered number goes
    through KCP; its first complete message goes to the destination if the
    connection is up, is kept in order while it is being made, and is dropped when
    the client was given up.  When the connection comes up, everything kept is sent
    in order and the list is empty.  Bytes of the destination are queued as one KCP
    message of the session. *)
Theorem server_relays g sendto v :
  server_wf v -> server_room v ->
  (forall id n s d remote now, sv_sessionMap v !! id = Some n -> sessions v !! n = Some s ->
     ikcp_getconv d = id -> ikcp_getsn d (Z.of_nat (length d)) <> u32 (-1) ->
     Z.of_nat (length d) <= DATAGRAM_MAX ->
     exists s' es, server_handle g sendto (UdpReadable (Some d) remote now) v = Ok (tt, put_session n s' v, es) /\
       let '(payload, k') := payload_of (ss_kcp s) d in
       ss_kcp s' = k' /\
       if is_empty payload then s' = s <| ss_kcp := k' |> /\ es = []
       else ss_lastActive s' = now /\
         match ss_client s with
         | Some true => es = [DestSend n payload] /\ ss_payloadList s' = ss_payloadList s
         | Some false => es = [] /\ ss_payloadList s' = ss_payloadList s ++ [payload]
         | None => es = [] /\ ss_payloadList s' = ss_payloadList s
         end) /\
  (forall n s, sessions v !! n = Some s ->
     server_handle g sendto (DestUp n) v =
       Ok (tt, put_session n (s <| ss_client := Some true |> <| ss_payloadList := [] |>) v,
           DestSend n <$> ss_payloadList s)) /\
  (forall n s buf q, sessions v !! n = Some s -> holds buf q -> Z.of_nat (length q) <= MESSAGE_MAX ->
     exists k', server_handle g sendto (DestData n buf) v = Ok (tt, put_session n (s <| ss_kcp := k' |>) v, []) /\
       queued k' = queued (ss_kcp s) ++ msg_frags 1376 q).
Proof.
  intros Hv Hroom. split_and!.
  - intros id n s d remote now Hm Hs Hconv Hsn Hl. destruct (svw_map _ Hv id n Hm) as (Hne & t & Ht & Hw).
    rewrite Hs in Ht. injection Ht as <-.
    assert (H : wp safe (server_handle g sendto (UdpReadable (Some d) remote now)) v (fun _ v' es =>
      exists s', v' = put_session n s' v /\ let '(payload, k') := payload_of (ss_kcp s) d in
       ss_kcp s' = k' /\
       if is_empty payload then s' = s <| ss_kcp := k' |> /\ es = []
       else ss_lastActive s' = now /\
         match ss_client s with
         | Some true => es = [DestSend n payload] /\ ss_payloadList s' = ss_payloadList s
         | Some false => es = [] /\ ss_payloadList s' = ss_payloadList s ++ [payload]
         | None => es = [] /\ ss_payloadList s' = ss_payloadList s
         end)).
    { cbn [server_handle]. unfold onUdpTunnelReadable, dispatchKcpPacket. cbv zeta. rewrite Hconv.
      rewrite (proj2 (Z.eqb_neq _ _) Hsn), (proj2 (Z.eqb_neq _ _) Hne). wp_steps. rewrite Hm.
      eapply wp_member; [exact Hs|].
      eapply wp_mono; [by apply (wp_server_recv id n s d now); [|eapply (proj2 Hroom)|]|].
      intros [] s' es (_ & _ & H). exists s'. by split. }
    apply wp_elim in H as ([] & v' & es & Heq & s' & -> & H). by exists s', es.
  - intros n s Hs. pose proof Hs as [id Hw]%(svw_sessions _ Hv).
    assert (H : wp safe (server_handle g sendto (DestUp n)) v (fun _ v' es =>
      v' = put_session n (s <| ss_client := Some true |> <| ss_payloadList := [] |>) v /\
      es = DestSend n <$> ss_payloadList s)).
    { cbn [server_handle]. unfold with_lost. wp_steps. eapply wp_member; [exact Hs|]. wp_steps.
      set (s1 := s <| ss_client := Some true |>).
      assert (Hw1 : ssession_wf id s1) by (destruct Hw; by constructor).
      eapply (wp_member safe _ _ _ _ s1); [simpl; apply lookup_insert_eq|]. unfold server_onConnection. wp_steps.
      eapply wp_mono; [by apply (wp_send_payloads id)|]. intros [] s' es (_ & -> & ->). wp_steps.
      split; [|by rewrite !app_nil_r]. unfold put_session. simpl. by rewrite insert_insert_eq. }
    apply wp_elim in H as ([] & v' & es & Heq & -> & ->). done.
  - intros n s buf q Hs Hb Hl. pose proof Hs as [id Hw]%(svw_sessions _ Hv).
    assert (H : wp safe (server_handle g sendto (DestData n buf)) v (fun _ v' es => es = [] /\
      exists k', v' = put_session n (s <| ss_kcp := k' |>) v /\ queued k' = queued (ss_kcp s) ++ msg_frags 1376 q)).
    { cbn [server_handle]. wp_steps. eapply wp_member; [exact Hs|].
      eapply wp_mono; [by apply (wp_server_onMessage id s buf q)|].
      intros b s' es (_ & -> & _ & k' & -> & _ & Hq). wp_steps. split; [done|]. by exists k'. }
    apply wp_elim in H as ([] & v' & es & Heq & -> & k' & -> & Hq). by exists k'.
Qed.

Lemma server_relays_witness :
  (server_wf demo_server /\ server_room demo_server) /\
  server_handle 5 (fun _ d => Z.of_nat (length d)) (DestUp 0) demo_server =
    Ok (tt, put_session 0 (new_KcpServerSession 1600086400 99 1000 <| ss_client := Some true |>
                             <| ss_payloadList := [] |>) demo_server, []).
Proof.
  assert (Hs : forall n s, sessions demo_server !! n = Some s ->
    n = 0%nat /\ s = new_KcpServerSession 1600086400 99 1000).
  { assert (E : sessions demo_server = {[ 0%nat := new_KcpServerSession 1600086400 99 1000 ]})
      by (vm_compute; reflexivity).
    intros n s. rewrite E, lookup_singleton_Some. naive_solver. }
  assert (Hr : server_room demo_server).
  { split; [vm_compute; done|]. intros n s H. apply Hs in H as [_ ->]. vm_compute. done. }
  split; [split; [exact demo_server_wf | exact Hr]|].
  destruct (server_relays 5 (fun _ d => Z.of_nat (length d)) demo_server demo_server_wf Hr) as (_ & H & _).
  exact (H 0%nat (new_KcpServerSession 1600086400 99 1000) ltac:(vm_compute; reflexivity)).
Defined.

(** The assertion [sendRet == 0] of [onMessage] cannot fail: one read of a
    drained connection buffer brings at most 131071 bytes, which KCP splits into
    fewer than its 128 fragments.  The bytes read are queued as one message, the
    buffer is drained, and the same holds for the next read. *)
Theorem tcp_reads_accepted id s b data :
  ssession_wf id s -> holds b [] -> readerIndex_ b = kCheapPrepend ->
  buffer_size b <= kCheapPrepend + READ_MAX -> Z.of_nat (length data) <= iov_total b ->
  exists b1 k', readFd b (Some data) = Ok (Z.of_nat (length data), b1) /\
    server_onMessage b1 s = Ok (retrieveAll b1, s <| ss_kcp := k' |>, []) /\
    queued k' = queued (ss_kcp s) ++ msg_frags 1376 data /\
    holds (retrieveAll b1) [] /\ readerIndex_ (retrieveAll b1) = kCheapPrepend /\
    buffer_size (retrieveAll b1) <= kCheapPrepend + READ_MAX.
Proof.
  intros Hs Hb Hr Hsz Hl.
  destruct (readFd_holds b [] data Hb) as ((b1 & Heq & Hb1) & _ & Hmax);
    [unfold kCheapPrepend, READ_MAX, EXTRABUF, VECTOR_MAX in *; lia | done |].
  destruct (Hmax eq_refl Hr Hsz) as (Hd & b2 & Heq2 & Hsz2). rewrite Heq in Heq2. injection Heq2 as <-.
  destruct (wp_elim _ _ _ (wp_server_onMessage id s b1 data Hs Hb1 ltac:(unfold READ_MAX, MESSAGE_MAX in *; lia)))
    as (b3 & s' & es & Hm & -> & -> & _ & k' & -> & _ & Hq).
  exists b1, k'. split_and!; try done. destruct Hb1 as [[] _].
  split; [|reflexivity].
  unfold kCheapPrepend in *. constructor; simpl; unfold kCheapPrepend; [lia | apply bw_size | apply bw_size].
Qed.

Lemma tcp_reads_accepted_witness :
  let s := new_KcpServerSession 7 99 1000 in
  let b := {| buffer_ := replicate 1032 (z2b 0); readerIndex_ := 8; writerIndex_ := 8 |} in
  let data := replicate 3000 (z2b 65) in
  (new_Buffer kInitialSize = Ok b /\ ssession_wf 7 s /\ Z.of_nat (length data) <= iov_total b) /\
  exists b1 k', readFd b (Some data) = Ok (Z.of_nat (length data), b1) /\
    server_onMessage b1 s = Ok (retrieveAll b1, s <| ss_kcp := k' |>, []) /\
    queued k' = queued (ss_kcp s) ++ msg_frags 1376 data /\
    holds (retrieveAll b1) [] /\ readerIndex_ (retrieveAll b1) = kCheapPrepend /\
    buffer_size (retrieveAll b1) <= kCheapPrepend + READ_MAX.
Proof.
  intros s b data.
  assert (Hs : ssession_wf 7 s) by (apply ssession_wf_new; unfold is_u32; lia).
  assert (Hb : holds b []).
  { split; [|reflexivity]. constructor; vm_compute; intuition congruence. }
  assert (Hl : Z.of_nat (length data) <= iov_total b) by (vm_compute; congruence).
  split; [split; [vm_compute; reflexivity | split; [exact Hs | exact Hl]]|].
  exact (tcp_reads_accepted 7 s b data Hs Hb eq_refl ltac:(vm_compute; congruence) Hl).
Defined.

(** ** Idle sessions *)

Definition idle_entry (now : Z) (v : KcpServer) (n : nat) : bool :=
  match sessions v !! n with Some s => isIdle now s | None => false end.

Lemma wp_dead_entries now v0 : forall l v,
  sessions v = sessions v0 -> (forall id n, (id, n) ∈ l -> is_Some (sessions v0 !! n)) ->
  wp safe (for_ l (fun '(id, n) =>
    do idle <- on_ssession n (mget (isIdle now));
    if idle : bool then mmod (fun v => v <| sv_sessionMap := delete id (sv_sessionMap v) |>) else mret tt)) v
  (fun _ v' es => es = [] /\ v' = v <| sv_sessionMap :=
     foldl (fun m e => if idle_entry now v0 e.2 then delete e.1 m else m) (sv_sessionMap v) l |>).
Proof.
  induction l as [|[id n] l IH]; intros v Hv Hl; simpl.
  - apply wp_ret. split; [done|]. by destruct v.
  - destruct (Hl id n) as [s Hs]; [by left|]. wp_steps.
    eapply wp_member; [by rewrite Hv|]. apply wp_get.
    assert (E : v <| sessions := <[n := s]> (sessions v) |> = v).
    { rewrite insert_id by (by rewrite Hv). by destruct v. }
    rewrite E. assert (Hi : idle_entry now v0 n = isIdle now s) by (unfold idle_entry; by rewrite Hs).
    rewrite Hi. destruct (isIdle now s); wp_steps.
    + eapply wp_mono; [apply IH; [done|]; intros i m Hm; apply (Hl i); by right|].
      simpl. intros ? v' es [-> ->]. by split.
    + eapply wp_mono; [apply IH; [done|]; intros i m Hm; apply (Hl i); by right|].
      simpl. intros ? v' es [-> ->]. by split.
Qed.

Lemma foldl_delete (f : nat -> bool) l : forall (m : gmap Z nat) id,
  NoDup (l.*1) -> (forall i n, (i, n) ∈ l -> m !! i = Some n) ->
  foldl (fun m e => if f e.2 then delete e.1 m else m) m l !! id =
    match m !! id with
    | Some n => if bool_decide (id ∈ l.*1) && f n then None else Some n
    | None => None
    end.
Proof.
  induction l as [|[i n] l IH]; intros m id Hnd Hl; csimpl.
  - by destruct (m !! id).
  - apply NoDup_cons in Hnd as [Hi Hnd]. pose proof (Hl i n ltac:(by left)) as Hmi. rewrite IH; [|done|].
    + destruct (decide (id = i)) as [->|Hne].
      * rewrite (bool_decide_eq_false_2 (i ∈ l.*1)) by done. rewrite bool_decide_eq_true_2 by (by left).
        rewrite Hmi. destruct (f n); simpl; [by rewrite lookup_delete_eq | by rewrite Hmi].
      * assert (E : bool_decide (id ∈ i :: l.*1) = bool_decide (id ∈ l.*1))
          by (apply bool_decide_ext; rewrite elem_of_cons; naive_solver).
        rewrite E. destruct (f n); [|done]. by rewrite lookup_delete_ne.
    + intros j k Hj. assert (j <> i).
      { intros ->. apply Hi. apply list_elem_of_fmap. by exists (i, k). }
      destruct (f n); [rewrite lookup_delete_ne by done|]; apply Hl; by right.
Qed.

(** The 15-second timer unregisters exactly the sessions without data from the
    tunnel for more than an hour; the others stay registered, no session object is
    changed and nothing is sent. *)
Theorem dead_sessions_removed g sendto now v :
  server_wf v ->
  exists m, server_handle g sendto (DeadTick now) v = Ok (tt, v <| sv_sessionMap := m |>, []) /\
    forall id, m !! id = match sv_sessionMap v !! id with
                         | Some n => if idle_entry now v n then None else Some n
                         | None => None
                         end.
Proof.
  intros Hv. set (l := ordered (sv_sessionMap v)).
  assert (Hl : forall id n, (id, n) ∈ l <-> sv_sessionMap v !! id = Some n) by (intros; apply ordered_elem).
  exists (foldl (fun m e => if idle_entry now v e.2 then delete e.1 m else m) (sv_sessionMap v) l). split.
  - assert (H : wp safe (server_handle g sendto (DeadTick now)) v (fun _ v' es => es = [] /\
      v' = v <| sv_sessionMap := foldl (fun m e => if idle_entry now v e.2 then delete e.1 m else m) (sv_sessionMap v) l |>)).
    { cbn [server_handle]. unfold onCheckDeadSessionTimer. wp_steps.
      apply (wp_dead_entries now v); [done|]. intros id n Hin%Hl.
      destruct (svw_map _ Hv id n Hin) as (_ & s & Hs & _). by exists s. }
    apply wp_elim in H as ([] & v' & es & Heq & -> & ->). exact Heq.
  - intros id. rewrite foldl_delete.
    + destruct (sv_sessionMap v !! id) as [n|] eqn:Hm; [|done].
      rewrite bool_decide_eq_true_2; [done|]. apply list_elem_of_fmap. exists (id, n). split; [done|]. by apply Hl.
    + unfold l, ordered. rewrite merge_sort_Permutation. apply NoDup_fst_map_to_list.
    + intros i n. apply Hl.
Qed.

Lemma dead_sessions_removed_witness :
  server_wf demo_server /\
  exists m, server_handle 5 (fun _ _ => 0) (DeadTick 3600001001) demo_server =
      Ok (tt, demo_server <| sv_sessionMap := m |>, []) /\
    forall id, m !! id = match sv_sessionMap demo_server !! id with
                         | Some n => if idle_entry 3600001001 demo_server n then None else Some n
                         | None => None
                         end.
Proof.
  split; [exact demo_server_wf|]. exact (dead_sessions_removed 5 (fun _ _ => 0) 3600001001 demo_server demo_server_wf).
Defined.

