(* ===== verification/Channel.v ===== *)
(** * Channels

    [muduo/net/Channel.h] and [Channel.cc]: the events a file descriptor is
    registered for, and the dispatch of reported events to callbacks.  A channel
    is part of some owner's state, which [chan] and [set_chan] reach; the event
    loop it tells about changes is [loop_update] and [loop_remove].  The
    destructor's question to the loop, [hasChannel], and the log lines are left
    out. *)

From stdpp Require Import strings pretty.
From S2P Require Import Prelude Effects.

Open Scope Z_scope.
Open Scope handler_scope.

(** ** Event flags *)

(** The values of [<poll.h>] on Linux. *)
Definition POLLIN : Z := 1.
Definition POLLPRI : Z := 2.
Definition POLLOUT : Z := 4.
Definition POLLERR : Z := 8.
Definition POLLHUP : Z := 16.
Definition POLLNVAL : Z := 32.
Definition POLLRDHUP : Z := 8192.

Definition kNoneEvent : Z := 0.
Definition kReadEvent : Z := Z.lor POLLIN POLLPRI.
Definition kWriteEvent : Z := POLLOUT.

Definition any_of (ev mask : Z) : bool := negb (Z.land ev mask =? 0).

(** ** The object *)

Record Channel := mk_Channel {
  fd_ : Z;
  events_ : Z;
  revents_ : Z;
  index_ : Z;
  logHup_ : bool;
  tie_ : bool;             (* whether the tied object still exists *)
  tied_ : bool;
  eventHandling_ : bool;
  addedToLoop_ : bool
}.

Definition eta_channel (c : Channel) : Channel :=
  mk_Channel (fd_ c) (events_ c) (revents_ c) (index_ c) (logHup_ c) (tie_ c) (tied_ c)
    (eventHandling_ c) (addedToLoop_ c).
#[export] Instance set_events_ : Setter events_ := ltac:(build_setter eta_channel events_).
#[export] Instance set_revents_ : Setter revents_ := ltac:(build_setter eta_channel revents_).
#[export] Instance set_index_ : Setter index_ := ltac:(build_setter eta_channel index_).
#[export] Instance set_logHup_ : Setter logHup_ := ltac:(build_setter eta_channel logHup_).
#[export] Instance set_tie_ : Setter tie_ := ltac:(build_setter eta_channel tie_).
#[export] Instance set_tied_ : Setter tied_ := ltac:(build_setter eta_channel tied_).
#[export] Instance set_eventHandling_ : Setter eventHandling_ := ltac:(build_setter eta_channel eventHandling_).
#[export] Instance set_addedToLoop_ : Setter addedToLoop_ := ltac:(build_setter eta_channel addedToLoop_).

Definition new_Channel (fd : Z) : Channel := {|
  fd_ := fd; events_ := 0; revents_ := 0; index_ := -1; logHup_ := true;
  tie_ := false; tied_ := false; eventHandling_ := false; addedToLoop_ := false |}.

(** The assertions of the destructor. *)
Definition delete_Channel (c : Channel) : outcome unit :=
  bind (assert_ (negb (eventHandling_ c))) (fun _ => assert_ (negb (addedToLoop_ c))).

Definition tie (c : Channel) : Channel := c <| tie_ := true |> <| tied_ := true |>.
Definition set_revents (revt : Z) (c : Channel) : Channel := c <| revents_ := revt |>.
Definition set_index (idx : Z) (c : Channel) : Channel := c <| index_ := idx |>.
Definition doNotLogHup (c : Channel) : Channel := c <| logHup_ := false |>.
Definition isNoneEvent (c : Channel) : bool := events_ c =? kNoneEvent.
Definition isWriting (c : Channel) : bool := any_of (events_ c) kWriteEvent.
Definition isReading (c : Channel) : bool := any_of (events_ c) kReadEvent.

(** A change of the registered events, as [enableReading] and its relatives
    make it: the new value of [events_]. *)
Inductive change := EnableReading | DisableReading | EnableWriting | DisableWriting | DisableAll.

Definition apply_change (ch : change) (ev : Z) : Z :=
  match ch with
  | EnableReading => Z.lor ev kReadEvent
  | DisableReading => Z.land ev (Z.lnot kReadEvent)
  | EnableWriting => Z.lor ev kWriteEvent
  | DisableWriting => Z.land ev (Z.lnot kWriteEvent)
  | DisableAll => kNoneEvent
  end.

(** [eventsToString]: the names of the flags that are set. *)
Definition eventsToString (fd ev : Z) : string :=
  (pretty fd +:+ ": " +:+
   (if any_of ev POLLIN then "IN " else "") +:+
   (if any_of ev POLLPRI then "PRI " else "") +:+
   (if any_of ev POLLOUT then "OUT " else "") +:+
   (if any_of ev POLLHUP then "HUP " else "") +:+
   (if any_of ev POLLRDHUP then "RDHUP " else "") +:+
   (if any_of ev POLLERR then "ERR " else "") +:+
   (if any_of ev POLLNVAL then "NVAL " else ""))%string.

(** ** Operations inside an owner *)

Section channel.
Context {S E : Type}.
Variable chan : S -> option Channel.
Variable set_chan : Channel -> S -> S.
Variable loop_update loop_remove : M S E unit.

Definition change_channel (f : Channel -> Channel) : M S E unit := member chan set_chan (mmod f).
Definition ask_channel {A} (f : Channel -> A) : M S E A := member chan set_chan (mget f).

Definition update : M S E unit :=
  do _ <- change_channel (fun c => c <| addedToLoop_ := true |>);
  loop_update.

Definition change_events (ch : change) : M S E unit :=
  do _ <- change_channel (fun c => c <| events_ := apply_change ch (events_ c) |>);
  update.
Definition enableReading := change_events EnableReading.
Definition disableReading := change_events DisableReading.
Definition enableWriting := change_events EnableWriting.
Definition disableWriting := change_events DisableWriting.
Definition disableAll := change_events DisableAll.

Definition remove : M S E unit :=
  do none <- ask_channel isNoneEvent;
  do _ <- massert none;
  do _ <- change_channel (fun c => c <| addedToLoop_ := false |>);
  loop_remove.

(** The callbacks; one that is not set is [None]. *)
Record callbacks := {
  readCallback_ : option (Z -> M S E unit);
  writeCallback_ : option (M S E unit);
  closeCallback_ : option (M S E unit);
  errorCallback_ : option (M S E unit)
}.
Variable cb : callbacks.

Definition run (f : option (M S E unit)) : M S E unit :=
  match f with Some f => f | None => mret tt end.

Definition handleEventWithGuard (receiveTime : Z) : M S E unit :=
  do _ <- change_channel (fun c => c <| eventHandling_ := true |>);
  do rev <- ask_channel revents_;
  do _ <- (if any_of rev POLLHUP && negb (any_of rev POLLIN) then run (closeCallback_ cb) else mret tt);
  do rev <- ask_channel revents_;
  do _ <- (if any_of rev (Z.lor POLLERR POLLNVAL) then run (errorCallback_ cb) else mret tt);
  do rev <- ask_channel revents_;
  do _ <- (if any_of rev (Z.lor (Z.lor POLLIN POLLPRI) POLLRDHUP)
           then run (option_map (fun f => f receiveTime) (readCallback_ cb)) else mret tt);
  do rev <- ask_channel revents_;
  do _ <- (if any_of rev POLLOUT then run (writeCallback_ cb) else mret tt);
  change_channel (fun c => c <| eventHandling_ := false |>).

Definition handleEvent (receiveTime : Z) : M S E unit :=
  do tied <- ask_channel tied_;
  if tied then
    do guard <- ask_channel tie_;
    if guard then handleEventWithGuard receiveTime else mret tt
  else handleEventWithGuard receiveTime.

(** ** Rules *)

Lemma wp_change_channel C s c f Q :
  chan s = Some c -> Q tt (set_chan (f c) s) [] -> wp C (change_channel f) s Q.
Proof. intros Hc HQ. eapply wp_member; [done|]. by apply wp_mod. Qed.

Hypothesis set_same : forall s c, chan s = Some c -> set_chan c s = s.

Lemma wp_ask_channel {A} C s c (f : Channel -> A) (Q : A -> S -> list E -> Prop) :
  chan s = Some c -> Q (f c) s [] -> wp C (ask_channel f) s Q.
Proof. intros Hc HQ. eapply wp_member; [done|]. apply wp_get. by rewrite set_same. Qed.
End channel.

Arguments callbacks : clear implicits.

(** ** The flags of a registration *)

(** Only read and write interest is ever registered. *)
Definition events_ok (ev : Z) : Prop := ev = 0 \/ ev = 3 \/ ev = 4 \/ ev = 7.

Lemma apply_change_ok ch ev : events_ok ev -> events_ok (apply_change ch ev).
Proof. destruct ch; intros [-> | [-> | [-> | ->]]]; unfold events_ok; vm_compute; tauto. Qed.

Definition reads (ev : Z) : bool := any_of ev kReadEvent.
Definition writes (ev : Z) : bool := any_of ev kWriteEvent.

Lemma apply_change_flags ch ev : events_ok ev ->
  reads (apply_change ch ev) = match ch with EnableReading => true | DisableReading | DisableAll => false | _ => reads ev end /\
  writes (apply_change ch ev) = match ch with EnableWriting => true | DisableWriting | DisableAll => false | _ => writes ev end.
Proof. destruct ch; intros [-> | [-> | [-> | ->]]]; by vm_compute. Qed.

Lemma none_flags ev : events_ok ev -> (ev =? kNoneEvent) = negb (reads ev || writes ev).
Proof. intros [-> | [-> | [-> | ->]]]; by vm_compute. Qed.
