(* ===== verification/Poller.v ===== *)
(** * Pollers

    [muduo/net/Poller.h]: the interface between the channels and a way to wait
    for their events.  [PollerImpl] has the operations of the class, [PollerLaws]
    what an implementation promises with respect to an abstract state: which
    channels exist and for which events each is registered.  The files
    [EPollPoller.v] and [PollPoller.v] discharge the laws; the theorem at the end
    of this file is about every implementation. *)

From S2P Require Import Prelude Channel.

Open Scope outcome_scope.

(** ** Memory *)

(** The channels, by address. *)
Abbreviation channel_heap := (gmap Z Channel).

Definition deref (h : channel_heap) (p : Z) : outcome Channel :=
  match h !! p with Some c => Ok c | None => Crash NullDeref end.

(** [ChannelMap]: the registered channels by descriptor. *)
Abbreviation channel_map := (gmap Z Z).

Definition hasChannel (m : channel_map) (h : channel_heap) (p : Z) : outcome bool :=
  let* c := deref h p in
  Ok (bool_decide (m !! fd_ c = Some p)).

(** ** The interface *)

Class PollerImpl (P : Type) := {
  updateChannel : channel_heap -> P -> Z -> outcome (channel_heap * P);
  removeChannel : channel_heap -> P -> Z -> outcome (channel_heap * P);
  (** the descriptors the kernel watches, with the events; with the events 0 it
      still reports errors and hang-ups *)
  asked : P -> gmap Z Z
}.

(** The abstract state: the descriptor of each channel and the events it is
    registered for, [None] before its first registration. *)
Abbreviation registry := (gmap Z (Z * option Z)).

(** The same channel but for its index, which belongs to the poller. *)
Definition same_channel (c c' : Channel) : Prop := c' = set_index (index_ c') c.

Class PollerLaws (P : Type) `{!PollerImpl P} := {
  poller_inv : channel_heap -> P -> registry -> Prop;
  inv_new h s a p fd : poller_inv h s a -> h !! p = None -> 0 <= fd ->
    poller_inv (<[p := new_Channel fd]> h) s (<[p := (fd, None)]> a);
  inv_touch h s a p c c' : poller_inv h s a -> h !! p = Some c ->
    fd_ c' = fd_ c -> index_ c' = index_ c -> poller_inv (<[p := c']> h) s a;
  inv_domain h s a p : poller_inv h s a ->
    match h !! p, a !! p with
    | Some c, Some (fd, _) => fd_ c = fd
    | None, None => True
    | _, _ => False
    end;
  update_law h s a p c fd r : poller_inv h s a -> h !! p = Some c -> a !! p = Some (fd, r) ->
    events_ok (events_ c) ->
    (r = None -> events_ c <> 0 /\ forall q ev, a !! q <> Some (fd, Some ev)) ->
    exists c' s', updateChannel h s p = Ok (<[p := c']> h, s') /\ same_channel c c' /\
      poller_inv (<[p := c']> h) s' (<[p := (fd, Some (events_ c))]> a);
  remove_law h s a p c fd : poller_inv h s a -> h !! p = Some c -> a !! p = Some (fd, Some 0) ->
    events_ c = 0 ->
    exists h' s', removeChannel h s p = Ok (h', s') /\ poller_inv (delete p h') s' (delete p a) /\
      forall q cq, q <> p -> h !! q = Some cq -> exists cq', h' !! q = Some cq' /\ same_channel cq cq';
  asked_law h s a fd ev : poller_inv h s a -> ev <> 0 ->
    asked s !! fd = Some ev <-> exists p, a !! p = Some (fd, Some ev)
}.

(** ** Clients *)

(** What the owners of channels do: create one, change what it waits for, and
    remove and destroy it. *)
Inductive channel_op :=
  | NewChannel (p fd : Z)
  | ChangeEvents (p : Z) (ch : change)
  | RemoveChannel (p : Z).

Section client.
Context {P : Type} `{!PollerImpl P}.

Definition exec (h : channel_heap) (s : P) (o : channel_op) : outcome (channel_heap * P) :=
  match o with
  | NewChannel p fd => Ok (<[p := new_Channel fd]> h, s)
  | ChangeEvents p ch =>
      let* c := deref h p in
      let c := c <| events_ := apply_change ch (events_ c) |> <| addedToLoop_ := true |> in
      updateChannel (<[p := c]> h) s p
  | RemoveChannel p =>
      let* c := deref h p in
      let* _ := assert_ (isNoneEvent c) in
      let* (h, s) := removeChannel (<[p := c <| addedToLoop_ := false |>]> h) s p in
      Ok (delete p h, s)
  end.

Fixpoint exec_all (h : channel_heap) (s : P) (os : list channel_op) : outcome (channel_heap * P) :=
  match os with
  | [] => Ok (h, s)
  | o :: os => let* (h, s) := exec h s o in exec_all h s os
  end.
End client.

(** The abstract effect of an operation; [None] is misuse: a channel whose first
    registration asks for nothing or whose descriptor another channel uses, or
    one that is removed while it waits for events or was never registered. *)
Definition spec (a : registry) (o : channel_op) : option registry :=
  match o with
  | NewChannel p fd =>
      if bool_decide (a !! p = None) && (0 <=? fd) then Some (<[p := (fd, None)]> a) else None
  | ChangeEvents p ch =>
      match a !! p with
      | Some (fd, Some ev) => Some (<[p := (fd, Some (apply_change ch ev))]> a)
      | Some (fd, None) =>
          if negb (apply_change ch 0 =? 0) &&
             bool_decide (map_Forall (fun _ v => fst v <> fd \/ snd v = None) a)
          then Some (<[p := (fd, Some (apply_change ch 0))]> a) else None
      | None => None
      end
  | RemoveChannel p =>
      match a !! p with
      | Some (_, Some 0) => Some (delete p a)
      | _ => None
      end
  end.

Fixpoint spec_all (a : registry) (os : list channel_op) : option registry :=
  match os with
  | [] => Some a
  | o :: os => match spec a o with Some a => spec_all a os | None => None end
  end.

(** Of the channels that want nothing, those that were told so again: every
    second time counts. *)
Definition again (a : registry) (i : gset Z) (o : channel_op) : gset Z :=
  match o with
  | NewChannel p _ | RemoveChannel p => i ∖ {[p]}
  | ChangeEvents p ch =>
      match a !! p with
      | Some (_, Some 0) => if (apply_change ch 0 =? 0) && bool_decide (p ∉ i) then {[p]} ∪ i else i ∖ {[p]}
      | _ => i ∖ {[p]}
      end
  end.
Fixpoint again_all (a : registry) (i : gset Z) (os : list channel_op) : gset Z :=
  match os with
  | [] => i
  | o :: os => match spec a o with Some a' => again_all a' (again a i o) os | None => i end
  end.

Section refinement.
Context {P : Type} `{!PollerImpl P, !PollerLaws P}.

(** The events a channel wants are those it is registered for. *)
Definition in_sync (h : channel_heap) (a : registry) : Prop :=
  forall p c fd r, h !! p = Some c -> a !! p = Some (fd, r) ->
    events_ c = default 0 r /\ events_ok (events_ c).

Lemma deref_ok h p c : h !! p = Some c -> deref h p = Ok c.
Proof. unfold deref. by intros ->. Qed.

Lemma registered_channel h s a p v : poller_inv h s a -> a !! p = Some v ->
  exists c, h !! p = Some c /\ fd_ c = fst v.
Proof.
  intros Hi Ha. pose proof (inv_domain _ _ _ p Hi) as Hd. rewrite Ha in Hd. destruct v as [fd r].
  destruct (h !! p) as [c|]; [by exists c | done].
Qed.

Lemma in_sync_update h a p c c' fd :
  in_sync h a -> events_ok (events_ c) -> same_channel c c' ->
  in_sync (<[p := c']> h) (<[p := (fd, Some (events_ c))]> a).
Proof.
  intros Hs Hok Hc q cq fq rq. destruct (decide (p = q)) as [->|Hne].
  - rewrite !lookup_insert_eq. intros [= <-] [= <- <-]. by rewrite Hc.
  - rewrite !lookup_insert_ne by done. apply Hs.
Qed.

Lemma exec_refines h s a o a' : poller_inv h s a -> in_sync h a -> spec a o = Some a' ->
  exists h' s', exec h s o = Ok (h', s') /\ poller_inv h' s' a' /\ in_sync h' a'.
Proof.
  intros Hi Hs. destruct o as [p fd|p ch|p]; cbn [spec exec].
  - destruct (bool_decide (a !! p = None)) eqn:Hp; [|done]. destruct (0 <=? fd) eqn:Hfd; [|done].
    intros [= <-]. apply bool_decide_eq_true in Hp. reflect_bools.
    pose proof (inv_domain _ _ _ p Hi) as Hd. rewrite Hp in Hd.
    destruct (h !! p) eqn:Hh; [done|]. do 2 eexists. split; [done|]. split; [by apply (inv_new h s a p fd)|].
    intros q cq fq rq. destruct (decide (p = q)) as [->|Hne].
    + rewrite !lookup_insert_eq. intros [= <-] [= <- <-]. split; [done | by left].
    + rewrite !lookup_insert_ne by done. apply Hs.
  - destruct (a !! p) as [[fd r]|] eqn:Ha; [|done].
    destruct (registered_channel _ _ _ _ _ Hi Ha) as (c & Hc & Hfd). destruct (Hs _ _ _ _ Hc Ha) as [Hev Hok].
    set (c1 := c <| events_ := apply_change ch (events_ c) |> <| addedToLoop_ := true |>).
    intros Hspec. assert (Hgo : (r = None -> events_ c1 <> 0 /\ forall q ev, a !! q <> Some (fd, Some ev)) /\
      a' = <[p := (fd, Some (events_ c1))]> a).
    { cbn [events_ c1 upd set_events_ set_addedToLoop_]. rewrite Hev. destruct r as [ev|]; cbn [default]; [by injection Hspec as <-|].
      destruct (apply_change ch 0 =? 0) eqn:Hz; [done|]. cbn [negb andb] in Hspec. case_bool_decide as Hall; [|done].
      injection Hspec as <-. reflect_bools. split; [|done]. intros _. split; [done|].
      intros q ev Hq. destruct (Hall q _ Hq) as [H|H]; [by cbn in H | done]. }
    destruct Hgo as [Hnew ->].
    assert (Hi1 : poller_inv (<[p := c1]> h) s a) by by eapply inv_touch.
    destruct (update_law (<[p := c1]> h) s a p c1 fd r Hi1) as (c' & s' & Hup & Hsame & Hinv);
      [by rewrite lookup_insert_eq | done | by apply apply_change_ok | done|].
    rewrite (deref_ok _ _ _ Hc). cbn [bind]. rewrite insert_insert_eq in *. fold c1. rewrite Hup.
    do 2 eexists. split; [done|]. split; [done|]. apply in_sync_update; [done | by apply apply_change_ok | done].
  - destruct (a !! p) as [[fd [[| |]|]]|] eqn:Ha; try done. intros [= <-].
    destruct (registered_channel _ _ _ _ _ Hi Ha) as (c & Hc & Hfd). destruct (Hs _ _ _ _ Hc Ha) as [Hev Hok].
    rewrite (deref_ok _ _ _ Hc). cbn [bind]. unfold isNoneEvent. rewrite Hev. cbn [default Z.eqb kNoneEvent assert_ bind].
    set (c1 := c <| addedToLoop_ := false |>).
    assert (Hi1 : poller_inv (<[p := c1]> h) s a) by by eapply inv_touch.
    destruct (remove_law (<[p := c1]> h) s a p c1 fd Hi1) as (h' & s' & -> & Hinv & Hrest);
      [by rewrite lookup_insert_eq | done | done|].
    cbn [bind]. do 2 eexists. split; [done|]. split; [done|].
    intros q cq fq rq. rewrite !lookup_delete_Some. intros [Hne Hq] [_ Hqa].
    pose proof (inv_domain _ _ _ q Hi) as Hd. rewrite Hqa in Hd. destruct (h !! q) as [c0|] eqn:Hh; [|done].
    destruct (Hrest q c0) as (cq' & Hq' & Hsame); [done | by rewrite lookup_insert_ne|].
    rewrite Hq in Hq'. injection Hq' as <-. rewrite Hsame. by apply (Hs q c0 fq rq).
Qed.

Lemma exec_all_refines os h s a a' : poller_inv h s a -> in_sync h a -> spec_all a os = Some a' ->
  exists h' s', exec_all h s os = Ok (h', s') /\ poller_inv h' s' a' /\ in_sync h' a'.
Proof.
  revert h s a. induction os as [|o os IH]; intros h s a Hi Hs; cbn [spec_all exec_all].
  - intros [= <-]. by exists h, s.
  - destruct (spec a o) as [a1|] eqn:Ho; [|done]. intros Hr.
    destruct (exec_refines _ _ _ _ _ Hi Hs Ho) as (h1 & s1 & -> & Hi1 & Hs1). cbn [bind]. by apply (IH h1 s1 a1).
Qed.
End refinement.
