(* ===== verification/EPollPoller.v ===== *)
(** * The epoll poller

    [muduo/net/poller/EPollPoller.h] and [EPollPoller.cc].  The kernel's
    [epoll(7)] object is a parameter: [epoll_ctl] and the set of descriptors it
    watches, with the documented behaviour as laws.  A channel carries in its
    index whether it is new, added to the kernel's set, or known but deleted
    from the set. *)

From S2P Require Import Prelude Channel Poller.

Open Scope outcome_scope.

Definition kNew : Z := -1.
Definition kAdded : Z := 1.
Definition kDeleted : Z := 2.

Definition EPOLL_CTL_ADD : Z := 1.
Definition EPOLL_CTL_DEL : Z := 2.
Definition EPOLL_CTL_MOD : Z := 3.

(** ** The kernel *)

(** [epoll_ctl k op fd events ptr] is the result and the object afterwards;
    [watched] is its interest list, with the events and the user data. *)
Class Epoll (K : Type) := {
  epoll_ctl : K -> Z -> Z -> Z -> Z -> Z * K;
  watched : K -> gmap Z (Z * Z)
}.

(** As long as descriptors are valid and memory suffices, adding fails only for
    a descriptor that is on the list, changing and deleting only for one that is
    not. *)
Class EpollLaws (K : Type) `{!Epoll K} := {
  ctl_add k fd ev p : watched k !! fd = None -> exists k',
    epoll_ctl k EPOLL_CTL_ADD fd ev p = (0, k') /\ watched k' = <[fd := (ev, p)]> (watched k);
  ctl_mod k fd ev p : is_Some (watched k !! fd) -> exists k',
    epoll_ctl k EPOLL_CTL_MOD fd ev p = (0, k') /\ watched k' = <[fd := (ev, p)]> (watched k);
  ctl_del k fd ev p : is_Some (watched k !! fd) -> exists k',
    epoll_ctl k EPOLL_CTL_DEL fd ev p = (0, k') /\ watched k' = delete fd (watched k)
}.

(** ** The class *)

Section epoll.
Context {K : Type} `{!Epoll K}.

Record EPollPoller := mk_EPollPoller {
  channels_ : channel_map;
  ep_size : Z;              (* events_.size() *)
  epollfd_ : K
}.

Definition eta_EPollPoller (s : EPollPoller) : EPollPoller :=
  mk_EPollPoller (channels_ s) (ep_size s) (epollfd_ s).
#[export] Instance set_channels_ : Setter channels_ := ltac:(build_setter eta_EPollPoller channels_).
#[export] Instance set_ep_size : Setter ep_size := ltac:(build_setter eta_EPollPoller ep_size).
#[export] Instance set_epollfd_ : Setter epollfd_ := ltac:(build_setter eta_EPollPoller epollfd_).

Definition kInitEventListSize : Z := 16.

Definition new_EPollPoller (k : K) : EPollPoller :=
  {| channels_ := ∅; ep_size := kInitEventListSize; epollfd_ := k |}.

(** Errors of [epoll_ctl] are fatal unless the descriptor was to be deleted. *)
Definition ep_update (operation : Z) (c : Channel) (p : Z) (s : EPollPoller) : outcome EPollPoller :=
  let '(r, k) := epoll_ctl (epollfd_ s) operation (fd_ c) (events_ c) p in
  if (r <? 0) && negb (operation =? EPOLL_CTL_DEL) then Crash Aborted
  else Ok (s <| epollfd_ := k |>).

(** [assert(channels_.find(fd) != end); assert(channels_[fd] == channel);] *)
Definition assert_known (m : channel_map) (fd p : Z) : outcome unit :=
  let* _ := assert_ (bool_decide (is_Some (m !! fd))) in
  assert_ (bool_decide (m !! fd = Some p)).

Definition ep_updateChannel (h : channel_heap) (s : EPollPoller) (p : Z) : outcome (channel_heap * EPollPoller) :=
  let* c := deref h p in
  let index := index_ c in
  let fd := fd_ c in
  if (index =? kNew) || (index =? kDeleted) then
    let* s :=
      (if index =? kNew then
         let* _ := assert_ (bool_decide (channels_ s !! fd = None)) in
         Ok (s <| channels_ := <[fd := p]> (channels_ s) |>)
       else
         let* _ := assert_known (channels_ s) fd p in
         Ok s) in
    let h := <[p := set_index kAdded c]> h in
    let* s := ep_update EPOLL_CTL_ADD c p s in
    Ok (h, s)
  else
    let* _ := assert_known (channels_ s) fd p in
    let* _ := assert_ (index =? kAdded) in
    if isNoneEvent c then
      let* s := ep_update EPOLL_CTL_DEL c p s in
      Ok (<[p := set_index kDeleted c]> h, s)
    else
      let* s := ep_update EPOLL_CTL_MOD c p s in
      Ok (h, s).

Definition ep_removeChannel (h : channel_heap) (s : EPollPoller) (p : Z) : outcome (channel_heap * EPollPoller) :=
  let* c := deref h p in
  let fd := fd_ c in
  let* _ := assert_known (channels_ s) fd p in
  let* _ := assert_ (isNoneEvent c) in
  let index := index_ c in
  let* _ := assert_ ((index =? kAdded) || (index =? kDeleted)) in
  let n := if bool_decide (is_Some (channels_ s !! fd)) then 1 else 0 in
  let s := s <| channels_ := delete fd (channels_ s) |> in
  let* _ := assert_ (n =? 1) in
  let* s := if index =? kAdded then ep_update EPOLL_CTL_DEL c p s else Ok s in
  Ok (<[p := set_index kNew c]> h, s).

(** [fillActiveChannels]: [ready] are the events and user data [epoll_wait]
    filled in. *)
Fixpoint ep_fill (m : channel_map) (h : channel_heap) (ready : list (Z * Z)) : outcome (channel_heap * list Z) :=
  match ready with
  | [] => Ok (h, [])
  | (ev, p) :: ready =>
      let* c := deref h p in
      let* _ := assert_known m (fd_ c) p in
      let h := <[p := set_revents ev c]> h in
      let* (h, active) := ep_fill m h ready in
      Ok (h, p :: active)
  end.
Definition ep_fillActiveChannels (s : EPollPoller) (h : channel_heap) (ready : list (Z * Z)) :
    outcome (channel_heap * list Z) :=
  let* _ := assert_ (Z.of_nat (length ready) <=? ep_size s) in
  ep_fill (channels_ s) h ready.

(** [poll]: [None] is an error of [epoll_wait]; the result has the channels with
    events.  A full event list grows. *)
Definition ep_poll (s : EPollPoller) (h : channel_heap) (answer : option (list (Z * Z))) :
    outcome (EPollPoller * channel_heap * list Z) :=
  match answer with
  | Some ready =>
      if 0 <? Z.of_nat (length ready) then
        let* (h, active) := ep_fillActiveChannels s h ready in
        let s := if Z.of_nat (length ready) =? ep_size s then s <| ep_size := ep_size s * 2 |> else s in
        Ok (s, h, active)
      else Ok (s, h, [])
  | None => Ok (s, h, [])
  end.

#[export] Instance epoll_impl : PollerImpl EPollPoller := {
  updateChannel := ep_updateChannel;
  removeChannel := ep_removeChannel;
  asked s := fst <$> watched (epollfd_ s)
}.
End epoll.

Arguments EPollPoller : clear implicits.

(** ** The laws *)

Section laws.
Context {K : Type} `{!Epoll K, !EpollLaws K}.

(** A channel's index, its registration and the kernel's list. *)
Definition index_ok (s : EPollPoller K) (p fd : Z) (r : option Z) (index : Z) : Prop :=
  match r with
  | None => index = kNew
  | Some ev =>
      index = kAdded /\ watched (epollfd_ s) !! fd = Some (ev, p) \/
      index = kDeleted /\ ev = 0 /\ watched (epollfd_ s) !! fd = None
  end.

Record ep_inv (h : channel_heap) (s : EPollPoller K) (a : registry) : Prop := {
  ei_channel p : match h !! p, a !! p with
    | Some c, Some (fd, r) => fd_ c = fd /\ index_ok s p fd r (index_ c)
    | None, None => True
    | _, _ => False
    end;
  ei_map fd p : channels_ s !! fd = Some p <-> exists ev, a !! p = Some (fd, Some ev);
  ei_kernel fd ev p : watched (epollfd_ s) !! fd = Some (ev, p) -> a !! p = Some (fd, Some ev)
}.

Lemma ei_lookup h s a p c : ep_inv h s a -> h !! p = Some c ->
  exists r, a !! p = Some (fd_ c, r) /\ index_ok s p (fd_ c) r (index_ c).
Proof.
  intros Hi Hc. pose proof (ei_channel _ _ _ Hi p) as H. rewrite Hc in H.
  destruct (a !! p) as [[fd r]|]; [|done]. destruct H as [<- H]. by exists r.
Qed.

Lemma assert_known_ok m fd p : m !! fd = Some p -> assert_known m fd p = Ok tt.
Proof. intros Hm. unfold assert_known. rewrite Hm. by rewrite !bool_decide_true by eauto. Qed.

(** Two registered channels have different descriptors. *)
Lemma registered_unique h s a p q fd ev ev' : ep_inv h s a ->
  a !! p = Some (fd, Some ev) -> a !! q = Some (fd, Some ev') -> p = q.
Proof.
  intros Hi Hp Hq. assert (channels_ s !! fd = Some p) by (apply (ei_map _ _ _ Hi); eauto).
  assert (channels_ s !! fd = Some q) by (apply (ei_map _ _ _ Hi); eauto). congruence.
Qed.

(** The kernel and the map change at one descriptor only. *)
Lemma ep_inv_update h s s' a p c c' ev :
  ep_inv h s a -> h !! p = Some c -> fd_ c' = fd_ c ->
  (forall q e, a !! q = Some (fd_ c, Some e) -> q = p) ->
  channels_ s' = <[fd_ c := p]> (channels_ s) ->
  (forall fd, fd <> fd_ c -> watched (epollfd_ s') !! fd = watched (epollfd_ s) !! fd) ->
  (index_ c' = kAdded /\ watched (epollfd_ s') !! fd_ c = Some (ev, p) \/
   index_ c' = kDeleted /\ ev = 0 /\ watched (epollfd_ s') !! fd_ c = None) ->
  ep_inv (<[p := c']> h) s' (<[p := (fd_ c, Some ev)]> a).
Proof.
  intros Hi Hc Hfd Huniq Hm Hk Hidx. destruct (ei_lookup _ _ _ _ _ Hi Hc) as (r & Ha & _). constructor.
  - intros q. destruct (decide (p = q)) as [<-|Hne]; [by rewrite !lookup_insert_eq|].
    rewrite !lookup_insert_ne by done. pose proof (ei_channel _ _ _ Hi q) as Hq.
    destruct (h !! q) as [cq|], (a !! q) as [[fq rq]|] eqn:Haq; try done. destruct Hq as [Hf Hx].
    split; [done|]. destruct rq as [eq|]; [|done]. unfold index_ok. rewrite Hk; [done|].
    intros ->. apply Hne. symmetry. by eapply Huniq.
  - intros fd q. rewrite Hm. destruct (decide (p = q)) as [<-|Hne].
    + rewrite lookup_insert_eq. split.
      * intros [[-> _]|[Hn Hq]]%lookup_insert_Some; [by eauto|].
        apply (ei_map _ _ _ Hi) in Hq as [e He]. congruence.
      * intros [e He]. injection He as <- <-. by rewrite lookup_insert_eq.
    + rewrite (lookup_insert_ne _ p q) by done. rewrite <- (ei_map _ _ _ Hi).
      destruct (decide (fd = fd_ c)) as [->|Hf]; [|by rewrite lookup_insert_ne].
      rewrite lookup_insert_eq. split; [congruence|]. intros Hq. apply (ei_map _ _ _ Hi) in Hq.
      destruct Hq as [e Hq]. exfalso. apply Hne. symmetry. by eapply Huniq.
  - intros fd e q Hw. destruct (decide (fd = fd_ c)) as [->|Hf].
    + destruct Hidx as [[_ Hx]|(_ & _ & Hx)]; [|congruence]. rewrite Hx in Hw. injection Hw as <- <-.
      by rewrite lookup_insert_eq.
    + rewrite Hk in Hw by done. apply (ei_kernel _ _ _ Hi) in Hw. rewrite lookup_insert_ne; [done|].
      intros ->. congruence.
Qed.

Lemma ep_update_law h s a p c fd r : ep_inv h s a -> h !! p = Some c -> a !! p = Some (fd, r) ->
  events_ok (events_ c) ->
  (r = None -> events_ c <> 0 /\ forall q ev, a !! q <> Some (fd, Some ev)) ->
  exists c' s', ep_updateChannel h s p = Ok (<[p := c']> h, s') /\ same_channel c c' /\
    ep_inv (<[p := c']> h) s' (<[p := (fd, Some (events_ c))]> a).
Proof.
  intros Hi Hc Ha Hok Hnew. destruct (ei_lookup _ _ _ _ _ Hi Hc) as (r' & Ha' & Hidx).
  rewrite Ha in Ha'. injection Ha' as -> ->.
  unfold ep_updateChannel. rewrite (deref_ok _ _ _ Hc). cbn [bind]. destruct r' as [ev|]; cbn [index_ok] in Hidx.
  - assert (Hm : channels_ s !! fd_ c = Some p) by (apply (ei_map _ _ _ Hi); eauto).
    assert (Huniq : forall q e, a !! q = Some (fd_ c, Some e) -> q = p)
      by (intros q e Hq; by eapply registered_unique).
    assert (Hins : <[fd_ c := p]> (channels_ s) = channels_ s) by by rewrite insert_id.
    destruct Hidx as [[Hx Hk]|(Hx & -> & Hk)]; rewrite Hx; cbn [orb Z.eqb kAdded kDeleted kNew Pos.eqb].
    + rewrite (assert_known_ok _ _ _ Hm). cbn [bind assert_ Z.eqb kAdded Pos.eqb].
      unfold isNoneEvent, ep_update, kNoneEvent. bcase.
      * destruct (ctl_del (epollfd_ s) (fd_ c) (events_ c) p) as (k' & -> & Hk'); [by rewrite Hk|].
        cbn [bind Z.ltb Z.compare andb]. do 2 eexists. split; [done|]. split; [done|].
        eapply ep_inv_update; try done.
        -- intros fd Hfd. cbn. by rewrite Hk', lookup_delete_ne.
        -- right. split; [done|]. split; [done|]. cbn. by rewrite Hk', lookup_delete_eq.
      * destruct (ctl_mod (epollfd_ s) (fd_ c) (events_ c) p) as (k' & -> & Hk'); [by rewrite Hk|].
        cbn [bind Z.ltb Z.compare andb]. exists c. eexists. rewrite (insert_id h p c) by done.
        split; [done|]. split; [by destruct c|]. rewrite <- (insert_id h p c) by done.
        eapply ep_inv_update; try done.
        -- intros fd Hfd. cbn. by rewrite Hk', lookup_insert_ne.
        -- left. split; [done|]. cbn. by rewrite Hk', lookup_insert_eq.
    + rewrite (assert_known_ok _ _ _ Hm). cbn [bind]. unfold ep_update.
      destruct (ctl_add (epollfd_ s) (fd_ c) (events_ c) p Hk) as (k' & -> & Hk').
      cbn [bind Z.ltb Z.compare andb]. do 2 eexists. split; [done|]. split; [done|].
      eapply ep_inv_update; try done.
      * intros fd Hfd. cbn. by rewrite Hk', lookup_insert_ne.
      * left. split; [done|]. cbn. by rewrite Hk', lookup_insert_eq.
  - destruct (Hnew eq_refl) as [Hne Hfree]. rewrite Hidx. cbn [orb Z.eqb kNew Pos.eqb].
    assert (Hm : channels_ s !! fd_ c = None).
    { apply eq_None_not_Some. intros [q Hq]. apply (ei_map _ _ _ Hi) in Hq as [e Hq]. by eapply Hfree. }
    assert (Hk : watched (epollfd_ s) !! fd_ c = None).
    { apply eq_None_not_Some. intros [[e q] Hq]. apply (ei_kernel _ _ _ Hi) in Hq. by eapply Hfree. }
    rewrite bool_decide_true by done. cbn [assert_ bind]. unfold ep_update. cbn [epollfd_ upd set_channels_].
    destruct (ctl_add (epollfd_ s) (fd_ c) (events_ c) p Hk) as (k' & Hctl & Hk').
    simpl. rewrite Hctl. cbn [bind Z.ltb Z.compare andb]. do 2 eexists. split; [done|]. split; [done|].
    eapply ep_inv_update; try done.
    + intros q e Hq. by destruct (Hfree q e).
    + intros fd Hfd. cbn. by rewrite Hk', lookup_insert_ne.
    + left. split; [done|]. cbn. by rewrite Hk', lookup_insert_eq.
Qed.

(** Forgetting a channel: the map and the kernel lose its descriptor. *)
Lemma ep_inv_remove h s s' a p c :
  ep_inv h s a -> h !! p = Some c -> (exists e, a !! p = Some (fd_ c, Some e)) ->
  channels_ s' = delete (fd_ c) (channels_ s) -> watched (epollfd_ s') = delete (fd_ c) (watched (epollfd_ s)) ->
  ep_inv (delete p h) s' (delete p a).
Proof.
  intros Hi Hc [e0 Ha] Hm Hk. constructor.
  - intros q. destruct (decide (p = q)) as [<-|Hne]; [by rewrite !lookup_delete_eq|].
    rewrite !lookup_delete_ne by done. pose proof (ei_channel _ _ _ Hi q) as Hq.
    destruct (h !! q) as [cq|], (a !! q) as [[fq rq]|] eqn:Haq; try done. destruct Hq as [Hf Hx].
    split; [done|]. destruct rq as [eq|]; [|done]. unfold index_ok. rewrite Hk, lookup_delete_ne; [done|].
    intros E. apply Hne. rewrite <- E in Haq. by eapply registered_unique.
  - intros fd q. rewrite Hm, lookup_delete_Some, (ei_map _ _ _ Hi). split.
    + intros [Hf [e Hq]]. exists e. apply lookup_delete_Some. split; [|done]. intros <-. congruence.
    + intros [e Hq]. apply lookup_delete_Some in Hq as [Hne Hq]. split; [|by eauto].
      intros <-. apply Hne. by eapply registered_unique.
  - intros fd e q. rewrite Hk, lookup_delete_Some. intros [Hf Hw]. apply (ei_kernel _ _ _ Hi) in Hw.
    apply lookup_delete_Some. split; [|done]. intros <-. congruence.
Qed.

Lemma ep_remove_law h s a p c fd : ep_inv h s a -> h !! p = Some c -> a !! p = Some (fd, Some 0) ->
  events_ c = 0 ->
  exists h' s', ep_removeChannel h s p = Ok (h', s') /\ ep_inv (delete p h') s' (delete p a) /\
    forall q cq, q <> p -> h !! q = Some cq -> exists cq', h' !! q = Some cq' /\ same_channel cq cq'.
Proof.
  intros Hi Hc Ha Hev. destruct (ei_lookup _ _ _ _ _ Hi Hc) as (r' & Ha' & Hidx).
  rewrite Ha in Ha'. injection Ha' as -> <-. cbn [index_ok] in Hidx.
  assert (Hm : channels_ s !! fd_ c = Some p) by (apply (ei_map _ _ _ Hi); eauto).
  unfold ep_removeChannel. rewrite (deref_ok _ _ _ Hc). cbn [bind]. rewrite (assert_known_ok _ _ _ Hm).
  unfold isNoneEvent. rewrite Hev, Hm. rewrite bool_decide_true by by eexists. cbn [bind assert_ Z.eqb kNoneEvent Pos.eqb].
  assert (Hrest : forall q cq, q <> p -> h !! q = Some cq ->
    exists cq', <[p := set_index kNew c]> h !! q = Some cq' /\ same_channel cq cq').
  { intros q cq Hq Hh. exists cq. rewrite lookup_insert_ne by done. by split; [|destruct cq]. }
  destruct Hidx as [[Hx Hk]|(Hx & _ & Hk)]; rewrite Hx; cbn [assert_ bind orb Z.eqb kAdded kDeleted Pos.eqb].
  - unfold ep_update. simpl epollfd_. destruct (ctl_del (epollfd_ s) (fd_ c) (events_ c) p) as (k' & Hctl & Hk'); [by rewrite Hk|].
    rewrite Hctl. cbn [Z.ltb Z.compare andb bind]. do 2 eexists. split; [done|]. split; [|done].
    rewrite delete_insert_eq. eapply ep_inv_remove; [done | done | by eauto | done | done].
  - do 2 eexists. split; [done|]. split; [|done].
    rewrite delete_insert_eq. eapply ep_inv_remove; [done | done | by eauto | done|]. cbn. by rewrite delete_id.
Qed.

#[export] Program Instance epoll_laws : PollerLaws (EPollPoller K) := { poller_inv := ep_inv }.
Next Obligation.
  intros h s a p fd Hi Hp Hfd. pose proof (ei_channel _ _ _ Hi p) as Hpa. rewrite Hp in Hpa.
  destruct (a !! p) eqn:Ha; [done|]. constructor.
  - intros q. destruct (decide (p = q)) as [<-|Hne]; [by rewrite !lookup_insert_eq|].
    rewrite !lookup_insert_ne by done. apply Hi.
  - intros f q. rewrite (ei_map _ _ _ Hi). destruct (decide (p = q)) as [<-|Hne].
    + rewrite lookup_insert_eq, Ha. split; intros [e He]; congruence.
    + by rewrite lookup_insert_ne.
  - intros f e q Hw. apply (ei_kernel _ _ _ Hi) in Hw. rewrite lookup_insert_ne; [done | congruence].
Qed.
Next Obligation.
  intros h s a p c c' Hi Hc Hf Hx. constructor; [|apply Hi..].
  intros q. destruct (decide (p = q)) as [<-|Hne]; [|by rewrite lookup_insert_ne; [apply Hi|]].
  rewrite lookup_insert_eq. pose proof (ei_channel _ _ _ Hi p) as H. rewrite Hc in H.
  destruct (a !! p) as [[fd r]|]; [|done]. by rewrite Hf, Hx.
Qed.
Next Obligation.
  intros h s a p Hi. pose proof (ei_channel _ _ _ Hi p) as H.
  destruct (h !! p), (a !! p) as [[fd r]|]; try done. apply H.
Qed.
Next Obligation. exact ep_update_law. Qed.
Next Obligation. exact ep_remove_law. Qed.
Next Obligation.
  intros h s a fd ev Hi Hne. cbn [asked epoll_impl]. rewrite lookup_fmap_Some. split.
  - intros ([e q] & <- & Hw). exists q. by apply (ei_kernel _ _ _ Hi).
  - intros (q & Hq). pose proof (ei_channel _ _ _ Hi q) as H. rewrite Hq in H.
    destruct (h !! q) as [c|]; [|done]. destruct H as [<- [[_ Hw]|(_ & -> & _)]]; [|done].
    by exists (ev, q).
Qed.

(** ** Channels that are told again to wait for nothing

    [updateChannel] takes the descriptor of a channel that waits for nothing off
    the kernel's list; if it is called again, it adds the descriptor with no
    events. *)

Lemma ep_update_index h s p c h' s' : ep_updateChannel h s p = Ok (h', s') -> h !! p = Some c ->
  exists c', h' = <[p := c']> h /\
    index_ c' = if index_ c =? kAdded then if isNoneEvent c then kDeleted else kAdded else kAdded.
Proof.
  intros H Hc. unfold ep_updateChannel in H. rewrite (deref_ok _ _ _ Hc) in H. cbn [bind] in H.
  destruct ((index_ c =? kNew) || (index_ c =? kDeleted)) eqn:Hx; reflect_bools.
  - apply bind_ok in H as (s1 & _ & (s2 & _ & [= <- <-])%bind_ok). exists (set_index kAdded c). split; [done|].
    assert (Hn : (index_ c =? kAdded) = false).
    { apply Z.eqb_neq. unfold kNew, kDeleted, kAdded in *. destruct Hx; reflect_bools; lia. }
    by rewrite Hn.
  - apply bind_ok in H as (? & _ & (? & Hk & H)%bind_ok). unfold assert_ in Hk. destruct (index_ c =? kAdded) eqn:Ha; [|done].
    destruct (isNoneEvent c) eqn:Hn.
    + apply bind_ok in H as (s1 & _ & [= <- <-]). by exists (set_index kDeleted c).
    + apply bind_ok in H as (s1 & _ & [= <- <-]). exists c. rewrite insert_id by done. split; [done|]. by apply Z.eqb_eq.
Qed.

Definition zero_ok (h : channel_heap) (a : registry) (i : gset Z) : Prop := forall p c fd,
  h !! p = Some c -> a !! p = Some (fd, Some 0) -> index_ c = kAdded <-> p ∈ i.

Lemma zero_ok_exec h s a i o a' h' s' : ep_inv h s a -> in_sync h a -> zero_ok h a i ->
  spec a o = Some a' -> exec h s o = Ok (h', s') -> zero_ok h' a' (again a i o).
Proof.
  intros Hi Hs Hz Hspec He. destruct o as [p fd|p ch|p]; cbn [spec exec again] in *.
  - destruct (_ && _); [|done]. injection Hspec as <-. injection He as <- <-.
    intros q c f. destruct (decide (p = q)) as [<-|Hne]; [by rewrite !lookup_insert_eq|].
    rewrite !lookup_insert_ne by done. intros H1 H2. rewrite (Hz _ _ _ H1 H2). set_solver.
  - apply bind_ok in He as (c & Hd & He). unfold deref in Hd. destruct (h !! p) as [c0|] eqn:Hc; [|done].
    injection Hd as ->. destruct (ei_lookup _ _ _ _ _ Hi Hc) as (r & Ha & Hidx).
    destruct (Hs _ _ _ _ Hc Ha) as [Hev _].
    destruct (ep_update_index _ _ _ (c <| events_ := apply_change ch (events_ c) |> <| addedToLoop_ := true |>) _ _ He)
      as (c' & -> & Hc'); [by rewrite lookup_insert_eq|].
    cbn [index_ upd set_events_ set_addedToLoop_ isNoneEvent events_ kNoneEvent] in Hc'. unfold isNoneEvent in Hc'. cbn in Hc'.
    rewrite Hev in Hc'. rewrite Ha in Hspec |- *. rewrite insert_insert_eq.
    assert (Hother : forall q cq f, q <> p -> <[p := c']> h !! q = Some cq -> a' !! q = Some (f, Some 0) ->
      index_ cq = kAdded <-> q ∈ i).
    { intros q cq f Hne. rewrite lookup_insert_ne by done. intros H1 H2. apply (Hz q cq f H1).
      destruct r as [ev|]; [|destruct (_ && _); [|done]]; injection Hspec as <-; by rewrite lookup_insert_ne in H2. }
    intros q cq f H1 H2. destruct (decide (q = p)) as [->|Hne].
    2:{ rewrite (Hother q cq f Hne H1 H2). destruct r as [[| |]|]; [destruct (_ && _)|..]; set_solver. }
    rewrite lookup_insert_eq in H1. injection H1 as <-. destruct r as [ev|].
    + injection Hspec as <-. rewrite lookup_insert_eq in H2. injection H2 as _ H0. cbn [default] in *.
      change (id ev) with ev in Hc'. rewrite H0 in Hc'.
      destruct Hidx as [[Hx _]|(Hx & -> & _)]; rewrite Hx in Hc'; cbn in Hc'.
      * rewrite Hc'. destruct ev as [|e|e]; [|split; [done|set_solver]..].
        pose proof (proj1 (Hz _ _ _ Hc Ha) Hx) as Hin. rewrite H0. cbn. rewrite bool_decide_false by set_solver.
        split; [done|set_solver].
      * rewrite Hc', H0. cbn. rewrite bool_decide_true; [set_solver|]. intros Hin. apply (Hz _ _ _ Hc Ha) in Hin. rewrite Hx in Hin. done.
    + destruct (_ && _) eqn:E; [|done]. injection Hspec as <-. rewrite lookup_insert_eq in H2. injection H2 as _ H0.
      rewrite H0 in E. done.
  - destruct (a !! p) as [[fd [[| |]|]]|] eqn:Ha; try done. injection Hspec as <-.
    apply bind_ok in He as (c & Hd & (? & _ & ([h1 s1] & Hr & [= <- <-])%bind_ok)%bind_ok).
    intros q cq f H1 H2. apply lookup_delete_Some in H1 as [Hne H1]. apply lookup_delete_Some in H2 as [_ H2].
    assert (Hq : h !! q = Some cq).
    { unfold ep_removeChannel in Hr. apply bind_ok in Hr as (c1 & _ & Hr). cbv zeta in Hr.
      repeat (apply bind_ok in Hr as (? & _ & Hr)). injection Hr as <- _. rewrite !lookup_insert_ne in H1 by done. done. }
    rewrite (Hz _ _ _ Hq H2). set_solver.
Qed.

Lemma zero_ok_all os h s a i a' h' s' : ep_inv h s a -> in_sync h a -> zero_ok h a i ->
  spec_all a os = Some a' -> exec_all h s os = Ok (h', s') -> zero_ok h' a' (again_all a i os).
Proof.
  revert h s a i. induction os as [|o os IH]; intros h s a i Hi Hs Hz; cbn [spec_all exec_all again_all].
  - by intros [= <-] [= <- <-].
  - destruct (spec a o) as [a1|] eqn:Ho; [|done]. intros Hspec ([h1 s1] & He & Hr)%bind_ok.
    destruct (exec_refines (P := EPollPoller K) (PollerLaws0 := epoll_laws) h s a o a1 Hi Hs Ho) as (h2 & s2 & E & Hi2 & Hs2).
    rewrite He in E. injection E as <- <-. eapply (IH h1 s1 a1); try done. by eapply zero_ok_exec.
Qed.

(** What epoll watches without events. *)
Lemma asked_zero h s a i fd : ep_inv h s a -> zero_ok h a i ->
  asked s !! fd = Some 0 <-> exists p, p ∈ i /\ a !! p = Some (fd, Some 0).
Proof.
  intros Hi Hz. cbn [asked epoll_impl]. rewrite lookup_fmap_Some. split.
  - intros ([e q] & He & Hw). cbn in He. subst e. apply (ei_kernel _ _ _ Hi) in Hw as Ha. exists q. split; [|done].
    pose proof (ei_channel _ _ _ Hi q) as H. rewrite Ha in H. destruct (h !! q) as [c|] eqn:Hc; [|done].
    apply (Hz _ _ _ Hc Ha). destruct H as [_ [[Hx _]|(_ & _ & Hn)]]; [done|congruence].
  - intros (q & Hq & Ha). pose proof (ei_channel _ _ _ Hi q) as H. rewrite Ha in H. destruct (h !! q) as [c|] eqn:Hc; [|done].
    apply (Hz _ _ _ Hc Ha) in Hq. destruct H as [<- [[_ Hw]|(Hx & _)]]; [by exists (0, q)|]. rewrite Hq in Hx. done.
Qed.

(** Waiting.  What [epoll_wait] reports comes from the interest list and fits the
    event list; then every reported channel gets its events. *)
Definition answer_ok (s : EPollPoller K) (ready : list (Z * Z)) : Prop :=
  Z.of_nat (length ready) <= ep_size s /\
  Forall (fun x => exists fd ev, watched (epollfd_ s) !! fd = Some (ev, x.2)) ready.

Lemma ep_inv_touch h s a p c c' : ep_inv h s a -> h !! p = Some c ->
  fd_ c' = fd_ c -> index_ c' = index_ c -> ep_inv (<[p := c']> h) s a.
Proof. exact (inv_touch (P := EPollPoller K) h s a p c c'). Qed.

Lemma ep_fill_ok s a ready h : ep_inv h s a ->
  Forall (fun x => exists fd ev, watched (epollfd_ s) !! fd = Some (ev, x.2)) ready ->
  exists h', ep_fill (channels_ s) h ready = Ok (h', ready.*2) /\ ep_inv h' s a /\
    (forall q, q ∉ ready.*2 -> h' !! q = h !! q) /\
    (NoDup (ready.*2) -> forall ev q, (ev, q) ∈ ready -> revents_ <$> h' !! q = Some ev).
Proof.
  revert h. induction ready as [|[ev p] ready IH]; intros h Hi Hr; csimpl.
  - exists h. split_and!; try done. intros _ ev q Hin. by apply not_elem_of_nil in Hin.
  - apply Forall_cons in Hr as [(fd & e & Hw) Hr]. cbn [snd] in Hw. apply (ei_kernel _ _ _ Hi) in Hw as Ha.
    pose proof (ei_channel _ _ _ Hi p) as Hp. rewrite Ha in Hp. destruct (h !! p) as [c|] eqn:Hc; [|done].
    destruct Hp as [Hfd _]. rewrite (deref_ok _ _ _ Hc). cbn [bind].
    rewrite (assert_known_ok _ (fd_ c) p) by (apply (ei_map _ _ _ Hi); rewrite Hfd; eauto). cbn [bind].
    destruct (IH (<[p := set_revents ev c]> h)) as (h' & -> & Hi' & Hother & Hrev);
      [by eapply ep_inv_touch | done|].
    cbn [bind]. exists h'. split_and!; [done | done | |].
    + intros q Hq. apply not_elem_of_cons in Hq as [Hne Hq]. by rewrite Hother, lookup_insert_ne.
    + intros [Hnot Hnd]%NoDup_cons ev' q [[= -> ->]|Hin]%elem_of_cons; [|by apply Hrev].
      rewrite Hother by done. by rewrite lookup_insert_eq.
Qed.

Lemma ep_poll_spec h s a ready : ep_inv h s a -> answer_ok s ready ->
  ep_poll s h None = Ok (s, h, []) /\
  exists s' h', ep_poll s h (Some ready) = Ok (s', h', ready.*2) /\ ep_inv h' s' a /\
    ep_size s' = (if (0 <? Z.of_nat (length ready)) && (Z.of_nat (length ready) =? ep_size s)
                  then 2 * ep_size s else ep_size s) /\
    (NoDup (ready.*2) -> forall ev q, (ev, q) ∈ ready -> revents_ <$> h' !! q = Some ev).
Proof.
  intros Hi [Hsize Hr]. split; [done|]. unfold ep_poll. bcase.
  - unfold ep_fillActiveChannels, assert_. bcase; [|lia]. cbn [bind].
    destruct (ep_fill_ok _ _ _ _ Hi Hr) as (h' & -> & Hi' & _ & Hrev). cbn [bind andb].
    do 2 eexists. split; [done|]. split_and!; [|by bcase; cbn; lia|done].
    bcase; [|done]. destruct Hi'. by constructor.
  - destruct ready; [|cbn in *; lia]. exists s, h. split_and!; try done.
    intros _ ev q Hin. by apply not_elem_of_nil in Hin.
Qed.
End laws.
