(* ===== verification/PollPoller.v ===== *)
(** * The poll poller

    [muduo/net/poller/PollPoller.h] and [PollPoller.cc]: the array for [poll(2)],
    one slot per registered channel.  The index of a channel is its slot; a
    channel that waits for nothing keeps its slot under the descriptor
    [-fd - 1], which [poll] ignores; a removed channel's slot is filled with the
    last one. *)

From S2P Require Import Prelude Channel Poller EPollPoller.

Open Scope outcome_scope.

Definition s16 (z : Z) : Z := (z + 32768) mod 65536 - 32768.

Record pollfd := { pfd_fd : Z; pfd_events : Z; pfd_revents : Z }.

Record PollPoller := { pollfds_ : list pollfd; poll_channels_ : channel_map }.

Definition new_PollPoller : PollPoller := {| pollfds_ := []; poll_channels_ := ∅ |}.

Definition slot_of (idx : Z) (l : list pollfd) : outcome pollfd :=
  if idx <? 0 then Crash OutOfBounds
  else match l !! Z.to_nat idx with Some pfd => Ok pfd | None => Crash OutOfBounds end.

Definition pp_updateChannel (h : channel_heap) (s : PollPoller) (p : Z) : outcome (channel_heap * PollPoller) :=
  let* c := deref h p in
  let fd := fd_ c in
  if index_ c <? 0 then
    let* _ := assert_ (bool_decide (poll_channels_ s !! fd = None)) in
    let pfd := {| pfd_fd := fd; pfd_events := s16 (events_ c); pfd_revents := 0 |} in
    let l := pollfds_ s ++ [pfd] in
    let idx := Z.of_nat (length l) - 1 in
    Ok (<[p := set_index idx c]> h,
        {| pollfds_ := l; poll_channels_ := <[fd := p]> (poll_channels_ s) |})
  else
    let* _ := assert_known (poll_channels_ s) fd p in
    let idx := index_ c in
    let* _ := assert_ ((0 <=? idx) && (idx <? Z.of_nat (length (pollfds_ s)))) in
    let* pfd := slot_of idx (pollfds_ s) in
    let* _ := assert_ ((pfd_fd pfd =? fd) || (pfd_fd pfd =? - fd - 1)) in
    let pfd := {| pfd_fd := if isNoneEvent c then - fd - 1 else fd;
                  pfd_events := s16 (events_ c); pfd_revents := 0 |} in
    Ok (h, {| pollfds_ := <[Z.to_nat idx := pfd]> (pollfds_ s); poll_channels_ := poll_channels_ s |}).

Definition pp_removeChannel (h : channel_heap) (s : PollPoller) (p : Z) : outcome (channel_heap * PollPoller) :=
  let* c := deref h p in
  let fd := fd_ c in
  let* _ := assert_known (poll_channels_ s) fd p in
  let* _ := assert_ (isNoneEvent c) in
  let idx := index_ c in
  let l := pollfds_ s in
  let* _ := assert_ ((0 <=? idx) && (idx <? Z.of_nat (length l))) in
  let* pfd := slot_of idx l in
  let* _ := assert_ ((pfd_fd pfd =? - fd - 1) && (pfd_events pfd =? events_ c)) in
  let n := if bool_decide (is_Some (poll_channels_ s !! fd)) then 1 else 0 in
  let m := delete fd (poll_channels_ s) in
  let* _ := assert_ (n =? 1) in
  if idx =? Z.of_nat (length l) - 1 then
    Ok (h, {| pollfds_ := take (length l - 1) l; poll_channels_ := m |})
  else
    let* back := slot_of (Z.of_nat (length l) - 1) l in
    let channelAtEnd := pfd_fd back in
    let l := <[Z.to_nat idx := back]> (<[(length l - 1)%nat := pfd]> l) in    (* iter_swap *)
    let channelAtEnd := if channelAtEnd <? 0 then - channelAtEnd - 1 else channelAtEnd in
    let* q := (match m !! channelAtEnd with Some q => Ok q | None => Crash NullDeref end) in
    let* cq := deref h q in
    Ok (<[q := set_index idx cq]> h, {| pollfds_ := take (length l - 1) l; poll_channels_ := m |}).

(** [fillActiveChannels]: [revents] are the events [poll] filled in, slot by
    slot. *)
Fixpoint pp_fill (m : channel_map) (h : channel_heap) (numEvents : Z) (slots : list (pollfd * Z)) :
    outcome (channel_heap * list Z) :=
  match slots with
  | [] => Ok (h, [])
  | (pfd, revents) :: slots =>
      if numEvents >? 0 then
        if revents >? 0 then
          let* p := (match m !! pfd_fd pfd with Some p => Ok p | None => Crash AssertFailed end) in
          let* c := deref h p in
          let* _ := assert_ (fd_ c =? pfd_fd pfd) in
          let h := <[p := set_revents revents c]> h in
          let* (h, active) := pp_fill m h (numEvents - 1) slots in
          Ok (h, p :: active)
        else pp_fill m h numEvents slots
      else Ok (h, [])
  end.

(** [poll]: the number of slots with events, and the events; [None] is an
    error. *)
Definition pp_poll (s : PollPoller) (h : channel_heap) (answer : option (Z * list Z)) :
    outcome (channel_heap * list Z) :=
  match answer with
  | Some (numEvents, revents) =>
      if numEvents >? 0 then pp_fill (poll_channels_ s) h numEvents (zip (pollfds_ s) revents)
      else Ok (h, [])
  | None => Ok (h, [])
  end.

(** What [poll] watches: the slots whose descriptor is not negative. *)
Definition pp_asked (s : PollPoller) : gmap Z Z :=
  list_to_map (omap (fun pfd => if 0 <=? pfd_fd pfd
    then Some (pfd_fd pfd, pfd_events pfd) else None) (pollfds_ s)).

#[export] Instance poll_impl : PollerImpl PollPoller := {
  updateChannel := pp_updateChannel;
  removeChannel := pp_removeChannel;
  asked := pp_asked
}.

(** ** The laws *)

(** The slot of a channel. *)
Definition slot_ok (s : PollPoller) (fd : Z) (r : option Z) (index : Z) : Prop :=
  match r with
  | None => index < 0
  | Some ev => exists i rev, index = Z.of_nat i /\
      pollfds_ s !! i = Some {| pfd_fd := if ev =? 0 then - fd - 1 else fd; pfd_events := ev; pfd_revents := rev |}
  end.

Record pp_inv (h : channel_heap) (s : PollPoller) (a : registry) : Prop := {
  pi_channel p : match h !! p, a !! p with
    | Some c, Some (fd, r) => fd_ c = fd /\ 0 <= fd /\ slot_ok s fd r (index_ c)
    | None, None => True
    | _, _ => False
    end;
  pi_map fd p : poll_channels_ s !! fd = Some p <-> exists ev, a !! p = Some (fd, Some ev);
  pi_slots i pfd : pollfds_ s !! i = Some pfd -> exists p c fd ev, h !! p = Some c /\
    a !! p = Some (fd, Some ev) /\ index_ c = Z.of_nat i
}.

Section laws.
Implicit Types (h : channel_heap) (s : PollPoller) (a : registry).

Lemma pi_lookup h s a p c : pp_inv h s a -> h !! p = Some c ->
  exists r, a !! p = Some (fd_ c, r) /\ 0 <= fd_ c /\ slot_ok s (fd_ c) r (index_ c).
Proof.
  intros Hi Hc. pose proof (pi_channel _ _ _ Hi p) as H. rewrite Hc in H.
  destruct (a !! p) as [[fd r]|]; [|done]. destruct H as (<- & H). by exists r.
Qed.

Lemma pi_unique h s a p q fd ev ev' : pp_inv h s a ->
  a !! p = Some (fd, Some ev) -> a !! q = Some (fd, Some ev') -> p = q.
Proof.
  intros Hi Hp Hq. assert (poll_channels_ s !! fd = Some p) by (apply (pi_map _ _ _ Hi); eauto).
  assert (poll_channels_ s !! fd = Some q) by (apply (pi_map _ _ _ Hi); eauto). congruence.
Qed.

(** A slot and its owner. *)
Lemma slot_owner h s a i pfd : pp_inv h s a -> pollfds_ s !! i = Some pfd ->
  exists p c ev, h !! p = Some c /\ a !! p = Some (fd_ c, Some ev) /\ index_ c = Z.of_nat i /\ 0 <= fd_ c /\
    pfd_events pfd = ev /\ pfd_fd pfd = if ev =? 0 then - fd_ c - 1 else fd_ c.
Proof.
  intros Hi Hs. destruct (pi_slots _ _ _ Hi _ _ Hs) as (p & c & fd & ev & Hc & Ha & Hx).
  destruct (pi_lookup _ _ _ _ _ Hi Hc) as (r & Ha' & Hfd & Hok). rewrite Ha in Ha'. injection Ha' as -> <-.
  cbn [slot_ok] in Hok. destruct Hok as (j & rev & Hj & Hslot). assert (j = i) as -> by lia.
  rewrite Hs in Hslot. injection Hslot as ->. by exists p, c, ev.
Qed.

(** Slots are not shared. *)
Lemma index_unique h s a p q c cq ev ev' : pp_inv h s a -> h !! p = Some c -> h !! q = Some cq ->
  a !! p = Some (fd_ c, Some ev) -> a !! q = Some (fd_ cq, Some ev') -> index_ c = index_ cq -> p = q.
Proof.
  intros Hi Hc Hq Ha Haq Hx.
  destruct (pi_lookup _ _ _ _ _ Hi Hc) as (r & Hr & Hfd & Hok). rewrite Ha in Hr. injection Hr as <-.
  destruct (pi_lookup _ _ _ _ _ Hi Hq) as (rq & Hrq & Hfdq & Hokq). rewrite Haq in Hrq. injection Hrq as <-.
  destruct Hok as (i & rev & Hi1 & Hs), Hokq as (j & revq & Hj & Hsq). assert (i = j) as -> by lia.
  rewrite Hs in Hsq. injection Hsq as Hf <- _. assert (fd_ c = fd_ cq) as Heq by (revert Hf; bcase; lia).
  rewrite <- Heq in Haq. by eapply pi_unique.
Qed.

Lemma slot_of_ok i l pfd : l !! i = Some pfd -> slot_of (Z.of_nat i) l = Ok pfd.
Proof. intros Hl. unfold slot_of. bcase; [lia|]. by rewrite Nat2Z.id, Hl. Qed.

Lemma slot_range (i : nat) (l : list pollfd) pfd : l !! i = Some pfd ->
  (0 <=? Z.of_nat i) && (Z.of_nat i <? Z.of_nat (length l)) = true.
Proof. intros Hl%lookup_lt_Some. apply andb_true_iff. split; [apply Z.leb_le | apply Z.ltb_lt]; lia. Qed.

Lemma s16_events ev : events_ok ev -> s16 ev = ev.
Proof. intros [-> | [-> | [-> | ->]]]; reflexivity. Qed.

(** The array changes at the slot [i] of the channel [p], or grows by it. *)
Lemma pp_inv_update h s s' a p c c' ev i pfd :
  pp_inv h s a -> h !! p = Some c -> fd_ c' = fd_ c ->
  (forall q e, a !! q = Some (fd_ c, Some e) -> q = p) ->
  poll_channels_ s' = <[fd_ c := p]> (poll_channels_ s) ->
  index_ c' = Z.of_nat i -> pollfds_ s' !! i = Some pfd ->
  pfd_fd pfd = (if ev =? 0 then - fd_ c - 1 else fd_ c) -> pfd_events pfd = ev ->
  (forall j, j <> i -> pollfds_ s' !! j = pollfds_ s !! j) ->
  (forall q cq e, q <> p -> h !! q = Some cq -> a !! q = Some (fd_ cq, Some e) -> index_ cq <> Z.of_nat i) ->
  (forall e, a !! p = Some (fd_ c, Some e) -> index_ c = Z.of_nat i) ->
  pp_inv (<[p := c']> h) s' (<[p := (fd_ c, Some ev)]> a).
Proof.
  intros Hi Hc Hfd Huniq Hm Hx Hslot Hpf Hpe Hother Hfree Hown.
  destruct (pi_lookup _ _ _ _ _ Hi Hc) as (r & Ha & Hpos & _). constructor.
  - intros q. destruct (decide (p = q)) as [<-|Hne].
    + rewrite !lookup_insert_eq. split; [done|]. split; [done|]. exists i, (pfd_revents pfd).
      split; [done|]. rewrite Hslot. destruct pfd. cbn in *. by subst.
    + rewrite !lookup_insert_ne by done. pose proof (pi_channel _ _ _ Hi q) as Hq.
      destruct (h !! q) as [cq|] eqn:Hhq, (a !! q) as [[fq rq]|] eqn:Haq; try done.
      destruct Hq as (<- & Hf & Hok). split; [done|]. split; [done|]. destruct rq as [eq|]; [|done].
      destruct Hok as (j & rev & Hj & Hsl). exists j, rev. split; [done|]. rewrite Hother; [done|].
      intros ->. by eapply Hfree.
  - intros fd q. rewrite Hm. destruct (decide (p = q)) as [<-|Hne].
    + rewrite lookup_insert_eq. split.
      * intros [[-> _]|[Hn Hq]]%lookup_insert_Some; [by eauto|].
        apply (pi_map _ _ _ Hi) in Hq as [e He]. congruence.
      * intros [e He]. injection He as <- <-. by rewrite lookup_insert_eq.
    + rewrite (lookup_insert_ne _ p q) by done. rewrite <- (pi_map _ _ _ Hi).
      destruct (decide (fd = fd_ c)) as [->|Hf]; [|by rewrite lookup_insert_ne].
      rewrite lookup_insert_eq. split; [congruence|]. intros [e Hq]%(pi_map _ _ _ Hi).
      exfalso. apply Hne. symmetry. by eapply Huniq.
  - intros j pf Hj. destruct (decide (j = i)) as [->|Hne].
    + exists p, c', (fd_ c), ev. by rewrite !lookup_insert_eq.
    + rewrite Hother in Hj by done. destruct (slot_owner _ _ _ _ _ Hi Hj) as (q & cq & e & Hq & Haq & Hxq & _).
      assert (p <> q).
      { intros <-. rewrite Hc in Hq. injection Hq as <-. specialize (Hown _ Haq). lia. }
      exists q, cq, (fd_ cq), e. by rewrite !lookup_insert_ne.
Qed.

Lemma pp_update_law h s a p c fd r : pp_inv h s a -> h !! p = Some c -> a !! p = Some (fd, r) ->
  events_ok (events_ c) ->
  (r = None -> events_ c <> 0 /\ forall q ev, a !! q <> Some (fd, Some ev)) ->
  exists c' s', pp_updateChannel h s p = Ok (<[p := c']> h, s') /\ same_channel c c' /\
    pp_inv (<[p := c']> h) s' (<[p := (fd, Some (events_ c))]> a).
Proof.
  intros Hi Hc Ha Hok Hnew. destruct (pi_lookup _ _ _ _ _ Hi Hc) as (r' & Ha' & Hpos & Hslot).
  rewrite Ha in Ha'. injection Ha' as -> ->.
  unfold pp_updateChannel. rewrite (deref_ok _ _ _ Hc). cbn [bind]. destruct r' as [ev|]; cbn [slot_ok] in Hslot.
  - destruct Hslot as (i & rev & Hx & Hs).
    assert (Hm : poll_channels_ s !! fd_ c = Some p) by (apply (pi_map _ _ _ Hi); eauto).
    rewrite Hx. bcase; [lia|]. rewrite (assert_known_ok _ _ _ Hm), (slot_range _ _ _ Hs), (slot_of_ok _ _ _ Hs).
    cbn [bind assert_ pfd_fd]. replace (_ || _) with true by (symmetry; apply orb_true_iff; bcase; [right | left]; lia).
    cbn [bind]. exists c. eexists. rewrite (insert_id h p c) by done.
    split; [done|]. split; [by destruct c|]. rewrite <- (insert_id h p c) by done. rewrite Nat2Z.id.
    eapply (pp_inv_update _ _ _ _ _ _ _ _ i); try done; cbn [pollfds_ poll_channels_].
    + intros q e Hq. by eapply pi_unique.
    + by rewrite insert_id.
    + apply list_lookup_insert_eq. by eapply lookup_lt_Some.
    + done.
    + by apply s16_events.
    + intros j Hj. by apply list_lookup_insert_ne.
    + intros q cq e Hne Hq Haq Hxq. apply Hne. eapply index_unique; [exact Hi | exact Hq | exact Hc | done | done | lia].
  - destruct (Hnew eq_refl) as [Hne Hfree]. bcase; [|lia].
    assert (Hm : poll_channels_ s !! fd_ c = None).
    { apply eq_None_not_Some. intros [q Hq]. apply (pi_map _ _ _ Hi) in Hq as [e Hq]. by eapply Hfree. }
    rewrite bool_decide_true by done. cbn [assert_ bind]. do 2 eexists. split; [done|]. split; [done|].
    eapply (pp_inv_update _ _ _ _ _ _ _ _ (length (pollfds_ s))); try done; cbn [pollfds_ poll_channels_].
    + intros q e Hq. by destruct (Hfree q e).
    + cbn. rewrite length_app. cbn. lia.
    + by apply list_lookup_middle.
    + cbn [pfd_fd]. by rewrite (proj2 (Z.eqb_neq _ 0) Hne).
    + by apply s16_events.
    + intros j Hj. destruct (decide (j < length (pollfds_ s))%nat) as [Hlt|Hge].
      * by apply lookup_app_l.
      * rewrite lookup_app_r, (lookup_ge_None_2 (pollfds_ s)) by lia.
        apply lookup_ge_None_2. cbn. lia.
    + intros q cq e Hqp Hq Haq Hxq. destruct (pi_lookup _ _ _ _ _ Hi Hq) as (rq & Hrq & _ & Hokq).
      rewrite Haq in Hrq. injection Hrq as <-. destruct Hokq as (j & rev & Hj & Hs).
      apply lookup_lt_Some in Hs. lia.
    + intros e He. congruence.
Qed.

(** Removing the channel of slot [i]: the channel of the last slot, if it is
    another one, moves to [i]. *)
Lemma pp_inv_remove h s a p c (i : nat) h' s' :
  pp_inv h s a -> h !! p = Some c -> a !! p = Some (fd_ c, Some 0) -> index_ c = Z.of_nat i ->
  (i < length (pollfds_ s))%nat ->
  poll_channels_ s' = delete (fd_ c) (poll_channels_ s) ->
  (forall j, pollfds_ s' !! j =
     if decide (j < length (pollfds_ s) - 1)%nat then
       if decide (j = i) then pollfds_ s !! (length (pollfds_ s) - 1)%nat else pollfds_ s !! j
     else None) ->
  (forall q, q <> p -> match h !! q with
     | Some cq => exists cq', h' !! q = Some cq' /\ fd_ cq' = fd_ cq /\
         index_ cq' = if index_ cq =? Z.of_nat (length (pollfds_ s)) - 1 then Z.of_nat i else index_ cq
     | None => h' !! q = None
     end) ->
  pp_inv (delete p h') s' (delete p a).
Proof.
  intros Hi Hc Ha Hx Hlt Hm Hl Hh. constructor.
  - intros q. destruct (decide (p = q)) as [<-|Hne]; [by rewrite !lookup_delete_eq|].
    rewrite !lookup_delete_ne by done. specialize (Hh q (not_eq_sym Hne)).
    pose proof (pi_channel _ _ _ Hi q) as Hq. destruct (h !! q) as [cq|] eqn:Hhq; [|by rewrite Hh].
    destruct Hh as (cq' & -> & Hfq & Hxq). destruct (a !! q) as [[fq rq]|] eqn:Haq; [|done].
    destruct Hq as (<- & Hpos & Hok). split; [done|]. split; [done|]. destruct rq as [ev|]; cbn [slot_ok] in *.
    + destruct Hok as (j & rev & Hj & Hs). apply lookup_lt_Some in Hs as Hjl.
      assert (Hji : j <> i) by (intros ->; apply Hne; eapply index_unique; [exact Hi | done | done | done | done | lia]).
      destruct (decide (j = length (pollfds_ s) - 1)%nat) as [->|Hjn].
      * exists i, rev. split; [revert Hxq; bcase; lia|]. by rewrite Hl, !decide_True by lia.
      * exists j, rev. split; [revert Hxq; bcase; lia|]. by rewrite Hl, decide_True, decide_False by lia.
    + revert Hxq. bcase; lia.
  - intros fd q. rewrite Hm, lookup_delete_Some, (pi_map _ _ _ Hi). split.
    + intros [Hf [e Hq]]. exists e. apply lookup_delete_Some. split; [|done]. intros <-. congruence.
    + intros [e Hq]. apply lookup_delete_Some in Hq as [Hne Hq]. split; [|by eauto].
      intros <-. apply Hne. by eapply pi_unique.
  - intros j pf Hj. rewrite Hl in Hj. destruct (decide (j < _)%nat) as [Hjn|]; [|done].
    assert (Hown : exists k, pollfds_ s !! k = Some pf /\ k <> i /\
      k = if decide (j = i) then (length (pollfds_ s) - 1)%nat else j).
    { destruct (decide (j = i)) as [->|Hji]; eexists; split_and!; try done; lia. }
    destruct Hown as (k & Hk & Hki & Hkj). apply lookup_lt_Some in Hk as Hkl.
    destruct (slot_owner _ _ _ _ _ Hi Hk) as (q & cq & ev & Hq & Haq & Hxq & _).
    assert (Hne : q <> p) by (intros ->; rewrite Hc in Hq; injection Hq as <-; lia).
    specialize (Hh q Hne). rewrite Hq in Hh. destruct Hh as (cq' & Hq' & Hfq & Hxq').
    exists q, cq', (fd_ cq), ev. rewrite !lookup_delete_ne by done. split_and!; [done | done|].
    rewrite Hxq'. destruct (decide (j = i)) as [->|Hji]; subst k; bcase; lia.
Qed.

Lemma pp_remove_law h s a p c fd : pp_inv h s a -> h !! p = Some c -> a !! p = Some (fd, Some 0) ->
  events_ c = 0 ->
  exists h' s', pp_removeChannel h s p = Ok (h', s') /\ pp_inv (delete p h') s' (delete p a) /\
    forall q cq, q <> p -> h !! q = Some cq -> exists cq', h' !! q = Some cq' /\ same_channel cq cq'.
Proof.
  intros Hi Hc Ha Hev. destruct (pi_lookup _ _ _ _ _ Hi Hc) as (r' & Ha' & Hpos & Hok).
  rewrite Ha in Ha'. injection Ha' as -> <-. cbn [slot_ok] in Hok. destruct Hok as (i & rev & Hx & Hs).
  assert (Hm : poll_channels_ s !! fd_ c = Some p) by (apply (pi_map _ _ _ Hi); eauto).
  apply lookup_lt_Some in Hs as Hlt. set (l := pollfds_ s) in *.
  unfold pp_removeChannel. rewrite (deref_ok _ _ _ Hc). cbn [bind]. rewrite (assert_known_ok _ _ _ Hm).
  unfold isNoneEvent. rewrite Hev, Hx. fold l. rewrite (slot_range _ _ _ Hs), (slot_of_ok _ _ _ Hs).
  cbn [bind assert_ Z.eqb kNoneEvent pfd_fd pfd_events]. rewrite Z.eqb_refl, Hm.
  rewrite bool_decide_true by by eexists. cbn [bind assert_ andb Z.eqb Pos.eqb].
  bcase.
  - do 2 eexists. split; [done|]. split; [|by intros q cq _ Hq; exists cq; split; [|destruct cq]].
    eapply (pp_inv_remove _ _ _ _ _ i); try done; cbn [pollfds_ poll_channels_]; fold l.
    + intros j. rewrite lookup_take. case_decide; [|done]. by rewrite decide_False by lia.
    + intros q Hne. destruct (h !! q) as [cq|] eqn:Hq; [|done]. exists cq. split; [done|]. split; [done|].
      bcase; [|done]. lia.
  - destruct (lookup_lt_is_Some_2 l (length l - 1)) as [back Hback]; [lia|].
    replace (Z.of_nat (length l) - 1) with (Z.of_nat (length l - 1)) in * by lia.
    rewrite (slot_of_ok _ _ _ Hback). cbn [bind].
    destruct (slot_owner _ _ _ _ _ Hi Hback) as (q & cq & ev & Hq & Haq & Hxq & Hfq & Hbe & Hbf).
    assert (Hne : q <> p) by (intros ->; rewrite Hc in Hq; injection Hq as <-; lia).
    assert (Hend : (if pfd_fd back <? 0 then - pfd_fd back - 1 else pfd_fd back) = fd_ cq).
    { rewrite Hbf. destruct (ev =? 0); bcase; lia. }
    rewrite Hend, lookup_delete_ne
      by (intros E; apply Hne; rewrite <- E in Haq; symmetry; by eapply pi_unique).
    assert (Hmq : poll_channels_ s !! fd_ cq = Some q) by (apply (pi_map _ _ _ Hi); eauto).
    rewrite Hmq. cbn [bind]. rewrite (deref_ok _ _ _ Hq). cbn [bind]. do 2 eexists. split; [done|]. split.
    + eapply (pp_inv_remove _ _ _ _ _ i); try done; cbn [pollfds_ poll_channels_]; fold l.
      * intros j. rewrite !length_insert, Nat2Z.id, lookup_take. case_decide; [|done].
        destruct (decide (j = i)) as [->|Hji].
        -- by rewrite list_lookup_insert_eq by (rewrite length_insert; lia).
        -- by rewrite !list_lookup_insert_ne by lia.
      * intros q' Hne'. destruct (decide (q = q')) as [<-|Hqq].
        -- rewrite Hq, lookup_insert_eq. eexists. split; [done|]. split; [done|]. cbn. bcase; lia.
        -- rewrite lookup_insert_ne by done. destruct (h !! q') as [cq'|] eqn:Hq'; [|done].
           exists cq'. split; [done|]. split; [done|]. bcase; [|done]. exfalso. apply Hqq.
           destruct (pi_lookup _ _ _ _ _ Hi Hq') as (r & Hr & _ & Hok'). destruct r as [e|]; cbn [slot_ok] in Hok'; [|lia].
           eapply index_unique; [exact Hi | exact Hq | exact Hq' | done | done | lia].
    + intros q' cq' Hne' Hq'. destruct (decide (q = q')) as [<-|Hqq].
      * rewrite lookup_insert_eq. rewrite Hq in Hq'. injection Hq' as <-. by eexists.
      * rewrite lookup_insert_ne by done. exists cq'. by split; [|destruct cq'].
Qed.

Lemma asked_elem h s a fd ev : pp_inv h s a ->
  (fd, ev) ∈ omap (fun pfd => if 0 <=? pfd_fd pfd
    then Some (pfd_fd pfd, pfd_events pfd) else None) (pollfds_ s) <->
  ev <> 0 /\ exists p, a !! p = Some (fd, Some ev).
Proof.
  intros Hi. rewrite list_elem_of_omap. split.
  - intros (pfd & [i Hs]%list_elem_of_lookup_1 & Hpf).
    destruct (slot_owner _ _ _ _ _ Hi Hs) as (p & c & e & Hc & Ha & _ & Hpos & He & Hf).
    revert Hpf. bcase; [|done]. intros [= <- <-]. rewrite He in *. revert Hf. bcase; [lia|].
    intros ->. split; [done|]. by exists p.
  - intros (Hne & p & Ha). pose proof (pi_channel _ _ _ Hi p) as Hp. rewrite Ha in Hp.
    destruct (h !! p) as [c|]; [|done]. destruct Hp as (<- & Hpos & i & rev & _ & Hs).
    eexists. split; [by eapply list_elem_of_lookup_2|]. cbn [pfd_fd pfd_events].
    rewrite (proj2 (Z.eqb_neq ev 0) Hne). by rewrite (proj2 (Z.leb_le 0 (fd_ c)) Hpos).
Qed.
Lemma asked_iff h s a fd ev : pp_inv h s a ->
  pp_asked s !! fd = Some ev <-> ev <> 0 /\ exists p, a !! p = Some (fd, Some ev).
Proof.
  intros Hi. rewrite <- (asked_elem _ _ _ _ _ Hi). unfold pp_asked. split.
  - apply elem_of_list_to_map_2.
  - intros Hin. apply elem_of_list_to_map_1'; [|done]. intros ev' Hin'.
    apply (asked_elem _ _ _ _ _ Hi) in Hin as (_ & p & Hp). apply (asked_elem _ _ _ _ _ Hi) in Hin' as (_ & q & Hq).
    assert (p = q) as -> by (by eapply pi_unique). congruence.
Qed.
End laws.

#[export] Program Instance poll_laws : PollerLaws PollPoller := { poller_inv := pp_inv }.
Next Obligation.
  intros h s a p fd Hi Hp Hfd. pose proof (pi_channel _ _ _ Hi p) as Hpa. rewrite Hp in Hpa.
  destruct (a !! p) eqn:Ha; [done|]. constructor.
  - intros q. destruct (decide (p = q)) as [<-|Hne]; [by rewrite !lookup_insert_eq|].
    rewrite !lookup_insert_ne by done. apply Hi.
  - intros f q. rewrite (pi_map _ _ _ Hi). destruct (decide (p = q)) as [<-|Hne].
    + rewrite lookup_insert_eq, Ha. split; intros [e He]; congruence.
    + by rewrite lookup_insert_ne.
  - intros i pfd Hs. destruct (pi_slots _ _ _ Hi _ _ Hs) as (q & c & f & e & Hc & Hq & Hx).
    assert (p <> q) by (intros <-; congruence). exists q, c, f, e. by rewrite !lookup_insert_ne.
Qed.
Next Obligation.
  intros h s a p c c' Hi Hc Hf Hx. constructor; [|apply Hi|].
  - intros q. destruct (decide (p = q)) as [<-|Hne]; [|by rewrite lookup_insert_ne; [apply Hi|]].
    rewrite lookup_insert_eq. pose proof (pi_channel _ _ _ Hi p) as H. rewrite Hc in H.
    destruct (a !! p) as [[fd r]|]; [|done]. by rewrite Hf, Hx.
  - intros i pfd Hs. destruct (pi_slots _ _ _ Hi _ _ Hs) as (q & cq & f & e & Hq & Haq & Hxq).
    destruct (decide (p = q)) as [<-|Hne].
    + exists p, c', f, e. rewrite lookup_insert_eq. split_and!; try done. congruence.
    + exists q, cq, f, e. by rewrite lookup_insert_ne.
Qed.
Next Obligation.
  intros h s a p Hi. pose proof (pi_channel _ _ _ Hi p) as H.
  destruct (h !! p), (a !! p) as [[fd r]|]; try done. apply H.
Qed.
Next Obligation. exact pp_update_law. Qed.
Next Obligation. exact pp_remove_law. Qed.
Next Obligation.
  intros h s a fd ev Hi Hne. rewrite (asked_iff _ _ _ _ _ Hi). naive_solver.
Qed.

(** ** Waiting *)

Lemma pp_fill_zero m h slots : pp_fill m h 0 slots = Ok (h, []).
Proof. by destruct slots as [|[pfd rev] slots]. Qed.

(** [poll] reports events only for the slots it does not ignore, and counts
    them; then the channels of these slots become active, in the order of the
    slots, each with its events. *)
Lemma pp_fill_spec s a slots h n : pp_inv h s a ->
  Forall (fun x => x.1 ∈ pollfds_ s /\ (x.2 > 0 -> 0 <= pfd_fd x.1)) slots ->
  n = Z.of_nat (length (filter (fun x => 0 < x.2) slots)) ->
  exists h', pp_fill (poll_channels_ s) h n slots =
    Ok (h', omap (fun x => if x.2 >? 0 then poll_channels_ s !! pfd_fd x.1 else None) slots) /\ pp_inv h' s a.
Proof.
  revert h n. induction slots as [|[pfd rev] slots IH]; intros h n Hi Hs ->; csimpl; [by exists h|].
  apply Forall_cons in Hs as [[[i Hin]%list_elem_of_lookup_1 Hpos] Hs]. cbn [fst snd] in *.
  rewrite filter_cons. cbn [snd]. set (k := length (filter (fun x : pollfd * Z => 0 < x.2) slots)).
  destruct (decide (0 < rev)) as [Hrev|Hrev].
  - rewrite !(proj2 (Z.gtb_lt _ _)) by (cbn [length]; lia).
    destruct (slot_owner _ _ _ _ _ Hi Hin) as (p & c & ev & Hc & Ha & _ & Hfd & _ & Hf).
    assert (Hfc : pfd_fd pfd = fd_ c) by (specialize (Hpos ltac:(lia)); revert Hf; bcase; lia).
    assert (Hm : poll_channels_ s !! fd_ c = Some p) by (apply (pi_map _ _ _ Hi); eauto).
    rewrite Hfc, Hm. cbn [bind]. rewrite (deref_ok _ _ _ Hc). cbn [bind]. rewrite Z.eqb_refl. cbn [assert_ bind].
    destruct (IH (<[p := set_revents rev c]> h) (Z.of_nat k)) as (h' & Heq & Hi');
      [exact (inv_touch (P := PollPoller) h s a p c (set_revents rev c) Hi Hc eq_refl eq_refl) | done | done|].
    replace (Z.of_nat (length (_ :: _)) - 1) with (Z.of_nat k) by (cbn [length]; unfold k; lia).
    rewrite Heq. cbn [bind]. by exists h'.
  - destruct (IH h (Z.of_nat k) Hi Hs eq_refl) as (h' & Heq & Hi').
    destruct (rev >? 0) eqn:Hr; [apply Z.gtb_lt in Hr; lia|].
    fold k. destruct (Z.of_nat k >? 0) eqn:Hk; [by exists h'|].
    assert (Hk0 : Z.of_nat k = 0) by (rewrite Z.gtb_ltb in Hk; reflect_bools; lia).
    rewrite Hk0, pp_fill_zero in Heq. injection Heq as <- <-. by exists h.
Qed.

(** ** Both pollers *)

(** A kernel object for [epoll(7)]: its interest list. *)
#[export] Instance list_epoll : Epoll (gmap Z (Z * Z)) := {
  epoll_ctl k op fd ev p :=
    if op =? EPOLL_CTL_ADD then
      if bool_decide (k !! fd = None) then (0, <[fd := (ev, p)]> k) else (-1, k)
    else if bool_decide (k !! fd = None) then (-1, k)
    else if op =? EPOLL_CTL_MOD then (0, <[fd := (ev, p)]> k)
    else (0, delete fd k);
  watched k := k
}.

#[export] Instance list_epoll_laws : EpollLaws (gmap Z (Z * Z)).
Proof.
  split; intros k fd ev p Hk; cbn in *.
  - rewrite bool_decide_true by done. by eexists.
  - rewrite bool_decide_false by (intros E; rewrite E in Hk; by destruct Hk). by eexists.
  - rewrite bool_decide_false by (intros E; rewrite E in Hk; by destruct Hk). by eexists.
Qed.

Lemma ep_inv_new {K} `{!Epoll K, !EpollLaws K} (k : K) : watched k = ∅ -> ep_inv ∅ (new_EPollPoller k) ∅.
Proof.
  intros Hk. constructor.
  - intros p. by rewrite !lookup_empty.
  - intros fd p. cbn. rewrite lookup_empty. split; [done|]. intros [e He]. by rewrite lookup_empty in He.
  - intros fd ev p. cbn. by rewrite Hk, lookup_empty.
Qed.

Lemma pp_inv_new : pp_inv ∅ new_PollPoller ∅.
Proof.
  constructor.
  - intros p. by rewrite !lookup_empty.
  - intros fd p. cbn. rewrite lookup_empty. split; [done|]. intros [e He]. by rewrite lookup_empty in He.
  - done.
Qed.

Lemma in_sync_empty : in_sync ∅ ∅.
Proof. intros p c fd r. by rewrite lookup_empty. Qed.

(** C9.  Both pollers implement the same registry of channels.  After any
    sequence of creations, changes of interest ([enableReading], ...,
    [disableAll]) and removals of channels that the registry allows ([spec]: the
    first registration of a channel wants something, descriptors are not shared,
    a channel is removed when it wants nothing), neither fails an assertion and no
    [epoll_ctl] is refused.  Every channel that wants something is watched by both,
    for exactly what it wants - through epoll's interest list or through the array
    for [poll], whose slots move when channels go - and nothing else is watched
    for events.  [poll] does not watch a channel that wants nothing.  Epoll does
    not watch it either, except for errors and hang-ups when it was told an odd
    number of times, again, that it wants nothing ([again_all]); so both watch the
    same if that does not happen. *)
Theorem pollers_agree {K} `{!Epoll K, !EpollLaws K} (k : K) (os : list channel_op) (a : registry) :
  watched k = ∅ -> spec_all ∅ os = Some a ->
  exists h s h' s',
    exec_all ∅ (new_EPollPoller k) os = Ok (h, s) /\ exec_all ∅ new_PollPoller os = Ok (h', s') /\
    (forall fd ev, ev <> 0 -> asked s !! fd = Some ev <-> exists p, a !! p = Some (fd, Some ev)) /\
    (forall fd, asked s !! fd = Some 0 <-> exists p, p ∈ again_all ∅ ∅ os /\ a !! p = Some (fd, Some 0)) /\
    (forall fd ev, asked s' !! fd = Some ev <-> ev <> 0 /\ exists p, a !! p = Some (fd, Some ev)) /\
    (again_all ∅ ∅ os = ∅ -> asked s = asked s').
Proof.
  intros Hk Hos.
  destruct (exec_all_refines (P := EPollPoller K) os ∅ (new_EPollPoller k) ∅ a (PollerLaws0 := epoll_laws) (ep_inv_new k Hk) in_sync_empty Hos)
    as (h & s & He & Hi & _).
  destruct (exec_all_refines (P := PollPoller) os ∅ new_PollPoller ∅ a (PollerLaws0 := poll_laws) pp_inv_new in_sync_empty Hos) as (h' & s' & He' & Hi' & _).
  assert (Hz : zero_ok h a (again_all ∅ ∅ os)).
  { eapply (zero_ok_all os ∅ (new_EPollPoller k)); [by apply ep_inv_new|exact in_sync_empty| |exact Hos|exact He].
    intros p c fd H. by rewrite lookup_empty in H. }
  assert (H1 : forall fd ev, ev <> 0 -> asked s !! fd = Some ev <-> exists p, a !! p = Some (fd, Some ev))
    by (intros; by eapply (asked_law (P := EPollPoller K))).
  assert (H2 : forall fd ev, asked s' !! fd = Some ev <-> ev <> 0 /\ exists p, a !! p = Some (fd, Some ev))
    by (intros; by eapply asked_iff).
  assert (H3 : forall fd, asked s !! fd = Some 0 <-> exists p, p ∈ again_all ∅ ∅ os /\ a !! p = Some (fd, Some 0))
    by (intros; by eapply asked_zero).
  exists h, s, h', s'. split; [done|]. split; [done|]. split; [done|]. split; [done|]. split; [done|].
  intros Hno. apply map_eq. intros fd. apply option_eq. intros ev. destruct (decide (ev = 0)) as [->|Hne].
  - rewrite H3, H2, Hno. split; [intros (p & Hp & _); set_solver|naive_solver].
  - rewrite H1, H2 by done. naive_solver.
Qed.

(** Three channels; the first goes, so the last one moves to its slot. *)
Definition demo_ops : list channel_op :=
  [NewChannel 100 5; ChangeEvents 100 EnableReading; NewChannel 200 6; ChangeEvents 200 EnableReading;
   NewChannel 300 7; ChangeEvents 300 EnableWriting; ChangeEvents 100 DisableAll; RemoveChannel 100;
   ChangeEvents 300 EnableReading].

Lemma pollers_agree_witness :
  (exists a, spec_all ∅ demo_ops = Some a /\
  exists h s h' s',
    exec_all ∅ (new_EPollPoller (∅ : gmap Z (Z * Z))) demo_ops = Ok (h, s) /\
    exec_all ∅ new_PollPoller demo_ops = Ok (h', s') /\
    asked s = asked s') /\
  (exists h s, exec_all ∅ new_PollPoller demo_ops = Ok (h, s) /\ pp_asked s = {[6 := 3; 7 := 7]}).
Proof.
  split.
  - exists {[200 := (6, Some 3); 300 := (7, Some 7)]}. split; [by vm_compute|].
    destruct (pollers_agree (∅ : gmap Z (Z * Z)) demo_ops {[200 := (6, Some 3); 300 := (7, Some 7)]})
      as (h & s & h' & s' & H1 & H2 & _ & _ & _ & H3); [done | by vm_compute|].
    exists h, s, h', s'. split; [done|]. split; [done|]. apply H3. by vm_compute.
  - do 2 eexists. split; [vm_compute; reflexivity | vm_compute; reflexivity].
Defined.

(** A connection that has stopped reading comes down: its channel is told again
    that it wants nothing, and epoll watches it for hang-ups until it is removed;
    poll does not. *)
Definition disabled_again : list channel_op :=
  [NewChannel 100 5; ChangeEvents 100 EnableReading; ChangeEvents 100 DisableReading; ChangeEvents 100 DisableAll].

Lemma disabled_again_watched : exists h s h' s',
  exec_all ∅ (new_EPollPoller (∅ : gmap Z (Z * Z))) disabled_again = Ok (h, s) /\ asked s = {[5 := 0]} /\
  exec_all ∅ new_PollPoller disabled_again = Ok (h', s') /\ asked s' = ∅.
Proof. do 4 eexists. split; [vm_compute; reflexivity|]. split; [by vm_compute|]. split; [vm_compute; reflexivity|by vm_compute]. Qed.

(** The acceptor's destructor disables and removes its channel even if it never
    listened.  With epoll that works; the poll poller has put the channel into
    an active slot and refuses to remove it. *)
Definition unused_acceptor : list channel_op :=
  [NewChannel 100 5; ChangeEvents 100 DisableAll; RemoveChannel 100].

Lemma unused_acceptor_ends_process :
  exec_all ∅ new_PollPoller unused_acceptor = Crash AssertFailed /\
  exists h s, exec_all ∅ (new_EPollPoller (∅ : gmap Z (Z * Z))) unused_acceptor = Ok (h, s).
Proof. split; [by vm_compute|]. do 2 eexists. vm_compute. reflexivity. Qed.
