(* ===== verification/EventLoop.v ===== *)
(** * The event loop

    [muduo/net/EventLoop.h] and [EventLoop.cc].  The loop belongs to one thread;
    other threads may hand it functors ([queueInLoop]) and ask it to stop
    ([quit]), and wake it with an [eventfd].  The operations of the class are
    functions on its members; [step] interleaves the statements of [loop] with
    the calls of callbacks and of other threads, where the mutex makes the
    changes of [pendingFunctors_] atomic.  The log lines and the context are left
    out. *)

From S2P Require Import Prelude Channel Poller.

Open Scope outcome_scope.

Definition kPollTimeMs : Z := 10000.

(** The largest value of an [eventfd] counter. *)
Definition eventfd_max : Z := 18446744073709551614.

Section eventloop.
(** Functors are values the model gives a meaning to where they are called. *)
Context {F : Type}.

(** ** The class *)

Record EventLoop := mk_EventLoop {
  looping_ : bool;
  quit_ : bool;
  handling_ : bool;                     (* eventHandling_ *)
  callingPendingFunctors_ : bool;
  iteration_ : Z;
  wakeupFd_ : Z;                        (* the counter of the eventfd *)
  activeChannels_ : list Z;
  currentActiveChannel_ : option Z;
  pendingFunctors_ : list F
}.

Definition eta_loop (s : EventLoop) : EventLoop :=
  mk_EventLoop (looping_ s) (quit_ s) (handling_ s) (callingPendingFunctors_ s) (iteration_ s)
    (wakeupFd_ s) (activeChannels_ s) (currentActiveChannel_ s) (pendingFunctors_ s).
#[export] Instance set_looping_ : Setter looping_ := ltac:(build_setter eta_loop looping_).
#[export] Instance set_quit_ : Setter quit_ := ltac:(build_setter eta_loop quit_).
#[export] Instance set_handling_ : Setter handling_ := ltac:(build_setter eta_loop handling_).
#[export] Instance set_callingPendingFunctors_ : Setter callingPendingFunctors_ :=
  ltac:(build_setter eta_loop callingPendingFunctors_).
#[export] Instance set_iteration_ : Setter iteration_ := ltac:(build_setter eta_loop iteration_).
#[export] Instance set_wakeupFd_ : Setter wakeupFd_ := ltac:(build_setter eta_loop wakeupFd_).
#[export] Instance set_activeChannels_ : Setter activeChannels_ := ltac:(build_setter eta_loop activeChannels_).
#[export] Instance set_currentActiveChannel_ : Setter currentActiveChannel_ :=
  ltac:(build_setter eta_loop currentActiveChannel_).
#[export] Instance set_pendingFunctors_ : Setter pendingFunctors_ := ltac:(build_setter eta_loop pendingFunctors_).

Definition new_EventLoop : EventLoop := {|
  looping_ := false; quit_ := false; handling_ := false; callingPendingFunctors_ := false;
  iteration_ := 0; wakeupFd_ := 0; activeChannels_ := []; currentActiveChannel_ := None;
  pendingFunctors_ := [] |}.

(** [wakeup]: [write] of 1 to the [eventfd]; it fails, and is only logged, when
    the counter is full. *)
Definition wakeup (s : EventLoop) : EventLoop :=
  if wakeupFd_ s <? eventfd_max then s <| wakeupFd_ := wakeupFd_ s + 1 |> else s.

(** The callback of the wakeup channel: [read] empties the counter. *)
Definition handleRead (s : EventLoop) : EventLoop := s <| wakeupFd_ := 0 |>.

(** The critical section of [queueInLoop]. *)
Definition push (cb : F) (s : EventLoop) : EventLoop := s <| pendingFunctors_ := pendingFunctors_ s ++ [cb] |>.

(** [here] is [isInLoopThread()]. *)
Definition queueInLoop (here : bool) (cb : F) (s : EventLoop) : EventLoop :=
  let s := push cb s in
  if negb here || callingPendingFunctors_ s then wakeup s else s.

Definition quit (here : bool) (s : EventLoop) : EventLoop :=
  let s := s <| quit_ := true |> in
  if here then s else wakeup s.

Definition queueSize (s : EventLoop) : Z := Z.of_nat (length (pendingFunctors_ s)).

(** The beginning of [loop], an iteration up to the handlers, and after them. *)
Definition start_loop (s : EventLoop) : outcome EventLoop :=
  let* _ := assert_ (negb (looping_ s)) in
  Ok (s <| looping_ := true |> <| quit_ := false |>).
Definition poll_returns (ready : list Z) (s : EventLoop) : EventLoop :=
  s <| activeChannels_ := ready |> <| iteration_ := iteration_ s + 1 |> <| handling_ := true |>.
Definition end_handling (s : EventLoop) : EventLoop :=
  s <| currentActiveChannel_ := None |> <| handling_ := false |>.

(** The two ends of [doPendingFunctors]; between them the functors are called. *)
Definition swap_functors (s : EventLoop) : list F * EventLoop :=
  (pendingFunctors_ s, s <| callingPendingFunctors_ := true |> <| pendingFunctors_ := [] |>).
Definition end_functors (s : EventLoop) : EventLoop := s <| callingPendingFunctors_ := false |>.

(** A handler may remove its own channel, or one without an event in this
    round. *)
Definition may_remove (s : EventLoop) (p : Z) : bool :=
  negb (handling_ s) ||
  (bool_decide (currentActiveChannel_ s = Some p) || negb (bool_decide (p ∈ activeChannels_ s))).

Section poller.
Context {P : Type} `{!PollerImpl P}.

Definition loop_updateChannel (h : channel_heap) (pl : P) (p : Z) : outcome (channel_heap * P) :=
  updateChannel h pl p.
Definition loop_removeChannel (s : EventLoop) (h : channel_heap) (pl : P) (p : Z) : outcome (channel_heap * P) :=
  let* _ := assert_ (may_remove s p) in
  removeChannel h pl p.
End poller.

(** [runInLoop] and [doPendingFunctors] in a larger state, of which [get] and
    [put] reach the loop; [call] is the call of a functor. *)
Section calls.
Context {S : Type} (get : S -> EventLoop) (put : EventLoop -> S -> S) (call : F -> S -> outcome S).

Definition runInLoop (here : bool) (cb : F) (s : S) : outcome S :=
  if here then call cb s else Ok (put (queueInLoop false cb (get s)) s).

Fixpoint call_all (l : list F) (s : S) : outcome S :=
  match l with
  | [] => Ok s
  | f :: l => let* s := call f s in call_all l s
  end.

Definition doPendingFunctors (s : S) : outcome S :=
  let '(functors, lp) := swap_functors (get s) in
  let* s := call_all functors (put lp s) in
  Ok (put (end_functors (get s)) s).
End calls.

(** ** Interleavings *)

(** Where the loop thread is. *)
Inductive phase :=
  | Outside                     (* not in loop() *)
  | Checking                    (* at while (!quit_) *)
  | Polling
  | Handling (todo : list Z)    (* channels to handle *)
  | Swapping
  | Calling (todo : list F).    (* functors to call *)

Inductive label :=
  | StartLoop
  | CheckQuit
  | PollReturns (ready : list Z)
  | HandleNext
  | EndHandling
  | SwapFunctors
  | CallNext
  | EndFunctors
  (* by a handler or a functor, on the loop's thread *)
  | LoopQueues (cb : F)
  | LoopQuits
  | LoopAdds (p : Z)
  | LoopRemoves (p : Z)
  (* by the loop's thread before loop() *)
  | EarlyQueues (cb : F)
  (* by other threads; each of the first two is followed by a wakeup *)
  | OtherQueues (cb : F)
  | OtherQuits
  | OtherWakes.

(** [owed] counts the other threads on their way to [wakeup], [registered] are
    the channels that exist. *)
Record config := mk_config { loop : EventLoop; pc : phase; owed : nat; registered : gset Z }.

Definition in_callback (c : config) : bool :=
  match pc c with
  | Handling _ => bool_decide (is_Some (currentActiveChannel_ (loop c)))
  | Calling _ => true
  | _ => false
  end.

(** The channel of the [eventfd]. *)
Variable wakeupChannel : Z.

(** What [poll] can report: channels that exist, each once, the wakeup channel
    only if the counter is positive; and nothing only if it is zero. *)
Definition poll_answer (c : config) (ready : list Z) : bool :=
  bool_decide (NoDup ready) && forallb (fun p => bool_decide (p ∈ registered c)) ready &&
  (negb (bool_decide (wakeupChannel ∈ ready)) || (0 <? wakeupFd_ (loop c))) &&
  (negb (bool_decide (ready = [])) || (wakeupFd_ (loop c) =? 0)).

(** One step; [None] if it cannot happen in this configuration. *)
Definition step (c : config) (l : label) : option (outcome config) :=
  let '(mk_config s ph n reg) := c in
  let continue s ph n reg := Some (Ok (mk_config s ph n reg)) in
  match l, ph with
  | StartLoop, Outside =>
      Some (let* s := start_loop s in Ok (mk_config s Checking n reg))
  | CheckQuit, Checking =>
      if quit_ s then continue (s <| looping_ := false |>) Outside n reg
      else continue (s <| activeChannels_ := [] |>) Polling n reg
  | PollReturns ready, Polling =>
      if poll_answer c ready then continue (poll_returns ready s) (Handling ready) n reg else None
  | HandleNext, Handling (p :: todo) =>
      let s := s <| currentActiveChannel_ := Some p |> in
      if negb (bool_decide (p ∈ reg)) then Some (Crash DeadObject)
      else continue (if p =? wakeupChannel then handleRead s else s) (Handling todo) n reg
  | EndHandling, Handling [] => continue (end_handling s) Swapping n reg
  | SwapFunctors, Swapping =>
      let '(functors, s) := swap_functors s in continue s (Calling functors) n reg
  | CallNext, Calling (_ :: todo) => continue s (Calling todo) n reg
  | EndFunctors, Calling [] => continue (end_functors s) Checking n reg
  | LoopQueues cb, _ => if in_callback c then continue (queueInLoop true cb s) ph n reg else None
  | LoopQuits, _ => if in_callback c then continue (quit true s) ph n reg else None
  | LoopAdds p, _ =>
      if in_callback c && negb (bool_decide (p ∈ reg)) then continue s ph n ({[p]} ∪ reg) else None
  | LoopRemoves p, _ =>
      if in_callback c && bool_decide (p ∈ reg) && negb (p =? wakeupChannel) then
        Some (let* _ := assert_ (may_remove s p) in Ok (mk_config s ph n (reg ∖ {[p]})))
      else None
  | EarlyQueues cb, Outside => continue (queueInLoop true cb s) ph n reg
  | OtherQueues cb, _ => continue (push cb s) ph (1 + n)%nat reg
  | OtherQuits, _ => continue (s <| quit_ := true |>) ph (1 + n)%nat reg
  | OtherWakes, _ => match n with O => None | Datatypes.S n => continue (wakeup s) ph n reg end
  | _, _ => None
  end.

(** The functor a step calls, and the one it queues. *)
Definition called (c : config) (l : label) : list F :=
  match l, pc c with CallNext, Calling (f :: _) => [f] | _, _ => [] end.
Definition queued (l : label) : list F :=
  match l with LoopQueues f | EarlyQueues f | OtherQueues f => [f] | _ => [] end.

(** A run, with the functors it calls in order. *)
Fixpoint steps (c : config) (tr : list label) : option (outcome (config * list F)) :=
  match tr with
  | [] => Some (Ok (c, []))
  | l :: tr =>
      match step c l with
      | Some (Ok c') =>
          match steps c' tr with
          | Some (Ok (c'', fs)) => Some (Ok (c'', called c l ++ fs))
          | r => r
          end
      | Some (Crash e) => Some (Crash e)
      | None => None
      end
  end.

(** ** The invariant *)

(** Somebody has written, or is about to write, to the [eventfd]. *)
Definition woken (c : config) : Prop := 0 < wakeupFd_ (loop c) \/ (0 < owed c)%nat.

(** The functors that are to be called. *)
Definition todo_functors (c : config) : list F :=
  match pc c with Calling todo => todo | _ => [] end ++ pendingFunctors_ (loop c).

(** [E] are the functors that were queued before [loop]: the ones that wake
    nobody. *)
Variable E : F -> Prop.

Definition waiting (c : config) : Prop := ~ Forall E (pendingFunctors_ (loop c)).

Definition phase_ok (c : config) : Prop :=
  match pc c with
  | Outside | Checking => handling_ (loop c) = false /\ (waiting c -> woken c)
  | Polling => handling_ (loop c) = false /\ (waiting c \/ quit_ (loop c) = true -> woken c)
  | Handling todo =>
      handling_ (loop c) = true /\ NoDup todo /\ (forall p, p ∈ todo -> p ∈ registered c /\ p ∈ activeChannels_ (loop c)) /\
      (forall p, currentActiveChannel_ (loop c) = Some p -> p ∉ todo)
  | Swapping => handling_ (loop c) = false
  | Calling _ => handling_ (loop c) = false /\ (waiting c -> woken c)
  end.

Record loop_inv (c : config) : Prop := {
  inv_calling : callingPendingFunctors_ (loop c) = match pc c with Calling _ => true | _ => false end;
  inv_looping : looping_ (loop c) = match pc c with Outside => false | _ => true end;
  inv_current : match pc c with Handling _ => True | _ => currentActiveChannel_ (loop c) = None end;
  inv_counter : 0 <= wakeupFd_ (loop c);
  inv_phase : phase_ok c
}.

Definition early_ok (l : label) : Prop := match l with EarlyQueues f => E f | _ => True end.

End eventloop.

Arguments EventLoop : clear implicits.
Arguments label : clear implicits.
Arguments config : clear implicits.
Arguments phase : clear implicits.


Section theorems.
Context {F : Type} (wakeupChannel : Z).
Implicit Types (c : config F) (l : label F).

Section early.
Variable E : F -> Prop.
Abbreviation loop_inv := (loop_inv E).

Lemma inv_start : loop_inv {| loop := new_EventLoop (F := F); pc := Outside; owed := 0; registered := {[wakeupChannel]} |}.
Proof. constructor; try done. split; [done|]. intros Hw. destruct Hw. constructor. Qed.

Lemma wakeup_positive (s : EventLoop F) : 0 <= wakeupFd_ s -> 0 < wakeupFd_ (wakeup s).
Proof. unfold wakeup, eventfd_max. intros. bcase; cbn; lia. Qed.

Lemma wakeup_same (s : EventLoop F) : exists n, wakeup s = s <| wakeupFd_ := n |>.
Proof. unfold wakeup. bcase; [by eauto|]. exists (wakeupFd_ s). by destruct s. Qed.

(** Give the effect of [wakeup] a name: a positive counter. *)
Ltac wake :=
  match goal with
  | H : 0 <= wakeupFd_ ?s0 |- context [wakeup ?s] =>
      let Hp := fresh "Hp" in
      assert (Hp : 0 < wakeupFd_ (wakeup s)) by (apply wakeup_positive; cbn; lia);
      destruct (wakeup_same s) as [? Hw]; rewrite Hw in Hp |- *; clear Hw; cbn in Hp
  end.
Ltac inv_auto := constructor; cbn in *; unfold phase_ok, waiting, woken in *; cbn in *; try done;
  try lia; intuition (congruence || lia || eauto || idtac);
  try (exfalso; match goal with H : Forall _ [] -> False |- _ => apply H; constructor end).

Lemma other_inv c l r : loop_inv c -> step wakeupChannel c l = Some r ->
  match l with OtherQueues _ | OtherQuits | OtherWakes => True | _ => False end ->
  exists c', r = Ok c' /\ loop_inv c'.
Proof.
  intros [H1 H2 H3 H4 H5] Hs Hl. destruct c as [s ph n reg]. cbn in *.
  destruct l, ph; try done; cbn in Hs; (try case_match; simplify_eq; eexists; split; [done|]).
  all: try wake; inv_auto.
Qed.

Lemma queue_inv s ph n reg cb c' : loop_inv (mk_config s ph n reg) ->
  match ph with Handling _ | Calling _ => True | _ => False end ->
  c' = mk_config (queueInLoop true cb s) ph n reg -> loop_inv c'.
Proof.
  intros [H1 H2 H3 H4 H5] Hph ->. cbn in *. unfold queueInLoop. cbn. rewrite H1.
  destruct ph; try done; try wake; inv_auto.
Qed.

Lemma callback_inv c l r : loop_inv c -> step wakeupChannel c l = Some r ->
  match l with LoopQueues _ | LoopQuits | LoopAdds _ | LoopRemoves _ => True | _ => False end ->
  match r with Ok c' => loop_inv c' | Crash e => e = AssertFailed end.
Proof.
  intros Hc Hs Hl. destruct c as [s ph n reg]. cbn in *.
  destruct l as [| | | | | | | |cb| |p|p| | | |]; try done; unfold in_callback in Hs; cbn in Hs;
    destruct ph; try done.
  all: try (case_match; simplify_eq; by eapply queue_inv).
  all: destruct Hc as [H1 H2 H3 H4 H5]; cbn in *.
  all: case_match; simplify_eq; reflect_bools; unfold phase_ok in H5; cbn in H5.
  1,2,4: inv_auto.
  - constructor; cbn; try done. unfold phase_ok; cbn. set_solver.
  - unfold may_remove, assert_. destruct H5 as (Hh & Hn & Ht & Hu). rewrite Hh. cbn.
    destruct (_ || _) eqn:Ho; [|done]. cbn. apply orb_true_iff in Ho.
    constructor; cbn; try done. unfold phase_ok; cbn. split_and!; try done.
    intros q Hq. specialize (Ht q Hq) as [Hr Ha]. split; [|done].
    apply elem_of_difference. split; [done|]. rewrite elem_of_singleton. intros ->.
    destruct Ho as [Ho|Ho]; [apply bool_decide_eq_true in Ho; by eapply Hu|].
    rewrite negb_true_iff in Ho. by apply bool_decide_eq_false in Ho.
  - unfold may_remove. destruct H5 as [Hh H5]. rewrite Hh. cbn. inv_auto.
Qed.

Lemma thread_inv c l r : loop_inv c -> step wakeupChannel c l = Some r ->
  match l with StartLoop | CheckQuit | PollReturns _ | HandleNext | EndHandling | SwapFunctors | CallNext
    | EndFunctors => True | _ => False end ->
  exists c', r = Ok c' /\ loop_inv c'.
Proof.
  intros [H1 H2 H3 H4 H5] Hs Hl. destruct c as [s ph n reg]. cbn in *.
  destruct l as [| |ready| | | | | | | | | | | | |], ph as [| | |[|q todo]| |[|f todo]]; try done; cbn in Hs.
  - unfold start_loop in Hs. rewrite H2 in Hs. simplify_eq/=. eexists. split; [done|]. inv_auto.
  - case_match; simplify_eq; (eexists; split; [done|]); inv_auto.
  - unfold poll_answer in Hs. cbn in Hs. case_match; [|done]. simplify_eq. eexists. split; [done|].
    reflect_bools. repeat match goal with H : bool_decide _ = true |- _ => apply bool_decide_eq_true in H end.
    constructor; cbn; try done. unfold phase_ok; cbn. split_and!; try done.
    + intros p Hp. split; [|done]. rewrite forallb_forall in *. 
      eapply bool_decide_eq_true. match goal with H : forall x, _ |- _ => apply H end. by apply list_elem_of_In.
    + intros p Hp. by rewrite H3 in Hp.
  - unfold phase_ok in H5; cbn in H5. destruct H5 as (Hh & Hn & Ht & Hu).
    apply NoDup_cons in Hn as [Hp Hn].
    rewrite bool_decide_true in Hs by (apply Ht; left). cbn in Hs. simplify_eq. eexists; split; [done|].
    unfold handleRead. case_match; constructor; cbn; try done; unfold phase_ok; cbn; set_solver.
  - simplify_eq. eexists. split; [done|]. inv_auto.
  - simplify_eq. eexists. split; [done|]. inv_auto.
  - simplify_eq. eexists. split; [done|]. inv_auto.
  - simplify_eq. eexists. split; [done|]. inv_auto.
Qed.

Lemma early_inv c f r : loop_inv c -> E f -> step wakeupChannel c (EarlyQueues f) = Some r ->
  exists c', r = Ok c' /\ loop_inv c'.
Proof.
  intros [H1 H2 H3 H4 H5] Hf Hs. destruct c as [s ph n reg]. cbn in *. destruct ph; try done.
  injection Hs as <-. eexists. split; [done|]. unfold queueInLoop. cbn. rewrite H1.
  unfold phase_ok, waiting in H5. cbn in H5. destruct H5 as [Hh Hw].
  constructor; cbn; try done. split; [done|]. unfold waiting, woken. cbn. intros Hn. apply Hw. intros Hall. apply Hn.
  apply Forall_app. by repeat constructor.
Qed.

Lemma step_inv c l r : loop_inv c -> early_ok E l -> step wakeupChannel c l = Some r ->
  match r with Ok c' => loop_inv c' | Crash e => e = AssertFailed end.
Proof.
  intros Hc Hl Hs.
  destruct l; try done;
    try (destruct (early_inv _ _ _ Hc Hl Hs) as (c' & -> & Hc'); exact Hc');
    try exact (callback_inv _ _ _ Hc Hs I);
    try (destruct (thread_inv _ _ _ Hc Hs I) as (c' & -> & Hc'); exact Hc');
    destruct (other_inv _ _ _ Hc Hs I) as (c' & -> & Hc'); exact Hc'.
Qed.

Lemma steps_inv c tr r : loop_inv c -> Forall (early_ok E) tr -> steps wakeupChannel c tr = Some r ->
  match r with Ok (c', _) => loop_inv c' | Crash e => e = AssertFailed end.
Proof.
  intros Hc Htr. revert c r Hc. induction Htr as [|l tr Hl Htr IH]; intros c r Hc Hs; cbn in Hs.
  - by simplify_eq.
  - destruct (step _ c l) as [[c'|e]|] eqn:Hst; [|by simplify_eq; apply (step_inv _ _ _ Hc Hl Hst)|done].
    pose proof (step_inv _ _ _ Hc Hl Hst) as Hc'. cbn in Hc'.
    destruct (steps _ c' tr) as [r'|] eqn:Hr; [|done]. specialize (IH _ _ Hc' Hr).
    destruct r' as [[c'' fs]|e]; by simplify_eq.
Qed.

End early.

Lemma wakeup_pending (s : EventLoop F) : pendingFunctors_ (wakeup s) = pendingFunctors_ s.
Proof. by destruct (wakeup_same s) as [? ->]. Qed.

Lemma queueInLoop_pending b cb (s : EventLoop F) :
  pendingFunctors_ (queueInLoop b cb s) = pendingFunctors_ s ++ [cb].
Proof. unfold queueInLoop. bcase; [by rewrite wakeup_pending | done]. Qed.

Lemma step_order c l c' : step wakeupChannel c l = Some (Ok c') ->
  todo_functors c ++ queued l = called c l ++ todo_functors c'.
Proof.
  destruct c as [s ph n reg]. unfold todo_functors. intros Hs.
  destruct l, ph as [| | |[|? ?]| |[|? ?]]; cbn in Hs; try done;
    unfold start_loop, assert_ in Hs; repeat (case_match; simplify_eq/=; try done);
    simplify_eq/=; rewrite ?queueInLoop_pending, ?wakeup_pending, ?app_nil_r; try done;
    by rewrite <-?(assoc_L (++)).
Qed.

Lemma steps_order c tr c' fs : steps wakeupChannel c tr = Some (Ok (c', fs)) ->
  todo_functors c ++ concat (map queued tr) = fs ++ todo_functors c'.
Proof.
  revert c c' fs. induction tr as [|l tr IH]; intros c c' fs Hs; cbn in Hs.
  - simplify_eq/=. by rewrite app_nil_r.
  - destruct (step _ c l) as [[c1|]|] eqn:Hst; [|done|done].
    destruct (steps _ c1 tr) as [[[c2 fs2]|]|] eqn:Hr; simplify_eq/=.
    apply step_order in Hst. apply IH in Hr.
    by rewrite (assoc_L (++)), Hst, <-!(assoc_L (++)), Hr.
Qed.

Lemma steps_app c tr1 tr2 c1 fs1 :
  steps wakeupChannel c tr1 = Some (Ok (c1, fs1)) ->
  steps wakeupChannel c (tr1 ++ tr2) =
  match steps wakeupChannel c1 tr2 with
  | Some (Ok (c2, fs2)) => Some (Ok (c2, fs1 ++ fs2))
  | r => r
  end.
Proof.
  revert c c1 fs1. induction tr1 as [|l tr1 IH]; intros c c1 fs1 Hs; cbn in Hs.
  - simplify_eq/=. by repeat case_match.
  - cbn. destruct (step _ c l) as [[c'|]|]; [|done|done].
    destruct (steps _ c' tr1) as [[[c2 fs2]|]|] eqn:Hr; simplify_eq/=.
    rewrite (IH _ _ _ Hr). destruct (steps _ c1 tr2) as [[[? ?]|]|]; try done. by rewrite (assoc_L (++)).
Qed.

(** The wakeup channel belongs to the loop. *)
Lemma step_wakeup c l c' : wakeupChannel ∈ registered c -> step wakeupChannel c l = Some (Ok c') ->
  wakeupChannel ∈ registered c'.
Proof.
  destruct c as [s ph n reg]. cbn. intros Hw Hs.
  destruct l, ph as [| | |[|? ?]| |[|? ?]]; cbn in Hs; try done;
    unfold start_loop, assert_ in Hs; repeat (case_match; simplify_eq/=; try done);
    simplify_eq/=; reflect_bools; set_solver.
Qed.

Lemma steps_wakeup c tr c' fs : wakeupChannel ∈ registered c -> steps wakeupChannel c tr = Some (Ok (c', fs)) ->
  wakeupChannel ∈ registered c'.
Proof.
  revert c c' fs. induction tr as [|l tr IH]; intros c c' fs Hw Hs; cbn in Hs; [by simplify_eq|].
  destruct (step _ c l) as [[c1|]|] eqn:Hst; [|done|done].
  destruct (steps _ c1 tr) as [[[c2 fs2]|]|] eqn:Hr; simplify_eq/=.
  eauto using step_wakeup.
Qed.

(** The pieces of a wakened iteration. *)
Lemma steps_wakes (s : EventLoop F) n reg : exists s',
  steps wakeupChannel (mk_config s Polling n reg) (repeat OtherWakes n) = Some (Ok (mk_config s' Polling 0 reg, [])) /\
  pendingFunctors_ s' = pendingFunctors_ s /\ (0 <= wakeupFd_ s -> 0 < wakeupFd_ s \/ (0 < n)%nat -> 0 < wakeupFd_ s').
Proof.
  revert s. induction n as [|n IH]; intros s; cbn.
  - exists s. split_and!; [done..|]. intros ? [?|?]; lia.
  - destruct (IH (wakeup s)) as (s' & Hs & Hp & Hw). exists s'. rewrite Hs, Hp, wakeup_pending.
    split_and!; [done..|]. intros H0 _. pose proof (wakeup_positive s H0). apply Hw; lia.
Qed.

Lemma steps_call (s : EventLoop F) fs reg :
  steps wakeupChannel (mk_config s (Calling fs) 0 reg) (repeat CallNext (length fs) ++ [EndFunctors]) =
  Some (Ok (mk_config (end_functors s) Checking 0 reg, fs)).
Proof. induction fs as [|f fs IH]; cbn; [done|]. by rewrite IH. Qed.

(** One iteration because of the wakeup channel alone. *)
Definition woken_iteration (n : nat) (k : nat) : list (label F) :=
  repeat OtherWakes n ++ [PollReturns [wakeupChannel]; HandleNext; EndHandling; SwapFunctors] ++
  repeat CallNext k ++ [EndFunctors].

Definition start : config F :=
  {| loop := new_EventLoop; pc := Outside; owed := 0; registered := {[wakeupChannel]} |}.

Lemma woken_iteration_calls E c : loop_inv E c -> pc c = Polling -> woken c -> wakeupChannel ∈ registered c ->
  exists c', steps wakeupChannel c (woken_iteration (owed c) (length (pendingFunctors_ (loop c)))) =
    Some (Ok (c', pendingFunctors_ (loop c))) /\ pc c' = Checking /\ pendingFunctors_ (loop c') = [].
Proof.
  intros Hc Hpc Hw Hreg. destruct c as [s ph n reg]. unfold woken in Hw. cbn in *. subst ph.
  destruct (steps_wakes s n reg) as (s' & Hs & Hp & Hpos). apply inv_counter in Hc. cbn in Hc. specialize (Hpos Hc Hw).
  unfold woken_iteration. rewrite (steps_app _ _ _ _ _ Hs).
  assert (Ha : poll_answer wakeupChannel (mk_config s' Polling 0 reg) [wakeupChannel] = true).
  { unfold poll_answer. cbn. rewrite !bool_decide_true by (try apply NoDup_singleton; try set_solver; done).
    rewrite (proj2 (Z.ltb_lt _ _)) by lia. by rewrite orb_true_r. }
  cbn. rewrite Ha. cbn. rewrite bool_decide_true by done. cbn. rewrite Z.eqb_refl. cbn.
  rewrite Hp, steps_call. cbn. eexists. split; [done|]. done.
Qed.

(** C11.  Any run of the loop against any calls of handlers, functors and other
    threads: the functors that were called, followed by those that wait, are
    the ones that were queued, in the order in which [queueInLoop] was called;
    none is lost, called twice or overtaken. *)
Theorem functors_in_order tr c fs : steps wakeupChannel start tr = Some (Ok (c, fs)) ->
  concat (map queued tr) = fs ++ todo_functors c.
Proof. intros Hs. apply steps_order in Hs. exact Hs. Qed.

(** C10.  No wakeup is lost, in any run of the loop against its handlers, its
    functors and other threads.  Whenever the loop waits in [poll]: if [quit_] is
    set or a functor is pending that was not queued by the loop's own thread
    before [loop], the [eventfd] is readable or another thread is about to write
    to it, so that [poll] does not wait for its timeout; and the next iteration,
    for which no event on another descriptor is needed, calls every pending
    functor.  The functors excepted are those for which no wakeup is written: the
    loop's own thread queued them before it called [loop] ([EarlyQueues]; see
    [early_functor_waits]); and [loop] clears the [quit_] of an earlier call
    ([early_quit_lost]). *)
Theorem loop_wakes_up tr c fs :
  steps wakeupChannel start tr = Some (Ok (c, fs)) -> pc c = Polling ->
  quit_ (loop c) = true \/ (exists f, f ∈ pendingFunctors_ (loop c) /\ EarlyQueues f ∉ tr) ->
  woken c /\
  exists c', steps wakeupChannel c (woken_iteration (owed c) (length (pendingFunctors_ (loop c)))) =
    Some (Ok (c', pendingFunctors_ (loop c))) /\ pc c' = Checking /\ pendingFunctors_ (loop c') = [].
Proof.
  intros Hs Hpc Hp. set (E f := EarlyQueues f ∈ tr).
  assert (Htr : Forall (early_ok E) tr).
  { apply Forall_forall. intros l Hl. by destruct l. }
  pose proof (steps_inv E _ _ _ (inv_start E) Htr Hs) as Hc. cbn in Hc.
  assert (Hw : woken c).
  { pose proof (inv_phase E c Hc) as Hph. unfold phase_ok in Hph. rewrite Hpc in Hph. apply Hph.
    destruct Hp as [Hp|(f & Hf & Hn)]; [by right|]. left. unfold waiting. rewrite Forall_forall. intros Hall.
    by apply Hn, Hall. }
  split; [done|]. eapply woken_iteration_calls; try done.
  apply (steps_wakeup _ _ _ _ (elem_of_singleton_2 _ _ eq_refl) Hs).
Qed.

(** The loop never handles events of a channel that was removed: in every
    run the only way to end the process is the assertion of [removeChannel],
    when a handler removes another channel that has an event in the same
    round. *)
Theorem no_removed_channel tr r :
  steps wakeupChannel start tr = Some r -> r <> Crash DeadObject.
Proof.
  intros Hs ->. assert (Htr : Forall (early_ok (fun _ : F => True)) tr).
  { apply Forall_forall. intros l _. by destruct l. }
  pose proof (steps_inv _ _ _ _ (inv_start _) Htr Hs). done.
Qed.

(** A functor queued by the loop's own thread before [loop] writes no wakeup:
    [poll] waits for its timeout of [kPollTimeMs] before it is called. *)
Lemma early_functor_waits f : exists c,
  steps wakeupChannel start [EarlyQueues f; StartLoop; CheckQuit] = Some (Ok (c, [])) /\
  pendingFunctors_ (loop c) = [f] /\ owed c = O /\ poll_answer wakeupChannel c [] = true.
Proof. eexists. split; [vm_compute; reflexivity|]. done. Qed.

(** A [quit] by another thread before [loop] is forgotten. *)
Lemma early_quit_lost : exists c,
  steps wakeupChannel start [OtherQuits; OtherWakes; StartLoop; CheckQuit] = Some (Ok (c, [])) /\
  pc c = Polling /\ quit_ (loop c) = false.
Proof. eexists. split; [vm_compute; reflexivity|]. done. Qed.
End theorems.

(** Another thread queues two functors; a handler queues one more. *)
Definition demo_run : list (label Z) :=
  [StartLoop; CheckQuit; OtherQueues 1; OtherWakes; PollReturns [7]; OtherQueues 2; HandleNext; LoopAdds 8;
   LoopQueues 3; EndHandling; SwapFunctors; CallNext; LoopQueues 4; CallNext; CallNext; EndFunctors; CheckQuit].

Lemma functors_in_order_witness : exists c,
  steps 7 (start 7) demo_run = Some (Ok (c, [1; 2; 3])) /\ [1; 2; 3; 4] = [1; 2; 3] ++ todo_functors c.
Proof.
  eexists. split; [vm_compute; reflexivity|].
  apply (functors_in_order 7 demo_run). vm_compute. reflexivity.
Defined.

Lemma loop_wakes_up_witness : exists c,
  steps 7 (start 7) demo_run = Some (Ok (c, [1; 2; 3])) /\ woken c /\
  exists c', steps 7 c (woken_iteration 7 1 1) = Some (Ok (c', [4])).
Proof.
  set (r := steps 7 (start 7) demo_run). assert (Hr : r = steps 7 (start 7) demo_run) by done.
  vm_compute in r. subst r. eexists. split; [exact (eq_sym Hr)|].
  destruct (loop_wakes_up 7 demo_run _ _ (eq_sym Hr)) as (Hw & c' & Hc & _);
    [done | right; exists 4; split; [left|]|].
  { unfold demo_run. rewrite !not_elem_of_cons. split_and!; try discriminate. apply not_elem_of_nil. }
  split; [exact Hw|]. exists c'. exact Hc.
Defined.

Lemma no_removed_channel_witness :
  steps 7 (start 7) (demo_run ++ [PollReturns [8; 7]; HandleNext; LoopRemoves 8; HandleNext; LoopAdds 8]) <> Some (Crash DeadObject) /\
  steps 7 (start 7) (demo_run ++ [PollReturns [7; 8]; HandleNext; LoopRemoves 8]) = Some (Crash AssertFailed).
Proof.
  split; [|by vm_compute]. intros H. revert H. set (tr := demo_run ++ _). intros H.
  exact (no_removed_channel 7 tr _ H eq_refl).
Defined.
