(* ===== verification/TimerQueue.v ===== *)
(** * Timers

    [muduo/net/Timer.h], [Timer.cc], [TimerId.h], [TimerQueue.h],
    [TimerQueue.cc] and the arithmetic of [muduo/base/Timestamp.h].  The timers
    are objects in a heap: [new] is a parameter [alloc] that may reuse the
    address of a deleted timer, and a [TimerId] is an address with a sequence
    number.  The clock is a parameter, too: [clock n] is what the [n]-th call
    of [gettimeofday] reports, and it may jump.  A user's callback is the list
    of the calls it makes on the queue. *)

From Stdlib Require Import SpecFloat.
From stdpp Require Import fin_sets.
From S2P Require Import Prelude Effects EventLoop.

Open Scope Z_scope.
Open Scope handler_scope.

(** ** Time *)

(** Signed 64-bit arithmetic that must not overflow. *)
Definition chk64 (z : Z) : outcome Z :=
  if (-9223372036854775808 <=? z) && (z <? 9223372036854775808) then Ok z else Crash SignedOverflow.

(** A C++ [double]. *)
Abbreviation double := spec_float.
Definition dmul (a b : double) : double := SFmul 53 1024 a b.
Definition double_of_Z (z : Z) : double := binary_normalize 53 1024 z 0 false.

(** [static_cast<int64_t>(double)] truncates towards zero; a value that does
    not fit is undefined behaviour. *)
Definition int64_of_double (d : double) : outcome Z :=
  match d with
  | S754_zero _ => Ok 0
  | S754_finite s m e =>
      let a := if 0 <=? e then Z.pos m * 2 ^ e else Z.pos m / 2 ^ (- e) in
      chk64 (if s then - a else a)
  | _ => Crash SignedOverflow
  end.

(** A [Timestamp] is its [microSecondsSinceEpoch_]. *)
Definition kMicroSecondsPerSecond : Z := 1000 * 1000.
Definition valid (t : Z) : bool := t >? 0.
Definition invalid : Z := 0.
Definition addTime (timestamp : Z) (seconds : double) : outcome Z :=
  bind (int64_of_double (dmul seconds (double_of_Z kMicroSecondsPerSecond))) (fun delta =>
  chk64 (timestamp + delta)).

(** ** Timers *)

Record Timer := mk_Timer {
  callback_ : Z;            (* which user's function *)
  expiration_ : Z;
  interval_ : double;
  repeat_ : bool;
  sequence_ : Z
}.

Definition eta_Timer (t : Timer) : Timer :=
  mk_Timer (callback_ t) (expiration_ t) (interval_ t) (repeat_ t) (sequence_ t).
#[export] Instance set_expiration_ : Setter expiration_ := ltac:(build_setter eta_Timer expiration_).

Definition new_Timer (cb when : Z) (interval : double) (sequence : Z) : Timer := {|
  callback_ := cb; expiration_ := when; interval_ := interval;
  repeat_ := SFltb (S754_zero false) interval; sequence_ := sequence |}.

Definition restart (now : Z) (t : Timer) : outcome Timer :=
  if repeat_ t then bind (addTime now (interval_ t)) (fun e => Ok (t <| expiration_ := e |>))
  else Ok (t <| expiration_ := invalid |>).

(** ** Ordered sets *)

(** [std::pair]'s [operator<]; a [std::set<Entry>] is the list of its elements
    in order. *)
Definition entry_ltb (a b : Z * Z) : bool := (a.1 <? b.1) || (negb (b.1 <? a.1) && (a.2 <? b.2)).

Fixpoint set_insert (e : Z * Z) (l : list (Z * Z)) : list (Z * Z) * bool :=
  match l with
  | [] => ([e], true)
  | x :: l' =>
      if entry_ltb e x then (e :: l, true)
      else if entry_ltb x e then let '(l', b) := set_insert e l' in (x :: l', b)
      else (l, false)
  end.

Fixpoint set_erase (e : Z * Z) (l : list (Z * Z)) : list (Z * Z) * Z :=
  match l with
  | [] => ([], 0)
  | x :: l' =>
      if entry_ltb x e then let '(l', n) := set_erase e l' in (x :: l', n)
      else if entry_ltb e x then (l, 0) else (l', 1)
  end.

(** The elements before and after [lower_bound]. *)
Fixpoint split_lower_bound (e : Z * Z) (l : list (Z * Z)) : list (Z * Z) * list (Z * Z) :=
  match l with
  | [] => ([], [])
  | x :: l' =>
      if entry_ltb x e then let '(a, b) := split_lower_bound e l' in (x :: a, b) else ([], l)
  end.

(** ** The queue *)

Record TimerQueue := mk_TimerQueue {
  timers_ : list (Z * Z);               (* Entry: expiration, address *)
  activeTimers_ : gset (Z * Z);         (* ActiveTimer: address, sequence *)
  callingExpiredTimers_ : bool;
  cancelingTimers_ : gset (Z * Z)
}.

Definition eta_TimerQueue (q : TimerQueue) : TimerQueue :=
  mk_TimerQueue (timers_ q) (activeTimers_ q) (callingExpiredTimers_ q) (cancelingTimers_ q).
#[export] Instance set_timers_ : Setter timers_ := ltac:(build_setter eta_TimerQueue timers_).
#[export] Instance set_activeTimers_ : Setter activeTimers_ := ltac:(build_setter eta_TimerQueue activeTimers_).
#[export] Instance set_callingExpiredTimers_ : Setter callingExpiredTimers_ :=
  ltac:(build_setter eta_TimerQueue callingExpiredTimers_).
#[export] Instance set_cancelingTimers_ : Setter cancelingTimers_ :=
  ltac:(build_setter eta_TimerQueue cancelingTimers_).

(** The functors the queue gives to its loop. *)
Inductive timer_functor :=
  | AddTimerInLoop (p : Z)
  | CancelInLoop (id : Z * Z).

(** The setting of the timer descriptor: for which expiration, and the seconds
    and nanoseconds from then on. *)
Record alarm := { alarm_for : Z; alarm_in : Z * Z }.

Record world := mk_world {
  heap : gmap Z Timer;
  s_numCreated_ : Z;
  readings : nat;                       (* readings of the clock so far *)
  queue : TimerQueue;
  timerfd : option alarm;
  event_loop : EventLoop timer_functor
}.

Definition eta_world (w : world) : world :=
  mk_world (heap w) (s_numCreated_ w) (readings w) (queue w) (timerfd w) (event_loop w).
#[export] Instance set_heap : Setter heap := ltac:(build_setter eta_world heap).
#[export] Instance set_numCreated : Setter s_numCreated_ := ltac:(build_setter eta_world s_numCreated_).
#[export] Instance set_readings : Setter readings := ltac:(build_setter eta_world readings).
#[export] Instance set_queue : Setter queue := ltac:(build_setter eta_world queue).
#[export] Instance set_timerfd : Setter timerfd := ltac:(build_setter eta_world timerfd).
#[export] Instance set_event_loop : Setter event_loop := ltac:(build_setter eta_world event_loop).

(** A callback runs. *)
Inductive timer_event := Ran (cb : Z) (id : Z * Z).

(** What a user does, in a callback or elsewhere. *)
Inductive timer_call :=
  | AddTimer (cb when : Z) (interval : double)
  | CancelTimer (id : Z * Z).

Abbreviation T := (M world timer_event).

Section timers.
(** [alloc h n] is the address of the [n]-th timer, created when the live timers
    are [h], unless [new] fails. *)
Context (alloc : gmap Z Timer -> Z -> option Z) (clock : nat -> Z).

Definition deref_timer (p : Z) : T Timer :=
  do h <- mget heap;
  match h !! p with Some t => mret t | None => mcrash DeadObject end.

Definition on_queue (f : TimerQueue -> TimerQueue) : T unit := mmod (fun w => w <| queue := f (queue w) |>).

Definition now : T Z :=
  do n <- mget readings;
  do _ <- mmod (fun w => w <| readings := Datatypes.S n |>);
  mret (clock n).

(** ** The timer descriptor *)

Definition howMuchTimeFromNow (when : Z) : T (Z * Z) :=
  do t <- now;
  do microseconds <- lift (chk64 (when - t));
  let microseconds := if microseconds <? 100 then 100 else microseconds in
  mret (Z.quot microseconds kMicroSecondsPerSecond, Z.rem microseconds kMicroSecondsPerSecond * 1000).

Definition resetTimerfd (expiration : Z) : T unit :=
  do newValue <- howMuchTimeFromNow expiration;
  mmod (fun w => w <| timerfd := Some {| alarm_for := expiration; alarm_in := newValue |} |>).

(** [n] is the result of [read]: 8, and the alarm is spent; or -1 if it was
    reset before it could be read. *)
Definition readTimerfd (n : Z) : T unit :=
  if n =? 8 then mmod (fun w => w <| timerfd := None |>) else mret tt.

(** ** Operations *)

Definition assert_sizes : T unit :=
  do q <- mget queue;
  massert (Z.of_nat (length (timers_ q)) =? Z.of_nat (size (activeTimers_ q))).

Definition insert (p : Z) : T bool :=
  do _ <- assert_sizes;
  do t <- deref_timer p;
  let when := expiration_ t in
  do q <- mget queue;
  let earliestChanged := match timers_ q with [] => true | it :: _ => when <? it.1 end in
  let '(l, inserted) := set_insert (when, p) (timers_ q) in
  do _ <- on_queue (fun q => q <| timers_ := l |>);
  do _ <- massert inserted;
  let inserted := negb (bool_decide ((p, sequence_ t) ∈ activeTimers_ q)) in
  do _ <- on_queue (fun q => q <| activeTimers_ := {[(p, sequence_ t)]} ∪ activeTimers_ q |>);
  do _ <- massert inserted;
  do _ <- assert_sizes;
  mret earliestChanged.

Definition addTimerInLoop (p : Z) : T unit :=
  do earliestChanged <- insert p;
  if earliestChanged then
    do t <- deref_timer p;
    resetTimerfd (expiration_ t)
  else mret tt.

Definition cancelInLoop (id : Z * Z) : T unit :=
  do _ <- assert_sizes;
  do q <- mget queue;
  do _ <- (if bool_decide (id ∈ activeTimers_ q) then
             do t <- deref_timer id.1;
             let '(l, n) := set_erase (expiration_ t, id.1) (timers_ q) in
             do _ <- on_queue (fun q => q <| timers_ := l |>);
             do _ <- massert (n =? 1);
             do _ <- mmod (fun w => w <| heap := delete id.1 (heap w) |>);
             on_queue (fun q => q <| activeTimers_ := activeTimers_ q ∖ {[id]} |>)
           else if callingExpiredTimers_ q then
             on_queue (fun q => q <| cancelingTimers_ := {[id]} ∪ cancelingTimers_ q |>)
           else mret tt);
  assert_sizes.

(** A functor of the queue, called by the loop. *)
Definition run_functor (f : timer_functor) : T unit :=
  match f with
  | AddTimerInLoop p => addTimerInLoop p
  | CancelInLoop id => cancelInLoop id
  end.

(** The functors have no observable actions: their computations as functions on
    the state, and back. *)
Definition as_outcome (m : T unit) (w : world) : outcome world :=
  match m w with Ok (_, w', _) => Ok w' | Crash c => Crash c end.
Definition of_outcome (f : world -> outcome world) : T unit := fun w =>
  match f w with Ok w' => Ok (tt, w', []) | Crash c => Crash c end.

Definition call_functor (f : timer_functor) (w : world) : outcome world := as_outcome (run_functor f) w.

Definition run_in_loop (here : bool) (f : timer_functor) : T unit :=
  of_outcome (runInLoop event_loop (fun l w => w <| event_loop := l |>) call_functor here f).

Definition do_pending : T unit :=
  of_outcome (doPendingFunctors event_loop (fun l w => w <| event_loop := l |>) call_functor).

(** [addTimer] up to the [return] statement, whose [timer->sequence()] is the
    second function: on another thread the loop may run in between. *)
Definition addTimer_start (here : bool) (cb when : Z) (interval : double) : T Z :=
  do h <- mget heap;
  do created <- mget s_numCreated_;
  let n := created + 1 in
  do p <- (match alloc h n with Some p => mret p | None => mcrash BadAlloc end);
  do _ <- mmod (fun w => w <| heap := <[p := new_Timer cb when interval n]> (heap w) |> <| s_numCreated_ := n |>);
  do _ <- run_in_loop here (AddTimerInLoop p);
  mret p.

Definition addTimer_return (p : Z) : T (Z * Z) :=
  do t <- deref_timer p;
  mret (p, sequence_ t).

Definition addTimer (here : bool) (cb when : Z) (interval : double) : T (Z * Z) :=
  do p <- addTimer_start here cb when interval;
  addTimer_return p.

Definition cancel (here : bool) (id : Z * Z) : T unit := run_in_loop here (CancelInLoop id).

(** The timers of [EventLoop]. *)
Definition runAt (here : bool) (time cb : Z) : T (Z * Z) := addTimer here cb time (S754_zero false).
Definition runAfter (here : bool) (delay : double) (cb : Z) : T (Z * Z) :=
  do t <- now;
  do time <- lift (addTime t delay);
  runAt here time cb.
Definition runEvery (here : bool) (interval : double) (cb : Z) : T (Z * Z) :=
  do t <- now;
  do time <- lift (addTime t interval);
  addTimer here cb time interval.

(** A call of a user on the loop's thread. *)
Definition user_call (c : timer_call) : T unit :=
  match c with
  | AddTimer cb when interval => do _ <- addTimer true cb when interval; mret tt
  | CancelTimer id => cancel true id
  end.

Definition getExpired (t : Z) : T (list (Z * Z)) :=
  do _ <- assert_sizes;
  do q <- mget queue;
  let sentry := (t, 18446744073709551615) in
  let '(expired, rest) := split_lower_bound sentry (timers_ q) in
  do _ <- massert (match rest with [] => true | it :: _ => t <? it.1 end);
  do _ <- on_queue (fun q => q <| timers_ := rest |>);
  do _ <- for_ expired (fun it =>
    do tm <- deref_timer it.2;
    do q <- mget queue;
    let timer := (it.2, sequence_ tm) in
    let n := if bool_decide (timer ∈ activeTimers_ q) then 1 else 0 in
    do _ <- on_queue (fun q => q <| activeTimers_ := activeTimers_ q ∖ {[timer]} |>);
    massert (n =? 1));
  do _ <- assert_sizes;
  mret expired.

(** The body of the loop of [reset]. *)
Definition reset_one (t : Z) (it : Z * Z) : T unit :=
  do tm <- deref_timer it.2;
  do q <- mget queue;
  if repeat_ tm && negb (bool_decide ((it.2, sequence_ tm) ∈ cancelingTimers_ q)) then
    do tm <- lift (restart t tm);
    do _ <- mmod (fun w => w <| heap := <[it.2 := tm]> (heap w) |>);
    do _ <- insert it.2;
    mret tt
  else mmod (fun w => w <| heap := delete it.2 (heap w) |>).

Definition reset (expired : list (Z * Z)) (t : Z) : T unit :=
  do _ <- for_ expired (reset_one t);
  do q <- mget queue;
  do nextExpire <- (match timers_ q with
                    | [] => mret invalid
                    | it :: _ => do tm <- deref_timer it.2; mret (expiration_ tm)
                    end);
  if valid nextExpire then resetTimerfd nextExpire else mret tt.

(** [acts id] are the calls the callback of the timer [id] makes. *)
Definition run_timer (acts : Z * Z -> list timer_call) (p : Z) : T unit :=
  do tm <- deref_timer p;
  do _ <- emit (Ran (callback_ tm) (p, sequence_ tm));
  for_ (acts (p, sequence_ tm)) user_call.

Definition handleRead (n : Z) (acts : Z * Z -> list timer_call) : T unit :=
  do t <- now;
  do _ <- readTimerfd n;
  do expired <- getExpired t;
  do _ <- on_queue (fun q => q <| callingExpiredTimers_ := true |>);
  do _ <- on_queue (fun q => q <| cancelingTimers_ := ∅ |>);
  do _ <- for_ expired (fun it => run_timer acts it.2);
  do _ <- on_queue (fun q => q <| callingExpiredTimers_ := false |>);
  reset expired t.

(** The destructor deletes the timers of the set. *)
Definition delete_TimerQueue : T unit :=
  do q <- mget queue;
  for_ (timers_ q) (fun it =>
    do _ <- deref_timer it.2;
    mmod (fun w => w <| heap := delete it.2 (heap w) |>)).

(** ** Runs *)

(** [addTimer] on another thread is two operations, the loop may run between
    them: [OpAddStart] up to the [return] statement, [OpAddReturn] the [return]
    statement, with the pointer of the first. *)
Inductive tq_op :=
  | OpAdd (here : bool) (cb when : Z) (interval : double)
  | OpAddStart (cb when : Z) (interval : double)
  | OpAddReturn (p : Z)
  | OpCancel (here : bool) (id : Z * Z)
  | OpPending
  | OpAlarm (n : Z) (acts : Z * Z -> list timer_call).

Definition tq_exec (o : tq_op) : T unit :=
  match o with
  | OpAdd here cb when interval => do _ <- addTimer here cb when interval; mret tt
  | OpAddStart cb when interval => do _ <- addTimer_start false cb when interval; mret tt
  | OpAddReturn p => do _ <- addTimer_return p; mret tt
  | OpCancel here id => cancel here id
  | OpPending => do_pending
  | OpAlarm n acts => handleRead n acts
  end.
End timers.

Definition new_TimerQueue : TimerQueue := {|
  timers_ := []; activeTimers_ := ∅; callingExpiredTimers_ := false; cancelingTimers_ := ∅ |}.

Definition new_world : world := {|
  heap := ∅; s_numCreated_ := 0; readings := 0; queue := new_TimerQueue; timerfd := None;
  event_loop := new_EventLoop |}.
