(* ===== verification/TimerInv.v ===== *)
(** * The timer queue is consistent

    The invariant of the state of [TimerQueue.v], the effect of each operation
    on the timers that are scheduled, and the theorems about whole runs. *)

From Stdlib Require Import SpecFloat.
From stdpp Require Import fin_sets.
From S2P Require Import Prelude Effects EventLoop TimerQueue.

Open Scope Z_scope.
Open Scope handler_scope.

(** ** Ordered sets *)

Definition entry_lt (a b : Z * Z) : Prop := entry_ltb a b = true.
Abbreviation esorted := (StronglySorted entry_lt).

Lemma entry_ltb_spec a b : entry_ltb a b = true <-> a.1 < b.1 \/ a.1 = b.1 /\ a.2 < b.2.
Proof.
  unfold entry_ltb. rewrite orb_true_iff, andb_true_iff, negb_true_iff, !Z.ltb_lt, Z.ltb_ge. lia.
Qed.

Lemma entry_ltb_false a b : entry_ltb a b = false <-> b.1 < a.1 \/ b.1 = a.1 /\ b.2 <= a.2.
Proof. rewrite <-not_true_iff_false, entry_ltb_spec. lia. Qed.

Ltac entries := unfold entry_lt in *; rewrite ?entry_ltb_spec, ?entry_ltb_false in *.

Lemma set_insert_new e l : esorted l -> e ∉ l -> exists l',
  set_insert e l = (l', true) /\ l' ≡ₚ e :: l /\ esorted l'.
Proof.
  induction 1 as [|x l Hl IH Hx]; intros He; cbn.
  - exists [e]. by repeat constructor.
  - destruct (entry_ltb e x) eqn:H1.
    + eexists. split_and!; [done..|]. repeat constructor; try done.
      rewrite Forall_forall in *. intros y Hy. apply Hx in Hy. entries. lia.
    + destruct (entry_ltb x e) eqn:H2.
      * destruct IH as (l' & -> & Hp & Hs); [set_solver|]. eexists. split_and!; [done| |].
        -- by rewrite Hp, Permutation_swap.
        -- constructor; [done|]. rewrite Hp. by constructor.
      * exfalso. apply He. assert (e = x) as ->; [|left]. entries. destruct e, x; cbn in *. f_equal; lia.
Qed.

Lemma set_erase_in e l : esorted l -> e ∈ l -> exists l',
  set_erase e l = (l', 1) /\ l ≡ₚ e :: l' /\ esorted l'.
Proof.
  induction 1 as [|x l Hl IH Hx]; intros He; [by apply elem_of_nil in He|]. cbn.
  rewrite Forall_forall in Hx. apply elem_of_cons in He as [->|He].
  - replace (entry_ltb x x) with false by (symmetry; entries; lia). by exists l.
  - pose proof (Hx e He) as Hlt. unfold entry_lt in Hlt. rewrite Hlt.
    destruct (IH He) as (l' & -> & Hp & Hs). eexists. split_and!; [done| |].
    + by rewrite Hp, Permutation_swap.
    + constructor; [done|]. rewrite Forall_forall. intros y Hy. apply Hx. rewrite Hp. by right.
Qed.

Definition uintptr_max : Z := 18446744073709551615.

Lemma split_lower_bound_spec t l : esorted l -> (forall e, e ∈ l -> e.2 < uintptr_max) -> exists a b,
  split_lower_bound (t, 18446744073709551615) l = (a, b) /\ l = a ++ b /\
  Forall (fun e => e.1 <= t) a /\ Forall (fun e => t < e.1) b.
Proof.
  unfold uintptr_max. induction 1 as [|x l Hl IH Hx]; intros Hr; cbn; [by exists [], []|].
  destruct (entry_ltb x (t, _)) eqn:H1.
  - destruct IH as (a & b & -> & -> & Ha & Hb); [set_solver|]. exists (x :: a), b. split_and!; try done.
    constructor; [|done]. entries. cbn in *. lia.
  - exists [], (x :: l). split_and!; try done. entries. cbn in H1.
    assert (t < x.1) by (specialize (Hr x ltac:(left)); lia).
    constructor; [done|]. rewrite Forall_forall in *. intros y Hy. apply Hx in Hy. entries. lia.
Qed.

Lemma esorted_head e l x : esorted (e :: l) -> x ∈ e :: l -> e.1 <= x.1.
Proof.
  intros [Hf _]%StronglySorted_cons Hx. apply elem_of_cons in Hx as [->|Hx]; [lia|].
  rewrite Forall_forall in Hf. apply Hf in Hx. entries. lia.
Qed.

Lemma esorted_app_inv l1 l2 : esorted (l1 ++ l2) -> esorted l1 /\ esorted l2.
Proof. rewrite StronglySorted_app. naive_solver. Qed.

(** ** The invariant *)

(** Bounds of the times: far beyond any date, and far from overflow. *)
Definition time_ok (z : Z) : Prop := - 2 ^ 61 <= z <= 2 ^ 61.

(** The interval of a repeating timer as a number of microseconds. *)
Definition interval_ok (iv : double) : Prop :=
  SFltb (S754_zero false) iv = true ->
  exists d, int64_of_double (dmul iv (double_of_Z kMicroSecondsPerSecond)) = Ok d /\ 0 <= d <= 2 ^ 61.

Record timer_ok (created : Z) (p : Z) (t : Timer) : Prop := {
  to_address : 0 < p < uintptr_max;
  to_sequence : 0 < sequence_ t <= created;
  to_expiration : - 2 ^ 62 <= expiration_ t <= 2 ^ 62;
  to_repeat : repeat_ t = SFltb (S754_zero false) (interval_ t);
  to_interval : interval_ok (interval_ t)
}.

(** The id of the timer of an entry. *)
Definition id_of (h : gmap Z Timer) (e : Z * Z) : Z * Z := (e.2, from_option sequence_ 0 (h !! e.2)).

Definition alarm_ok (a : alarm) : Prop :=
  0 <= (alarm_in a).1 /\ 0 <= (alarm_in a).2 < 1000000000 /\ (alarm_in a) <> (0, 0).

(** [fl] are the live timers that are not in the set: functors will add them, or
    their callbacks are running. *)
Record tq_inv (fl : list Z) (w : world) : Prop := {
  ti_sorted : esorted (timers_ (queue w));
  ti_nodup : NoDup ((timers_ (queue w)).*2 ++ fl);
  ti_dom : forall p, is_Some (heap w !! p) <-> p ∈ (timers_ (queue w)).*2 ++ fl;
  ti_key : forall e, e ∈ timers_ (queue w) -> exists t, heap w !! e.2 = Some t /\ expiration_ t = e.1;
  ti_active : activeTimers_ (queue w) = list_to_set (id_of (heap w) <$> timers_ (queue w));
  ti_timer : forall p t, heap w !! p = Some t -> timer_ok (s_numCreated_ w) p t;
  ti_created : 0 <= s_numCreated_ w;
  ti_alarm : forall a, timerfd w = Some a -> alarm_ok a
}.

(** The timers a functor will add. *)
Definition adds (l : list timer_functor) : list Z :=
  omap (fun f => match f with AddTimerInLoop p => Some p | _ => None end) l.

(** The timer with this id, if it is scheduled. *)
Definition scheduled (w : world) (id : Z * Z) : option Timer :=
  match heap w !! id.1 with
  | Some t => if (sequence_ t =? id.2) && bool_decide ((expiration_ t, id.1) ∈ timers_ (queue w)) then Some t else None
  | None => None
  end.

(** The alarm is set early enough, unless the first timer expires after [m]. *)
Definition armed (m : Z) (w : world) : Prop :=
  match timers_ (queue w) with
  | [] => True
  | e :: _ => m < e.1 \/ exists a, timerfd w = Some a /\ alarm_for a <= e.1
  end.

Lemma scheduled_spec fl w id t : tq_inv fl w ->
  scheduled w id = Some t <->
  heap w !! id.1 = Some t /\ sequence_ t = id.2 /\ id.1 ∈ (timers_ (queue w)).*2.
Proof.
  intros Hi. unfold scheduled. destruct (heap w !! id.1) as [t'|] eqn:Ht; [|naive_solver].
  destruct ((sequence_ t' =? id.2) && _) eqn:Hb.
  - apply andb_true_iff in Hb as [Hs Hin]. apply bool_decide_eq_true in Hin. apply Z.eqb_eq in Hs.
    split; [intros [= ->]|intros ([= ->] & _); done]. split_and!; [done..|].
    apply list_elem_of_fmap. by exists (expiration_ t, id.1).
  - split; [done|]. intros ([= ->] & Hs & Hin). exfalso.
    apply list_elem_of_fmap in Hin as (e & He & Hin). destruct (ti_key _ _ Hi e Hin) as (t2 & Ht2 & Hex).
    rewrite <-He, Ht in Ht2. injection Ht2 as <-. revert Hb. rewrite Hs, Z.eqb_refl. cbn.
    rewrite bool_decide_false_iff || rewrite bool_decide_eq_false. intros []. rewrite Hex, He. by destruct e.
Qed.

(** An id is active when it is scheduled. *)
Lemma active_spec fl w id : tq_inv fl w -> id ∈ activeTimers_ (queue w) <-> is_Some (scheduled w id).
Proof.
  intros Hi. rewrite (ti_active _ _ Hi), elem_of_list_to_set, list_elem_of_fmap. split.
  - intros (e & -> & He). destruct (ti_key _ _ Hi e He) as (t & Ht & Hex).
    exists t. apply (scheduled_spec fl); [done|]. unfold id_of. cbn. rewrite Ht. cbn. split_and!; [done..|].
    apply list_elem_of_fmap. by exists e.
  - intros (t & (Ht & Hs & Hin)%(scheduled_spec fl)); [|done]. apply list_elem_of_fmap in Hin as (e & He & Hin).
    exists e. split; [|done]. unfold id_of. rewrite <-He, Ht. cbn. rewrite Hs. by destruct id.
Qed.

Lemma inv_sizes fl w : tq_inv fl w -> length (timers_ (queue w)) = size (activeTimers_ (queue w)).
Proof.
  intros Hi. rewrite (ti_active _ _ Hi), size_list_to_set; [by rewrite length_fmap|].
  apply (NoDup_fmap_1 fst). rewrite <-list_fmap_compose.
  replace (fst ∘ id_of (heap w) <$> timers_ (queue w)) with ((timers_ (queue w)).*2) by (by apply list_fmap_ext).
  pose proof (ti_nodup _ _ Hi) as Hn. by apply NoDup_app in Hn as [? _].
Qed.

Lemma inv_perm fl fl' w : fl ≡ₚ fl' -> tq_inv fl w -> tq_inv fl' w.
Proof.
  intros Hp [H1 H2 H3 H4 H5 H6 H7 H8]. constructor; try done.
  - by rewrite <-Hp.
  - intros p. by rewrite <-Hp.
Qed.

Lemma id_of_ext h h' (l : list (Z * Z)) : (forall e, e ∈ l -> h' !! e.2 = h !! e.2) -> (id_of h' <$> l) = (id_of h <$> l).
Proof. intros Hh. apply list_fmap_ext. intros i e He. unfold id_of. rewrite Hh; [done|]. by eapply list_elem_of_lookup_2. Qed.

Lemma armed_spec fl m w : tq_inv fl w ->
  armed m w <-> forall e, e ∈ timers_ (queue w) -> m < e.1 \/ exists a, timerfd w = Some a /\ alarm_for a <= e.1.
Proof.
  intros Hi. pose proof (ti_sorted _ _ Hi) as Hs. unfold armed. destruct (timers_ (queue w)) as [|e l].
  - split; [|done]. intros _ e He. by apply elem_of_nil in He.
  - split.
    + intros Ha x Hx. apply (esorted_head _ _ _ Hs) in Hx.
      destruct Ha as [Ha|(a & Ha & Hle)]; [left; lia | right; exists a; split; [done | lia]].
    + intros Ha. apply Ha. left.
Qed.

(** ** Operations *)

Section ops.
Context (alloc : gmap Z Timer -> Z -> option Z) (clock : nat -> Z).
Hypothesis alloc_ok : forall h n p, alloc h n = Some p -> h !! p = None /\ 0 < p < uintptr_max.
Hypothesis clock_ok : forall n, 0 < clock n <= 2 ^ 61.

Section no_alloc.
Variable C : crash -> Prop.

Lemma wp_deref_timer p w t Q : heap w !! p = Some t -> Q t w [] -> wp C (deref_timer p) w Q.
Proof. intros Ht HQ. unfold deref_timer. wp_steps. rewrite Ht. by wp_steps. Qed.

Lemma wp_assert_sizes fl w Q : tq_inv fl w -> Q tt w [] -> wp C assert_sizes w Q.
Proof.
  intros Hi HQ. unfold assert_sizes. wp_steps. apply wp_assert; [|done].
  rewrite (inv_sizes _ _ Hi). apply Z.eqb_refl.
Qed.

Lemma inv_insert p fl w t l : tq_inv (p :: fl) w -> heap w !! p = Some t ->
  l ≡ₚ (expiration_ t, p) :: timers_ (queue w) -> esorted l ->
  tq_inv fl (w <| queue := queue w <| timers_ := l |>
    <| activeTimers_ := {[(p, sequence_ t)]} ∪ activeTimers_ (queue w) |> |>).
Proof.
  intros [H1 H2 H3 H4 H5 H6 H7 H8] Ht Hl Hs.
  assert (Hp : l.*2 ++ fl ≡ₚ (timers_ (queue w)).*2 ++ p :: fl) by (rewrite Hl; cbn; by rewrite Permutation_middle).
  constructor; cbn; try done.
  - by rewrite Hp.
  - intros q. by rewrite Hp.
  - intros e. rewrite Hl. intros [->|He]%elem_of_cons; [by exists t | auto].
  - rewrite H5, Hl. cbn. f_equal. f_equal. unfold id_of. cbn. by rewrite Ht.
Qed.

Lemma not_scheduled p fl w e : tq_inv (p :: fl) w -> e ∈ timers_ (queue w) -> e.2 <> p.
Proof.
  intros Hi He Heq. subst p. pose proof (ti_nodup _ _ Hi) as Hn. apply NoDup_app in Hn as (_ & Hn & _).
  apply (Hn e.2); [|left]. apply list_elem_of_fmap. by exists e.
Qed.

Lemma wp_insert p fl w t Q : tq_inv (p :: fl) w -> heap w !! p = Some t ->
  (forall (b : bool) l, l ≡ₚ (expiration_ t, p) :: timers_ (queue w) ->
    (if b then forall e, e ∈ timers_ (queue w) -> expiration_ t < e.1
     else exists e, e ∈ timers_ (queue w) /\ e.1 <= expiration_ t) ->
    let w' := w <| queue := queue w <| timers_ := l |>
      <| activeTimers_ := {[(p, sequence_ t)]} ∪ activeTimers_ (queue w) |> |> in
    tq_inv fl w' -> Q b w' []) ->
  wp C (insert p) w Q.
Proof.
  intros Hi Ht HQ. unfold insert. apply wp_then, (wp_assert_sizes _ _ _ Hi).
  apply wp_then, (wp_deref_timer _ _ _ _ Ht). wp_steps.
  destruct (set_insert_new (expiration_ t, p) (timers_ (queue w)) (ti_sorted _ _ Hi)) as (l & Hins & Hl & Hs).
  { intros He. by apply (not_scheduled _ _ _ _ Hi) in He. }
  rewrite Hins. unfold on_queue. wp_steps. apply wp_assert; [done|]. wp_steps. apply wp_assert.
  { rewrite negb_true_iff. apply bool_decide_eq_false. rewrite (ti_active _ _ Hi), elem_of_list_to_set, list_elem_of_fmap.
    intros (e & He & Hin). apply (not_scheduled _ _ _ _ Hi Hin). by injection He. }
  pose proof (inv_insert _ _ _ _ _ Hi Ht Hl Hs) as Hi'.
  wp_steps. apply (wp_assert_sizes fl); [exact Hi'|]. wp_steps. apply (HQ _ l); [done| |done].
  pose proof (ti_sorted _ _ Hi) as Hso. destruct (timers_ (queue w)) as [|e l0].
  - intros e He. by apply elem_of_nil in He.
  - bcase.
    + intros x Hx. apply (esorted_head _ _ _ Hso) in Hx. lia.
    + exists e. split; [left | lia].
Qed.

Lemma wp_resetTimerfd e w Q : - 2 ^ 62 <= e <= 2 ^ 62 ->
  (forall a, alarm_for a = e -> alarm_ok a -> Q tt (w <| readings := S (readings w) |> <| timerfd := Some a |>) []) ->
  wp C (resetTimerfd clock e) w Q.
Proof.
  intros He HQ. unfold resetTimerfd, howMuchTimeFromNow, now. wp_steps.
  pose proof (clock_ok (readings w)) as Hc. apply (wp_lift _ _ _ _ (e - clock (readings w))).
  { unfold chk64. rewrite (proj2 (Z.leb_le _ _)), (proj2 (Z.ltb_lt _ _)) by lia. done. }
  wp_steps. apply HQ; [done|]. unfold alarm_ok, kMicroSecondsPerSecond. cbn.
  set (us := if _ <? 100 then _ else _). assert (Hus : 100 <= us) by (subst us; bcase; lia). clearbody us.
  rewrite Z.quot_div_nonneg, Z.rem_mod_nonneg by lia.
  split_and!; [Z.div_mod_to_equations; lia..|]. intros [= H1 H2]. Z.div_mod_to_equations. lia.
Qed.

Lemma armed_insert p fl fl' w w' t l m : tq_inv (p :: fl) w -> tq_inv fl' w' -> timers_ (queue w') = l ->
  l ≡ₚ (expiration_ t, p) :: timers_ (queue w) -> timerfd w' = timerfd w ->
  (m < expiration_ t \/ exists e, e ∈ timers_ (queue w) /\ e.1 <= expiration_ t) ->
  armed m w -> armed m w'.
Proof.
  intros Hi Hi' Hl Hp Hfd Hcase. rewrite (armed_spec _ _ _ Hi), (armed_spec _ _ _ Hi'), Hl, Hfd.
  intros Ha e. rewrite Hp. intros [->|He]%elem_of_cons; [|auto]. cbn.
  destruct Hcase as [Hm|(x & Hx & Hle)]; [by left|].
  destruct (Ha x Hx) as [Hm|(a & Hfa & Hm)]; [left; lia | right; exists a; split; [done | lia]].
Qed.

Lemma scheduled_insert p fl fl' w w' t id : tq_inv (p :: fl) w -> tq_inv fl' w' -> heap w !! p = Some t ->
  heap w' = heap w -> timers_ (queue w') ≡ₚ (expiration_ t, p) :: timers_ (queue w) ->
  scheduled w' id = if bool_decide (id = (p, sequence_ t)) then Some t else scheduled w id.
Proof.
  intros Hi Hi' Ht Hh Hp. apply option_eq. intros u. rewrite (scheduled_spec _ _ _ _ Hi'), Hh, Hp. cbn.
  case_bool_decide as Hid.
  - subst id. cbn. rewrite Ht. split; [naive_solver|]. intros [= ->]. split_and!; [done..|left].
  - rewrite (scheduled_spec _ _ _ _ Hi). rewrite elem_of_cons. split; [|naive_solver].
    intros (Hu & Hs & [Hq|Hq]); [|done]. exfalso. apply Hid. destruct id as [q s]. cbn in *. subst q.
    rewrite Ht in Hu. injection Hu as ->. by rewrite Hs.
Qed.

(** [addTimerInLoop] moves a timer into the set. *)
Record added (fl : list Z) (p : Z) (t : Timer) (w w' : world) : Prop := {
  ad_inv : tq_inv fl w';
  ad_heap : heap w' = heap w;
  ad_created : s_numCreated_ w' = s_numCreated_ w;
  ad_loop : event_loop w' = event_loop w;
  ad_timers : timers_ (queue w') ≡ₚ (expiration_ t, p) :: timers_ (queue w);
  ad_calling : callingExpiredTimers_ (queue w') = callingExpiredTimers_ (queue w);
  ad_canceling : cancelingTimers_ (queue w') = cancelingTimers_ (queue w);
  ad_armed : forall m, armed m w -> armed m w'
}.

Lemma inv_same fl w w' : tq_inv fl w -> heap w' = heap w -> queue w' = queue w -> s_numCreated_ w' = s_numCreated_ w ->
  (forall a, timerfd w' = Some a -> alarm_ok a) -> tq_inv fl w'.
Proof. intros [H1 H2 H3 H4 H5 H6 H7 H8] Hh Hq Hn Ha. constructor; rewrite ?Hh, ?Hq, ?Hn; done. Qed.

Lemma wp_addTimerInLoop p fl w t Q : tq_inv (p :: fl) w -> heap w !! p = Some t ->
  (forall w', added fl p t w w' -> Q tt w' []) -> wp C (addTimerInLoop clock p) w Q.
Proof.
  intros Hi Ht HQ. unfold addTimerInLoop. apply wp_then, (wp_insert _ _ _ _ _ Hi Ht). intros b l Hl Hb w' Hi'.
  pose proof (ti_timer _ _ Hi _ _ Ht) as Hok. destruct b.
  - apply wp_then, (wp_deref_timer p w' t); [exact Ht|]. apply wp_resetTimerfd; [apply Hok|]. intros a Ha Haok. apply HQ.
    assert (Hi2 : tq_inv fl (w' <| readings := S (readings w') |> <| timerfd := Some a |>)).
    { apply (inv_same _ _ _ Hi'); try done. cbn. by intros ? [= <-]. }
    constructor; try done. intros m _. apply (armed_spec _ _ _ Hi2). cbn. intros e. rewrite Hl.
    intros [->|He]%elem_of_cons; right; exists a; (split; [done|]); cbn; [lia|]. apply Hb in He. lia.
  - apply wp_ret, HQ. constructor; try done. intros m. apply (armed_insert _ _ _ _ _ _ _ _ Hi Hi' eq_refl Hl eq_refl).
    by right.
Qed.

(** ** Cancelling *)

Lemma inv_erase fl w e t l : tq_inv fl w -> timers_ (queue w) ≡ₚ e :: l -> esorted l -> heap w !! e.2 = Some t ->
  tq_inv fl (w <| heap := delete e.2 (heap w) |> <| queue := queue w <| timers_ := l |>
    <| activeTimers_ := activeTimers_ (queue w) ∖ {[(e.2, sequence_ t)]} |> |>).
Proof.
  intros [H1 H2 H3 H4 H5 H6 H7 H8] Hl Hs Ht. rewrite Hl in H2. cbn in H2. apply NoDup_cons in H2 as [Hne H2].
  assert (Hout : forall x, x ∈ l -> x.2 <> e.2).
  { intros x Hx Heq. apply Hne, elem_of_app. left. apply list_elem_of_fmap. by exists x. }
  constructor; cbn; try done.
  - intros p. rewrite lookup_delete_is_Some, H3, Hl. cbn. rewrite elem_of_cons.
    split; [naive_solver|]. intros Hp. split; [by intros <- | by right].
  - intros x Hx. destruct (H4 x) as (u & Hu & Hex); [rewrite Hl; by right|]. exists u.
    rewrite lookup_delete_ne by (symmetry; auto). done.
  - rewrite H5, Hl. cbn. rewrite (id_of_ext (heap w) (delete e.2 (heap w))).
    2: { intros x Hx. by rewrite lookup_delete_ne by (symmetry; auto). }
    unfold id_of at 1. rewrite Ht. cbn. apply set_eq. intros id.
    assert (id ∈ (list_to_set (id_of (heap w) <$> l) : gset (Z * Z)) -> id <> (e.2, sequence_ t)).
    { rewrite elem_of_list_to_set, list_elem_of_fmap. intros (x & -> & Hx) [= Heq _]. by apply (Hout x). }
    rewrite elem_of_difference, elem_of_union, elem_of_singleton. tauto.
  - intros p u [_ Hu]%lookup_delete_Some. auto.
Qed.

(** [cancelInLoop] ends a scheduled timer and remembers the id of another, if
    callbacks are running. *)
Record canceled (fl : list Z) (id : Z * Z) (w w' : world) : Prop := {
  ca_inv : tq_inv fl w';
  ca_loop : event_loop w' = event_loop w;
  ca_created : s_numCreated_ w' = s_numCreated_ w;
  ca_float : forall p, p ∈ fl -> heap w' !! p = heap w !! p;
  ca_sched : forall id', scheduled w' id' = if bool_decide (id' = id) then None else scheduled w id';
  ca_calling : callingExpiredTimers_ (queue w') = callingExpiredTimers_ (queue w);
  ca_canceling : cancelingTimers_ (queue w') =
    if bool_decide (is_Some (scheduled w id)) || negb (callingExpiredTimers_ (queue w)) then cancelingTimers_ (queue w)
    else {[id]} ∪ cancelingTimers_ (queue w);
  ca_armed : forall m, armed m w -> armed m w'
}.

Lemma wp_cancelInLoop id fl w Q : tq_inv fl w ->
  (forall w', canceled fl id w w' -> Q tt w' []) -> wp C (cancelInLoop id) w Q.
Proof.
  intros Hi HQ. unfold cancelInLoop, on_queue. apply wp_then, (wp_assert_sizes _ _ _ Hi). wp_steps.
  rewrite (bool_decide_ext _ _ (active_spec _ _ id Hi)).
  destruct (bool_decide _) eqn:Hb; [apply bool_decide_eq_true in Hb | apply bool_decide_eq_false in Hb].
  - destruct Hb as [t Hsch]. pose proof Hsch as (Ht & Hs & Hin)%(scheduled_spec _ _ _ _ Hi).
    apply list_elem_of_fmap in Hin as (e & He & Hin). destruct (ti_key _ _ Hi e Hin) as (u & Hu & Hex).
    rewrite <-He, Ht in Hu. injection Hu as <-.
    assert (e = (expiration_ t, id.1)) as -> by (destruct e; cbn in *; by subst).
    apply wp_then, (wp_deref_timer _ _ _ _ Ht).
    destruct (set_erase_in _ _ (ti_sorted _ _ Hi) Hin) as (l & Her & Hl & Hso). rewrite Her. wp_steps.
    apply wp_assert; [done|]. wp_steps.
    pose proof (inv_erase _ _ _ _ _ Hi Hl Hso Ht) as Hi'. cbn in Hi'.
    replace (id.1, sequence_ t) with id in Hi' by (rewrite Hs; by destruct id).
    apply (wp_assert_sizes fl); [exact Hi'|]. apply HQ. constructor; try done; cbn.
    + intros p Hp. apply lookup_delete_ne. intros <-.
      pose proof (ti_nodup _ _ Hi) as Hn. apply NoDup_app in Hn as (_ & Hn & _). apply (Hn id.1); [|done].
      apply list_elem_of_fmap. by exists (expiration_ t, id.1).
    + intros id'. apply option_eq. intros u. rewrite (scheduled_spec _ _ _ _ Hi'). cbn.
      rewrite lookup_delete_Some. case_bool_decide as Hid; [naive_solver|]. rewrite (scheduled_spec _ _ _ _ Hi), Hl.
      cbn. rewrite elem_of_cons. split; [naive_solver|]. intros (Hu & Hsu & Hin').
      assert (id.1 <> id'.1). { intros Heq. apply Hid. rewrite <-Heq, Ht in Hu. injection Hu as <-. destruct id, id'; cbn in *. congruence. }
      naive_solver.
    + by rewrite bool_decide_true by eauto.
    + intros m. rewrite (armed_spec _ _ _ Hi), (armed_spec _ _ _ Hi'). cbn. intros Ha x Hx. apply Ha. rewrite Hl. by right.
  - assert (Hsame : forall q, timers_ q = timers_ (queue w) -> activeTimers_ q = activeTimers_ (queue w) ->
      callingExpiredTimers_ q = callingExpiredTimers_ (queue w) ->
      cancelingTimers_ q = (if negb (callingExpiredTimers_ (queue w)) then cancelingTimers_ (queue w)
        else {[id]} ∪ cancelingTimers_ (queue w)) -> canceled fl id w (w <| queue := q |>)).
    { intros q H1 H2 H3 H4.
      assert (Hi' : tq_inv fl (w <| queue := q |>)) by (destruct Hi; constructor; cbn; rewrite ?H1, ?H2; done).
      constructor; try done; cbn.
      - intros id'. unfold scheduled. cbn. rewrite H1. case_bool_decide as Hid; [|done]. subst id'.
        destruct (scheduled w id) eqn:Hsc; [destruct Hb; by eauto|]. exact Hsc.
      - rewrite H4, (bool_decide_false _ Hb). done.
      - intros m. unfold armed. cbn. by rewrite H1. }
    destruct (callingExpiredTimers_ (queue w)) eqn:Hc; wp_steps.
    + assert (Hk : canceled fl id w (w <| queue := queue w <| cancelingTimers_ := {[id]} ∪ cancelingTimers_ (queue w) |> |>)).
      { by apply Hsame. }
      apply (wp_assert_sizes fl); [apply Hk | by apply HQ].
    + assert (Hk : canceled fl id w (w <| queue := queue w |>)) by by apply Hsame.
      replace (w <| queue := queue w |>) with w in Hk by by destruct w.
      apply (wp_assert_sizes fl); [apply Hk | by apply HQ].
Qed.

Lemma wp_run_functor f w (Q : unit -> world -> list timer_event -> Prop) :
  wp C (run_functor clock f) w (fun _ w' _ => Q tt w' []) ->
  wp C (of_outcome (call_functor clock f)) w Q.
Proof. unfold wp, of_outcome, call_functor, as_outcome. by destruct (run_functor clock f w) as [[[[] w'] es]|c]. Qed.
End no_alloc.

(** ** Calls of users *)

(** A call is admissible if its times are sane. *)
Definition call_ok (c : timer_call) : Prop :=
  match c with AddTimer _ when interval => time_ok when /\ interval_ok interval | CancelTimer _ => True end.

Definition may_fail (c : crash) : Prop := c = BadAlloc.

Lemma inv_new fl w p cb when interval : tq_inv fl w -> alloc (heap w) (s_numCreated_ w + 1) = Some p ->
  time_ok when -> interval_ok interval ->
  tq_inv (p :: fl) (w <| heap := <[p := new_Timer cb when interval (s_numCreated_ w + 1)]> (heap w) |>
                      <| s_numCreated_ := s_numCreated_ w + 1 |>).
Proof.
  intros [H1 H2 H3 H4 H5 H6 H7 H8] Ha Hw Hiv. apply alloc_ok in Ha as [Hp Hr].
  assert (Hnot : p ∉ (timers_ (queue w)).*2 ++ fl). { rewrite <-H3, Hp. by intros []. }
  assert (Hne : forall e, e ∈ timers_ (queue w) -> e.2 <> p).
  { intros e He <-. apply Hnot, elem_of_app. left. apply list_elem_of_fmap. by exists e. }
  constructor; cbn; try done.
  - rewrite <-Permutation_middle. by constructor.
  - intros q. rewrite lookup_insert_is_Some', H3, !elem_of_app, elem_of_cons. intuition congruence.
  - intros e He. rewrite lookup_insert_ne by (symmetry; auto). auto.
  - rewrite H5. f_equal. symmetry. apply id_of_ext. intros e He. by rewrite lookup_insert_ne by (symmetry; auto).
  - intros q t. rewrite lookup_insert_Some. unfold time_ok in Hw. intros [[<- <-]|[_ Ht]].
    + constructor; cbn; try done; lia.
    + destruct (H6 q t Ht). constructor; try done; lia.
  - lia.
Qed.

(** What starting a timer on the loop's thread does. *)
Record started (fl : list Z) (id : Z * Z) (t : Timer) (w w' : world) : Prop := {
  st_inv : tq_inv fl w';
  st_loop : event_loop w' = event_loop w;
  st_created : s_numCreated_ w' = s_numCreated_ w + 1;
  st_id : id.2 = s_numCreated_ w';
  st_fresh : heap w !! id.1 = None;
  st_heap : heap w' = <[id.1 := t]> (heap w);
  st_sched : forall id', scheduled w' id' = if bool_decide (id' = id) then Some t else scheduled w id';
  st_calling : callingExpiredTimers_ (queue w') = callingExpiredTimers_ (queue w);
  st_canceling : cancelingTimers_ (queue w') = cancelingTimers_ (queue w);
  st_armed : forall m, armed m w -> armed m w'
}.

Lemma wp_addTimer_here fl cb when interval w Q : tq_inv fl w -> time_ok when -> interval_ok interval ->
  (forall id w', started fl id (new_Timer cb when interval (s_numCreated_ w + 1)) w w' -> Q id w' []) ->
  wp may_fail (addTimer alloc clock true cb when interval) w Q.
Proof.
  intros Hi Hw Hiv HQ. unfold addTimer, addTimer_start. wp_steps.
  destruct (alloc _ _) as [p|] eqn:Ha; [|by apply wp_crash]. wp_steps.
  pose proof (inv_new _ _ _ cb _ _ Hi Ha Hw Hiv) as Hn. pose proof (proj1 (alloc_ok _ _ _ Ha)) as Hfresh.
  cbn in Hn. set (n := s_numCreated_ w + 1) in *. set (t := new_Timer cb when interval n) in *.
  match type of Hn with tq_inv _ ?x => set (w1 := x) in * end.
  assert (Ht : heap w1 !! p = Some t) by apply lookup_insert_eq.
  apply (wp_run_functor _ (AddTimerInLoop p)). apply (wp_addTimerInLoop _ _ _ _ _ _ Hn Ht).
  intros w' [Hi' Hh Hc Hl Htm Hcall Hcan Harm]. wp_steps. unfold addTimer_return.
  apply wp_then, (wp_deref_timer _ _ _ t); [by rewrite Hh|]. wp_steps. apply HQ. constructor; try done.
  - intros id'. rewrite (scheduled_insert p fl fl w1 w' t id' Hn Hi' Ht Hh Htm). case_bool_decide; [done|].
    apply option_eq. intros u. rewrite (scheduled_spec _ _ _ _ Hn), (scheduled_spec _ _ _ _ Hi). subst w1. cbn.
    split; intros (Hu & Hs & Hin); (split; [|done]).
    + rewrite lookup_insert_ne in Hu; [done|]. intros Heq. apply list_elem_of_fmap in Hin as (e & He & Hin).
      apply (not_scheduled _ _ _ _ Hn Hin). congruence.
    + rewrite lookup_insert_ne; [done|]. intros Heq. rewrite <-Heq in Hu. rewrite Hfresh in Hu. done.
Qed.

(** The ids the calls cancel. *)
Definition cancels (cs : list timer_call) : list (Z * Z) :=
  omap (fun c => match c with CancelTimer id => Some id | _ => None end) cs.

Record calls_effect (fl : list Z) (cs : list timer_call) (w w' : world) : Prop := {
  ce_inv : tq_inv fl w';
  ce_loop : event_loop w' = event_loop w;
  ce_created : s_numCreated_ w <= s_numCreated_ w';
  ce_float : forall p, p ∈ fl -> heap w' !! p = heap w !! p;
  ce_sched : forall id, id.2 <= s_numCreated_ w ->
    scheduled w' id = if bool_decide (id ∈ cancels cs) then None else scheduled w id;
  ce_calling : callingExpiredTimers_ (queue w') = callingExpiredTimers_ (queue w);
  ce_canceling : callingExpiredTimers_ (queue w) = true -> forall id, id.1 ∈ fl ->
    id ∈ cancelingTimers_ (queue w') <-> id ∈ cancelingTimers_ (queue w) \/ id ∈ cancels cs;
  ce_armed : forall m, armed m w -> armed m w'
}.

Lemma calls_effect_refl fl w : tq_inv fl w -> calls_effect fl [] w w.
Proof. intros Hi. constructor; try done. intros _ id _. rewrite elem_of_nil. tauto. Qed.

Lemma calls_effect_trans fl cs1 cs2 w1 w2 w3 :
  calls_effect fl cs1 w1 w2 -> calls_effect fl cs2 w2 w3 -> calls_effect fl (cs1 ++ cs2) w1 w3.
Proof.
  intros [A1 A2 A3 A4 A5 A6 A7 A8] [B1 B2 B3 B4 B5 B6 B7 B8].
  assert (Hc : cancels (cs1 ++ cs2) = cancels cs1 ++ cancels cs2) by apply omap_app.
  constructor; try done.
  - by rewrite B2.
  - lia.
  - intros p Hp. by rewrite B4, A4.
  - intros id Hid. rewrite B5, A5, Hc by lia. repeat case_bool_decide; set_solver.
  - by rewrite B6.
  - intros Hcall id Hid. rewrite B7, A7, Hc by (rewrite ?A6; done). set_solver.
  - auto.
Qed.

Lemma floating_not_scheduled fl w id : tq_inv fl w -> id.1 ∈ fl -> scheduled w id = None.
Proof.
  intros Hi Hfl. destruct (scheduled w id) as [t|] eqn:Hs; [|done]. exfalso.
  apply (scheduled_spec _ _ _ _ Hi) in Hs as (_ & _ & Hin). pose proof (ti_nodup _ _ Hi) as Hn.
  apply NoDup_app in Hn as (_ & Hn & _). by apply (Hn id.1).
Qed.

Lemma wp_user_call fl c w (Q : unit -> world -> list timer_event -> Prop) : tq_inv fl w -> call_ok c ->
  (forall w', calls_effect fl [c] w w' -> Q tt w' []) -> wp may_fail (user_call alloc clock c) w Q.
Proof.
  intros Hi Hc HQ. destruct c as [cb when iv|id]; cbn [user_call].
  - apply wp_then. destruct Hc as [Hw Hiv]. apply (wp_addTimer_here fl _ _ _ _ _ Hi Hw Hiv).
    intros id w' [A1 A2 A3 A4 A5 A6 A7 A8 A9 A10]. wp_steps. apply HQ. constructor; try done.
    + lia.
    + intros p Hp. rewrite A6. apply lookup_insert_ne. intros <-.
      assert (is_Some (heap w !! id.1)) as [? ?] by (apply (ti_dom _ _ Hi), elem_of_app; by right). congruence.
    + intros id' Hid. rewrite A7. cbn. rewrite bool_decide_false; [|intros ->; lia].
      by rewrite bool_decide_false by apply not_elem_of_nil.
    + intros _ id' _. rewrite A9. cbn. rewrite elem_of_nil. tauto.
  - apply (wp_run_functor _ (CancelInLoop id)). apply (wp_cancelInLoop _ id fl _ _ Hi).
    intros w' [A1 A2 A3 A4 A5 A6 A7 A8]. apply HQ. constructor; try done.
    + lia.
    + intros id' _. rewrite A5. cbn. apply (f_equal (fun b : bool => if b then _ else _)).
      apply bool_decide_ext. by rewrite list_elem_of_singleton.
    + intros Hcall id' Hid. rewrite A7, Hcall. cbn. rewrite orb_false_r, list_elem_of_singleton.
      case_bool_decide as Hs; [|set_solver]. split; [by left|]. intros [?| ->]; [done|].
      rewrite (floating_not_scheduled _ _ _ Hi Hid) in Hs. by destruct Hs.
Qed.

Lemma wp_user_calls fl cs w (Q : unit -> world -> list timer_event -> Prop) : tq_inv fl w -> Forall call_ok cs ->
  (forall w', calls_effect fl cs w w' -> Q tt w' []) -> wp may_fail (for_ cs (user_call alloc clock)) w Q.
Proof.
  intros Hi Hc. revert w Q Hi. induction Hc as [|c cs Hc Hcs IH]; intros w Q Hi HQ; cbn.
  - apply HQ. by apply calls_effect_refl.
  - apply wp_then, (wp_user_call fl _ _ _ Hi Hc). intros w1 H1. apply (IH w1); [apply H1|].
    intros w2 H2. apply HQ. by apply (calls_effect_trans fl [c] cs w w1 w2).
Qed.

(** ** An alarm *)

Section alarm.
Variable C : crash -> Prop.

Lemma wp_erase_loop a b w (Q : unit -> world -> list timer_event -> Prop) :
  NoDup ((a ++ b).*2) -> (forall e, e ∈ a -> is_Some (heap w !! e.2)) ->
  activeTimers_ (queue w) = list_to_set (id_of (heap w) <$> (a ++ b)) ->
  (forall A, A = list_to_set (id_of (heap w) <$> b) -> Q tt (w <| queue := queue w <| activeTimers_ := A |> |>) []) ->
  wp C (for_ a (fun it =>
    do tm <- deref_timer it.2;
    do q <- mget queue;
    let timer := (it.2, sequence_ tm) in
    let n := if bool_decide (timer ∈ activeTimers_ q) then 1 else 0 in
    do _ <- on_queue (fun q => q <| activeTimers_ := activeTimers_ q ∖ {[timer]} |>);
    massert (n =? 1))) w Q.
Proof.
  revert w Q. induction a as [|e a IH]; intros w Q Hn Hh Ha HQ; cbn [for_].
  - apply wp_ret. replace w with (w <| queue := queue w <| activeTimers_ := activeTimers_ (queue w) |> |>); [|by destruct w as [? ? ? []]].
    by apply HQ.
  - destruct (Hh e ltac:(left)) as [tm Htm]. cbn in Hn. apply NoDup_cons in Hn as [He Hn].
    assert (Hid : id_of (heap w) e = (e.2, sequence_ tm)) by (unfold id_of; by rewrite Htm).
    cbn in Ha. rewrite Hid in Ha.
    assert (Hout : (e.2, sequence_ tm) ∉ (list_to_set (id_of (heap w) <$> (a ++ b)) : gset (Z * Z))).
    { rewrite elem_of_list_to_set, list_elem_of_fmap. intros (x & Hx & Hin). apply He, list_elem_of_fmap.
      exists x. split; [|done]. by injection Hx. }
    apply wp_then, wp_then, (wp_deref_timer _ _ _ _ _ Htm). unfold on_queue. wp_steps. apply wp_assert.
    { rewrite bool_decide_true; [done|]. rewrite Ha. apply elem_of_union_l, elem_of_singleton. done. }
    apply IH; cbn; try done.
    + intros x Hx. apply Hh. by right.
    + rewrite Ha. apply set_eq. intros id. rewrite elem_of_difference, elem_of_union, elem_of_singleton.
      split; [tauto|]. intros Hin. split; [by right|]. by intros ->.
Qed.

Lemma inv_expire fl w a b A : tq_inv fl w -> timers_ (queue w) = a ++ b -> A = list_to_set (id_of (heap w) <$> b) ->
  tq_inv (a.*2 ++ fl) (w <| queue := queue w <| timers_ := b |> <| activeTimers_ := A |> |>).
Proof.
  intros [H1 H2 H3 H4 H5 H6 H7 H8] Hab ->. rewrite Hab in *.
  assert (Hp : (a ++ b).*2 ++ fl ≡ₚ b.*2 ++ a.*2 ++ fl).
  { rewrite fmap_app, <-(assoc_L (++)), Permutation_app_comm, <-(assoc_L (++)). f_equiv. apply Permutation_app_comm. }
  constructor; cbn; try done.
  - by apply esorted_app_inv in H1 as [_ ?].
  - by rewrite <-Hp.
  - intros p. by rewrite <-Hp.
  - intros e He. apply H4, elem_of_app. by right.
Qed.

Lemma wp_getExpired fl w t Q : tq_inv fl w ->
  (forall a b A, timers_ (queue w) = a ++ b -> Forall (fun e => e.1 <= t) a -> Forall (fun e => t < e.1) b ->
    let w' := w <| queue := queue w <| timers_ := b |> <| activeTimers_ := A |> |> in
    tq_inv (a.*2 ++ fl) w' -> Q a w' []) ->
  wp C (getExpired t) w Q.
Proof.
  intros Hi HQ. unfold getExpired, on_queue. apply wp_then, (wp_assert_sizes _ _ _ _ Hi). wp_steps.
  destruct (split_lower_bound_spec t (timers_ (queue w))) as (a & b & -> & Hab & Ha & Hb).
  { apply Hi. }
  { intros e He. destruct (ti_key _ _ Hi e He) as (u & Hu & _). apply (ti_timer _ _ Hi _ _ Hu). }
  wp_steps. apply wp_assert. { destruct Hb as [|e b He]; [done|]. by apply Z.ltb_lt. }
  wp_steps. apply (wp_erase_loop a b); cbn.
  - rewrite <-Hab. pose proof (ti_nodup _ _ Hi) as Hn. by apply NoDup_app in Hn as [? _].
  - intros e He. destruct (ti_key _ _ Hi e) as (u & Hu & _); [rewrite Hab; apply elem_of_app; by left|]. by exists u.
  - rewrite <-Hab. apply Hi.
  - intros A HA. wp_steps. pose proof (inv_expire _ _ _ _ _ Hi Hab HA) as Hi'.
    apply (wp_assert_sizes _ _ _ _ Hi'). wp_steps. by apply (HQ a b A).
Qed.

(** ** Rescheduling *)

Lemma inv_delete p fl w : tq_inv (p :: fl) w -> tq_inv fl (w <| heap := delete p (heap w) |>).
Proof.
  intros Hi. pose proof (fun e => not_scheduled p fl w e Hi) as Hne. destruct Hi as [H1 H2 H3 H4 H5 H6 H7 H8].
  rewrite <-Permutation_middle in H2. apply NoDup_cons in H2 as [Hp H2].
  constructor; cbn; try done.
  - intros q. rewrite lookup_delete_is_Some, H3, !elem_of_app, elem_of_cons.
    rewrite elem_of_app in Hp. split; [naive_solver|]. intros Hq. split; [|tauto]. by intros <-.
  - intros e He. rewrite lookup_delete_ne by (symmetry; auto). auto.
  - rewrite H5. f_equal. symmetry. apply id_of_ext. intros e He. by rewrite lookup_delete_ne by (symmetry; auto).
  - intros q u [_ Hu]%lookup_delete_Some. auto.
Qed.

Lemma inv_restart p fl w tm e : tq_inv (p :: fl) w -> heap w !! p = Some tm -> - 2 ^ 62 <= e <= 2 ^ 62 ->
  tq_inv (p :: fl) (w <| heap := <[p := tm <| expiration_ := e |>]> (heap w) |>).
Proof.
  intros Hi Ht He. pose proof (fun e => not_scheduled p fl w e Hi) as Hne. destruct Hi as [H1 H2 H3 H4 H5 H6 H7 H8].
  constructor; cbn; try done.
  - intros q. rewrite lookup_insert_is_Some', <-H3. split; [intros [<-|?]|]; eauto.
  - intros x Hx. rewrite lookup_insert_ne by (symmetry; auto). auto.
  - rewrite H5. f_equal. symmetry. apply id_of_ext. intros x Hx. by rewrite lookup_insert_ne by (symmetry; auto).
  - intros q u. rewrite lookup_insert_Some. intros [[<- <-]|[_ Hu]]; [|auto]. by destruct (H6 _ _ Ht).
Qed.

(** What [reset] leaves of an expired timer. *)
Definition rescheduled (w : world) (t : Z) (id : Z * Z) : option Timer :=
  match heap w !! id.1 with
  | Some tm =>
      if (sequence_ tm =? id.2) && repeat_ tm && negb (bool_decide (id ∈ cancelingTimers_ (queue w)))
      then match restart t tm with Ok tm' => Some tm' | Crash _ => None end
      else None
  | None => None
  end.

Lemma restart_repeats fl w p tm t : tq_inv fl w -> heap w !! p = Some tm -> repeat_ tm = true -> 0 < t <= 2 ^ 61 ->
  exists e, restart t tm = Ok (tm <| expiration_ := e |>) /\ 0 < e <= 2 ^ 62.
Proof.
  intros Hi Ht Hr Hlt. destruct (ti_timer _ _ Hi _ _ Ht) as [_ _ _ Hrep Hiv].
  destruct Hiv as (d & Hd & Hr2); [by rewrite <-Hrep|]. unfold restart, addTime. rewrite Hr, Hd. cbn.
  unfold chk64. rewrite (proj2 (Z.leb_le _ _)), (proj2 (Z.ltb_lt _ _)) by lia. cbn. exists (t + d). split; [done | lia].
Qed.
End alarm.
End ops.
