(* ===== verification/TimerRuns.v ===== *)
(** * What the timer queue does

    The effect of an alarm on the schedule, and runs of the queue under any calls
    of users, on the loop's thread and on others. *)

From Stdlib Require Import SpecFloat.
From stdpp Require Import fin_sets.
From S2P Require Import Prelude Effects EventLoop TimerQueue TimerInv.

Open Scope Z_scope.
Open Scope handler_scope.

Section runs.
Context (alloc : gmap Z Timer -> Z -> option Z) (clock : nat -> Z).
Hypothesis alloc_ok : forall h n p, alloc h n = Some p -> h !! p = None /\ 0 < p < uintptr_max.
Hypothesis clock_ok : forall n, 0 < clock n <= 2 ^ 61.

(** ** Running the callbacks *)

(** The observable run of the timer of an entry. *)
Definition ran (h : gmap Z Timer) (e : Z * Z) : timer_event :=
  Ran (from_option callback_ 0 (h !! e.2)) (id_of h e).

Definition calls_of (acts : Z * Z -> list timer_call) (h : gmap Z Timer) (l : list (Z * Z)) : list timer_call :=
  concat (map (fun e => acts (id_of h e)) l).

Lemma id_of_same h h' e : h' !! e.2 = h !! e.2 -> id_of h' e = id_of h e.
Proof. unfold id_of. by intros ->. Qed.

Lemma wp_run_timers fl acts l w (Q : unit -> world -> list timer_event -> Prop) :
  tq_inv fl w -> (forall id, Forall call_ok (acts id)) -> Forall (fun e => e.2 ∈ fl) l ->
  (forall w', calls_effect fl (calls_of acts (heap w) l) w w' -> Q tt w' (ran (heap w) <$> l)) ->
  wp may_fail (for_ l (fun it => run_timer alloc clock acts it.2)) w Q.
Proof.
  intros Hi Hacts Hl. revert w Q Hi. induction Hl as [|e l He Hl IH]; intros w Q Hi HQ; cbn [for_].
  - apply wp_ret. apply HQ. by apply calls_effect_refl.
  - assert (is_Some (heap w !! e.2)) as [tm Htm] by (apply (ti_dom _ _ Hi), elem_of_app; by right).
    assert (Hid : (e.2, sequence_ tm) = id_of (heap w) e) by (unfold id_of; by rewrite Htm).
    apply wp_then. unfold run_timer. apply wp_then, (wp_deref_timer _ _ _ _ _ Htm). wp_steps.
    apply (wp_user_calls alloc clock alloc_ok clock_ok fl _ _ _ Hi (Hacts _)). intros w1 H1.
    apply (IH w1); [apply H1|]. intros w2 H2. cbn [app].
    assert (Hsame : forall x, x ∈ l -> heap w1 !! x.2 = heap w !! x.2).
    { intros x Hx. apply H1. rewrite Forall_forall in Hl. auto. }
    replace (ran (heap w1) <$> l) with (ran (heap w) <$> l) in *.
    2: { apply list_fmap_ext. intros i x Hx. apply list_elem_of_lookup_2 in Hx. unfold ran, id_of. by rewrite (Hsame x Hx). }
    rewrite Hid in *. specialize (HQ w2). cbn in HQ.
    replace (ran (heap w) e) with (Ran (callback_ tm) (id_of (heap w) e)) in HQ by (unfold ran; by rewrite Htm).
    apply HQ. apply (calls_effect_trans alloc clock alloc_ok clock_ok fl _ (calls_of acts (heap w) l) w w1 w2); [exact H1|].
    replace (calls_of acts (heap w) l) with (calls_of acts (heap w1) l); [exact H2|].
    unfold calls_of. f_equal. apply map_ext_in. intros x Hx. f_equal. apply id_of_same, Hsame. by apply list_elem_of_In.
Qed.

(** ** Rescheduling *)

(** What the loop of [reset] does with the expired timers [l]. *)
Record resets (fl : list Z) (l : list (Z * Z)) (t : Z) (w w' : world) : Prop := {
  rs_inv : tq_inv fl w';
  rs_loop : event_loop w' = event_loop w;
  rs_created : s_numCreated_ w' = s_numCreated_ w;
  rs_canceling : cancelingTimers_ (queue w') = cancelingTimers_ (queue w);
  rs_float : forall p, p ∈ fl -> heap w' !! p = heap w !! p;
  rs_sched : forall id, scheduled w' id =
    if bool_decide (id ∈ id_of (heap w) <$> l) then rescheduled w t id else scheduled w id;
  rs_armed : armed 0 w -> armed 0 w'
}.

Lemma floating_ne p fl w q : tq_inv (p :: fl) w -> q ∈ fl -> q <> p.
Proof.
  intros Hi Hq ->. pose proof (ti_nodup _ _ Hi) as Hn. apply NoDup_app in Hn as (_ & _ & Hn).
  apply NoDup_cons in Hn as [Hn _]. done.
Qed.

Lemma singleton_id w e tm id : heap w !! e.2 = Some tm ->
  bool_decide (id ∈ id_of (heap w) <$> [e]) = bool_decide (id = (e.2, sequence_ tm)).
Proof. intros Ht. apply bool_decide_ext. cbn. unfold id_of. rewrite Ht. cbn. by rewrite list_elem_of_singleton. Qed.

Lemma resets_keep fl e t w tm ex w1 w2 : tq_inv (e.2 :: fl) w -> heap w !! e.2 = Some tm -> 0 < ex ->
  repeat_ tm = true -> (e.2, sequence_ tm) ∉ cancelingTimers_ (queue w) ->
  restart t tm = Ok (tm <| expiration_ := ex |>) ->
  w1 = w <| heap := <[e.2 := tm <| expiration_ := ex |>]> (heap w) |> -> tq_inv (e.2 :: fl) w1 ->
  tq_inv fl w2 -> event_loop w2 = event_loop w -> s_numCreated_ w2 = s_numCreated_ w ->
  cancelingTimers_ (queue w2) = cancelingTimers_ (queue w) -> heap w2 = heap w1 -> timerfd w2 = timerfd w ->
  timers_ (queue w2) ≡ₚ (ex, e.2) :: timers_ (queue w) -> resets fl [e] t w w2.
Proof.
  intros Hi Ht Hex Hr Hc Hrs -> Hi1 Hi2 Hl Hn Hca Hh Hfd Htm.
  constructor; try done.
  - intros p Hp. rewrite Hh. cbn. apply lookup_insert_ne. intros Heq. by apply (floating_ne _ _ _ _ Hi Hp).
  - intros id. rewrite (singleton_id _ _ _ _ Ht).
    rewrite (scheduled_insert alloc clock alloc_ok clock_ok _ _ _ _ _ _ id Hi1 Hi2 (lookup_insert_eq _ _ _) Hh Htm).
    case_bool_decide as Hid; [rewrite bool_decide_true by done | rewrite bool_decide_false by done].
    + subst id. unfold rescheduled. cbn. rewrite Ht, Hr, Z.eqb_refl, (bool_decide_false _ Hc). cbn. by rewrite Hrs.
    + apply option_eq. intros u. rewrite (scheduled_spec _ _ _ _ Hi), (scheduled_spec _ _ _ _ Hi1). cbn.
      assert (Hne : id.1 ∈ (timers_ (queue w)).*2 -> e.2 <> id.1).
      { intros (x & Hx & Hin)%list_elem_of_fmap. rewrite Hx. intros Heq. by apply (not_scheduled _ _ _ _ Hi Hin). }
      split; intros (Hu & Hs & Hin); (split; [|done]); specialize (Hne Hin).
      * by rewrite lookup_insert_ne in Hu.
      * by rewrite lookup_insert_ne.
  - intros Ha. apply (armed_spec _ _ _ Hi2). intros x. rewrite Htm, Hfd. intros [->|Hx]%elem_of_cons; [by left|].
    by apply (armed_spec _ _ _ Hi).
Qed.

Lemma resets_drop fl e t w tm : tq_inv (e.2 :: fl) w -> heap w !! e.2 = Some tm ->
  repeat_ tm && negb (bool_decide ((e.2, sequence_ tm) ∈ cancelingTimers_ (queue w))) = false ->
  resets fl [e] t w (w <| heap := delete e.2 (heap w) |>).
Proof.
  intros Hi Ht Hb. pose proof (inv_delete alloc clock alloc_ok clock_ok _ _ _ Hi) as Hi2. constructor; try done.
  - intros p Hp. apply lookup_delete_ne. intros Heq. by apply (floating_ne _ _ _ _ Hi Hp).
  - intros id. rewrite (singleton_id _ _ _ _ Ht).
    destruct (decide (id = (e.2, sequence_ tm))) as [Hid|Hid];
      [rewrite bool_decide_true by done | rewrite bool_decide_false by done].
    + subst id. unfold rescheduled. cbn. rewrite Ht, Z.eqb_refl. cbn. rewrite Hb.
      unfold scheduled. cbn. by rewrite lookup_delete_eq.
    + unfold scheduled. cbn. destruct (decide (e.2 = id.1)) as [Heq|Hne]; [|by rewrite lookup_delete_ne].
      rewrite <-Heq, lookup_delete_eq, Ht. destruct (sequence_ tm =? id.2) eqn:Hs; [|done].
      exfalso. apply Hid. apply Z.eqb_eq in Hs. rewrite Heq, Hs. by destruct id.
Qed.

Lemma wp_reset_one fl e w tm t (Q : unit -> world -> list timer_event -> Prop) C :
  tq_inv (e.2 :: fl) w -> heap w !! e.2 = Some tm -> 0 < t <= 2 ^ 61 ->
  (forall w', resets fl [e] t w w' -> Q tt w' []) -> wp C (reset_one t e) w Q.
Proof.
  intros Hi Ht Hlt HQ. unfold reset_one. apply wp_then, (wp_deref_timer _ _ _ _ _ Ht). wp_steps.
  destruct (repeat_ tm && _) eqn:Hb.
  - apply andb_true_iff in Hb as [Hr Hc]. rewrite negb_true_iff in Hc. apply bool_decide_eq_false in Hc.
    destruct (restart_repeats _ _ _ _ _ Hi Ht Hr Hlt) as (ex & Hrs & Hex).
    apply wp_then, (wp_lift _ _ _ _ _ Hrs). wp_steps.
    pose proof (inv_restart _ _ _ _ ex Hi Ht ltac:(lia)) as Hi1.
    apply (wp_insert _ _ _ _ _ _ Hi1 (lookup_insert_eq _ _ _)). intros b l Hl _ w2 Hi2. wp_steps. apply HQ.
    by apply (resets_keep fl e t w tm ex _ w2 Hi Ht ltac:(lia) Hr Hc Hrs eq_refl Hi1 Hi2).
  - wp_steps. apply HQ. by apply (resets_drop _ _ _ _ tm).
Qed.

Lemma resets_trans fl e l t w w1 w2 : NoDup ((e :: l).*2) ->
  resets (l.*2 ++ fl) [e] t w w1 -> resets fl l t w1 w2 -> resets fl (e :: l) t w w2.
Proof.
  intros Hn [A1 A2 A3 A4 A5 A6 A7] [B1 B2 B3 B4 B5 B6 B7].
  assert (Hh : forall x, x ∈ l -> heap w1 !! x.2 = heap w !! x.2).
  { intros x Hx. apply A5, elem_of_app. left. apply list_elem_of_fmap. by exists x. }
  constructor; try done; try congruence; try tauto.
  - intros p Hp. rewrite B5 by done. apply A5, elem_of_app. by right.
  - intros id. rewrite B6, (id_of_ext (heap w) (heap w1) _ Hh). cbn [fmap list_fmap] in *.
    assert (Hr : id ∈ id_of (heap w) <$> l -> rescheduled w1 t id = rescheduled w t id).
    { intros (x & -> & Hx)%list_elem_of_fmap. unfold rescheduled, id_of. cbn. by rewrite (Hh x Hx), A4. }
    case_bool_decide as H1.
    + rewrite bool_decide_true by (by right). auto.
    + rewrite A6, (bool_decide_ext (id ∈ id_of (heap w) e :: (id_of (heap w) <$> l)) (id ∈ [id_of (heap w) e])); [done|].
      rewrite list_elem_of_singleton, elem_of_cons. tauto.
Qed.

Lemma wp_reset_loop C fl l w t (Q : unit -> world -> list timer_event -> Prop) : tq_inv (l.*2 ++ fl) w -> 0 < t <= 2 ^ 61 ->
  (forall w', resets fl l t w w' -> Q tt w' []) -> wp C (for_ l (reset_one t)) w Q.
Proof.
  intros Hi Ht. revert w Q Hi. induction l as [|e l IH]; intros w Q Hi HQ; cbn [for_].
  - apply wp_ret, HQ. by constructor.
  - assert (is_Some (heap w !! e.2)) as [tm Htm]. { apply (ti_dom _ _ Hi). cbn. apply elem_of_app. right. left. }
    apply wp_then, (wp_reset_one _ _ _ _ _ _ _ Hi Htm Ht). intros w1 H1. apply (IH w1 _ (rs_inv _ _ _ _ _ H1)).
    intros w2 H2. apply HQ, (resets_trans _ _ _ _ _ w1); try done.
    pose proof (ti_nodup _ _ Hi) as Hn. apply NoDup_app in Hn as (_ & _ & Hn). by apply (NoDup_app ((e :: l).*2) fl) in Hn as [? _].
Qed.

(** ** An alarm *)

Lemma inv_flags fl w b D : tq_inv fl w ->
  tq_inv fl (w <| queue := queue w <| callingExpiredTimers_ := b |> <| cancelingTimers_ := D |> |>).
Proof. by intros []. Qed.

(** The timers of the set that are due at [t], in order. *)
Definition due_at (t : Z) (w : world) (due : list (Z * Z)) : Prop :=
  esorted due /\ forall e, e ∈ due <-> e ∈ timers_ (queue w) /\ e.1 <= t.

(** What becomes of a timer when callbacks have made the calls [cs]. *)
Definition after_alarm (w : world) (t : Z) (cs : list timer_call) (id : Z * Z) : option Timer :=
  match scheduled w id with
  | Some tm =>
      if bool_decide (id ∈ cancels cs) then None
      else if expiration_ tm <=? t then
        if repeat_ tm then match restart t tm with Ok tm' => Some tm' | Crash _ => None end else None
      else Some tm
  | None => None
  end.

Record alarmed (fl : list Z) (acts : Z * Z -> list timer_call) (t : Z) (w w' : world) (es : list timer_event) : Prop := {
  al_inv : tq_inv fl w';
  al_loop : event_loop w' = event_loop w;
  al_armed : forall m, armed m w';
  al_ran : exists due, due_at t w due /\ es = ran (heap w) <$> due /\
    forall id, id.2 <= s_numCreated_ w -> scheduled w' id = after_alarm w t (calls_of acts (heap w) due) id
}.

Lemma due_app t w a b : timers_ (queue w) = a ++ b -> esorted (timers_ (queue w)) ->
  Forall (fun e => e.1 <= t) a -> Forall (fun e => t < e.1) b -> due_at t w a.
Proof.
  intros Hab Hs Ha Hb. rewrite Forall_forall in Ha, Hb. split; [rewrite Hab in Hs; by apply esorted_app_inv in Hs as [? _]|].
  intros e. rewrite Hab, elem_of_app. split; [auto|]. intros [[?|He] Hle]; [done|]. apply Hb in He. lia.
Qed.

Lemma due_scheduled fl t w a id tm : tq_inv fl w -> due_at t w a -> scheduled w id = Some tm ->
  id ∈ id_of (heap w) <$> a <-> expiration_ tm <= t.
Proof.
  intros Hi [_ Ha] (Ht & Hs & Hin)%(scheduled_spec _ _ _ _ Hi). apply list_elem_of_fmap in Hin as (e & He & Hin).
  destruct (ti_key _ _ Hi e Hin) as (u & Hu & Hex). rewrite <-He, Ht in Hu. injection Hu as <-. rewrite Hex.
  rewrite list_elem_of_fmap. split.
  - intros (x & Hx & Hxa). apply Ha in Hxa as [Hxt Hle]. destruct (ti_key _ _ Hi x Hxt) as (u & Hu & Hxe).
    subst id. cbn in Ht. rewrite Ht in Hu. injection Hu as <-. lia.
  - intros Hle. exists e. split; [|by apply Ha]. unfold id_of. rewrite <-He, Ht. cbn. rewrite Hs. by destruct id.
Qed.

Lemma due_is_scheduled fl t w a id : tq_inv fl w -> due_at t w a -> id ∈ id_of (heap w) <$> a ->
  exists tm, scheduled w id = Some tm /\ heap w !! id.1 = Some tm /\ sequence_ tm = id.2.
Proof.
  intros Hi [_ Ha] (e & -> & He)%list_elem_of_fmap. apply Ha in He as [He _].
  destruct (ti_key _ _ Hi e He) as (tm & Ht & _). exists tm.
  assert (scheduled w (id_of (heap w) e) = Some tm).
  { apply (scheduled_spec _ _ _ _ Hi). unfold id_of. cbn. rewrite Ht. split_and!; [done..|].
    apply list_elem_of_fmap. by exists e. }
  unfold id_of in *. cbn in *. by rewrite Ht in *.
Qed.

Lemma scheduled_rest fl fl' w w' a b id : tq_inv fl w -> tq_inv fl' w' -> heap w' = heap w ->
  timers_ (queue w) = a ++ b -> timers_ (queue w') = b -> id ∉ id_of (heap w) <$> a ->
  scheduled w' id = scheduled w id.
Proof.
  intros Hi Hi' Hh Hab Hb Hid. apply option_eq. intros tm.
  rewrite (scheduled_spec _ _ _ _ Hi), (scheduled_spec _ _ _ _ Hi'), Hh, Hb, Hab, fmap_app, elem_of_app.
  split; [naive_solver|]. intros (Ht & Hs & [Hin|Hin]); [|done]. exfalso. apply Hid.
  apply list_elem_of_fmap in Hin as (e & He & Hin). apply list_elem_of_fmap. exists e. split; [|done].
  unfold id_of. rewrite <-He, Ht. cbn. rewrite Hs. by destruct id.
Qed.

(** The schedule once the callbacks have run and [reset] has gone through the
    expired timers. *)
Lemma alarm_schedule fl t w a b w3 w4 w5 w6 acts id : tq_inv fl w -> due_at t w a -> timers_ (queue w) = a ++ b ->
  tq_inv (a.*2 ++ fl) w3 -> heap w3 = heap w -> timers_ (queue w3) = b -> s_numCreated_ w3 = s_numCreated_ w ->
  callingExpiredTimers_ (queue w3) = true -> cancelingTimers_ (queue w3) = ∅ ->
  calls_effect (a.*2 ++ fl) (calls_of acts (heap w) a) w3 w4 ->
  w5 = w4 <| queue := queue w4 <| callingExpiredTimers_ := false |> |> -> resets fl a t w5 w6 ->
  id.2 <= s_numCreated_ w -> scheduled w6 id = after_alarm w t (calls_of acts (heap w) a) id.
Proof.
  intros Hi Hdue Hab Hi3 Hh3 Hb3 Hn3 Hc3 Hd3 H4 -> H6 Hid. set (cs := calls_of acts (heap w) a) in *.
  assert (Hfl : forall x, x ∈ a -> heap w4 !! x.2 = heap w !! x.2).
  { intros x Hx. rewrite (ce_float _ _ _ _ H4), Hh3; [done|]. apply elem_of_app. left. apply list_elem_of_fmap. by exists x. }
  rewrite (rs_sched _ _ _ _ _ H6). cbn. rewrite (id_of_ext (heap w) (heap w4) _ Hfl). unfold after_alarm.
  case_bool_decide as Ha.
  - destruct (due_is_scheduled _ _ _ _ _ Hi Hdue Ha) as (tm & Hsch & Ht & Hs).
    assert (Hle := proj1 (due_scheduled _ _ _ _ _ _ Hi Hdue Hsch) Ha).
    rewrite Hsch, (proj2 (Z.leb_le _ _) Hle). apply list_elem_of_fmap in Ha as (e & -> & He).
    assert (Hfloat : (id_of (heap w) e).1 ∈ a.*2 ++ fl).
    { apply elem_of_app. left. apply list_elem_of_fmap. by exists e. }
    pose proof (ce_canceling _ _ _ _ H4 Hc3 _ Hfloat) as Hcan. rewrite Hd3 in Hcan.
    unfold rescheduled. cbn [id_of fst queue cancelingTimers_ upd heap] in *.
    change (heap (w4 <| queue := _ |>)) with (heap w4). rewrite (Hfl e He), Ht, Hs, Z.eqb_refl. cbn.
    rewrite (bool_decide_ext (id_of (heap w) e ∈ cancelingTimers_ (queue w4)) (id_of (heap w) e ∈ cancels cs))
      by (rewrite Hcan; set_solver).
    destruct (bool_decide _); [by rewrite andb_false_r|]. rewrite andb_true_r. done.
  - change (scheduled (w4 <| queue := _ |>) id) with (scheduled w4 id).
    rewrite (ce_sched _ _ _ _ H4) by (rewrite Hn3; done). rewrite (scheduled_rest _ _ _ _ _ _ id Hi Hi3 Hh3 Hab Hb3 Ha).
    destruct (scheduled w id) as [tm|] eqn:Hsch; [|by case_bool_decide].
    assert (Hgt : ~ expiration_ tm <= t) by (intros Hle; by apply Ha, (due_scheduled _ _ _ _ _ _ Hi Hdue Hsch)).
    by rewrite (proj2 (Z.leb_gt _ _)) by lia.
Qed.

(** The end of [reset] sets the alarm for the first timer. *)
Lemma wp_rearm C fl w (Q : unit -> world -> list timer_event -> Prop) : tq_inv fl w -> armed 0 w ->
  (forall w', tq_inv fl w' -> event_loop w' = event_loop w -> (forall id, scheduled w' id = scheduled w id) ->
    (forall m, armed m w') -> Q tt w' []) ->
  wp C (do q <- mget queue;
        do nextExpire <- (match timers_ q with
                          | [] => mret invalid
                          | it :: _ => do tm <- deref_timer it.2; mret (expiration_ tm)
                          end);
        if valid nextExpire then resetTimerfd clock nextExpire else mret tt) w Q.
Proof.
  intros Hi Ha HQ. wp_steps. unfold armed in Ha. destruct (timers_ (queue w)) as [|e l] eqn:Htm; wp_steps.
  - apply HQ; try done. intros m. unfold armed. by rewrite Htm.
  - destruct (ti_key _ _ Hi e) as (tm & Ht & Hex); [rewrite Htm; left|].
    apply (wp_deref_timer _ _ _ _ _ Ht). wp_steps. unfold valid. rewrite Hex. bcase.
    + apply (wp_resetTimerfd clock clock_ok).
      { rewrite <-Hex. apply (to_expiration _ _ _ (ti_timer _ _ Hi _ _ Ht)). }
      intros a Hfor Hok. apply HQ; try done.
      * apply (inv_same _ _ _ Hi); try done. cbn. by intros ? [= <-].
      * intros m. unfold armed. cbn. rewrite Htm. right. exists a. split; [done | lia].
    + wp_steps. apply HQ; try done. intros m. unfold armed. rewrite Htm. reflect_bools. right.
      destruct Ha as [Ha|Ha]; [lia | done].
Qed.

Lemma wp_timer_alarm fl n acts w (Q : unit -> world -> list timer_event -> Prop) :
  tq_inv fl w -> (forall id, Forall call_ok (acts id)) ->
  (forall w' es, alarmed fl acts (clock (readings w)) w w' es -> Q tt w' es) ->
  wp may_fail (handleRead alloc clock n acts) w Q.
Proof.
  intros Hi Hacts HQ. pose proof (clock_ok (readings w)) as Ht. set (t := clock (readings w)) in *.
  unfold handleRead, now, on_queue. wp_steps. fold t.
  assert (Hr : forall Q', (forall fd, (forall a, fd = Some a -> alarm_ok a) ->
      Q' tt (w <| readings := S (readings w) |> <| timerfd := fd |>) []) ->
    wp may_fail (readTimerfd n) (w <| readings := S (readings w) |>) Q').
  { intros Q' HQ'. unfold readTimerfd. bcase; wp_steps; [by apply HQ'|]. apply (HQ' (timerfd w)), (ti_alarm _ _ Hi). }
  apply Hr. intros fd Hfd. wp_steps.
  match goal with |- wp _ _ ?x _ => assert (Hi1 : tq_inv fl x) by by apply (inv_same _ _ _ Hi) end.
  apply (wp_getExpired _ _ _ _ _ Hi1). intros a b A Hab Ha Hb w2 Hi2. wp_steps.
  pose proof (due_app _ w _ _ Hab (ti_sorted _ _ Hi) Ha Hb) as Hdue.
  match goal with |- wp _ _ ?x _ => set (w3 := x) end.
  assert (Hi3 : tq_inv (a.*2 ++ fl) w3) by exact (inv_flags _ _ true ∅ Hi2).
  apply (wp_run_timers (a.*2 ++ fl) acts a w3); [done..| |].
  { rewrite Forall_forall. intros e He. apply elem_of_app. left. apply list_elem_of_fmap. by exists e. }
  intros w4 H4. wp_steps. match goal with |- wp _ _ ?x _ => set (w5 := x) end.
  assert (Hi5 : tq_inv (a.*2 ++ fl) w5).
  { exact (inv_flags _ _ false (cancelingTimers_ (queue w4)) (ce_inv _ _ _ _ H4)). }
  unfold reset. apply wp_then, (wp_reset_loop _ fl _ _ _ _ Hi5 Ht). intros w6 H6.
  apply (wp_rearm _ fl _ _ (rs_inv _ _ _ _ _ H6)).
  { apply (rs_armed _ _ _ _ _ H6). apply (ce_armed _ _ _ _ H4 0). unfold armed. cbn.
    destruct Hb as [|e b He]; [done|]. left. lia. }
  intros w7 Hi7 Hl7 Hs7 Ha7. rewrite !app_nil_r. cbn [app]. apply HQ. constructor; try done.
  - by rewrite Hl7, (rs_loop _ _ _ _ _ H6), (ce_loop _ _ _ _ H4 : event_loop w5 = _).
  - exists a. split; [done|]. split; [done|]. intros id Hid. rewrite Hs7.
    by apply (alarm_schedule fl t w a b w3 w4 w5 w6 acts id).
Qed.

(** ** Functors *)

(** Between the operations of the loop's thread. *)
Definition top_inv (w : world) : Prop :=
  tq_inv (adds (pendingFunctors_ (event_loop w))) w /\ forall m, armed m w.

Lemma inv_set_loop fl w l : tq_inv fl w -> tq_inv fl (w <| event_loop := l |>).
Proof. by intros []. Qed.

Lemma call_all_inv fs w : tq_inv (adds fs) w -> (forall m, armed m w) -> exists w',
  call_all (call_functor clock) fs w = Ok w' /\ tq_inv [] w' /\ (forall m, armed m w') /\ event_loop w' = event_loop w.
Proof.
  revert w. induction fs as [|f fs IH]; intros w Hi Ha; [by exists w|].
  assert (Hf : exists w', call_functor clock f w = Ok w' /\ tq_inv (adds fs) w' /\ (forall m, armed m w') /\
    event_loop w' = event_loop w).
  { enough (wp safe (of_outcome (call_functor clock f)) w (fun _ w' _ => tq_inv (adds fs) w' /\ (forall m, armed m w') /\
      event_loop w' = event_loop w)) as Hwp.
    { unfold wp, of_outcome in Hwp. destruct (call_functor clock f w) as [w'|]; [|done]. by exists w'. }
    apply wp_run_functor. destruct f as [p|id]; cbn [run_functor].
    - cbn in Hi. assert (is_Some (heap w !! p)) as [tm Htm].
      { apply (ti_dom _ _ Hi), elem_of_app. right. left. }
      apply (wp_addTimerInLoop clock clock_ok _ _ _ _ _ _ Hi Htm). intros w' H. split_and!; [apply H| |apply H].
      intros m. by apply H.
    - apply (wp_cancelInLoop alloc clock alloc_ok clock_ok _ _ _ _ _ Hi). intros w' H. split_and!; [apply H| |apply H].
      intros m. by apply H. }
  destruct Hf as (w1 & Hw1 & Hi1 & Ha1 & Hl1). destruct (IH w1 Hi1 Ha1) as (w2 & Hw2 & Hi2 & Ha2 & Hl2).
  exists w2. cbn. rewrite Hw1. cbn. rewrite Hw2. split_and!; try done. congruence.
Qed.

Lemma wp_do_pending w (Q : unit -> world -> list timer_event -> Prop) : top_inv w ->
  (forall w', top_inv w' -> Q tt w' []) -> wp may_fail (do_pending clock) w Q.
Proof.
  intros [Hi Ha] HQ. unfold wp, do_pending, of_outcome, doPendingFunctors, swap_functors.
  destruct (call_all_inv (pendingFunctors_ (event_loop w))
    (w <| event_loop := event_loop w <| callingPendingFunctors_ := true |> <| pendingFunctors_ := [] |> |>))
    as (w' & Hw' & Hi' & Ha' & Hl'); [by apply inv_set_loop | done |].
  rewrite Hw'. cbn. apply HQ. split; cbn; [|done]. rewrite Hl'. cbn. by apply inv_set_loop.
Qed.

(** Queueing a functor from another thread. *)
Lemma queued_inv f w : tq_inv (adds (pendingFunctors_ (event_loop w)) ++ adds [f]) w -> (forall m, armed m w) ->
  top_inv (w <| event_loop := queueInLoop false f (event_loop w) |>).
Proof.
  intros Hi Ha. split; [|done]. apply inv_set_loop.
  replace (pendingFunctors_ _) with (pendingFunctors_ (event_loop w) ++ [f]) by (symmetry; apply queueInLoop_pending).
  unfold adds. by rewrite omap_app.
Qed.

Definition op_ok (o : tq_op) : Prop :=
  match o with
  | OpAdd _ _ when interval | OpAddStart _ when interval => time_ok when /\ interval_ok interval
  | OpAlarm _ acts => forall id, Forall call_ok (acts id)
  | _ => True
  end.

Lemma wp_addTimer_start cb when iv w (Q : Z -> world -> list timer_event -> Prop) : top_inv w ->
  time_ok when -> interval_ok iv ->
  (forall p w', top_inv w' -> is_Some (heap w' !! p) -> Q p w' []) ->
  wp may_fail (addTimer_start alloc clock false cb when iv) w Q.
Proof.
  intros [Hi Ha] Hw Hiv HQ. unfold addTimer_start. wp_steps.
  destruct (alloc _ _) as [p|] eqn:Hal; [|by apply wp_crash]. wp_steps.
  pose proof (inv_new alloc alloc_ok _ _ _ cb _ _ Hi Hal Hw Hiv) as Hn. cbn in Hn.
  unfold run_in_loop, wp, of_outcome, runInLoop. apply HQ.
  - apply queued_inv; cbn [event_loop upd]; [|done].
    apply (inv_perm (p :: adds (pendingFunctors_ (event_loop w)))); [|exact Hn]. cbn. by rewrite <-Permutation_cons_append.
  - cbn. rewrite lookup_insert_eq. by eexists.
Qed.

(** The timer of a pending [return] is gone: the loop was faster. *)
Definition overtaken (o : tq_op) (w : world) : Prop :=
  match o with OpAddReturn p => heap w !! p = None | _ => False end.

Definition may_fail_at (o : tq_op) (w : world) (c : crash) : Prop := c = BadAlloc \/ c = DeadObject /\ overtaken o w.

Lemma wp_tq_exec o w (Q : unit -> world -> list timer_event -> Prop) : top_inv w -> op_ok o ->
  (forall w' es, top_inv w' -> Q tt w' es) -> wp (may_fail_at o w) (tq_exec alloc clock o) w Q.
Proof.
  intros [Hi Ha] Ho HQ.
  assert (Hweak : forall m, wp may_fail m w Q -> wp (may_fail_at o w) m w Q).
  { intros m. unfold wp. destruct (m w) as [[[? ?] ?]|c]; [done|]. by left. }
  destruct o as [[] cb when iv|cb when iv|p|[] id| |n acts]; cbn [tq_exec]; [apply Hweak..| |apply Hweak|apply Hweak|apply Hweak|apply Hweak].
  - destruct Ho as [Hw Hiv]. apply wp_then, (wp_addTimer_here alloc clock alloc_ok clock_ok _ _ _ _ _ _ Hi Hw Hiv).
    intros id w' H. wp_steps. apply HQ. split; [|intros m; by apply H]. rewrite (st_loop _ _ _ _ _ H). apply H.
  - destruct Ho as [Hw Hiv]. unfold addTimer. apply wp_then, wp_then, wp_addTimer_start; [by split|done|done|].
    intros p w' Hw' [tm Htm]. unfold addTimer_return. apply wp_then, (wp_deref_timer _ _ _ _ _ Htm). wp_steps. by apply HQ.
  - destruct Ho as [Hw Hiv]. apply wp_then, wp_addTimer_start; [by split|done|done|].
    intros p w' Hw' _. wp_steps. by apply HQ.
  - unfold addTimer_return. destruct (heap w !! p) as [tm|] eqn:Hp.
    + apply wp_then, wp_then, (wp_deref_timer _ _ _ _ _ Hp). wp_steps. apply HQ. by split.
    + unfold deref_timer. wp_steps. rewrite Hp. apply wp_crash. right. by split.
  - apply (wp_run_functor clock _ (CancelInLoop id)), (wp_cancelInLoop alloc clock alloc_ok clock_ok _ _ _ _ _ Hi).
    intros w' H. apply HQ. split; [|intros m; by apply H]. rewrite (ca_loop _ _ _ _ H). apply H.
  - unfold cancel, run_in_loop, wp, of_outcome, runInLoop. apply HQ. apply queued_inv; [|done].
    cbn. by rewrite app_nil_r.
  - apply wp_do_pending; [done|]. intros w' Hw'. by apply HQ.
  - apply (wp_timer_alarm _ _ _ _ _ Hi Ho). intros w' es H. apply HQ. split; [|apply H].
    rewrite (al_loop _ _ _ _ _ _ H). apply H.
Qed.



Lemma top_inv_new : top_inv new_world.
Proof.
  split; [|done]. constructor; cbn; try done; try (by constructor).
  - intros p. rewrite lookup_empty, elem_of_nil. split; [intros []|]; done.
  - by intros e ?%elem_of_nil.
Qed.

(** A run goes through, or stops at an operation that may fail. *)
Lemma run_top_inv os w0 : Forall op_ok os -> top_inv w0 ->
  match for_ os (tq_exec alloc clock) w0 with
  | Ok (_, w, _) => top_inv w
  | Crash c => exists os1 o os2 w1 es1, os = os1 ++ o :: os2 /\
      for_ os1 (tq_exec alloc clock) w0 = Ok (tt, w1, es1) /\ top_inv w1 /\ may_fail_at o w1 c
  end.
Proof.
  intros Hos. revert w0. induction Hos as [|o os Ho Hos IH]; intros w Hw; cbn [for_]; [done|].
  pose proof (wp_tq_exec o w (fun _ w' _ => top_inv w') Hw Ho (fun w' _ H => H)) as H1. unfold wp in H1.
  unfold mthen at 1. destruct (tq_exec alloc clock o w) as [[[[] w1] es1]|c] eqn:E1.
  - specialize (IH w1 H1). destruct (for_ os (tq_exec alloc clock) w1) as [[[[] w2] es2]|c]; [done|].
    destruct IH as (os1 & o' & os2 & w3 & es3 & -> & E3 & H3 & Hf). exists (o :: os1), o', os2, w3. eexists.
    split; [done|]. cbn [for_]. unfold mthen at 1. rewrite E1, E3. done.
  - by exists [], o, os, w, [].
Qed.


(** C12.  An alarm runs what is due.  When the timer descriptor is readable and
    the clock says [t], exactly the timers that expire at or before [t] run,
    each once, in the order of their expiration, even one that an earlier
    callback of the same round cancels.  Afterwards every timer that was
    scheduled is as specified: cancelled ones are gone, due ones are gone or,
    if they repeat, set to their interval after [t], and the others are
    unchanged. *)
Theorem alarm_runs_due n acts w : top_inv w -> (forall id, Forall call_ok (acts id)) ->
  let t := clock (readings w) in
  match handleRead alloc clock n acts w with
  | Ok (_, w', es) => exists due, due_at t w due /\ es = ran (heap w) <$> due /\
      forall id, id.2 <= s_numCreated_ w -> scheduled w' id = after_alarm w t (calls_of acts (heap w) due) id
  | Crash c => c = BadAlloc
  end.
Proof. intros [Hi _] Hacts. apply (wp_timer_alarm _ n _ _ _ Hi Hacts). intros w' es H. apply H. Qed.

(** A [TimerId] names one timer for ever.  Adding a timer returns an id
    that no timer had before and schedules exactly that timer; cancelling
    removes the timer with that id and no other - in particular nothing, if the
    timer is gone, although its address may belong to another one by now. *)
Theorem timer_ids_unique cb when interval w : top_inv w -> time_ok when -> interval_ok interval ->
  (forall id, exists w', cancel clock true id w = Ok (tt, w', []) /\
    forall id', scheduled w' id' = if bool_decide (id' = id) then None else scheduled w id') /\
  match addTimer alloc clock true cb when interval w with
  | Ok (id, w', es) =>
      (forall id' t, scheduled w id' = Some t -> id'.2 < id.2) /\
      forall id', scheduled w' id' =
        if bool_decide (id' = id) then Some (new_Timer cb when interval id.2) else scheduled w id'
  | Crash c => c = BadAlloc
  end.
Proof.
  intros [Hi Ha] Hw Hiv. split.
  - intros id. assert (Hwp : wp safe (cancel clock true id) w (fun _ w' es => es = [] /\
      forall id', scheduled w' id' = if bool_decide (id' = id) then None else scheduled w id')).
    { apply (wp_run_functor clock _ (CancelInLoop id)), (wp_cancelInLoop alloc clock alloc_ok clock_ok _ _ _ _ _ Hi).
      intros w' H. split; [done | apply H]. }
    apply wp_elim in Hwp as ([] & w' & es & Hc & -> & Hs). by exists w'.
  - apply (wp_addTimer_here alloc clock alloc_ok clock_ok _ _ _ _ _ _ Hi Hw Hiv). intros id w' H. split.
    + intros id' t (Ht & Hs & _)%(scheduled_spec _ _ _ _ Hi). pose proof (to_sequence _ _ _ (ti_timer _ _ Hi _ _ Ht)).
      rewrite (st_id _ _ _ _ _ H), (st_created _ _ _ _ _ H). lia.
    + intros id'. rewrite (st_sched _ _ _ _ _ H), (st_id _ _ _ _ _ H), (st_created _ _ _ _ _ H). done.
Qed.
End runs.

(** ** Examples *)

(** An allocator with three addresses, and a clock that moves two seconds between readings. *)
Definition demo_alloc (h : gmap Z Timer) (n : Z) : option Z :=
  let p := 1 + n mod 3 in if decide (h !! p = None) then Some p else None.
Definition demo_clock (n : nat) : Z := Z.min (2000000 * (Z.of_nat n + 1)) (2 ^ 61).

Lemma demo_alloc_ok h n p : demo_alloc h n = Some p -> h !! p = None /\ 0 < p < uintptr_max.
Proof.
  unfold demo_alloc, uintptr_max. intros H. case_decide; [|done]. injection H as <-.
  split; [done|]. pose proof (Z.mod_pos_bound n 3). lia.
Qed.

Lemma demo_clock_ok n : 0 < demo_clock n <= 2 ^ 61.
Proof. unfold demo_clock. lia. Qed.

Definition once : double := S754_zero false.
Definition every_second : double := double_of_Z 1.

Lemma once_ok : interval_ok once.
Proof. intros H. vm_compute in H. done. Qed.
Lemma every_second_ok : interval_ok every_second.
Proof. intros _. exists 1000000. split; [by vm_compute | lia]. Qed.

(** Timer 1 on the loop's thread, every second; timer 2 from another thread;
    timer 3 cancels timer 1 when it runs. *)
Definition demo_ops : list tq_op :=
  [OpAdd true 10 2000000 every_second; OpAdd false 20 60000000 once; OpPending; OpAdd true 30 3000000 once].
Definition demo_acts (id : Z * Z) : list timer_call := if id.2 =? 3 then [CancelTimer (2, 1)] else [].

Lemma demo_ops_ok : Forall op_ok demo_ops.
Proof.
  pose proof once_ok. pose proof every_second_ok.
  repeat constructor; cbn; try done; unfold time_ok; lia.
Qed.

Lemma demo_acts_ok id : Forall call_ok (demo_acts id).
Proof. unfold demo_acts. bcase; by repeat constructor. Qed.

Definition demo_state : world :=
  match for_ demo_ops (tq_exec demo_alloc demo_clock) new_world with Ok (_, w, _) => w | Crash _ => new_world end.

Lemma demo_top_inv : top_inv demo_state.
Proof.
  pose proof (run_top_inv demo_alloc demo_clock demo_alloc_ok demo_clock_ok demo_ops new_world demo_ops_ok top_inv_new) as H.
  unfold demo_state. destruct (for_ demo_ops _ new_world) as [[[? w] es]|c]; [done|]. apply top_inv_new.
Qed.


Lemma alarm_runs_due_witness :
  (exists w es due, handleRead demo_alloc demo_clock 8 demo_acts demo_state = Ok (tt, w, es) /\
    es = ran (heap demo_state) <$> due) /\
  match handleRead demo_alloc demo_clock 8 demo_acts demo_state with
  | Ok (_, w, es) => (es, scheduled w (2, 1), expiration_ <$> scheduled w (3, 2))
  | Crash _ => ([], None, None)
  end = ([Ran 10 (2, 1); Ran 30 (1, 3)], None, Some 60000000).
Proof.
  split; [|by vm_compute].
  pose proof (alarm_runs_due demo_alloc demo_clock demo_alloc_ok demo_clock_ok 8 demo_acts demo_state demo_top_inv demo_acts_ok) as H.
  cbn zeta in H. destruct (handleRead _ _ _ _ demo_state) as [[[[] w] es]|c] eqn:E.
  - destruct H as (due & _ & -> & _). exists w, (ran (heap demo_state) <$> due), due. split; reflexivity.
  - exfalso. vm_compute in E. discriminate.
Defined.

(** The fourth timer gets the address of the first, which has run and is gone;
    cancelling with the id of the first does not touch it. *)
Definition demo_later : world :=
  match for_ (demo_ops ++ [OpAlarm 8 demo_acts]) (tq_exec demo_alloc demo_clock) new_world with
  | Ok (_, w, _) => w | Crash _ => new_world
  end.

Lemma demo_later_top_inv : top_inv demo_later.
Proof.
  assert (Hok : Forall op_ok (demo_ops ++ [OpAlarm 8 demo_acts])).
  { apply Forall_app. split; [exact demo_ops_ok|]. repeat constructor. intros id. apply demo_acts_ok. }
  pose proof (run_top_inv demo_alloc demo_clock demo_alloc_ok demo_clock_ok _ new_world Hok top_inv_new) as H.
  unfold demo_later. destruct (for_ _ _ new_world) as [[[? w] es]|c]; [done|]. apply top_inv_new.
Qed.

Lemma timer_ids_unique_witness :
  (exists id w es, addTimer demo_alloc demo_clock true 40 90000000 once demo_later = Ok (id, w, es) /\
    scheduled w id = Some (new_Timer 40 90000000 once id.2)) /\
  match addTimer demo_alloc demo_clock true 40 90000000 once demo_later with
  | Ok (id, w, _) => (id, match cancel demo_clock true (2, 1) w with Ok (_, w, _) => expiration_ <$> scheduled w id | Crash _ => None end)
  | Crash _ => ((0, 0), None)
  end = ((2, 4), Some 90000000).
Proof.
  split; [|by vm_compute].
  assert (Ht : time_ok 90000000) by (unfold time_ok; lia).
  pose proof (timer_ids_unique demo_alloc demo_clock demo_alloc_ok demo_clock_ok 40 90000000 once demo_later
    demo_later_top_inv Ht once_ok) as [_ H].
  destruct (addTimer _ _ _ _ _ _ demo_later) as [[[id w] es]|c] eqn:E.
  - destruct H as [_ H]. exists id, w, es. split; [done|]. rewrite H. by rewrite bool_decide_true.
  - exfalso. vm_compute in E. discriminate.
Defined.

(** ** What users may not rely on *)

(** A timer that another thread adds is unknown until the loop runs the functor:
    a [cancel] on the loop's thread before that is lost. *)
Definition early_cancel : list tq_op :=
  [OpAdd false 10 5000000 once; OpCancel true (2, 1); OpPending].

Lemma early_cancel_lost :
  match for_ early_cancel (tq_exec demo_alloc demo_clock) new_world with
  | Ok (_, w, _) => expiration_ <$> scheduled w (2, 1)
  | Crash _ => None
  end = Some 5000000.
Proof. by vm_compute. Qed.

(** A callback that cancels another timer of the same round comes too late. *)
Lemma canceled_timer_runs :
  match for_ [OpAdd true 10 1000000 once; OpAdd true 20 2000000 once;
              OpAlarm 8 (fun id => if id.2 =? 1 then [CancelTimer (3, 2)] else [])]
          (tq_exec demo_alloc demo_clock) new_world with
  | Ok (_, _, es) => es
  | Crash _ => []
  end = [Ran 10 (2, 1); Ran 20 (3, 2)].
Proof. by vm_compute. Qed.

(** [addTimer] on another thread reads [timer->sequence()] after it has given
    the timer away: when the loop is faster, the timer has run and is deleted. *)
Lemma addTimer_race :
  match for_ [OpAddStart 10 0 once; OpPending; OpAlarm 8 (fun _ => []); OpAddReturn 2] (tq_exec demo_alloc demo_clock)
          new_world with
  | Ok _ => None
  | Crash c => Some c
  end = Some DeadObject.
Proof. by vm_compute. Qed.
