(* ===== verification/TcpConnection.v ===== *)
(** * TCP connections

    [muduo/net/TcpConnection.h] and [TcpConnection.cc]: the state machine of one
    connection, its buffers and its channel.  A handler of the class is a
    computation over the connection, the queue of functors its event loop will
    run ([queueInLoop]), the pending delayed closes and the state of the kernel.

    What is not source of the project is a parameter: [write(2)] is the class
    [Kernel], and the application behind the callbacks is a [Users] record that
    answers each callback with the calls it makes on the connection.

    The lifetime of the object: its server keeps it until the end of the
    connection, afterwards the queued functors that hold a [TcpConnectionPtr]
    keep it, and those made with the bare [this] do not; running one of them when
    nobody holds the object is [DeadObject].  Pointers the application keeps are
    left out, and a functor counts as gone when it has been taken off the queue
    (the loop frees it at the end of its batch): the model lets an object die no
    later than the code.  A call of another thread is one step: what it does
    between testing the state and queueing its functor is not interleaved. *)

From stdpp Require Import strings.
From S2P Require Import Prelude Effects Buffer Channel.

Open Scope Z_scope.
Open Scope handler_scope.

(** ** The environment *)

Definition EWOULDBLOCK : Z := 11.
Definition EPIPE : Z := 32.
Definition ECONNRESET : Z := 104.

(** [write(2)] on the socket: the result, [errno], and the kernel afterwards. *)
Class Kernel (W : Type) := sys_write : W -> bytes -> Z * Z * W.

(** It never reports more bytes than it was given. *)
Class KernelLaws (W : Type) `{Kernel W} :=
  sys_write_range : forall w data, let '(n, _, _) := sys_write w data in -1 <= n <= Z.of_nat (length data).

(** ** The object *)

Inductive StateE := kDisconnected | kConnecting | kConnected | kDisconnecting.
#[export] Instance StateE_eq_dec : EqDecision StateE.
Proof. solve_decision. Defined.

Definition stateToString (s : StateE) : string :=
  match s with
  | kDisconnected => "kDisconnected"
  | kConnecting => "kConnecting"
  | kConnected => "kConnected"
  | kDisconnecting => "kDisconnecting"
  end.

Record TcpConnection := mk_TcpConnection {
  state_ : StateE;
  reading_ : bool;
  channel_ : Channel;
  writeCompleteCallback_ : bool;      (* whether the callback is set *)
  highWaterMarkCallback_ : bool;
  highWaterMark_ : Z;
  inputBuffer_ : Buffer;
  outputBuffer_ : Buffer
}.

Definition eta_conn (c : TcpConnection) : TcpConnection :=
  mk_TcpConnection (state_ c) (reading_ c) (channel_ c) (writeCompleteCallback_ c)
    (highWaterMarkCallback_ c) (highWaterMark_ c) (inputBuffer_ c) (outputBuffer_ c).
#[export] Instance set_state_ : Setter state_ := ltac:(build_setter eta_conn state_).
#[export] Instance set_reading_ : Setter reading_ := ltac:(build_setter eta_conn reading_).
#[export] Instance set_channel_ : Setter channel_ := ltac:(build_setter eta_conn channel_).
#[export] Instance set_inputBuffer_ : Setter inputBuffer_ := ltac:(build_setter eta_conn inputBuffer_).
#[export] Instance set_outputBuffer_ : Setter outputBuffer_ := ltac:(build_setter eta_conn outputBuffer_).

Definition connected (c : TcpConnection) : bool := bool_decide (state_ c = kConnected).
Definition disconnected (c : TcpConnection) : bool := bool_decide (state_ c = kDisconnected).

(** The constructor; [wc] and [hwm] say which optional callbacks get set. *)
Definition new_TcpConnection (fd : Z) (wc hwm : bool) : outcome TcpConnection :=
  bind (new_Buffer kInitialSize) (fun b => Ok {|
    state_ := kConnecting; reading_ := true; channel_ := new_Channel fd;
    writeCompleteCallback_ := wc; highWaterMarkCallback_ := hwm;
    highWaterMark_ := 64 * 1024 * 1024; inputBuffer_ := b; outputBuffer_ := b |}).

(** The assertion of the destructor. *)
Definition delete_TcpConnection (c : TcpConnection) : outcome unit := assert_ (disconnected c).

(** Functors the loop runs later. *)
Inductive functor :=
  | FSend (data : bytes)
  | FShutdown
  | FStartRead
  | FStopRead
  | FForceClose
  | FWriteComplete
  | FHighWaterMark (n : Z)
  | FConnectDestroyed.

(** A functor bound with [this], which does not keep the connection alive. *)
Definition raw (f : functor) : bool :=
  match f with
  | FSend _ | FShutdown | FStartRead | FStopRead => true
  | FForceClose | FWriteComplete | FHighWaterMark _ | FConnectDestroyed => false
  end.

(** The calls of the application on a connection. *)
Inductive api :=
  | Send (data : bytes)
  | SendInput            (* conn->send(conn->inputBuffer()) *)
  | RetrieveAll          (* conn->inputBuffer()->retrieveAll() *)
  | Shutdown
  | ForceClose
  | ForceCloseWithDelay
  | StartRead
  | StopRead.

Record Users := {
  on_connection : TcpConnection -> list api;
  on_message : TcpConnection -> list api;
  on_writeComplete : TcpConnection -> list api;
  on_highWaterMark : TcpConnection -> Z -> list api
}.

(** What a connection does to the outside.  [Sent] is not an effect: it records
    that [sendInLoop] was called with this message and whether it took it. *)
Inductive act :=
  | Wrote (data : bytes)
  | ShutdownWrite
  | UpdateChannel (events : Z)
  | RemoveChannel
  | ConnectionCb (up : bool)
  | MessageCb
  | WriteCompleteCb
  | HighWaterMarkCb (n : Z)
  | CloseCb
  | GetSocketError
  | Sent (data : bytes) (taken : bool).

Section tcp.
Context {W : Type} `{!Kernel W}.

Record World := mk_World {
  conn : TcpConnection;
  pending : list functor;
  delayed : nat;           (* armed timers of forceCloseWithDelay *)
  kernel : W
}.

Definition eta_World (w : World) : World := mk_World (conn w) (pending w) (delayed w) (kernel w).
#[export] Instance set_conn : Setter conn := ltac:(build_setter eta_World conn).
#[export] Instance set_pending : Setter pending := ltac:(build_setter eta_World pending).
#[export] Instance set_delayed : Setter delayed := ltac:(build_setter eta_World delayed).
#[export] Instance set_kernel : Setter kernel := ltac:(build_setter eta_World kernel).

(** Somebody holds the connection: its owner, or a queued functor. *)
Definition alive (w : World) : bool :=
  negb (disconnected (conn w)) || existsb (fun f => negb (raw f)) (pending w).

Abbreviation H A := (M World act A).

Variable u : Users.

(** ** Helpers *)

Definition conn_of {A} (f : TcpConnection -> A) : H A := mget (fun w => f (conn w)).
Definition set_of (f : TcpConnection -> TcpConnection) : H unit := mmod (fun w => w <| conn := f (conn w) |>).
Definition setState (s : StateE) : H unit := set_of (fun c => c <| state_ := s |>).

Definition queueInLoop (f : functor) : H unit := mmod (fun w => w <| pending := pending w ++ [f] |>).

Definition chan_of (w : World) : option Channel := Some (channel_ (conn w)).
Definition put_chan (c : Channel) (w : World) : World := w <| conn := conn w <| channel_ := c |> |>.
Definition loop_update : H unit :=
  do ev <- conn_of (fun c => events_ (channel_ c));
  emit (UpdateChannel ev).
Definition loop_remove : H unit := emit RemoveChannel.
Definition channel_change (ch : change) : H unit := change_events chan_of put_chan loop_update ch.
Definition isWriting_ : H bool := conn_of (fun c => isWriting (channel_ c)).
Definition isReading_ : H bool := conn_of (fun c => isReading (channel_ c)).

(** [sockets::write]. *)
Definition write (data : bytes) : H (Z * Z) := fun w =>
  let '(n, errno, k) := sys_write (kernel w) data in
  Ok ((n, errno), w <| kernel := k |>, if 0 <? n then [Wrote (take (Z.to_nat n) data)] else []).

(** ** Sending *)

(** The direct write when nothing is queued: how much was written, how much
    remains, and whether the peer is gone. *)
Definition send_direct (data : bytes) : H (Z * Z * bool) :=
  let len := Z.of_nat (length data) in
  do wr <- isWriting_;
  do out <- conn_of outputBuffer_;
  if negb wr && (readableBytes out =? 0) then
    do (n, errno) <- write data;
    if 0 <=? n then
      let remaining := len - n in
      do c <- conn_of writeCompleteCallback_;
      do _ <- (if (remaining =? 0) && c then queueInLoop FWriteComplete else mret tt);
      mret (n, remaining, false)
    else
      mret (0, len, negb (errno =? EWOULDBLOCK) && ((errno =? EPIPE) || (errno =? ECONNRESET)))
  else mret (0, len, false).

(** What was not written goes to the output buffer. *)
Definition send_rest (nwrote remaining : Z) (data : bytes) : H unit :=
  do c <- conn_of id;
  let oldLen := readableBytes (outputBuffer_ c) in
  do _ <- (if (highWaterMark_ c <=? oldLen + remaining) && (oldLen <? highWaterMark_ c)
              && highWaterMarkCallback_ c
           then queueInLoop (FHighWaterMark (oldLen + remaining)) else mret tt);
  do b <- lift (append (outputBuffer_ c) (drop (Z.to_nat nwrote) data));
  do _ <- set_of (fun c => c <| outputBuffer_ := b |>);
  do wr <- isWriting_;
  if negb wr then channel_change EnableWriting else mret tt.

Definition sendInLoop (data : bytes) : H unit :=
  do s <- conn_of state_;
  if decide (s = kDisconnected) then emit (Sent data false) else
  do (nwrote, remaining, faultError) <- send_direct data;
  do _ <- massert (remaining <=? Z.of_nat (length data));
  do _ <- (if negb faultError && (0 <? remaining) then send_rest nwrote remaining data else mret tt);
  emit (Sent data (negb faultError)).

(** [send(const StringPiece&)]; [inloop] is [loop_->isInLoopThread()], and a
    call from another thread goes through [runInLoop]. *)
Definition send (inloop : bool) (message : bytes) : H unit :=
  do s <- conn_of state_;
  if decide (s = kConnected) then
    if inloop then sendInLoop message else queueInLoop (FSend message)
  else mret tt.

(** [send] of a [Buffer], here the input buffer of the connection. *)
Definition send_input (inloop : bool) : H unit :=
  do s <- conn_of state_;
  if decide (s = kConnected) then
    do b <- conn_of inputBuffer_;
    if inloop then
      do _ <- sendInLoop (contents b);
      set_of (fun c => c <| inputBuffer_ := retrieveAll (inputBuffer_ c) |>)
    else
      do (data, b) <- lift (retrieveAllAsString b);
      do _ <- set_of (fun c => c <| inputBuffer_ := b |>);
      queueInLoop (FSend data)
  else mret tt.

(** ** Closing *)

Definition shutdownInLoop : H unit :=
  do wr <- isWriting_;
  if negb wr then emit ShutdownWrite else mret tt.

Definition shutdown (inloop : bool) : H unit :=
  do s <- conn_of state_;
  if decide (s = kConnected) then
    do _ <- setState kDisconnecting;
    if inloop then shutdownInLoop else queueInLoop FShutdown
  else mret tt.

Definition closing (s : StateE) : bool :=
  bool_decide (s = kConnected) || bool_decide (s = kDisconnecting).

Definition forceClose : H unit :=
  do s <- conn_of state_;
  if closing s then
    do _ <- setState kDisconnecting;
    queueInLoop FForceClose
  else mret tt.

Definition forceCloseWithDelay : H unit :=
  do s <- conn_of state_;
  if closing s then
    do _ <- setState kDisconnecting;
    mmod (fun w => w <| delayed := S (delayed w) |>)
  else mret tt.

(** ** Reading on and off *)

Definition startReadInLoop : H unit :=
  do r <- conn_of reading_;
  do cr <- isReading_;
  if negb r || negb cr then
    do _ <- channel_change EnableReading;
    set_of (fun c => c <| reading_ := true |>)
  else mret tt.
Definition stopReadInLoop : H unit :=
  do r <- conn_of reading_;
  do cr <- isReading_;
  if r || cr then
    do _ <- channel_change DisableReading;
    set_of (fun c => c <| reading_ := false |>)
  else mret tt.
Definition startRead (inloop : bool) : H unit :=
  if inloop then startReadInLoop else queueInLoop FStartRead.
Definition stopRead (inloop : bool) : H unit :=
  if inloop then stopReadInLoop else queueInLoop FStopRead.

(** ** The application *)

Definition call (inloop : bool) (a : api) : H unit :=
  match a with
  | Send data => send inloop data
  | SendInput => send_input inloop
  | RetrieveAll => set_of (fun c => c <| inputBuffer_ := retrieveAll (inputBuffer_ c) |>)
  | Shutdown => shutdown inloop
  | ForceClose => forceClose
  | ForceCloseWithDelay => forceCloseWithDelay
  | StartRead => startRead inloop
  | StopRead => stopRead inloop
  end.

(** A callback runs in the loop thread. *)
Definition callback (a : act) (reaction : TcpConnection -> list api) : H unit :=
  do _ <- emit a;
  do l <- conn_of reaction;
  for_ l (call true).

Definition connectionCallback_ : H unit :=
  do up <- conn_of connected;
  callback (ConnectionCb up) (on_connection u).

(** [closeCallback_]: the owner forgets the connection and has the loop destroy
    it ([TcpServer::removeConnectionInLoop], [TcpClient::removeConnection]). *)
Definition closeCallback_conn : H unit :=
  do _ <- emit CloseCb;
  queueInLoop FConnectDestroyed.

(** ** Events *)

Definition handleClose : H unit :=
  do s <- conn_of state_;
  do _ <- massert (closing s);
  do _ <- setState kDisconnected;
  do _ <- channel_change DisableAll;
  do _ <- connectionCallback_;
  closeCallback_conn.

Definition handleError : H unit := emit GetSocketError.

(** [rd] is what [readv] delivers. *)
Definition handleRead (rd : option bytes) : H unit :=
  do b <- conn_of inputBuffer_;
  do (n, b) <- lift (readFd b rd);
  do _ <- set_of (fun c => c <| inputBuffer_ := b |>);
  if 0 <? n then callback MessageCb (on_message u)
  else if n =? 0 then handleClose
  else handleError.

Definition handleWrite : H unit :=
  do wr <- isWriting_;
  if wr then
    do out <- conn_of outputBuffer_;
    do (n, _) <- write (contents out);
    if 0 <? n then
      do b <- lift (retrieve out n);
      do _ <- set_of (fun c => c <| outputBuffer_ := b |>);
      if readableBytes b =? 0 then
        do _ <- channel_change DisableWriting;
        do c <- conn_of writeCompleteCallback_;
        do _ <- (if c : bool then queueInLoop FWriteComplete else mret tt);
        do s <- conn_of state_;
        if decide (s = kDisconnecting) then shutdownInLoop else mret tt
      else mret tt
    else mret tt
  else mret tt.

Definition conn_callbacks (rd : option bytes) : callbacks World act := {|
  readCallback_ := Some (fun _ => handleRead rd);
  writeCallback_ := Some handleWrite;
  closeCallback_ := Some handleClose;
  errorCallback_ := Some handleError |}.

Definition connectEstablished : H unit :=
  do s <- conn_of state_;
  do _ <- massert (bool_decide (s = kConnecting));
  do _ <- setState kConnected;
  do _ <- change_channel chan_of put_chan tie;
  do _ <- channel_change EnableReading;
  connectionCallback_.

Definition connectDestroyed : H unit :=
  do s <- conn_of state_;
  do _ <- (if decide (s = kConnected) then
             do _ <- setState kDisconnected;
             do _ <- channel_change DisableAll;
             connectionCallback_
           else mret tt);
  remove chan_of put_chan loop_remove.

Definition forceCloseInLoop : H unit :=
  do s <- conn_of state_;
  if closing s then handleClose else mret tt.

Definition run_functor (f : functor) : H unit :=
  match f with
  | FSend data => sendInLoop data
  | FShutdown => shutdownInLoop
  | FStartRead => startReadInLoop
  | FStopRead => stopReadInLoop
  | FForceClose => forceCloseInLoop
  | FWriteComplete => callback WriteCompleteCb (on_writeComplete u)
  | FHighWaterMark n => callback (HighWaterMarkCb n) (fun c => on_highWaterMark u c n)
  | FConnectDestroyed => connectDestroyed
  end.

(** What can happen to a connection. *)
Inductive event :=
  | EvPoll (revents : Z) (rd : option bytes)   (* the poller reports events *)
  | EvPending                                  (* the loop runs the next functor *)
  | EvTimer                                    (* a delayed close is due *)
  | EvCall (inloop : bool) (a : api)           (* the application calls *)
  | EvOwner.                                   (* ~TcpServer destroys it *)

Definition step (e : event) : H unit :=
  match e with
  | EvPoll revents rd =>
      do _ <- change_channel chan_of put_chan (set_revents revents);
      handleEvent chan_of put_chan (conn_callbacks rd) 0
  | EvPending =>
      do q <- mget pending;
      match q with
      | [] => mret tt
      | f :: q =>
          do here <- mget alive;
          if raw f && negb here then mcrash DeadObject else
          do _ <- mmod (fun w => w <| pending := q |>);
          run_functor f
      end
  | EvTimer =>
      do n <- mget delayed;
      match n with
      | O => mret tt
      | S n =>
          do _ <- mmod (fun w => w <| delayed := n |>);
          forceClose
      end
  | EvCall inloop a => call inloop a
  | EvOwner => connectDestroyed
  end.
End tcp.

Arguments World : clear implicits.

(** ** Traces *)

Definition written (es : list act) : bytes :=
  concat (omap (fun e => match e with Wrote d => Some d | _ => None end) es).
Definition taken (es : list act) : bytes :=
  concat (omap (fun e => match e with Sent d true => Some d | _ => None end) es).
Definition ups (es : list act) : list bool :=
  omap (fun e => match e with ConnectionCb up => Some up | _ => None end) es.
Definition removes (es : list act) : nat :=
  length (omap (fun e => match e with RemoveChannel => Some tt | _ => None end) es).

Lemma written_app es es' : written (es ++ es') = written es ++ written es'.
Proof. unfold written. by rewrite omap_app, concat_app. Qed.
Lemma taken_app es es' : taken (es ++ es') = taken es ++ taken es'.
Proof. unfold taken. by rewrite omap_app, concat_app. Qed.
Lemma ups_app es es' : ups (es ++ es') = ups es ++ ups es'.
Proof. unfold ups. by rewrite omap_app. Qed.
Lemma removes_app es es' : removes (es ++ es') = (removes es + removes es')%nat.
Proof. unfold removes. by rewrite omap_app, length_app. Qed.

(** Starting with the backlog [q], every [shutdown(2)] before the end of the
    connection comes when everything taken so far has been written. *)
Definition drained (q : bytes) (es : list act) : Prop :=
  forall es1 es2, es = es1 ++ ShutdownWrite :: es2 -> false ∉ ups es1 -> written es1 = q ++ taken es1.

(** ** The invariant *)

Section invariant.
Context {W : Type} `{!Kernel W, !KernelLaws W}.

Definition disc (w : World W) : bool := disconnected (conn w).
Definition added (w : World W) : bool := addedToLoop_ (channel_ (conn w)).
Definition interest (w : World W) : Z := events_ (channel_ (conn w)).
Definition reported (w : World W) : Z := revents_ (channel_ (conn w)).
Definition backlog (w : World W) : bytes := contents (outputBuffer_ (conn w)).

(** A queued functor carries a message that fits memory; changes of the read
    interest are not queued from other threads. *)
Definition functor_ok (f : functor) : Prop :=
  match f with
  | FSend data => Z.of_nat (length data) <= VECTOR_MAX
  | FStartRead | FStopRead => False
  | _ => True
  end.

#[local] Instance functor_eq_dec : EqDecision functor.
Proof. solve_decision. Defined.

Definition destroys (p : list functor) : nat := count_occ functor_eq_dec p FConnectDestroyed.
#[global] Arguments destroys : simpl never.

(** [d] is the number of [connectDestroyed] due for a connection that is closed
    but still registered: 1 between events, 0 while the callback runs that
    announces the end of the connection. *)
Record conn_wf (d : nat) (w : World W) : Prop := {
  cw_in : buffer_wf (inputBuffer_ (conn w));
  cw_out : buffer_wf (outputBuffer_ (conn w));
  cw_events : events_ok (interest w);
  cw_state : state_ (conn w) <> kConnecting;
  cw_open : disc w = false -> added w = true /\ writes (interest w) = negb (bool_decide (backlog w = []));
  cw_closed : disc w = true -> interest w = 0;
  cw_pending : Forall functor_ok (pending w);
  cw_destroys : destroys (pending w) = if disc w && added w then d else O
}.

(** What every piece of the code guarantees about its effects. *)
Record progress (w : World W) (es : list act) (w' : World W) : Prop := {
  pg_stream : written es ++ backlog w' = backlog w ++ taken es;
  pg_drained : disc w = false -> drained (backlog w) es;
  pg_disc : disc w = true -> disc w' = true;
  pg_ups : ups es = if negb (disc w) && disc w' then [false] else [];
  pg_removes : (removes es + Nat.b2n (added w') = Nat.b2n (added w))%nat;
  pg_reported : reported w' = reported w
}.

Lemma drained_nil q : drained q [].
Proof. intros es1 es2 He. by destruct es1. Qed.

Lemma drained_silent q es : ShutdownWrite ∉ es -> drained q es.
Proof. intros Hn es1 es2 ->. exfalso. apply Hn. set_solver. Qed.

Lemma progress_refl w : progress w [] w.
Proof.
  constructor; [by rewrite app_nil_r | intros _; apply drained_nil | done | by destruct (disc w) | done | done].
Qed.

Lemma drained_app q q' es es' :
  drained q es -> written es ++ q' = q ++ taken es -> (false ∉ ups es -> drained q' es') -> drained q (es ++ es').
Proof.
  intros H1 Hs H2 es1 es2 He Hup. apply app_eq_inv in He as [(k & -> & He)|(k & -> & He)].
  - destruct k as [|a k].
    + rewrite app_nil_r in *. cbn in He. specialize (H2 Hup [] es2 (eq_sym He)). cbn in H2.
      rewrite app_nil_r in H2. assert (q' = []) as -> by (symmetry; apply H2, not_elem_of_nil).
      by rewrite app_nil_r in Hs.
    + injection He as <- He. by apply (H1 es1 k).
  - rewrite ups_app, elem_of_app in Hup. rewrite written_app, taken_app, (H2 ltac:(tauto) k es2 He) by tauto.
    rewrite !(assoc_L (++)). by rewrite Hs.
Qed.

Lemma progress_trans w es w1 es' w2 : progress w es w1 -> progress w1 es' w2 -> progress w (es ++ es') w2.
Proof.
  intros [Hs Hd Hc Hu Hr Hv] [Hs' Hd' Hc' Hu' Hr' Hv']. constructor.
  - rewrite written_app, taken_app, <- (assoc_L (++)), Hs', !(assoc_L (++)). by rewrite Hs.
  - intros Ho. eapply drained_app; [auto | done|]. intros Hno. apply Hd'.
    destruct (disc w1); [|done]. rewrite Hu, Ho in Hno. set_solver.
  - auto.
  - rewrite ups_app, Hu, Hu'. destruct (disc w), (disc w1), (disc w2); naive_solver.
  - rewrite removes_app. lia.
  - congruence.
Qed.

(** A vector that would outgrow the address space is the only thing that can
    stop a connection. *)
Definition too_big (c : crash) : Prop := c = LengthError.

(** [w'] is as alive as [w]. *)
Definition same_life (w w' : World W) : Prop := disc w' = disc w /\ added w' = added w.

Lemma same_life_trans w w1 w2 : same_life w w1 -> same_life w1 w2 -> same_life w w2.
Proof. unfold same_life. intros [-> ->]. done. Qed.

(** [keep] says that this piece of code does not end the connection. *)
Definition good {A} (d : nat) (keep : bool) (w : World W) : A -> World W -> list act -> Prop :=
  fun _ w' es => conn_wf d w' /\ progress w es w' /\ (keep = true -> same_life w w').

Abbreviation ok d keep m w := (wp too_big m w (good d keep w)).

Lemma ok_then {A B} d keep (m : M (World W) act A) (k : A -> M (World W) act B) w :
  ok d keep m w ->
  (forall a w' es, conn_wf d w' -> progress w es w' -> (keep = true -> same_life w w') -> ok d keep (k a) w') ->
  ok d keep (mthen m k) w.
Proof.
  intros Hm Hk. apply wp_then. eapply wp_mono; [exact Hm|]. intros a w' es (Hw & Hp & Hd).
  eapply wp_mono; [by apply (Hk a w' es)|]. intros b w2 es' (Hw2 & Hp2 & Hd2). split_and!; [done| |].
  - by eapply progress_trans.
  - intros Hkeep. eapply same_life_trans; eauto.
Qed.

(** The first part does not end the connection. *)
Lemma ok_first {A B} d keep (m : M (World W) act A) (k : A -> M (World W) act B) w :
  ok d true m w ->
  (forall a w' es, conn_wf d w' -> progress w es w' -> same_life w w' -> ok d keep (k a) w') ->
  ok d keep (mthen m k) w.
Proof.
  intros Hm Hk. apply wp_then. eapply wp_mono; [exact Hm|]. intros a w' es (Hw & Hp & Hl).
  eapply wp_mono; [by apply (Hk a w' es); auto|]. intros b w2 es' (Hw2 & Hp2 & Hl2). split_and!; [done| |].
  - by eapply progress_trans.
  - intros Hkeep. eapply same_life_trans; eauto.
Qed.

Lemma ok_ret {A} d keep (a : A) w : conn_wf d w -> ok d keep (mret a) w.
Proof. intros Hw. apply wp_ret. split_and!; [done | apply progress_refl | done]. Qed.

Lemma ok_get {A B} d keep (f : World W -> A) (k : A -> M (World W) act B) w :
  ok d keep (k (f w)) w -> ok d keep (mthen (mget f) k) w.
Proof. intros H. apply wp_then, wp_get. eapply wp_mono; [exact H|]. done. Qed.

Lemma ok_lift {A B} d keep (o : outcome A) (k : A -> M (World W) act B) w :
  match o with Ok a => ok d keep (k a) w | Crash c => c = LengthError end ->
  ok d keep (mthen (lift o) k) w.
Proof. intros H. apply wp_then, wp_lift_crash. destruct o; [|done]. eapply wp_mono; [exact H|]. done. Qed.

Lemma ok_keep {A} d keep (m : M (World W) act A) w : ok d true m w -> ok d keep m w.
Proof. intros H. eapply wp_mono; [exact H|]. intros a w' es (? & ? & ?). split_and!; auto. Qed.

Lemma ok_for {A} d (l : list A) (f : A -> M (World W) act unit) w (P : A -> bool -> Prop) :
  conn_wf d w -> Forall (fun x => P x (disc w)) l ->
  (forall x w', conn_wf d w' -> P x (disc w') -> ok d true (f x) w') -> ok d true (for_ l f) w.
Proof.
  intros Hw Hl Hf. revert w Hw Hl. induction l as [|x l IH]; intros w Hw Hl; cbn [for_].
  - by apply ok_ret.
  - apply Forall_cons in Hl as [Hx Hl]. apply ok_then; [by apply Hf|].
    intros _ w' es Hw' _ Hd. apply IH; [done|]. by rewrite (proj1 (Hd eq_refl)).
Qed.

(** A step without effects that leaves the output buffer, the registration and
    the end of the connection alone. *)
Lemma ok_quiet d w w' : conn_wf d w' -> backlog w' = backlog w -> disc w' = disc w -> added w' = added w -> reported w' = reported w ->
  forall es, written es = [] -> taken es = [] -> ups es = [] -> removes es = O ->
    (forall es1 es2, es <> es1 ++ ShutdownWrite :: es2) -> good d true w tt w' es.
Proof.
  intros Hw Hb Hd Ha Hv es H1 H2 H3 H4 H5. split; [done|]. split; [|done]. constructor; try done.
  - by rewrite H1, H2, Hb, app_nil_r.
  - intros _ es1 es2 He. by destruct (H5 es1 es2).
  - by rewrite Hd.
  - rewrite H3, Hd. by destruct (disc w).
  - by rewrite H4, Ha.
Qed.

Lemma ok_mod d keep (f : World W -> World W) w :
  conn_wf d (f w) -> backlog (f w) = backlog w -> disc (f w) = disc w -> added (f w) = added w -> reported (f w) = reported w ->
  ok d keep (mmod f) w.
Proof.
  intros. apply ok_keep, wp_mod, (ok_quiet d w (f w)); try done. intros [] ? ?; done.
Qed.

Lemma ok_emit d keep (e : act) w : conn_wf d w ->
  match e with Wrote _ | Sent _ true | ConnectionCb _ | RemoveChannel | ShutdownWrite => False | _ => True end ->
  ok d keep (emit e) w.
Proof.
  intros Hw He. apply ok_keep, wp_emit.
  apply (ok_quiet d w w); try done; try (destruct e as [| | | | | | | | | |? []]; done).
  intros [|? [|]] es2 Heq; by destruct e; simplify_eq.
Qed.

Lemma destroys_snoc p f : destroys (p ++ [f]) = (destroys p + destroys [f])%nat.
Proof. apply count_occ_app. Qed.

Lemma ok_queue d keep f w : conn_wf d w -> functor_ok f -> f <> FConnectDestroyed ->
  ok d keep (queueInLoop f) w.
Proof.
  intros [] Hf Hn. apply ok_mod; try done. constructor; try done; cbn.
  - apply Forall_app. split; [done|]. by apply Forall_singleton.
  - rewrite destroys_snoc. unfold destroys at 2. rewrite count_occ_cons_neq by done. unfold disc, added in *. cbn in *. lia.
Qed.

(** ** Sending *)

(** Effects that say nothing about the streams or the life of the connection. *)
Record silent (es : list act) : Prop := {
  si_written : written es = [];
  si_taken : taken es = [];
  si_ups : ups es = [];
  si_removes : removes es = O;
  si_shutdown : ShutdownWrite ∉ es
}.

Lemma silent_nil : silent [].
Proof. constructor; try done. apply not_elem_of_nil. Qed.

Lemma silent_update ev : silent [UpdateChannel ev].
Proof. constructor; try done. by intros ?%list_elem_of_singleton. Qed.

Lemma silent_app es es' : silent es -> silent es' -> silent (es ++ es').
Proof.
  intros [H1 H2 H3 H4 H5] [G1 G2 G3 G4 G5].
  constructor; rewrite ?written_app, ?taken_app, ?ups_app, ?removes_app; [by rewrite H1 | by rewrite H2
    | by rewrite H3 | lia |]. by intros [?|?]%elem_of_app.
Qed.

Lemma open_state w : disc w = false <-> state_ (conn w) <> kDisconnected.
Proof. unfold disc, disconnected. by rewrite bool_decide_eq_false. Qed.

Lemma open_writing w d : conn_wf d w -> disc w = false ->
  isWriting (channel_ (conn w)) = negb (bool_decide (backlog w = [])).
Proof. intros Hw Hd. by destruct (cw_open _ _ Hw Hd) as [_ <-]. Qed.

Lemma holds_backlog b : buffer_wf b -> holds b (contents b).
Proof. done. Qed.

Lemma backlog_readable d w : conn_wf d w -> readableBytes (outputBuffer_ (conn w)) = Z.of_nat (length (backlog w)).
Proof. intros Hw. apply holds_readable, holds_backlog, Hw. Qed.

(** The kernel answers that the peer is gone. *)
Definition peer_gone (k : W) (data : bytes) : Prop :=
  let '(n, errno, _) := sys_write k data in n < 0 /\ (errno = EPIPE \/ errno = ECONNRESET).

Lemma wp_send_direct d w data : conn_wf d w -> disc w = false ->
  wp too_big (send_direct data) w (fun r w' es => exists n fault,
    r = (n, Z.of_nat (length data) - n, fault) /\ 0 <= n <= Z.of_nat (length data) /\
    (fault = true -> n = 0 /\ backlog w = [] /\ peer_gone (kernel w) data) /\ (0 < n -> backlog w = []) /\
    conn_wf d w' /\ backlog w' = backlog w /\ same_life w w' /\ reported w' = reported w /\
    es = if 0 <? n then [Wrote (take (Z.to_nat n) data)] else []).
Proof.
  intros Hw Hd. unfold send_direct. apply wp_then, wp_get, wp_then, wp_get.
  rewrite (open_writing _ _ Hw Hd), (backlog_readable _ _ Hw), negb_involutive.
  case_bool_decide as Hq.
  2:{ cbn [andb]. apply wp_ret. exists 0, false. rewrite Z.sub_0_r. split_and!; try done; lia. }
  rewrite Hq. cbn [andb length Z.of_nat Z.eqb].
  apply wp_then. unfold wp at 1, write. pose proof (sys_write_range (kernel w) data) as Hr.
  unfold peer_gone. destruct (sys_write _ _) as [[n errno] k]. cbn [app].
  assert (Hw1 : conn_wf d (w <| kernel := k |>)) by (by destruct Hw).
  bcase.
  - apply wp_then, wp_get. bcase.
    + unfold queueInLoop. apply wp_then, wp_mod, wp_ret. rewrite !app_nil_r.
      exists n, false. split_and!; try done; try lia.
      destruct (ok_queue d true FWriteComplete _ Hw1) as (? & _); done.
    + apply wp_then, wp_ret, wp_ret. rewrite !app_nil_r. exists n, false. by split_and!; try lia.
  - apply wp_ret. rewrite app_nil_r. eexists 0, _. rewrite Z.sub_0_r. split_and!; try done; try lia.
    + intros [_ [He|He]%orb_true_iff]%andb_true_iff; reflect_bools; split_and!; auto.
    + bcase; [lia | done].
Qed.

(** The connection after a change of its registration. *)
Definition registered (ch : change) (w : World W) : World W :=
  w <| conn := conn w <| channel_ := channel_ (conn w)
    <| events_ := apply_change ch (interest w) |> <| addedToLoop_ := true |> |> |>.

Lemma wp_channel_change C ch w Q :
  Q tt (registered ch w) [UpdateChannel (apply_change ch (interest w))] ->
  wp C (channel_change ch) w Q.
Proof.
  intros HQ. unfold channel_change, change_events, update. apply wp_then.
  eapply (wp_change_channel chan_of put_chan); [done|]. cbn [app].
  apply wp_then. eapply (wp_change_channel chan_of put_chan); [done|]. cbn [app].
  unfold loop_update. apply wp_then, wp_get, wp_emit. exact HQ.
Qed.

Lemma wp_queue_if C (b : bool) f d w : conn_wf d w -> functor_ok f -> f <> FConnectDestroyed ->
  wp C (if b then queueInLoop f else mret tt) w
    (fun _ w' es => conn_wf d w' /\ conn w' = conn w /\ es = []).
Proof.
  intros Hw Hf Hn. destruct b; [|by apply wp_ret].
  destruct (ok_queue d true f _ Hw Hf Hn) as (? & _). by apply wp_mod.
Qed.

Lemma writes_enable ev : events_ok ev -> writes (apply_change EnableWriting ev) = true.
Proof. intros H. by destruct (apply_change_flags EnableWriting ev H). Qed.

(** The output buffer grows; an idle channel is registered for writing. *)
Lemma wp_append d w rest : conn_wf d w -> disc w = false -> rest <> [] -> Z.of_nat (length rest) <= VECTOR_MAX ->
  wp too_big
    (do b <- lift (append (outputBuffer_ (conn w)) rest);
     do _ <- set_of (fun c => c <| outputBuffer_ := b |>);
     do wr <- isWriting_;
     if negb wr then channel_change EnableWriting else mret tt) w
    (fun _ w' es => conn_wf d w' /\ backlog w' = backlog w ++ rest /\ same_life w w' /\ reported w' = reported w /\ silent es).
Proof.
  intros Hw Hd Hrest Hmax.
  pose proof (append_holds _ _ rest (holds_backlog _ (cw_out _ _ Hw)) Hmax) as Ha.
  apply wp_then, wp_lift_crash. destruct (append _ _) as [b|c]; [|done]. destruct Ha as [Hbw Hbc].
  cbn [app]. apply wp_then, wp_mod, wp_then, wp_get. cbn [app].
  set (w2 := w <| conn := _ |>). assert (Hbl : backlog w2 = backlog w ++ rest) by exact Hbc.
  assert (Hne : backlog w ++ rest <> []) by (by intros [_ ?]%app_eq_nil).
  change (isWriting (channel_ (conn w2))) with (isWriting (channel_ (conn w))).
  rewrite (open_writing _ _ Hw Hd), negb_involutive.
  destruct Hw as [Hi Ho He Hs Hop Hcl Hp Hk]. destruct (Hop Hd) as [Had Hwr].
  case_bool_decide as Hempty.
  - apply wp_channel_change. split_and!; [|done|by constructor|done|apply silent_update].
    constructor; try done.
    + by apply apply_change_ok.
    + intros _. split; [done|]. change (backlog _) with (backlog w2). rewrite Hbl, bool_decide_false by done.
      by apply writes_enable.
    + intros Hx. change (disc _) with (disc w) in Hx. congruence.
    + change (disc (registered EnableWriting w2)) with (disc w).
      change (disc w2) with (disc w) in Hk. rewrite Hd in *. exact Hk.
  - apply wp_ret. split_and!; [|done|by constructor|done|apply silent_nil].
    constructor; try done.
    intros _. split; [done|]. change (interest w2) with (interest w). rewrite Hbl.
    by rewrite bool_decide_false.
Qed.

(** Data that joins the output buffer. *)
Lemma wp_send_rest d w n data : conn_wf d w -> disc w = false -> 0 <= n < Z.of_nat (length data) ->
  Z.of_nat (length data) <= VECTOR_MAX ->
  wp too_big (send_rest n (Z.of_nat (length data) - n) data) w (fun _ w' es =>
    conn_wf d w' /\ backlog w' = backlog w ++ drop (Z.to_nat n) data /\ same_life w w' /\ reported w' = reported w /\ silent es).
Proof.
  intros Hw Hd Hn Hmax. unfold send_rest. apply wp_then, wp_get. apply wp_then.
  eapply wp_mono; [by apply wp_queue_if|]. intros _ w1 es (Hw1 & Hc & ->). cbn [app]. unfold id. rewrite <- Hc.
  assert (Hrl : Z.of_nat (length (drop (Z.to_nat n) data)) = Z.of_nat (length data) - n)
    by (rewrite length_drop; lia).
  eapply wp_mono; [apply wp_append; [exact Hw1| | |lia]|].
  - unfold disc in *. by rewrite Hc.
  - intros He. rewrite He in Hrl. cbn in Hrl. lia.
  - intros _ w' es' (Hw' & Hb & [Hl1 Hl2] & Hv & Hs). unfold backlog, disc, added, reported in *. rewrite Hc in *.
    by split_and!.
Qed.

Lemma progress_silent w w' es : silent es -> backlog w' = backlog w -> same_life w w' ->
  reported w' = reported w -> progress w es w'.
Proof.
  intros [H1 H2 H3 H4 H5] Hb [Hd Ha] Hv. constructor; try done.
  - by rewrite H1, H2, Hb, app_nil_r.
  - intros _. by apply drained_silent.
  - by rewrite Hd.
  - rewrite H3, Hd. by destruct (disc w).
  - by rewrite H4, Ha.
Qed.

(** A message passes from the caller to the kernel and the output buffer. *)
Lemma progress_sent w w' data n es :
  es = (if 0 <? n then [Wrote (take (Z.to_nat n) data)] else []) \/ n = 0 /\ es = [] ->
  forall es', silent es' -> (0 < n -> backlog w = []) ->
    backlog w' = backlog w ++ drop (Z.to_nat n) data -> same_life w w' -> reported w' = reported w -> 0 <= n ->
    progress w (es ++ es' ++ [Sent data true]) w'.
Proof.
  intros Hes es' [H1 H2 H3 H4 H5] Hq Hb [Hd Ha] Hv Hn.
  assert (He : written es = take (Z.to_nat n) data /\ taken es = [] /\ ups es = [] /\ removes es = O /\
    ShutdownWrite ∉ es).
  { destruct Hes as [-> | [-> ->]].
    - bcase; cbn; rewrite ?app_nil_r; split_and!; try done; try set_solver.
      replace (Z.to_nat n) with O by lia. by rewrite take_0.
    - split_and!; try done. apply not_elem_of_nil. }
  destruct He as (E1 & E2 & E3 & E4 & E5). constructor; try done.
  - rewrite !written_app, !taken_app, E1, E2, H1, H2, Hb. cbn. rewrite !app_nil_r.
    destruct (decide (n = 0)) as [->|Hn0]; [done|]. rewrite Hq by lia. apply take_drop.
  - intros _. apply drained_silent. set_solver.
  - by rewrite Hd.
  - rewrite !ups_app, E3, H3, Hd. by destruct (disc w).
  - rewrite !removes_app, E4, H4, Ha. done.
Qed.

Lemma ok_sendInLoop d keep data w : conn_wf d w -> Z.of_nat (length data) <= VECTOR_MAX ->
  ok d keep (sendInLoop data) w.
Proof.
  intros Hw Hmax. apply ok_keep. unfold sendInLoop. apply ok_get.
  destruct (decide _) as [Hs|Hs]; [by apply ok_emit|]. apply open_state in Hs as Hd.
  apply wp_then. eapply wp_mono; [by apply wp_send_direct|].
  intros r w1 es (n & fault & -> & Hn & Hf & Hq & Hw1 & Hb1 & Hl1 & Hv1 & ->). cbv beta iota.
  assert (Hd1 : disc w1 = false) by (by rewrite (proj1 Hl1)).
  apply wp_then, wp_assert; [lia|]. cbn [app]. apply wp_then.
  destruct fault; cbn [negb andb].
  - destruct (Hf eq_refl) as [-> _]. apply wp_ret. cbn [app]. apply wp_emit. split_and!; [done| |done].
    apply progress_silent; [|done..]. constructor; try done. set_solver.
  - assert (Hrest : wp too_big (if 0 <? Z.of_nat (length data) - n then
        send_rest n (Z.of_nat (length data) - n) data else mret tt) w1 (fun _ w' es => conn_wf d w' /\
      backlog w' = backlog w1 ++ drop (Z.to_nat n) data /\ same_life w1 w' /\ reported w' = reported w1 /\ silent es)).
    { bcase; [apply wp_send_rest; auto; lia|]. apply wp_ret. split_and!; [done| |done|done|apply silent_nil].
      by rewrite drop_ge, app_nil_r by lia. }
    eapply wp_mono; [exact Hrest|]. intros _ w2 es2 (Hw2 & Hb2 & Hl2 & Hv2 & Hs2). apply wp_emit.
    pose proof (same_life_trans _ _ _ Hl1 Hl2) as Hl.
    split_and!; [done| |done].
    apply (progress_sent _ _ _ n); [by left | done | done | by rewrite Hb2, Hb1 | done | congruence | lia].
Qed.

(** ** The other calls *)

(** A call is sensible if its message fits memory and reading is not switched on
    or off after the end of the connection. *)
Definition api_ok (a : api) (closed : bool) : Prop :=
  match a with
  | Send data => Z.of_nat (length data) <= VECTOR_MAX
  | StartRead | StopRead => closed = false
  | _ => True
  end.

Lemma ok_set_input d keep (b : TcpConnection -> Buffer) w : conn_wf d w -> buffer_wf (b (conn w)) ->
  ok d keep (set_of (fun c => c <| inputBuffer_ := b c |>)) w.
Proof. intros [] Hb. by apply ok_mod. Qed.

Lemma ok_disconnecting d keep {B} (k : M (World W) act B) w : conn_wf d w -> disc w = false ->
  (forall w', conn_wf d w' -> disc w' = false -> same_life w w' -> ok d keep k w') ->
  ok d keep (do _ <- setState kDisconnecting; k) w.
Proof.
  intros Hw Hd Hk. apply wp_then, wp_mod. eapply wp_mono.
  - apply Hk; [|done..]. destruct Hw as [Hi Ho He Hs Hop Hcl Hp Hds]. constructor; try done.
    + intros _. by apply Hop.
    + rewrite Hd in Hds. exact Hds.
  - intros b w' es (Hw' & [P1 P2 P3 P4 P5 P6] & Hkp). split_and!; [done| |].
    + constructor; [exact P1 | intros _; by apply P2 | congruence | rewrite Hd; exact P4 | exact P5 | exact P6].
    + intros E. destruct (Hkp E) as [E1 E2]. split; [by rewrite E1, Hd | exact E2].
Qed.

Lemma closing_disc w d : conn_wf d w -> closing (state_ (conn w)) = negb (disc w).
Proof.
  intros [? ? ? Hs _ _ _ _]. unfold closing, disc, disconnected. destruct (state_ (conn w)); done.
Qed.

Lemma closed_not_writing d w : conn_wf d w -> disc w = true -> isWriting (channel_ (conn w)) = false.
Proof.
  intros Hw Hd. unfold isWriting. change (events_ (channel_ (conn w))) with (interest w).
  by rewrite (cw_closed _ _ Hw Hd).
Qed.

Lemma ok_shutdownInLoop d keep w : conn_wf d w -> ok d keep shutdownInLoop w.
Proof.
  intros Hw. apply ok_keep. unfold shutdownInLoop. apply ok_get.
  assert (Hp : (disc w = false -> backlog w = []) -> progress w [ShutdownWrite] w).
  { intros Hq. constructor; try done.
    - cbn. by rewrite app_nil_r.
    - intros Hd [|? es1] es2 He _; [by rewrite (Hq Hd) | by destruct es1].
    - by destruct (disc w). }
  destruct (disc w) eqn:Hd.
  - rewrite (closed_not_writing _ _ Hw Hd). apply wp_emit. split_and!; [done | by apply Hp | done].
  - rewrite (open_writing _ _ Hw Hd), negb_involutive. case_bool_decide as Hq; [|by apply ok_ret].
    apply wp_emit. split_and!; [done | by apply Hp | done].
Qed.

Lemma ok_shutdown d keep w : conn_wf d w -> ok d keep (shutdown true) w.
Proof.
  intros Hw. unfold shutdown. apply ok_get. destruct (decide _) as [Hs|Hs]; [|by apply ok_ret].
  apply ok_disconnecting; [done | apply open_state; congruence|]. intros w' Hw' _ _.
  by apply ok_shutdownInLoop.
Qed.

(** Only the registration changes. *)
Lemma ok_channel_change d keep ch w : conn_wf d w -> disc w = false -> match ch with EnableReading | DisableReading => True | _ => False end ->
  ok d keep (channel_change ch) w.
Proof.
  intros Hw Hd Hch. apply ok_keep, wp_channel_change. pose proof (apply_change_flags ch _ (cw_events _ _ Hw)) as [_ Hf].
  pose proof (apply_change_ok ch _ (cw_events _ _ Hw)) as Hok.
  destruct Hw as [Hi Ho He Hs Hop Hcl Hp Hds]. destruct (Hop Hd) as [Had Hwr]. split_and!; [| |done].
  - constructor; try done.
    + intros _. split; [done|]. change (writes (apply_change ch (interest w)) = negb (bool_decide (backlog w = []))).
      rewrite Hf, <- Hwr. by destruct ch.
    + intros Hx. change (disc _) with (disc w) in Hx. congruence.
    + change (disc (registered ch w)) with (disc w). rewrite Hd in *. exact Hds.
  - apply progress_silent; [apply silent_update | done | by constructor | done].
Qed.

Lemma ok_set_reading d keep b w : conn_wf d w -> ok d keep (set_of (fun c => c <| reading_ := b |>)) w.
Proof. intros []. by apply ok_mod. Qed.

Lemma ok_reading d keep (b : bool) ch b' w : conn_wf d w -> disc w = false ->
  match ch with EnableReading | DisableReading => True | _ => False end ->
  ok d keep (if b then (do _ <- channel_change ch; set_of (fun c => c <| reading_ := b' |>)) else mret tt) w.
Proof.
  intros Hw Hd Hch. destruct b; [|by apply ok_ret].
  apply ok_then; [by apply ok_channel_change|]. intros _ w' es Hw' _ _. by apply ok_set_reading.
Qed.

Lemma ok_timer d keep n w : conn_wf d w -> ok d keep (mmod (fun w => w <| delayed := n |>)) w.
Proof. intros []. by apply ok_mod. Qed.

Lemma ok_forceClose d keep w : conn_wf d w -> ok d keep forceClose w.
Proof.
  intros Hw. unfold forceClose. apply ok_get. rewrite (closing_disc w d Hw).
  destruct (disc w) eqn:Hd; cbn [negb]; [by apply ok_ret|].
  apply ok_disconnecting; [done..|]. intros w' Hw' _ _. by apply ok_queue.
Qed.

Lemma ok_send d keep b w : conn_wf d w -> forall data, Z.of_nat (length data) <= VECTOR_MAX -> ok d keep (send b data) w.
Proof.
  intros Hw data Hl. unfold send. apply ok_get. destruct (decide _); [|by apply ok_ret].
  destruct b; [by apply ok_sendInLoop | by apply ok_queue].
Qed.

Lemma contents_length b : buffer_wf b -> Z.of_nat (length (contents b)) <= VECTOR_MAX.
Proof.
  intros Hb. destruct (holds_layout _ _ (holds_backlog _ Hb)) as (pre & post & Hl).
  pose proof (ly_size _ _ _ _ Hl). lia.
Qed.

Lemma retrieveAll_wf b : buffer_wf b -> buffer_wf (retrieveAll b).
Proof. intros Hb. by destruct (retrieveAll_holds _ _ (holds_backlog _ Hb)). Qed.

Lemma ok_send_input d keep w : conn_wf d w -> ok d keep (send_input true) w.
Proof.
  intros Hw. unfold send_input. apply ok_get. destruct (decide _); [|by apply ok_ret]. apply ok_get.
  apply ok_then; [apply ok_sendInLoop; [done | apply contents_length, Hw]|].
  intros _ w' es Hw' _ _. apply ok_set_input; [done | apply retrieveAll_wf, Hw'].
Qed.

Lemma ok_call d a w : conn_wf d w -> api_ok a (disc w) -> ok d true (call true a) w.
Proof.
  intros Hw Ha. destruct a; cbn [call api_ok] in *.
  - by apply ok_send.
  - by apply ok_send_input.
  - apply ok_set_input; [done | apply retrieveAll_wf, Hw].
  - by apply ok_shutdown.
  - by apply ok_forceClose.
  - unfold forceCloseWithDelay. apply ok_get. rewrite (closing_disc w d Hw).
    destruct (disc w) eqn:Hd; cbn [negb]; [by apply ok_ret|].
    apply ok_disconnecting; [done..|]. intros w' [] _ _. by apply ok_mod.
  - unfold startRead, startReadInLoop. apply ok_get, ok_get. by apply ok_reading.
  - unfold stopRead, stopReadInLoop. apply ok_get, ok_get. by apply ok_reading.
Qed.

(** ** Callbacks *)

(** The application behaves: all its reactions are sensible calls. *)
Definition polite (u : Users) : Prop := forall c,
  let ok_list l := Forall (fun a => api_ok a (disconnected c)) l in
  ok_list (on_connection u c) /\ ok_list (on_message u c) /\ ok_list (on_writeComplete u c) /\
  forall n, ok_list (on_highWaterMark u c n).

Variable u : Users.
Hypothesis Hu : polite u.

Lemma ok_reactions d (reaction : TcpConnection -> list api) w :
  (forall c, Forall (fun a => api_ok a (disconnected c)) (reaction c)) -> conn_wf d w ->
  ok d true (do l <- conn_of reaction; for_ l (call true)) w.
Proof.
  intros Hr Hw. apply ok_get. apply (ok_for _ _ _ _ api_ok); [done | apply Hr|].
  intros a w' Hw' Ha. by apply ok_call.
Qed.

Lemma ok_callback d keep e reaction w :
  match e with MessageCb | WriteCompleteCb | HighWaterMarkCb _ => True | _ => False end ->
  (forall c, Forall (fun a => api_ok a (disconnected c)) (reaction c)) -> conn_wf d w ->
  ok d keep (callback e reaction) w.
Proof.
  intros He Hr Hw. apply ok_keep. unfold callback. apply ok_then; [apply ok_emit; [done | by destruct e]|].
  intros _ w' es Hw' _ _. by apply ok_reactions.
Qed.

(** ** The end of a connection *)

(** The state in which the end is announced. *)
Definition closed_state (w : World W) : World W :=
  registered DisableAll (w <| conn := conn w <| state_ := kDisconnected |> |>).

Lemma closed_state_wf d w : conn_wf d w -> disc w = false -> conn_wf 0 (closed_state w).
Proof.
  intros [Hi Ho He Hs Hop Hcl Hp Hds] Hd. constructor; try done; [by left|].
  rewrite Hd in Hds. exact Hds.
Qed.

Lemma wp_close {B} C (k : M (World W) act B) w Q :
  wp C k (closed_state w) (fun b w' es => Q b w' (UpdateChannel 0 :: es)) ->
  wp C (do _ <- setState kDisconnected; do _ <- channel_change DisableAll; k) w Q.
Proof. intros Hk. apply wp_then, wp_mod, wp_then, wp_channel_change. exact Hk. Qed.

Lemma wp_announce w : conn_wf 0 (closed_state w) -> disc w = false -> added w = true ->
  wp too_big (connectionCallback_ u) (closed_state w) (fun _ w' es =>
    conn_wf 0 w' /\ progress w (UpdateChannel 0 :: es) w' /\ disc w' = true /\ added w' = true).
Proof.
  intros Hw Hd Ha. unfold connectionCallback_, callback. apply wp_then, wp_get, wp_then, wp_emit.
  eapply wp_mono; [apply (ok_reactions 0); [apply Hu | done]|].
  intros _ w' es (Hw' & Hp & Hlife). destruct (Hlife eq_refl) as [L1 L2].
  split_and!; [done| |by rewrite L1|by rewrite L2].
  apply (progress_trans _ [UpdateChannel 0; ConnectionCb false] (closed_state w)); [|exact Hp].
  constructor; try done.
  - by rewrite app_nil_r.
  - intros _. apply drained_silent. set_solver.
  - by rewrite Hd.
  - unfold added in *. cbn. by rewrite Ha.
Qed.

(** [closeCallback_] schedules the destruction. *)
Lemma wf_destroy_queued w : conn_wf 0 w -> disc w = true -> added w = true ->
  conn_wf 1 (w <| pending := pending w ++ [FConnectDestroyed] |>).
Proof.
  intros [Hi Ho He Hs Hop Hcl Hp Hds] Hd Ha. constructor; try done.
  - apply Forall_app. split; [done|]. by apply Forall_singleton.
  - cbn [pending upd set_pending]. rewrite destroys_snoc, Hds.
    change (disc (w <| pending := _ |>)) with (disc w). change (added (w <| pending := _ |>)) with (added w).
    by rewrite Hd, Ha.
Qed.

Lemma wp_handleClose w : conn_wf 1 w -> disc w = false -> ok 1 false (handleClose u) w.
Proof.
  intros Hw Hd. unfold handleClose. apply ok_get, wp_then, wp_assert; [by rewrite (closing_disc _ _ Hw), Hd|].
  apply wp_close. apply wp_then. destruct (cw_open _ _ Hw Hd) as [Ha _].
  eapply wp_mono; [apply wp_announce; [by eapply closed_state_wf | done..]|].
  intros _ w1 es (Hw1 & Hp & Hd1 & Ha1). apply wp_then, wp_emit, wp_mod. split_and!; [| |done].
  - by apply wf_destroy_queued.
  - change (progress w ((UpdateChannel 0 :: es) ++ [CloseCb] ++ []) (w1 <| pending := pending w1 ++ [FConnectDestroyed] |>)).
    eapply progress_trans; [exact Hp|]. apply progress_silent; try done.
    constructor; try done. set_solver.
Qed.

Lemma chan_same (w : World W) c : chan_of w = Some c -> put_chan c w = w.
Proof. destruct w as [[] ? ? ?]. intros E. by injection E as <-. Qed.

(** The channel leaves the poller. *)
Lemma wp_remove w d : conn_wf 0 w -> disc w = true -> added w = true -> ok d false (remove chan_of put_chan loop_remove) w.
Proof.
  intros [Hi Ho He Hs Hop Hcl Hp Hds] Hd Ha. unfold remove. apply wp_then.
  eapply (wp_ask_channel chan_of put_chan); [exact chan_same | done |].
  apply wp_then, wp_assert.
  { unfold isNoneEvent. change (events_ (channel_ (conn w))) with (interest w). by rewrite (Hcl Hd). }
  cbn [app]. apply wp_then. eapply (wp_change_channel chan_of put_chan); [done|]. apply wp_emit.
  split_and!; [| |done].
  - constructor; try done.
    + change (disc _) with (disc w). congruence.
    + cbn [pending put_chan upd set_conn]. rewrite Hds.
      match goal with |- context [added ?x] => change (added x) with false end.
      rewrite andb_false_r. by destruct (disc w && added w).
  - constructor; try done.
    + cbn. by rewrite app_nil_r.
    + intros Hx. congruence.
    + change (disc (put_chan _ w)) with (disc w). by destruct (disc w).
    + unfold added in *. cbn. by rewrite Ha.
Qed.

Lemma wp_connectDestroyed w : (disc w = false /\ state_ (conn w) = kConnected /\ conn_wf 1 w) \/
    (disc w = true /\ added w = true /\ conn_wf 0 w) ->
  ok 1 false (connectDestroyed u) w.
Proof.
  intros [(Hd & Hs & Hw) | (Hd & Ha & Hw)]; unfold connectDestroyed; apply ok_get.
  - rewrite decide_True by done. apply wp_then, wp_close. destruct (cw_open _ _ Hw Hd) as [Ha _].
    eapply wp_mono; [apply wp_announce; [by eapply closed_state_wf | done..]|].
    intros ? w1 es (Hw1 & Hp & Hd1 & Ha1). eapply wp_mono; [by apply (wp_remove w1 1)|].
    intros ? w2 es2 (Hw2 & Hp2 & _). split_and!; [done| |done]. by eapply progress_trans.
  - rewrite decide_False.
    + apply wp_then, wp_ret. eapply wp_mono; [by apply (wp_remove w 1)|]. done.
    + intros Hs. unfold disc, disconnected in Hd. rewrite Hs in Hd. done.
Qed.

(** ** Reading *)

Lemma wp_handleRead rd w : conn_wf 1 w -> disc w = false ->
  (forall data, rd = Some data -> Z.of_nat (length data) <= VECTOR_MAX) -> ok 1 false (handleRead u rd) w.
Proof.
  intros Hw Hd Hrd. unfold handleRead. apply ok_get, ok_lift.
  assert (Hread : match readFd (inputBuffer_ (conn w)) rd with
    | Ok (n, b) => buffer_wf b | Crash c => c = LengthError end).
  { destruct rd as [data|]; [|apply Hw].
    pose proof (readFd_any _ _ data (holds_backlog _ (cw_in _ _ Hw)) (Hrd data eq_refl)) as Hr.
    destruct (readFd _ _) as [[n b]|c]; [apply Hr | done]. }
  destruct (readFd _ _) as [[n b]|c]; [|done].
  assert (Hset : ok 1 true (set_of (fun c => c <| inputBuffer_ := b |>)) w)
    by by apply (ok_set_input 1 true (fun _ => b)).
  apply wp_then. eapply wp_mono; [exact Hset|]. intros ? w1 es (Hw1 & Hp1 & Hl1).
  assert (Hd1 : disc w1 = false) by (by rewrite (proj1 (Hl1 eq_refl))).
  assert (Hrest : ok 1 false (if 0 <? n then callback MessageCb (on_message u)
      else if n =? 0 then handleClose u else handleError) w1).
  { bcase; [apply ok_callback; [done | intros c; apply Hu | done]|].
    bcase; [by apply wp_handleClose | by apply ok_emit]. }
  eapply wp_mono; [exact Hrest|]. intros ? w2 es2 (Hw2 & Hp2 & _).
  split_and!; [done | by eapply progress_trans | done].
Qed.

(** ** Writing *)

(** The kernel takes a prefix of the backlog. *)
Lemma progress_write w w' n : 0 < n -> backlog w' = drop (Z.to_nat n) (backlog w) -> same_life w w' ->
  reported w' = reported w -> progress w [Wrote (take (Z.to_nat n) (backlog w))] w'.
Proof.
  intros Hn Hb [Hd Ha] Hv. constructor; try done.
  - cbn. rewrite !app_nil_r, Hb. apply take_drop.
  - intros _. apply drained_silent. set_solver.
  - by rewrite Hd.
  - rewrite Hd. by destruct (disc w).
  - by rewrite Ha.
Qed.

(** The last bytes are out. *)
Lemma ok_drained w1 : state_ (conn w1) <> kConnecting -> disc w1 = false -> backlog w1 = [] ->
  conn_wf 1 (registered DisableWriting w1) -> added w1 = true ->
  ok 1 false
    (do _ <- channel_change DisableWriting;
     do c <- conn_of writeCompleteCallback_;
     do _ <- (if c : bool then queueInLoop FWriteComplete else mret tt);
     do s <- conn_of state_;
     if decide (s = kDisconnecting) then shutdownInLoop else mret tt) w1.
Proof.
  intros Hs Hd Hb Hw Ha. apply wp_then, wp_channel_change.
  assert (Hrest : ok 1 true (do c <- conn_of writeCompleteCallback_;
     do _ <- (if c : bool then queueInLoop FWriteComplete else mret tt);
     do s <- conn_of state_;
     if decide (s = kDisconnecting) then shutdownInLoop else mret tt) (registered DisableWriting w1)).
  { apply ok_get. apply ok_then.
    - destruct (writeCompleteCallback_ _); [by apply ok_queue | by apply ok_ret].
    - intros _ w2 es Hw2 _ _. apply ok_get. destruct (decide _); [by apply ok_shutdownInLoop | by apply ok_ret]. }
  eapply wp_mono; [exact Hrest|]. intros ? w2 es (Hw2 & Hp2 & _). split_and!; [done| |done].
  eapply progress_trans; [|exact Hp2]. apply progress_silent; try done. apply silent_update.
Qed.

Lemma wp_handleWrite w : conn_wf 1 w -> ok 1 false handleWrite w.
Proof.
  intros Hw. unfold handleWrite. apply ok_get.
  destruct (isWriting (channel_ (conn w))) eqn:Hwr; [|by apply ok_ret].
  assert (Hd : disc w = false).
  { destruct (disc w) eqn:Hd; [|done]. by rewrite (closed_not_writing _ _ Hw Hd) in Hwr. }
  apply ok_get, wp_then. unfold wp at 1, write. fold (backlog w).
  pose proof (sys_write_range (kernel w) (backlog w)) as Hr.
  destruct (sys_write _ _) as [[n errno] k]. cbv beta iota.
  assert (Hw1 : conn_wf 1 (w <| kernel := k |>)) by by destruct Hw.
  bcase; [|apply wp_ret; split_and!; [done | by apply progress_silent; [apply silent_nil|..] | done]].
  destruct (retrieve_holds _ _ n (holds_backlog _ (cw_out _ _ Hw)) ltac:(unfold backlog in *; lia)) as (b & Hret & Hbw & Hbc).
  apply wp_then, (wp_lift _ _ _ _ b Hret), wp_then, wp_mod. cbn [app].
  set (w2 := _ <| conn := _ |>).
  assert (Hp : progress w [Wrote (take (Z.to_nat n) (backlog w))] w2) by (by apply progress_write).
  rewrite (holds_readable _ _ (conj Hbw Hbc)). fold (backlog w).
  destruct Hw as [Hi Ho He Hs Hop Hcl Hpd Hds]. destruct (Hop Hd) as [Had Hwi].
  bcase.
  - assert (Hnil : drop (Z.to_nat n) (backlog w) = []) by (destruct (drop _ _); [done | cbn in *; lia]).
    assert (Hb2 : backlog w2 = []) by (transitivity (drop (Z.to_nat n) (backlog w)); [exact Hbc | done]).
    eapply wp_mono; [apply ok_drained; try done|].
    + constructor; try done.
      * by apply apply_change_ok.
      * intros _. split; [done|]. change (backlog _) with (backlog w2). rewrite Hb2.
        exact (proj2 (apply_change_flags DisableWriting _ He)).
      * intros Hx. change (disc _) with (disc w) in Hx. congruence.
      * change (disc (registered DisableWriting w2)) with (disc w). rewrite Hd in *. exact Hds.
    + intros ? w3 es (Hw3 & Hp3 & _). split_and!; [done| |done]. by eapply (progress_trans _ [_] w2).
  - apply wp_ret. split_and!; [|exact Hp|done]. constructor; try done.
    intros _. split; [done|]. change (interest w2) with (interest w). rewrite Hwi.
    unfold isWriting in Hwr. change (events_ (channel_ (conn w))) with (interest w) in Hwr.
    unfold writes in Hwi. rewrite Hwr in Hwi. rewrite <- Hwi. rewrite bool_decide_false; [done|].
    intros Hx. assert (Hnil : drop (Z.to_nat n) (backlog w) = []) by (transitivity (backlog w2); [symmetry; exact Hbc | done]).
    unfold backlog in *. by rewrite Hnil in *.
Qed.

(** ** Reported events *)

(** What [poll(2)] and [epoll_wait(2)] promise: besides errors and hang-ups only
    requested events are reported; and a connection that has hung up reads as
    end of file, so it is readable if reading is requested. *)
Definition revents_ok (ev rev : Z) : Prop :=
  Z.land rev (Z.lnot (Z.lor ev (Z.lor POLLERR (Z.lor POLLHUP POLLNVAL)))) = 0 /\
  (any_of rev POLLHUP = true -> reads ev = true -> any_of rev POLLIN = true).

Definition read_mask : Z := Z.lor (Z.lor POLLIN POLLPRI) POLLRDHUP.

(** So a hang-up without input reports nothing else that calls [handleRead]. *)
Lemma hup_no_read ev rev : events_ok ev -> revents_ok ev rev ->
  any_of rev POLLHUP && negb (any_of rev POLLIN) = true -> any_of rev read_mask = false.
Proof.
  intros Hev [Hsub Hin] [Hh Hni]%andb_true_iff. apply negb_true_iff in Hni.
  assert (Hr : reads ev = false) by (destruct (reads ev); [specialize (Hin Hh eq_refl); congruence | done]).
  assert (Hz : Z.land rev read_mask = 0).
  { assert (Hm : exists m, m = Z.lnot (Z.lor ev (Z.lor POLLERR (Z.lor POLLHUP POLLNVAL))) /\
      Z.land m read_mask = read_mask).
    { destruct Hev as [-> | [-> | [-> | ->]]]; try (by vm_compute in Hr); eexists; (split; [done | reflexivity]). }
    destruct Hm as (m & Hm & Hmm). rewrite <- Hm in Hsub. rewrite <- Hmm, Z.land_assoc, Hsub. apply Z.land_0_l. }
  unfold any_of. by rewrite Hz.
Qed.

Lemma ok_change_handling d keep b w : conn_wf d w ->
  ok d keep (change_channel chan_of put_chan (fun c => c <| eventHandling_ := b |>)) w.
Proof.
  intros []. apply ok_keep. eapply (wp_change_channel chan_of put_chan); [done|].
  apply (ok_quiet d w (put_chan _ w)); try done. intros [|? ?] ?; done.
Qed.

Lemma ok_ask {A B} d keep (f : Channel -> A) (k : A -> M (World W) act B) w :
  ok d keep (k (f (channel_ (conn w)))) w -> ok d keep (mthen (ask_channel chan_of put_chan f) k) w.
Proof.
  intros H. apply wp_then. eapply (wp_ask_channel chan_of put_chan); [exact chan_same | done|].
  eapply wp_mono; [exact H|]. done.
Qed.

(** The last part of the dispatch. *)
Lemma ok_dispatch_write w : conn_wf 1 w ->
  ok 1 false
    (do rev <- ask_channel chan_of put_chan revents_;
     do _ <- (if any_of rev POLLOUT then run (Some handleWrite) else mret tt);
     change_channel chan_of put_chan (fun c => c <| eventHandling_ := false |>)) w.
Proof.
  intros Hw. apply ok_ask, ok_then.
  - bcase; [by apply wp_handleWrite | by apply ok_ret].
  - intros ? w' es Hw' _ _. by apply ok_change_handling.
Qed.

Lemma ok_error_part d keep (b : bool) w : conn_wf d w ->
  ok d keep (if b then run (Some (handleError (W := W))) else mret tt) w.
Proof. intros Hw. destruct b; [by apply ok_emit | by apply ok_ret]. Qed.

(** The dispatch ends the connection at most once. *)
Lemma wp_dispatch rd w : conn_wf 1 w -> disc w = false -> revents_ok (interest w) (reported w) ->
  (forall data, rd = Some data -> Z.of_nat (length data) <= VECTOR_MAX) ->
  ok 1 false (handleEventWithGuard chan_of put_chan (conn_callbacks u rd) 0) w.
Proof.
  intros Hw Hd Hrev Hrd. pose proof (hup_no_read _ _ (cw_events _ _ Hw) Hrev) as Hno.
  apply ok_first; [by apply ok_change_handling|]. intros ? w1 es1 Hw1 Hp1 [Hd1 _]. rewrite Hd in Hd1.
  apply ok_ask. change (revents_ (channel_ (conn w1))) with (reported w1). rewrite (pg_reported _ _ _ Hp1).
  destruct (any_of (reported w) POLLHUP && _) eqn:Hhup.
  - apply ok_then; [by apply wp_handleClose|]. intros ? w2 es2 Hw2 Hp2 _. apply ok_ask.
    apply ok_then; [by apply ok_error_part|]. intros ? w3 es3 Hw3 Hp3 _. apply ok_ask.
    change (revents_ (channel_ (conn w3))) with (reported w3).
    rewrite (pg_reported _ _ _ Hp3), (pg_reported _ _ _ Hp2), (pg_reported _ _ _ Hp1).
    change (Z.lor _ POLLRDHUP) with read_mask. rewrite (Hno eq_refl).
    apply ok_then; [by apply ok_ret|]. intros ? w4 es4 Hw4 _ _. by apply ok_dispatch_write.
  - apply ok_first; [by apply ok_ret|]. intros ? w2 es2 Hw2 _ [Hd2 _]. apply ok_ask.
    apply ok_first; [by apply ok_error_part|]. intros ? w3 es3 Hw3 _ [Hd3 _]. apply ok_ask.
    apply ok_then.
    + bcase; [apply wp_handleRead; [done | congruence | done] | by apply ok_ret].
    + intros ? w4 es4 Hw4 _ _. by apply ok_dispatch_write.
Qed.

(** ** Steps *)

Definition event_ok (w : World W) (e : event) : Prop :=
  match e with
  | EvPoll revents rd =>
      added w = true /\ interest w <> 0 /\ revents_ok (interest w) revents /\
      forall data, rd = Some data -> Z.of_nat (length data) <= VECTOR_MAX
  | EvPending | EvTimer => True
  | EvCall inloop a => api_ok a (disc w) /\ (inloop = false -> a <> StartRead /\ a <> StopRead)
  | EvOwner => state_ (conn w) = kConnected
  end.

(** [progress], whatever was reported last. *)
Definition reporting (rev : Z) (w : World W) : World W := put_chan (set_revents rev (channel_ (conn w))) w.
Definition evolves (w : World W) (es : list act) (w' : World W) : Prop :=
  progress (reporting (reported w') w) es w'.

Lemma progress_reporting w es w' r : progress w es w' -> progress (reporting r w) es (reporting r w').
Proof. intros []. by constructor. Qed.

Lemma evolves_progress w es w' : progress w es w' -> evolves w es w'.
Proof. intros []. by constructor. Qed.

Lemma evolves_trans w es w1 es' w2 : evolves w es w1 -> evolves w1 es' w2 -> evolves w (es ++ es') w2.
Proof.
  unfold evolves. intros H1 H2. apply (progress_trans _ _ (reporting (reported w2) w1)); [|done].
  by apply (progress_reporting _ _ _ (reported w2)) in H1.
Qed.

Lemma destroys_cons_other f q : f <> FConnectDestroyed -> destroys (f :: q) = destroys q.
Proof. intros Hf. unfold destroys. by rewrite count_occ_cons_neq. Qed.

(** Taking a functor off the queue. *)
Lemma wf_pop w f q : conn_wf 1 w -> pending w = f :: q ->
  functor_ok f /\
  if decide (f = FConnectDestroyed)
  then conn_wf 0 (w <| pending := q |>) /\ disc w = true /\ added w = true
  else conn_wf 1 (w <| pending := q |>).
Proof.
  intros [Hi Ho He Hs Hop Hcl Hp Hds] Hq. rewrite Hq in *. apply Forall_cons in Hp as [Hf Hp].
  split; [done|]. destruct (decide _) as [->|Hn].
  - unfold destroys in Hds. rewrite count_occ_cons_eq in Hds by done. fold (destroys q) in Hds.
    destruct (disc w && added w) eqn:E; [|done]. apply andb_true_iff in E as [Ed Ea].
    split_and!; try done. constructor; try done. cbn [pending upd set_pending].
    match goal with |- _ = (if ?b then _ else _) => destruct b end; lia.
  - rewrite destroys_cons_other in Hds by done. by constructor.
Qed.

Lemma ok_functor f w : functor_ok f -> f <> FConnectDestroyed -> conn_wf 1 w ->
  ok 1 false (run_functor u f) w.
Proof.
  intros Hf Hn Hw. destruct f; try done; cbn [run_functor].
  - by apply ok_sendInLoop.
  - by apply ok_shutdownInLoop.
  - unfold forceCloseInLoop. apply ok_get. rewrite (closing_disc _ _ Hw).
    destruct (disc w) eqn:Hd; cbn [negb]; [by apply ok_ret | by apply wp_handleClose].
  - apply ok_callback; [done | intros c; apply Hu | done].
  - apply ok_callback; [done | intros c; apply Hu | done].
Qed.

(** The next functor uses a connection nobody holds. *)
Definition dangles (w : World W) (e : event) : Prop :=
  e = EvPending /\ alive w = false /\ exists f q, pending w = f :: q /\ raw f = true.

Lemma wp_step w e : conn_wf 1 w -> event_ok w e ->
  wp (fun c => too_big c \/ c = DeadObject /\ dangles w e) (step u e) w (fun _ w' es => conn_wf 1 w' /\ evolves w es w').
Proof.
  intros Hw He. destruct e as [rev rd| | |inloop a|]; cbn [step event_ok] in *.
  2:{ apply wp_then, wp_get. destruct (pending w) as [|f q] eqn:Hq.
    { apply wp_ret. split; [done|]. apply evolves_progress, progress_refl. }
    apply wp_then, wp_get. destruct (raw f && negb (alive w)) eqn:Hdead.
    { apply andb_true_iff in Hdead as [Hf Ha%negb_true_iff]. apply wp_crash. right. split; [done|].
      split_and!; [done..|]. by exists f, q. }
    apply (wp_weaken _ too_big); [by left|].
    apply wp_then, wp_mod. destruct (wf_pop _ _ _ Hw Hq) as [Hf Hpop].
    set (w0 := w <| pending := q |>) in *.
    assert (Hrun : ok 1 false (run_functor u f) w0).
    { destruct (decide _) as [->|Hn]; [|by apply ok_functor].
      destruct Hpop as (Hw0 & Hd0 & Ha0). apply wp_connectDestroyed. by right. }
    eapply wp_mono; [exact Hrun|]. intros ? w' es (Hw' & Hp & _). split; [done|]. cbn [app].
    apply evolves_progress. destruct Hp. by constructor. }
  all: apply (wp_weaken _ too_big); [by left|].
  - destruct He as (Ha & Hi & Hrev & Hrd). apply wp_then.
    eapply (wp_change_channel chan_of put_chan); [done|]. set (w0 := put_chan _ w).
    assert (Hw0 : conn_wf 1 w0) by by destruct Hw.
    assert (Hd0 : disc w0 = false).
    { change (disc w0) with (disc w). destruct (disc w) eqn:Hd; [|done]. by rewrite (cw_closed _ _ Hw Hd) in Hi. }
    assert (Hdis : ok 1 false (handleEvent chan_of put_chan (conn_callbacks u rd) 0) w0).
    { unfold handleEvent. apply ok_ask. destruct (tied_ _); [apply ok_ask; destruct (tie_ _)|];
        [by apply wp_dispatch | by apply ok_ret | by apply wp_dispatch]. }
    eapply wp_mono; [exact Hdis|]. intros ? w' es (Hw' & Hp & _). split; [done|]. cbn [app].
    unfold evolves. by rewrite (pg_reported _ _ _ Hp).
  - apply wp_then, wp_get. destruct (delayed w) as [|n].
    { apply wp_ret. split; [done|]. apply evolves_progress, progress_refl. }
    assert (Ht : ok 1 true (do _ <- mmod (fun w => w <| delayed := n |>); forceClose) w).
    { apply ok_then; [by apply ok_timer|]. intros ? w1 es Hw1 _ _. by apply ok_forceClose. }
    eapply wp_mono; [exact Ht|]. intros ? w' es (Hw' & Hp & _). split; [done|]. by apply evolves_progress.
  - assert (Hc : ok 1 true (call inloop a) w); [|eapply wp_mono; [exact Hc|]; intros ? w' es (Hw' & Hp & _);
      split; [done|]; by apply evolves_progress].
    destruct inloop; [apply ok_call; tauto|]. destruct He as [Ha Hn]. destruct (Hn eq_refl) as [Hn1 Hn2].
    destruct a; try (by apply (ok_call 1 _ w Hw Ha)); try done; cbn [call api_ok] in *.
    + by apply ok_send.
    + unfold send_input. apply ok_get. destruct (decide _); [|by apply ok_ret]. apply ok_get, ok_lift.
      pose proof (cw_in _ _ Hw) as Hin.
      destruct (retrieveAllAsString_holds _ _ (holds_backlog _ Hin)) as (b' & -> & Hb' & _).
      apply ok_then; [by apply (ok_set_input 1 true (fun _ => b'))|]. intros ? w1 es Hw1 _ _.
      apply ok_queue; [done | by apply contents_length | done].
    + unfold shutdown. apply ok_get. destruct (decide _) as [Hs|]; [|by apply ok_ret].
      apply ok_disconnecting; [done | apply open_state; congruence|]. intros w' Hw' _ _. by apply ok_queue.
  - eapply wp_mono; [apply wp_connectDestroyed; left|].
    + split_and!; [apply open_state; congruence | done | done].
    + intros ? w' es (Hw' & Hp & _). split; [done|]. by apply evolves_progress.
Qed.

(** ** Histories *)

(** A connection that was established, the events admitted by [may] that it has
    handled since, and the effects so far. *)
Inductive runs (may : World W -> event -> Prop) : World W -> list act -> Prop :=
  | reach_new fd wc hwm c k w es :
      new_TcpConnection fd wc hwm = Ok c ->
      connectEstablished u (mk_World c [] 0 k) = Ok (tt, w, es) ->
      runs may w es
  | reach_step w es e w' es' :
      runs may w es -> may w e -> step u e w = Ok (tt, w', es') -> runs may w' (es ++ es').

Definition reachable : World W -> list act -> Prop := runs event_ok.



Record history (w : World W) (es : list act) : Prop := {
  hs_stream : written es ++ backlog w = taken es;
  hs_drained : drained [] es;
  hs_ups : ups es = true :: if disc w then [false] else [];
  hs_removes : (removes es + Nat.b2n (added w) = 1)%nat
}.

Lemma history_step w es w' es' : history w es -> evolves w es' w' -> history w' (es ++ es').
Proof.
  intros [Hs Hd Hu' Hr] [Gs Gd Gc Gu Gr _].
  change (disc (reporting _ w)) with (disc w) in *. change (added (reporting _ w)) with (added w) in *.
  change (backlog (reporting _ w)) with (backlog w) in *. constructor.
  - by rewrite written_app, taken_app, <- (assoc_L (++)), Gs, (assoc_L (++)), Hs.
  - apply (drained_app _ (backlog w)); [done | done|]. intros Hn. apply Gd. destruct (disc w); [|done].
    rewrite Hu' in Hn. set_solver.
  - rewrite ups_app, Hu', Gu. destruct (disc w), (disc w'); naive_solver.
  - rewrite removes_app. lia.
Qed.

Lemma new_Buffer_empty : exists b, new_Buffer kInitialSize = Ok b /\ holds b [].
Proof.
  eexists. split; [reflexivity|]. split; [|reflexivity].
  constructor; unfold buffer_size, kCheapPrepend, VECTOR_MAX; simpl; lia.
Qed.

Lemma wp_connectEstablished fd wc hwm c k : new_TcpConnection fd wc hwm = Ok c ->
  wp too_big (connectEstablished u) (mk_World c [] 0 k) (fun _ w es => conn_wf 1 w /\ history w es /\ disc w = false).
Proof.
  destruct new_Buffer_empty as (b & Hb & Hbw & Hbc). unfold new_TcpConnection. rewrite Hb. cbn [bind].
  intros E. injection E as <-. unfold connectEstablished. apply wp_then, wp_get, wp_then, wp_assert; [done|].
  cbn [app]. apply wp_then, wp_mod, wp_then.
  eapply (wp_change_channel chan_of put_chan); [done|]. apply wp_then, wp_channel_change. cbn [app].
  set (w0 := registered _ _). assert (Hw0 : conn_wf 1 w0).
  { constructor; try done; [by right; left|]. intros _. split; [done|]. unfold backlog. cbn. by rewrite Hbc. }
  unfold connectionCallback_, callback. apply wp_then, wp_get, wp_then, wp_emit.
  eapply wp_mono; [apply (ok_reactions 1); [apply Hu | done]|].
  intros ? w es (Hw & Hp & Hl). split; [done|]. destruct (Hl eq_refl) as [Hd Ha]. split; [|exact Hd].
  destruct Hp as [Gs Gd Gc Gu Gr _]. change (disc w0) with false in *. change (added w0) with true in *.
  change (connected (conn w0)) with true.
  assert (Hb0 : backlog w0 = []) by exact Hbc. rewrite Hb0 in *. constructor.
  - exact Gs.
  - apply (drained_app [] [] [UpdateChannel 3; ConnectionCb true]); [apply drained_silent; set_solver | done|].
    intros _. by apply Gd.
  - rewrite Hd in *. change (ups _) with (true :: ups es). by rewrite Gu.
  - rewrite Ha. change (removes _) with (removes es). rewrite Ha in Gr. exact Gr.
Qed.

Lemma reachable_ok w es : reachable w es -> conn_wf 1 w /\ history w es.
Proof.
  induction 1 as [fd wc hwm c k w es Hc He | w es e w' es' _ [Hw Hh] Hev Hst].
  - pose proof (wp_connectEstablished _ _ _ _ k Hc) as H. unfold wp in H. rewrite He in H. tauto.
  - pose proof (wp_step _ _ Hw Hev) as H. unfold wp in H. rewrite Hst in H. destruct H as [Hw' Hp].
    split; [done | by eapply history_step].
Qed.

Lemma sendInLoop_takes w data : conn_wf 1 w -> disc w = false -> Z.of_nat (length data) <= VECTOR_MAX ->
  wp too_big (sendInLoop data) w (fun _ w' es =>
    taken es = data \/ taken es = [] /\ backlog w = [] /\ peer_gone (kernel w) data).
Proof.
  intros Hw Hd Hmax. unfold sendInLoop. apply wp_then, wp_get.
  rewrite decide_False by by apply open_state.
  apply wp_then. eapply wp_mono; [by apply wp_send_direct|].
  intros r w1 es (n & fault & -> & Hn & Hf & Hq & Hw1 & Hb1 & Hl1 & Hv1 & ->). cbv beta iota.
  apply wp_then, wp_assert; [lia|]. cbn [app]. apply wp_then. destruct fault; cbn [negb andb].
  - destruct (Hf eq_refl) as (-> & Hb & Hg). apply wp_ret. cbn [app]. apply wp_emit. by right.
  - assert (Hd1 : disc w1 = false) by (by rewrite (proj1 Hl1)).
    assert (Hs : wp too_big (if 0 <? Z.of_nat (length data) - n then
        send_rest n (Z.of_nat (length data) - n) data else mret tt) w1 (fun _ _ es => taken es = [])).
    { bcase; [|by apply wp_ret]. eapply wp_mono; [apply wp_send_rest; [done | done | lia | done]|].
      intros ? ? ? (_ & _ & _ & _ & Hs). apply Hs. }
    eapply wp_mono; [exact Hs|]. intros ? w2 es2 Hs2. apply wp_emit. left.
    rewrite !taken_app, Hs2. cbn. rewrite app_nil_r. by bcase.
Qed.
(** ** Lifetime *)












































End invariant.

(** ** Properties *)


(** C7.  The life of a connection: the application hears once that it is up,
    and at most once that it is down - exactly when the state has become
    [kDisconnected].  From then on the channel asks for no events, and exactly
    one [connectDestroyed] is queued until the channel has left the poller, which
    happens once.  This is about the histories of [reachable]: messages fit the
    address space, the poller reports only channels that ask for events, [startRead] and [stopRead] are called (by the callbacks,
    [polite], and from outside, [event_ok]) in the loop's thread and not after
    the end of the connection - a later [startRead] registers the channel again,
    [startRead_after_close] - and the server is destroyed only while the
    connection is [kConnected]. *)
Theorem tcp_connection_life {W} `{!Kernel W, !KernelLaws W} (u : Users) (w : World W) es :
  polite u -> reachable u w es ->
  ups es = true :: (if disc w then [false] else []) /\
  (disc w = true -> interest w = 0) /\
  destroys (pending w) = (if disc w && added w then 1 else 0)%nat /\
  (removes es + Nat.b2n (added w) = 1)%nat.
Proof.
  intros Hu Hr. destruct (reachable_ok u Hu _ _ Hr) as [Hw Hh].
  split_and!; [apply Hh | apply Hw | apply Hw | apply Hh].
Qed.

(** C6.  The byte stream: what the kernel has been given followed by the output
    buffer is exactly the concatenation of the messages [sendInLoop] has taken;
    a message for a connection that is not closed is taken whole, or dropped
    whole because the kernel answered that the peer is gone.  As long as the
    connection is open the channel waits for writability exactly when bytes are
    left, so none is forgotten, and the write side is only shut down when
    everything taken has been written. *)
Theorem tcp_connection_stream {W} `{!Kernel W, !KernelLaws W} (u : Users) (w : World W) es data :
  polite u -> reachable u w es -> Z.of_nat (length data) <= VECTOR_MAX ->
  written es ++ backlog w = taken es /\
  (disc w = false -> writes (interest w) = negb (bool_decide (backlog w = []))) /\
  drained [] es /\
  (disc w = false -> forall w' es', sendInLoop data w = Ok (tt, w', es') ->
     taken es' = data \/ taken es' = [] /\ backlog w = [] /\ peer_gone (kernel w) data).
Proof.
  intros Hu Hr Hl. destruct (reachable_ok u Hu _ _ Hr) as [Hw Hh].
  split_and!; [apply Hh | intros Hd; by apply Hw | apply Hh|].
  intros Hd w' es' Hs. pose proof (sendInLoop_takes _ data Hw Hd Hl) as H. unfold wp in H. by rewrite Hs in H.
Qed.

(** ** A concrete connection *)

(** A kernel whose socket takes four bytes at a time. *)
#[local] Instance slow_kernel : Kernel unit := fun w data => (Z.min 4 (Z.of_nat (length data)), 0, w).
#[local] Instance slow_kernel_laws : KernelLaws unit.
Proof. intros w data. cbn. lia. Qed.

Definition demo_message : bytes := map z2b [1; 2; 3; 4; 5; 6].

(** An application that greets and shuts down. *)
Definition greeter : Users := {|
  on_connection := fun c => if connected c then [Send demo_message; Shutdown] else [];
  on_message := fun _ => [SendInput];
  on_writeComplete := fun _ => [];
  on_highWaterMark := fun _ _ => [] |}.

Lemma greeter_polite : polite greeter.
Proof.
  intros c. split_and!; try (by repeat constructor). cbn. destruct (connected c); repeat constructor.
  by vm_compute.
Qed.

Definition blank_conn : TcpConnection := {|
  state_ := kConnecting; reading_ := true; channel_ := new_Channel 7; writeCompleteCallback_ := true;
  highWaterMarkCallback_ := true; highWaterMark_ := 64 * 1024 * 1024;
  inputBuffer_ := {| buffer_ := []; readerIndex_ := 0; writerIndex_ := 0 |};
  outputBuffer_ := {| buffer_ := []; readerIndex_ := 0; writerIndex_ := 0 |} |}.
Definition demo_conn : TcpConnection :=
  match new_TcpConnection 7 true true with Ok c => c | Crash _ => blank_conn end.
Definition established (u : Users) : World unit :=
  match connectEstablished u (mk_World demo_conn [] 0 tt) with
  | Ok (_, w, _) => w
  | Crash _ => mk_World blank_conn [] 0 tt
  end.
Definition demo_world : World unit := established greeter.
Definition demo_acts : list act :=
  [UpdateChannel 3; ConnectionCb true; Wrote (take 4 demo_message); UpdateChannel 7; Sent demo_message true].

Lemma demo_conn_runs may : runs greeter may demo_world demo_acts.
Proof. apply (reach_new greeter may 7 true true demo_conn tt); vm_compute; reflexivity. Qed.

Lemma demo_conn_reachable : reachable greeter demo_world demo_acts.
Proof. apply demo_conn_runs. Qed.

(** The socket is writable. *)
Definition demo_event : event := EvPoll POLLOUT None.




Lemma tcp_connection_life_witness :
  reachable greeter demo_world demo_acts /\ ups demo_acts = [true] /\ disc demo_world = false.
Proof.
  split; [exact demo_conn_reachable|].
  destruct (tcp_connection_life greeter demo_world demo_acts greeter_polite demo_conn_reachable) as (Hup & _).
  split; [by rewrite Hup; vm_compute | vm_compute; reflexivity].
Defined.

Lemma tcp_connection_stream_witness :
  reachable greeter demo_world demo_acts /\ backlog demo_world = drop 4 demo_message /\
  written demo_acts ++ backlog demo_world = demo_message.
Proof.
  split; [exact demo_conn_reachable|]. split; [vm_compute; reflexivity|].
  destruct (tcp_connection_stream greeter demo_world demo_acts [] greeter_polite demo_conn_reachable ltac:(vm_compute; discriminate))
    as (Hs & _). rewrite Hs. vm_compute. reflexivity.
Defined.

(** Once the socket is writable the rest goes out, the channel stops waiting for
    it, and the pending shutdown is carried out. *)
Example demo_drains :
  exists w', step greeter demo_event demo_world =
    Ok (tt, w', [Wrote (drop 4 demo_message); UpdateChannel 3; ShutdownWrite]) /\ backlog w' = [].
Proof.
  exists (match step greeter demo_event demo_world with Ok (_, w, _) => w | Crash _ => demo_world end).
  split; vm_compute; reflexivity.
Qed.

(** ** What the excluded calls do *)

Definition silent_user : Users := {|
  on_connection := fun _ => []; on_message := fun _ => [];
  on_writeComplete := fun _ => []; on_highWaterMark := fun _ _ => [] |}.
Definition state_after {A} (m : M (World unit) act A) (w : World unit) : World unit :=
  match m w with Ok (_, w', _) => w' | Crash _ => w end.

(** An application that answers the end of a connection with [startRead]: the
    channel is registered again and its removal fails. *)
Definition restarter : Users := {|
  on_connection := fun c => if connected c then [] else [StartRead];
  on_message := fun _ => []; on_writeComplete := fun _ => []; on_highWaterMark := fun _ _ => [] |}.

Definition restarted : World unit :=
  match step restarter (EvPoll POLLIN (Some [])) (established restarter) with
  | Ok (_, w, _) => w
  | Crash _ => established restarter
  end.

Lemma startRead_after_close : exists es es',
  reachable restarter (established restarter) es /\
  step restarter (EvPoll POLLIN (Some [])) (established restarter) = Ok (tt, restarted, es') /\
  step restarter EvPending restarted = Crash AssertFailed.
Proof.
  exists [UpdateChannel 3; ConnectionCb true], [UpdateChannel 0; ConnectionCb false; UpdateChannel 3; CloseCb].
  split; [apply (reach_new restarter event_ok 7 true true demo_conn tt) | split]; vm_compute; reflexivity.
Qed.

(** [stopRead] takes the channel out of epoll's interest list and the end of the
    connection puts it back, for no events ([disabled_again_watched] of
    [PollPoller.v]): a hang-up that is reported before [connectDestroyed] has run
    ends a connection that has ended. *)
Definition after_events {W} `{!Kernel W} (u : Users) (es : list event) (w : World W) : outcome (World W * list act) :=
  foldl (fun o e => bind o (fun '(w, acts) => bind (step u e w) (fun '(_, w', acts') => Ok (w', acts ++ acts')))) (Ok (w, [])) es.

Definition stopped_events : list event := [EvCall true StopRead; EvCall true ForceClose; EvPending].

Lemma hangup_after_close_fails : exists w acts,
  after_events silent_user stopped_events (established silent_user) = Ok (w, acts) /\
  reachable silent_user w ([UpdateChannel 3; ConnectionCb true] ++ acts) /\
  interest w = 0 /\ added w = true /\ step silent_user (EvPoll POLLHUP None) w = Crash AssertFailed.
Proof.
  do 2 eexists. split; [vm_compute; reflexivity|]. split; [|by vm_compute].
  apply (reach_step _ _ (state_after (step silent_user (EvCall true ForceClose))
    (state_after (step silent_user (EvCall true StopRead)) (established silent_user)))
    ([UpdateChannel 3; ConnectionCb true; UpdateChannel 0]) EvPending); [|done|vm_compute; reflexivity].
  apply (reach_step _ _ (state_after (step silent_user (EvCall true StopRead)) (established silent_user))
    ([UpdateChannel 3; ConnectionCb true; UpdateChannel 0]) (EvCall true ForceClose) _ []); [|done|vm_compute; reflexivity].
  apply (reach_step _ _ (established silent_user) [UpdateChannel 3; ConnectionCb true] (EvCall true StopRead));
    [|done|vm_compute; reflexivity].
  apply (reach_new silent_user event_ok 7 true true demo_conn tt); vm_compute; reflexivity.
Qed.

(** A server that is destroyed while a connection is shutting down: the
    connection is neither connected nor disconnected, so its channel is removed
    although it still waits for input. *)
Lemma server_destroyed_while_disconnecting : exists w es,
  reachable greeter w es /\ step greeter EvOwner w = Crash AssertFailed.
Proof. exists demo_world, demo_acts. split; [exact demo_conn_reachable | vm_compute; reflexivity]. Qed.

(** A server that is destroyed while a message of another thread is queued: the
    functor holds only [this], nobody holds the connection, and it is used. *)
Definition queued_send : World unit := state_after (step silent_user (EvCall false (Send demo_message))) (established silent_user).
Definition orphaned : World unit := state_after (step silent_user EvOwner) queued_send.

Lemma server_destroyed_over_send : exists es,
  reachable silent_user orphaned es /\ step silent_user EvPending orphaned = Crash DeadObject.
Proof.
  exists (([UpdateChannel 3; ConnectionCb true] ++ []) ++ [UpdateChannel 0; ConnectionCb false; RemoveChannel]).
  split; [|vm_compute; reflexivity].
  apply (reach_step _ _ queued_send _ EvOwner); [|vm_compute; reflexivity..].
  apply (reach_step _ _ (established silent_user) _ (EvCall false (Send demo_message)));
    [apply (reach_new silent_user event_ok 7 true true demo_conn tt) | |]; try (vm_compute; reflexivity).
  split; [by vm_compute | done].
Qed.
