(* ===== verification/Monitor.v ===== *)
(** * Mutexes and condition variables ([muduo/base/Mutex.h], [Condition.h])

    A class with a mutex and condition variables is a monitor: its methods take
    the mutex, wait in a loop for a condition, run a critical section, notify and
    release the mutex.  This file models the threads that call such methods as
    an executable transition system on the state the mutex protects and the
    position of every thread; all interleavings, the choice of the thread that
    [pthread_cond_signal] wakes and spurious wakeups are labels.  The theorems
    hold for any class: mutual exclusion, every run is equivalent to the
    sequence of its critical sections, no wakeup is lost when notifications
    keep up with what they announce, and every call returns or waits for a
    condition that does not hold.  [BlockingQueue.v], [ThreadPool.v] and
    [EventLoopThread.v] are clients. *)

From S2P Require Import Prelude.
#[local] Open Scope nat_scope.

Section monitor.
Context {Sh C Op R Role : Type} `{!EqDecision C}.

Inductive notification := Notify (c : C) | NotifyAll (c : C).

(** A class: the condition variable a method waits on in a shared state, its
    critical section once it need not wait, and what its callers do: the calls
    a thread makes, what it is after a call, and its steps without the mutex,
    which may depend on the other threads ([join]). *)
Record class := Class_ {
  waits_for : Op -> Sh -> option C;
  critical : Op -> Sh -> outcome (Sh * R * list notification);
  may_call : Sh -> Role -> Op -> bool;
  returned : Role -> Op -> R -> Role;
  moves : Sh -> list Role -> Role -> list Role
}.

(** Where a thread is: outside the class; in [pthread_mutex_lock]; the holder
    of the mutex; in [pthread_cond_wait], asleep or to take the mutex again. *)
Inductive position :=
  | Idle
  | Entering (op : Op)
  | Inside (op : Op)
  | Sleeping (c : C) (op : Op)
  | Signalled (op : Op).

Record thread := Thread { role : Role; pos : position }.

Record monitor := Monitor {
  holder_ : option nat;                 (* MutexLock::holder_ *)
  shared : Sh;
  threads : list thread;
  history : list (nat * Op * R)         (* the calls that returned, oldest first *)
}.

Context (K : class).

Definition sleeps_on (c : C) (th : thread) : bool :=
  match pos th with Sleeping d _ => bool_decide (c = d) | _ => false end.

(** [pthread_cond_signal] and [pthread_cond_broadcast]. *)
Definition wake (th : thread) : thread :=
  match pos th with Sleeping _ op => Thread (role th) (Signalled op) | _ => th end.
Definition wake_all (c : C) (ts : list thread) : list thread :=
  (fun th => if sleeps_on c th then wake th else th) <$> ts.

(** The effect of a list of notifications: [choices] says which sleeper each
    [notify] wakes; it may wake nobody only if nobody sleeps. *)
Fixpoint deliver (ns : list notification) (choices : list (option nat))
    (ts : list thread) : option (list thread) :=
  match ns with
  | [] => Some ts
  | NotifyAll c :: ns => deliver ns choices (wake_all c ts)
  | Notify c :: ns =>
      match choices with
      | Some t :: choices =>
          match ts !! t with
          | Some th =>
              if sleeps_on c th then deliver ns choices (<[t := wake th]> ts) else None
          | None => None
          end
      | None :: choices =>
          if existsb (sleeps_on c) ts then None else deliver ns choices ts
      | [] => None
      end
  end.

(** [MutexLock::lock] and [unlock]: the mutex and the thread that holds it. *)
Definition lock (t : nat) (h : option nat) : option (option nat) :=
  match h with None => Some (Some t) | Some _ => None end.
Definition unlock (h : option nat) : option nat := None.

(** The thread that holds the mutex evaluates the condition of its loop: it
    calls [Condition::wait], which releases the mutex, or it runs the critical
    section and releases the mutex. *)
Definition go (t : nat) (rl : Role) (op : Op) (choices : list (option nat))
    (s : monitor) : option (outcome monitor) :=
  match waits_for K op (shared s) with
  | Some c =>
      Some (Ok (Monitor (unlock (holder_ s)) (shared s)
                  (<[t := Thread rl (Sleeping c op)]> (threads s)) (history s)))
  | None =>
      match critical K op (shared s) with
      | Crash e => Some (Crash e)
      | Ok (sh, r, ns) =>
          ts ← deliver ns choices (<[t := Thread (returned K rl op r) Idle]> (threads s));
          Some (Ok (Monitor (unlock (holder_ s)) sh ts (history s ++ [(t, op, r)])))
      end
  end.

Inductive label :=
  | LCall (t : nat) (op : Op)                      (* a call begins *)
  | LMove (t : nat) (rl : Role)                    (* a step without the mutex *)
  | LLock (t : nat)                                (* the mutex is acquired *)
  | LGo (t : nat) (choices : list (option nat))    (* what its holder does *)
  | LSpurious (t : nat).                           (* a spurious wakeup *)

Section exec.
Context `{!EqDecision Role}.

Definition exec (l : label) (s : monitor) : option (outcome monitor) :=
  let set_thread t th :=
    Some (Ok (Monitor (holder_ s) (shared s) (<[t := th]> (threads s)) (history s))) in
  match l with
  | LCall t op =>
      match threads s !! t with
      | Some (Thread rl Idle) =>
          if may_call K (shared s) rl op then set_thread t (Thread rl (Entering op)) else None
      | _ => None
      end
  | LMove t rl' =>
      match threads s !! t with
      | Some (Thread rl Idle) =>
          if bool_decide (rl' ∈ moves K (shared s) (role <$> threads s) rl)
          then set_thread t (Thread rl' Idle) else None
      | _ => None
      end
  | LLock t =>
      match threads s !! t with
      | Some (Thread rl (Entering op)) | Some (Thread rl (Signalled op)) =>
          h ← lock t (holder_ s);
          Some (Ok (Monitor h (shared s) (<[t := Thread rl (Inside op)]> (threads s))
                      (history s)))
      | _ => None
      end
  | LGo t choices =>
      match threads s !! t with
      | Some (Thread rl (Inside op)) => go t rl op choices s
      | _ => None
      end
  | LSpurious t =>
      match threads s !! t with
      | Some th =>
          match pos th with Sleeping _ _ => set_thread t (wake th) | _ => None end
      | None => None
      end
  end.

Definition internal (l : label) : bool :=
  match l with LLock _ | LGo _ _ => true | _ => false end.

Definition start (sh : Sh) (roles : list Role) : monitor :=
  Monitor None sh ((fun rl => Thread rl Idle) <$> roles) [].

Inductive steps : monitor -> list label -> monitor -> Prop :=
  | steps_nil s : steps s [] s
  | steps_cons s l s' ls s'' :
      exec l s = Some (Ok s') -> steps s' ls s'' -> steps s (l :: ls) s''.

Lemma steps_trans s1 ls1 s2 ls2 s3 :
  steps s1 ls1 s2 -> steps s2 ls2 s3 -> steps s1 (ls1 ++ ls2) s3.
Proof. induction 1; simpl; [done|]. intros. econstructor; eauto. Qed.
Lemma steps_one s l s' : exec l s = Some (Ok s') -> steps s [l] s'.
Proof. intros. econstructor; [done|constructor]. Qed.

(** The steps as a function. *)
Fixpoint run (ls : list label) (s : monitor) : option monitor :=
  match ls with
  | [] => Some s
  | l :: ls => match exec l s with Some (Ok s') => run ls s' | _ => None end
  end.
Lemma run_steps ls s s' : run ls s = Some s' -> steps s ls s'.
Proof.
  revert s. induction ls as [|l ls IH]; intros s; simpl; [intros [= ->]; constructor|].
  destruct (exec l s) as [[s1|]|] eqn:H; [|done..]. intros ?%IH. by econstructor.
Qed.

(** A property of the state that every step keeps holds in every state that
    can be reached. *)
Lemma steps_invariant (I : monitor -> Prop) s ls s' :
  (forall s l s', I s -> exec l s = Some (Ok s') -> I s') -> I s -> steps s ls s' -> I s'.
Proof. intros Hstep HI. induction 1; eauto. Qed.

(** ** Counting threads *)

Definition count (P : thread -> bool) (ts : list thread) : nat :=
  list_sum ((fun th => Nat.b2n (P th)) <$> ts).

Lemma count_insert P ts t th th' :
  ts !! t = Some th ->
  count P (<[t := th']> ts) + Nat.b2n (P th) = count P ts + Nat.b2n (P th').
Proof.
  unfold count. revert t. induction ts as [|x ts IH]; intros [|t]; csimpl; [done..| |].
  - intros [= ->]. lia.
  - intros Hts%IH. lia.
Qed.

Lemma count_zero P ts :
  count P ts = 0 <-> forall t th, ts !! t = Some th -> P th = false.
Proof.
  unfold count. induction ts as [|x ts IH]; csimpl; [done|]. split.
  - intros Hc [|t] th; csimpl; [intros [= ->]; by destruct (P th)|].
    apply IH. lia.
  - intros Hall. rewrite (Hall 0 x eq_refl). simpl.
    apply IH. intros t th. apply (Hall (S t)).
Qed.

Lemma count_existsb P ts : existsb P ts = false -> count P ts = 0.
Proof.
  unfold count. induction ts as [|x ts IH]; csimpl; [done|].
  intros [-> ?]%orb_false_iff. auto.
Qed.

Lemma count_mono P Q ts :
  (forall th, P th = true -> Q th = true) -> count P ts <= count Q ts.
Proof.
  intros HPQ. unfold count. induction ts as [|x ts IH]; csimpl; [lia|].
  specialize (HPQ x). destruct (P x), (Q x); csimpl; lia || (by discriminate HPQ) || idtac.
Qed.

(** ** What notifications do to the threads *)

(** Some sleepers of [ts] have been woken. *)
Definition woken : list thread -> list thread -> Prop :=
  Forall2 (fun th th' => th' = th \/ th' = wake th).

Lemma wake_wake th : wake (wake th) = wake th.
Proof. by destruct th as [? []]. Qed.
Lemma wake_role th : role (wake th) = role th.
Proof. by destruct th as [? []]. Qed.

Lemma woken_refl ts : woken ts ts.
Proof. induction ts; constructor; auto. Qed.
Lemma woken_trans ts1 ts2 ts3 : woken ts1 ts2 -> woken ts2 ts3 -> woken ts1 ts3.
Proof.
  intros H12. revert ts3.
  induction H12 as [|x y l k Hxy _ IH]; intros ts3.
  - intros ->%Forall2_nil_inv_l. constructor.
  - intros (z & m & Hyz & Hm & ->)%Forall2_cons_inv_l. constructor; [|by apply IH].
    destruct Hxy as [->| ->], Hyz as [->| ->]; rewrite ?wake_wake; auto.
Qed.
Lemma woken_insert ts t th : ts !! t = Some th -> woken ts (<[t := wake th]> ts).
Proof.
  revert t. induction ts as [|x ts IH]; intros [|t]; [done..| |].
  - intros [= ->]. constructor; [auto|apply woken_refl].
  - intros Ht. constructor; [auto|]. by apply IH.
Qed.
Lemma woken_all c ts : woken ts (wake_all c ts).
Proof. induction ts; constructor; [case_match; auto|done]. Qed.

Lemma deliver_woken ns ws ts ts' : deliver ns ws ts = Some ts' -> woken ts ts'.
Proof.
  revert ws ts. induction ns as [|[c|c] ns IH]; intros ws ts; simpl.
  - intros [= ->]. apply woken_refl.
  - destruct ws as [|[t|] ws]; [done| |].
    + destruct (ts !! t) as [th|] eqn:Hth; [|done]. destruct (sleeps_on c th); [|done].
      intros ?%IH. by eapply woken_trans; [apply woken_insert|].
    + destruct (existsb _ ts); [done|]. apply IH.
  - intros ?%IH. by eapply woken_trans; [apply woken_all|].
Qed.

Lemma woken_lookup ts ts' t th' :
  woken ts ts' -> ts' !! t = Some th' ->
  exists th, ts !! t = Some th /\ (th' = th \/ th' = wake th).
Proof. intros H Ht. by destruct (Forall2_lookup_r _ _ _ _ _ H Ht) as (th & ? & ?); eauto. Qed.
Lemma woken_lookup_l ts ts' t th :
  woken ts ts' -> ts !! t = Some th ->
  exists th', ts' !! t = Some th' /\ (th' = th \/ th' = wake th).
Proof. intros H Ht. by destruct (Forall2_lookup_l _ _ _ _ _ H Ht) as (th' & ? & ?); eauto. Qed.
Lemma woken_length ts ts' : woken ts ts' -> length ts' = length ts.
Proof. intros H. symmetry. eapply Forall2_length, H. Qed.
Lemma woken_roles ts ts' : woken ts ts' -> role <$> ts' = role <$> ts.
Proof.
  induction 1 as [|x y l k Hxy _ IH]; csimpl; [done|]. rewrite IH.
  destruct Hxy as [->| ->]; by rewrite ?wake_role.
Qed.

Lemma sleeps_on_wake c th : sleeps_on c (wake th) = false.
Proof. by destruct th as [? []]. Qed.

Lemma woken_asleep c ts ts' :
  woken ts ts' -> count (sleeps_on c) ts' <= count (sleeps_on c) ts.
Proof.
  unfold count. induction 1 as [|x y l k Hxy _ IH]; csimpl; [lia|].
  destruct Hxy as [->| ->]; rewrite ?sleeps_on_wake; csimpl; lia.
Qed.

Definition notifies (c : C) (n : notification) : bool :=
  match n with Notify d => bool_decide (c = d) | NotifyAll _ => false end.
Definition notified (c : C) (ns : list notification) : nat :=
  length (List.filter (notifies c) ns).

(** After the notifications nobody sleeps on [c], or as many threads as were
    notified have been woken. *)
Lemma deliver_asleep c ns ws ts ts' :
  deliver ns ws ts = Some ts' ->
  (NotifyAll c ∈ ns -> count (sleeps_on c) ts' = 0) /\
  (count (sleeps_on c) ts' = 0 \/
   count (sleeps_on c) ts' + notified c ns <= count (sleeps_on c) ts).
Proof.
  unfold notified. revert ws ts. induction ns as [|[d|d] ns IH]; intros ws ts; simpl.
  - intros [= ->]. split; [by intros ?%not_elem_of_nil|right; lia].
  - destruct ws as [|[t|] ws]; [done| |].
    + destruct (ts !! t) as [th|] eqn:Hth; [|done].
      destruct (sleeps_on d th) eqn:Hs; [|done]. intros [Hall Hn]%IH. split.
      { intros [?|?]%elem_of_cons; [done|auto]. }
      pose proof (count_insert (sleeps_on c) ts t th (wake th) Hth) as Hc.
      rewrite sleeps_on_wake in Hc. case_bool_decide; subst; [rewrite Hs in Hc|];
        simpl in *; lia.
    + destruct (existsb _ ts) eqn:He; [done|]. intros Hd.
      pose proof (woken_asleep c _ _ (deliver_woken _ _ _ _ Hd)).
      apply IH in Hd as [Hall Hn]. split.
      { intros [?|?]%elem_of_cons; [done|auto]. }
      apply count_existsb in He. case_bool_decide; subst; simpl; [left|]; lia.
  - intros Hd. pose proof (woken_asleep c _ _ (deliver_woken _ _ _ _ Hd)) as Hle.
    pose proof (woken_asleep c _ _ (woken_all d ts)) as Hle'.
    apply IH in Hd as [Hall Hn]. split; [|destruct Hn; [auto|right; lia]].
    intros [[= <-]|Hin]%elem_of_cons; [|auto].
    cut (count (sleeps_on c) (wake_all c ts) = 0); [lia|].
    apply count_zero. intros t th. unfold wake_all. rewrite list_lookup_fmap.
    destruct (ts !! t) as [th0|]; [|done]. intros [= <-].
    destruct (sleeps_on c th0) eqn:Hs; [apply sleeps_on_wake|done].
Qed.

(** A list of choices that [deliver] accepts always exists. *)
Lemma deliver_total ns ts : exists ws ts', deliver ns ws ts = Some ts'.
Proof.
  revert ts. induction ns as [|[c|c] ns IH]; intros ts; simpl.
  - by exists [], ts.
  - destruct (existsb (sleeps_on c) ts) eqn:He.
    + apply existsb_exists in He as (th & [t Ht]%list_elem_of_In%list_elem_of_lookup & Hs).
      destruct (IH (<[t := wake th]> ts)) as (ws & ts' & Hd).
      exists (Some t :: ws), ts'. by rewrite Ht, Hs.
    + destruct (IH ts) as (ws & ts' & Hd). by exists (None :: ws), ts'.
  - apply IH.
Qed.

(** ** Mutual exclusion and the order of critical sections *)

(** The holder of the mutex is the one thread that is inside. *)
Definition exclusive (s : monitor) : Prop :=
  forall t th, threads s !! t = Some th ->
    (holder_ s = Some t <-> exists op, pos th = Inside op).

Lemma wake_inside th op : pos (wake th) = Inside op <-> pos th = Inside op.
Proof. destruct th as [? []]; simpl; naive_solver. Qed.

Lemma lookup_insert_cases {A} (l : list A) t u x y :
  <[t := x]> l !! u = Some y -> (u = t /\ y = x) \/ (u <> t /\ l !! u = Some y).
Proof. intros [(?&?&?)|[??]]%list_lookup_insert_Some; naive_solver. Qed.

(** The critical sections of a history, run one after the other. *)
Inductive replays : Sh -> list (nat * Op * R) -> Sh -> Prop :=
  | replays_nil sh : replays sh [] sh
  | replays_snoc sh h sh1 t op r sh2 ns :
      replays sh h sh1 -> waits_for K op sh1 = None ->
      critical K op sh1 = Ok (sh2, r, ns) ->
      replays sh (h ++ [(t, op, r)]) sh2.

(** The effect of a step on the shared state: none, or one critical section. *)
Lemma exec_cases l s s' :
  exec l s = Some (Ok s') ->
  (shared s' = shared s /\ history s' = history s) \/
  (exists t rl op r ns, threads s !! t = Some (Thread rl (Inside op)) /\
     waits_for K op (shared s) = None /\
     critical K op (shared s) = Ok (shared s', r, ns) /\
     history s' = history s ++ [(t, op, r)]).
Proof.
  destruct l as [t op|t rl|t|t ws|t]; simpl; intros H;
    repeat case_match; simplify_option_eq; auto.
  unfold go in *. destruct (waits_for K op (shared s)) eqn:Hw; simplify_eq/=; [auto|].
  destruct (critical K op (shared s)) as [[[sh r] ns]|] eqn:Hc; [|done].
  simplify_option_eq. right. eauto 12.
Qed.

Lemma exec_exclusive l s s' : exclusive s -> exec l s = Some (Ok s') -> exclusive s'.
Proof.
  intros Hex H u th Hu. destruct l as [t op|t rl|t|t ws|t]; simpl in H.
  - repeat case_match; simplify_eq/=. apply lookup_insert_cases in Hu as [[-> ->]|[? Hu]].
    + rewrite (Hex _ _ H0). naive_solver.
    + apply (Hex _ _ Hu).
  - repeat case_match; simplify_eq/=. apply lookup_insert_cases in Hu as [[-> ->]|[? Hu]].
    + rewrite (Hex _ _ H0). naive_solver.
    + apply (Hex _ _ Hu).
  - unfold lock in H. repeat case_match; simplify_option_eq;
      (apply lookup_insert_cases in Hu as [[-> ->]|[? Hu]];
       [simpl; naive_solver|rewrite <-(Hex _ _ Hu); naive_solver]).
  - destruct (threads s !! t) as [[rl []]|] eqn:Ht; try done.
    assert (Hh : holder_ s = Some t) by (apply (Hex _ _ Ht); simpl; eauto).
    assert (Hothers : forall v th0, v <> t -> threads s !! v = Some th0 ->
              ~ exists op, pos th0 = Inside op).
    { intros v th0 Hv Hth0 Hin. apply (Hex _ _ Hth0) in Hin. congruence. }
    unfold go in H. destruct (waits_for K op (shared s)).
    + simplify_eq/=. apply lookup_insert_cases in Hu as [[-> ->]|[? Hu]]; [naive_solver|].
      split; [done|]. intros ?. by edestruct Hothers.
    + destruct (critical K op (shared s)) as [[[sh r] ns]|]; [|done].
      destruct (deliver ns ws _) as [ts|] eqn:Hd; [|done]. simplify_eq/=.
      destruct (woken_lookup _ _ _ _ (deliver_woken _ _ _ _ Hd) Hu) as (th0 & Hth0 & Hor).
      assert (Hin : (exists op, pos th = Inside op) <-> exists op, pos th0 = Inside op).
      { destruct Hor as [->| ->]; [done|]. by setoid_rewrite wake_inside. }
      rewrite Hin. apply lookup_insert_cases in Hth0 as [[-> ->]|[? Hth0]]; [naive_solver|].
      split; [done|]. intros ?. by edestruct Hothers.
  - repeat case_match; simplify_eq/=. apply lookup_insert_cases in Hu as [[-> ->]|[? Hu]].
    + rewrite (Hex _ _ H0). setoid_rewrite wake_inside. done.
    + apply (Hex _ _ Hu).
Qed.

Lemma start_exclusive sh roles : exclusive (start sh roles).
Proof.
  intros t th Ht. simpl in Ht. rewrite list_lookup_fmap in Ht.
  destruct (roles !! t); naive_solver.
Qed.

(** At most one thread is inside, and it holds the mutex. *)
Lemma mutual_exclusion sh roles ls s t u op op' rl rl' :
  steps (start sh roles) ls s ->
  threads s !! t = Some (Thread rl (Inside op)) ->
  threads s !! u = Some (Thread rl' (Inside op')) -> t = u.
Proof.
  intros Hs Ht Hu.
  assert (Hex : exclusive s).
  { eapply steps_invariant; [by intros; eapply exec_exclusive| |done].
    apply start_exclusive. }
  assert (holder_ s = Some t) by (apply (Hex _ _ Ht); simpl; eauto).
  assert (holder_ s = Some u) by (apply (Hex _ _ Hu); simpl; eauto). congruence.
Qed.

(** Every run is equivalent to running its critical sections in the order in
    which they took the mutex, each with its condition true. *)
Lemma monitor_serializable sh roles ls s :
  steps (start sh roles) ls s -> replays sh (history s) (shared s).
Proof.
  intros Hs. apply (steps_invariant (fun s => replays sh (history s) (shared s)) _ _ _)
    with (3 := Hs); [|apply replays_nil].
  clear s ls Hs. intros s l s' Hr [[-> ->]|(t & rl & op & r & ns & _ & Hw & Hc & ->)]%exec_cases; [done|].
  by econstructor.
Qed.

Definition holder_in (s : monitor) : Prop :=
  forall t, holder_ s = Some t -> t < length (threads s).

Lemma exec_length l s s' :
  exec l s = Some (Ok s') -> length (threads s') = length (threads s).
Proof.
  destruct l as [t op|t rl|t|t ws|t]; simpl; intros H;
    repeat case_match; simplify_option_eq; rewrite ?length_insert; try done.
  unfold go in *. destruct (waits_for K op (shared s)); simplify_eq/=;
    [by rewrite length_insert|].
  destruct (critical K op (shared s)) as [[[sh r] ns]|]; [|done].
  destruct (deliver ns ws _) as [ts|] eqn:Hd; [|done]. simplify_eq/=.
  by rewrite (woken_length _ _ (deliver_woken _ _ _ _ Hd)), length_insert.
Qed.

Lemma exec_holder_in l s s' : holder_in s -> exec l s = Some (Ok s') -> holder_in s'.
Proof.
  intros Hin H u. rewrite (exec_length _ _ _ H).
  destruct l as [t op|t rl|t|t ws|t]; simpl in H;
    repeat case_match; simplify_option_eq; auto.
  1-2: unfold lock in *; case_match; simplify_eq/=; intros [= <-]; by eapply lookup_lt_Some.
  unfold go in *. destruct (waits_for K op (shared s)); simplify_eq/=; [done|].
  destruct (critical K op (shared s)) as [[[sh r] ns]|]; [|done].
  by destruct (deliver ns ws _); simplify_eq/=.
Qed.

(** ** Calls in progress *)

#[export] Instance idle_dec (p : position) : Decision (p = Idle).
Proof. destruct p; [by left|by right..]. Defined.

Definition current_call (th : thread) : option Op :=
  match pos th with
  | Idle => None
  | Entering op | Inside op | Sleeping _ op | Signalled op => Some op
  end.

Lemma wake_current th : current_call (wake th) = current_call th.
Proof. by destruct th as [? []]. Qed.

(** How the role of a thread changes: by a move or by the return of a call. *)
Lemma exec_role l s s' t th' :
  exec l s = Some (Ok s') -> threads s' !! t = Some th' ->
  exists th, threads s !! t = Some th /\
    (role th' = role th \/
     role th' ∈ moves K (shared s) (role <$> threads s) (role th) \/
     exists op sh r ns, pos th = Inside op /\ waits_for K op (shared s) = None /\
       critical K op (shared s) = Ok (sh, r, ns) /\ role th' = returned K (role th) op r).
Proof.
  intros H Ht.
  assert (Hins : forall u th0 th1, threads s !! u = Some th0 ->
      <[u := th1]> (threads s) !! t = Some th' -> role th1 = role th0 ->
      exists th, threads s !! t = Some th /\ role th' = role th).
  { intros u th0 th1 Hu Hth Hr.
    apply lookup_insert_cases in Hth as [[-> ->]|[_ Hth]]; eauto. }
  destruct l as [u op|u rl|u|u ws|u]; cbn [exec] in H;
    (destruct (threads s !! u) as [[rl0 p0]|] eqn:Hu; [|done]).
  - repeat case_match; simplify_eq/=. destruct (Hins _ _ _ Hu Ht) as (th & ? & ?); eauto.
  - destruct p0; try done. destruct (bool_decide _) eqn:Hb; [|done]. simplify_eq/=.
    apply bool_decide_eq_true in Hb.
    apply lookup_insert_cases in Ht as [[-> ->]|[_ Ht]]; eauto 10.
  - repeat case_match; simplify_option_eq;
      destruct (Hins _ _ _ Hu Ht) as (th & ? & ?); eauto.
  - destruct p0 as [| |op| |]; try done. unfold go in H.
    destruct (waits_for K op (shared s)) eqn:Hw; simplify_eq/=.
    { destruct (Hins _ _ _ Hu Ht) as (th & ? & ?); eauto. }
    destruct (critical K op (shared s)) as [[[sh r] ns]|] eqn:Hc; [|done].
    destruct (deliver ns ws _) as [ts|] eqn:Hd; [|done]. simplify_eq/=.
    destruct (woken_lookup _ _ _ _ (deliver_woken _ _ _ _ Hd) Ht) as (th0 & Hth0 & Hor).
    assert (Hr0 : role th' = role th0) by (destruct Hor as [->| ->]; by rewrite ?wake_role).
    rewrite Hr0. apply lookup_insert_cases in Hth0 as [[-> ->]|[_ Hth0]]; eauto 12.
  - simpl in H. destruct p0; try done. simplify_eq/=.
    destruct (Hins _ _ _ Hu Ht) as (th & ? & ?); eauto.
Qed.

(** A thread makes only the calls its role allows. *)
Definition calls_ok (allowed : Role -> Op -> Prop) (th : thread) : Prop :=
  forall op, current_call th = Some op -> allowed (role th) op.

Lemma woken_calls_ok allowed ts ts' :
  woken ts ts' -> Forall (calls_ok allowed) ts -> Forall (calls_ok allowed) ts'.
Proof.
  induction 1 as [|x y l k Hxy _ IH]; [done|]. intros [Hx Hl]%Forall_cons.
  constructor; [|auto]. unfold calls_ok in *.
  destruct Hxy as [->| ->]; [done|]. by rewrite wake_current, wake_role.
Qed.

Lemma exec_calls_ok (allowed : Role -> Op -> Prop) l s s' :
  (forall sh rl op, may_call K sh rl op = true -> allowed rl op) ->
  Forall (calls_ok allowed) (threads s) -> exec l s = Some (Ok s') ->
  Forall (calls_ok allowed) (threads s').
Proof.
  intros Hmay Hok H.
  assert (Hat : forall t th, threads s !! t = Some th -> calls_ok allowed th).
  { intros t th. by apply (proj1 (Forall_lookup _ _) Hok). }
  destruct l as [t op|t rl|t|t ws|t]; simpl in H;
    (destruct (threads s !! t) as [th|] eqn:Ht; [|done]; pose proof (Hat _ _ Ht) as Hth).
  - repeat case_match; simplify_eq/=. apply Forall_insert; [done|].
    intros op' [= <-]. by eapply Hmay.
  - repeat case_match; simplify_eq/=. by apply Forall_insert.
  - repeat case_match; simplify_option_eq; by apply Forall_insert.
  - destruct th as [rl []]; try done. unfold go in H.
    destruct (waits_for K op (shared s)); simplify_eq/=; [by apply Forall_insert|].
    destruct (critical K op (shared s)) as [[[sh r] ns]|]; [|done].
    destruct (deliver ns ws _) as [ts|] eqn:Hd; [|done]. simplify_eq/=.
    eapply woken_calls_ok; [by eapply deliver_woken|]. by apply Forall_insert.
  - case_match; simplify_eq/=. apply Forall_insert; [done|].
    unfold calls_ok. by rewrite wake_current, wake_role.
Qed.

Lemma reachable_calls_ok (allowed : Role -> Op -> Prop) sh roles ls s :
  (forall sh rl op, may_call K sh rl op = true -> allowed rl op) ->
  steps (start sh roles) ls s -> Forall (calls_ok allowed) (threads s).
Proof.
  intros Hmay Hs.
  refine (steps_invariant (fun s => Forall (calls_ok allowed) (threads s)) _ _ _ _ _ Hs).
  - intros. by eapply exec_calls_ok.
  - apply Forall_forall. by intros th (rl & -> & _)%list_elem_of_fmap.
Qed.

(** A call in progress stays in progress unless it need not wait. *)
Lemma exec_current l s s' t th op :
  exec l s = Some (Ok s') -> threads s !! t = Some th -> current_call th = Some op ->
  waits_for K op (shared s) <> None ->
  exists th', threads s' !! t = Some th' /\ current_call th' = Some op /\ role th' = role th.
Proof.
  intros H Ht Hop Hw.
  assert (Hins : forall u th1 (ts : list thread), ts !! t = Some th ->
      (u = t -> current_call th1 = Some op /\ role th1 = role th) ->
      exists th', <[u := th1]> ts !! t = Some th' /\ current_call th' = Some op /\
        role th' = role th).
  { intros u th1 ts Hts Hu. destruct (decide (u = t)) as [->|].
    - exists th1. rewrite list_lookup_insert_eq by (by eapply lookup_lt_Some). auto.
    - exists th. by rewrite list_lookup_insert_ne. }
  destruct l as [u op'|u rl|u|u ws|u]; simpl in H;
    (destruct (threads s !! u) as [th0|] eqn:Hu; [|done]).
  - repeat case_match; simplify_eq/=. apply Hins; [done|]. intros ->. by simplify_eq/=.
  - repeat case_match; simplify_eq/=. apply Hins; [done|]. intros ->. by simplify_eq/=.
  - repeat case_match; simplify_option_eq; (apply Hins; [done|]; intros ->; by simplify_eq/=).
  - destruct th0 as [rl []]; try done. unfold go in H.
    destruct (waits_for K op0 (shared s)) eqn:Hw0; simplify_eq/=.
    { apply Hins; [done|]. intros ->. by simplify_eq/=. }
    destruct (critical K op0 (shared s)) as [[[sh r] ns]|]; [|done].
    destruct (deliver ns ws _) as [ts|] eqn:Hd; [|done]. simplify_eq/=.
    destruct (Hins u (Thread (returned K rl op0 r) Idle) (threads s) Ht) as (th1 & Hth1 & Hc & Hr).
    { intros ->. simplify_eq. unfold current_call in Hop. simplify_eq/=. }
    destruct (woken_lookup_l _ _ _ _ (deliver_woken _ _ _ _ Hd) Hth1) as (th2 & Hth2 & Hor).
    exists th2. destruct Hor as [->| ->]; by rewrite ?wake_current, ?wake_role.
  - case_match; simplify_eq/=. apply Hins; [done|]. intros ->. simplify_eq.
    by rewrite wake_current, wake_role.
Qed.

(** The number of steps that calls in progress can make before each returns or
    sleeps; a thread that sleeps weighs enough for all it may wake. *)
Definition weight (n : nat) (th : thread) : nat :=
  match pos th with
  | Idle => 0
  | Sleeping _ _ => 2 * n
  | Inside _ => 2 * n + 1
  | Entering _ | Signalled _ => 2 * n + 2
  end.
Definition total_weight (n : nat) (ts : list thread) : nat := list_sum (weight n <$> ts).
Definition work (s : monitor) : nat := total_weight (length (threads s)) (threads s).

Lemma total_weight_insert n ts t th th' :
  ts !! t = Some th ->
  total_weight n (<[t := th']> ts) + weight n th = total_weight n ts + weight n th'.
Proof.
  unfold total_weight. revert t. induction ts as [|x ts IH]; intros [|t]; csimpl; [done..| |].
  - intros [= ->]. lia.
  - intros Hts%IH. lia.
Qed.
Lemma woken_weight n ts ts' :
  woken ts ts' -> total_weight n ts' <= total_weight n ts + 2 * length ts.
Proof.
  unfold total_weight. induction 1 as [|x y l k Hxy _ IH]; csimpl; [lia|].
  cut (weight n y <= weight n x + 2); [lia|].
  destruct Hxy as [->| ->]; [lia|]. destruct x as [rl []]; unfold weight; simpl; lia.
Qed.
Lemma work_bound s : work s <= length (threads s) * (2 * length (threads s) + 2).
Proof.
  unfold work, total_weight. generalize (length (threads s)) at 1 3. intros n.
  induction (threads s) as [|x ts IH]; csimpl; [lia|].
  cut (weight n x <= 2 * n + 2); [lia|]. destruct x as [rl []]; unfold weight; simpl; lia.
Qed.

Lemma exec_work l s s' :
  internal l = true -> exec l s = Some (Ok s') -> work s' < work s.
Proof.
  intros Hl H. unfold work. rewrite (exec_length _ _ _ H).
  set (n := length (threads s)). destruct l as [|?|t|t ws|]; try done; simpl in H.
  - destruct (threads s !! t) as [[rl []]|] eqn:Ht; try done; simplify_option_eq;
      match goal with |- context [<[_ := ?th']> _] =>
        pose proof (total_weight_insert n _ _ _ th' Ht) as Hw end;
      unfold weight in Hw; simpl in Hw; lia.
  - destruct (threads s !! t) as [[rl []]|] eqn:Ht; try done.
    unfold go in H. destruct (waits_for K op (shared s)); simplify_eq/=.
    + pose proof (total_weight_insert n _ _ _ (Thread rl (Sleeping c op)) Ht) as Hw.
      unfold weight in Hw. simpl in Hw. lia.
    + destruct (critical K op (shared s)) as [[[sh r] ns]|]; [|done].
      destruct (deliver ns ws _) as [ts|] eqn:Hd; [|done]. simplify_eq/=.
      pose proof (woken_weight n _ _ (deliver_woken _ _ _ _ Hd)) as Hle.
      rewrite length_insert in Hle. fold n in Hle.
      pose proof (total_weight_insert n _ _ _ (Thread (returned K rl op r) Idle) Ht) as Hw.
      unfold weight in Hw. simpl in Hw. lia.
Qed.

Lemma steps_work ls s s' :
  steps s ls s' -> Forall (fun l => internal l = true) ls -> length ls + work s' <= work s.
Proof.
  induction 1 as [|s l s' ls s'' H _ IH]; simpl; [lia|]. intros [Hl Hls]%Forall_cons.
  pose proof (exec_work _ _ _ Hl H). specialize (IH Hls). lia.
Qed.

(** ** No lost wakeups

    [need c sh] is how many threads that wait on [c] may go on in the state
    [sh] ([None]: all of them).  A class is disciplined if a method waits
    exactly when this number is 0, and a critical section that increases it
    notifies as many times. *)
Section discipline.
Context (need : C -> Sh -> option nat) (cond_of : Op -> option C) (Inv : Sh -> Prop).

Record disciplined : Prop := {
  d_wait sh op c : Inv sh ->
    waits_for K op sh = Some c <-> cond_of op = Some c /\ need c sh = Some 0;
  d_inv sh op sh' r ns : Inv sh -> waits_for K op sh = None ->
    critical K op sh = Ok (sh', r, ns) -> Inv sh';
  d_announce sh op sh' r ns c : Inv sh -> waits_for K op sh = None ->
    critical K op sh = Ok (sh', r, ns) ->
    NotifyAll c ∈ ns \/
    forall n, need c sh = Some n -> exists n', need c sh' = Some n' /\
      n' + Nat.b2n (bool_decide (cond_of op = Some c)) <= n + notified c ns
}.

(** No critical section fails. *)
Definition never_fails : Prop :=
  forall sh op e, Inv sh -> waits_for K op sh = None -> critical K op sh <> Crash e.

Context (D : disciplined).

Definition awake_for (c : C) (th : thread) : bool :=
  match pos th with
  | Entering op | Inside op | Signalled op => bool_decide (cond_of op = Some c)
  | _ => false
  end.
Definition sleeper_ok (th : thread) : Prop :=
  match pos th with Sleeping c op => cond_of op = Some c | _ => True end.

(** If a thread sleeps on [c], enough threads are awake to use what there is. *)
Record no_lost_wakeup (s : monitor) : Prop := {
  nl_inv : Inv (shared s);
  nl_exclusive : exclusive s;
  nl_holder : holder_in s;
  nl_sleepers : Forall sleeper_ok (threads s);
  nl_need c : count (sleeps_on c) (threads s) = 0 \/
    exists n, need c (shared s) = Some n /\ n <= count (awake_for c) (threads s)
}.

Lemma woken_sleepers ts ts' : woken ts ts' -> Forall sleeper_ok ts -> Forall sleeper_ok ts'.
Proof.
  induction 1 as [|x y l k Hxy _ IH]; [done|]. intros [Hx Hl]%Forall_cons.
  constructor; [|auto]. destruct Hxy as [->| ->]; [done|]. by destruct x as [? []].
Qed.

Lemma woken_total c ts ts' :
  Forall sleeper_ok ts -> woken ts ts' ->
  count (sleeps_on c) ts' + count (awake_for c) ts' =
  count (sleeps_on c) ts + count (awake_for c) ts.
Proof.
  intros Hok. unfold count. induction 1 as [|x y l k Hxy _ IH]; csimpl; [done|].
  apply Forall_cons in Hok as [Hx Hl]. specialize (IH Hl).
  cut (Nat.b2n (sleeps_on c y) + Nat.b2n (awake_for c y) =
       Nat.b2n (sleeps_on c x) + Nat.b2n (awake_for c x)); [lia|].
  destruct Hxy as [->| ->]; [done|]. destruct x as [rl []]; try done.
  unfold sleeper_ok, sleeps_on, awake_for in *; simpl in *.
  repeat case_bool_decide; simpl; congruence || lia.
Qed.

(** The counting argument for one condition variable. *)
Definition enough (c : C) (sh : Sh) (ts : list thread) : Prop :=
  count (sleeps_on c) ts = 0 \/
  exists n, need c sh = Some n /\ n <= count (awake_for c) ts.

Lemma enough_insert c sh ts t th th' :
  ts !! t = Some th -> enough c sh ts ->
  Nat.b2n (sleeps_on c th') <= Nat.b2n (sleeps_on c th) ->
  Nat.b2n (awake_for c th) <= Nat.b2n (awake_for c th') ->
  enough c sh (<[t := th']> ts).
Proof.
  intros Ht Hen Hs Ha.
  pose proof (count_insert (sleeps_on c) ts t th th' Ht).
  pose proof (count_insert (awake_for c) ts t th th' Ht).
  destruct Hen as [?|(n & ? & ?)]; [left; lia|right; exists n; split; [done|lia]].
Qed.

Lemma enough_wake c sh ts t th :
  Forall sleeper_ok ts -> ts !! t = Some th -> enough c sh ts ->
  enough c sh (<[t := wake th]> ts).
Proof.
  intros Hok Ht Hen. pose proof (woken_insert _ _ _ Ht) as Hw.
  pose proof (woken_total c _ _ Hok Hw). pose proof (woken_asleep c _ _ Hw).
  destruct Hen as [?|(n & ? & ?)]; [left; lia|right; exists n; split; [done|lia]].
Qed.

Lemma enough_wait sh ts t rl op c d :
  Inv sh -> ts !! t = Some (Thread rl (Inside op)) -> waits_for K op sh = Some c ->
  enough d sh ts -> enough d sh (<[t := Thread rl (Sleeping c op)]> ts).
Proof.
  intros HI Ht [Hc Hn]%(d_wait D) Hen; [|done].
  destruct (decide (d = c)) as [->|Hd]; [right; exists 0; split; [done|lia]|].
  eapply enough_insert; [done..| |]; unfold sleeps_on, awake_for; simpl;
    repeat case_bool_decide; simpl; congruence || lia.
Qed.

Lemma enough_critical sh ts t rl op c sh' r ns ws ts' :
  Inv sh -> Forall sleeper_ok ts -> ts !! t = Some (Thread rl (Inside op)) ->
  waits_for K op sh = None -> critical K op sh = Ok (sh', r, ns) ->
  deliver ns ws (<[t := Thread (returned K rl op r) Idle]> ts) = Some ts' ->
  enough c sh ts -> enough c sh' ts'.
Proof.
  intros HI Hok Ht Hw Hc Hd Hen. unfold enough in *.
  set (th' := Thread (returned K rl op r) Idle) in *.
  pose proof (count_insert (sleeps_on c) ts t _ th' Ht) as Hs. unfold sleeps_on in Hs at 2 4.
  pose proof (count_insert (awake_for c) ts t _ th' Ht) as Ha. unfold awake_for in Ha at 2 4.
  simpl in Hs, Ha.
  assert (Hok' : Forall sleeper_ok (<[t := th']> ts)) by (by apply Forall_insert).
  pose proof (woken_total c _ _ Hok' (deliver_woken _ _ _ _ Hd)) as Htot.
  pose proof (woken_asleep c _ _ (deliver_woken _ _ _ _ Hd)).
  destruct (deliver_asleep c _ _ _ _ Hd) as [Hall Hsome].
  destruct (d_announce D _ _ _ _ _ c HI Hw Hc) as [Hin|Hneed]; [left; auto|].
  destruct Hen as [?|(n & Hn & Hle)]; [left; lia|].
  destruct Hsome as [?|?]; [by left|]. right.
  destruct (Hneed n Hn) as (n' & ? & ?). exists n'. split; [done|lia].
Qed.

Lemma exec_no_lost_wakeup l s s' :
  no_lost_wakeup s -> exec l s = Some (Ok s') -> no_lost_wakeup s'.
Proof.
  intros [HI Hex Hh Hok Hen] H. pose proof (exec_exclusive _ _ _ Hex H) as Hex'.
  pose proof (exec_holder_in _ _ _ Hh H) as Hh'.
  destruct l as [t op|t rl|t|t ws|t]; simpl in H.
  - repeat case_match; simplify_eq/=. split; simpl; [done|done|done|by apply Forall_insert|].
    intros c. by eapply enough_insert; [done|apply Hen|first [exact (le_n _)|exact (Nat.le_0_l _)]..].
  - repeat case_match; simplify_eq/=. split; simpl; [done|done|done|by apply Forall_insert|].
    intros c. by eapply enough_insert; [done|apply Hen|first [exact (le_n _)|exact (Nat.le_0_l _)]..].
  - repeat case_match; simplify_option_eq;
      (split; simpl; [done|done|done|by apply Forall_insert|];
       intros c; by eapply enough_insert; [done|apply Hen|first [exact (le_n _)|exact (Nat.le_0_l _)]..]).
  - destruct (threads s !! t) as [[rl []]|] eqn:Ht; try done.
    unfold go in H. destruct (waits_for K op (shared s)) as [c|] eqn:Hw.
    + simplify_eq/=. split; simpl; [done|done|done| |].
      * apply Forall_insert; [done|]. by apply (d_wait D) in Hw as [? _].
      * intros d. by eapply enough_wait; [..|apply Hen].
    + destruct (critical K op (shared s)) as [[[sh r] ns]|] eqn:Hc; [|done].
      destruct (deliver ns ws _) as [ts|] eqn:Hd; [|done]. simplify_eq/=.
      split; simpl; [|done|done| |].
      * by eapply (d_inv D).
      * eapply woken_sleepers; [by eapply deliver_woken|]. by apply Forall_insert.
      * intros c. by eapply enough_critical; [..|apply Hen].
  - repeat case_match; simplify_eq/=. split; simpl; [done|done|done| |].
    + eapply woken_sleepers; [by eapply woken_insert|done].
    + intros d. by eapply enough_wake; [..|apply Hen].
Qed.

Lemma start_no_lost_wakeup sh roles : Inv sh -> no_lost_wakeup (start sh roles).
Proof.
  intros HI. split; [done|apply start_exclusive|done| |].
  - apply Forall_forall. intros th (rl & -> & _)%list_elem_of_fmap. done.
  - intros c. left. apply count_zero. intros t th. simpl. rewrite list_lookup_fmap.
    destruct (roles !! t); [|done]. by intros [= <-].
Qed.

(** No step of a reachable state crashes. *)
Lemma exec_no_crash l s e : never_fails -> no_lost_wakeup s -> exec l s <> Some (Crash e).
Proof.
  intros Hsafe [HI _ _ _ _] H. destruct l as [t op|t rl|t|t ws|t]; simpl in H;
    repeat case_match; simplify_option_eq; try done.
  unfold go in *. destruct (waits_for K op (shared s)) eqn:Hw; [done|].
  destruct (critical K op (shared s)) as [[[sh r] ns]|] eqn:Hc; [|by eapply Hsafe].
  by destruct (deliver _ _ _).
Qed.

(** A thread that is settled is outside the class or waits for a condition that
    does not hold. *)
Definition settled (sh : Sh) (th : thread) : Prop :=
  match pos th with
  | Idle => True
  | Sleeping c op => waits_for K op sh = Some c
  | _ => False
  end.

#[export] Instance settled_dec sh th : Decision (settled sh th).
Proof. unfold settled. destruct (pos th); apply _. Defined.

Lemma progress s t th :
  no_lost_wakeup s -> threads s !! t = Some th -> ~ settled (shared s) th ->
  exists l o, internal l = true /\ exec l s = Some o.
Proof.
  intros [HI Hex Hin Hok Hen] Ht Hns.
  destruct (holder_ s) as [u|] eqn:Hh.
  - destruct (lookup_lt_is_Some_2 _ _ (Hin u Hh)) as [[rl p] Hu].
    destruct (proj1 (Hex u _ Hu) Hh) as [op Hp]. simpl in Hp. subst p.
    destruct (waits_for K op (shared s)) as [c|] eqn:Hw.
    + eexists (LGo u []), _. split; [done|]. simpl. rewrite Hu. unfold go. by rewrite Hw.
    + destruct (critical K op (shared s)) as [[[sh' r] ns]|e] eqn:Hc; cycle 1.
      { eexists (LGo u []), _. split; [done|]. simpl. rewrite Hu. unfold go.
        by rewrite Hw, Hc. }
      destruct (deliver_total ns (<[u := Thread (returned K rl op r) Idle]> (threads s)))
        as (ws & ts' & Hd).
      eexists (LGo u ws), _. split; [done|]. simpl. rewrite Hu. unfold go.
      rewrite Hw, Hc. simpl. rewrite Hd. done.
  - assert (Hlock : forall v rl op, threads s !! v = Some (Thread rl (Entering op)) \/
                      threads s !! v = Some (Thread rl (Signalled op)) ->
              exists l o, internal l = true /\ exec l s = Some o).
    { intros v rl op Hv. eexists (LLock v), _. split; [done|]. simpl.
      destruct Hv as [-> | ->]; rewrite Hh; done. }
    destruct th as [rl [|op|op|c op|op]]; [by destruct Hns|eauto| |  |eauto].
    + assert (holder_ s = Some t) by (apply (Hex _ _ Ht); simpl; eauto). congruence.
    + rewrite Forall_lookup in Hok. pose proof (Hok _ _ Ht) as Hc. simpl in Hc.
      destruct (Hen c) as [Hz|(n & Hn & Hle)].
      { apply (proj1 (count_zero _ _)) with (t := t) (th := Thread rl (Sleeping c op)) in Hz;
          [|done]. unfold sleeps_on in Hz. simpl in Hz. by rewrite bool_decide_true in Hz. }
      destruct n as [|n].
      { destruct Hns. simpl. by apply (d_wait D). }
      destruct (existsb (awake_for c) (threads s)) eqn:Hex0.
      * apply existsb_exists in Hex0
          as ([rl' p] & [v Hv]%list_elem_of_In%list_elem_of_lookup & Ha).
        destruct p as [|op'|op'|c' op'|op']; try done; [eauto| |eauto].
        assert (holder_ s = Some v) by (apply (Hex _ _ Hv); simpl; eauto). congruence.
      * apply count_existsb in Hex0. lia.
Qed.

(** Every call returns or waits with good reason: the calls in progress come to
    rest after a bounded number of steps ([steps_work]), however the threads
    interleave, and a state without a step has only settled threads. *)
Lemma settles s :
  never_fails -> no_lost_wakeup s ->
  exists ls s', Forall (fun l => internal l = true) ls /\ steps s ls s' /\
    Forall (settled (shared s')) (threads s').
Proof.
  intros Hsafe. remember (work s) as n eqn:Hn. revert s Hn.
  induction (lt_wf n) as [n _ IH]. intros s -> Hs.
  destruct (decide (Forall (settled (shared s)) (threads s))) as [Hall|Hnot].
  { exists [], s. split_and!; [constructor|constructor|done]. }
  apply not_Forall_Exists in Hnot; [|apply _].
  apply Exists_exists in Hnot as (th & [t Ht]%list_elem_of_lookup & Hns).
  destruct (progress s t th Hs Ht Hns) as (l & [s1|e] & Hl & H1);
    [|by apply exec_no_crash in H1].
  destruct (IH (work s1) (exec_work _ _ _ Hl H1) s1 eq_refl
              (exec_no_lost_wakeup _ _ _ Hs H1)) as (ls & s' & Hls & Hsteps & Hset).
  exists (l :: ls), s'. split_and!; [by constructor|by econstructor|done].
Qed.

(** The same for a given run: if no call can make a step, every thread is
    settled. *)
Lemma quiescent_settled s :
  no_lost_wakeup s -> (forall l, internal l = true -> exec l s = None) ->
  Forall (settled (shared s)) (threads s).
Proof.
  intros Hs Hstuck. apply Forall_forall. intros th [t Ht]%list_elem_of_lookup.
  destruct (decide (settled (shared s) th)) as [|Hns]; [done|].
  destruct (progress s t th Hs Ht Hns) as (l & o & Hl & H1). by rewrite Hstuck in H1.
Qed.

Lemma reachable_no_lost_wakeup sh roles ls s :
  Inv sh -> steps (start sh roles) ls s -> no_lost_wakeup s.
Proof.
  intros HI Hs. eapply (steps_invariant no_lost_wakeup); [|by apply start_no_lost_wakeup|done].
  intros. by eapply exec_no_lost_wakeup.
Qed.
End discipline.
End exec.
End monitor.

Arguments notification C : clear implicits.
Arguments class Sh C Op R Role : clear implicits.
Arguments thread C Op Role : clear implicits.
Arguments monitor Sh C Op R Role : clear implicits.
Arguments position C Op : clear implicits.
Arguments label Op Role : clear implicits.
