(* ===== verification/BlockingQueue.v ===== *)
(** * Queues between threads and the latch

    [muduo/base/BlockingQueue.h], [BoundedBlockingQueue.h], [CountDownLatch.cc]
    as clients of [Monitor.v].  Any number of threads make any calls.  The
    queues are first in, first out and lose nothing; a thread that is blocked
    for good waits for a condition that does not hold. *)

From S2P Require Import Prelude Monitor.

(** A thread of these classes may make any call at any time. *)
Definition any_client {Sh C Op R : Type} (w : Op -> Sh -> option C)
    (b : Op -> Sh -> outcome (Sh * R * list (notification C))) : class Sh C Op R unit :=
  Class_ w b (fun _ _ _ => true) (fun rl _ _ => rl) (fun _ _ _ => []).

(** ** BlockingQueue *)
Module BlockingQueue.
Section queue.
Context {T : Type}.

Inductive call := Put (x : T) | Take | Size.
Inductive result := Done | Got (x : T) | Number (n : nat).

(** The state is [queue_]; [notEmpty_] is the only condition variable. *)
Definition queue_put (x : T) (queue_ : list T) : outcome (list T * result * list (notification unit)) :=
  Ok (queue_ ++ [x], Done, [Notify tt]).
Definition queue_take_waits (queue_ : list T) : option unit :=
  match queue_ with [] => Some tt | _ => None end.
Definition queue_take (queue_ : list T) : outcome (list T * result * list (notification unit)) :=
  match queue_ with
  | [] => Crash AssertFailed
  | front :: queue_ => Ok (queue_, Got front, [])
  end.
Definition queue_size (queue_ : list T) : outcome (list T * result * list (notification unit)) :=
  Ok (queue_, Number (length queue_), []).

Definition waits (op : call) (queue_ : list T) : option unit :=
  match op with Take => queue_take_waits queue_ | _ => None end.
Definition body (op : call) (queue_ : list T) :=
  match op with
  | Put x => queue_put x queue_
  | Take => queue_take queue_
  | Size => queue_size queue_
  end.
Definition queue_class := any_client waits body.

(** What went in and what came out, in the order of the calls. *)
Definition puts (h : list (nat * call * result)) : list T :=
  omap (fun e => match e.1.2 with Put x => Some x | _ => None end) h.
Definition takes (h : list (nat * call * result)) : list T :=
  omap (fun e => match e.2 with Got x => Some x | _ => None end) h.

Ltac unfold_calls := simpl in *; unfold queue_put, queue_take, queue_size in *.

Lemma queue_disciplined :
  disciplined queue_class (fun _ q => Some (length q))
    (fun op => match op with Take => Some tt | _ => None end) (fun _ => True).
Proof.
  split; [|done|].
  - intros q op [] _. destruct op, q; simpl; naive_solver.
  - intros q op q' r ns [] _ Hw Hc. right. intros n [= <-]. exists (length q').
    split; [done|]. unfold notified.
    destruct op, q; unfold_calls; simplify_eq/=; rewrite ?length_app; simpl; lia.
Qed.

Lemma queue_never_fails : never_fails queue_class (fun _ => True).
Proof. intros q op e _. by destruct op, q. Qed.

Lemma replays_fifo q h q' :
  replays queue_class q h q' -> q ++ puts h = takes h ++ q'.
Proof.
  unfold puts, takes. induction 1 as [q|q h q1 t op r q2 ns _ IH Hw Hc]; simpl.
  { by rewrite app_nil_r. }
  rewrite !omap_app, (app_assoc q), IH.
  destruct op, q1; unfold_calls; simplify_eq/=; rewrite ?app_nil_r, <-?app_assoc; done.
Qed.

(** [BlockingQueue] is a queue between any number of threads: in every
    state they can reach, with any interleaving and any spurious wakeups, what
    was put is what was taken, in that order, followed by what is in the queue;
    no call fails; and when no call can go on, a thread that has not returned
    sleeps in [take] and the queue is empty. *)
Theorem blocking_queue_fifo (q : list T) (n : nat) ls s :
  steps queue_class (start q (replicate n tt)) ls s ->
  q ++ puts (history s) = takes (history s) ++ shared s /\
  (forall l e, exec queue_class l s <> Some (Crash e)) /\
  ((forall l, internal l = true -> exec queue_class l s = None) ->
   forall t th, threads s !! t = Some th ->
     pos th = Idle \/ (pos th = Sleeping tt Take /\ shared s = [])).
Proof.
  intros Hs. pose proof (reachable_no_lost_wakeup _ _ _ _ queue_disciplined _ _ _ _ I Hs) as Hnl.
  split_and!.
  - by apply replays_fifo, (monitor_serializable _ _ _ _ _ Hs).
  - intros l e. by eapply exec_no_crash; [apply queue_never_fails|].
  - intros Hq t th Ht. pose proof (quiescent_settled _ _ _ _ queue_disciplined _ Hnl Hq) as Hset.
    rewrite Forall_lookup in Hset. pose proof (Hset _ _ Ht) as Hth. unfold settled in Hth.
    destruct (pos th) as [|op|op|[] op|op]; try done; [by left|right].
    destruct op; try done. simpl in Hth. by destruct (shared s).
Qed.
End queue.

(** Two takers wait, one value is put, one taker gets it. *)
Definition demo_run : list (label (call (T:=nat)) unit) :=
  [LCall 0 Take; LLock 0; LGo 0 []; LCall 1 Take; LLock 1; LGo 1 [];
   LCall 2 (Put 7%nat); LLock 2; LGo 2 [Some 1%nat]; LSpurious 0; LLock 0; LGo 0 []; LLock 1; LGo 1 []].

Lemma blocking_queue_fifo_witness :
  exists s, steps queue_class (start (Sh:=list nat) [] (replicate 3 tt)) demo_run s /\
    puts (history s) = takes (history s) ++ shared s /\ takes (history s) = [7%nat].
Proof.
  destruct (run queue_class demo_run (start (Sh:=list nat) [] (replicate 3 tt))) as [s|] eqn:Hs;
    [|by vm_compute in Hs].
  exists s. assert (Hr := run_steps _ _ _ _ Hs). split; [exact Hr|].
  split; [exact (proj1 (blocking_queue_fifo [] 3 _ _ Hr))|].
  vm_compute in Hs. by injection Hs as <-.
Defined.
End BlockingQueue.

(** ** BoundedBlockingQueue

    The queue is a [boost::circular_buffer], a parameter: the operations the
    class calls and what their documentation says of them. *)
Class CircularBuffer (T CB : Type) := {
  cb_new : nat -> CB;
  cb_full : CB -> bool;
  cb_empty : CB -> bool;
  cb_size : CB -> nat;
  cb_capacity : CB -> nat;
  cb_push_back : T -> CB -> CB;
  cb_front : CB -> option T;
  cb_pop_front : CB -> CB
}.
Class CircularBufferLaws (T CB : Type) `{!CircularBuffer T CB} (elements : CB -> list T) : Prop := {
  cb_new_spec n : elements (cb_new n) = [] /\ cb_capacity (cb_new n) = n;
  cb_size_spec b : cb_size b = length (elements b);
  cb_full_spec b : cb_full b = bool_decide (cb_size b = cb_capacity b);
  cb_empty_spec b : cb_empty b = bool_decide (elements b = []);
  cb_within b : (length (elements b) <= cb_capacity b)%nat;
  cb_push_back_spec x b : (length (elements b) < cb_capacity b)%nat ->
    elements (cb_push_back x b) = elements b ++ [x];
  cb_push_back_capacity x b : cb_capacity (cb_push_back x b) = cb_capacity b;
  cb_front_spec b : cb_front b = head (elements b);
  cb_pop_front_spec x l b : elements b = x :: l -> elements (cb_pop_front b) = l;
  cb_pop_front_capacity b : cb_capacity (cb_pop_front b) = cb_capacity b
}.

Module BoundedBlockingQueue.
Inductive condition := NotEmpty | NotFull.
#[export] Instance condition_eq_dec : EqDecision condition.
Proof. solve_decision. Defined.

Section queue.
Context {T CB : Type} `{!CircularBuffer T CB} {elements : CB -> list T}.
Context `{!CircularBufferLaws T CB elements}.

Inductive call := Put (x : T) | Take | Empty | Full | Size | Capacity.
Inductive result := Done | Got (x : T) | Is (b : bool) | Number (n : nat).

Definition bounded_put_waits (queue_ : CB) : option condition :=
  if cb_full queue_ then Some NotFull else None.
Definition bounded_put (x : T) (queue_ : CB)
    : outcome (CB * result * list (notification condition)) :=
  if cb_full queue_ then Crash AssertFailed
  else Ok (cb_push_back x queue_, Done, [Notify NotEmpty]).
Definition bounded_take_waits (queue_ : CB) : option condition :=
  if cb_empty queue_ then Some NotEmpty else None.
Definition bounded_take (queue_ : CB)
    : outcome (CB * result * list (notification condition)) :=
  if cb_empty queue_ then Crash AssertFailed
  else match cb_front queue_ with
       | Some front => Ok (cb_pop_front queue_, Got front, [Notify NotFull])
       | None => Crash OutOfBounds
       end.
Definition bounded_empty (queue_ : CB)
    : outcome (CB * result * list (notification condition)) :=
  Ok (queue_, Is (cb_empty queue_), []).
Definition bounded_is_full (queue_ : CB)
    : outcome (CB * result * list (notification condition)) :=
  Ok (queue_, Is (cb_full queue_), []).
Definition bounded_size (queue_ : CB)
    : outcome (CB * result * list (notification condition)) :=
  Ok (queue_, Number (cb_size queue_), []).
Definition bounded_capacity (queue_ : CB)
    : outcome (CB * result * list (notification condition)) :=
  Ok (queue_, Number (cb_capacity queue_), []).

Definition waits (op : call) (queue_ : CB) : option condition :=
  match op with
  | Put _ => bounded_put_waits queue_
  | Take => bounded_take_waits queue_
  | _ => None
  end.
Definition body (op : call) (queue_ : CB) :=
  match op with
  | Put x => bounded_put x queue_
  | Take => bounded_take queue_
  | Empty => bounded_empty queue_
  | Full => bounded_is_full queue_
  | Size => bounded_size queue_
  | Capacity => bounded_capacity queue_
  end.
Definition bounded_class := any_client waits body.

Definition bounded_puts (h : list (nat * call * result)) : list T :=
  omap (fun e => match e.1.2 with Put x => Some x | _ => None end) h.
Definition bounded_takes (h : list (nat * call * result)) : list T :=
  omap (fun e => match e.2 with Got x => Some x | _ => None end) h.

Definition free (b : CB) : nat := (cb_capacity b - cb_size b)%nat.
Definition bounded_need (c : condition) (b : CB) : option nat :=
  match c with NotEmpty => Some (length (elements b)) | NotFull => Some (free b) end.
Definition bounded_cond (op : call) : option condition :=
  match op with Put _ => Some NotFull | Take => Some NotEmpty | _ => None end.

(** What a completed call does to the elements. *)
Lemma body_cases op b b' r ns :
  waits op b = None -> body op b = Ok (b', r, ns) ->
  cb_capacity b' = cb_capacity b /\
  match op with
  | Put x => elements b' = elements b ++ [x] /\ (length (elements b) < cb_capacity b)%nat /\
             r = Done /\ ns = [Notify NotEmpty]
  | Take => exists x, elements b = x :: elements b' /\ r = Got x /\ ns = [Notify NotFull]
  | _ => elements b' = elements b /\ ns = [] /\ match r with Got _ => False | _ => True end
  end.
Proof.
  destruct op; simpl; intros Hw Hb; [| |by inversion Hb..].
  - unfold bounded_put in Hb. destruct (cb_full b) eqn:Hf; [done|]. simplify_eq.
    rewrite cb_push_back_capacity. split; [done|].
    rewrite cb_full_spec, cb_size_spec in Hf. apply bool_decide_eq_false in Hf.
    pose proof (cb_within (elements := elements) b) as Hle.
    assert (Hlt : (length (elements b) < cb_capacity b)%nat) by lia.
    by rewrite (cb_push_back_spec (elements := elements)).
  - unfold bounded_take in Hb. destruct (cb_empty b) eqn:He; [done|].
    rewrite cb_front_spec in Hb. destruct (elements b) as [|x l] eqn:Hl; [done|].
    simplify_eq/=. rewrite cb_pop_front_capacity. split; [done|].
    exists x. by rewrite (cb_pop_front_spec x l b Hl).
Qed.

Lemma bounded_disciplined :
  disciplined bounded_class bounded_need bounded_cond (fun _ => True).
Proof.
  split; [|done|].
  - intros b op c _. unfold bounded_class, bounded_need, bounded_cond, free. simpl.
    destruct op; simpl; unfold bounded_put_waits, bounded_take_waits;
      rewrite ?cb_full_spec, ?cb_empty_spec; try naive_solver.
    + pose proof (cb_within (elements := elements) b). rewrite cb_size_spec.
      case_bool_decide; split; intros; destruct_and?; simplify_eq/=; try done.
      * split; [done|]. f_equal. lia.
      * exfalso. lia.
    + destruct (elements b) eqn:Hb; case_bool_decide; try done; split; intros;
        destruct_and?; simplify_eq/=; done.
  - intros b op b' r ns c _ Hw Hb. right.
    pose proof (body_cases _ _ _ _ _ Hw Hb) as [Hcap Hop].
    pose proof (cb_within (elements := elements) b).
    unfold bounded_need, free. rewrite !cb_size_spec, Hcap.
    intros n Hn. unfold notified.
    destruct c; simplify_eq/=; eexists; (split; [done|]); destruct op; simpl;
      try (destruct Hop as [-> [-> _]]; simpl; lia).
    + destruct Hop as (-> & ? & _ & ->). rewrite length_app. simpl. lia.
    + destruct Hop as (x & -> & _ & ->). simpl. lia.
    + destruct Hop as (-> & ? & _ & ->). rewrite length_app. simpl. lia.
    + destruct Hop as (x & -> & _ & ->). simpl. lia.
Qed.

Lemma bounded_never_fails : never_fails bounded_class (fun _ => True).
Proof.
  intros b op e _ Hw. destruct op; simpl in *; try done.
  - unfold bounded_put_waits, bounded_put in *. by destruct (cb_full b).
  - unfold bounded_take_waits, bounded_take in *. rewrite cb_empty_spec, cb_front_spec in *.
    by destruct (elements b).
Qed.

Lemma bounded_replays b h b' :
  replays bounded_class b h b' ->
  elements b ++ bounded_puts h = bounded_takes h ++ elements b' /\
  cb_capacity b' = cb_capacity b.
Proof.
  unfold bounded_puts, bounded_takes.
  induction 1 as [b|b h b1 t op r b2 ns _ [IH IHc] Hw Hb]; [by rewrite app_nil_r|].
  pose proof (body_cases _ _ _ _ _ Hw Hb) as [Hcap Hop]. split; [|congruence].
  rewrite !omap_app, app_assoc, IH. simpl. destruct op; simpl.
  - destruct Hop as (-> & _ & -> & _). by rewrite app_nil_r, app_assoc.
  - destruct Hop as (x & -> & -> & _). rewrite app_nil_r. by rewrite <-app_assoc.
  - destruct Hop as (-> & _ & ?). destruct r; [..|done| |]; by rewrite ?app_nil_r.
  - destruct Hop as (-> & _ & ?). destruct r; [..|done| |]; by rewrite ?app_nil_r.
  - destruct Hop as (-> & _ & ?). destruct r; [..|done| |]; by rewrite ?app_nil_r.
  - destruct Hop as (-> & _ & ?). destruct r; [..|done| |]; by rewrite ?app_nil_r.
Qed.

(** C38.  [BoundedBlockingQueue] of capacity [m] between any number of threads:
    what was put is what was taken, in that order, followed by the at most [m]
    elements of the queue; no call fails; and when no call can go on, a thread
    that has not returned sleeps in [put] and the queue is full, or sleeps in
    [take] and the queue is empty. *)
Theorem bounded_queue_fifo (m n : nat) ls s :
  steps bounded_class (start (cb_new m) (replicate n tt)) ls s ->
  bounded_puts (history s) = bounded_takes (history s) ++ elements (shared s) /\
  (length (elements (shared s)) <= m)%nat /\
  (forall l e, exec bounded_class l s <> Some (Crash e)) /\
  ((forall l, internal l = true -> exec bounded_class l s = None) ->
   forall t th, threads s !! t = Some th ->
     pos th = Idle \/
     (exists x, pos th = Sleeping NotFull (Put x)) /\ length (elements (shared s)) = m \/
     pos th = Sleeping NotEmpty Take /\ elements (shared s) = []).
Proof.
  intros Hs. destruct (cb_new_spec (elements := elements) m) as [Hnil Hm].
  pose proof (reachable_no_lost_wakeup _ _ _ _ bounded_disciplined _ _ _ _ I Hs) as Hnl.
  destruct (bounded_replays _ _ _ (monitor_serializable _ _ _ _ _ Hs)) as [Hfifo Hcap].
  rewrite Hnil in Hfifo. rewrite Hm in Hcap.
  pose proof (cb_within (elements := elements) (shared s)).
  split_and!; [done|lia| |].
  - intros l e. by eapply exec_no_crash; [apply bounded_never_fails|].
  - intros Hq t th Ht. pose proof (quiescent_settled _ _ _ _ bounded_disciplined _ Hnl Hq) as Hset.
    rewrite Forall_lookup in Hset. pose proof (Hset _ _ Ht) as Hth. unfold settled in Hth.
    destruct (pos th) as [|op|op|c op|op]; try done; [by left|right].
    destruct op; try done; simpl in Hth; unfold bounded_put_waits, bounded_take_waits in Hth.
    + left. destruct (cb_full (shared s)) eqn:Hf; simplify_eq. split; [by eexists|].
      rewrite cb_full_spec, cb_size_spec in Hf. apply bool_decide_eq_true in Hf. congruence.
    + right. destruct (cb_empty (shared s)) eqn:He; simplify_eq. split; [done|].
      rewrite cb_empty_spec in He. by apply bool_decide_eq_true in He.
Qed.
End queue.

(** A circular buffer: its capacity and its elements. *)
Record ring := Ring {
  ring_capacity : nat; ring_list : list nat;
  ring_within : bool_decide (length ring_list <= ring_capacity)%nat = true
}.
Definition ring_make (n : nat) (l : list nat) : ring.
Proof.
  refine (Ring n (take n l) _). apply bool_decide_eq_true.
  rewrite length_take. lia.
Defined.
#[local] Instance ring_buffer : CircularBuffer nat ring := {
  cb_new n := ring_make n [];
  cb_full b := bool_decide (length (ring_list b) = ring_capacity b);
  cb_empty b := bool_decide (ring_list b = []);
  cb_size b := length (ring_list b);
  cb_capacity b := ring_capacity b;
  cb_push_back x b :=
    ring_make (ring_capacity b)
      (if bool_decide (length (ring_list b) = ring_capacity b)
       then tail (ring_list b) ++ [x] else ring_list b ++ [x]);
  cb_front b := head (ring_list b);
  cb_pop_front b := ring_make (ring_capacity b) (tail (ring_list b))
}.
#[local] Instance ring_laws : CircularBufferLaws nat ring ring_list.
Proof.
  split; simpl; try done.
  - intros n. by rewrite take_nil.
  - intros [n l Hl]. simpl. by apply bool_decide_eq_true in Hl.
  - intros x [n l Hl] Hlt. simpl in *. rewrite bool_decide_false by lia.
    apply take_ge. rewrite length_app. simpl. lia.
  - intros x l [n k Hk]. simpl. intros ->. simpl. apply take_ge.
    apply bool_decide_eq_true in Hk. simpl in Hk. lia.
Qed.

(** A producer fills the queue of capacity 1 and blocks; a consumer wakes it. *)
Definition bounded_demo : list (label (call (T:=nat)) unit) :=
  [LCall 0 (Put 5%nat); LLock 0; LGo 0 [None]; LCall 0 (Put 6%nat); LLock 0; LGo 0 [];
   LCall 1 Take; LLock 1; LGo 1 [Some 0%nat]; LLock 0; LGo 0 [None]].

Lemma bounded_queue_fifo_witness :
  exists s, steps bounded_class (start (cb_new (T:=nat) (CB:=ring) 1) (replicate 2 tt)) bounded_demo s /\
    bounded_puts (history s) = bounded_takes (history s) ++ ring_list (shared s) /\
    bounded_puts (history s) = [5%nat; 6%nat].
Proof.
  destruct (run bounded_class bounded_demo (start (cb_new (T:=nat) (CB:=ring) 1) (replicate 2 tt)))
    as [s|] eqn:Hs; [|by vm_compute in Hs].
  exists s. assert (Hr := run_steps _ _ _ _ Hs). split; [exact Hr|].
  split; [exact (proj1 (bounded_queue_fifo 1 2 _ _ Hr))|].
  assert (Hh : history <$> run bounded_class bounded_demo
      (start (cb_new (T:=nat) (CB:=ring) 1) (replicate 2 tt)) =
    Some [(0%nat, Put 5%nat, Done); (1%nat, Take, Got 5%nat); (0%nat, Put 6%nat, Done)])
    by (vm_compute; reflexivity).
  rewrite Hs in Hh. by injection Hh as ->.
Defined.
End BoundedBlockingQueue.

(** ** CountDownLatch *)
Module CountDownLatch.
Inductive call := Wait | CountDown | GetCount.

(** The state is the [int] [count_]. *)
Definition latch_waits (count_ : Z) : option unit := if 0 <? count_ then Some tt else None.
Definition latch_wait (count_ : Z) : outcome (Z * Z * list (notification unit)) :=
  Ok (count_, 0, []).
Definition countDown (count_ : Z) : outcome (Z * Z * list (notification unit)) :=
  if count_ =? -2147483648 then Crash SignedOverflow
  else let count_ := count_ - 1 in
       Ok (count_, 0, if count_ =? 0 then [NotifyAll tt] else []).
Definition getCount (count_ : Z) : outcome (Z * Z * list (notification unit)) :=
  Ok (count_, count_, []).

Definition waits (op : call) (count_ : Z) : option unit :=
  match op with Wait => latch_waits count_ | _ => None end.
Definition body (op : call) (count_ : Z) :=
  match op with
  | Wait => latch_wait count_
  | CountDown => countDown count_
  | GetCount => getCount count_
  end.
Definition latch_class := any_client waits body.

Definition is_countdown (e : nat * call * Z) : bool :=
  match e.1.2 with CountDown => true | _ => false end.
Definition countdowns (h : list (nat * call * Z)) : nat := length (List.filter is_countdown h).

Lemma latch_disciplined :
  disciplined latch_class (fun _ n => if 0 <? n then Some 0%nat else None)
    (fun op => match op with Wait => Some tt | _ => None end) (fun _ => True).
Proof.
  split; [|done|].
  - intros n op [] _. destruct op; simpl; unfold latch_waits; destruct (0 <? n); naive_solver.
  - intros n op n' r ns [] _ Hw Hc. destruct op; simpl in *; unfold latch_waits in *.
    + right. by destruct (0 <? n).
    + unfold countDown in Hc. destruct (n =? _) eqn:?; [done|]. simplify_eq.
      destruct (n - 1 =? 0) eqn:?; [left; by left|right]. intros k.
      destruct (0 <? n) eqn:?; [|done]. reflect_bools. intros [= <-]. exists 0%nat.
      rewrite (proj2 (Z.ltb_lt 0 (n - 1))) by lia. split; [done|]. simpl. lia.
    + unfold getCount in Hc. simplify_eq. right. intros k Hk. exists k. split; [done|]. simpl. lia.
Qed.

Lemma latch_replays n h n' :
  replays latch_class n h n' ->
  n' = n - Z.of_nat (countdowns h) /\
  forall h1 t r h2, h = h1 ++ (t, Wait, r) :: h2 -> n <= Z.of_nat (countdowns h1).
Proof.
  unfold countdowns.
  induction 1 as [n|n h n1 t op r n2 ns _ [IH IHw] Hw Hc]; simpl.
  { split; [lia|]. intros h1 ? ? ? Heq. by destruct h1. }
  rewrite List.filter_app, length_app. split.
  - destruct op; simpl in *; unfold countDown, latch_wait, getCount in Hc;
      repeat case_match; simplify_eq/=; lia.
  - intros h1 u r' h2 Heq. destruct h2 as [|e h3 _] using rev_ind.
    + apply app_inj_tail in Heq as [<- [= -> -> ->]]. simpl in Hw.
      unfold latch_waits in Hw. destruct (0 <? n1) eqn:?; [done|]. reflect_bools. lia.
    + rewrite app_comm_cons, app_assoc in Heq. apply app_inj_tail in Heq as [-> _]. eauto.
Qed.

(** [CountDownLatch]: [wait] returns only after [countDown] was called as
    often as the latch was created for, and when it was and no call can go on,
    no thread is left waiting. *)
Theorem latch_opens (c : Z) (n : nat) ls s :
  steps latch_class (start c (replicate n tt)) ls s ->
  shared s = c - Z.of_nat (countdowns (history s)) /\
  (forall h1 t r h2, history s = h1 ++ (t, Wait, r) :: h2 -> c <= Z.of_nat (countdowns h1)) /\
  ((forall l, internal l = true -> exec latch_class l s = None) ->
   c <= Z.of_nat (countdowns (history s)) ->
   forall t th, threads s !! t = Some th -> pos th = Idle).
Proof.
  intros Hs. pose proof (reachable_no_lost_wakeup _ _ _ _ latch_disciplined _ _ _ _ I Hs) as Hnl.
  destruct (latch_replays _ _ _ (monitor_serializable _ _ _ _ _ Hs)) as [Hc Hw].
  split_and!; [done..|]. intros Hq Hle t th Ht.
  pose proof (quiescent_settled _ _ _ _ latch_disciplined _ Hnl Hq) as Hset.
  rewrite Forall_lookup in Hset. pose proof (Hset _ _ Ht) as Hth. unfold settled in Hth.
  destruct (pos th) as [|op|op|[] op|op]; try done.
  destruct op; try done. simpl in Hth. unfold latch_waits in Hth.
  destruct (0 <? shared s) eqn:?; [|done]. reflect_bools. lia.
Qed.

Definition latch_demo : list (label call unit) :=
  [LCall 0 Wait; LLock 0; LGo 0 []; LCall 1 CountDown; LLock 1; LGo 1 []; LLock 0; LGo 0 []].

Lemma latch_opens_witness :
  exists s, steps latch_class (start 1 (replicate 2 tt)) latch_demo s /\
    shared s = 1 - Z.of_nat (countdowns (history s)) /\ length (history s) = 2%nat.
Proof.
  destruct (run latch_class latch_demo (start 1 (replicate 2 tt))) as [s|] eqn:Hs;
    [|by vm_compute in Hs].
  exists s. assert (Hr := run_steps _ _ _ _ Hs). split; [exact Hr|].
  split; [exact (proj1 (latch_opens 1 2 _ _ Hr))|].
  vm_compute in Hs. by injection Hs as <-.
Defined.
End CountDownLatch.
