(* ===== verification/ThreadPool.v ===== *)
(** * ThreadPool ([muduo/base/ThreadPool.cc], [.h])

    The pool as a client of [Monitor.v]: workers that run [runInThread], threads
    that call [run], and one that calls [stop] and joins the workers.  Tasks are
    taken in the order in which they were accepted, no worker sleeps while there
    is work, and [stop] ends every worker; but [stop] does not wake the threads
    that wait in [run] for room in the queue, and nobody else will. *)

From S2P Require Import Prelude Monitor.

Module ThreadPool.
Inductive condition := NotEmpty | NotFull.
#[export] Instance condition_eq_dec : EqDecision condition.
Proof. solve_decision. Defined.

Section pool.
Context {A : Type} `{!EqDecision A}.

(** A [std::function<void ()>]: a callable or empty. *)
Abbreviation Task := (option A).

Record ThreadPool := Pool {
  queue_ : list Task;
  maxQueueSize_ : Z;
  running_ : bool
}.

Inductive call := Run (task : Task) | TakeTask | Stop | QueueSize.
Inductive result := Done | Got (task : Task) | Number (n : Z).

(** Where a thread is outside the mutex: a worker in [runInThread], a thread
    that stops the pool, any other thread. *)
Inductive pool_role :=
  | WInit                   (* before threadInitCallback_ *)
  | WLoop                   (* at while (running_) *)
  | WTake                   (* at take() *)
  | WRun (task : Task)      (* at if (task) task() *)
  | WExit
  | SStop                   (* at stop() *)
  | SJoin (k : nat)         (* joins the k-th worker *)
  | SDone
  | Client.
#[export] Instance pool_role_eq_dec : EqDecision pool_role.
Proof. solve_decision. Defined.

Definition setMaxQueueSize (maxSize : Z) : Z := u64 maxSize.

Definition isFull (p : ThreadPool) : bool :=
  (0 <? maxQueueSize_ p) && (maxQueueSize_ p <=? Z.of_nat (length (queue_ p))).

Definition run_waits (p : ThreadPool) : option condition :=
  if isFull p then Some NotFull else None.
Definition pool_run (task : Task) (p : ThreadPool)
    : outcome (ThreadPool * result * list (notification condition)) :=
  if isFull p then Crash AssertFailed
  else Ok (Pool (queue_ p ++ [task]) (maxQueueSize_ p) (running_ p), Done, [Notify NotEmpty]).

Definition take_waits (p : ThreadPool) : option condition :=
  match queue_ p with [] => if running_ p then Some NotEmpty else None | _ => None end.
Definition pool_take (p : ThreadPool)
    : outcome (ThreadPool * result * list (notification condition)) :=
  match queue_ p with
  | task :: q =>
      Ok (Pool q (maxQueueSize_ p) (running_ p), Got task,
          if 0 <? maxQueueSize_ p then [Notify NotFull] else [])
  | [] => Ok (p, Got None, [])
  end.

Definition pool_stop (p : ThreadPool)
    : outcome (ThreadPool * result * list (notification condition)) :=
  Ok (Pool (queue_ p) (maxQueueSize_ p) false, Done, [NotifyAll NotEmpty]).

Definition queueSize (p : ThreadPool)
    : outcome (ThreadPool * result * list (notification condition)) :=
  Ok (p, Number (Z.of_nat (length (queue_ p))), []).

Definition is_worker (rl : pool_role) : bool :=
  match rl with WInit | WLoop | WTake | WRun _ | WExit => true | _ => false end.

(** [runInThread] between its calls of [take], and the loop of [stop] that joins
    the workers.  [running_] is read without the mutex. *)
Definition runInThread (p : ThreadPool) (rl : pool_role) : list pool_role :=
  match rl with
  | WInit => [WLoop]
  | WLoop => if running_ p then [WTake] else [WExit]
  | WRun _ => [WLoop]
  | _ => []
  end.
Definition join_workers (roles : list pool_role) (rl : pool_role) : list pool_role :=
  match rl with
  | SJoin k =>
      match filter (fun r => is_worker r = true) roles !! k with
      | Some WExit => [SJoin (S k)]
      | Some _ => []
      | None => [SDone]
      end
  | _ => []
  end.

Definition pool_class : class ThreadPool condition call result pool_role := {|
  waits_for op p :=
    match op with Run _ => run_waits p | TakeTask => take_waits p | _ => None end;
  critical op p :=
    match op with
    | Run task => pool_run task p
    | TakeTask => pool_take p
    | Stop => pool_stop p
    | QueueSize => queueSize p
    end;
  may_call _ rl op :=
    match rl, op with
    | WTake, TakeTask | SStop, Stop | Client, Run _ | Client, QueueSize => true
    | _, _ => false
    end;
  returned rl _ r :=
    match rl, r with
    | WTake, Got task => WRun task
    | SStop, _ => SJoin 0
    | _, _ => rl
    end;
  moves p roles rl := runInThread p rl ++ join_workers roles rl
|}.

(** [start]: the pool runs and [numThreads] workers begin, beside the threads
    that use the pool. *)
Definition pool_start (numThreads : nat) (maxSize : Z) (others : list pool_role) :=
  start (C:=condition) (Op:=call) (R:=result)
    (Pool [] (setMaxQueueSize maxSize) true) (replicate numThreads WInit ++ others).

(** ** Order and wakeups *)

Definition accepted (h : list (nat * call * result)) : list Task :=
  omap (fun e => match e.1.2 with Run task => Some task | _ => None end) h.
(** The tasks that [take] handed out: a worker runs a task only if it is not
    empty, and [take] returns an empty one when it finds the queue empty. *)
Definition handed (h : list (nat * call * result)) : list A :=
  omap (fun e => match e.2 with Got task => task | _ => None end) h.
Definition real (l : list Task) : list A := omap id l.

Definition pool_need (c : condition) (p : ThreadPool) : option nat :=
  match c with
  | NotEmpty => if running_ p then Some (length (queue_ p)) else None
  | NotFull => if 0 <? maxQueueSize_ p
               then Some (Z.to_nat (maxQueueSize_ p) - length (queue_ p))%nat else None
  end.
Definition pool_cond (op : call) : option condition :=
  match op with Run _ => Some NotFull | TakeTask => Some NotEmpty | _ => None end.

Ltac unfold_pool :=
  simpl in *; unfold run_waits, take_waits, pool_run, pool_take, pool_stop, queueSize in *.

Lemma isFull_spec p :
  isFull p = true <->
  0 < maxQueueSize_ p /\ (Z.to_nat (maxQueueSize_ p) - length (queue_ p) = 0)%nat.
Proof.
  unfold isFull. split; intros H; [|destruct H]; [reflect_bools; lia|].
  apply andb_true_iff. split; [apply Z.ltb_lt|apply Z.leb_le]; lia.
Qed.

Lemma pool_disciplined : disciplined pool_class pool_need pool_cond (fun _ => True).
Proof.
  split; [|done|].
  - intros p op c _. destruct op as [task| | |]; unfold_pool; [| |naive_solver..].
    + pose proof (isFull_spec p) as Hf. unfold pool_need. destruct (isFull p); split.
      * intros [= <-]. destruct (proj1 Hf eq_refl) as [Hm Hz].
        split; [done|]. by rewrite (proj2 (Z.ltb_lt _ _) Hm), Hz.
      * by intros [? _].
      * done.
      * intros [[= <-] Hn]. destruct (0 <? _) eqn:Hm; [|done]. reflect_bools.
        simplify_eq. assert (false = true) by (apply Hf; lia). done.
    + unfold pool_need. destruct (queue_ p), (running_ p); naive_solver.
  - intros p op p' r ns c _ Hw Hc. destruct op as [task| | |]; unfold_pool.
    + destruct (isFull p) eqn:Hf; [done|]. simplify_eq. right. intros n Hn.
      destruct c; simpl in *.
      * destruct (running_ p); simplify_eq. eexists. split; [done|].
        rewrite length_app. unfold notified. simpl. lia.
      * destruct (0 <? _) eqn:Hm; simplify_eq. eexists. split; [done|].
        rewrite length_app. unfold notified. simpl. reflect_bools.
        destruct (decide (Z.to_nat (maxQueueSize_ p) - length (queue_ p) = 0)%nat) as [Hz|];
          [|lia].
        rewrite (proj2 (isFull_spec p) (conj Hm Hz)) in Hf. done.
    + right. intros n Hn. destruct (queue_ p) as [|task q] eqn:Hq.
      * destruct (running_ p) eqn:Hr; [done|]. simplify_eq.
        exists n. split; [done|]. destruct c; unfold pool_need in Hn; simpl in *;
          [by rewrite Hr in Hn|lia].
      * simplify_eq. unfold pool_need in *. rewrite Hq in Hn. simpl in *.
        destruct c; [destruct (running_ p); simplify_eq; eexists; (split; [done|]); simpl; lia|].
        destruct (0 <? _) eqn:Hm; simplify_eq. eexists. split; [done|].
        unfold notified. simpl. lia.
    + simplify_eq. destruct c; [left; by left|]. right. intros n Hn. exists n.
      split; [done|]. simpl. lia.
    + simplify_eq. right. intros n Hn. exists n. split; [done|]. simpl. lia.
Qed.

Lemma pool_never_fails : never_fails pool_class (fun _ => True).
Proof.
  intros p op e _ Hw. destruct op; unfold_pool; try done;
    [by destruct (isFull p)|by destruct (queue_ p)].
Qed.

Lemma pool_replays p h p' :
  replays pool_class p h p' ->
  real (queue_ p) ++ real (accepted h) = handed h ++ real (queue_ p') /\
  maxQueueSize_ p' = maxQueueSize_ p.
Proof.
  unfold real, accepted, handed.
  induction 1 as [p|p h p1 t op r p2 ns _ [IH IHm] Hw Hc]; simpl; [by rewrite app_nil_r|].
  rewrite !omap_app, app_assoc, IH. destruct op as [task| | |]; unfold_pool.
  - destruct (isFull p1); simplify_eq/=. rewrite omap_app. by rewrite <-?app_assoc.
  - destruct (queue_ p1) as [|task q] eqn:Hq; simplify_eq/=; rewrite ?Hq; simpl;
      [by rewrite !app_nil_r|].
    destruct task; simpl; rewrite ?app_nil_r, <-?app_assoc; done.
  - simplify_eq/=. by rewrite !app_nil_r.
  - simplify_eq/=. by rewrite !app_nil_r.
Qed.

(** The pool accepts tasks from any number of threads and hands them to its
    workers: in every reachable state the tasks accepted are those handed out,
    in that order and each once, followed by those in the queue; no call fails;
    and when no call can go on, a thread inside the pool is a worker that waits
    for a task while the pool runs and the queue is empty, or waits in [run] and
    the queue is full. *)
Theorem pool_fifo (numThreads : nat) (maxSize : Z) others ls s :
  steps pool_class (pool_start numThreads maxSize others) ls s ->
  real (accepted (history s)) = handed (history s) ++ real (queue_ (shared s)) /\
  (forall l e, exec pool_class l s <> Some (Crash e)) /\
  ((forall l, internal l = true -> exec pool_class l s = None) ->
   forall t th, threads s !! t = Some th ->
     pos th = Idle \/
     pos th = Sleeping NotEmpty TakeTask /\ running_ (shared s) = true /\
       queue_ (shared s) = [] \/
     (exists task, pos th = Sleeping NotFull (Run task)) /\ isFull (shared s) = true).
Proof.
  intros Hs. pose proof (reachable_no_lost_wakeup _ _ _ _ pool_disciplined _ _ _ _ I Hs) as Hnl.
  split_and!.
  - apply (pool_replays _ _ _ (monitor_serializable _ _ _ _ _ Hs)).
  - intros l e. by eapply exec_no_crash; [apply pool_never_fails|].
  - intros Hq t th Ht. pose proof (quiescent_settled _ _ _ _ pool_disciplined _ Hnl Hq) as Hset.
    rewrite Forall_lookup in Hset. pose proof (Hset _ _ Ht) as Hth. unfold settled in Hth.
    destruct (pos th) as [|op|op|c op|op]; try done; [by left|right].
    destruct op as [task| | |]; try done; unfold_pool.
    + right. destruct (isFull (shared s)); simplify_eq. eauto.
    + left. by destruct (queue_ (shared s)), (running_ (shared s)); simplify_eq.
Qed.

(** ** stop *)

Definition pool_allowed (rl : pool_role) (op : call) : Prop :=
  match rl, op with
  | WTake, TakeTask | SStop, Stop | Client, Run _ | Client, QueueSize => True
  | _, _ => False
  end.
Lemma pool_may_call sh rl op : may_call pool_class sh rl op = true -> pool_allowed rl op.
Proof. by destruct rl, op. Qed.

Lemma joined_all (roles : list pool_role) k :
  (forall rl, rl ∈ roles -> is_worker rl = true -> rl = WExit) ->
  join_workers roles (SJoin k) <> [].
Proof.
  intros Hall. simpl. destruct (_ !! k) as [rl|] eqn:Hk; [|done].
  apply list_elem_of_lookup_2, list_elem_of_filter in Hk as [Hw Hin].
  by rewrite (Hall rl Hin Hw).
Qed.

(** C39.  [stop] ends: once it has set [running_] to false, when the workers, the
    joining thread and the calls in progress cannot go on, every worker has left
    [runInThread] and no thread is still in the loop of [stop] that joins them;
    none of them can have slept through the notification. *)
Theorem stop_ends_workers (numThreads : nat) (maxSize : Z) others ls s :
  steps pool_class (pool_start numThreads maxSize others) ls s ->
  running_ (shared s) = false ->
  (forall l, match l with
     | LCall _ op => op = TakeTask | LSpurious _ => False | _ => True end ->
     exec pool_class l s = None) ->
  forall t th, threads s !! t = Some th ->
    (is_worker (role th) = true -> role th = WExit) /\ (forall k, role th <> SJoin k).
Proof.
  intros Hs Hr Hstuck.
  pose proof (reachable_no_lost_wakeup _ _ _ _ pool_disciplined _ _ _ _ I Hs) as Hnl.
  pose proof (reachable_calls_ok _ _ _ _ _ _ pool_may_call Hs) as Hok. rewrite Forall_lookup in Hok.
  assert (Hset : Forall (settled pool_class (shared s)) (threads s)).
  { apply (quiescent_settled _ _ _ _ pool_disciplined _ Hnl). intros [] ?; try done; by apply Hstuck. }
  rewrite Forall_lookup in Hset.
  assert (Hidle : forall t th, threads s !! t = Some th -> pos th <> Idle -> role th = Client).
  { intros t [rl p] Ht Hp. pose proof (Hset _ _ Ht) as Hth. pose proof (Hok _ _ Ht) as Hc.
    unfold settled in Hth. destruct p as [|op|op|c op|op]; try done. specialize (Hc op eq_refl). simpl in *.
    destruct op as [task| | |], rl; try done. unfold_pool. rewrite Hr in Hth.
    by destruct (queue_ (shared s)). }
  assert (Hmove : forall t rl, threads s !! t = Some (Thread rl Idle) ->
            runInThread (shared s) rl ++ join_workers (role <$> threads s) rl = []).
  { intros t rl Ht. destruct (_ ++ _) as [|rl' m] eqn:Hm; [done|].
    specialize (Hstuck (LMove t rl') I). simpl in Hstuck. rewrite Ht in Hstuck.
    rewrite Hm, bool_decide_true in Hstuck by left. done. }
  assert (Hworkers : forall t th, threads s !! t = Some th -> is_worker (role th) = true ->
            role th = WExit).
  { intros t [rl p] Ht Hw. simpl in *. destruct (decide (p = Idle)) as [->|Hp];
      [|by assert (rl = Client) as -> by exact (Hidle t _ Ht Hp)].
    specialize (Hmove t rl Ht). destruct rl; try done; simpl in Hmove.
    - by rewrite Hr in Hmove.
    - specialize (Hstuck (LCall t TakeTask) eq_refl). simpl in Hstuck. by rewrite Ht in Hstuck. }
  intros t th Ht. split; [by eapply Hworkers|]. intros k Hk. destruct th as [rl p].
  simpl in Hk. subst rl. destruct (decide (p = Idle)) as [->|Hp];
    [|by specialize (Hidle t _ Ht Hp)].
  specialize (Hmove t _ Ht). simpl in Hmove. revert Hmove. apply joined_all.
  intros rl (th & -> & [u Hu]%list_elem_of_lookup)%list_elem_of_fmap. by apply (Hworkers u).
Qed.

(** A stopped pool: its workers have exited, its queue is full. *)
Record stopped_full (s : monitor ThreadPool condition call result pool_role) : Prop := {
  sf_running : running_ (shared s) = false;
  sf_full : isFull (shared s) = true;
  sf_exited : Forall (fun th => is_worker (role th) = true -> role th = WExit) (threads s);
  sf_calls : Forall (calls_ok pool_allowed) (threads s)
}.

Lemma moves_not_worker p roles rl rl' :
  rl' ∈ moves pool_class p roles rl -> (is_worker rl = true -> rl = WExit) ->
  is_worker rl' = false.
Proof.
  simpl. intros [Hin|Hin]%elem_of_app Hrl.
  - destruct rl; simpl in *; try by apply not_elem_of_nil in Hin.
    all: by specialize (Hrl eq_refl).
  - destruct rl; simpl in *; try by apply not_elem_of_nil in Hin.
    destruct (_ !! k) as [[]|]; try (by apply not_elem_of_nil in Hin);
      by apply list_elem_of_singleton in Hin as ->.
Qed.

Lemma stopped_step l s s' :
  stopped_full s -> exec pool_class l s = Some (Ok s') ->
  stopped_full s' /\ shared s' = shared s /\ accepted (history s') = accepted (history s).
Proof.
  intros [Hr Hf Hex Hok] H.
  pose proof (exec_calls_ok _ _ _ _ _ pool_may_call Hok H) as Hok'.
  rewrite Forall_lookup in Hex, Hok.
  assert (Hsame : shared s' = shared s /\ accepted (history s') = accepted (history s)).
  { destruct (exec_cases _ _ _ _ H) as [[-> ->]|(t & rl & op & r & ns & Ht & Hw & Hc & ->)]; [done|].
    pose proof (Hok _ _ Ht op eq_refl) as Ha. pose proof (Hex _ _ Ht) as Hx. simpl in Ha, Hx.
    unfold accepted. rewrite omap_app.
    destruct op as [task| | |]; unfold_pool.
    - by rewrite Hf in Hw.
    - destruct rl; try done. by specialize (Hx eq_refl).
    - injection Hc as <- <- <-. split; [|by rewrite app_nil_r].
      destruct (shared s); simpl in *; congruence.
    - simplify_eq. by rewrite app_nil_r. }
  destruct Hsame as [Hsh Hh]. split; [|done]. split; [by rewrite Hsh..| |done].
  apply Forall_lookup. intros t th' Ht Hw.
  destruct (exec_role _ _ _ _ _ _ H Ht) as (th & Hth & [Hs|[Hm|(op & sh & r & ns & Hp & _ & _ & Hret)]]).
  - rewrite Hs in *. by apply (Hex _ _ Hth).
  - by rewrite (moves_not_worker _ _ _ _ Hm (Hex _ _ Hth)) in Hw.
  - pose proof (Hok _ _ Hth op) as Ha. unfold current_call in Ha. rewrite Hp in Ha.
    specialize (Ha eq_refl). pose proof (Hex _ _ Hth) as Hx. rewrite Hret in *. simpl in *.
    destruct (role th), op, r; try done; by specialize (Hx eq_refl).
Qed.

(** [stop] wakes the workers only.  Once the pool is stopped, its workers have
    exited and its queue is full, no call of [run] ever returns: a thread that
    waits for room stays in [run] whatever happens, and so does a thread that
    calls [run] later; the tasks in the queue are never run. *)
Theorem stop_strands_producers (numThreads : nat) (maxSize : Z) others ls s ls' s' :
  steps pool_class (pool_start numThreads maxSize others) ls s ->
  running_ (shared s) = false -> isFull (shared s) = true ->
  Forall (fun th => is_worker (role th) = true -> role th = WExit) (threads s) ->
  steps pool_class s ls' s' ->
  shared s' = shared s /\ accepted (history s') = accepted (history s) /\
  forall t th task, threads s !! t = Some th -> current_call th = Some (Run task) ->
    exists th', threads s' !! t = Some th' /\ current_call th' = Some (Run task).
Proof.
  intros Hs Hr Hf Hex Hs'.
  assert (Hsf : stopped_full s).
  { split; [done..|]. apply (reachable_calls_ok _ _ _ _ _ _ pool_may_call Hs). }
  clear Hs Hr Hf Hex. induction Hs' as [s|s l s1 ls1 s2 H Hs' IH]; [naive_solver|].
  destruct (stopped_step _ _ _ Hsf H) as (Hsf1 & Hsh & Hacc).
  destruct (IH Hsf1) as (-> & -> & Hin). split_and!; [done..|].
  intros t th task Ht Hc.
  destruct (exec_current _ _ _ _ _ _ _ H Ht Hc) as (th1 & Ht1 & Hc1 & _); [|by eapply Hin].
  simpl. unfold run_waits. by rewrite (sf_full _ Hsf).
Qed.
End pool.

(** One worker, a queue of one task: the worker runs task 1, task 2 is in the
    queue, thread 1 waits to add task 3; thread 2 stops the pool. *)
Definition pool_demo0 : list (label (call (A:=nat)) (pool_role (A:=nat))) :=
  [LMove 0 WLoop; LMove 0 WTake; LCall 0 TakeTask; LLock 0; LGo 0 [];
   LCall 1 (Run (Some 1%nat)); LLock 1; LGo 1 [Some 0%nat]; LLock 0; LGo 0 [None];
   LCall 1 (Run (Some 2%nat)); LLock 1; LGo 1 [None];
   LCall 1 (Run (Some 3%nat)); LLock 1; LGo 1 [];
   LCall 2 Stop; LLock 2; LGo 2 []; LMove 0 WLoop; LMove 0 WExit].
Definition pool_demo1 : list (label (call (A:=nat)) (pool_role (A:=nat))) :=
  [LMove 2 (SJoin 1); LMove 2 SDone; LSpurious 1; LLock 1; LGo 1 []].
Definition pool_demo_start := pool_start (A:=nat) 1 1 [Client; SStop].
Definition pool_demo_state := default pool_demo_start (run pool_class pool_demo0 pool_demo_start).
Definition pool_demo_end := default pool_demo_start (run pool_class pool_demo1 pool_demo_state).

Lemma pool_demo_steps0 : steps pool_class pool_demo_start pool_demo0 pool_demo_state.
Proof. apply run_steps. vm_compute. reflexivity. Qed.
Lemma pool_demo_steps1 : steps pool_class pool_demo_state pool_demo1 pool_demo_end.
Proof. apply run_steps. vm_compute. reflexivity. Qed.

Lemma pool_demo_stopped :
  running_ (shared pool_demo_state) = false /\ isFull (shared pool_demo_state) = true.
Proof. vm_compute. split; reflexivity. Qed.
Lemma pool_demo_exited :
  Forall (fun th => is_worker (role th) = true -> role th = WExit) (threads pool_demo_state).
Proof. vm_compute. repeat constructor; intros [=]. Qed.

Lemma pool_fifo_witness :
  real (accepted (history pool_demo_state)) =
    handed (history pool_demo_state) ++ real (queue_ (shared pool_demo_state)) /\
  handed (history pool_demo_state) = [1%nat].
Proof.
  split; [exact (proj1 (pool_fifo _ _ _ _ _ pool_demo_steps0))|]. vm_compute. reflexivity.
Defined.

Lemma stop_strands_producers_witness :
  current_call <$> (threads pool_demo_end !! 1%nat) = Some (Some (Run (Some 3%nat))) /\
  accepted (history pool_demo_end) = [Some 1%nat; Some 2%nat].
Proof.
  destruct (stop_strands_producers 1 1 [Client; SStop] pool_demo0 pool_demo_state
    pool_demo1 pool_demo_end pool_demo_steps0 (proj1 pool_demo_stopped)
    (proj2 pool_demo_stopped) pool_demo_exited pool_demo_steps1) as (_ & Hacc & _).
  split; [vm_compute; reflexivity|]. rewrite Hacc. vm_compute. reflexivity.
Defined.

(** Two workers that sleep when thread 2 stops the pool. *)
Definition stop_demo : list (label (call (A:=nat)) (pool_role (A:=nat))) :=
  [LMove 0 WLoop; LMove 0 WTake; LCall 0 TakeTask; LLock 0; LGo 0 [];
   LMove 1 WLoop; LMove 1 WTake; LCall 1 TakeTask; LLock 1; LGo 1 [];
   LCall 2 Stop; LLock 2; LGo 2 [];
   LLock 1; LGo 1 []; LMove 1 WLoop; LMove 1 WExit;
   LLock 0; LGo 0 []; LMove 0 WLoop; LMove 0 WExit;
   LMove 2 (SJoin 1); LMove 2 (SJoin 2); LMove 2 SDone].
Definition stop_demo_start := pool_start (A:=nat) 2 0 [SStop].
Definition stop_demo_end := default stop_demo_start (run pool_class stop_demo stop_demo_start).

Lemma stop_demo_steps : steps pool_class stop_demo_start stop_demo stop_demo_end.
Proof. apply run_steps. vm_compute. reflexivity. Qed.

Lemma stop_demo_quiet l :
  match l with LCall _ op => op = TakeTask | LSpurious _ => False | _ => True end ->
  exec pool_class l stop_demo_end = None.
Proof.
  assert (Hend : threads stop_demo_end =
    [Thread WExit Idle; Thread WExit Idle; Thread SDone Idle]) by (vm_compute; reflexivity).
  destruct l as [t op|t rl|t|t ws|t]; cbn [exec]; rewrite Hend; intros Hl;
    [subst op|..]; destruct t as [|[|[|t]]]; try reflexivity; by destruct Hl.
Qed.

Lemma stop_ends_workers_witness :
  running_ (shared stop_demo_end) = false /\
  forall t th, threads stop_demo_end !! t = Some th ->
    (is_worker (role th) = true -> role th = WExit) /\ (forall k, role th <> SJoin k).
Proof.
  split; [vm_compute; reflexivity|].
  refine (stop_ends_workers 2 0 [SStop] stop_demo _ stop_demo_steps _ stop_demo_quiet).
  vm_compute. reflexivity.
Defined.
End ThreadPool.
