(* ===== verification/Date.v ===== *)
(** * Dates ([muduo/base/Date.cc], [Date.h])

    A date is a Julian day number.  The conversions from and to year, month and
    day are compared with the Gregorian calendar, which is defined here by the
    lengths of its months. *)

From S2P Require Import Prelude.
From Stdlib Require Import Ascii.
From stdpp Require Import strings pretty.
#[global] Open Scope Z_scope.
#[local] Open Scope outcome_scope.

Module Date.
(** [struct Date::YearMonthDay] and [class Date]. *)
Record YearMonthDay := Ymd { year : Z; month : Z; day : Z }.
#[export] Instance YearMonthDay_eq_dec : EqDecision YearMonthDay.
Proof. solve_decision. Defined.
Record Date := Date_ { julianDayNumber_ : Z }.

Definition getJulianDayNumber (year month day : Z) : outcome Z :=
  let* a := ((#14 - #month) / #12)%int in
  let* y := (#year + #4800 - #a)%int in
  let* m := (#month + #12 * #a - #3)%int in
  (#day + (#153 * #m + #2) / #5 + #y * #365 + #y / #4 - #y / #100 + #y / #400 - #32045)%int.

Definition getYearMonthDay (julianDayNumber : Z) : outcome YearMonthDay :=
  let* a := (#julianDayNumber + #32044)%int in
  let* b := ((#4 * #a + #3) / #146097)%int in
  let* c := (#a - ((#b * #146097) / #4))%int in
  let* d := ((#4 * #c + #3) / #1461)%int in
  let* e := (#c - ((#1461 * #d) / #4))%int in
  let* m := ((#5 * #e + #2) / #153)%int in
  let* day := (#e - ((#153 * #m + #2) / #5) + #1)%int in
  let* month := (#m + #3 - #12 * (#m / #10))%int in
  let* year := (#b * #100 + #d - #4800 + (#m / #10))%int in
  Ok (Ymd year month day).

(** [Date(int, int, int)], [yearMonthDay()], [valid()], [weekDay()] and the
    comparisons. *)
Definition of_ymd (y m d : Z) : outcome Date :=
  let* n := getJulianDayNumber y m d in Ok (Date_ n).
Definition yearMonthDay (x : Date) : outcome YearMonthDay := getYearMonthDay (julianDayNumber_ x).
Definition valid (x : Date) : bool := 0 <? julianDayNumber_ x.
Definition weekDay (x : Date) : outcome Z := ((#(julianDayNumber_ x) + #1) % #7)%int.
Definition date_lt (x y : Date) : bool := julianDayNumber_ x <? julianDayNumber_ y.
Definition date_eq (x y : Date) : bool := julianDayNumber_ x =? julianDayNumber_ y.

Definition kJulianDayOf1970_01_01 : outcome Z := getJulianDayNumber 1970 1 1.

(** ["%4d-%02d-%02d"]. *)
Fixpoint fill (c : Ascii.ascii) (n : nat) (s : string) : string :=
  match n with O => s | S n => String c (fill c n s) end.
Definition pad (c : Ascii.ascii) (width : nat) (s : string) : string :=
  fill c (width - String.length s) s.
Definition toIsoString (x : Date) : outcome string :=
  let* ymd := yearMonthDay x in
  Ok (pad " "%char 4 (pretty (year ymd)) +:+ "-" +:+ pad "0"%char 2 (pretty (month ymd)) +:+ "-" +:+
      pad "0"%char 2 (pretty (day ymd)))%string.

Example date_epoch : kJulianDayOf1970_01_01 = Ok 2440588. Proof. reflexivity. Qed.
Example date_iso : (let* x := of_ymd 2016 2 29 in toIsoString x) = Ok "2016-02-29"%string.
Proof. vm_compute. reflexivity. Qed.
Example date_iso_padded : (let* x := of_ymd 33 1 1 in toIsoString x) = Ok "  33-01-01"%string.
Proof. vm_compute. reflexivity. Qed.
Example date_thursday : (let* n := kJulianDayOf1970_01_01 in weekDay (Date_ n)) = Ok 4.
Proof. reflexivity. Qed.

(** ** The Gregorian calendar *)

Definition leap (y : Z) : bool := (y mod 4 =? 0) && (negb (y mod 100 =? 0) || (y mod 400 =? 0)).
Definition days_in_month (y m : Z) : Z :=
  if m =? 2 then if leap y then 29 else 28
  else if (m =? 4) || (m =? 6) || (m =? 9) || (m =? 11) then 30 else 31.

(** The dates of the calendar from the year 4799 BC (-4799) to the year 5000000. *)
Definition calendar_date (d : YearMonthDay) : Prop :=
  -4799 <= year d <= 5000000 /\ 1 <= month d <= 12 /\ 1 <= day d <= days_in_month (year d) (month d).

Definition next_day (d : YearMonthDay) : YearMonthDay :=
  if day d <? days_in_month (year d) (month d) then Ymd (year d) (month d) (day d + 1)
  else if month d <? 12 then Ymd (year d) (month d + 1) 1
  else Ymd (year d + 1) 1 1.

(** Years counted from March 4801 BC, months from March. *)
Definition march_year (y m : Z) : Z := y + 4800 - (if m <=? 2 then 1 else 0).
Definition march_month (m : Z) : Z := if m <=? 2 then m + 9 else m - 3.
Definition days_before_year (y : Z) : Z := y * 365 + y / 4 - y / 100 + y / 400.
Definition days_before_month (m : Z) : Z := (153 * m + 2) / 5.
Definition day_number (d : YearMonthDay) : Z :=
  day d + days_before_month (march_month (month d)) +
  days_before_year (march_year (year d) (month d)) - 32045.

Ltac divs := Z.div_mod_to_equations; lia.
Ltac quot_div := repeat (rewrite Z.quot_div_nonneg by divs).

Lemma march_cases m :
  1 <= m <= 12 ->
  ((14 - m) ÷ 12 = if m <=? 2 then 1 else 0) /\
  m + 12 * ((14 - m) ÷ 12) - 3 = march_month m /\ 0 <= march_month m <= 11.
Proof.
  intros Hm. unfold march_month. rewrite Z.quot_div_nonneg by lia.
  destruct (m <=? 2) eqn:Hb; reflect_bools.
  - assert ((14 - m) / 12 = 1) as -> by divs. lia.
  - assert ((14 - m) / 12 = 0) as -> by divs. lia.
Qed.

Lemma getJulianDayNumber_spec d :
  -4799 <= year d <= 5000000 -> 1 <= month d <= 12 -> 1 <= day d <= 31 ->
  getJulianDayNumber (year d) (month d) (day d) = Ok (day_number d).
Proof.
  intros Hy Hm Hd. unfold getJulianDayNumber.
  destruct (march_cases _ Hm) as (Ha & Hm' & Hr).
  assert (Hq : 0 <= (14 - month d) ÷ 12 <= 1) by (rewrite Ha; destruct (_ <=? _); lia).
  rewrite (int_op_ok Z.sub) by lia. cbn [bind]. rewrite (int_op_ok Z.quot) by lia. cbn [bind].
  int_eval lia. rewrite Hm'. set (M := march_month (month d)) in *.
  assert (Hy' : year d + 4800 - (14 - month d) ÷ 12 = march_year (year d) (month d))
    by (unfold march_year; rewrite Ha; lia).
  rewrite Hy'. set (Y := march_year (year d) (month d)) in *.
  assert (HY : 0 <= Y <= 5004800) by lia.
  int_eval ltac:(try (rewrite ?Z.quot_div_nonneg by divs); divs).
  do 2 f_equal. unfold day_number, days_before_month, days_before_year. fold M Y.
  quot_div. lia.
Qed.

(** ** From the day number to the date *)

(** The days of a month, counted from March. *)
Definition march_length (y m : Z) : Z :=
  if m =? 11 then if leap (y + 1) then 29 else 28
  else days_before_month (m + 1) - days_before_month m.

Lemma leap_shift y k : leap (y + 400 * k) = leap y.
Proof.
  unfold leap.
  assert ((y + 400 * k) mod 4 = y mod 4) as -> by divs.
  assert ((y + 400 * k) mod 100 = y mod 100) as -> by divs.
  assert ((y + 400 * k) mod 400 = y mod 400) as -> by divs. done.
Qed.

Lemma march_length_spec y m :
  1 <= m <= 12 -> march_length (march_year y m) (march_month m) = days_in_month y m.
Proof.
  intros Hm. unfold march_length, march_month, march_year, days_in_month, days_before_month.
  assert (m = 1 \/ m = 2 \/ m = 3 \/ m = 4 \/ m = 5 \/ m = 6 \/ m = 7 \/ m = 8 \/ m = 9 \/
          m = 10 \/ m = 11 \/ m = 12) as Hc by lia.
  destruct Hc as [->|[->|[->|[->|[->|[->|[->|[->|[->|[->|[->| ->]]]]]]]]]]]; try reflexivity.
  simpl. replace (y + 4800 - 1 + 1) with (y + 400 * 12) by lia. by rewrite leap_shift.
Qed.

Lemma leap_year_length y :
  0 <= y -> days_before_year (y + 1) - days_before_year y = if leap (y + 1) then 366 else 365.
Proof.
  intros Hy. unfold days_before_year, leap.
  destruct ((y + 1) mod 4 =? 0) eqn:H4, ((y + 1) mod 100 =? 0) eqn:H100,
    ((y + 1) mod 400 =? 0) eqn:H400; reflect_bools; simpl; divs.
Qed.

(** The part of [getYearMonthDay] after the centuries and years have been
    separated: month and day from the day [e] of a year that begins in March. *)
Definition month_of (e : Z) : Z := (5 * e + 2) / 153.
Lemma month_of_spec M k :
  0 <= M <= 11 -> 0 <= k < (if M =? 11 then 29 else days_before_month (M + 1) - days_before_month M) ->
  month_of (days_before_month M + k) = M.
Proof.
  intros HM Hk. unfold month_of, days_before_month in *.
  destruct (M =? 11) eqn:HM11; reflect_bools; divs.
Qed.

Ltac int_step x :=
  int_eval ltac:(rewrite ?Z.quot_div_nonneg by lia; divs);
  rewrite ?Z.quot_div_nonneg by lia; fold x.

Lemma getYearMonthDay_value n :
  -32044 <= n <= 2000000000 / 4 ->
  let a := n + 32044 in
  let b := (4 * a + 3) / 146097 in
  let c := a - b * 146097 / 4 in
  let d := (4 * c + 3) / 1461 in
  let e := c - 1461 * d / 4 in
  let m := month_of e in
  0 <= c <= 36524 /\ 0 <= d <= 99 /\ 0 <= e <= 365 /\ 0 <= m <= 11 /\
  getYearMonthDay n = Ok (Ymd (b * 100 + d - 4800 + m / 10) (m + 3 - 12 * (m / 10))
                             (e - days_before_month m + 1)).
Proof.
  intros Hn a b c d e m.
  assert (Ha : 0 <= a <= 500032044) by (unfold a; divs).
  assert (Hb : 0 <= b <= 13700) by (unfold b; divs).
  assert (Hc : 0 <= c <= 36524) by (unfold c, b; divs).
  assert (Hd : 0 <= d <= 99) by (unfold d; divs).
  assert (He : 0 <= e <= 365) by (unfold e, d; divs).
  assert (Hm : 0 <= m <= 11) by (unfold m, month_of; divs).
  split_and!; try lia. unfold getYearMonthDay.
  int_eval lia. fold a. int_step b. int_step c. int_step d. int_step e. int_step m.
  fold (month_of e). fold m. int_step b. rewrite ?Z.quot_div_nonneg by lia.
  unfold days_before_month. done.
Qed.

(** Days of the calendar: [k] days into the month [M] of the year [Y]. *)
Lemma getYearMonthDay_march Y M k :
  0 <= Y <= 1300000 -> 0 <= M <= 11 -> 0 <= k < march_length Y M ->
  getYearMonthDay (1 + k + days_before_month M + days_before_year Y - 32045) =
    Ok (Ymd (Y - 4800 + M / 10) (M + 3 - 12 * (M / 10)) (k + 1)).
Proof.
  intros HY HM Hk.
  set (n := 1 + k + days_before_month M + days_before_year Y - 32045).
  set (E := days_before_month M + k).
  assert (HE : 0 <= E <= 365 /\ (E = 365 -> leap (Y + 1) = true)).
  { unfold E, march_length, days_before_month in *. destruct (M =? 11) eqn:HM11; reflect_bools.
    - subst M. destruct (leap (Y + 1)); (split; [divs|]); intros; [done|divs].
    - split; [divs|]. intros. divs. }
  assert (Hn : -32044 <= n <= 2000000000 / 4).
  { unfold n, E, days_before_year in *. divs. }
  destruct (getYearMonthDay_value n Hn) as (Hc & Hd & He & Hm & ->). cbv zeta in *.
  assert (Hlong : E = 365 -> days_before_year (Y + 1) = days_before_year Y + 366).
  { intros HE'. pose proof (leap_year_length Y). destruct HE as [_ HE].
    rewrite (HE HE') in *. lia. }
  set (a := n + 32044) in *.
  assert (Ha : a = E + days_before_year Y) by (unfold a, n, E; lia).
  assert (Hb : (4 * a + 3) / 146097 = Y / 100).
  { rewrite Ha. unfold days_before_year in *.
    destruct (decide (E = 365)) as [HE'|HE']; [specialize (Hlong HE')|clear Hlong]; divs. }
  rewrite Hb in *. set (c := a - Y / 100 * 146097 / 4) in *.
  assert (HdY : (4 * c + 3) / 1461 = Y mod 100).
  { unfold c. rewrite Ha. unfold days_before_year in *.
    destruct (decide (E = 365)) as [HE'|HE']; [specialize (Hlong HE')|clear Hlong]; divs. }
  rewrite HdY in *.
  assert (HeE : c - 1461 * (Y mod 100) / 4 = E).
  { unfold c. rewrite Ha. unfold days_before_year. divs. }
  rewrite HeE in *.
  assert (HmM : month_of E = M).
  { apply month_of_spec; [done|]. unfold march_length in Hk.
    destruct (M =? 11); [destruct (leap (Y + 1))|]; lia. }
  rewrite HmM. unfold E. do 2 f_equal; [|lia].
  pose proof (Z.div_mod Y 100). lia.
Qed.

Lemma day_number_march d :
  1 <= month d <= 12 ->
  day_number d = 1 + (day d - 1) + days_before_month (march_month (month d)) +
    days_before_year (march_year (year d) (month d)) - 32045.
Proof. unfold day_number. lia. Qed.

(** The dates for which no intermediate result of [getYearMonthDay] overflows. *)
Definition convertible (d : YearMonthDay) : Prop := calendar_date d /\ year d <= 1200000.

(** C23.  The two conversions of [Date] are inverse on the Gregorian calendar, from the
    year 4799 BC to the year 1200000: [getJulianDayNumber] gives a date its day
    number without overflow, and [getYearMonthDay] gives the date back. *)
Theorem date_roundtrip d :
  convertible d ->
  getJulianDayNumber (year d) (month d) (day d) = Ok (day_number d) /\
  getYearMonthDay (day_number d) = Ok d.
Proof.
  intros [(Hy & Hm & Hd) Hy'].
  assert (Hd' : day d <= 31).
  { unfold days_in_month in Hd. destruct (month d =? 2); [destruct (leap (year d))|destruct (_ || _)]; lia. }
  split; [apply getJulianDayNumber_spec; lia|].
  destruct (march_cases _ Hm) as (_ & _ & HM).
  rewrite day_number_march by done. rewrite getYearMonthDay_march; [|unfold march_year; destruct (_ <=? _); lia|done|].
  - f_equal. destruct d as [y m k]. simpl in *. unfold march_year, march_month in *.
    destruct (m <=? 2) eqn:Hb; reflect_bools; f_equal; divs.
  - rewrite march_length_spec by done. lia.
Qed.

Lemma date_roundtrip_witness :
  convertible (Ymd 2016 2 29) /\ day_number (Ymd 2016 2 29) = 2457448 /\
  getYearMonthDay 2457448 = Ok (Ymd 2016 2 29).
Proof.
  assert (H : convertible (Ymd 2016 2 29)).
  { unfold convertible, calendar_date, days_in_month. simpl. lia. }
  split; [exact H|]. split; [reflexivity|]. exact (proj2 (date_roundtrip _ H)).
Defined.

(** Every day number is the number of a date. *)
Lemma date_of_number n :
  0 <= n <= 400000000 ->
  exists d, getYearMonthDay n = Ok d /\ calendar_date d /\ year d <= 1100000 /\ day_number d = n.
Proof.
  intros Hn. assert (Hn' : -32044 <= n <= 2000000000 / 4) by divs.
  destruct (getYearMonthDay_value n Hn') as (Hc & Hd & He & Hm & _). cbv zeta in *.
  set (a := n + 32044) in *. set (b := (4 * a + 3) / 146097) in *.
  set (c := a - b * 146097 / 4) in *. set (d := (4 * c + 3) / 1461) in *.
  set (e := c - 1461 * d / 4) in *. set (m := month_of e) in *.
  set (Y := b * 100 + d). set (k := e - days_before_month m).
  assert (Hb : 0 <= b <= 10953) by (unfold b, a; divs).
  assert (Ha : a = days_before_year Y + e).
  { unfold days_before_year, Y, e, c. clearbody d b. divs. }
  assert (HY : 12 <= Y <= 1095399).
  { unfold days_before_year in Ha. clearbody Y. unfold a in Ha. divs. }
  assert (Hlong : e = 365 -> leap (Y + 1) = true).
  { intros He'. assert (Hd3 : d mod 4 = 3) by (unfold e, d in *; divs).
    assert (Hb3 : d = 99 -> b mod 4 = 3).
    { intros Hd9. assert (Hc9 : c = 36524) by (unfold e in He'; rewrite Hd9 in He'; divs).
      clear -Hc9. unfold c, b in *. divs. }
    unfold leap. apply andb_true_iff. split; [apply Z.eqb_eq; unfold Y; divs|].
    apply orb_true_iff. destruct (decide (d = 99)) as [H9|H9]; [right|left].
    - apply Z.eqb_eq. specialize (Hb3 H9). unfold Y. rewrite H9. divs.
    - apply negb_true_iff, Z.eqb_neq. unfold Y. divs. }
  assert (Hk : 0 <= k < march_length Y m).
  { unfold k, m, month_of, march_length, days_before_month. clearbody e.
    destruct (_ =? 11) eqn:H11; reflect_bools; [|divs].
    destruct (leap (Y + 1)) eqn:Hl; [divs|].
    assert (e <> 365) by (intros ->; by discriminate Hlong). divs. }
  assert (HY' : 0 <= Y <= 1300000) by lia.
  pose proof (getYearMonthDay_march Y m k HY' Hm Hk) as Hg.
  replace (1 + k + days_before_month m + days_before_year Y - 32045) with n in Hg
    by (unfold k, a in *; lia).
  assert (Hmarch : march_year (Y - 4800 + m / 10) (m + 3 - 12 * (m / 10)) = Y /\
                   march_month (m + 3 - 12 * (m / 10)) = m /\ 1 <= m + 3 - 12 * (m / 10) <= 12).
  { unfold march_year, march_month. clearbody m. destruct (_ <=? _) eqn:?; reflect_bools; divs. }
  destruct Hmarch as (HyY & HmM & Hm12).
  exists (Ymd (Y - 4800 + m / 10) (m + 3 - 12 * (m / 10)) (k + 1)).
  split; [done|]. unfold calendar_date. cbn [year month day].
  rewrite <-(march_length_spec _ _ Hm12), HyY, HmM.
  unfold day_number. cbn [year month day]. rewrite HyY, HmM.
  assert (Hke : k + days_before_month m = e) by (unfold k; lia).
  clearbody m k. split_and!; unfold a in *; divs.
Qed.

(** The day of the year. *)
Lemma day_of_year d :
  calendar_date d ->
  0 <= day_number d - day_number (Ymd (year d) 1 1) <= if leap (year d) then 365 else 364.
Proof.
  intros (Hy & Hm & Hd). unfold day_number, march_year, march_month. simpl.
  change (days_before_month (1 + 9)) with 306.
  pose proof (leap_year_length (year d + 4799) ltac:(lia)) as Hl.
  replace (leap (year d + 4799 + 1)) with (leap (year d)) in Hl
    by (replace (year d + 4799 + 1) with (year d + 400 * 12) by lia; by rewrite leap_shift).
  unfold days_in_month in Hd. unfold days_before_month.
  destruct (month d <=? 2) eqn:H2; reflect_bools;
    replace (year d + 4800 - 1) with (year d + 4799) by lia;
    replace (year d + 4800 - 0) with (year d + 4799 + 1) by lia.
  - destruct (month d =? 2) eqn:H2'; reflect_bools; [rewrite H2' in *|assert (month d = 1) as Hm1 by lia; rewrite Hm1 in *];
      destruct (leap (year d)); simpl in *; divs.
  - assert (month d =? 2 = false) as H2' by (apply Z.eqb_neq; lia). rewrite H2' in *.
    assert (1 <= day d <= 31) by (destruct (_ || _); lia). clear Hd.
    assert (0 <= (153 * (month d - 3) + 2) / 5 <= 275) by divs.
    destruct (leap (year d)); lia.
Qed.

(** Consecutive dates have consecutive day numbers, and the day of the week
    follows the seven-day cycle from Thursday, 1 January 1970. *)
Theorem date_next_day d :
  calendar_date d -> year d < 5000000 ->
  day_number (next_day d) = day_number d + 1 /\
  (0 <= day_number d -> weekDay (Date_ (day_number d)) = Ok ((day_number d - 2440588 + 4) mod 7)).
Proof.
  intros (Hy & Hm & Hd) Hy'. split.
  - unfold next_day. destruct (_ <? _) eqn:Hb; reflect_bools; [unfold day_number; simpl; lia|].
    assert (Hlast : day d = march_length (march_year (year d) (month d)) (march_month (month d)))
      by (rewrite march_length_spec by done; lia).
    unfold day_number, march_length, march_year, march_month in *.
    destruct (month d <? 12) eqn:H12; reflect_bools; simpl.
    + destruct (month d =? 2) eqn:H2; reflect_bools.
      * rewrite H2 in *. simpl in *.
        pose proof (leap_year_length (year d + 4800 - 1)) as Hl.
        replace (year d + 4800 - 0) with (year d + 4800 - 1 + 1) by lia.
        change (days_before_month (2 + 1 - 3)) with 0. change (days_before_month (2 + 9)) with 337.
        destruct (leap _); lia.
      * destruct (month d <=? 2) eqn:Hb2; reflect_bools.
        -- assert (Hm1 : month d = 1) by lia. rewrite Hm1 in *. simpl in *.
           change (1 + 9 + 1) with 11 in *. change (1 + 1 + 9) with 11. lia.
        -- replace (month d + 1 <=? 2) with false by (symmetry; apply Z.leb_gt; lia).
           destruct (month d - 3 =? 11) eqn:H11; reflect_bools; [lia|].
           replace (month d + 1 - 3) with (month d - 3 + 1) by lia. lia.
    + assert (Hm12 : month d = 12) by lia. rewrite Hm12 in *. simpl in *.
      replace (year d + 1 + 4800 - 1) with (year d + 4800 - 0) by lia.
      change (days_before_month (1 + 9)) with 306.
      change (days_before_month (12 - 3 + 1) - days_before_month (12 - 3)) with 31 in Hlast.
      change (days_before_month (12 - 3)) with 275. lia.
  - intros Hn. unfold weekDay. cbn [julianDayNumber_].
    assert (day_number d <= 2000000000).
    { unfold day_number, days_before_month, days_before_year, march_year, march_month.
      assert (day d <= 31) by (unfold days_in_month in Hd;
        destruct (month d =? 2); [destruct (leap (year d))|destruct (_ || _)]; lia).
      destruct (_ <=? _) eqn:?; reflect_bools; divs. }
    rewrite (int_op_ok Z.add) by lia. rewrite int_op_ok; rewrite Z.rem_mod_nonneg by lia; [|divs].
    f_equal. divs.
Qed.

Lemma date_next_day_witness :
  day_number (next_day (Ymd 2000 2 28)) = day_number (Ymd 2000 2 28) + 1 /\
  next_day (Ymd 2000 2 28) = Ymd 2000 2 29.
Proof.
  split; [|reflexivity].
  assert (H : calendar_date (Ymd 2000 2 28)) by (unfold calendar_date, days_in_month; simpl; lia).
  exact (proj1 (date_next_day _ H ltac:(simpl; lia))).
Defined.
End Date.
