(* ===== verification/TimeZone.v ===== *)
(** * Time zones ([muduo/base/TimeZone.cc])

    The conversion between seconds and calendar time in UTC, the reader of
    zone files, and the search for the rules in force at a time.  [gmtime_r]
    and [timegm] of the C library are parameters. *)

From S2P Require Import Prelude Endian Date.
#[local] Open Scope outcome_scope.

Module TimeZone.
Import Date.

(** [struct tm]; [tm_zone] is the text it points to. *)
Record tm := Tm {
  tm_sec : Z; tm_min : Z; tm_hour : Z; tm_mday : Z; tm_mon : Z; tm_year : Z;
  tm_wday : Z; tm_yday : Z; tm_isdst : Z; tm_gmtoff : Z; tm_zone : bytes
}.
Definition eta_tm (t : tm) : tm :=
  Tm (tm_sec t) (tm_min t) (tm_hour t) (tm_mday t) (tm_mon t) (tm_year t)
     (tm_wday t) (tm_yday t) (tm_isdst t) (tm_gmtoff t) (tm_zone t).
#[export] Instance set_tm_sec : Setter tm_sec. Proof. build_setter eta_tm tm_sec. Defined.
#[export] Instance set_tm_min : Setter tm_min. Proof. build_setter eta_tm tm_min. Defined.
#[export] Instance set_tm_hour : Setter tm_hour. Proof. build_setter eta_tm tm_hour. Defined.
#[export] Instance set_tm_mday : Setter tm_mday. Proof. build_setter eta_tm tm_mday. Defined.
#[export] Instance set_tm_mon : Setter tm_mon. Proof. build_setter eta_tm tm_mon. Defined.
#[export] Instance set_tm_year : Setter tm_year. Proof. build_setter eta_tm tm_year. Defined.
#[export] Instance set_tm_wday : Setter tm_wday. Proof. build_setter eta_tm tm_wday. Defined.
#[export] Instance set_tm_yday : Setter tm_yday. Proof. build_setter eta_tm tm_yday. Defined.
#[export] Instance set_tm_isdst : Setter tm_isdst. Proof. build_setter eta_tm tm_isdst. Defined.
#[export] Instance set_tm_gmtoff : Setter tm_gmtoff. Proof. build_setter eta_tm tm_gmtoff. Defined.
#[export] Instance set_tm_zone : Setter tm_zone. Proof. build_setter eta_tm tm_zone. Defined.
Definition zero_tm : tm := Tm 0 0 0 0 0 0 0 0 0 0 [].

Definition kSecondsPerDay : Z := 86400.

(** The argument is an [unsigned]. *)
Definition fillHMS (seconds : Z) (utc : tm) : tm :=
  let utc := utc <| tm_sec := seconds mod 60 |> in
  let minutes := seconds / 60 in
  utc <| tm_min := minutes mod 60 |> <| tm_hour := minutes / 60 |>.

Definition toUtcTime (secondsSinceEpoch : Z) (yday : bool) : outcome tm :=
  let utc := zero_tm <| tm_zone := [Byte.x47; Byte.x4d; Byte.x54] |> in  (* GMT *)
  let seconds := s32 (Z.rem secondsSinceEpoch kSecondsPerDay) in
  let days := s32 (secondsSinceEpoch ÷ kSecondsPerDay) in
  let* sd :=
    (if seconds <? 0 then
       let* seconds := (#seconds + #kSecondsPerDay)%int in
       let* days := (#days - #1)%int in Ok (seconds, days)
     else Ok (seconds, days)) in
  let '(seconds, days) := sd in
  let utc := fillHMS (u32 seconds) utc in
  let* epoch := kJulianDayOf1970_01_01 in
  let* n := (#days + #epoch)%int in
  let date := Date_ n in
  let* ymd := yearMonthDay date in
  let* y := (#(year ymd) - #1900)%int in
  let* mon := (#(month ymd) - #1)%int in
  let* wday := weekDay date in
  let utc := utc <| tm_year := y |> <| tm_mon := mon |> <| tm_mday := day ymd |>
                 <| tm_wday := wday |> in
  if yday then
    let* startOfYear := of_ymd (year ymd) 1 1 in
    let* k := (#(julianDayNumber_ date) - #(julianDayNumber_ startOfYear))%int in
    Ok (utc <| tm_yday := k |>)
  else Ok utc.

Definition fromUtcTime6 (year month day hour minute seconds : Z) : outcome Z :=
  let* date := of_ymd year month day in
  let* secondsInDay := (#hour * #3600 + #minute * #60 + #seconds)%int in
  let* epoch := kJulianDayOf1970_01_01 in
  let* days := (#(julianDayNumber_ date) - #epoch)%int in
  Ok (days * kSecondsPerDay + secondsInDay).

Definition fromUtcTime (utc : tm) : outcome Z :=
  let* y := (#(tm_year utc) + #1900)%int in
  let* m := (#(tm_mon utc) + #1)%int in
  fromUtcTime6 y m (tm_mday utc) (tm_hour utc) (tm_min utc) (tm_sec utc).

(** ** Rules of a zone *)

Record Transition := Transition_ { gmttime : Z; localtime : Z; localtimeIdx : Z }.
Record Localtime := Localtime_ { gmtOffset : Z; isDst : bool; arrbIdx : Z }.
Record Data := Data_ {
  transitions : list Transition;
  localtimes : list Localtime;
  abbreviation : bytes
}.

(** [struct Comp]. *)
Definition comp (compareGmt : bool) (lhs rhs : Transition) : bool :=
  if compareGmt then gmttime lhs <? gmttime rhs else localtime lhs <? localtime rhs.
Definition comp_equal (compareGmt : bool) (lhs rhs : Transition) : bool :=
  if compareGmt then gmttime lhs =? gmttime rhs else localtime lhs =? localtime rhs.

(** [std::lower_bound]: a binary search in [first, first + len). *)
Fixpoint lower_bound (fuel : nat) (lt : Transition -> Transition -> bool) (v : list Transition)
    (first len : nat) (x : Transition) : nat :=
  match fuel, len with
  | S fuel, S _ =>
      let half := Nat.div2 len in
      match v !! (first + half)%nat with
      | Some t =>
          if lt t x then lower_bound fuel lt v (first + half + 1) (len - half - 1) x
          else lower_bound fuel lt v first half x
      | None => first
      end
  | _, _ => first
  end.

(** [v[i]] and [v.front()]: an access outside the vector is undefined. *)
Definition at_index {A} (v : list A) (i : Z) : outcome A :=
  match (if 0 <=? i then v !! Z.to_nat i else None) with
  | Some a => Ok a
  | None => Crash OutOfBounds
  end.

Definition findLocaltime (data : Data) (sentry : Transition) (gmt : bool) : outcome Localtime :=
  match transitions data with
  | [] => at_index (localtimes data) 0
  | front :: _ =>
      if comp gmt sentry front then at_index (localtimes data) 0
      else
        let n := length (transitions data) in
        let transI := lower_bound n (comp gmt) (transitions data) 0 n sentry in
        match transitions data !! transI with
        | Some t =>
            if comp_equal gmt sentry t then at_index (localtimes data) (localtimeIdx t)
            else
              let* _ := assert_ (negb (transI =? 0)%nat) in
              let* t := at_index (transitions data) (Z.of_nat transI - 1) in
              at_index (localtimes data) (localtimeIdx t)
        | None =>
            let* t := at_index (transitions data) (Z.of_nat n - 1) in
            at_index (localtimes data) (localtimeIdx t)
        end
  end.

(** [TimeZone(int eastOfUtc, const char* name)]. *)
Definition fixed_zone (eastOfUtc : Z) (name : bytes) : Data :=
  Data_ [] [Localtime_ eastOfUtc false 0] name.

(** The C string at an index of [abbreviation]. *)
Fixpoint c_string (s : bytes) : bytes :=
  match s with
  | [] => []
  | b :: s => if b2z b =? 0 then [] else b :: c_string s
  end.
Definition zone_name (abbreviation : bytes) (i : Z) : outcome bytes :=
  if (0 <=? i) && (i <=? Z.of_nat (length abbreviation))
  then Ok (c_string (drop (Z.to_nat i) abbreviation)) else Crash OutOfBounds.

(** [gmtime_r] and [timegm] of the C library. *)
Section local_time.
Context (gmtime : Z -> tm) (timegm : tm -> Z).

Definition toLocalTime (data_ : option Data) (seconds : Z) : outcome tm :=
  match data_ with
  | None => Crash AssertFailed
  | Some data =>
      let* local := findLocaltime data (Transition_ seconds 0 0) true in
      let localSeconds := seconds + gmtOffset local in
      let* zone := zone_name (abbreviation data) (arrbIdx local) in
      Ok (gmtime localSeconds <| tm_isdst := if isDst local then 1 else 0 |>
            <| tm_gmtoff := gmtOffset local |> <| tm_zone := zone |>)
  end.

Definition fromLocalTime (data_ : option Data) (localTm : tm) : outcome Z :=
  match data_ with
  | None => Crash AssertFailed
  | Some data =>
      let seconds := timegm localTm in
      let* local := findLocaltime data (Transition_ 0 seconds 0) false in
      let* seconds :=
        (if negb (tm_isdst localTm =? 0) then
           let* tryTm := toLocalTime data_ (seconds - gmtOffset local) in
           if (tm_isdst tryTm =? 0) && (tm_hour tryTm =? tm_hour localTm) &&
              (tm_min tryTm =? tm_min localTm)
           then Ok (seconds - 3600) else Ok seconds
         else Ok seconds) in
      Ok (seconds - gmtOffset local)
  end.
End local_time.

(** ** Zone files *)

(** A read from the file: a value and the rest, a [logic_error], or undefined
    behaviour. *)
Inductive rd (A : Type) := Got (a : A) (rest : bytes) | Thrown | Undefined (c : crash).
Arguments Got {A} a rest.
Arguments Thrown {A}.
Arguments Undefined {A} c.
Definition rd_bind {A B} (m : rd A) (k : A -> bytes -> rd B) : rd B :=
  match m with Got a rest => k a rest | Thrown => Thrown | Undefined c => Undefined c end.
Notation "'read' x , f <- m ; k" := (rd_bind m (fun x f => k))
  (at level 200, x name, f name, m at level 100, k at level 200).

(** [char buf[n]] is undefined for a negative [n]. *)
Definition readBytes (n : Z) (fp_ : bytes) : rd bytes :=
  if n <? 0 then Undefined OutOfBounds
  else if Z.of_nat (length fp_) <? n then Thrown
  else Got (take (Z.to_nat n) fp_) (drop (Z.to_nat n) fp_).
Definition readInt32 (fp_ : bytes) : rd Z :=
  if (length fp_ <? 4)%nat then Thrown
  else Got (s32 (networkToHost32 (le_val (take 4 fp_)))) (drop 4 fp_).
Definition readUInt8 (fp_ : bytes) : rd Z :=
  match fp_ with [] => Thrown | x :: rest => Got (b2z x) rest end.

(** [n] reads; the elements that were read before an exception are kept. *)
Fixpoint read_times {A} (one : bytes -> rd A) (n : nat) (f : bytes) : list A * rd unit :=
  match n with
  | O => ([], Got tt f)
  | S n =>
      match one f with
      | Got a f => let '(l, r) := read_times one n f in (a :: l, r)
      | Thrown => ([], Thrown)
      | Undefined c => ([], Undefined c)
      end
  end.
Definition read_all {A} (one : bytes -> rd A) (n : Z) (f : bytes) : rd (list A) :=
  let '(l, r) := read_times one (Z.to_nat n) f in rd_bind r (fun _ f => Got l f).

Definition TZif : bytes := [Byte.x54; Byte.x5a; Byte.x69; Byte.x66].

(** The counts of transitions, local times and abbreviation characters;
    [reserve] of a negative count is a [length_error], a [logic_error]. *)
Definition read_header (f : bytes) : rd (Z * Z * Z) :=
  read head, f <- readBytes 4 f;
  if negb (bool_decide (head = TZif)) then Thrown else
  read _, f <- readBytes 1 f;
  read _, f <- readBytes 15 f;
  read isgmtcnt, f <- readInt32 f;
  read isstdcnt, f <- readInt32 f;
  read leapcnt, f <- readInt32 f;
  read timecnt, f <- readInt32 f;
  read typecnt, f <- readInt32 f;
  read charcnt, f <- readInt32 f;
  if timecnt <? 0 then Thrown else Got (timecnt, typecnt, charcnt) f.

Definition read_localtime (f : bytes) : rd Localtime :=
  read gmtoff, f <- readInt32 f;
  read isdst, f <- readUInt8 f;
  read abbrind, f <- readUInt8 f;
  Got (Localtime_ gmtoff (negb (isdst =? 0)) abbrind) f.

Fixpoint make_transitions (localtimes : list Localtime) (trans idxs : list Z)
    : outcome (list Transition) :=
  match trans, idxs with
  | t :: trans, localIdx :: idxs =>
      let* lt := at_index localtimes localIdx in
      let* l := make_transitions localtimes trans idxs in
      Ok (Transition_ t (t + gmtOffset lt) localIdx :: l)
  | _, _ => Ok []
  end.

(** [file] is the contents, or [None] if [fopen] fails.  An exception is printed,
    and what was read before it stays in [data]. *)
Definition readTimeZoneFile (file : option bytes) (data : Data) : outcome (bool * Data) :=
  match file with
  | None => Ok (true, data)
  | Some f =>
      match
        (read counts, f <- read_header f;
         let '(timecnt, typecnt, charcnt) := counts in
         read trans, f <- read_all readInt32 timecnt f;
         read idxs, f <- read_all readUInt8 timecnt f;
         Got (trans, idxs, typecnt, charcnt) f)
      with
      | Undefined c => Crash c
      | Thrown => Ok (true, data)
      | Got (trans, idxs, typecnt, charcnt) f =>
          let '(types, r) := read_times read_localtime (Z.to_nat typecnt) f in
          let lts := localtimes data ++ types in
          match r with
          | Undefined c => Crash c
          | Thrown => Ok (true, Data_ (transitions data) lts (abbreviation data))
          | Got _ f =>
              let* l := make_transitions lts trans idxs in
              match readBytes charcnt f with
              | Undefined c => Crash c
              | Thrown => Ok (true, Data_ (transitions data ++ l) lts (abbreviation data))
              | Got abbrev _ => Ok (true, Data_ (transitions data ++ l) lts abbrev)
              end
          end
      end
  end.

(** [TimeZone(const char* zonefile)] and [valid()]. *)
Definition empty_data : Data := Data_ [] [] [].
Definition zone_of_file (file : option bytes) : outcome (option Data) :=
  let* r := readTimeZoneFile file empty_data in
  Ok (if r.1 then Some r.2 else None).
Definition zone_valid (data_ : option Data) : bool :=
  match data_ with Some _ => true | None => false end.

(** ** UTC *)

(** The times whose Julian day number is between 0 and 400000000. *)
Definition utc_range (t : Z) : Prop := -210866803200 <= t < 34349133196800.

Lemma day_split t :
  utc_range t ->
  let seconds := s32 (Z.rem t kSecondsPerDay) in
  let days := s32 (t ÷ kSecondsPerDay) in
  (if seconds <? 0 then
     let* seconds := (#seconds + #kSecondsPerDay)%int in
     let* days := (#days - #1)%int in Ok (seconds, days)
   else Ok (seconds, days)) = Ok (t mod 86400, t / 86400).
Proof.
  unfold utc_range, kSecondsPerDay. intros Ht.
  pose proof (Z.quot_rem' t 86400) as Hqr.
  pose proof (Z.rem_bound_abs t 86400 ltac:(lia)) as Hb.
  assert (Hsign : 0 <= t /\ 0 <= Z.rem t 86400 \/ t <= 0 /\ Z.rem t 86400 <= 0).
  { destruct (Z.le_ge_cases 0 t); [left|right]; (split; [lia|]);
      [apply Z.rem_nonneg|apply Z.rem_nonpos]; lia. }
  set (r := Z.rem t 86400) in *. set (q := t ÷ 86400) in *. clearbody r q.
  rewrite !s32_small by (unfold is_s32; lia). cbv zeta.
  destruct (r <? 0) eqn:Hr; reflect_bools.
  - int_eval lia. do 2 f_equal; divs.
  - do 2 f_equal; divs.
Qed.

Lemma fillHMS_spec s utc :
  0 <= s < 86400 ->
  tm_sec (fillHMS (u32 s) utc) = s mod 60 /\
  tm_min (fillHMS (u32 s) utc) = s / 60 mod 60 /\ tm_hour (fillHMS (u32 s) utc) = s / 3600.
Proof.
  intros Hs. rewrite u32_small by (unfold is_u32; lia). unfold fillHMS, upd. simpl.
  split_and!; [done..|]. rewrite Z.div_div by lia. done.
Qed.

(** [toUtcTime] and [fromUtcTime] are inverse: for every time from the year 4713
    BC to beyond the year 1000000, negative times included, [toUtcTime] returns a
    date of the calendar with hour, minute, second, weekday and day of the year
    in their ranges, no intermediate result overflows, and [fromUtcTime] returns
    the time. *)
Theorem utc_roundtrip t yday :
  utc_range t ->
  exists r, toUtcTime t yday = Ok r /\ fromUtcTime r = Ok t /\
    calendar_date (Ymd (tm_year r + 1900) (tm_mon r + 1) (tm_mday r)) /\
    0 <= tm_sec r < 60 /\ 0 <= tm_min r < 60 /\ 0 <= tm_hour r < 24 /\
    tm_wday r = (t / 86400 + 4) mod 7 /\ 0 <= tm_yday r <= 365.
Proof.
  intros Ht. unfold toUtcTime. rewrite (day_split t Ht). cbn [bind].
  unfold utc_range in Ht. set (s := t mod 86400). set (days := t / 86400).
  assert (Hs : 0 <= s < 86400) by (unfold s; divs).
  assert (Hdays : -2440588 <= days < 397559412) by (unfold days; divs).
  change kJulianDayOf1970_01_01 with (Ok 2440588 : outcome Z). cbn [bind].
  int_eval lia. set (n := days + 2440588).
  destruct (date_of_number n ltac:(unfold n; lia)) as (d & Hg & Hd & Hy & Hn).
  unfold yearMonthDay. cbn [julianDayNumber_]. rewrite Hg. cbn [bind].
  destruct Hd as (Hy0 & Hm & Hday). assert (Hd : calendar_date d) by done.
  int_eval lia. unfold weekDay. cbn [julianDayNumber_].
  rewrite (int_op_ok Z.add) by (unfold n; lia).
  rewrite int_op_ok by (rewrite Z.rem_mod_nonneg by (unfold n; lia); divs). cbn [bind].
  destruct (fillHMS_spec s (zero_tm <| tm_zone := [Byte.x47; Byte.x4d; Byte.x54] |>) Hs)
    as (Hsec & Hmin & Hhour).
  set (utc := fillHMS (u32 s) _) in *.
  assert (Hfrom : forall r, tm_sec r = tm_sec utc -> tm_min r = tm_min utc -> tm_hour r = tm_hour utc ->
            tm_year r = year d - 1900 -> tm_mon r = month d - 1 -> tm_mday r = day d ->
            fromUtcTime r = Ok t).
  { intros r E1 E2 E3 E4 E5 E6. unfold fromUtcTime. rewrite E1, E2, E3, E4, E5, E6, Hsec, Hmin, Hhour.
    int_eval lia. unfold fromUtcTime6, of_ymd.
    replace (year d - 1900 + 1900) with (year d) by lia.
    replace (month d - 1 + 1) with (month d) by lia.
    assert (Hd31 : day d <= 31) by (unfold days_in_month in Hday;
      destruct (month d =? 2); [destruct (leap (year d))|destruct (_ || _)]; lia).
    rewrite getJulianDayNumber_spec by lia. cbn [bind].
    int_eval divs. change kJulianDayOf1970_01_01 with (Ok 2440588 : outcome Z). cbn [bind].
    cbn [julianDayNumber_]. rewrite Hn. rewrite int_op_ok by (unfold n; lia). cbn [bind].
    f_equal. unfold n, days, s, kSecondsPerDay. divs. }
  assert (Hwday : Z.rem (n + 1) 7 = (days + 4) mod 7).
  { rewrite Z.rem_mod_nonneg by (unfold n; lia). unfold n. divs. }
  assert (Hcal : calendar_date (Ymd (year d - 1900 + 1900) (month d - 1 + 1) (day d))).
  { replace (year d - 1900 + 1900) with (year d) by lia.
    replace (month d - 1 + 1) with (month d) by lia. by destruct d. }
  destruct yday.
  - unfold of_ymd.
    pose proof (getJulianDayNumber_spec (Ymd (year d) 1 1)) as Hj. simpl in Hj.
    rewrite Hj by lia.
    cbn [bind julianDayNumber_].
    pose proof (day_of_year d Hd) as Hyd. rewrite Hn in Hyd.
    rewrite int_op_ok by (destruct (leap _); lia). cbn [bind].
    eexists. split; [reflexivity|]. split; [by apply Hfrom|].
    match goal with |- context [tm_sec ?r] =>
      change (tm_sec r) with (tm_sec utc); change (tm_min r) with (tm_min utc);
      change (tm_hour r) with (tm_hour utc); change (tm_wday r) with (Z.rem (n + 1) 7);
      change (tm_year r) with (year d - 1900); change (tm_mon r) with (month d - 1);
      change (tm_mday r) with (day d) end.
    rewrite Hsec, Hmin, Hhour. split_and!; try done; try divs; cbn; destruct (leap _); lia.
  - eexists. split; [reflexivity|]. split; [by apply Hfrom|].
    match goal with |- context [tm_sec ?r] =>
      change (tm_sec r) with (tm_sec utc); change (tm_min r) with (tm_min utc);
      change (tm_hour r) with (tm_hour utc); change (tm_wday r) with (Z.rem (n + 1) 7);
      change (tm_year r) with (year d - 1900); change (tm_mon r) with (month d - 1);
      change (tm_mday r) with (day d); change (tm_yday r) with 0 end.
    rewrite Hsec, Hmin, Hhour. split_and!; try done; divs.
Qed.

Lemma utc_roundtrip_witness :
  exists r, toUtcTime (-1) true = Ok r /\ fromUtcTime r = Ok (-1) /\
    tm_year r = 69 /\ tm_mon r = 11 /\ tm_mday r = 31 /\ tm_yday r = 364.
Proof.
  destruct (utc_roundtrip (-1) true ltac:(unfold utc_range; lia)) as (r & Hr & Hf & _).
  exists r. split; [exact Hr|]. split; [exact Hf|]. vm_compute in Hr. injection Hr as <-.
  repeat split.
Defined.

(** ** The rules in force *)

Definition key (gmt : bool) (t : Transition) : Z := if gmt then gmttime t else localtime t.

(** The reference: scan the transitions in order, and keep the last one that is
    not later than [x]; before the first one the first rules hold. *)
Fixpoint in_force (gmt : bool) (v : list Transition) (x : Z) (idx : Z) : Z :=
  match v with
  | [] => idx
  | t :: v => if key gmt t <=? x then in_force gmt v x (localtimeIdx t) else idx
  end.

Lemma comp_key gmt s t : comp gmt s t = (key gmt s <? key gmt t).
Proof. by destruct gmt. Qed.
Lemma comp_equal_key gmt s t : comp_equal gmt s t = (key gmt s =? key gmt t).
Proof. by destruct gmt. Qed.

Lemma in_force_split gmt l1 l2 x idx :
  Forall (fun t => key gmt t <= x) l1 ->
  (forall t, head l2 = Some t -> x < key gmt t) ->
  in_force gmt (l1 ++ l2) x idx = from_option localtimeIdx idx (last l1).
Proof.
  intros H1 H2. revert idx. induction H1 as [|t l1 Ht H1 IH]; intros idx; simpl.
  - destruct l2 as [|t l2]; [done|]. specialize (H2 t eq_refl). simpl.
    by rewrite (proj2 (Z.leb_gt _ _) H2).
  - rewrite (proj2 (Z.leb_le _ _) Ht), IH. rewrite last_cons. by destruct (last l1).
Qed.

Lemma sorted_lookup gmt v i j s t :
  StronglySorted (fun s t => key gmt s < key gmt t) v -> (i < j)%nat ->
  v !! i = Some s -> v !! j = Some t -> key gmt s < key gmt t.
Proof.
  intros Hv. revert i j.
  induction Hv as [|a l _ IH Ha]; intros [|i] [|j] Hij Hi Hj; try done; simpl in *;
    [lia| |lia|apply (IH i j); [lia|done|done]].
  simplify_eq. rewrite Forall_lookup in Ha. by apply (Ha _ _ Hj).
Qed.

(** What the scan finds, if [t] at [k] is the last transition not later than [x]. *)
Lemma in_force_at gmt v k t x idx :
  StronglySorted (fun s t => key gmt s < key gmt t) v ->
  v !! k = Some t -> key gmt t <= x -> (forall u, v !! S k = Some u -> x < key gmt u) ->
  in_force gmt v x idx = localtimeIdx t.
Proof.
  intros Hv Hk Ht Hnext. rewrite <-(take_drop (S k) v). rewrite in_force_split.
  - rewrite (take_S_r _ _ t) by done. by rewrite last_snoc.
  - apply Forall_lookup. intros i u Hi. apply lookup_take_Some in Hi as [Hi Hlt].
    destruct (decide (i = k)) as [->|]; [simplify_eq; lia|].
    pose proof (sorted_lookup gmt v i k u t Hv ltac:(lia) Hi Hk). lia.
  - intros u Hu. apply Hnext. rewrite <-Hu, head_lookup, lookup_drop. f_equal. lia.
Qed.

Lemma at_index_nat {A} (v : list A) (i : nat) a : v !! i = Some a -> at_index v (Z.of_nat i) = Ok a.
Proof.
  intros Hi. unfold at_index. rewrite (proj2 (Z.leb_le 0 (Z.of_nat i))) by lia.
  by rewrite Nat2Z.id, Hi.
Qed.

Lemma lower_bound_spec gmt v x fuel first len :
  StronglySorted (fun s t => key gmt s < key gmt t) v ->
  (len <= fuel)%nat -> (first + len <= length v)%nat ->
  let r := lower_bound fuel (comp gmt) v first len x in
  (first <= r <= first + len)%nat /\
  (forall i t, v !! i = Some t -> (first <= i < r)%nat -> key gmt t < key gmt x) /\
  (forall i t, v !! i = Some t -> (r <= i < first + len)%nat -> key gmt x <= key gmt t).
Proof.
  intros Hsorted. revert first len.
  assert (Hmono : forall i j s t, (i <= j)%nat -> v !! i = Some s -> v !! j = Some t ->
            key gmt s <= key gmt t).
  { intros i j s t Hij Hi Hj. destruct (decide (i = j)) as [->|Hne]; [simplify_eq; lia|].
    pose proof (sorted_lookup gmt v i j s t Hsorted ltac:(lia) Hi Hj). lia. }
  induction fuel as [|fuel IH]; intros first len Hlen Hv; simpl.
  { split_and!; [lia|lia| |]; intros; lia. }
  destruct len as [|len]; [split_and!; [lia|lia| |]; intros; lia|].
  set (n := S len) in *. set (half := Nat.div2 n).
  assert (Hhalf : (half < n)%nat) by (apply Nat.lt_div2; unfold n; lia).
  destruct (lookup_lt_is_Some_2 v (first + half)%nat ltac:(lia)) as [t Ht]. rewrite Ht.
  rewrite comp_key. destruct (_ <? _) eqn:Hc; reflect_bools.
  - destruct (IH (first + half + 1)%nat (n - half - 1)%nat) as (Hr & Hlow & Hhigh); [lia|lia|].
    split; [lia|]. split.
    + intros i s Hi Hin. destruct (decide (i < first + half + 1)%nat); [|apply (Hlow i s); [done|lia]].
      pose proof (Hmono i (first + half)%nat s t ltac:(lia) Hi Ht). lia.
    + intros i s Hi Hin. apply (Hhigh i s); [done|lia].
  - destruct (IH first half) as (Hr & Hlow & Hhigh); [lia|lia|].
    split; [lia|]. split; [done|].
    intros i s Hi Hin. destruct (decide (i < first + half)%nat); [apply (Hhigh i s); [done|lia]|].
    pose proof (Hmono (first + half)%nat i t s ltac:(lia) Ht Hi). lia.
Qed.

(** [findLocaltime] is a binary search, with an assertion and three ways to
    pick the rules; it finds what a scan of the transitions finds: the rules of
    the last transition that is not later than the given time, or the first
    rules if there is none.  The assertion holds. *)
Theorem findLocaltime_spec data gmt sentry :
  StronglySorted (fun s t => key gmt s < key gmt t) (transitions data) ->
  findLocaltime data sentry gmt =
    at_index (localtimes data) (in_force gmt (transitions data) (key gmt sentry) 0).
Proof.
  intros Hsorted. unfold findLocaltime. destruct data as [v ls names]. simpl in *.
  set (x := key gmt sentry).
  destruct v as [|front v'] eqn:Hv; [done|]. rewrite <-Hv in *.
  assert (Hfront : v !! 0%nat = Some front) by (by rewrite Hv).
  rewrite comp_key. fold x. destruct (_ <? _) eqn:Hc; reflect_bools.
  { rewrite Hv. simpl. by rewrite (proj2 (Z.leb_gt _ _) Hc). }
  destruct (lower_bound_spec gmt v sentry (length v) 0 (length v) Hsorted (le_n _) (le_n _))
    as (Hr & Hlow & Hhigh). set (r := lower_bound _ _ _ _ _ _) in *. cbv zeta in *. fold x in Hlow, Hhigh.
  destruct (v !! r) as [t|] eqn:Ht.
  - pose proof (lookup_lt_Some _ _ _ Ht) as Hrlt.
    pose proof (Hhigh r t Ht ltac:(lia)) as Hge.
    rewrite comp_equal_key. fold x. destruct (_ =? _) eqn:Heq; reflect_bools.
    + rewrite (in_force_at gmt v r t x 0 Hsorted Ht); [done|lia|].
      intros u Hu. rewrite Heq. by apply (sorted_lookup gmt v r (S r)); [|lia| |].
    + destruct (decide (r = 0)%nat) as [Hr0|Hr0]; [rewrite Hr0 in Ht; simplify_eq; lia|].
      replace (r =? 0)%nat with false by (symmetry; by apply Nat.eqb_neq). simpl.
      destruct (lookup_lt_is_Some_2 v (r - 1)%nat ltac:(lia)) as [u Hu].
      replace (Z.of_nat r - 1) with (Z.of_nat (r - 1)) by lia.
      rewrite (at_index_nat _ _ _ Hu). simpl. specialize (Hlow _ _ Hu ltac:(lia)).
      rewrite (in_force_at gmt v (r - 1) u x 0 Hsorted Hu); [done|lia|].
      intros w Hw. replace (S (r - 1)) with r in Hw by lia. simplify_eq. lia.
  - apply lookup_ge_None in Ht.
    assert (Hlen : (0 < length v)%nat) by (rewrite Hv; simpl; lia).
    destruct (lookup_lt_is_Some_2 v (length v - 1)%nat ltac:(lia)) as [u Hu].
    replace (Z.of_nat (length v) - 1) with (Z.of_nat (length v - 1)) by lia.
    rewrite (at_index_nat _ _ _ Hu). simpl. specialize (Hlow _ _ Hu ltac:(lia)).
    rewrite (in_force_at gmt v (length v - 1) u x 0 Hsorted Hu); [done|lia|].
    intros w Hw. apply lookup_lt_Some in Hw. lia.
Qed.

(** Standard time, daylight saving time from 100 to 200, standard time. *)
Definition demo_zone : Data :=
  Data_ [Transition_ 100 3700 1; Transition_ 20000 20000 0]
        [Localtime_ 0 false 0; Localtime_ 3600 true 0] [Byte.x5a; Byte.x00].
Lemma findLocaltime_spec_witness :
  findLocaltime demo_zone (Transition_ 150 0 0) true = Ok (Localtime_ 3600 true 0) /\
  in_force true (transitions demo_zone) 150 0 = 1.
Proof.
  split; [|reflexivity].
  rewrite (findLocaltime_spec demo_zone true (Transition_ 150 0 0)); [reflexivity|].
  repeat constructor.
Defined.

(** ** Zone files and what they describe *)











(** A zone file that cannot be opened or does not begin with TZif gives a
    [TimeZone] that is valid, since [readTimeZoneFile] returns true in every case;
    its first use reads the front of an empty vector. *)
Theorem bad_zone_file gmtime file :
  match file with None => True | Some f => take 4 f <> TZif end ->
  exists data_, zone_of_file file = Ok data_ /\ zone_valid data_ = true /\
    forall t, toLocalTime gmtime data_ t = Crash OutOfBounds.
Proof.
  intros Hf. exists (Some empty_data). split_and!; [|done|done].
  unfold zone_of_file, readTimeZoneFile. destruct file as [f|]; [|done].
  unfold read_header. unfold readBytes at 1. simpl (4 <? 0).
  change (4 <? 0) with false. cbn iota.
  destruct (_ <? 4); [done|]. cbn [rd_bind].
  rewrite bool_decide_false by exact Hf. done.
Qed.

Lemma bad_zone_file_witness :
  exists data_, zone_of_file None = Ok data_ /\ zone_valid data_ = true /\
    toLocalTime (fun _ => zero_tm) data_ 0 = Crash OutOfBounds.
Proof.
  destruct (bad_zone_file (fun _ => zero_tm) None I) as (d & H1 & H2 & H3).
  exists d. split; [exact H1|]. split; [exact H2|exact (H3 0)].
Defined.

(** In a fixed zone local time is UTC plus the offset, and the conversion back
    is exact; [timegm] ignores the fields that [toLocalTime] sets. *)
Lemma fixed_zone_roundtrip gmtime timegm off name t :
  (forall t dst o z, timegm (gmtime t <| tm_isdst := dst |> <| tm_gmtoff := o |>
                               <| tm_zone := z |>) = t) ->
  exists r, toLocalTime gmtime (Some (fixed_zone off name)) t = Ok r /\ tm_gmtoff r = off /\
    fromLocalTime gmtime timegm (Some (fixed_zone off name)) r = Ok t.
Proof.
  intros Hgm. unfold toLocalTime, fromLocalTime, findLocaltime, zone_name. simpl.
  rewrite (proj2 (Z.leb_le 0 (Z.of_nat (length name)))) by lia. simpl.
  eexists. split; [reflexivity|]. split; [done|]. rewrite Hgm. simpl.
  f_equal. lia.
Qed.
End TimeZone.
