(* ===== verification/LogStream.v ===== *)
(** * LogStream ([muduo/base/LogStream.cc], [.h])

    The formatting of log lines in a buffer of fixed size: integers are
    converted by hand, and every item is written whole or not at all. *)

From Stdlib Require Import Ascii.
From stdpp Require Import strings pretty.
From S2P Require Import Prelude.
#[local] Open Scope Z_scope.
#[local] Open Scope outcome_scope.

Module LogStream.

Definition str (s : string) : bytes := String.list_byte_of_string s.

(** ** Integers *)

Definition digits : bytes := str "9876543210123456789".
Definition digitsHex : bytes := str "0123456789ABCDEF".

(** [zero[lsd]], with [zero = digits + 9], and [digitsHex[lsd]]. *)
Definition zero_at (lsd : Z) : outcome byte :=
  match (if 0 <=? lsd + 9 then digits !! Z.to_nat (lsd + 9) else None) with
  | Some c => Ok c
  | None => Crash OutOfBounds
  end.
Definition digitsHex_at (lsd : Z) : outcome byte :=
  match (if 0 <=? lsd then digitsHex !! Z.to_nat lsd else None) with
  | Some c => Ok c
  | None => Crash OutOfBounds
  end.

(** The do-while loops; the characters written, in the order of the writes. *)
Fixpoint convert_loop (fuel : nat) (i : Z) : outcome bytes :=
  match fuel with
  | O => Ok []
  | S fuel =>
      let lsd := Z.rem i 10 in
      let i := i ÷ 10 in
      let* c := zero_at lsd in
      if i =? 0 then Ok [c]
      else let* rest := convert_loop fuel i in Ok (c :: rest)
  end.
Fixpoint convertHex_loop (fuel : nat) (i : Z) : outcome bytes :=
  match fuel with
  | O => Ok []
  | S fuel =>
      let lsd := i mod 16 in
      let i := i / 16 in
      let* c := digitsHex_at lsd in
      if i =? 0 then Ok [c]
      else let* rest := convertHex_loop fuel i in Ok (c :: rest)
  end.

(** The text without the terminating zero; an integer of 64 bits has at most 20
    digits, which the fuel exceeds. *)
Definition convert (value : Z) : outcome bytes :=
  let* p := convert_loop 64 value in
  let p := if value <? 0 then p ++ [z2b 45] else p in
  Ok (reverse p).
Definition convertHex (value : Z) : outcome bytes :=
  let* p := convertHex_loop 64 value in Ok (reverse p).

(** ** FixedBuffer *)

Definition kSmallBuffer : Z := 4000.
Definition kLargeBuffer : Z := 4000000.
Definition kMaxNumericSize : Z := 32.

(** The bytes before [cur_]; what lies behind them is not read. *)
Record FixedBuffer := Fixed { fb_size : Z; data_ : bytes }.
Definition fb_length (b : FixedBuffer) : Z := Z.of_nat (length (data_ b)).
Definition fb_avail (b : FixedBuffer) : Z := fb_size b - fb_length b.
Definition fb_append (buf : bytes) (b : FixedBuffer) : FixedBuffer :=
  if Z.of_nat (length buf) <? u64 (fb_avail b) then Fixed (fb_size b) (data_ b ++ buf) else b.
(** Bytes written at [current()], of which [add] keeps the first [n]; writing
    past [end()] is undefined. *)
Definition fb_write (l : bytes) (n : nat) (b : FixedBuffer) : outcome FixedBuffer :=
  if fb_avail b <? Z.of_nat (length l) then Crash OutOfBounds
  else Ok (Fixed (fb_size b) (data_ b ++ take n l)).
Definition fb_reset (b : FixedBuffer) : FixedBuffer := Fixed (fb_size b) [].
Definition debugString (b : FixedBuffer) : outcome bytes :=
  if fb_avail b <? 1 then Crash OutOfBounds else Ok (data_ b).

(** ** The stream *)

Definition formatInteger (v : Z) (buffer_ : FixedBuffer) : outcome FixedBuffer :=
  if kMaxNumericSize <=? fb_avail buffer_ then
    let* text := convert v in
    fb_write (text ++ [z2b 0]) (length text) buffer_
  else Ok buffer_.

Definition put_pointer (p : Z) (buffer_ : FixedBuffer) : outcome FixedBuffer :=
  if kMaxNumericSize <=? fb_avail buffer_ then
    let* text := convertHex p in
    fb_write (str "0x" ++ text ++ [z2b 0]) (2 + length text) buffer_
  else Ok buffer_.

(** [snprintf(current, 32, ...)] of a double; [add] is called with the length
    [snprintf] returns, that of the untruncated text. *)
Definition put_double (text : bytes) (buffer_ : FixedBuffer) : outcome FixedBuffer :=
  if kMaxNumericSize <=? fb_avail buffer_ then
    if Z.of_nat (length text) <? kMaxNumericSize
    then fb_write (text ++ [z2b 0]) (length text) buffer_
    else Crash OutOfBounds
  else Ok buffer_.

Definition put_bool (v : bool) (buffer_ : FixedBuffer) : FixedBuffer :=
  fb_append (if v then str "1" else str "0") buffer_.
Definition put_char (v : byte) (buffer_ : FixedBuffer) : FixedBuffer := fb_append [v] buffer_.
Definition put_cstring (s : option bytes) (buffer_ : FixedBuffer) : FixedBuffer :=
  match s with Some s => fb_append s buffer_ | None => fb_append (str "(null)") buffer_ end.
Definition put_string (v : bytes) (buffer_ : FixedBuffer) : FixedBuffer := fb_append v buffer_.

(** [Fmt]: a number formatted with [snprintf] into 32 bytes. *)
Definition fmt_make (text : bytes) : outcome bytes :=
  let* _ := assert_ (Z.of_nat (length text) <? 32) in Ok text.

(** The calls of [operator<<]; shorter integers are converted to [int] or
    [unsigned int] first. *)
Inductive item :=
  | IBool (v : bool) | IInteger (v : Z) | IPointer (p : Z) | IDouble (text : bytes)
  | IChar (c : byte) | ICString (s : option bytes) | IString (s : bytes).

Definition put (i : item) (buffer_ : FixedBuffer) : outcome FixedBuffer :=
  match i with
  | IBool v => Ok (put_bool v buffer_)
  | IInteger v => formatInteger v buffer_
  | IPointer p => put_pointer p buffer_
  | IDouble text => put_double text buffer_
  | IChar c => Ok (put_char c buffer_)
  | ICString s => Ok (put_cstring s buffer_)
  | IString s => Ok (put_string s buffer_)
  end.
Fixpoint put_items (l : list item) (buffer_ : FixedBuffer) : outcome FixedBuffer :=
  match l with
  | [] => Ok buffer_
  | i :: l => let* b := put i buffer_ in put_items l b
  end.

Example convert_min : convert (-9223372036854775808) = Ok (str "-9223372036854775808").
Proof. vm_compute. reflexivity. Qed.
Example convert_hex : convertHex 48879 = Ok (str "BEEF"). Proof. vm_compute. reflexivity. Qed.

(** ** Integers and their decimal notation *)

Lemma zero_at_spec d : 0 <= d < 10 ->
  zero_at d = Ok (byte_of_ascii (pretty_N_char (Z.to_N d))) /\ zero_at (- d) = zero_at d.
Proof.
  intros Hd.
  assert (d = 0 \/ d = 1 \/ d = 2 \/ d = 3 \/ d = 4 \/ d = 5 \/ d = 6 \/ d = 7 \/ d = 8 \/ d = 9)
    as Hc by lia.
  destruct Hc as [->|[->|[->|[->|[->|[->|[->|[->|[->| ->]]]]]]]]]; split; reflexivity.
Qed.

Lemma convert_loop_opp fuel i : 0 <= i -> convert_loop fuel (- i) = convert_loop fuel i.
Proof.
  revert i. induction fuel as [|fuel IH]; intros i Hi; [done|]. cbn [convert_loop].
  rewrite Z.rem_opp_l, Z.quot_opp_l by lia.
  assert (Hr : 0 <= Z.rem i 10 < 10) by (apply Z.rem_bound_pos; lia).
  destruct (zero_at_spec _ Hr) as [-> ->].
  rewrite IH by (apply Z.quot_pos; lia).
  replace (- (i ÷ 10) =? 0) with (i ÷ 10 =? 0); [done|].
  destruct (Z.eqb_spec (i ÷ 10) 0), (Z.eqb_spec (- (i ÷ 10)) 0); lia.
Qed.

Lemma str_cons c s : str (String c s) = byte_of_ascii c :: str s.
Proof. done. Qed.
Lemma str_app s1 s2 : str (s1 +:+ s2) = str s1 ++ str s2.
Proof. induction s1 as [|c s1 IH]; [done|].
  change (byte_of_ascii c :: str (s1 +:+ s2) = byte_of_ascii c :: (str s1 ++ str s2)).
  by rewrite IH.
Qed.

Lemma convert_loop_spec fuel i :
  0 < i < 10 ^ Z.of_nat fuel ->
  exists l, convert_loop fuel i = Ok l /\
    forall s, str (pretty_N_go (Z.to_N i) s) = reverse l ++ str s.
Proof.
  revert i. induction fuel as [|fuel IH]; intros i Hi; [simpl in Hi; lia|].
  cbn [convert_loop]. rewrite Z.rem_mod_nonneg, Z.quot_div_nonneg by lia.
  assert (Hr : 0 <= i mod 10 < 10) by (apply Z.mod_pos_bound; lia).
  rewrite (proj1 (zero_at_spec _ Hr)). cbn [bind].
  assert (Hstep : forall s, pretty_N_go (Z.to_N i) s =
            pretty_N_go (Z.to_N (i / 10)) (String (pretty_N_char (Z.to_N (i mod 10))) s)).
  { intros s. rewrite pretty_N_go_step by lia. by rewrite Z2N.inj_div, Z2N.inj_mod by lia. }
  destruct (i / 10 =? 0) eqn:Hz; reflect_bools.
  - eexists. split; [done|]. intros s. rewrite Hstep, Hz. simpl. by rewrite pretty_N_go_0.
  - assert (Hq : 0 < i / 10 < 10 ^ Z.of_nat fuel).
    { split; [pose proof (Z.div_pos i 10); lia|]. apply Z.div_lt_upper_bound; [lia|].
      rewrite Nat2Z.inj_succ, Z.pow_succ_r in Hi by lia. lia. }
    destruct (IH _ Hq) as (l & Hl & Hs). rewrite Hl. cbn [bind]. eexists. split; [done|].
    intros s. rewrite Hstep, Hs, reverse_cons, <-app_assoc. done.
Qed.

Lemma convert_natural i :
  0 <= i < 10 ^ 64 -> exists l, convert_loop 64 i = Ok l /\ reverse l = str (pretty (Z.to_N i)).
Proof.
  intros Hi. destruct (decide (i = 0)) as [->|Hne]; [eexists; split; reflexivity|].
  destruct (convert_loop_spec 64 i) as (l & Hl & Hs); [change (Z.of_nat 64) with 64; lia|].
  exists l. split; [done|]. specialize (Hs ""%string). rewrite app_nil_r in Hs. rewrite <-Hs.
  unfold pretty, pretty_N. by rewrite decide_False by lia.
Qed.

(** The two signs of [convert]: the loop on the opposite gives the opposite digits. *)
Lemma convert_pretty v :
  -9223372036854775808 <= v < 18446744073709551616 -> convert v = Ok (str (pretty v)).
Proof.
  intros Hv. unfold convert. destruct (Z_lt_le_dec v 0) as [Hneg|Hpos].
  - destruct (convert_natural (- v)) as (l & Hl & Hr); [lia|].
    replace v with (- - v) by lia. rewrite convert_loop_opp, Hl by lia. cbn [bind].
    rewrite (proj2 (Z.ltb_lt _ _)) by lia. rewrite reverse_snoc, Hr.
    destruct v as [| |p]; [lia..|]. done.
  - destruct (convert_natural v) as (l & Hl & Hr); [lia|]. rewrite Hl. cbn [bind].
    rewrite (proj2 (Z.ltb_ge _ _)) by lia. rewrite Hr. by destruct v.
Qed.

(** [convert] writes the decimal notation of every 64-bit integer, the most
    negative one included, though it takes the remainders of negative numbers. *)
Theorem convert_decimal v :
  -9223372036854775808 <= v < 18446744073709551616 -> convert v = Ok (str (pretty v)).
Proof. apply convert_pretty. Qed.

Lemma convert_decimal_witness :
  convert (-9223372036854775808) = Ok (str "-9223372036854775808").
Proof.
  rewrite (convert_decimal (-9223372036854775808)); [vm_compute; reflexivity|lia].
Defined.

(** ** Pointers *)

Definition hex_digit (c : byte) : Z := if b2z c <? 58 then b2z c - 48 else b2z c - 55.
Definition hex_value (l : bytes) : Z := fold_left (fun acc c => 16 * acc + hex_digit c) l 0.

Lemma digitsHex_spec d :
  0 <= d < 16 -> exists c, digitsHex_at d = Ok c /\ hex_digit c = d.
Proof.
  intros Hd.
  assert (d = 0 \/ d = 1 \/ d = 2 \/ d = 3 \/ d = 4 \/ d = 5 \/ d = 6 \/ d = 7 \/ d = 8 \/ d = 9 \/
          d = 10 \/ d = 11 \/ d = 12 \/ d = 13 \/ d = 14 \/ d = 15) as Hc by lia.
  destruct Hc as [->|[->|[->|[->|[->|[->|[->|[->|[->|[->|[->|[->|[->|[->|[->| ->]]]]]]]]]]]]]]];
    eexists; split; reflexivity.
Qed.

Lemma convertHex_loop_spec fuel i :
  0 <= i < 16 ^ Z.of_nat fuel -> (0 < fuel)%nat ->
  exists l, convertHex_loop fuel i = Ok l /\ hex_value (reverse l) = i /\ (length l <= fuel)%nat.
Proof.
  revert i. induction fuel as [|fuel IH]; intros i Hi Hf; [lia|]. cbn [convertHex_loop].
  assert (Hr : 0 <= i mod 16 < 16) by (apply Z.mod_pos_bound; lia).
  destruct (digitsHex_spec _ Hr) as (c & -> & Hc). cbn [bind].
  pose proof (Z.div_mod i 16 ltac:(lia)) as Hdm. unfold hex_value in *.
  destruct (i / 16 =? 0) eqn:Hz; reflect_bools.
  - exists [c]. split_and!; [done| |simpl; lia]. cbn [reverse rev_append fold_left].
    unfold reverse. simpl. lia.
  - assert (Hq : 0 <= i / 16 < 16 ^ Z.of_nat fuel).
    { split; [apply Z.div_pos; lia|]. apply Z.div_lt_upper_bound; [lia|].
      rewrite Nat2Z.inj_succ, Z.pow_succ_r in Hi by lia. lia. }
    destruct fuel as [|fuel]; [simpl in Hq; lia|].
    destruct (IH _ Hq) as (l & -> & Hl & Hlen); [lia|]. cbn [bind].
    exists (c :: l). split_and!; [done| |simpl; lia].
    rewrite reverse_cons, fold_left_app, Hl. simpl. lia.
Qed.

Lemma convertHex_mono fuel i l k :
  convertHex_loop fuel i = Ok l -> (fuel <= k)%nat -> 0 <= i < 16 ^ Z.of_nat fuel ->
  (0 < fuel)%nat -> convertHex_loop k i = Ok l.
Proof.
  revert i l k. induction fuel as [|fuel IH]; intros i l k H Hk Hi Hf; [lia|].
  destruct k as [|k]; [lia|]. cbn [convertHex_loop] in *.
  destruct (digitsHex_at (i mod 16)); cbn [bind] in *; [|done].
  destruct (i / 16 =? 0) eqn:Hz; reflect_bools; [done|].
  assert (Hq : 0 <= i / 16 < 16 ^ Z.of_nat fuel).
  { split; [apply Z.div_pos; lia|]. apply Z.div_lt_upper_bound; [lia|].
    rewrite Nat2Z.inj_succ, Z.pow_succ_r in Hi by lia. lia. }
  destruct fuel as [|fuel]; [simpl in Hq; lia|].
  destruct (convertHex_loop (S fuel) (i / 16)) as [l'|] eqn:Hl; [|done].
  by rewrite (IH _ _ k Hl) by (done || lia).
Qed.

(** [convertHex] writes at most 16 digits, whose value is the pointer. *)
Lemma convertHex_value v :
  is_u64 v -> exists l, convertHex v = Ok l /\ hex_value l = v /\ (length l <= 16)%nat.
Proof.
  intros Hv. destruct (convertHex_loop_spec 16 v) as (l & Hl & Hval & Hlen); [exact Hv|lia|].
  exists (reverse l). rewrite length_reverse. split_and!; [|done|done]. unfold convertHex.
  by rewrite (convertHex_mono 16 v l 64 Hl) by (exact Hv || lia).
Qed.

(** The length of the decimal notation. *)
Lemma convert_loop_length fuel i l k :
  convert_loop fuel i = Ok l -> 0 <= i < 10 ^ Z.of_nat k -> (0 < k)%nat -> (length l <= k)%nat.
Proof.
  revert i l k. induction fuel as [|fuel IH]; intros i l k H Hi Hk; cbn [convert_loop] in H.
  { simplify_eq. simpl. lia. }
  destruct (zero_at _); cbn [bind] in H; [|done].
  rewrite Z.quot_div_nonneg in H by lia.
  destruct (i / 10 =? 0) eqn:Hz; reflect_bools; [simplify_eq; simpl; lia|].
  destruct (convert_loop fuel (i / 10)) as [l'|] eqn:Hl; simplify_eq/=.
  destruct k as [|k]; [lia|].
  assert (Hq : 0 <= i / 10 < 10 ^ Z.of_nat k).
  { split; [apply Z.div_pos; lia|]. apply Z.div_lt_upper_bound; [lia|].
    rewrite Nat2Z.inj_succ, Z.pow_succ_r in Hi by lia. lia. }
  destruct k as [|k]; [simpl in Hq; lia|]. specialize (IH _ _ (S k) Hl Hq ltac:(lia)). lia.
Qed.

Lemma convert_length v :
  -9223372036854775808 <= v < 18446744073709551616 ->
  exists l, convert v = Ok l /\ (length l <= 21)%nat.
Proof.
  intros Hv. unfold convert.
  assert (Habs : exists l, convert_loop 64 v = Ok l /\ convert_loop 64 (Z.abs v) = Ok l).
  { destruct (convert_natural (Z.abs v)) as (l & Hl & _); [lia|]. exists l. split; [|done].
    destruct (Z.abs_eq_or_opp v) as [He|He]; [by rewrite <-He|].
    replace v with (- Z.abs v) by lia. by rewrite convert_loop_opp by lia. }
  destruct Habs as (l & -> & Hl). cbn [bind]. eexists. split; [done|].
  pose proof (convert_loop_length _ _ _ 20 Hl ltac:(simpl; lia) ltac:(lia)) as Hlen.
  rewrite length_reverse. destruct (v <? 0); rewrite ?length_app; simpl; lia.
Qed.

(** ** The buffer is never overrun *)

(** The text of an item. *)
Definition item_text (i : item) : bytes :=
  match i with
  | IBool v => if v then str "1" else str "0"
  | IInteger v => str (pretty v)
  | IPointer p => str "0x" ++ match convertHex p with Ok l => l | _ => [] end
  | IDouble text => text
  | IChar c => [c]
  | ICString (Some s) => s
  | ICString None => str "(null)"
  | IString s => s
  end.

(** The values have their types, texts of [snprintf] fit in 32 bytes. *)
Definition item_ok (i : item) : Prop :=
  match i with
  | IInteger v => -9223372036854775808 <= v < 18446744073709551616
  | IPointer p => is_u64 p
  | IDouble text => Z.of_nat (length text) < 32
  | _ => True
  end.

Definition buffer_ok (b : FixedBuffer) : Prop :=
  0 <= fb_length b < fb_size b /\ fb_size b < 2147483648.

(** Writing a text: all of it, or nothing. *)
Definition appends (text : bytes) (room : Z) (b b' : FixedBuffer) : Prop :=
  buffer_ok b' /\ fb_size b' = fb_size b /\
  (data_ b' = data_ b ++ text \/ data_ b' = data_ b /\ fb_avail b <= room).

Lemma fb_append_spec text b :
  buffer_ok b -> appends text (Z.of_nat (length text)) b (fb_append text b).
Proof.
  unfold appends, buffer_ok, fb_append, fb_avail, fb_length. intros Hb.
  assert (Hu : u64 (fb_size b - Z.of_nat (length (data_ b))) = fb_size b - Z.of_nat (length (data_ b)))
    by (unfold u64; apply Z.mod_small; lia).
  rewrite Hu. destruct (_ <? _) eqn:Hlt; reflect_bools; simpl; rewrite ?length_app;
    (split; [lia|split; [done|]]); [by left|right; split; [done|lia]].
Qed.

Lemma fb_write_spec text b :
  buffer_ok b -> Z.of_nat (length text) < kMaxNumericSize -> kMaxNumericSize <= fb_avail b ->
  exists b', fb_write (text ++ [z2b 0]) (length text) b = Ok b' /\ appends text 32 b b'.
Proof.
  unfold appends, buffer_ok, fb_write, fb_avail, fb_length, kMaxNumericSize. intros Hb Hl Ha.
  rewrite length_app. simpl. rewrite (proj2 (Z.ltb_ge _ _)) by lia.
  eexists. split; [done|]. simpl. rewrite take_app_length, length_app.
  split; [lia|split; [done|by left]].
Qed.

Lemma appends_nothing text b :
  buffer_ok b -> fb_avail b < kMaxNumericSize -> appends text 32 b b.
Proof. unfold kMaxNumericSize. intros Hb Ha. split; [done|split; [done|right; split; [done|lia]]]. Qed.

Lemma put_spec i b :
  buffer_ok b -> item_ok i ->
  exists b', put i b = Ok b' /\ appends (item_text i) (Z.max 32 (Z.of_nat (length (item_text i)))) b b'.
Proof.
  intros Hb Hi.
  assert (Hw : forall text room, appends text room b (fb_append text b) ->
            room <= Z.max 32 (Z.of_nat (length text)) ->
            appends text (Z.max 32 (Z.of_nat (length text))) b (fb_append text b)).
  { intros text room (H1 & H2 & H3) Hr. split; [done|split; [done|]].
    destruct H3 as [?|[? ?]]; [by left|right; split; [done|lia]]. }
  assert (Hn : forall text b', appends text 32 b b' ->
            appends text (Z.max 32 (Z.of_nat (length text))) b b').
  { intros text b' (H1 & H2 & H3). split; [done|split; [done|]].
    destruct H3 as [?|[? ?]]; [by left|right; split; [done|lia]]. }
  destruct i as [v|v|p|text|c|[s|]|s]; simpl in *;
    try (eexists; split; [done|]; eapply Hw; [by apply fb_append_spec|lia]).
  - unfold formatInteger. destruct (_ <=? _) eqn:Ha; reflect_bools.
    + destruct (convert_length v Hi) as (l & Hl & Hlen).
      pose proof (convert_pretty v Hi) as Hd. rewrite Hl in Hd. injection Hd as ->.
      rewrite Hl. cbn [bind].
      destruct (fb_write_spec (str (pretty v)) b Hb) as (b' & Hb' & Hap);
        [unfold kMaxNumericSize; lia|done|]. exists b'. auto.
    + eexists. split; [done|]. by apply Hn, appends_nothing.
  - unfold put_pointer. destruct (_ <=? _) eqn:Ha; reflect_bools.
    + destruct (convertHex_value p Hi) as (l & Hl & _ & Hlen). rewrite Hl. cbn [bind].
      destruct (fb_write_spec (str "0x" ++ l) b Hb) as (b' & Hb' & Hap);
        [unfold kMaxNumericSize; rewrite length_app; simpl; lia|done|].
      exists b'. rewrite <-app_assoc in Hb'. rewrite length_app in Hb'. auto.
    + eexists. split; [done|]. by apply Hn, appends_nothing.
  - unfold put_double. destruct (_ <=? _) eqn:Ha; reflect_bools.
    + rewrite (proj2 (Z.ltb_lt _ _)) by (unfold kMaxNumericSize; lia).
      destruct (fb_write_spec text b Hb) as (b' & Hb' & Hap); [unfold kMaxNumericSize; lia|done|].
      exists b'. auto.
    + eexists. split; [done|]. by apply Hn, appends_nothing.
Qed.

(** A log line: whatever items are written, no write leaves the buffer,
    which is never full (so [debugString] stays inside it too); its contents are
    the texts of some of the items in order, each of them whole, and of all of
    them if they leave 32 bytes. *)
Theorem log_line_bounds l b :
  buffer_ok b -> Forall item_ok l ->
  exists b' kept, put_items l b = Ok b' /\ buffer_ok b' /\ is_ok (debugString b') = true /\
    fb_size b' = fb_size b /\ sublist kept l /\ data_ b' = data_ b ++ mjoin (item_text <$> kept) /\
    (fb_length b + Z.of_nat (length (mjoin (item_text <$> l))) + 32 < fb_size b -> kept = l).
Proof.
  assert (Hdbg : forall b, buffer_ok b -> is_ok (debugString b) = true).
  { intros b1 [Hb1 _]. unfold debugString, fb_avail. by rewrite (proj2 (Z.ltb_ge _ _)) by lia. }
  intros Hb Hl. revert b Hb. induction Hl as [|i l Hi Hl IH]; intros b Hb.
  { exists b, []. rewrite app_nil_r. auto 10. }
  destruct (put_spec i b Hb Hi) as (b1 & H1 & Hb1 & Hsize & Happ). cbn [put_items]. rewrite H1.
  cbn [bind]. destruct (IH b1 Hb1) as (b' & kept & Hput & Hb' & Hd & Hsz & Hsub & Hdata & Hall).
  rewrite Hsize in Hsz. change (mjoin (item_text <$> i :: l)) with (item_text i ++ mjoin (item_text <$> l)).
  destruct Happ as [Happ|[Happ Hroom]].
  - exists b', (i :: kept). split_and!; [done..|by apply sublist_skip| |].
    + rewrite Hdata, Happ, <-app_assoc. done.
    + intros Hfit. f_equal. apply Hall. rewrite length_app in Hfit. rewrite Hsize.
      unfold fb_length in *. rewrite Happ, length_app. lia.
  - exists b', kept. split_and!; [done..|by apply sublist_cons|by rewrite Hdata, Happ|].
    intros Hfit. rewrite length_app in Hfit. unfold fb_avail in Hroom. lia.
Qed.

Lemma log_line_bounds_witness :
  exists b', put_items [IString (str "x="); IInteger (-42); IBool true] (Fixed kSmallBuffer []) = Ok b' /\
    data_ b' = str "x=-421".
Proof.
  destruct (log_line_bounds [IString (str "x="); IInteger (-42); IBool true] (Fixed kSmallBuffer []))
    as (b' & kept & Hput & _ & _ & _ & _ & Hdata & Hall).
  - unfold buffer_ok, fb_length, kSmallBuffer. simpl. lia.
  - repeat constructor; simpl; lia.
  - exists b'. split; [exact Hput|]. rewrite Hdata, Hall; [vm_compute; reflexivity|].
    vm_compute. reflexivity.
Defined.
End LogStream.
