(* ===== verification/LogFile.v ===== *)
(** * Log files ([muduo/base/LogFile.cc], [FileUtil.cc])

    A log file is an [AppendFile] that is replaced when it is long enough or a
    new day begins.  [fwrite] of the C library is a parameter that may write
    less than it is given; the readings of the clock are arguments. *)

From Stdlib Require Import Ascii.
From stdpp Require Import strings pretty.
From S2P Require Import Prelude Date TimeZone LogStream.
#[local] Open Scope Z_scope.
#[local] Open Scope outcome_scope.

Module FileUtil.

(** [AppendFile]: the bytes that were accepted by [fwrite]; [calls] counts the
    calls of [fwrite]. *)
Record AppendFile := File { contents : bytes; writtenBytes_ : Z; calls : nat }.
Definition open_file (contents : bytes) : AppendFile := File contents 0 0.

Section fwrite.
Context (fwrite : nat -> bytes -> nat).
Hypothesis fwrite_le : forall k l, (fwrite k l <= length l)%nat.

Definition write (logline : bytes) (f : AppendFile) : nat * AppendFile :=
  let n := fwrite (calls f) logline in
  (n, File (contents f ++ take n logline) (writtenBytes_ f) (S (calls f))).

(** The loop of [append]; every round but the last writes something, so that
    [len] rounds are enough. *)
Fixpoint append_loop (fuel : nat) (logline : bytes) (n : nat) (f : AppendFile) : AppendFile :=
  match fuel with
  | O => f
  | S fuel =>
      let remain := (length logline - n)%nat in
      if (0 <? remain)%nat then
        let '(x, f) := write (drop n logline) f in
        if (x =? 0)%nat then f else append_loop fuel logline (n + x) f
      else f
  end.
Definition file_append (logline : bytes) (f : AppendFile) : AppendFile :=
  let '(n, f) := write logline f in
  let f := append_loop (length logline) logline n f in
  File (contents f) (writtenBytes_ f + Z.of_nat (length logline)) (calls f).

Lemma append_loop_spec fuel logline n f :
  (n <= length logline)%nat -> (length logline - n <= fuel)%nat ->
  exists m, (n <= m <= length logline)%nat /\
    contents (append_loop fuel logline n f) = contents f ++ take (m - n) (drop n logline) /\
    writtenBytes_ (append_loop fuel logline n f) = writtenBytes_ f /\
    (m = length logline \/ exists k, fwrite k (drop m logline) = 0%nat /\ m < length logline)%nat.
Proof.
  revert n f. induction fuel as [|fuel IH]; intros n f Hn Hf; simpl.
  { exists n. rewrite Nat.sub_diag, take_0, app_nil_r. split_and!; [lia|lia|done|done|left; lia]. }
  destruct (Nat.ltb_spec 0 (length logline - n)) as [Hr|Hr].
  2:{ exists n. rewrite Nat.sub_diag, take_0, app_nil_r. split_and!; [lia|lia|done|done|left; lia]. }
  unfold write. pose proof (fwrite_le (calls f) (drop n logline)) as Hle.
  rewrite length_drop in Hle. set (x := fwrite (calls f) (drop n logline)) in *.
  destruct (Nat.eqb_spec x 0) as [Hx|Hx].
  - exists n. rewrite Nat.sub_diag, Hx. simpl. split_and!; [lia|lia|done|done|].
    right. exists (calls f). split; [done|lia].
  - destruct (IH (n + x)%nat (File (contents f ++ take x (drop n logline)) (writtenBytes_ f)
      (S (calls f)))) as (m & Hm & Hc & Hw & Hend); [lia|lia|].
    exists m. split_and!; [lia|lia| |done|done]. rewrite Hc. simpl. rewrite <-app_assoc. f_equal.
    replace (m - n)%nat with (x + (m - (n + x)))%nat by lia.
    rewrite <-take_take_drop, drop_drop. done.
Qed.

(** [append] writes a prefix of the line, all of it unless an [fwrite] fails,
    and counts all of it. *)
Lemma file_append_spec logline f :
  exists m, (m <= length logline)%nat /\
    contents (file_append logline f) = contents f ++ take m logline /\
    writtenBytes_ (file_append logline f) = writtenBytes_ f + Z.of_nat (length logline) /\
    (m = length logline \/ exists k, fwrite k (drop m logline) = 0%nat /\ m < length logline)%nat.
Proof.
  unfold file_append, write. pose proof (fwrite_le (calls f) logline) as Hle.
  set (n := fwrite (calls f) logline) in *.
  destruct (append_loop_spec (length logline) logline n
    (File (contents f ++ take n logline) (writtenBytes_ f) (S (calls f)))) as (m & Hm & Hc & Hw & Hend);
    [lia|lia|].
  exists m. simpl. rewrite Hc, Hw. simpl. split_and!; [lia| |done|done].
  rewrite <-app_assoc. f_equal. replace m with (n + (m - n))%nat at 2 by lia.
  by rewrite <-take_take_drop.
Qed.
End fwrite.
End FileUtil.

Module LogFile.
Import FileUtil.

Definition kRollPerSeconds_ : Z := 86400.

(** [closed] are the files that were closed, oldest first, each with the time in
    its name; [file_] is the open one. *)
Record LogFile := LogFile_ {
  rollSize_ : Z; flushInterval_ : Z; checkEveryN_ : Z;
  count_ : Z; startOfPeriod_ : Z; lastRoll_ : Z; lastFlush_ : Z;
  file_ : option (Z * AppendFile);
  closed : list (Z * AppendFile)
}.

(** [basename.%Y%m%d-%H%M%S.hostname.pid.log]. *)
Definition pad2 (n : Z) : string := Date.pad "0"%char 2 (pretty n).
Definition getLogFileName (basename hostname : string) (pid : Z) (gmtime : Z -> TimeZone.tm) (now : Z)
    : string :=
  let tm := gmtime now in
  (basename +:+ "." +:+ pretty (TimeZone.tm_year tm + 1900)%Z +:+ pad2 (TimeZone.tm_mon tm + 1) +:+
   pad2 (TimeZone.tm_mday tm) +:+ "-" +:+ pad2 (TimeZone.tm_hour tm) +:+
   pad2 (TimeZone.tm_min tm) +:+ pad2 (TimeZone.tm_sec tm) +:+ "." +:+ hostname +:+ "." +:+
   pretty pid +:+ ".log")%string.

(** [rollFile] with the time that [getLogFileName] reads. *)
Definition rollFile (now : Z) (l : LogFile) : bool * LogFile :=
  let start := now ÷ kRollPerSeconds_ * kRollPerSeconds_ in
  if lastRoll_ l <? now then
    (true, LogFile_ (rollSize_ l) (flushInterval_ l) (checkEveryN_ l) (count_ l) start now now
             (Some (now, open_file [])) (closed l ++ option_list (file_ l)))
  else (false, l).

Definition log_file_new (rollSize flushInterval checkEveryN now : Z) : LogFile :=
  (rollFile now (LogFile_ rollSize flushInterval checkEveryN 0 0 0 0 None [])).2.

Section log_file.
Context (fwrite : nat -> bytes -> nat).
Hypothesis fwrite_le : forall k l, (fwrite k l <= length l)%nat.

(** [append_unlocked]: [now] is read every [checkEveryN_] calls, [roll] by
    [rollFile].  [flush] moves bytes from the buffer of the file to the disk,
    which the contents do not distinguish. *)
Definition append_unlocked (logline : bytes) (now roll : Z) (l : LogFile) : outcome LogFile :=
  match file_ l with
  | None => Crash NullDeref
  | Some (t, f) =>
      let f := file_append fwrite logline f in
      let l := LogFile_ (rollSize_ l) (flushInterval_ l) (checkEveryN_ l) (count_ l)
                 (startOfPeriod_ l) (lastRoll_ l) (lastFlush_ l) (Some (t, f)) (closed l) in
      if rollSize_ l <? writtenBytes_ f then Ok (rollFile roll l).2
      else
        let* c := chk32 (count_ l + 1) in
        if checkEveryN_ l <=? c then
          let thisPeriod_ := now ÷ kRollPerSeconds_ * kRollPerSeconds_ in
          let l := LogFile_ (rollSize_ l) (flushInterval_ l) (checkEveryN_ l) 0
                     (startOfPeriod_ l) (lastRoll_ l) (lastFlush_ l) (file_ l) (closed l) in
          if negb (thisPeriod_ =? startOfPeriod_ l) then Ok (rollFile roll l).2
          else if flushInterval_ l <? now - lastFlush_ l then
            Ok (LogFile_ (rollSize_ l) (flushInterval_ l) (checkEveryN_ l) (count_ l)
                  (startOfPeriod_ l) (lastRoll_ l) now (file_ l) (closed l))
          else Ok l
        else
          Ok (LogFile_ (rollSize_ l) (flushInterval_ l) (checkEveryN_ l) c
                (startOfPeriod_ l) (lastRoll_ l) (lastFlush_ l) (file_ l) (closed l))
  end.

(** The lines that are logged, with the readings of the clock. *)
Fixpoint append_lines (ls : list (bytes * Z * Z)) (l : LogFile) : outcome LogFile :=
  match ls with
  | [] => Ok l
  | (logline, now, roll) :: ls =>
      let* l := append_unlocked logline now roll l in append_lines ls l
  end.

(** All files, oldest first. *)
Definition files (l : LogFile) : list (Z * AppendFile) := closed l ++ option_list (file_ l).
Definition log_bytes (l : LogFile) : bytes := mjoin ((fun p => contents p.2) <$> files l).

(** ** Nothing is lost or split *)

(** [lines] are the lines of each file: their texts are the contents of the
    files, whose times increase. *)
Record log_inv (l : LogFile) (lines : list (list bytes)) : Prop := {
  li_open : exists f, file_ l = Some (lastRoll_ l, f);
  li_sorted : StronglySorted Z.lt ((files l).*1);
  li_lines : (fun p => contents p.2) <$> files l = mjoin <$> lines;
  li_count : 0 <= count_ l < checkEveryN_ l /\ checkEveryN_ l < 2147483648
}.

Lemma sorted_snoc (l : list Z) x y :
  StronglySorted Z.lt (l ++ [x]) -> x < y -> StronglySorted Z.lt ((l ++ [x]) ++ [y]).
Proof.
  intros Hs Hxy. apply StronglySorted_app. split_and!; [|done|by repeat constructor].
  intros a b Ha ->%list_elem_of_singleton.
  apply elem_of_app in Ha as [Ha| ->%list_elem_of_singleton]; [|done].
  apply StronglySorted_app in Hs as (Hs & _ & _).
  specialize (Hs a x Ha (list_elem_of_here _ _)). lia.
Qed.

Lemma rollFile_inv now l lines :
  log_inv l lines -> exists lines', log_inv (rollFile now l).2 lines' /\ mjoin lines' = mjoin lines.
Proof.
  intros [(f & Hf) Hs Hl Hc]. unfold rollFile. destruct (_ <? _) eqn:Hr; reflect_bools;
    [|exists lines; split; [split; eauto|done]].
  exists (lines ++ [[]]). unfold files in *. rewrite Hf in *. simpl in *. split.
  - split; unfold files; simpl; rewrite ?Hf; simpl; [by eexists| | |done].
    + rewrite !fmap_app in *. simpl in *. by apply sorted_snoc.
    + rewrite (fmap_app _ (_ ++ _)), (fmap_app mjoin), Hl. done.
  - clear. induction lines as [|x lines IH]; [done|]. simpl in *. by rewrite IH.
Qed.

Hypothesis fwrite_works : forall k l, l <> [] -> fwrite k l <> 0%nat.

Lemma file_append_all logline f :
  contents (file_append fwrite logline f) = contents f ++ logline.
Proof.
  destruct (file_append_spec fwrite fwrite_le logline f) as (m & Hm & -> & _ & Hend).
  destruct Hend as [->|(k & Hk & Hlt)]; [by rewrite take_ge|].
  destruct (drop m logline) as [|b d] eqn:Hd.
  - apply (f_equal length) in Hd. rewrite length_drop in Hd. simpl in Hd. lia.
  - by apply fwrite_works in Hk.
Qed.

Lemma append_unlocked_inv logline now roll l lines :
  log_inv l lines ->
  exists l' lines', append_unlocked logline now roll l = Ok l' /\ log_inv l' lines' /\
    mjoin lines' = mjoin lines ++ [logline].
Proof.
  intros [(f & Hf) Hs Hl Hc]. unfold append_unlocked. rewrite Hf.
  pose proof (file_append_all logline f) as Hf'. revert Hf'.
  generalize (file_append fwrite logline f). intros f' Hf'.
  destruct lines as [|last lines _] using rev_ind.
  { unfold files in Hl. rewrite Hf in Hl. simpl in Hl. by destruct (closed l). }
  unfold files in Hl. rewrite Hf, !fmap_app in Hl. simpl in Hl.
  apply app_inj_tail in Hl as [Hclosed Hlast].
  assert (Hinv : forall c fl, 0 <= c < checkEveryN_ l ->
    log_inv (LogFile_ (rollSize_ l) (flushInterval_ l) (checkEveryN_ l) c (startOfPeriod_ l)
       (lastRoll_ l) fl (Some (lastRoll_ l, f')) (closed l)) (lines ++ [last ++ [logline]])).
  { intros c fl Hcc. split; simpl; [by eexists| | |lia].
    - unfold files in *. rewrite Hf in Hs. simpl in *. by rewrite !fmap_app in *.
    - unfold files. simpl. rewrite !fmap_app. simpl. rewrite Hclosed, Hf', Hlast. do 2 f_equal.
      clear. induction last as [|x last IH]; simpl; [by rewrite app_nil_r|].
      by rewrite <-IH, <-app_assoc. }
  assert (Hjoin : mjoin (lines ++ [last ++ [logline]]) = mjoin (lines ++ [last]) ++ [logline]).
  { clear. induction lines as [|x lines IH]; simpl in *; [by rewrite !app_nil_r|].
    by rewrite IH, <-app_assoc. }
  simpl. destruct (_ <? _).
  { destruct (rollFile_inv roll _ _ (Hinv (count_ l) (lastFlush_ l) ltac:(lia))) as (lines' & Hl' & Hj).
    eexists _, lines'. split; [done|]. by rewrite Hj. }
  rewrite chk32_ok by lia. cbn [bind]. destruct (_ <=? _) eqn:Hck; reflect_bools.
  - destruct (negb _).
    + destruct (rollFile_inv roll _ _ (Hinv 0 (lastFlush_ l) ltac:(lia))) as (lines' & Hl' & Hj).
      eexists _, lines'. split; [done|]. by rewrite Hj.
    + destruct (_ <? _); eexists _, _; (split; [done|split; [apply Hinv; lia|done]]).
  - eexists _, _. split; [done|]. split; [apply Hinv; lia|done].
Qed.

(** A log file keeps every line: with a clock after the epoch and an [fwrite]
    that makes progress, no call fails, the files together contain all lines in
    order, no line is divided between two files, and the times in the names of
    the files increase, so that no file is opened twice. *)
Theorem log_file_complete rollSize flushInterval checkEveryN now0 ls :
  0 < now0 -> 0 < checkEveryN < 2147483648 ->
  exists l lines, append_lines ls (log_file_new rollSize flushInterval checkEveryN now0) = Ok l /\
    mjoin lines = (fun p => p.1.1) <$> ls /\
    (fun p => contents p.2) <$> files l = mjoin <$> lines /\
    StronglySorted Z.lt ((files l).*1).
Proof.
  intros Hnow Hck.
  assert (H0 : log_inv (log_file_new rollSize flushInterval checkEveryN now0) [[]]).
  { unfold log_file_new, rollFile. simpl. rewrite (proj2 (Z.ltb_lt _ _)) by lia. simpl.
    split; simpl; [by eexists|repeat constructor|done|lia]. }
  assert (Hgen : forall l0 lines0, log_inv l0 lines0 ->
    exists l lines, append_lines ls l0 = Ok l /\ log_inv l lines /\
      mjoin lines = mjoin lines0 ++ ((fun p => p.1.1) <$> ls)).
  { clear H0. induction ls as [|[[logline now] roll] ls IH]; intros l0 lines0 Hi.
    - exists l0, lines0. by rewrite app_nil_r.
    - destruct (append_unlocked_inv logline now roll _ _ Hi) as (l1 & lines1 & H1 & Hi1 & Hj1).
      destruct (IH _ _ Hi1) as (l & lines & H & Hi' & Hj). exists l, lines.
      simpl. rewrite H1. simpl. split_and!; [done..|]. rewrite Hj, Hj1, <-app_assoc. done. }
  destruct (Hgen _ _ H0) as (l & lines & H & [_ Hs Hl _] & Hj).
  exists l, lines. split_and!; done.
Qed.
End log_file.

(** Every [fwrite] accepts one byte; the second line is logged a day later. *)
Lemma log_file_complete_witness :
  exists l lines,
    append_lines (fun _ l => Nat.min 1 (length l))
      [(LogStream.str "a1", 100, 100); (LogStream.str "b", 86500, 86500); (LogStream.str "c2", 86501, 86501)]
      (log_file_new 1000 3 1 100) = Ok l /\
    (fun p => contents p.2) <$> files l = mjoin <$> lines /\ length (files l) = 2%nat.
Proof.
  destruct (log_file_complete (fun _ l => Nat.min 1 (length l)) (fun _ l => Nat.le_min_r 1 (length l))
    ltac:(intros k [|b l] ?; done) 1000 3 1 100
    [(LogStream.str "a1", 100, 100); (LogStream.str "b", 86500, 86500); (LogStream.str "c2", 86501, 86501)]
    ltac:(lia) ltac:(lia)) as (l & lines & H & _ & Hl & _).
  exists l, lines. split; [exact H|]. split; [exact Hl|].
  vm_compute in H. injection H as <-. reflexivity.
Defined.
End LogFile.
