(* ===== verification/AsyncLogging.v ===== *)
(** * AsyncLogging ([muduo/base/AsyncLogging.cc])

    Any number of threads append lines to a buffer; one thread writes full
    buffers to a log file.  The critical sections of [append] and of
    [threadFunc] and the rest of the loop of [threadFunc] are the events; they
    come in any order the phases of the thread allow.  [waitForSeconds] may
    return at any time, since it waits for a notification or a timeout. *)

From stdpp Require Import strings.
From S2P Require Import Prelude LogStream.
#[local] Open Scope Z_scope.
#[local] Open Scope outcome_scope.

Module AsyncLogging.
Import LogStream.

(** Where [threadFunc] is: at [while (running_)], before the critical section,
    after it, returned. *)
Inductive phase := AtLoop | Waiting | Writing | Exited.
#[export] Instance phase_eq_dec : EqDecision phase.
Proof. solve_decision. Defined.

(** A null [unique_ptr] is [None].  [output] are the blocks given to the log file;
    [dropped] records whether buffers were dropped. *)
Abbreviation BufferPtr := (option FixedBuffer).
Record AsyncLogging := Async {
  currentBuffer_ : BufferPtr;
  nextBuffer_ : BufferPtr;
  buffers_ : list BufferPtr;
  running_ : bool;
  newBuffer1 : BufferPtr;
  newBuffer2 : BufferPtr;
  buffersToWrite : list BufferPtr;
  at_ : phase;
  output : list bytes;
  dropped : bool
}.
Definition eta_async (s : AsyncLogging) : AsyncLogging :=
  Async (currentBuffer_ s) (nextBuffer_ s) (buffers_ s) (running_ s) (newBuffer1 s) (newBuffer2 s)
        (buffersToWrite s) (at_ s) (output s) (dropped s).
#[export] Instance set_currentBuffer : Setter currentBuffer_.
Proof. build_setter eta_async currentBuffer_. Defined.
#[export] Instance set_nextBuffer : Setter nextBuffer_.
Proof. build_setter eta_async nextBuffer_. Defined.
#[export] Instance set_buffers : Setter buffers_. Proof. build_setter eta_async buffers_. Defined.
#[export] Instance set_running : Setter running_. Proof. build_setter eta_async running_. Defined.
#[export] Instance set_newBuffer1 : Setter newBuffer1.
Proof. build_setter eta_async newBuffer1. Defined.
#[export] Instance set_newBuffer2 : Setter newBuffer2.
Proof. build_setter eta_async newBuffer2. Defined.
#[export] Instance set_buffersToWrite : Setter buffersToWrite.
Proof. build_setter eta_async buffersToWrite. Defined.
#[export] Instance set_at : Setter at_. Proof. build_setter eta_async at_. Defined.
#[export] Instance set_output : Setter output. Proof. build_setter eta_async output. Defined.
#[export] Instance set_dropped : Setter dropped. Proof. build_setter eta_async dropped. Defined.

Definition new_buffer : FixedBuffer := Fixed kLargeBuffer [].
Definition deref {A} (p : option A) : outcome A :=
  match p with Some a => Ok a | None => Crash NullDeref end.

(** The constructor and [start]: [threadFunc] has made its two buffers. *)
Definition async_start : AsyncLogging :=
  Async (Some new_buffer) (Some new_buffer) [] true (Some new_buffer) (Some new_buffer) []
        AtLoop [] false.

Definition async_append (logline : bytes) (s : AsyncLogging) : outcome AsyncLogging :=
  let* cur := deref (currentBuffer_ s) in
  if Z.of_nat (length logline) <? fb_avail cur then
    Ok (s <| currentBuffer_ := Some (fb_append logline cur) |>)
  else
    let s := s <| buffers_ := buffers_ s ++ [currentBuffer_ s] |> in
    let s := match nextBuffer_ s with
             | Some b => s <| currentBuffer_ := Some b |> <| nextBuffer_ := None |>
             | None => s <| currentBuffer_ := Some new_buffer |>
             end in
    let* cur := deref (currentBuffer_ s) in
    Ok (s <| currentBuffer_ := Some (fb_append logline cur) |>).

Definition empty_ptr (p : BufferPtr) : bool :=
  match p with Some b => fb_length b =? 0 | None => false end.

(** [while (running_)] and the three assertions. *)
Definition loop_head (s : AsyncLogging) : outcome AsyncLogging :=
  if running_ s then
    let* _ := assert_ (empty_ptr (newBuffer1 s)) in
    let* _ := assert_ (empty_ptr (newBuffer2 s)) in
    let* _ := assert_ (bool_decide (buffersToWrite s = [])) in
    Ok (s <| at_ := Waiting |>)
  else Ok (s <| at_ := Exited |>).

(** The critical section, after the wait. *)
Definition swap_buffers (s : AsyncLogging) : AsyncLogging :=
  let s := s <| buffers_ := buffers_ s ++ [currentBuffer_ s] |> in
  let s := s <| currentBuffer_ := newBuffer1 s |> <| newBuffer1 := None |> in
  let s := s <| buffersToWrite := buffers_ s |> <| buffers_ := buffersToWrite s |> in
  let s := match nextBuffer_ s with
           | None => s <| nextBuffer_ := newBuffer2 s |> <| newBuffer2 := None |>
           | Some _ => s
           end in
  s <| at_ := Writing |>.

(** Reuse the last buffer of [buffersToWrite]. *)
Definition take_back (l : list BufferPtr) : outcome (BufferPtr * list BufferPtr) :=
  let* _ := assert_ (negb (bool_decide (l = []))) in
  match last l with
  | Some p => let* b := deref p in Ok (Some (fb_reset b), removelast l)
  | None => Crash OutOfBounds
  end.

Fixpoint write_all (l : list BufferPtr) : outcome (list bytes) :=
  match l with
  | [] => Ok []
  | p :: l => let* b := deref p in let* r := write_all l in Ok (data_ b :: r)
  end.

(** The rest of the loop; [message] is the text about dropped lines. *)
Definition write_buffers (message : bytes) (s : AsyncLogging) : outcome AsyncLogging :=
  let* _ := assert_ (negb (bool_decide (buffersToWrite s = []))) in
  let s :=
    if (25 <? length (buffersToWrite s))%nat then
      s <| output := output s ++ [message] |> <| dropped := true |>
        <| buffersToWrite := take 2 (buffersToWrite s) |>
    else s in
  let* blocks := write_all (buffersToWrite s) in
  let s := s <| output := output s ++ blocks |> in
  let l := if (2 <? length (buffersToWrite s))%nat then take 2 (buffersToWrite s)
           else buffersToWrite s in
  let* r1 := (match newBuffer1 s with None => take_back l | Some _ => Ok (newBuffer1 s, l) end) in
  let* r2 := (match newBuffer2 s with None => take_back r1.2 | Some _ => Ok (newBuffer2 s, r1.2) end) in
  Ok (s <| newBuffer1 := r1.1 |> <| newBuffer2 := r2.1 |> <| buffersToWrite := [] |>
        <| at_ := AtLoop |>).

Definition async_stop (s : AsyncLogging) : AsyncLogging := s <| running_ := false |>.

Inductive event := EAppend (logline : bytes) | EStop | EHead | ESwap | EWrite (message : bytes).

Definition async_step (e : event) (s : AsyncLogging) : option (outcome AsyncLogging) :=
  match e, at_ s with
  | EAppend logline, _ => Some (async_append logline s)
  | EStop, _ => Some (Ok (async_stop s))
  | EHead, AtLoop => Some (loop_head s)
  | ESwap, Waiting => Some (Ok (swap_buffers s))
  | EWrite message, Writing => Some (write_buffers message s)
  | _, _ => None
  end.

Fixpoint async_run (es : list event) (s : AsyncLogging) : option (outcome AsyncLogging) :=
  match es with
  | [] => Some (Ok s)
  | e :: es =>
      match async_step e s with
      | Some (Ok s) => async_run es s
      | o => o
      end
  end.

(** ** Buffers are recovered and lines are kept *)

Definition block (p : BufferPtr) : bytes := match p with Some b => data_ b | None => [] end.
Definition pending (s : AsyncLogging) : bytes :=
  mjoin (block <$> buffersToWrite s) ++ mjoin (block <$> buffers_ s) ++ block (currentBuffer_ s).
Definition written (s : AsyncLogging) : bytes := mjoin (output s).

Definition large (p : BufferPtr) : Prop := exists b, p = Some b /\ fb_size b = kLargeBuffer.

(** Between rounds the thread owns two empty buffers; during a round it has
    enough buffers to get them back: if [append] has used the spare one, there
    are at least two buffers to write. *)
Record async_inv (s : AsyncLogging) : Prop := {
  ai_current : exists c, currentBuffer_ s = Some c /\ fb_size c = kLargeBuffer /\
    fb_length c < kLargeBuffer;
  ai_next : nextBuffer_ s = Some new_buffer \/ nextBuffer_ s = None /\ buffers_ s <> [];
  ai_buffers : Forall large (buffers_ s);
  ai_phase :
    match at_ s with
    | Writing => newBuffer1 s = None /\ Forall large (buffersToWrite s) /\ buffersToWrite s <> [] /\
        (newBuffer2 s = Some new_buffer \/ newBuffer2 s = None /\ (2 <= length (buffersToWrite s))%nat)
    | _ => newBuffer1 s = Some new_buffer /\ newBuffer2 s = Some new_buffer /\ buffersToWrite s = []
    end
}.

Definition line_of (e : event) : bytes := match e with EAppend l => l | _ => [] end.
Definition event_ok (e : event) : Prop := Z.of_nat (length (line_of e)) < kLargeBuffer.

Lemma join_app (l k : list bytes) : mjoin (l ++ k) = mjoin l ++ mjoin k.
Proof.
  induction l as [|x l IH]; [done|].
  change (x ++ mjoin (l ++ k) = (x ++ mjoin l) ++ mjoin k). by rewrite IH, app_assoc.
Qed.
Lemma join_snoc (l : list BufferPtr) p :
  mjoin (block <$> (l ++ [p])) = mjoin (block <$> l) ++ block p.
Proof. rewrite fmap_app, join_app. f_equal. apply app_nil_r. Qed.

Lemma log_append_fits c l :
  fb_size c = kLargeBuffer -> fb_length c < kLargeBuffer -> Z.of_nat (length l) < fb_avail c ->
  data_ (fb_append l c) = data_ c ++ l /\ fb_size (fb_append l c) = kLargeBuffer /\
  fb_length (fb_append l c) < kLargeBuffer.
Proof.
  unfold fb_append, fb_avail, fb_length, kLargeBuffer. intros Hs Hc Hl.
  assert (Hu : u64 (fb_size c - Z.of_nat (length (data_ c))) = fb_size c - Z.of_nat (length (data_ c)))
    by (unfold u64; apply Z.mod_small; lia).
  rewrite Hu, (proj2 (Z.ltb_lt _ _)) by lia. simpl. rewrite length_app. split_and!; [done|done|lia].
Qed.

Ltac async_simpl :=
  cbn [upd set_currentBuffer set_nextBuffer set_buffers set_running set_newBuffer1
       set_newBuffer2 set_buffersToWrite set_at set_output set_dropped eta_async
       currentBuffer_ nextBuffer_ buffers_ running_ newBuffer1 newBuffer2 buffersToWrite at_
       output dropped].

Lemma async_append_spec l s :
  async_inv s -> Z.of_nat (length l) < kLargeBuffer ->
  exists s', async_append l s = Ok s' /\ async_inv s' /\ dropped s' = dropped s /\
    written s' = written s /\ pending s' = pending s ++ l.
Proof.
  intros [(c & Hc & Hsz & Hlen) Hnext Hbufs Hphase] Hl. unfold async_append. rewrite Hc. cbn [deref bind].
  destruct (_ <? _) eqn:Hfit; reflect_bools.
  - destruct (log_append_fits c l Hsz Hlen Hfit) as (Hd & Hs' & Hl').
    eexists. split; [reflexivity|]. split; [|split; [done|split; [done|]]].
    + split; unfold upd; simpl; [eauto|done|done|done].
    + unfold pending, upd. simpl. rewrite Hc. simpl. rewrite Hd, !app_assoc. done.
  - assert (Hnew : Z.of_nat (length l) < fb_avail new_buffer) by (unfold fb_avail, fb_length; simpl; lia).
    destruct (log_append_fits new_buffer l eq_refl eq_refl Hnew) as (Hd & Hs' & Hl').
    assert (Hbufs' : Forall large (buffers_ s ++ [currentBuffer_ s])).
    { apply Forall_app. split; [done|]. constructor; [|constructor]. unfold large. eauto. }
    assert (Hne : buffers_ s ++ [currentBuffer_ s] <> []) by (by destruct (buffers_ s)).
    assert (Hres : exists s', async_append l s = Ok s' /\
      s' = Async (Some (fb_append l new_buffer)) None (buffers_ s ++ [currentBuffer_ s]) (running_ s)
             (newBuffer1 s) (newBuffer2 s) (buffersToWrite s) (at_ s) (output s) (dropped s)).
    { unfold async_append. rewrite Hc. cbn [deref bind]. rewrite (proj2 (Z.ltb_ge _ _)) by lia.
      destruct Hnext as [Hn|[Hn _]]; unfold upd; simpl; rewrite Hn; eexists; (split; [reflexivity|]);
        clear -Hn Hc; destruct s; simpl in *; by subst. }
    destruct Hres as (s' & Hres & Heq). unfold async_append in Hres. rewrite Hc in Hres.
    cbn [deref bind] in Hres. rewrite (proj2 (Z.ltb_ge _ _)) in Hres by lia.
    exists s'. split; [done|]. subst s'. split; [|split; [done|split; [done|]]].
    + split; simpl; [eauto|by right|done|done].
    + unfold pending. simpl. rewrite join_snoc, Hc. simpl. rewrite Hd. simpl.
      by rewrite <-!app_assoc.
Qed.

Lemma swap_buffers_eq s :
  swap_buffers s =
    Async (newBuffer1 s) (match nextBuffer_ s with None => newBuffer2 s | n => n end)
      (buffersToWrite s) (running_ s) None
      (match nextBuffer_ s with None => None | _ => newBuffer2 s end)
      (buffers_ s ++ [currentBuffer_ s]) Writing (output s) (dropped s).
Proof. by destruct s as [c [n|] b r n1 n2 w a o d]. Qed.

Lemma swap_buffers_spec s :
  async_inv s -> at_ s = Waiting ->
  async_inv (swap_buffers s) /\ dropped (swap_buffers s) = dropped s /\
  written (swap_buffers s) = written s /\ pending (swap_buffers s) = pending s.
Proof.
  intros [(c & Hc & Hsz & Hlen) Hnext Hbufs Hphase] Hat. rewrite Hat in Hphase.
  destruct Hphase as (H1 & H2 & Hw). rewrite swap_buffers_eq.
  assert (Hbufs' : Forall large (buffers_ s ++ [currentBuffer_ s])).
  { apply Forall_app. split; [done|]. constructor; [|constructor]. unfold large. eauto. }
  assert (Hpend : mjoin (block <$> buffers_ s ++ [currentBuffer_ s]) ++ mjoin (block <$> buffersToWrite s)
            ++ block (newBuffer1 s) = pending s).
  { unfold pending. by rewrite H1, Hw, join_snoc, Hc, !app_nil_r. }
  destruct Hnext as [Hn|[Hn Hne]]; rewrite Hn; simpl.
  - split; [|done]. split; simpl; [by exists new_buffer|by left|by rewrite Hw|].
    split_and!; [done|done|by destruct (buffers_ s)|by left].
  - split; [|done]. split; simpl; [by exists new_buffer|by left|by rewrite Hw|].
    split_and!; [done|done|by destruct (buffers_ s)|right]. split; [done|].
    rewrite length_app. destruct (buffers_ s); [done|simpl; lia].
Qed.

Lemma write_all_spec l : Forall large l -> write_all l = Ok (block <$> l).
Proof. induction 1 as [|p l (b & -> & _) _ IH]; [done|]. simpl. by rewrite IH. Qed.

Lemma take_back_spec l :
  Forall large l -> l <> [] ->
  exists l', take_back l = Ok (Some new_buffer, l') /\ Forall large l' /\ length l = S (length l').
Proof.
  intros Hl Hne. destruct l as [|p l _] using rev_ind; [done|].
  apply Forall_app in Hl as [Hl Hp]. apply Forall_cons in Hp as [(b & -> & Hb) _].
  exists l. unfold take_back. rewrite bool_decide_false by (by destruct l). simpl.
  rewrite last_snoc. simpl. rewrite removelast_last, length_app. simpl.
  unfold fb_reset, new_buffer. rewrite Hb. split_and!; [done|done|lia].
Qed.

Lemma write_buffers_spec message s :
  async_inv s -> at_ s = Writing ->
  exists s', write_buffers message s = Ok s' /\ async_inv s' /\
    (dropped s' = false -> dropped s = false /\
      written s' = written s ++ mjoin (block <$> buffersToWrite s) /\
      pending s' = mjoin (block <$> buffers_ s) ++ block (currentBuffer_ s)).
Proof.
  intros [Hcur Hnext Hbufs Hphase] Hat. rewrite Hat in Hphase.
  destruct Hphase as (H1 & Hw & Hne & H2). unfold write_buffers.
  rewrite bool_decide_false by done. cbn [negb assert_ bind].
  set (s1 := if (25 <? _)%nat then _ else _).
  assert (Hs1 : Forall large (buffersToWrite s1) /\ buffersToWrite s1 <> [] /\
    newBuffer1 s1 = None /\ newBuffer2 s1 = newBuffer2 s /\
    ((2 <= length (buffersToWrite s))%nat -> (2 <= length (buffersToWrite s1))%nat) /\
    currentBuffer_ s1 = currentBuffer_ s /\ nextBuffer_ s1 = nextBuffer_ s /\
    buffers_ s1 = buffers_ s /\
    (dropped s1 = false -> dropped s = false /\ output s1 = output s /\
       buffersToWrite s1 = buffersToWrite s)).
  { unfold s1. async_simpl. destruct (Nat.ltb_spec 25 (length (buffersToWrite s))) as [Hlt|Hge]; simpl.
    - split_and!; try done; [by apply Forall_take| |].
      + by destruct (buffersToWrite s).
      + intros _. rewrite length_take. lia.
    - split_and!; done. }
  destruct Hs1 as (Hw1 & Hne1 & H11 & H21 & Hlen1 & Hc1 & Hn1 & Hb1 & Hdrop). clearbody s1.
  rewrite (write_all_spec _ Hw1). cbn [bind]. async_simpl. rewrite H11, H21.
  set (l := if (2 <? length (buffersToWrite s1))%nat then _ else _).
  assert (Hl : Forall large l /\ l <> [] /\
    ((2 <= length (buffersToWrite s1))%nat -> (2 <= length l)%nat)).
  { unfold l. destruct (Nat.ltb_spec 2 (length (buffersToWrite s1))); [|done].
    split_and!; [by apply Forall_take|by destruct (buffersToWrite s1)|].
    rewrite length_take. lia. }
  destruct Hl as (Hl & Hlne & Hl2). clearbody l.
  destruct (take_back_spec l Hl Hlne) as (l1 & -> & Hl1 & Hlen). cbn [bind]. simpl.
  assert (Hr2 : exists p l2, match newBuffer2 s with None => take_back l1 | Some _ => Ok (newBuffer2 s, l1) end
            = Ok (p, l2) /\ p = Some new_buffer).
  { destruct H2 as [->|[-> H2]]; [eauto|].
    destruct (take_back_spec l1 Hl1) as (l2 & -> & _); [|eauto].
    intros ->. simpl in Hlen. specialize (Hlen1 H2). specialize (Hl2 Hlen1). lia. }
  destruct Hr2 as (p & l2 & -> & ->). cbn [bind]. simpl.
  eexists. split; [reflexivity|]. split.
  - split; simpl; rewrite ?Hc1, ?Hn1, ?Hb1; done.
  - simpl. intros Hd. destruct (Hdrop Hd) as (-> & Ho & Hw'). split; [done|].
    unfold written, pending. simpl. rewrite Ho, Hw', join_app, Hb1, Hc1. done.
Qed.

Lemma async_step_spec e s o :
  async_inv s -> event_ok e -> async_step e s = Some o ->
  exists s', o = Ok s' /\ async_inv s' /\
    (dropped s' = false -> dropped s = false /\
      written s' ++ pending s' = (written s ++ pending s) ++ line_of e).
Proof.
  intros Hi He H. destruct e as [l| | | |message]; cbn [async_step line_of] in *.
  - injection H as <-. destruct (async_append_spec l s Hi He) as (s' & Hs' & Hi' & Hd & Hw & Hp).
    exists s'. split; [done|]. split; [done|]. rewrite Hd, Hw, Hp. intros ->. by rewrite app_assoc.
  - injection H as <-. eexists. split; [reflexivity|]. rewrite app_nil_r. split; [|done].
    destruct Hi as [Hc Hn Hb Hp]. by split.
  - destruct (at_ s) eqn:Hat; try done. injection H as <-. unfold loop_head.
    destruct Hi as [Hc Hn Hb Hp]. rewrite Hat in Hp. destruct Hp as (H1 & H2 & Hw).
    rewrite H1, H2, Hw. rewrite app_nil_r. destruct (running_ s); simpl;
      (eexists; split; [reflexivity|]; split; [by split|done]).
  - destruct (at_ s) eqn:Hat; try done. injection H as <-.
    destruct (swap_buffers_spec s Hi Hat) as (Hi' & Hd & Hw & Hp).
    eexists. split; [reflexivity|]. split; [done|]. rewrite Hd, Hw, Hp, app_nil_r. done.
  - destruct (at_ s) eqn:Hat; try done. injection H as <-.
    destruct (write_buffers_spec message s Hi Hat) as (s' & Hs' & Hi' & Hd).
    exists s'. split; [done|]. split; [done|]. intros Hf. destruct (Hd Hf) as (-> & -> & ->).
    split; [done|]. unfold pending. by rewrite app_nil_r, !app_assoc.
Qed.

Lemma async_start_inv : async_inv async_start.
Proof. split; simpl; [by exists new_buffer|by left|constructor|done]. Qed.

(** C36.  The asynchronous log never fails an assertion or dereferences a moved
    pointer: with any lines shorter than a buffer, in any interleaving, the
    thread gets its two empty buffers back in every round.  Unless it had to drop
    buffers, what it has written followed by what is in the buffers is what was
    appended, in order. *)
Theorem async_logging_keeps_lines es o :
  Forall event_ok es -> async_run es async_start = Some o ->
  exists s, o = Ok s /\ async_inv s /\
    (dropped s = false -> written s ++ pending s = mjoin (line_of <$> es)).
Proof.
  cut (forall s0, async_inv s0 -> Forall event_ok es -> async_run es s0 = Some o ->
    exists s, o = Ok s /\ async_inv s /\ (dropped s = false -> dropped s0 = false /\
      written s ++ pending s = (written s0 ++ pending s0) ++ mjoin (line_of <$> es))).
  { intros Hgen Hes Hrun. destruct (Hgen _ async_start_inv Hes Hrun) as (s & -> & Hi & Hs).
    exists s. split; [done|]. split; [done|]. intros Hd. by destruct (Hs Hd) as [_ ->]. }
  intros s0 Hi Hes. revert s0 Hi. induction Hes as [|e es He Hes IH]; intros s0 Hi Hrun.
  - simpl in Hrun. injection Hrun as <-. exists s0. split; [done|]. split; [done|].
    intros. by rewrite app_nil_r.
  - cbn [async_run] in Hrun. destruct (async_step e s0) as [o1|] eqn:H1; [|done].
    destruct (async_step_spec e s0 o1 Hi He H1) as (s1 & -> & Hi1 & Hs1).
    destruct (IH _ Hi1 Hrun) as (s & -> & Hi' & Hs). exists s. split; [done|]. split; [done|].
    intros Hd. destruct (Hs Hd) as [Hd1 Heq]. destruct (Hs1 Hd1) as [Hd0 Heq1].
    split; [done|]. rewrite Heq, Heq1, <-app_assoc. done.
Qed.

Definition async_demo : list event :=
  [EHead; EAppend (str "one "); ESwap; EAppend (str "two "); EWrite []; EHead; ESwap; EAppend (str "three")].
Lemma async_logging_keeps_lines_witness :
  exists s, async_run async_demo async_start = Some (Ok s) /\
    written s ++ pending s = str "one two three" /\ written s = str "one ".
Proof.
  destruct (async_run async_demo async_start) as [o|] eqn:Hrun; [|by vm_compute in Hrun].
  destruct (async_logging_keeps_lines async_demo o) as (s & -> & _ & Hs);
    [repeat constructor|exact Hrun|].
  exists s. split; [reflexivity|].
  assert (Hf : dropped s = false /\ written s = str "one ")
    by (vm_compute in Hrun; injection Hrun as <-; split; reflexivity).
  split; [|exact (proj2 Hf)]. rewrite (Hs (proj1 Hf)). vm_compute. reflexivity.
Defined.

(** [stop] loses lines: the thread tests [running_] before it looks at the
    buffers, so that once it is false at the head of the loop nothing more is
    written, whatever is pending. *)
Theorem async_stop_loses_tail s es s' :
  at_ s = AtLoop \/ at_ s = Exited -> running_ s = false ->
  async_run es s = Some (Ok s') -> output s' = output s.
Proof.
  revert s. induction es as [|e es IH]; intros s Hat Hr Hrun.
  { simpl in Hrun. by injection Hrun as <-. }
  cbn [async_run] in Hrun. destruct (async_step e s) as [[s1|]|] eqn:H1; [|done..].
  assert (Hs1 : output s1 = output s /\ running_ s1 = false /\ (at_ s1 = AtLoop \/ at_ s1 = Exited)).
  { destruct e as [l| | | |message]; cbn [async_step] in H1.
    - injection H1 as H1. unfold async_append in H1.
      destruct (currentBuffer_ s); simpl in H1; [|done]. destruct (_ <? _); [by simplify_eq/=|].
      revert H1. async_simpl. destruct (nextBuffer_ s); intros; by simplify_eq/=.
    - by simplify_eq/=.
    - destruct (at_ s); try done. injection H1 as H1. unfold loop_head in H1. rewrite Hr in H1.
      simplify_eq/=. auto.
    - destruct Hat as [Hat|Hat]; by rewrite Hat in H1.
    - destruct Hat as [Hat|Hat]; by rewrite Hat in H1. }
  destruct Hs1 as (Ho & Hr1 & Hat1). rewrite <-Ho. by eapply IH.
Qed.

(** A line that is appended after the last round is never written. *)
Lemma async_stop_loses_tail_witness :
  exists s s', async_run [EHead; ESwap; EWrite []; EAppend (str "lost"); EStop] async_start = Some (Ok s) /\
    async_run [EHead] s = Some (Ok s') /\ at_ s' = Exited /\ pending s' = str "lost" /\
    output s' = output s.
Proof.
  eexists _, _. split; [vm_compute; reflexivity|]. split; [reflexivity|]. split; [reflexivity|].
  split; [reflexivity|].
  refine (async_stop_loses_tail _ [EHead] _ _ _ _); [left; reflexivity|reflexivity|reflexivity].
Defined.
End AsyncLogging.
