(* ===== verification/Connector.v ===== *)
(** * Connector ([muduo/net/Connector.cc], [.h])

    The connector opens a connection without blocking: it waits until the socket
    is writable, tries again with growing delays when the connection is refused,
    and hands the socket over when it is established.  Its loop is modelled by
    what the connector sees of it: the functors it queues, the round of functors
    that is running, its timers, and whether the loop is handling events or
    running functors.  The results of system calls are arguments of the events. *)

From S2P Require Import Prelude Effects Channel.
#[local] Open Scope handler_scope.

Module Connector.

(** The values of errno on Linux that [connect] distinguishes. *)
Definition EINTR : Z := 4.
Definition EAGAIN : Z := 11.
Definition EADDRINUSE : Z := 98.
Definition EADDRNOTAVAIL : Z := 99.
Definition ENETUNREACH : Z := 101.
Definition EISCONN : Z := 106.
Definition ECONNREFUSED : Z := 111.
Definition EINPROGRESS : Z := 115.

Definition kMaxRetryDelayMs : Z := 30 * 1000.
Definition kInitRetryDelayMs : Z := 500.

Inductive States := kDisconnected | kConnecting | kConnected.
#[export] Instance States_eq_dec : EqDecision States.
Proof. solve_decision. Defined.

Record Connector := Connector_ {
  connect_ : bool;
  state_ : States;
  channel_ : option Channel;
  retryDelayMs_ : Z
}.
Definition new_Connector : Connector := Connector_ false kDisconnected None kInitRetryDelayMs.

(** The functors a connector queues; those of other objects have a number. *)
Inductive cfunctor := FStart | FStop | FReset | FOther (n : nat).
#[export] Instance cfunctor_eq_dec : EqDecision cfunctor.
Proof. solve_decision. Defined.

(** [pending] is [pendingFunctors_] of the loop, [batch] the functors of the
    round that are still to run.  A timer that is armed while the loop handles
    events or runs functors ([fresh]) cannot be due before the next poll. *)
Record World := World_ {
  cn : Connector;
  pending : list cfunctor;
  batch : list cfunctor;
  handling : bool;
  fresh : list Z;
  armed : list Z
}.

Inductive act :=
  | OpenSocket (fd : Z)
  | CloseSocket (fd : Z)
  | NewConnection (fd : Z)
  | RunAfter (ms : Z)
  | UpdateChannel (events : Z)
  | RemoveChannel.

Abbreviation H A := (M World act A).

Definition on_cn (f : Connector -> Connector) : H unit :=
  mmod (fun w => World_ (f (cn w)) (pending w) (batch w) (handling w) (fresh w) (armed w)).
Definition setState (s : States) : H unit :=
  on_cn (fun c => Connector_ (connect_ c) s (channel_ c) (retryDelayMs_ c)).
Definition set_connect (b : bool) : H unit :=
  on_cn (fun c => Connector_ b (state_ c) (channel_ c) (retryDelayMs_ c)).
Definition set_channel (ch : option Channel) : H unit :=
  on_cn (fun c => Connector_ (connect_ c) (state_ c) ch (retryDelayMs_ c)).
Definition set_delay (d : Z) : H unit :=
  on_cn (fun c => Connector_ (connect_ c) (state_ c) (channel_ c) d).
Definition queueInLoop (f : cfunctor) : H unit :=
  mmod (fun w => World_ (cn w) (pending w ++ [f]) (batch w) (handling w) (fresh w) (armed w)).
Definition runAfter (ms : Z) : H unit :=
  do _ <- emit (RunAfter ms);
  mmod (fun w => World_ (cn w) (pending w) (batch w) (handling w) (fresh w ++ [ms]) (armed w)).

Definition chan_of (w : World) : option Channel := channel_ (cn w).
Definition put_chan (ch : Channel) (w : World) : World :=
  World_ (Connector_ (connect_ (cn w)) (state_ (cn w)) (Some ch) (retryDelayMs_ (cn w)))
    (pending w) (batch w) (handling w) (fresh w) (armed w).
Definition loop_update : H unit :=
  do ev <- ask_channel chan_of put_chan events_;
  emit (UpdateChannel ev).
Definition loop_remove : H unit := emit RemoveChannel.

(** ** Operations *)

Definition connecting (sockfd : Z) : H unit :=
  do _ <- setState kConnecting;
  do ch <- mget chan_of;
  do _ <- massert (bool_decide (ch = None));
  do _ <- set_channel (Some (new_Channel sockfd));
  enableWriting chan_of put_chan loop_update.

Definition retry (sockfd : Z) : H unit :=
  do _ <- emit (CloseSocket sockfd);
  do _ <- setState kDisconnected;
  do connect <- mget (fun w => connect_ (cn w));
  if connect : bool then
    do delay <- mget (fun w => retryDelayMs_ (cn w));
    do _ <- runAfter delay;
    set_delay (Z.min (delay * 2) kMaxRetryDelayMs)
  else mret tt.

(** [dial] is the new socket and [savedErrno]. *)
Definition connect (dial : Z * Z) : H unit :=
  let '(sockfd, savedErrno) := dial in
  do _ <- emit (OpenSocket sockfd);
  if bool_decide (savedErrno ∈ [0; EINPROGRESS; EINTR; EISCONN]) then connecting sockfd
  else if bool_decide (savedErrno ∈ [EAGAIN; EADDRINUSE; EADDRNOTAVAIL; ECONNREFUSED; ENETUNREACH])
  then retry sockfd
  else emit (CloseSocket sockfd).

Definition startInLoop (dial : Z * Z) : H unit :=
  do s <- mget (fun w => state_ (cn w));
  do _ <- massert (bool_decide (s = kDisconnected));
  do go <- mget (fun w => connect_ (cn w));
  if go : bool then connect dial else mret tt.

Definition start (inloop : bool) (dial : Z * Z) : H unit :=
  do _ <- set_connect true;
  if inloop then startInLoop dial else queueInLoop FStart.

Definition removeAndResetChannel : H Z :=
  do _ <- disableAll chan_of put_chan loop_update;
  do _ <- remove chan_of put_chan loop_remove;
  do sockfd <- ask_channel chan_of put_chan fd_;
  do _ <- queueInLoop FReset;
  mret sockfd.

(** The destructor of the channel runs if there is one. *)
Definition resetChannel : H unit :=
  do ch <- mget chan_of;
  do _ <- (match ch with Some ch => lift (delete_Channel ch) | None => mret tt end);
  set_channel None.

Definition stopInLoop : H unit :=
  do s <- mget (fun w => state_ (cn w));
  if decide (s = kConnecting) then
    do _ <- setState kDisconnected;
    do sockfd <- removeAndResetChannel;
    retry sockfd
  else mret tt.

Definition stop : H unit :=
  do _ <- set_connect false;
  queueInLoop FStop.

Definition restart (dial : Z * Z) : H unit :=
  do _ <- setState kDisconnected;
  do _ <- set_delay kInitRetryDelayMs;
  do _ <- set_connect true;
  startInLoop dial.

(** [err] is [SO_ERROR], [self] the result of [isSelfConnect]. *)
Definition handleWrite (err : Z) (self : bool) : H unit :=
  do s <- mget (fun w => state_ (cn w));
  if decide (s = kConnecting) then
    do sockfd <- removeAndResetChannel;
    if negb (err =? 0) then retry sockfd
    else if self then retry sockfd
    else
      do _ <- setState kConnected;
      do go <- mget (fun w => connect_ (cn w));
      if go : bool then emit (NewConnection sockfd) else emit (CloseSocket sockfd)
  else massert (bool_decide (s = kDisconnected)).

Definition handleError : H unit :=
  do s <- mget (fun w => state_ (cn w));
  if decide (s = kConnecting) then
    do sockfd <- removeAndResetChannel;
    retry sockfd
  else mret tt.

Definition connector_callbacks (err : Z) (self : bool) : callbacks World act := {|
  readCallback_ := None;
  writeCallback_ := Some (handleWrite err self);
  closeCallback_ := None;
  errorCallback_ := Some handleError |}.

(** The assertion of the destructor. *)
Definition delete_Connector (c : Connector) : outcome unit :=
  assert_ (bool_decide (channel_ c = None)).

(** ** Events *)

Inductive event :=
  | EvStart (inloop : bool) (dial : Z * Z)
  | EvStop
  | EvRestart (dial : Z * Z)
  | EvPollReturns                                   (* the next round begins *)
  | EvTimer (i : nat) (dial : Z * Z)                (* a timer is due *)
  | EvPoll (revents err : Z) (self : bool)          (* events of the channel *)
  | EvOther (n : nat)                               (* another object queues a functor *)
  | EvSwap                                          (* doPendingFunctors begins *)
  | EvRun (dial : Z * Z).                           (* its next functor *)

Definition run_functor (f : cfunctor) (dial : Z * Z) : H unit :=
  match f with
  | FStart => startInLoop dial
  | FStop => stopInLoop
  | FReset => resetChannel
  | FOther _ => mret tt
  end.

Definition step (e : event) : H unit :=
  match e with
  | EvStart inloop dial => start inloop dial
  | EvStop => stop
  | EvRestart dial => restart dial
  | EvPollReturns =>
      mmod (fun w => World_ (cn w) (pending w) (batch w) true [] (armed w ++ fresh w))
  | EvTimer i dial =>
      do _ <- mmod (fun w => World_ (cn w) (pending w) (batch w) (handling w) (fresh w)
                               (delete i (armed w)));
      startInLoop dial
  | EvPoll revents err self =>
      do _ <- change_channel chan_of put_chan (set_revents revents);
      handleEvent chan_of put_chan (connector_callbacks err self) 0
  | EvOther n => queueInLoop (FOther n)
  | EvSwap =>
      mmod (fun w => World_ (cn w) [] (pending w) false (fresh w) (armed w))
  | EvRun dial =>
      do q <- mget batch;
      match q with
      | [] => mret tt
      | f :: q =>
          do _ <- mmod (fun w => World_ (cn w) (pending w) q (handling w) (fresh w) (armed w));
          run_functor f dial
      end
  end.

(** When the loop can deliver an event. *)
Definition possible (w : World) (e : event) : Prop :=
  match e with
  | EvPollReturns => handling w = false /\ batch w = []
  | EvTimer i _ => handling w = true /\ (i < length (armed w))%nat
  | EvPoll _ _ _ => handling w = true /\ exists ch, chan_of w = Some ch /\ addedToLoop_ ch = true
  | EvSwap => handling w = true
  | EvRun _ => handling w = false
  | EvStart _ _ | EvStop | EvRestart _ | EvOther _ => True
  end.

Fixpoint steps (es : list event) : H unit :=
  match es with
  | [] => mret tt
  | e :: es => do _ <- step e; steps es
  end.

Definition new_World : World := World_ new_Connector [] [] true [] [].

(** Refused twice, then connected: the delays are 500 and 1000 ms. *)
Example connector_demo :
  (fun r => r.2) <$> (match steps
      [EvStart false (5, ECONNREFUSED); EvSwap; EvRun (5, ECONNREFUSED); EvPollReturns;
       EvTimer 0 (5, ECONNREFUSED); EvSwap; EvPollReturns; EvTimer 0 (6, EINPROGRESS);
       EvSwap; EvPollReturns; EvPoll POLLOUT 0 false; EvSwap; EvRun (0, 0)] new_World with
     | Ok r => Some r | Crash _ => None end) =
  Some [OpenSocket 5; CloseSocket 5; RunAfter 500; OpenSocket 5; CloseSocket 5; RunAfter 1000;
        OpenSocket 6; UpdateChannel 4; UpdateChannel 0; RemoveChannel; NewConnection 6].
Proof. vm_compute. reflexivity. Qed.

(** ** Safety

    [TcpClient] starts its connector at most once, restarts it after a connection
    was handed over and has come down, unless it was stopped, and stops it.  Under
    this use no assertion fails; [started] and [stopped] record the calls. *)

Definition allowed (started stopped : bool) (w : World) (e : event) : Prop :=
  match e with
  | EvStart _ _ => started = false /\ stopped = false
  | EvRestart _ => started = true /\ stopped = false /\ state_ (cn w) = kConnected /\ chan_of w = None
  | _ => True
  end.
Definition started_after (e : event) (b : bool) : bool := match e with EvStart _ _ => true | _ => b end.
Definition stopped_after (e : event) (b : bool) : bool := match e with EvStop => true | _ => b end.

Definition hit (f g : cfunctor) : nat :=
  match f, g with
  | FStart, FStart | FStop, FStop | FReset, FReset | FOther _, FOther _ => 1
  | _, _ => 0
  end.
Fixpoint cnt (f : cfunctor) (l : list cfunctor) : nat :=
  match l with [] => O | g :: l => (hit f g + cnt f l)%nat end.

(** The calls of [startInLoop] to come, and those of [resetChannel]. *)
Definition tokens (w : World) : nat :=
  (length (fresh w) + length (armed w) + cnt FStart (pending w) + cnt FStart (batch w))%nat.
Definition resets (w : World) : nat := (cnt FReset (pending w) + cnt FReset (batch w))%nat.

Definition open_chan (ch : Channel) : Prop :=
  events_ ch = kWriteEvent /\ eventHandling_ ch = false /\ addedToLoop_ ch = true /\ tied_ ch = false.
Definition closed_chan (ch : Channel) : Prop :=
  eventHandling_ ch = false /\ addedToLoop_ ch = false.

(** While it connects there is one channel and nothing else to come.  After that
    the channel is taken off the loop, and one [resetChannel] will delete it
    before the next attempt can begin. *)
Definition phase_ok (w : World) : Prop :=
  match state_ (cn w), channel_ (cn w) with
  | kConnecting, Some ch => open_chan ch /\ resets w = O /\ tokens w = O
  | kConnecting, None => False
  | kDisconnected, None => resets w = O /\ (tokens w <= 1)%nat
  | kConnected, None => resets w = O /\ tokens w = O
  | kConnected, Some ch => closed_chan ch /\ resets w = 1%nat /\ tokens w = O /\
      cnt FReset (if handling w then pending w else batch w) = 1%nat
  | kDisconnected, Some ch => closed_chan ch /\ resets w = 1%nat /\ (tokens w <= 1)%nat /\
      (connect_ (cn w) = true -> armed w = [] /\ cnt FStart (pending w) = O /\
         cnt FStart (batch w) = O /\
         cnt FReset (if handling w then pending w else batch w) = 1%nat)
  end.

Record conn_inv (started stopped : bool) (w : World) : Prop := {
  ci_connect : connect_ (cn w) = started && negb stopped;
  ci_stop : (0 < cnt FStop (pending w) + cnt FStop (batch w))%nat -> stopped = true;
  ci_handling : handling w = true -> batch w = [];
  ci_delay : kInitRetryDelayMs <= retryDelayMs_ (cn w) <= kMaxRetryDelayMs;
  ci_phase : phase_ok w;
  ci_new : started = false -> cn w = new_Connector /\ tokens w = O;
  ci_stopped : stopped = true -> (cnt FStop (pending w) + cnt FStop (batch w) = 0)%nat ->
    state_ (cn w) <> kConnecting
}.

(** The sockets that were opened, closed and handed over, and the one in use. *)
Definition opened (es : list act) : list Z := omap (fun a => match a with OpenSocket fd => Some fd | _ => None end) es.
Definition closed (es : list act) : list Z := omap (fun a => match a with CloseSocket fd => Some fd | _ => None end) es.
Definition handed (es : list act) : list Z := omap (fun a => match a with NewConnection fd => Some fd | _ => None end) es.
Definition delays (es : list act) : list Z := omap (fun a => match a with RunAfter ms => Some ms | _ => None end) es.
Definition live (w : World) : list Z :=
  match state_ (cn w), channel_ (cn w) with kConnecting, Some ch => [fd_ ch] | _, _ => [] end.

Definition accounted (w : World) (es : list act) (w' : World) : Prop :=
  opened es ++ live w ≡ₚ closed es ++ handed es ++ live w' /\
  Forall (fun ms => kInitRetryDelayMs <= ms <= kMaxRetryDelayMs) (delays es).

Lemma cnt_app f l k : cnt f (l ++ k) = (cnt f l + cnt f k)%nat.
Proof. induction l as [|g l IH]; simpl; lia. Qed.
Lemma cnt_cons f g l : cnt f (g :: l) = (hit f g + cnt f l)%nat.
Proof. done. Qed.
Lemma cnt_nil f : cnt f [] = O.
Proof. done. Qed.
#[local] Arguments cnt : simpl never.

(** What a handler must do. *)
Definition good (started stopped : bool) (m : H unit) (w : World) : Prop :=
  exists w' es, m w = Ok (tt, w', es) /\ conn_inv started stopped w' /\ accounted w es w'.

(** Run the handler on a state whose fields are variables. *)
Ltac run_handler :=
  eexists _, _; split; [cbn; reflexivity|].
Ltac inv_fields :=
  split; unfold phase_ok, tokens, resets, kInitRetryDelayMs, kMaxRetryDelayMs in *; cbn; rewrite ?cnt_app, ?cnt_cons, ?cnt_nil, ?length_app; cbn;
  try done; try lia; try solve [split_and!; intros; first [done|lia|congruence]]; auto;
  try solve [intros; subst; cbn in *; congruence].

Lemma connect_good started stopped dial cb s d p b h f a :
  cb = started && negb stopped -> started = true ->
  ((0 < cnt FStop p + cnt FStop b)%nat -> stopped = true) ->
  (h = true -> b = []) -> kInitRetryDelayMs <= d <= kMaxRetryDelayMs ->
  s = kDisconnected -> resets (World_ (Connector_ cb s None d) p b h f a) = O ->
  tokens (World_ (Connector_ cb s None d) p b h f a) = O ->
  good started stopped (startInLoop dial) (World_ (Connector_ cb s None d) p b h f a).
Proof.
  intros Hcb Hst Hstop Hh Hd -> Hr Ht. unfold tokens, resets in *. cbn in Hr, Ht.
  unfold good, startInLoop. destruct cb; cycle 1.
  { run_handler. split; [|split; [done|constructor]]. inv_fields. }
  destruct dial as [fd errno].
  cbn -[connect]. unfold connect. destruct (bool_decide (errno ∈ [0; _; _; _])).
  - run_handler. split; [|split; [done|constructor]].
    inv_fields.
  - destruct (bool_decide (errno ∈ [EAGAIN; _; _; _; _])).
    + run_handler. unfold kInitRetryDelayMs, kMaxRetryDelayMs in *.
      split; [|split; [done|]; cbn; apply Forall_singleton; unfold kInitRetryDelayMs, kMaxRetryDelayMs; lia].
      inv_fields.
    + run_handler. split; [|split; [done|constructor]]. inv_fields.
Qed.

(** The error and write callbacks of a channel that reports events. *)
Definition off (ch : Channel) : Channel :=
  mk_Channel (fd_ ch) kNoneEvent (revents_ ch) (index_ ch) (logHup_ ch) (tie_ ch) (tied_ ch)
    (eventHandling_ ch) false.
Definition retried (cb : bool) (ch : Channel) (d : Z) (p b : list cfunctor) (h : bool) (f a : list Z) : World :=
  World_ (Connector_ cb kDisconnected (Some (off ch)) (if cb then Z.min (d * 2) kMaxRetryDelayMs else d))
    (p ++ [FReset]) b h (f ++ if cb then [d] else []) a.
Definition retry_acts (cb : bool) (fd d : Z) : list act :=
  [UpdateChannel 0; RemoveChannel; CloseSocket fd] ++ if cb then [RunAfter d] else [].

Lemma handleError_eq cb ch d p b h f a :
  handleError (World_ (Connector_ cb kConnecting (Some ch) d) p b h f a) =
    Ok (tt, retried cb ch d p b h f a, retry_acts cb (fd_ ch) d).
Proof. destruct cb; [done|]. unfold retried. rewrite app_nil_r. done. Qed.

Lemma handleWrite_eq cb ch d p b h f a err self :
  handleWrite err self (World_ (Connector_ cb kConnecting (Some ch) d) p b h f a) =
    if negb (err =? 0) || self then Ok (tt, retried cb ch d p b h f a, retry_acts cb (fd_ ch) d)
    else Ok (tt, World_ (Connector_ cb kConnected (Some (off ch)) d) (p ++ [FReset]) b h f a,
             [UpdateChannel 0; RemoveChannel; if cb then NewConnection (fd_ ch) else CloseSocket (fd_ ch)]).
Proof.
  unfold handleWrite. destruct (err =? 0) eqn:He, self; destruct cb; cbn [negb orb];
    unfold retried; rewrite ?app_nil_r; cbn -[Z.eqb]; rewrite ?He; done.
Qed.

Lemma handleWrite_late cb ch d p b h f a err self :
  handleWrite err self (World_ (Connector_ cb kDisconnected ch d) p b h f a) =
    Ok (tt, World_ (Connector_ cb kDisconnected ch d) p b h f a, []).
Proof. done. Qed.

Lemma set_same w ch : chan_of w = Some ch -> put_chan ch w = w.
Proof. destruct w as [[cb s c d] p b h f a]. cbn. by intros ->. Qed.

Ltac chan_step :=
  apply wp_then;
  first [eapply (wp_ask_channel chan_of put_chan); [exact set_same|reflexivity|]
        |eapply (wp_change_channel chan_of put_chan); [reflexivity|]];
  cbn [app].

Lemma wp_skip C (b : bool) w (Q : unit -> World -> list act -> Prop) :
  Q tt w [] -> wp C (if b then mret tt else mret tt) w Q.
Proof. by destruct b. Qed.
Lemma wp_late C (b : bool) cb ch d p q h f a err self (Q : unit -> World -> list act -> Prop) :
  Q tt (World_ (Connector_ cb kDisconnected ch d) p q h f a) [] ->
  wp C (if b then handleWrite err self else mret tt)
    (World_ (Connector_ cb kDisconnected ch d) p q h f a) Q.
Proof. by destruct b. Qed.

Lemma delay_next d :
  kInitRetryDelayMs <= d <= kMaxRetryDelayMs ->
  kInitRetryDelayMs <= Z.min (d * 2) kMaxRetryDelayMs <= kMaxRetryDelayMs.
Proof. unfold kInitRetryDelayMs, kMaxRetryDelayMs. lia. Qed.

Lemma stopInLoop_eq cb ch d p b h f a :
  stopInLoop (World_ (Connector_ cb kConnecting (Some ch) d) p b h f a) =
    Ok (tt, retried cb ch d p b h f a, retry_acts cb (fd_ ch) d).
Proof. destruct cb; [done|]. unfold retried. rewrite app_nil_r. done. Qed.

(** An attempt was given up: by an event of the channel, or since it was stopped. *)
Lemma retried_inv stopped cb ch d p b h f a :
  cb = negb stopped -> ((0 < cnt FStop p + cnt FStop b)%nat -> stopped = true) ->
  (h = true -> b = []) -> kInitRetryDelayMs <= d <= kMaxRetryDelayMs ->
  eventHandling_ ch = false ->
  (cnt FReset p + cnt FReset b = 0)%nat ->
  (length f + length a + cnt FStart p + cnt FStart b = 0)%nat ->
  (cb = true -> h = true) ->
  conn_inv true stopped (retried cb ch d p b h f a).
Proof.
  intros Hcb Hstop Hh Hd Hev Hr Ht Hhc. pose proof (delay_next d Hd).
  destruct a as [|? a]; [|cbn in Ht; lia].
  unfold retried. split; unfold phase_ok, tokens, resets; cbn [cn pending batch handling fresh armed
    connect_ state_ channel_ retryDelayMs_]; rewrite ?cnt_app, ?cnt_cons, ?cnt_nil, ?length_app; cbn [hit].
  - done.
  - intros Hp. apply Hstop. lia.
  - done.
  - by destruct cb.
  - split; [done|]. split; [lia|]. split; [destruct cb; cbn in *; lia|].
    intros Ec. rewrite (Hhc Ec), cnt_app, cnt_cons, cnt_nil in *. cbn [hit]. split; [done|].
    cbn in Ht. lia.
  - done.
  - done.
Qed.

(** Events of the channel of a connector that is connecting: nothing happens,
    the attempt failed, or it succeeded.  [ch] is the channel afterwards, before
    it was taken off the loop. *)
Inductive poll_result (cb : bool) (fd d : Z) (p : list cfunctor) (f a : list Z) : World -> list act -> Prop :=
  | poll_quiet ch : fd_ ch = fd -> open_chan ch ->
      poll_result cb fd d p f a (World_ (Connector_ cb kConnecting (Some ch) d) p [] true f a) []
  | poll_retried ch : fd_ ch = fd -> eventHandling_ ch = false ->
      poll_result cb fd d p f a (retried cb ch d p [] true f a) (retry_acts cb fd d)
  | poll_connected ch : fd_ ch = fd -> eventHandling_ ch = false ->
      poll_result cb fd d p f a (World_ (Connector_ cb kConnected (Some (off ch)) d) (p ++ [FReset]) [] true f a)
        [UpdateChannel 0; RemoveChannel; if cb then NewConnection fd else CloseSocket fd].

Lemma poll_cases cb ch d p f a revents err self :
  open_chan ch ->
  exists w' es,
    step (EvPoll revents err self) (World_ (Connector_ cb kConnecting (Some ch) d) p [] true f a) = Ok (tt, w', es) /\
    poll_result cb (fd_ ch) d p f a w' es.
Proof.
  intros (He & Hev & Ha & Ht). destruct ch as [fd ev rv idx lg ti td eh ad].
  cbn in He, Hev, Ha, Ht |- *. subst ev eh ad td.
  set (w0 := World_ _ _ _ _ _ _).
  assert (Hwp : wp safe (step (EvPoll revents err self)) w0 (fun _ w' es => poll_result cb fd d p f a w' es)).
  { unfold step, handleEvent. chan_step. chan_step. cbn [tied_ set_revents]. unfold handleEventWithGuard.
    chan_step. chan_step. unfold run. cbn [closeCallback_ readCallback_ errorCallback_ writeCallback_
      connector_callbacks option_map].
    set (hup := _ && _). apply wp_then, wp_skip. clear hup. cbn [app].
    chan_step. set (ch0 := mk_Channel fd kWriteEvent revents idx lg ti false true true).
    match goal with |- wp _ _ ?w1 _ =>
      change w1 with (World_ (Connector_ cb kConnecting (Some ch0) d) p [] true f a) end.
    destruct (any_of _ (Z.lor POLLERR POLLNVAL)); apply wp_then.
    - unfold wp at 1. rewrite handleError_eq. unfold retried.
      chan_step. apply wp_then, wp_skip. cbn [app].
      chan_step. apply wp_then, wp_late. cbn [app].
      eapply (wp_change_channel chan_of put_chan); [reflexivity|]. rewrite ?app_nil_r.
      by apply (poll_retried _ _ _ _ _ _ (mk_Channel fd kWriteEvent revents idx lg ti false false true)).
    - apply wp_ret. cbn [app].
      chan_step. apply wp_then, wp_skip. cbn [app].
      chan_step. apply wp_then. destruct (any_of _ POLLOUT).
      + unfold wp at 1. rewrite handleWrite_eq. destruct (negb (err =? 0) || self).
        * unfold retried. cbn [app]. eapply (wp_change_channel chan_of put_chan); [reflexivity|]. rewrite ?app_nil_r.
          by apply (poll_retried _ _ _ _ _ _ (mk_Channel fd kWriteEvent revents idx lg ti false false true)).
        * cbn [app]. eapply (wp_change_channel chan_of put_chan); [reflexivity|].
          by apply (poll_connected _ _ _ _ _ _ (mk_Channel fd kWriteEvent revents idx lg ti false false true)).
      + apply wp_ret. cbn [app]. eapply (wp_change_channel chan_of put_chan); [reflexivity|].
        by apply poll_quiet. }
  apply wp_elim in Hwp as ([] & w' & es & Hrun & Hr). by exists w', es.
Qed.

Lemma poll_good stopped cb s ch d p b h f a revents err self :
  let w := World_ (Connector_ cb s (Some ch) d) p b h f a in
  conn_inv true stopped w -> s = kConnecting -> h = true ->
  good true stopped (step (EvPoll revents err self)) w.
Proof.
  intros w [Hcb Hstop Hh Hd Hp _ Hz] -> ->. unfold w in *. unfold phase_ok in Hp. cbn in Hcb, Hp, Hd, Hh.
  specialize (Hh eq_refl). subst b. destruct Hp as (Hc & Hr & Htk). unfold tokens, resets in *. cbn in Hr, Htk, Hstop, Hz.
  destruct (poll_cases cb ch d p f a revents err self Hc) as (w' & es & E & Hres).
  exists w', es. split; [exact E|].
  destruct Hres as [ch' Hfd Ho|ch' Hfd He|ch' Hfd He].
  - split; [|split; [cbn; by rewrite Hfd|constructor]]. inv_fields.
  - split; [apply (retried_inv stopped cb ch' d p [] true f a); auto; lia|].
    split; [by destruct cb|destruct cb; [by apply Forall_singleton|constructor]].
  - split; [|split; [destruct cb; cbn; done|destruct cb; constructor]].
    inv_fields. intros ?. apply Hstop. rewrite cnt_nil. lia.
Qed.

(** [resetChannel], when its functor runs. *)
Lemma reset_good started stopped w q :
  conn_inv started stopped w -> batch w = FReset :: q -> handling w = false ->
  good started stopped resetChannel
    (World_ (cn w) (pending w) q (handling w) (fresh w) (armed w)).
Proof.
  destruct w as [[cb s c d] p b h f a]. intros [Hcb Hstop Hh Hd Hp Hn]. cbn in *. intros -> ->.
  unfold phase_ok, resets in Hp. unfold tokens in *. cbn in Hp, Hn. rewrite !cnt_cons in *. cbn [hit] in *.
  destruct c as [ch|].
  - assert (Hc : closed_chan ch) by (destruct s; [apply Hp|destruct Hp; lia|apply Hp]).
    exists (World_ (Connector_ cb s None d) p q false f a), [].
    split.
    { destruct ch, Hc as [Hc1 Hc2]. cbn in Hc1, Hc2. subst. reflexivity. }
    split; [|split; [destruct s; [done|destruct Hp; lia|done]|constructor]].
    destruct s; [|destruct Hp; lia|];
      inv_fields; intros Hs; destruct (Hn Hs); unfold new_Connector in *; congruence.
  - destruct s; [|done|]; destruct Hp; lia.
Qed.
(** [startInLoop], with its call still counted. *)
Lemma start_good started stopped dial w :
  started = true -> ((0 < cnt FStop (pending w) + cnt FStop (batch w))%nat -> stopped = true) ->
  connect_ (cn w) = started && negb stopped ->
  (handling w = true -> batch w = []) -> kInitRetryDelayMs <= retryDelayMs_ (cn w) <= kMaxRetryDelayMs ->
  state_ (cn w) = kDisconnected -> tokens w = O ->
  match chan_of w with
  | None => resets w = O
  | Some ch => closed_chan ch /\ resets w = 1%nat /\ connect_ (cn w) = false
  end ->
  good started stopped (startInLoop dial) w.
Proof.
  destruct w as [[cb s [ch|] d] p b h f a]; cbn; intros Hst Hstop Hcb Hh Hd Hs Ht Hp.
  - destruct Hp as (Hc & Hr & Hn). cbn in Hn. subst s.
    exists (World_ (Connector_ false kDisconnected (Some ch) d) p b h f a), [].
    split; [by rewrite Hn|]. split; [|split; [done|constructor]]. rewrite Hn in Hcb.
    unfold tokens, resets in *. cbn in *.
    inv_fields.
  - by apply connect_good.
Qed.

(** A timer that is due, or the functor of [start]: the call is the only one. *)
Lemma call_good stopped dial w w0 :
  conn_inv true stopped w0 ->
  cn w = cn w0 -> handling w = handling w0 -> (handling w = true -> batch w = []) ->
  cnt FStop (pending w) = cnt FStop (pending w0) -> cnt FStop (batch w) = cnt FStop (batch w0) ->
  tokens w0 = S (tokens w) -> resets w = resets w0 ->
  (connect_ (cn w0) = true -> armed w0 <> [] \/ (0 < cnt FStart (batch w0))%nat) ->
  good true stopped (startInLoop dial) w.
Proof.
  intros [Hcb Hstop Hh Hd Hp _] Ec Ehd Hh' E1 E2 Et Er Hon.
  unfold phase_ok in Hp. rewrite Et, <- Er in Hp.
  assert (Hs : state_ (cn w0) = kDisconnected).
  { destruct (state_ (cn w0)), (channel_ (cn w0)); try done; lia. }
  rewrite Hs in Hp.
  apply start_good; rewrite ?Ec, ?E1, ?E2; auto.
  - destruct (channel_ (cn w0)); lia.
  - unfold chan_of. rewrite Ec. destruct (channel_ (cn w0)) as [ch|]; [|lia].
    destruct Hp as (Hc & Hr & Ht & Hon'). split_and!; [done..|].
    destruct (connect_ (cn w0)); [|done]. destruct (Hon' eq_refl) as (Ha & _ & Hb & _).
    destruct (Hon eq_refl); [done|lia].
Qed.
Lemma cnt_pos f l : f ∈ l -> (0 < cnt f l)%nat.
Proof. induction 1 as [f l|f g l _ IH]; rewrite cnt_cons; [destruct f; cbn|]; lia. Qed.

Lemma conn_inv_new w started stopped :
  conn_inv started stopped w -> started = false ->
  cn w = new_Connector /\ tokens w = O.
Proof. intros [_ _ _ _ _ Hn _]. exact Hn. Qed.

(** Events that only change the queues, or the flags the calls set. *)
Lemma swap_good started stopped w :
  conn_inv started stopped w -> handling w = true -> good started stopped (step EvSwap) w.
Proof.
  destruct w as [[cb s c d] p b h f a]. intros [Hcb Hstop Hh Hd Hp Hn] Hb. cbn in *. subst h.
  rewrite (Hh eq_refl) in *. run_handler. split; [|split; [by destruct s, c|constructor]].
  unfold phase_ok, tokens, resets in *. cbn in *. rewrite ?cnt_nil in *.
  split; unfold phase_ok, tokens, resets; cbn; rewrite ?cnt_nil, ?Nat.add_0_r, ?Nat.add_0_l in *; auto.
  all: destruct s, c; intuition (try lia; try congruence).
Qed.

Lemma returns_good started stopped w :
  conn_inv started stopped w -> handling w = false -> batch w = [] ->
  good started stopped (step EvPollReturns) w.
Proof.
  destruct w as [[cb s c d] p b h f a]. intros [Hcb Hstop Hh Hd Hp Hn] Hb Hb'. cbn in *. subst h b.
  run_handler. split; [|split; [by destruct s, c|constructor]].
  unfold phase_ok, tokens, resets in *. cbn in *.
  split; unfold phase_ok, tokens, resets; cbn; rewrite ?length_app, ?cnt_nil, ?Nat.add_0_r in *; auto.
  - destruct s, c; rewrite ?cnt_nil in *; intuition lia.
  - intros Hs. destruct (Hn Hs) as (? & ?). split; [done|]. cbn. lia.
Qed.

Lemma stop_good started stopped w :
  conn_inv started stopped w -> good started true (step EvStop) w.
Proof.
  destruct w as [[cb s c d] p b h f a]. intros [Hcb Hstop Hh Hd Hp Hn Hz]. cbn in *.
  run_handler. split; [|split; [by destruct s, c|constructor]].
  unfold phase_ok, tokens, resets in *. cbn in *.
  split; unfold phase_ok, tokens, resets; cbn; rewrite ?cnt_app, ?cnt_cons, ?cnt_nil; cbn; auto; try done.
  - by rewrite andb_false_r.
  - clear Hn Hz Hcb Hstop.
    destruct s, c, h; try done; rewrite ?cnt_app, ?cnt_cons, ?cnt_nil, ?Nat.add_0_r; cbn;
      rewrite ?Nat.add_0_r; intuition congruence.
  - intros Hs. destruct (Hn Hs) as [Hc Ht]. unfold new_Connector in *. split; [congruence|]. lia.
  - intros _ H0. lia.
Qed.
Lemma good_after started stopped f m w :
  live (f w) = live w -> good started stopped m (f w) -> good started stopped (do _ <- mmod f; m) w.
Proof.
  intros Hl (w' & es & Hm & Hi & Hp & Hd). exists w', es. split; [by cbn; rewrite Hm|].
  split; [done|]. split; [by rewrite <- Hl|done].
Qed.

(** The functor at the head of the round. *)
Lemma run_good started stopped dial w :
  conn_inv started stopped w -> handling w = false -> good started stopped (step (EvRun dial)) w.
Proof.
  intros Hi Hb. destruct w as [[cb s c d] p q h f a]. cbn in Hb. subst h.
  destruct q as [|g q].
  { run_handler. split; [done|]. split; [by destruct s, c|constructor]. }
  assert (E : step (EvRun dial) (World_ (Connector_ cb s c d) p (g :: q) false f a) =
    (do _ <- mmod (fun w => World_ (cn w) (pending w) q (handling w) (fresh w) (armed w)); run_functor g dial)
      (World_ (Connector_ cb s c d) p (g :: q) false f a)).
  { cbn -[run_functor]. by destruct (run_functor g dial _) as [[[??]?]|?]. }
  unfold good. rewrite E. clear E.
  apply good_after; [done|]. cbn [cn pending handling fresh armed].
  destruct g; cbn [run_functor].
  - assert (started = true) as ->.
    { destruct started; [done|]. destruct (conn_inv_new _ _ _ Hi eq_refl) as (_ & Ht).
      unfold tokens in Ht. cbn in Ht. rewrite cnt_cons in Ht. cbn in Ht. lia. }
    eapply call_good; [exact Hi|..]; unfold tokens, resets; cbn; rewrite ?cnt_cons; cbn; try done; lia.
  - destruct Hi as [Hcb Hstop Hh Hd Hp Hn]. cbn in *.
    assert (stopped = true) as -> by (apply Hstop; rewrite cnt_cons; cbn; lia).
    rewrite andb_false_r in Hcb. subst cb.
    assert (Hlate : s <> kConnecting -> good started true stopInLoop (World_ (Connector_ false s c d) p q false f a)).
    { intros Hs. exists (World_ (Connector_ false s c d) p q false f a), [].
      split; [by destruct s|]. split; [|split; [by destruct s, c|constructor]].
      split; cbn; try done. by rewrite andb_false_r. }
    destruct s; [by apply Hlate| |by apply Hlate].
    destruct c as [ch|]; [|done].
    exists (retried false ch d p q false f a), (retry_acts false (fd_ ch) d). split; [apply stopInLoop_eq|].
    destruct started; [|by destruct (Hn eq_refl) as (? & _)].
    unfold phase_ok, tokens, resets in Hp. cbn in Hp. rewrite !cnt_cons in Hp. cbn in Hp.
    destruct Hp as ((_ & He & _) & Hr & Ht).
    split; [apply retried_inv; auto; done|]. split; [done|constructor].
  - by apply (reset_good _ _ _ q Hi).
  - exists (World_ (Connector_ cb s c d) p q false f a), []. split; [done|].
    split; [destruct Hi; by split|split; [by destruct s, c|constructor]].
Qed.

(** A functor of another object is queued. *)
Lemma other_good started stopped n w :
  conn_inv started stopped w -> good started stopped (step (EvOther n)) w.
Proof.
  destruct w as [[cb s c d] p b h f a]. intros [Hcb Hstop Hh Hd Hp Hn Hz]. cbn in *.
  run_handler. split; [|split; [by destruct s, c|constructor]].
  unfold phase_ok, tokens, resets in *. cbn in *.
  split; unfold phase_ok, tokens, resets; cbn; rewrite ?cnt_app, ?cnt_cons, ?cnt_nil; cbn;
    rewrite ?Nat.add_0_r; auto.
  destruct s, c, h; try done; rewrite ?cnt_app, ?cnt_cons, ?cnt_nil; cbn; rewrite ?Nat.add_0_r; done.
Qed.

Lemma poll_event_good started stopped w revents err self :
  conn_inv started stopped w -> possible w (EvPoll revents err self) ->
  good started stopped (step (EvPoll revents err self)) w.
Proof.
  intros Hi [Hh (ch & Hch & Ha)].
  assert (started = true) as ->.
  { destruct started; [done|]. destruct (conn_inv_new _ _ _ Hi eq_refl) as (Hn & _).
    unfold chan_of in Hch. by rewrite Hn in Hch. }
  destruct w as [[cb s c d] p b h f a]. cbn in Hh, Hch. subst h c.
  assert (s = kConnecting) as ->; [|by eapply poll_good].
  destruct Hi as [_ _ _ _ Hp _]. unfold phase_ok, closed_chan in Hp. cbn in Hp.
  destruct s; [|done|]; destruct Hp as ((_ & Hp) & _); congruence.
Qed.

Lemma timer_good started stopped w i dial :
  conn_inv started stopped w -> possible w (EvTimer i dial) ->
  good started stopped (step (EvTimer i dial)) w.
Proof.
  intros Hi [Hh Hlt]. cbn [step]. apply good_after; [done|].
  assert (started = true) as ->.
  { destruct started; [done|]. destruct (conn_inv_new _ _ _ Hi eq_refl) as (_ & Ht).
    unfold tokens in Ht. lia. }
  destruct (lookup_lt_is_Some_2 (armed w) i Hlt) as [x Hx].
  pose proof (length_delete (armed w) i (mk_is_Some _ _ Hx)).
  eapply call_good; [exact Hi|..]; unfold tokens, resets;
    cbn [cn pending batch handling fresh armed]; try done; [by destruct Hi|lia|].
  intros _. left. destruct (armed w); [cbn in Hlt; lia|done].
Qed.

Lemma start_event_good w inloop dial :
  conn_inv false false w -> good true false (step (EvStart inloop dial)) w.
Proof.
  intros Hi. destruct (conn_inv_new _ _ _ Hi eq_refl) as (Hn & Ht).
  destruct Hi as [_ Hstop Hh _ Hp _].
  destruct w as [c p b h f a]. cbn in Hn, Hh, Hstop. subst c. unfold phase_ok in Hp. cbn in Hp.
  unfold tokens in Ht. cbn in Ht. cbn [step]. unfold start.
  apply good_after; [done|]. destruct inloop.
  - unfold tokens, resets in *. apply start_good; cbn; try done; unfold tokens, resets; cbn in *; lia.
  - run_handler. split; [|split; [done|constructor]].
    unfold tokens, resets in Hp. cbn in Hp.
    inv_fields.
Qed.

Lemma restart_good w dial :
  conn_inv true false w -> state_ (cn w) = kConnected -> chan_of w = None ->
  good true false (step (EvRestart dial)) w.
Proof.
  intros [Hcb Hstop Hh _ Hp _] Hs Hc. destruct w as [[cb s c d] p b h f a]. cbn in *. subst s c.
  unfold phase_ok, tokens, resets in Hp. cbn in Hp. unfold restart.
  apply good_after; [done|]. apply good_after; [done|]. apply good_after; [done|].
  apply start_good; cbn; try done; unfold tokens, resets; cbn; intuition; lia.
Qed.

(** Every event the loop can deliver, and every call [TcpClient] makes. *)
Lemma step_good started stopped w e :
  conn_inv started stopped w -> allowed started stopped w e -> possible w e ->
  good (started_after e started) (stopped_after e stopped) (step e) w.
Proof.
  intros Hi Hal Hpo. destruct e as [inloop dial| |dial| |i dial|revents err self|n| |dial];
    cbn [allowed possible started_after stopped_after] in *.
  - destruct Hal as [-> ->]. by apply start_event_good.
  - by eapply stop_good.
  - destruct Hal as (-> & -> & ? & ?). by apply restart_good.
  - destruct Hpo. by apply returns_good.
  - by apply timer_good.
  - by apply poll_event_good.
  - by apply other_good.
  - by apply swap_good.
  - by apply run_good.
Qed.
(** ** The loop, for the object that uses the connector *)

(** The functors that are still to run, in order. *)
Definition queue (w : World) : list cfunctor := batch w ++ pending w.
Definition own (f : cfunctor) : Prop := match f with FOther _ => False | _ => True end.

(** A step takes the connector's own functors off the queue and adds at most a
    [resetChannel], when an attempt ends; what was established stays so; and a
    socket is handed over as the last thing. *)
Record moved (w : World) (es : list act) (w' : World) : Prop := {
  mv_queue : exists taken rest extra, queue w = taken ++ rest /\ queue w' = rest ++ extra /\
    Forall own taken /\ (extra = [] \/ (extra = [FReset] /\ state_ (cn w) = kConnecting));
  mv_connected : state_ (cn w) = kConnected ->
    state_ (cn w') = kConnected /\ (chan_of w = None -> chan_of w' = None);
  mv_handed : handed es = [] \/
    (exists fd es0, es = es0 ++ [NewConnection fd] /\ handed es0 = [] /\ connect_ (cn w) = true /\
       state_ (cn w) = kConnecting /\ state_ (cn w') = kConnected)
}.

Lemma startInLoop_frame dial w w' es :
  startInLoop dial w = Ok (tt, w', es) ->
  queue w' = queue w /\ handed es = [] /\ state_ (cn w) = kDisconnected /\ handling w' = handling w.
Proof.
  destruct w as [[cb s c d] p b h f a], dial as [fd errno]. unfold startInLoop. destruct s; [|done..].
  destruct cb; [|by intros [= <- <-]]. cbn -[connect]. unfold connect.
  destruct (bool_decide (errno ∈ [0; _; _; _])); [destruct c; [done|]; by intros [= <- <-]|].
  destruct (bool_decide (errno ∈ [EAGAIN; _; _; _; _])); by intros [= <- <-].
Qed.

Lemma start_moved dial w0 w w' es taken :
  queue w0 = taken ++ queue w -> Forall own taken -> cn w = cn w0 ->
  startInLoop dial w = Ok (tt, w', es) -> moved w0 es w'.
Proof.
  intros Hq Ho Hc E. apply startInLoop_frame in E as (Hq' & Hh & Hs & _). rewrite Hc in Hs. split.
  - exists taken, (queue w), []. rewrite app_nil_r. auto.
  - intros Hs'. congruence.
  - by left.
Qed.

Lemma poll_moved started stopped revents err self w w' es :
  conn_inv started stopped w -> possible w (EvPoll revents err self) ->
  step (EvPoll revents err self) w = Ok (tt, w', es) -> moved w es w'.
Proof.
  intros [Hcb _ Hb _ Hp _ _] [Hh (ch & Hch & Ha)] E. destruct w as [[cb s c d] p b h f a].
  cbn in Hh, Hch, Hb. subst h c. rewrite (Hb eq_refl) in *. unfold phase_ok, closed_chan in Hp. cbn in Hp.
  destruct s; [destruct Hp as ((_ & Hp) & _); congruence| |destruct Hp as ((_ & Hp) & _); congruence].
  destruct Hp as (Hc & _). destruct (poll_cases cb ch d p f a revents err self Hc) as (w1 & es1 & E1 & Hr).
  rewrite E in E1. injection E1 as <- <-. destruct Hr as [ch' _ _|ch' _ _|ch' _ _].
  - split; [exists [], p, []; rewrite app_nil_r; auto|done|by left].
  - split; [exists [], p, [FReset]; auto 10|done|left; by destruct cb].
  - split; [exists [], p, [FReset]; auto 10|done|]. destruct cb; [|by left].
    right. exists (fd_ ch), [UpdateChannel 0; RemoveChannel]. done.
Qed.

Lemma run_moved started stopped dial w w' es g q :
  conn_inv started stopped w -> batch w = g :: q -> own g ->
  step (EvRun dial) w = Ok (tt, w', es) -> moved w es w'.
Proof.
  intros Hi Hb Ho E. destruct w as [[cb s c d] p b h f a]. cbn in Hb. subst b.
  assert (E1 : run_functor g dial (World_ (Connector_ cb s c d) p q h f a) = Ok (tt, w', es)).
  { cbn -[run_functor] in E. by destruct (run_functor g dial _) as [[[[] ?]?]|?]. }
  destruct Hi as [_ _ _ _ Hp _ _]. unfold phase_ok in Hp. cbn in Hp. destruct g as [| | |n]; cbn [run_functor] in E1.
  - refine (start_moved dial _ _ _ _ [FStart] _ _ _ E1); [done|by repeat constructor|done].
  - destruct s; [injection E1 as <- <-| |injection E1 as <- <-].
    1,3: split; [exists [FStop], (q ++ p), []; rewrite app_nil_r; repeat constructor; auto|done|by left].
    destruct c as [ch|]; [|done]. rewrite stopInLoop_eq in E1. injection E1 as <- <-.
    split; [|done|left; by destruct cb].
    exists [FStop], (q ++ p), [FReset]. unfold queue. cbn. rewrite <- app_assoc. split_and!; auto; by repeat constructor.
  - assert (E2 : exists c', w' = World_ (Connector_ cb s None d) p q h f a /\ es = [] /\ c' = c).
    { exists c. destruct c as [ch|]; cbn in E1; [destruct (delete_Channel ch); [|done]|]; by injection E1 as <- <-. }
    destruct E2 as (_ & -> & -> & _).
    split; [exists [FReset], (q ++ p), []; rewrite app_nil_r; repeat constructor; auto|done|by left].
  - done.
Qed.

(** Only an event of the channel hands a socket over. *)
Lemma run_silent dial w w' es g q :
  batch w = g :: q -> step (EvRun dial) w = Ok (tt, w', es) -> handed es = [].
Proof.
  intros Hb E. destruct w as [[cb s c d] p b h f a]. cbn in Hb. subst b.
  assert (E1 : run_functor g dial (World_ (Connector_ cb s c d) p q h f a) = Ok (tt, w', es)).
  { cbn -[run_functor] in E. by destruct (run_functor g dial _) as [[[[] ?]?]|?]. }
  clear E. destruct g as [| | |n]; cbn [run_functor] in E1.
  - by apply startInLoop_frame in E1 as (_ & ? & _).
  - destruct s; [by injection E1 as _ <-| |by injection E1 as _ <-].
    destruct c as [ch|]; [|done]. rewrite stopInLoop_eq in E1. injection E1 as _ <-. by destruct cb.
  - destruct c as [ch|]; cbn in E1; [destruct (delete_Channel ch); [|done]|]; by injection E1 as _ <-.
  - by injection E1 as _ <-.
Qed.

(** ** Runs *)

(** A sequence of events the loop and [TcpClient] can produce. *)
Fixpoint legal (started stopped : bool) (w : World) (es : list event) : Prop :=
  match es with
  | [] => True
  | e :: es =>
      allowed started stopped w e /\ possible w e /\
      forall w' acts, step e w = Ok (tt, w', acts) -> legal (started_after e started) (stopped_after e stopped) w' es
  end.

Lemma new_inv : conn_inv false false new_World.
Proof. split; try done; cbn; rewrite ?cnt_nil; [lia|split; [done|lia]]. Qed.

Lemma accounted_app w es w1 es1 w2 :
  accounted w es w1 -> accounted w1 es1 w2 -> accounted w (es ++ es1) w2.
Proof.
  unfold accounted, opened, closed, handed, delays. intros [H1 D1] [H2 D2]. rewrite !omap_app, Forall_app.
  split; [|done]. rewrite <- app_assoc, (Permutation_app_comm _ (live w)), app_assoc, H1, <- !app_assoc.
  rewrite (Permutation_app_comm (live w1)), H2. solve_Permutation.
Qed.

Lemma steps_good es : forall started stopped w,
  conn_inv started stopped w -> legal started stopped w es ->
  exists w' acts, steps es w = Ok (tt, w', acts) /\ accounted w acts w' /\
    exists started' stopped', conn_inv started' stopped' w'.
Proof.
  induction es as [|e es IH]; intros started stopped w Hi Hl.
  - exists w, []. split; [done|]. split; [by split|by eauto].
  - destruct Hl as (Hal & Hpo & Hl). destruct (step_good _ _ _ _ Hi Hal Hpo) as (w1 & a1 & H1 & Hi1 & Ha1).
    destruct (IH _ _ _ Hi1 (Hl _ _ H1)) as (w2 & a2 & H2 & Ha2 & Hi2).
    exists w2, (a1 ++ a2). split; [cbn [steps]; unfold mthen; by rewrite H1, H2|]. split; [by eapply accounted_app|done].
Qed.

(** C15.  A connector that is started once, and not after a stop: whatever the
    network answers, and however the events of the loop, stops and restarts
    follow each other, no assertion of the connector or of its channel fails;
    every socket it opened is closed, handed over or the one it waits on, exactly
    once; and every retry waits between half a second and thirty.  [legal] admits
    a restart only when a connection was handed over and its channel has been
    reset, and no stop came before; [TcpClient] keeps to that unless its user
    connects again.  A second start does fail: connect, stop and connect again
    reaches [second_start_fails], and [stop_start_fails]. *)
Theorem connector_safe es :
  legal false false new_World es ->
  exists w acts, steps es new_World = Ok (tt, w, acts) /\
    opened acts ≡ₚ closed acts ++ handed acts ++ live w /\
    Forall (fun ms => kInitRetryDelayMs <= ms <= kMaxRetryDelayMs) (delays acts).
Proof.
  intros Hl. destruct (steps_good es _ _ _ new_inv Hl) as (w & acts & Hs & [Ho Hd] & _).
  exists w, acts. split; [done|]. split; [|done]. by rewrite <- Ho, app_nil_r.
Qed.

(** Executable: the events of the demonstration are legal. *)
Definition allowed_b (started stopped : bool) (w : World) (e : event) : bool :=
  match e with
  | EvStart _ _ => negb started && negb stopped
  | EvRestart _ => started && negb stopped && bool_decide (state_ (cn w) = kConnected) &&
      match chan_of w with None => true | Some _ => false end
  | _ => true
  end.
Definition possible_b (w : World) (e : event) : bool :=
  match e with
  | EvPollReturns => negb (handling w) && match batch w with [] => true | _ => false end
  | EvTimer i _ => handling w && (i <? length (armed w))%nat
  | EvPoll _ _ _ => handling w && match chan_of w with Some ch => addedToLoop_ ch | None => false end
  | EvSwap => handling w
  | EvRun _ => negb (handling w)
  | EvStart _ _ | EvStop | EvRestart _ | EvOther _ => true
  end.
Fixpoint legal_b (started stopped : bool) (w : World) (es : list event) : bool :=
  match es with
  | [] => true
  | e :: es =>
      allowed_b started stopped w e && possible_b w e &&
      match step e w with
      | Ok (_, w', _) => legal_b (started_after e started) (stopped_after e stopped) w' es
      | Crash _ => false
      end
  end.

Lemma possible_b_ok w e : possible_b w e = true -> possible w e.
Proof.
  intros Hp. destruct e; cbn [possible possible_b] in *; try done;
    rewrite ?andb_true_iff, ?negb_true_iff, ?Nat.ltb_lt in Hp; try done; destruct Hp as [? Hp]; split; try done.
  - by destruct (batch w).
  - destruct (chan_of w) as [ch|]; [by exists ch|done].
Qed.

Lemma legal_b_ok es : forall started stopped w,
  legal_b started stopped w es = true -> legal started stopped w es.
Proof.
  induction es as [|e es IH]; intros started stopped w; [done|]. cbn [legal_b legal].
  rewrite !andb_true_iff. intros [[Ha Hp] Hs]. split_and!.
  - destruct e; cbn [allowed allowed_b] in *; try done;
      [by rewrite andb_true_iff, !negb_true_iff in Ha|].
    rewrite !andb_true_iff, bool_decide_eq_true, negb_true_iff in Ha.
    destruct Ha as [[[? ?] ?] ?]. by destruct (chan_of w).
  - by apply possible_b_ok.
  - intros w' acts E. rewrite E in Hs. by apply IH.
Qed.

(** Refused twice, then connected, then restarted after the connection came
    down, and stopped while the timer of the next attempt is pending. *)
Definition demo_events : list event :=
  [EvStart false (5, ECONNREFUSED); EvSwap; EvRun (5, ECONNREFUSED); EvPollReturns;
   EvTimer 0 (5, ECONNREFUSED); EvSwap; EvPollReturns; EvTimer 0 (6, EINPROGRESS);
   EvSwap; EvPollReturns; EvPoll POLLOUT 0 false; EvSwap; EvRun (0, 0);
   EvRestart (7, EINPROGRESS); EvPollReturns; EvPoll (Z.lor POLLOUT POLLERR) 111 false; EvStop; EvSwap;
   EvRun (0, 0); EvRun (0, 0); EvPollReturns; EvTimer 0 (8, 0)].
Lemma demo_legal : legal_b false false new_World demo_events = true.
Proof. vm_compute. reflexivity. Qed.

Lemma connector_safe_witness :
  exists w acts, steps demo_events new_World = Ok (tt, w, acts) /\
    opened acts ≡ₚ closed acts ++ handed acts ++ live w /\
    Forall (fun ms => kInitRetryDelayMs <= ms <= kMaxRetryDelayMs) (delays acts).
Proof. apply (connector_safe demo_events). apply legal_b_ok. exact demo_legal. Defined.

(** [start], [stop] and [start] again ("FIXME: cancel timer"): the timer of
    the attempt that failed before [stop] is still armed, the second [start]
    connects, and when the timer is due, [startInLoop] finds the connector
    connecting and its assertion fails. *)
Theorem second_start_fails fd1 fd2 :
  steps [EvStart true (fd1, ECONNREFUSED); EvStop; EvSwap; EvRun (0, 0); EvPollReturns;
         EvStart true (fd2, EINPROGRESS); EvTimer 0 (0, 0)] new_World = Crash AssertFailed.
Proof. vm_compute. reflexivity. Qed.

(** The same two calls in one round of functors: [connecting] finds the channel
    that [resetChannel] was to delete. *)
Lemma stop_start_fails fd1 fd2 :
  steps [EvStart true (fd1, EINPROGRESS); EvStop; EvStart false (fd2, EINPROGRESS); EvSwap;
         EvRun (0, 0); EvRun (fd2, EINPROGRESS)] new_World = Crash AssertFailed.
Proof. vm_compute. reflexivity. Qed.

(** An error that is neither progress nor worth a retry ([EACCES], for one) ends
    the attempts: the socket is closed and nothing is armed. *)
Lemma fatal_error_gives_up fd errno w :
  errno ∉ [0; EINPROGRESS; EINTR; EISCONN] ->
  errno ∉ [EAGAIN; EADDRINUSE; EADDRNOTAVAIL; ECONNREFUSED; ENETUNREACH] ->
  connect (fd, errno) w = Ok (tt, w, [OpenSocket fd; CloseSocket fd]).
Proof.
  intros H1 H2. unfold connect.
  rewrite (bool_decide_eq_false_2 _ H1), (bool_decide_eq_false_2 _ H2). done.
Qed.

(** The delays of successive refusals double up to the limit. *)
Lemma delay_after n :
  Nat.iter n (fun d => Z.min (d * 2) kMaxRetryDelayMs) kInitRetryDelayMs =
  Z.min (kInitRetryDelayMs * 2 ^ Z.of_nat n) kMaxRetryDelayMs.
Proof.
  induction n as [|n IH]; [done|]. rewrite Nat.iter_succ, IH, Nat2Z.inj_succ, Z.pow_succ_r by lia.
  unfold kMaxRetryDelayMs, kInitRetryDelayMs. lia.
Qed.
End Connector.
