(* ===== verification/InetAddress.v ===== *)
(** * Addresses ([muduo/net/InetAddress.h], [.cc], [SocketsOps.cc])

    An [InetAddress] is the memory of a [sockaddr_in6], which a [sockaddr_in]
    shares the beginning of.  The text forms come from [inet_ntop] and
    [inet_pton], the class [Inet] with the laws the code relies on. *)

From stdpp Require Import strings pretty.
From S2P Require Import Prelude Endian LogStream.

Abbreviation str := LogStream.str.
#[local] Open Scope Z_scope.

Definition AF_INET : Z := 2.
Definition AF_INET6 : Z := 10.
Definition INADDR_ANY : Z := 0.
Definition INADDR_LOOPBACK : Z := 0x7f000001.
Definition in6addr_any : bytes := replicate 16 Byte.x00.
Definition in6addr_loopback : bytes := replicate 15 Byte.x00 ++ [Byte.x01].
Definition sizeof_sockaddr_in : nat := 16.
Definition sizeof_sockaddr_in6 : nat := 28.

(** Texts of addresses; [inet_pton] fails on a text that is none. *)
Class Inet := {
  inet_ntop : Z -> bytes -> bytes;
  inet_pton : Z -> bytes -> option bytes
}.
Definition addr_size (family : Z) : nat := if family =? AF_INET then 4 else 16.
(** [INET_ADDRSTRLEN] and [INET6_ADDRSTRLEN], which count the terminator. *)
Definition addrstrlen (family : Z) : nat := if family =? AF_INET then 16 else 46.
Class InetLaws `{Inet} := {
  inet_ntop_length family a : length a = addr_size family ->
    (length (inet_ntop family a) < addrstrlen family)%nat;
  inet_pton_ntop family a : length a = addr_size family -> inet_pton family (inet_ntop family a) = Some a
}.

(** ** Memory *)

Abbreviation InetAddress := bytes.

Definition memory_wf (a : InetAddress) : Prop := length a = sizeof_sockaddr_in6.
Definition read_at (off n : nat) (a : bytes) : bytes := take n (drop off a).
Definition write_at (off : nat) (l a : bytes) : bytes := take off a ++ l ++ drop (off + length l) a.
Definition memZero (n : nat) (a : bytes) : bytes := write_at 0 (replicate n Byte.x00) a.

(** [sin_family] and [sin_port] have the offsets of [sin6_family] and
    [sin6_port], as the static assertions of the source say. *)
Definition family (a : InetAddress) : Z := le_val (read_at 0 2 a).
Definition portNetEndian (a : InetAddress) : Z := le_val (read_at 2 2 a).
Definition sin_addr (a : InetAddress) : bytes := read_at 4 4 a.
Definition sin6_addr (a : InetAddress) : bytes := read_at 8 16 a.
Definition set_family (f : Z) (a : InetAddress) : InetAddress := write_at 0 (le_bytes 2 f) a.
Definition set_port (p : Z) (a : InetAddress) : InetAddress := write_at 2 (le_bytes 2 p) a.
Definition set_sin_addr (ip : bytes) (a : InetAddress) : InetAddress := write_at 4 ip a.
Definition set_sin6_addr (ip : bytes) (a : InetAddress) : InetAddress := write_at 8 ip a.

(** ** Operations *)

(** [a] is the memory before the constructor: the members are not initialised. *)
Definition any_address (port : Z) (loopbackOnly ipv6 : bool) (a : InetAddress) : InetAddress :=
  if ipv6 then
    set_port (hostToNetwork16 port)
      (set_sin6_addr (if loopbackOnly then in6addr_loopback else in6addr_any)
        (set_family AF_INET6 (memZero sizeof_sockaddr_in6 a)))
  else
    set_port (hostToNetwork16 port)
      (set_sin_addr (le_bytes 4 (hostToNetwork32 (if loopbackOnly then INADDR_LOOPBACK else INADDR_ANY)))
        (set_family AF_INET (memZero sizeof_sockaddr_in a))).

Section inet.
Context `{Inet}.

(** [sockets::fromIpPort], for each of the two structures; when [inet_pton]
    fails there is only a message. *)
Definition fromIpPort4 (ip : bytes) (port : Z) (a : InetAddress) : InetAddress :=
  let a := set_port (hostToNetwork16 port) (set_family AF_INET a) in
  match inet_pton AF_INET ip with Some b => set_sin_addr b a | None => a end.
Definition fromIpPort6 (ip : bytes) (port : Z) (a : InetAddress) : InetAddress :=
  let a := set_port (hostToNetwork16 port) (set_family AF_INET6 a) in
  match inet_pton AF_INET6 ip with Some b => set_sin6_addr b a | None => a end.

Definition address_of (ip : bytes) (port : Z) (ipv6 : bool) (a : InetAddress) : InetAddress :=
  if ipv6 then fromIpPort6 ip port (memZero sizeof_sockaddr_in6 a)
  else fromIpPort4 ip port (memZero sizeof_sockaddr_in a).

(** The C string in the buffer of [size] bytes, which begins as the empty one. *)
Definition sockets_toIp (size : nat) (a : InetAddress) : outcome bytes :=
  if family a =? AF_INET then
    bind (assert_ (addrstrlen AF_INET <=? size)%nat) (fun _ => Ok (inet_ntop AF_INET (sin_addr a)))
  else if family a =? AF_INET6 then
    bind (assert_ (addrstrlen AF_INET6 <=? size)%nat) (fun _ => Ok (inet_ntop AF_INET6 (sin6_addr a)))
  else Ok [].

(** [snprintf] keeps what fits before the terminator. *)
Definition snprintf (size : nat) (text : bytes) : bytes := take (size - 1) text.

Definition sockets_toIpPort (size : nat) (a : InetAddress) : outcome bytes :=
  bind (sockets_toIp size a) (fun buf =>
    let end_ := length buf in
    let port := networkToHost16 (portNetEndian a) in
    bind (assert_ (end_ <? size)%nat) (fun _ =>
      Ok (buf ++ snprintf (size - end_) (str (":" +:+ pretty port))))).

Definition toIpPort (a : InetAddress) : outcome bytes := sockets_toIpPort 64 a.
Definition toIp (a : InetAddress) : outcome bytes := sockets_toIp 64 a.
End inet.

Definition toPort (a : InetAddress) : Z := networkToHost16 (portNetEndian a).
Definition ipNetEndian (a : InetAddress) : outcome Z :=
  bind (assert_ (family a =? AF_INET)) (fun _ => Ok (le_val (sin_addr a))).

(** [InetAddress::resolve]; [found] is what [gethostbyname_r] answers: the type,
    the length and the bytes of the address. *)
Definition resolve (found : option (Z * Z * bytes)) (out : InetAddress) : outcome (bool * InetAddress) :=
  match found with
  | Some (h_addrtype, h_length, h_addr) =>
      bind (assert_ ((h_addrtype =? AF_INET) && (h_length =? 4))) (fun _ =>
        Ok (true, set_sin_addr (take 4 h_addr) out))
  | None => Ok (false, out)
  end.

(** [sockets::isSelfConnect]; the arguments are the answers of [getsockname]
    and [getpeername]. *)
Definition isSelfConnect (localaddr peeraddr : InetAddress) : bool :=
  if family localaddr =? AF_INET then
    (portNetEndian localaddr =? portNetEndian peeraddr) &&
    (le_val (sin_addr localaddr) =? le_val (sin_addr peeraddr))
  else if family localaddr =? AF_INET6 then
    (portNetEndian localaddr =? portNetEndian peeraddr) &&
    bool_decide (sin6_addr localaddr = sin6_addr peeraddr)
  else false.

(** ** Lemmas *)

Lemma length_write_at off l a : (off + length l <= length a)%nat -> length (write_at off l a) = length a.
Proof. intros Hl. unfold write_at. rewrite !length_app, length_take, length_drop. lia. Qed.

Lemma read_write_same off l a n :
  (off + length l <= length a)%nat -> n = length l -> read_at off n (write_at off l a) = l.
Proof.
  intros Hl ->. unfold read_at, write_at.
  rewrite drop_app_length' by (rewrite length_take; lia). by rewrite take_app_length.
Qed.

(** Fields that do not overlap: [simpl] on lists of known length decides it. *)
Lemma read_write_other off l a off' n :
  (off + length l <= length a)%nat -> (off' + n <= off)%nat \/ (off + length l <= off')%nat ->
  read_at off' n (write_at off l a) = read_at off' n a.
Proof.
  intros Hl Ho. unfold read_at, write_at. apply list_eq. intros i.
  destruct (decide (i < n)%nat) as [Hi|Hi]; [|rewrite !lookup_take_ge by lia; done].
  rewrite !lookup_take_lt, !lookup_drop by lia.
  destruct Ho as [Ho|Ho].
  - rewrite lookup_app_l by (rewrite length_take; lia). by rewrite lookup_take_lt by lia.
  - rewrite lookup_app_r by (rewrite length_take; lia). rewrite lookup_app_r by (rewrite length_take; lia).
    rewrite lookup_drop, length_take. f_equal. lia.
Qed.

Lemma str_inj s t : str s = str t -> s = t.
Proof.
  intros E. rewrite <- (String.string_of_list_byte_of_string s), <- (String.string_of_list_byte_of_string t).
  by f_equal.
Qed.

(** Decimal notation: its length, and that it determines the number. *)
Lemma decimal_length v k : (0 < k)%nat -> 0 <= v < 10 ^ Z.of_nat k -> v < 10 ^ 64 ->
  (length (str (pretty v)) <= k)%nat.
Proof.
  intros Hk Hv H64. destruct (LogStream.convert_natural v) as (l & Hl & Hr); [lia|].
  pose proof (LogStream.convert_loop_length _ _ _ _ Hl Hv Hk).
  assert (pretty v = pretty (Z.to_N v)) as -> by (destruct v; [done..|lia]).
  rewrite <- Hr, length_reverse. done.
Qed.
Lemma decimal_inj (v v' : Z) : str (pretty v) = str (pretty v') -> v = v'.
Proof. intros E%str_inj. by apply (inj pretty). Qed.

Lemma bswap_range n x : 0 <= bswap n x < pow256 n.
Proof.
  unfold bswap. pose proof (le_val_range (reverse (le_bytes n x))) as Hr.
  by rewrite length_reverse, length_le_bytes in Hr.
Qed.
Lemma port_range a : 0 <= toPort a < 65536.
Proof. apply (bswap_range 2). Qed.

Lemma port_back port : is_u16 port ->
  networkToHost16 (le_val (le_bytes 2 (hostToNetwork16 port))) = port.
Proof.
  intros Hp. unfold networkToHost16, hostToNetwork16. rewrite le_val_bytes.
  rewrite (Z.mod_small (bswap 2 port)) by apply bswap_range.
  rewrite bswap_bswap. apply Z.mod_small. exact Hp.
Qed.

(** The texts of a well-formed address. *)
Definition known_family (a : InetAddress) : Prop := family a = AF_INET \/ family a = AF_INET6.
Definition host_addr (a : InetAddress) : bytes :=
  if family a =? AF_INET then sin_addr a else sin6_addr a.

Lemma host_addr_length a : memory_wf a -> known_family a -> length (host_addr a) = addr_size (family a).
Proof.
  unfold memory_wf, host_addr, addr_size, sin_addr, sin6_addr, read_at. intros Hw _.
  destruct (family a =? AF_INET); rewrite length_take, length_drop, Hw; reflexivity.
Qed.

Lemma toIp_spec `{Inet} a : known_family a -> toIp a = Ok (inet_ntop (family a) (host_addr a)).
Proof. intros Hf. unfold toIp, sockets_toIp, host_addr. by destruct Hf as [-> | ->]. Qed.

(** What fits is printed whole. *)
Lemma snprintf_fits size l : (length l < size)%nat -> snprintf size l = l.
Proof. intros Hl. unfold snprintf. apply take_ge. lia. Qed.

Lemma toIpPort_spec `{!Inet, !InetLaws} a :
  memory_wf a -> known_family a ->
  toIpPort a = Ok (inet_ntop (family a) (host_addr a) ++ str (":" +:+ pretty (toPort a))) /\
  (length (inet_ntop (family a) (host_addr a) ++ str (":" +:+ pretty (toPort a))) <= 51)%nat.
Proof.
  intros Hw Hf. pose proof (inet_ntop_length _ _ (host_addr_length a Hw Hf)) as Hl.
  pose proof (port_range a) as Hp.
  assert (Hd : (length (str (":" +:+ pretty (toPort a))) <= 6)%nat).
  { change (str (":" +:+ pretty (toPort a))) with (Byte.x3a :: str (pretty (toPort a))). cbn [length].
    pose proof (decimal_length (toPort a) 5 ltac:(lia)) as Hd. change (10 ^ Z.of_nat 5) with 100000 in Hd.
    specialize (Hd ltac:(lia) ltac:(lia)). lia. }
  assert (Ha : (addrstrlen (family a) <= 46)%nat) by (destruct Hf as [-> | ->]; cbn; lia).
  unfold toIpPort, sockets_toIpPort. change (sockets_toIp 64 a) with (toIp a). rewrite (toIp_spec a Hf).
  cbn [bind]. rewrite (proj2 (Nat.ltb_lt _ _)) by lia. cbn [bind assert_].
  fold (toPort a). unfold snprintf. rewrite take_ge by lia. rewrite length_app. split; [done|lia].
Qed.

(** The two constructors. *)
Lemma memory_after off l a : memory_wf a -> (off + length l <= 28)%nat -> memory_wf (write_at off l a).
Proof. unfold memory_wf. intros Ha Hl. rewrite length_write_at; unfold sizeof_sockaddr_in6 in *; lia. Qed.

Lemma read_same off l a n : memory_wf a -> (off + length l <= 28)%nat -> n = length l ->
  read_at off n (write_at off l a) = l.
Proof. intros Ha Hl ->. apply read_write_same; [by rewrite Ha|done]. Qed.
Lemma read_other off l a off' n : memory_wf a -> (off + length l <= 28)%nat ->
  (off' + n <= off)%nat \/ (off + length l <= off')%nat ->
  read_at off' n (write_at off l a) = read_at off' n a.
Proof. intros Ha Hl Ho. apply read_write_other; [by rewrite Ha|done]. Qed.

Ltac memory := repeat (apply memory_after; [|rewrite ?length_replicate, ?length_le_bytes; cbn; lia]); assumption.
Ltac fields :=
  repeat first
    [ rewrite read_same; [|memory|rewrite ?length_le_bytes; lia|rewrite ?length_le_bytes; lia]
    | rewrite read_other; [|memory|rewrite ?length_le_bytes; lia|rewrite ?length_le_bytes; lia] ].

(** What a constructor leaves: the family, the port and the address. *)
Definition is_address (f port : Z) (ip : bytes) (a : InetAddress) : Prop :=
  memory_wf a /\ family a = f /\ toPort a = port /\ host_addr a = ip.

Lemma set4_is_address port ip a : memory_wf a -> is_u16 port -> length ip = 4%nat ->
  is_address AF_INET port ip (set_sin_addr ip (set_port (hostToNetwork16 port) (set_family AF_INET a))) /\
  is_address AF_INET port ip (set_port (hostToNetwork16 port) (set_sin_addr ip (set_family AF_INET a))).
Proof.
  intros Ha Hp Hl. unfold is_address, host_addr, toPort, family, portNetEndian, sin_addr, sin6_addr,
    set_sin_addr, set_port, set_family.
  split; (split; [memory|]); fields; (split; [done|]); rewrite port_back by done; done.
Qed.

Lemma set6_is_address port ip a : memory_wf a -> is_u16 port -> length ip = 16%nat ->
  is_address AF_INET6 port ip (set_sin6_addr ip (set_port (hostToNetwork16 port) (set_family AF_INET6 a))) /\
  is_address AF_INET6 port ip (set_port (hostToNetwork16 port) (set_sin6_addr ip (set_family AF_INET6 a))).
Proof.
  intros Ha Hp Hl. unfold is_address, host_addr, toPort, family, portNetEndian, sin_addr, sin6_addr,
    set_sin6_addr, set_port, set_family.
  split; (split; [memory|]); fields; (split; [done|]); rewrite port_back by done; done.
Qed.

Lemma memZero_wf n a : memory_wf a -> (n <= 28)%nat -> memory_wf (memZero n a).
Proof. intros Ha Hn. apply memory_after; [done|]. rewrite length_replicate. lia. Qed.

Lemma any_address_spec port (loopbackOnly ipv6 : bool) a : memory_wf a -> is_u16 port ->
  is_address (if ipv6 then AF_INET6 else AF_INET) port
    (if ipv6 then if loopbackOnly then in6addr_loopback else in6addr_any
     else map z2b (if loopbackOnly then [127; 0; 0; 1] else [0; 0; 0; 0]))
    (any_address port loopbackOnly ipv6 a).
Proof.
  intros Ha Hp. unfold any_address. destruct ipv6.
  - apply set6_is_address; [by apply memZero_wf|done|by destruct loopbackOnly].
  - replace (map z2b _) with
      (le_bytes 4 (hostToNetwork32 (if loopbackOnly then INADDR_LOOPBACK else INADDR_ANY)))
      by (destruct loopbackOnly; vm_compute; reflexivity).
    apply set4_is_address; [by apply memZero_wf; [|unfold sizeof_sockaddr_in; lia]|done|done].
Qed.

(** The text of an address and its port make the same address again: the
    constructor of [InetAddress] inverts [toIp] and [toPort], for both families,
    whatever was in the memory before. *)
Theorem address_roundtrip `{!Inet, !InetLaws} a junk :
  memory_wf a -> memory_wf junk -> known_family a ->
  exists text, toIp a = Ok text /\
    is_address (family a) (toPort a) (host_addr a)
      (address_of text (toPort a) (family a =? AF_INET6) junk).
Proof.
  intros Ha Hj Hf. eexists. split; [by apply toIp_spec|].
  pose proof (host_addr_length a Ha Hf) as Hl. pose proof (inet_pton_ntop _ _ Hl) as Hpt.
  pose proof (port_range a) as Hp. unfold address_of, fromIpPort4, fromIpPort6.
  destruct Hf as [E|E]; rewrite E in *; cbn [Z.eqb AF_INET AF_INET6 Pos.eqb]; rewrite Hpt.
  - apply set4_is_address; [by apply memZero_wf; [|unfold sizeof_sockaddr_in; lia]|exact Hp|exact Hl].
  - apply set6_is_address; [by apply memZero_wf|exact Hp|exact Hl].
Qed.

Lemma le_val_inj (l l' : bytes) : length l = length l' -> le_val l = le_val l' -> l = l'.
Proof. intros Hl E. rewrite <- (le_bytes_val l), <- (le_bytes_val l'). by rewrite Hl, E. Qed.

Lemma portNetEndian_range a : memory_wf a -> 0 <= portNetEndian a < pow256 2.
Proof.
  intros Ha. unfold portNetEndian. pose proof (le_val_range (read_at 2 2 a)) as Hr.
  unfold read_at in *. rewrite length_take, length_drop, Ha in Hr. exact Hr.
Qed.
Lemma toPort_inj a b : memory_wf a -> memory_wf b -> toPort a = toPort b -> portNetEndian a = portNetEndian b.
Proof.
  intros Ha Hb E. pose proof (portNetEndian_range a Ha). pose proof (portNetEndian_range b Hb).
  rewrite <- (Z.mod_small (portNetEndian a) (pow256 2)), <- (Z.mod_small (portNetEndian b) (pow256 2)) by done.
  rewrite <- !bswap_bswap. unfold toPort, networkToHost16 in E. by rewrite E.
Qed.

(** [isSelfConnect] holds of the two addresses of a socket if and only if
    they have the same text and the same port. *)
Theorem self_connect_iff `{!Inet, !InetLaws} l p :
  memory_wf l -> memory_wf p -> known_family l -> family l = family p ->
  isSelfConnect l p = true <-> toIp l = toIp p /\ toPort l = toPort p.
Proof.
  intros Hl Hp Hf E. assert (Hf' : known_family p) by (unfold known_family; by rewrite <- E).
  rewrite (toIp_spec l Hf), (toIp_spec p Hf'), <- E.
  pose proof (host_addr_length l Hl Hf) as Ll. pose proof (host_addr_length p Hp Hf') as Lp.
  rewrite <- E in Lp. pose proof (inet_pton_ntop _ _ Ll) as Pl. pose proof (inet_pton_ntop _ _ Lp) as Pp.
  assert (Ht : Ok (inet_ntop (family l) (host_addr l)) = Ok (inet_ntop (family l) (host_addr p)) <->
               host_addr l = host_addr p).
  { split; [intros [= Et]; rewrite Et in Pl; congruence|by intros ->]. }
  assert (Hport : toPort l = toPort p <-> portNetEndian l = portNetEndian p).
  { split; [by apply toPort_inj|unfold toPort; by intros ->]. }
  rewrite Ht, Hport. clear Ht Hport Pl Pp. unfold isSelfConnect, host_addr in *. rewrite <- E in *.
  destruct Hf as [F|F]; rewrite F in *; cbn [Z.eqb AF_INET AF_INET6 Pos.eqb] in *;
    rewrite andb_true_iff, Z.eqb_eq; [rewrite Z.eqb_eq|rewrite bool_decide_eq_true; tauto].
  split; [intros [? ?]; split; [apply le_val_inj; congruence|done]|intros [-> ?]; done].
Qed.

(** An implementation of the class that satisfies the laws: two letters for each
    byte. *)
Definition nibble (d : Z) : byte := z2b (97 + d).
Definition padded_ntop (_ : Z) (a : bytes) : bytes :=
  a ≫= fun b => [nibble (b2z b / 16); nibble (b2z b mod 16)].
Fixpoint padded_read (t : bytes) : option bytes :=
  match t with
  | [] => Some []
  | h :: l :: t => cons (z2b (16 * (b2z h - 97) + (b2z l - 97))) <$> padded_read t
  | _ => None
  end.
Definition padded_pton (f : Z) (t : bytes) : option bytes :=
  a ← padded_read t; if (length a =? addr_size f)%nat then Some a else None.
#[export] Instance padded : Inet := { inet_ntop := padded_ntop; inet_pton := padded_pton }.

Lemma padded_length f a : length (padded_ntop f a) = (2 * length a)%nat.
Proof. induction a as [|b a IH]; [done|]. unfold padded_ntop in *. cbn. rewrite IH. lia. Qed.
Lemma padded_read_ntop f a : padded_read (padded_ntop f a) = Some a.
Proof.
  induction a as [|b a IH]; [done|]. unfold padded_ntop in *. cbn [mbind list_bind app padded_read].
  rewrite IH. cbn. pose proof (b2z_range b) as Hb. unfold nibble. rewrite !b2z_z2b.
  f_equal. f_equal. etrans; [|apply z2b_b2z]. f_equal. word.
Qed.
#[export] Instance padded_laws : InetLaws.
Proof.
  split.
  - intros f a Ha. cbn. rewrite padded_length, Ha. unfold addr_size, addrstrlen. destruct (f =? AF_INET); lia.
  - intros f a Ha. cbn. unfold padded_pton. rewrite padded_read_ntop. cbn. by rewrite Ha, Nat.eqb_refl.
Qed.

Definition demo_address : InetAddress := any_address 8080 true false (replicate 28 Byte.x07).
Lemma demo_address_wf : memory_wf demo_address /\ known_family demo_address.
Proof. split; [vm_compute; reflexivity|left; vm_compute; reflexivity]. Qed.

Lemma address_roundtrip_witness :
  exists text, toIp demo_address = Ok text /\
    is_address (family demo_address) (toPort demo_address) (host_addr demo_address)
      (address_of text (toPort demo_address) (family demo_address =? AF_INET6) (replicate 28 Byte.x09)).
Proof. apply address_roundtrip; [apply demo_address_wf|done|apply demo_address_wf]. Defined.

Lemma self_connect_iff_witness :
  isSelfConnect demo_address demo_address = true <->
  toIp demo_address = toIp demo_address /\ toPort demo_address = toPort demo_address.
Proof. apply self_connect_iff; [apply demo_address_wf..|done]. Defined.
