(* ===== verification/Logging.v ===== *)
(** * Logger ([muduo/base/Logging.cc], [.h])

    One log statement constructs a [Logger], writes items to its stream and
    destroys it.  The constructor writes time, thread and level; the text of the
    second is kept per thread and reused while the second does not change.  The
    destructor writes the source line and hands the text out.  The thread's id is
    the one of [muduo/base/CurrentThread.h], time stamps are the ones of
    [muduo/base/Timestamp.cc].  [gmtime_r], [gettid] and [strerror_r] are
    parameters. *)

From Stdlib Require Import Ascii.
From stdpp Require Import strings pretty.
From S2P Require Import Prelude Date TimeZone LogStream InetAddress.
#[local] Open Scope Z_scope.
#[local] Open Scope outcome_scope.

Module Logging.
Import TimeZone LogStream.

(** ** Formats *)

(** ["%4d"] and ["%02d"] for width and value. *)
Definition fmt_d (width : nat) (n : Z) : bytes := str (Date.pad " "%char width (pretty n)).
Definition fmt_0d (width : nat) (n : Z) : bytes :=
  if n <? 0 then str ("-" +:+ Date.pad "0"%char (width - 1) (pretty (- n)))
  else str (Date.pad "0"%char width (pretty n)).

(** ["%4d%02d%02d %02d:%02d:%02d"]. *)
Definition format_tm (t : tm) : outcome bytes :=
  let* y := (#(tm_year t) + #1900)%int in
  let* m := (#(tm_mon t) + #1)%int in
  Ok (fmt_d 4 y ++ fmt_0d 2 m ++ fmt_0d 2 (tm_mday t) ++ str " " ++ fmt_0d 2 (tm_hour t) ++ str ":" ++
      fmt_0d 2 (tm_min t) ++ str ":" ++ fmt_0d 2 (tm_sec t)).

Definition kMicroSecondsPerSecond : Z := 1000000.

(** [Timestamp::toString] and [Timestamp::toFormattedString]. *)
Definition toString (microSecondsSinceEpoch_ : Z) : bytes :=
  let seconds := microSecondsSinceEpoch_ ÷ kMicroSecondsPerSecond in
  let microseconds := Z.rem microSecondsSinceEpoch_ kMicroSecondsPerSecond in
  snprintf 31 (str (pretty seconds) ++ str "." ++ fmt_0d 6 microseconds).

Section logger.
Context (gmtime : Z -> tm) (gettid : Z) (strerror : Z -> bytes).


(** ** State *)

Inductive LogLevel := TRACE | DEBUG | INFO | WARN | ERROR | FATAL.
Definition level_value (l : LogLevel) : Z :=
  match l with TRACE => 0 | DEBUG => 1 | INFO => 2 | WARN => 3 | ERROR => 4 | FATAL => 5 end.
Definition LogLevelName (l : LogLevel) : bytes :=
  str match l with
      | TRACE => "TRACE " | DEBUG => "DEBUG " | INFO => "INFO  "
      | WARN => "WARN  " | ERROR => "ERROR " | FATAL => "FATAL "
      end.
(** The two environment variables are set. *)
Definition initLogLevel (trace debug : bool) : LogLevel :=
  if trace then TRACE else if debug then DEBUG else INFO.

(** The variables of a thread; arrays of characters are texts. *)
Record Tls := Tls_ {
  t_lastSecond : Z;
  t_time : bytes;
  t_cachedTid : Z;
  t_tidString : bytes;
  t_tidStringLength : Z
}.
Definition new_Tls : Tls := Tls_ 0 [] 0 [] 6.

Definition cacheTid (t : Tls) : Tls :=
  if t_cachedTid t =? 0 then
    let text := fmt_d 5 gettid ++ str " " in
    Tls_ (t_lastSecond t) (t_time t) gettid (snprintf 32 text) (Z.of_nat (length text))
  else t.
Definition tid (t : Tls) : Tls := if t_cachedTid t =? 0 then cacheTid t else t.
(** In the child of a [fork]. *)
Definition afterFork (t : Tls) : Tls :=
  tid (Tls_ (t_lastSecond t) (t_time t) 0 (t_tidString t) (t_tidStringLength t)).

(** [SourceFile]: what follows the last slash. *)
Definition SourceFile (filename : bytes) : bytes :=
  match list_find (fun c => c = z2b 47) (reverse filename) with
  | Some (i, _) => drop (length filename - i) filename
  | None => filename
  end.

Record Logger := Logger_ {
  time_ : Z;
  stream_ : FixedBuffer;
  level_ : LogLevel;
  line_ : Z;
  basename_ : bytes
}.

(** ** Operations *)

(** [T(str, len)] and its [operator<<]. *)
Definition put_T (s : bytes) (len : Z) (b : FixedBuffer) : outcome FixedBuffer :=
  let* _ := assert_ (Z.of_nat (length s) =? len) in Ok (fb_append s b).

Definition formatTime (g_logTimeZone : option Data) (time : Z) (t : Tls) (stream : FixedBuffer)
    : outcome (Tls * FixedBuffer) :=
  let seconds := time ÷ kMicroSecondsPerSecond in
  let microseconds := s32 (Z.rem time kMicroSecondsPerSecond) in
  let* t :=
    (if negb (seconds =? t_lastSecond t) then
       let* tm_time := (if zone_valid g_logTimeZone then toLocalTime gmtime g_logTimeZone seconds
                        else Ok (gmtime seconds)) in
       let* text := format_tm tm_time in
       let* _ := assert_ (Z.of_nat (length text) =? 17) in
       Ok (Tls_ seconds (snprintf 64 text) (t_cachedTid t) (t_tidString t) (t_tidStringLength t))
     else Ok t) in
  if zone_valid g_logTimeZone then
    let* us := fmt_make (str "." ++ fmt_0d 6 microseconds ++ str " ") in
    let* _ := assert_ (Z.of_nat (length us) =? 8) in
    let* stream := put_T (t_time t) 17 stream in
    let* stream := put_T us 8 stream in
    Ok (t, stream)
  else
    let* us := fmt_make (str "." ++ fmt_0d 6 microseconds ++ str "Z ") in
    let* _ := assert_ (Z.of_nat (length us) =? 9) in
    let* stream := put_T (t_time t) 17 stream in
    let* stream := put_T us 9 stream in
    Ok (t, stream).

(** [Impl::Impl]; [now] is the time the clock shows. *)
Definition new_Impl (zone : option Data) (now : Z) (level : LogLevel) (savedErrno : Z) (file : bytes)
    (line : Z) (t : Tls) : outcome (Tls * Logger) :=
  let* p := formatTime zone now t (Fixed kSmallBuffer []) in
  let t := tid p.1 in
  let* stream := put_T (t_tidString t) (t_tidStringLength t) p.2 in
  let* stream := put_T (LogLevelName level) 6 stream in
  let* stream :=
    (if negb (savedErrno =? 0) then
       put_items [ICString (Some (strerror savedErrno)); ICString (Some (str " (errno="));
                  IInteger savedErrno; ICString (Some (str ") "))] stream
     else Ok stream) in
  Ok (t, Logger_ now stream level line (SourceFile file)).

Definition finish (l : Logger) : outcome Logger :=
  let* stream := put_items [ICString (Some (str " - ")); IString (basename_ l); IChar (z2b 58);
                            IInteger (line_ l); IChar (z2b 10)] (stream_ l) in
  Ok (Logger_ (time_ l) stream (level_ l) (line_ l) (basename_ l)).

(** The four constructors. *)
Inductive ctor :=
  | Plain
  | Level (l : LogLevel)
  | LevelFunc (l : LogLevel) (func : bytes)
  | ToAbort (toAbort : bool).
Definition ctor_level (c : ctor) : LogLevel :=
  match c with
  | Plain => INFO | Level l => l | LevelFunc l _ => l
  | ToAbort toAbort => if toAbort then FATAL else ERROR
  end.

Definition new_Logger (zone : option Data) (now errno : Z) (file : bytes) (line : Z) (c : ctor) (t : Tls)
    : outcome (Tls * Logger) :=
  let savedErrno := match c with ToAbort _ => errno | _ => 0 end in
  let* p := new_Impl zone now (ctor_level c) savedErrno file line t in
  match c with
  | LevelFunc _ func =>
      let l := p.2 in
      let* stream := put_items [ICString (Some func); IChar (z2b 32)] (stream_ l) in
      Ok (p.1, Logger_ (time_ l) stream (level_ l) (line_ l) (basename_ l))
  | _ => Ok p
  end.

(** What the destructor calls: [g_output], and for a fatal message [g_flush]
    and [abort]. *)
Inductive act := Output (msg : bytes) | Flush | Abort.
Definition delete_Logger (l : Logger) : outcome (list act) :=
  let* l := finish l in
  let out := Output (data_ (stream_ l)) in
  match level_ l with FATAL => Ok [out; Flush; Abort] | _ => Ok [out] end.

(** One statement with the items its [<<] write. *)
Definition log (zone : option Data) (now errno : Z) (file : bytes) (line : Z) (c : ctor) (items : list item)
    (t : Tls) : outcome (Tls * list act) :=
  let* p := new_Logger zone now errno file line c t in
  let l := p.2 in
  let* stream := put_items items (stream_ l) in
  let* acts := delete_Logger (Logger_ (time_ l) stream (level_ l) (line_ l) (basename_ l)) in
  Ok (p.1, acts).

(** The macros. *)
Inductive macro :=
  | LOG_TRACE (func : bytes) | LOG_DEBUG (func : bytes) | LOG_INFO
  | LOG_WARN | LOG_ERROR | LOG_FATAL | LOG_SYSERR | LOG_SYSFATAL.
Definition macro_ctor (m : macro) : ctor :=
  match m with
  | LOG_TRACE func => LevelFunc TRACE func
  | LOG_DEBUG func => LevelFunc DEBUG func
  | LOG_INFO => Plain
  | LOG_WARN => Level WARN
  | LOG_ERROR => Level ERROR
  | LOG_FATAL => Level FATAL
  | LOG_SYSERR => ToAbort false
  | LOG_SYSFATAL => ToAbort true
  end.
Definition macro_enabled (g_logLevel : LogLevel) (m : macro) : bool :=
  match m with
  | LOG_TRACE _ => level_value g_logLevel <=? level_value TRACE
  | LOG_DEBUG _ => level_value g_logLevel <=? level_value DEBUG
  | LOG_INFO => level_value g_logLevel <=? level_value INFO
  | _ => true
  end.
Definition run_macro (g_logLevel : LogLevel) (zone : option Data) (now errno : Z) (file : bytes) (line : Z)
    (m : macro) (items : list item) (t : Tls) : outcome (Tls * list act) :=
  if macro_enabled g_logLevel m then log zone now errno file line (macro_ctor m) items t
  else Ok (t, []).

(** [CHECK_NOTNULL]. *)
Definition CheckNotNull (zone : option Data) (now : Z) (file : bytes) (line : Z) (names : bytes) (is_null : bool)
    (t : Tls) : outcome (Tls * list act) :=
  if is_null then log zone now 0 file line (Level FATAL) [ICString (Some names)] t else Ok (t, []).

End logger.
#[export] Instance LogLevel_eq_dec : EqDecision LogLevel.
Proof. solve_decision. Defined.

Example log_demo :
  (fun r => r.2) <$> (match log (fun _ => Tm 7 6 5 4 2 124 0 0 0 0 []) 42 (fun _ => str "Bad") None 1709528767000123 9
     (str "src/a/b.cc") 17 (ToAbort true) [ICString (Some (str "fd ")); IInteger 3] new_Tls with
   Ok r => Some r | Crash _ => None end) =
  Some [Output (str "20240304 05:06:07.000123Z    42 FATAL Bad (errno=9) fd 3 - b.cc:17" ++ [z2b 10]); Flush; Abort].
Proof. vm_compute. reflexivity. Qed.

(** ** The length of the fields *)








(** A date before the year 10000. *)
Definition tm_ok (t : tm) : Prop :=
  -1900 <= tm_year t < 8100 /\ 0 <= tm_mon t < 12 /\ 1 <= tm_mday t <= 31 /\
  0 <= tm_hour t < 24 /\ 0 <= tm_min t < 60 /\ 0 <= tm_sec t <= 60.


(** ** The text of a line *)

(** What the formats ask of the C library: [gmtime_r] gives the fields their
    documented ranges until the year 9999, a thread's id is positive, and a
    message of [strerror_r] fits its buffer of 512 characters. *)
Class Libc (gmtime : Z -> tm) (gettid : Z) (strerror : Z -> bytes) : Prop := {
  gmtime_fields s : 0 <= s < 253402300800 -> tm_ok (gmtime s);
  gettid_range : 0 < gettid < 2147483648;
  strerror_length e : Z.of_nat (length (strerror e)) < 512
}.

Section line.
Context {gmtime : Z -> tm} {gettid : Z} {strerror : Z -> bytes} `{!Libc gmtime gettid strerror}.
Implicit Types (zone : option Data) (t : Tls).

























End line.

(** [gmtime_r] by [TimeZone::toUtcTime]. *)
Definition demo_gmtime (s : Z) : tm :=
  match toUtcTime s true with
  | Ok t => if decide (tm_ok t) then t else Tm 0 0 0 1 0 70 4 0 0 0 []
  | Crash _ => Tm 0 0 0 1 0 70 4 0 0 0 []
  end.
#[export] Instance demo_libc : Libc demo_gmtime 42 (fun _ => str "Bad").
Proof.
  split; [|done..]. intros s _. unfold demo_gmtime. destruct (toUtcTime s true) as [t|]; [|by unfold tm_ok; cbn].
  destruct (decide (tm_ok t)); [done|by unfold tm_ok; cbn].
Qed.


(** ** Lines that are not what they should be *)

(** A statement in the first second of 1970: the text that a new thread keeps is
    empty, and is taken for the text of second 0. *)
Lemma first_second_fails gmtime gettid strerror now errno file line c items :
  0 <= now < 1000000 -> log gmtime gettid strerror None now errno file line c items new_Tls = Crash AssertFailed.
Proof.
  intros Hn. unfold log, new_Logger, new_Impl, formatTime, fmt_make.
  rewrite Z.quot_small by (unfold kMicroSecondsPerSecond; lia). cbn [negb Z.eqb t_lastSecond new_Tls bind zone_valid].
  destruct (Z.of_nat _ <? 32); cbn [bind assert_]; [|done]. by destruct (Z.of_nat _ =? 9).
Qed.

(** [setTimeZone] between two statements of one second: the second line has the
    UTC time without its Z. *)
Lemma stale_zone :
  let zone := Some (fixed_zone 28800 (str "CST")) in
  let stmt z := log demo_gmtime 42 (fun _ => str "Bad") z 1709528767000456 0 (str "a.cc") 1 Plain [] in
  exists t acts1 acts2 acts3,
    stmt None new_Tls = Ok (t, acts1) /\
    (exists t', stmt zone t = Ok (t', acts2)) /\ (exists t', stmt zone new_Tls = Ok (t', acts3)) /\
    acts2 = [Output (str "20240304 05:06:07.000456    42 INFO   - a.cc:1" ++ [z2b 10])] /\
    acts3 = [Output (str "20240304 13:06:07.000456    42 INFO   - a.cc:1" ++ [z2b 10])].
Proof.
  eexists _, _, _, _. split; [vm_compute; reflexivity|]. split; [eexists; vm_compute; reflexivity|].
  split; [eexists; vm_compute; reflexivity|]. split; vm_compute; reflexivity.
Qed.

(** A message that leaves a few characters: the end of the line is dropped,
    its newline too, and the next line continues it. *)
Lemma long_line_unterminated :
  match log demo_gmtime 42 (fun _ => str "Bad") None 1709528767000456 0 (str "a.cc") 1 Plain
      [IString (replicate 3961 (z2b 120))] new_Tls with
  | Ok (_, [Output msg]) => length msg = 3999%nat /\ last msg = Some (z2b 120)
  | _ => False
  end.
Proof. vm_compute. split; reflexivity. Qed.

(** The base name of a source file is what follows its last slash. *)
Lemma SourceFile_spec filename :
  z2b 47 ∉ SourceFile filename /\
  exists dir, filename = dir ++ SourceFile filename /\ (dir = [] \/ last dir = Some (z2b 47)).
Proof.
  unfold SourceFile. destruct (list_find _ (reverse filename)) as [[i c]|] eqn:E.
  - apply list_find_Some in E as (Hi & -> & Hbefore). pose proof (lookup_lt_Some _ _ _ Hi) as Hlt.
    apply take_drop_middle in Hi. set (l1 := take i _) in Hi. set (l2 := drop (S i) _) in Hi.
    assert (Hl1 : length l1 = i) by (subst l1; rewrite length_take; lia).
    assert (Ef : filename = (reverse l2 ++ [z2b 47]) ++ reverse l1).
    { rewrite <- (reverse_involutive filename), <- Hi. by rewrite reverse_app, reverse_cons. }
    assert (Ed : drop (length filename - i) filename = reverse l1).
    { rewrite Ef at 2. apply drop_app_length'. rewrite Ef, !length_app, !length_reverse, Hl1. lia. }
    rewrite Ed. split; [|exists (reverse l2 ++ [z2b 47]); split; [done|right; apply last_snoc]].
    rewrite elem_of_reverse. intros Hin%list_elem_of_lookup. destruct Hin as [j Hj]. pose proof (lookup_lt_Some _ _ _ Hj).
    apply (Hbefore j (z2b 47)); [|lia|done]. rewrite <- Hi. by rewrite lookup_app_l.
  - apply list_find_None in E. rewrite Forall_reverse_iff, Forall_forall in E. split; [|by exists []; auto].
    intros Hin. by apply (E _ Hin).
Qed.

End Logging.
