(* ===== verification/Thread.v ===== *)
(** * Threads ([muduo/base/Thread.cc], [.h], [Atomic.h])

    A [Thread] starts a thread of the operating system, which reports its id and
    then runs the function.  The two share the [Thread] object through pointers
    in a [ThreadData]; the owner may destroy the object as soon as [start] has
    returned.  The model has any number of objects and threads with all
    interleavings of their steps; an object that was destroyed is gone from the
    store, and a pointer to it that is followed is [DeadObject].  The latch is
    the one of [BlockingQueue.v]. *)

From stdpp Require Import strings pretty.
From S2P Require Import Prelude Effects Monitor BlockingQueue LogStream InetAddress Logging.
#[local] Open Scope Z_scope.
#[local] Open Scope handler_scope.

Module Threads.
Import LogStream CountDownLatch(latch_waits, latch_wait, countDown).

(** ** Atomic integers *)

(** The old value and the new one; the addition of [__sync_fetch_and_add] wraps
    around, the one of [addAndGet] is an [int]'s. *)
Definition getAndAdd (x value_ : Z) : Z * Z := (value_, s32 (value_ + x)).
Definition addAndGet (x value_ : Z) : outcome (Z * Z) :=
  bind (chk32 ((getAndAdd x value_).1 + x)) (fun r => Ok (r, (getAndAdd x value_).2)).
Definition incrementAndGet : Z -> outcome (Z * Z) := addAndGet 1.

(** ** Objects *)

(** A function is given by a number, a thread of the system by its place in the
    list of those ever created. *)
Record Thread := Thread_ {
  started_ : bool;
  joined_ : bool;
  pthreadId_ : option nat;
  tid_ : Z;
  func_ : nat;
  name_ : bytes;
  latch_ : Z
}.

(** The pointers of a [ThreadData] are to members of the object with this
    number. *)
Record ThreadData := ThreadData_ {
  d_func : nat;
  d_name : bytes;
  d_tid : option nat;
  d_latch : option nat
}.

(** Where a thread is in [runInThread]. *)
Inductive pc := Born | TidWritten | CountedDown | InFunc | Exited.

Record OsThread := OsThread_ {
  o_pc : pc;
  o_tid : Z;
  o_data : option ThreadData;
  t_threadName : bytes;
  o_detached : bool
}.

(** A method of the object that blocks. *)
Inductive call := InStart | InJoin.

Record Slot := Slot_ { object : Thread; active : option call }.
Record World := World_ {
  numCreated_ : Z;
  slots : list (option Slot);
  os : list OsThread
}.

Inductive act :=
  | Creates (k f : nat) (name : bytes)   (* pthread_create with this ThreadData *)
  | Runs (k f : nat) (name : bytes)      (* func_() is called *)
  | Returned (k : nat)
  | Started (i : nat) (tid : Z)          (* start() returns *)
  | Joined (i : nat).                    (* join() returns *)

Abbreviation H A := (M World act A).

Definition slot (i : nat) : H Slot := fun w =>
  match slots w !! i with Some (Some s) => Ok (s, w, []) | _ => Crash DeadObject end.
Definition set_slot (i : nat) (s : option Slot) : H unit :=
  mmod (fun w => World_ (numCreated_ w) (<[i := s]> (slots w)) (os w)).
Definition os_thread (k : nat) : H OsThread := fun w =>
  match os w !! k with Some o => Ok (o, w, []) | None => Crash OutOfBounds end.
Definition set_os (k : nat) (o : OsThread) : H unit :=
  mmod (fun w => World_ (numCreated_ w) (slots w) (<[k := o]> (os w))).
Definition deref {A} (p : option A) : H A := fun w =>
  match p with Some a => Ok (a, w, []) | None => Crash NullDeref end.

(** ** The owner *)

Definition default_name (num : Z) : bytes := snprintf 32 (str ("Thread" +:+ pretty num)).

Definition setDefaultName (name : bytes) : H bytes :=
  do p <- (fun w => lift (incrementAndGet (numCreated_ w)) w);
  do _ <- mmod (fun w => World_ p.2 (slots w) (os w));
  mret (match name with [] => default_name p.1 | _ => name end).

Definition new_Thread (f : nat) (n : bytes) : H unit :=
  do name <- setDefaultName n;
  mmod (fun w => World_ (numCreated_ w)
    (slots w ++ [Some (Slot_ (Thread_ false false None 0 f name 1) None)]) (os w)).

(** Up to [latch_.wait()].  [created]: [pthread_create] has succeeded. *)
Definition start (i : nat) (created : bool) : H unit :=
  do s <- slot i;
  let t := object s in
  do _ <- massert (negb (started_ t));
  if created then
    do k <- mget (fun w => length (os w));
    do _ <- mmod (fun w => World_ (numCreated_ w) (slots w)
      (os w ++ [OsThread_ Born 0 (Some (ThreadData_ (func_ t) (name_ t) (Some i) (Some i))) (str "unknown") false]));
    do _ <- set_slot i (Some (Slot_ (Thread_ true (joined_ t) (Some k) (tid_ t) (func_ t) (name_ t) (latch_ t)) (Some InStart)));
    emit (Creates k (func_ t) (name_ t))
  else mcrash Aborted.

(** [latch_.wait()] returns. *)
Definition start_returns (i : nat) : H unit :=
  do s <- slot i;
  let t := object s in
  do r <- lift (latch_wait (latch_ t));
  do _ <- massert (0 <? tid_ t);
  do _ <- set_slot i (Some (Slot_ t None));
  emit (Started i (tid_ t)).

(** Up to [pthread_join], and its return. *)
Definition join (i : nat) : H unit :=
  do s <- slot i;
  let t := object s in
  do _ <- massert (started_ t);
  do _ <- massert (negb (joined_ t));
  set_slot i (Some (Slot_ (Thread_ true true (pthreadId_ t) (tid_ t) (func_ t) (name_ t) (latch_ t)) (Some InJoin))).
Definition join_returns (i : nat) : H unit :=
  do s <- slot i;
  do _ <- set_slot i (Some (Slot_ (object s) None));
  emit (Joined i).

Definition delete_Thread (i : nat) : H unit :=
  do s <- slot i;
  let t := object s in
  do _ <- (if started_ t && negb (joined_ t) then
             do k <- deref (pthreadId_ t);
             do o <- os_thread k;
             set_os k (OsThread_ (o_pc o) (o_tid o) (o_data o) (t_threadName o) true)
           else mret tt);
  set_slot i None.

(** ** The thread *)

(** [*tid_ = CurrentThread::tid(); tid_ = NULL;] *)
Definition write_tid (k : nat) (tid : Z) : H unit :=
  do o <- os_thread k;
  do d <- deref (o_data o);
  do i <- deref (d_tid d);
  do s <- slot i;
  let t := object s in
  do _ <- set_slot i (Some (Slot_
    (Thread_ (started_ t) (joined_ t) (pthreadId_ t) tid (func_ t) (name_ t) (latch_ t)) (active s)));
  set_os k (OsThread_ TidWritten tid (Some (ThreadData_ (d_func d) (d_name d) None (d_latch d))) (t_threadName o)
    (o_detached o)).

(** [latch_->countDown();] *)
Definition count_down (k : nat) : H unit :=
  do o <- os_thread k;
  do d <- deref (o_data o);
  do i <- deref (d_latch d);
  do s <- slot i;
  let t := object s in
  do r <- lift (countDown (latch_ t));
  do _ <- set_slot i (Some (Slot_
    (Thread_ (started_ t) (joined_ t) (pthreadId_ t) (tid_ t) (func_ t) (name_ t) r.1.1) (active s)));
  set_os k (OsThread_ CountedDown (o_tid o) (Some d) (t_threadName o) (o_detached o)).

Definition thread_name (name : bytes) : bytes := match name with [] => str "muduoThread" | _ => name end.

(** [latch_ = NULL;], the name of the thread, and the call of the function. *)
Definition enter_func (k : nat) : H unit :=
  do o <- os_thread k;
  do d <- deref (o_data o);
  let name := thread_name (d_name d) in
  do _ <- set_os k (OsThread_ InFunc (o_tid o) (Some (ThreadData_ (d_func d) (d_name d) (d_tid d) None)) name
    (o_detached o));
  emit (Runs k (d_func d) name).

(** The function returns, and [startThread] deletes its data; or it throws a
    [muduo::Exception], another [std::exception], or something else, which is
    thrown again and terminates the process. *)
Inductive ending := Returns | ThrowsException | ThrowsStd | ThrowsOther.
Definition leave_func (k : nat) (e : ending) : H unit :=
  do o <- os_thread k;
  match e with
  | Returns =>
      do _ <- deref (o_data o);
      do _ <- set_os k (OsThread_ Exited (o_tid o) None (str "finished") (o_detached o));
      emit (Returned k)
  | _ => mcrash Aborted
  end.

(** ** Steps *)

Inductive event :=
  | EvNew (f : nat) (name : bytes)
  | EvStart (i : nat) (created : bool)
  | EvStartReturns (i : nat)
  | EvJoin (i : nat)
  | EvJoinReturns (i : nat)
  | EvDelete (i : nat)
  | EvTid (k : nat) (tid : Z)
  | EvCountDown (k : nat)
  | EvEnter (k : nat)
  | EvLeave (k : nat) (e : ending).

Definition step (e : event) : H unit :=
  match e with
  | EvNew f name => new_Thread f name
  | EvStart i created => start i created
  | EvStartReturns i => start_returns i
  | EvJoin i => join i
  | EvJoinReturns i => join_returns i
  | EvDelete i => delete_Thread i
  | EvTid k tid => write_tid k tid
  | EvCountDown k => count_down k
  | EvEnter k => enter_func k
  | EvLeave k e => leave_func k e
  end.

#[export] Instance call_eq_dec : EqDecision call.
Proof. solve_decision. Defined.
#[export] Instance pc_eq_dec : EqDecision pc.
Proof. solve_decision. Defined.

Definition pc_of (w : World) (k : nat) : option pc := o_pc <$> os w !! k.

(** What can happen: a blocked method returns when what it waits for has
    happened, a thread does its next step.  The owner starts an object once,
    joins it at most once and after that, and destroys it when no method of it
    is running; threads can be created, and functions do not throw. *)
Definition idle (w : World) (i : nat) (p : Thread -> bool) : bool :=
  match slots w !! i with
  | Some (Some s) => bool_decide (active s = None) && p (object s)
  | _ => false
  end.
Definition allowed (w : World) (e : event) : bool :=
  match e with
  | EvNew _ _ => numCreated_ w <? 2147483647
  | EvStart i created => created && idle w i (fun t => negb (started_ t))
  | EvStartReturns i =>
      match slots w !! i with
      | Some (Some s) => bool_decide (active s = Some InStart) && bool_decide (latch_waits (latch_ (object s)) = None)
      | _ => false
      end
  | EvJoin i => idle w i (fun t => started_ t && negb (joined_ t))
  | EvJoinReturns i =>
      match slots w !! i with
      | Some (Some s) =>
          bool_decide (active s = Some InJoin) &&
          bool_decide ((k ← pthreadId_ (object s); pc_of w k) = Some Exited)
      | _ => false
      end
  | EvDelete i => idle w i (fun _ => true)
  | EvTid k tid => bool_decide (pc_of w k = Some Born) && (0 <? tid)
  | EvCountDown k => bool_decide (pc_of w k = Some TidWritten)
  | EvEnter k => bool_decide (pc_of w k = Some CountedDown)
  | EvLeave k e => bool_decide (pc_of w k = Some InFunc) && match e with Returns => true | _ => false end
  end.

Definition new_World : World := World_ 0 [] [].

Inductive reachable : World -> list act -> Prop :=
  | reachable_new : reachable new_World []
  | reachable_step w es e w' es' : reachable w es -> allowed w e = true ->
      step e w = Ok (tt, w', es') -> reachable w' (es ++ es').

(** ** The invariant *)

(** An object and its thread: the latch opens when the id is there. *)
Definition with_thread (s : Slot) (o : OsThread) : Prop :=
  let t := object s in
  match o_pc o with
  | Born => tid_ t = 0 /\ latch_ t = 1 /\ active s = Some InStart
  | TidWritten => tid_ t = o_tid o /\ latch_ t = 1 /\ active s = Some InStart
  | _ => tid_ t = o_tid o /\ latch_ t = 0
  end.
Definition slot_ok (w : World) (s : Slot) : Prop :=
  let t := object s in
  match pthreadId_ t with
  | None => started_ t = false /\ joined_ t = false /\ tid_ t = 0 /\ latch_ t = 1 /\ active s = None
  | Some k =>
      started_ t = true /\ (active s = Some InStart -> joined_ t = false) /\
      exists o, os w !! k = Some o /\ with_thread s o
  end.
Definition owned (w : World) (i k : nat) : Prop :=
  exists s, slots w !! i = Some (Some s) /\ pthreadId_ (object s) = Some k.
(** A pointer that a thread still has is to an object that exists and has
    started it. *)
Definition os_ok (w : World) (k : nat) (o : OsThread) : Prop :=
  match o_pc o with
  | Born => exists d i, o_data o = Some d /\ d_tid d = Some i /\ d_latch d = Some i /\ owned w i k
  | TidWritten => 0 < o_tid o /\ exists d i, o_data o = Some d /\ d_tid d = None /\ d_latch d = Some i /\ owned w i k
  | CountedDown | InFunc => 0 < o_tid o /\ exists d, o_data o = Some d
  | Exited => 0 < o_tid o
  end.
Record inv (w : World) : Prop := {
  i_slots i s : slots w !! i = Some (Some s) -> slot_ok w s;
  i_os k o : os w !! k = Some o -> os_ok w k o;
  i_one i j k : owned w i k -> owned w j k -> i = j;
  i_created i k : owned w i k -> (k < length (os w))%nat;
  i_count : 0 <= numCreated_ w
}.

Lemma owned_set w n l i s j k :
  slots w !! i = Some (Some s) ->
  owned (World_ n (<[i := l]> (slots w)) (os w)) j k <->
  if decide (j = i) then exists s', l = Some s' /\ pthreadId_ (object s') = Some k else owned w j k.
Proof.
  intros Hi. unfold owned. cbn. destruct (decide (j = i)) as [->|Hne].
  - rewrite list_lookup_insert_eq by (by eapply lookup_lt_Some). split; [intros (s' & [= ->] & H); eauto|].
    intros (s' & -> & H). eauto.
  - by rewrite list_lookup_insert_ne by done.
Qed.

(** A pointer keeps being good when the object keeps its thread. *)
Lemma os_ok_mono w w' k o : (forall i, owned w i k -> owned w' i k) -> os_ok w k o -> os_ok w' k o.
Proof. intros Ho. unfold os_ok. destruct (o_pc o); naive_solver. Qed.

(** A step that changes an object and its thread. *)
Lemma inv_both w i s k o s' o' :
  inv w -> slots w !! i = Some (Some s) -> os w !! k = Some o ->
  pthreadId_ (object s) = Some k -> pthreadId_ (object s') = Some k -> started_ (object s') = true ->
  (active s' = Some InStart -> joined_ (object s') = false) -> with_thread s' o' ->
  (forall w', (forall i k, owned w i k -> owned w' i k) -> os_ok w' k o') ->
  inv (World_ (numCreated_ w) (<[i := Some s']> (slots w)) (<[k := o']> (os w))).
Proof.
  intros [Hsl Hos Hone Hcr Hnum] Hi Hk Hp Hp' Hst Hj Hw Hok.
  set (w' := World_ _ _ _). assert (Hown : forall j k', owned w' j k' <-> owned w j k').
  { intros j k'. pose proof (owned_set w (numCreated_ w) (Some s') i s j k' Hi) as E. unfold owned in *. cbn in *.
    rewrite E. destruct (decide (j = i)) as [->|]; [|done]. rewrite Hi. naive_solver. }
  split.
  - intros j t Ht. unfold slot_ok. destruct (decide (j = i)) as [->|Hne].
    + cbn in Ht. rewrite list_lookup_insert_eq in Ht by (by eapply lookup_lt_Some). injection Ht as <-. rewrite Hp'.
      split_and!; [done..|]. exists o'. split; [|done]. cbn. apply list_lookup_insert_eq. by eapply lookup_lt_Some.
    + cbn in Ht. rewrite list_lookup_insert_ne in Ht by done. pose proof (Hsl j t Ht) as Ht'. unfold slot_ok in Ht'.
      destruct (pthreadId_ (object t)) as [k'|] eqn:Hk'; [|done]. cbn.
      rewrite list_lookup_insert_ne; [done|]. intros ->. apply Hne. apply (Hone j i k'); [by exists t|by exists s].
  - intros k' o2 Hk'. cbn in Hk'. destruct (decide (k' = k)) as [->|Hne].
    + rewrite list_lookup_insert_eq in Hk' by (by eapply lookup_lt_Some). injection Hk' as <-.
      apply Hok. intros. by apply Hown.
    + rewrite list_lookup_insert_ne in Hk' by done. apply (os_ok_mono w); [intros; by apply Hown|by apply Hos].
  - intros j1 j2 k'. rewrite !Hown. apply Hone.
  - intros j k' Ho%Hown. cbn. rewrite length_insert. by eapply Hcr.
  - exact Hnum.
Qed.

(** A step of a thread alone. *)
Lemma inv_os w k o o' :
  inv w -> os w !! k = Some o -> (forall s, with_thread s o -> with_thread s o') ->
  (forall w', (forall i k, owned w i k -> owned w' i k) -> os_ok w' k o') ->
  inv (World_ (numCreated_ w) (slots w) (<[k := o']> (os w))).
Proof.
  intros [Hsl Hos Hone Hcr Hnum] Hk Hw Hok. split.
  - intros j t Ht. pose proof (Hsl j t Ht) as Ht'. unfold slot_ok in *.
    destruct (pthreadId_ (object t)) as [k'|]; [|done]. destruct Ht' as (H1 & H2 & o2 & Ho2 & H3).
    split_and!; [done..|]. cbn. destruct (decide (k' = k)) as [->|Hne].
    + rewrite Hk in Ho2. injection Ho2 as <-. exists o'. split; [|by apply Hw].
      apply list_lookup_insert_eq. by eapply lookup_lt_Some.
    + rewrite list_lookup_insert_ne by done. by exists o2.
  - intros k' o2 Hk'. cbn in Hk'. destruct (decide (k' = k)) as [->|Hne].
    + rewrite list_lookup_insert_eq in Hk' by (by eapply lookup_lt_Some). injection Hk' as <-. apply Hok. done.
    + rewrite list_lookup_insert_ne in Hk' by done. by apply Hos.
  - exact Hone.
  - intros j k' Ho. cbn. rewrite length_insert. by eapply Hcr.
  - exact Hnum.
Qed.

(** An object whose thread has counted down, or that has none, may go. *)
Lemma thread_inv_delete w i s :
  inv w -> slots w !! i = Some (Some s) -> active s = None ->
  inv (World_ (numCreated_ w) (<[i := None]> (slots w)) (os w)).
Proof.
  intros [Hsl Hos Hone Hcr Hnum] Hi Ha. pose proof (Hsl i s Hi) as Hs.
  set (w' := World_ _ _ _). assert (Hown : forall j k', owned w' j k' <-> j <> i /\ owned w j k').
  { intros j k'. unfold w'. rewrite (owned_set w _ None i s) by done.
    destruct (decide (j = i)); [|naive_solver]. split; [by intros (? & ? & _)|naive_solver]. }
  split.
  - intros j t Ht. cbn in Ht. destruct (decide (j = i)) as [->|Hne].
    { by rewrite list_lookup_insert_eq in Ht by (by eapply lookup_lt_Some). }
    rewrite list_lookup_insert_ne in Ht by done. exact (Hsl j t Ht).
  - intros k o Hk. specialize (Hos k o Hk). unfold os_ok in *.
    assert (Hgone : owned w i k -> o_pc o <> Born /\ o_pc o <> TidWritten).
    { intros (s' & Hs' & Hp). rewrite Hi in Hs'. injection Hs' as <-. unfold slot_ok in Hs. rewrite Hp in Hs.
      destruct Hs as (_ & _ & o2 & Ho2 & Hw). cbn in Hk. rewrite Hk in Ho2. injection Ho2 as <-.
      unfold with_thread in Hw. rewrite Ha in Hw. destruct (o_pc o); naive_solver. }
    assert (Hkeep : forall j, owned w j k -> o_pc o = Born \/ o_pc o = TidWritten -> owned w' j k).
    { intros j Hj Ho. apply Hown. split; [|done]. intros ->. naive_solver. }
    destruct (o_pc o); naive_solver.
  - intros j1 j2 k [_ H1]%Hown [_ H2]%Hown. by eapply Hone.
  - intros j k [_ H]%Hown. by eapply Hcr.
  - exact Hnum.
Qed.

Lemma thread_inv_new w f name n :
  inv w -> 0 <= n -> inv (World_ n (slots w ++ [Some (Slot_ (Thread_ false false None 0 f name 1) None)]) (os w)).
Proof.
  intros [Hsl Hos Hone Hcr Hnum] Hn. set (w' := World_ _ _ _).
  assert (Hlook : forall j s, slots w' !! j = Some (Some s) ->
            slots w !! j = Some (Some s) \/ s = Slot_ (Thread_ false false None 0 f name 1) None).
  { intros j s [H|[_ H]]%lookup_app_Some; [by left|right]. apply list_lookup_singleton_Some in H as [_ H]. by injection H. }
  assert (Hown : forall j k, owned w' j k <-> owned w j k).
  { intros j k. split; intros (s & Hs & Hp); exists s; (split; [|done]).
    - apply Hlook in Hs as [?| ->]; done.
    - cbn. by apply lookup_app_l_Some. }
  split.
  - intros j s [Hs| ->]%Hlook; [by apply (Hsl j)|]. by unfold slot_ok.
  - intros k o Hk. apply (os_ok_mono w); [intros; by apply Hown|by apply Hos].
  - intros j1 j2 k. rewrite !Hown. apply Hone.
  - intros j k Ho%Hown. by eapply Hcr.
  - exact Hn.
Qed.

Lemma thread_inv_start w i s d name :
  inv w -> slots w !! i = Some (Some s) -> started_ (object s) = false ->
  d_tid d = Some i -> d_latch d = Some i ->
  let t := object s in
  inv (World_ (numCreated_ w)
    (<[i := Some (Slot_ (Thread_ true (joined_ t) (Some (length (os w))) (tid_ t) (func_ t) (name_ t) (latch_ t)) (Some InStart))]>
       (slots w)) (os w ++ [OsThread_ Born 0 (Some d) name false])).
Proof.
  intros [Hsl Hos Hone Hcr Hnum] Hi Hst Hd1 Hd2 t. pose proof (Hsl i s Hi) as Hs. unfold slot_ok in Hs. fold t in Hs, Hst.
  destruct (pthreadId_ t) as [k|] eqn:Hp; [by destruct Hs as [? _]; congruence|].
  destruct Hs as (_ & Hj & Ht & Hl & _). set (s' := Slot_ _ (Some InStart)). set (w' := World_ _ _ _).
  assert (Hown : forall j k, owned w' j k <-> if decide (j = i) then k = length (os w) else owned w j k).
  { intros j k. pose proof (owned_set w (numCreated_ w) (Some s') i s j k Hi) as E. unfold owned in *. cbn in *. rewrite E.
    destruct (decide (j = i)); [|done]. split; [by intros (? & [= <-] & [= <-])|intros ->; by exists s']. }
  assert (Hold : forall j k, owned w j k -> owned w' j k).
  { intros j k Ho. apply Hown. destruct (decide (j = i)) as [->|]; [|done]. destruct Ho as (s2 & Hs2 & Hp2).
    rewrite Hi in Hs2. injection Hs2 as <-. unfold t in Hp. congruence. }
  split.
  - intros j s2 Hs2. cbn in Hs2. destruct (decide (j = i)) as [->|Hne].
    + rewrite list_lookup_insert_eq in Hs2 by (by eapply lookup_lt_Some). injection Hs2 as <-. cbn.
      split_and!; [done..|]. eexists. split; [by apply list_lookup_middle|]. done.
    + rewrite list_lookup_insert_ne in Hs2 by done. pose proof (Hsl j s2 Hs2) as H. unfold slot_ok in *.
      destruct (pthreadId_ (object s2)); [|done]. destruct H as (? & ? & o & Ho & ?). split_and!; [done..|].
      exists o. split; [by apply lookup_app_l_Some|done].
  - intros k o [Hk|[Hk Ho]]%lookup_app_Some; [apply (os_ok_mono w); [intros; by apply Hold|by apply Hos]|].
    apply list_lookup_singleton_Some in Ho as [Hk' <-]. cbn. exists d, i. split_and!; [done..|]. apply Hown.
    rewrite decide_True by done. lia.
  - intros j1 j2 k H1%Hown H2%Hown. destruct (decide (j1 = i)) as [->|], (decide (j2 = i)) as [->|]; [done| | |by eapply Hone].
    + subst k. apply Hcr in H2. lia.
    + subst k. apply Hcr in H1. lia.
  - intros j k Ho%Hown. cbn. rewrite length_app. cbn. destruct (decide (j = i)); [lia|]. apply Hcr in Ho. lia.
  - exact Hnum.
Qed.

(** ** What is created and run *)

Definition created (acts : list act) : list (nat * bytes) :=
  omap (fun a => match a with Creates _ f name => Some (f, name) | _ => None end) acts.
Definition ran (k : nat) (acts : list act) : list (nat * bytes) :=
  omap (fun a => match a with Runs k' f name => if decide (k' = k) then Some (f, name) else None | _ => None end) acts.
Definition ended (k : nat) (acts : list act) : nat :=
  length (omap (fun a => match a with Returned k' => if decide (k' = k) then Some tt else None | _ => None end) acts).

Record tally (w : World) (acts : list act) : Prop := {
  t_count : length (created acts) = length (os w);
  t_data k o d : os w !! k = Some o -> o_data o = Some d -> created acts !! k = Some (d_func d, d_name d);
  t_ran k o : os w !! k = Some o ->
    match o_pc o with
    | InFunc | Exited => exists p, created acts !! k = Some p /\ ran k acts = [(p.1, thread_name p.2)]
    | _ => ran k acts = []
    end;
  t_ended k o : os w !! k = Some o -> ended k acts = match o_pc o with Exited => 1%nat | _ => 0%nat end;
  t_none k : os w !! k = None -> ran k acts = [] /\ ended k acts = O
}.

Lemma created_app es es' : created (es ++ es') = created es ++ created es'.
Proof. apply omap_app. Qed.
Lemma ran_app k es es' : ran k (es ++ es') = ran k es ++ ran k es'.
Proof. apply omap_app. Qed.
Lemma ended_app k es es' : ended k (es ++ es') = (ended k es + ended k es')%nat.
Proof. unfold ended. by rewrite omap_app, length_app. Qed.

(** A step of a thread that keeps its data, and one of an owner. *)
Lemma tally_os n l w acts k o o' :
  tally w acts -> os w !! k = Some o ->
  (forall d, o_data o' = Some d -> exists d0, o_data o = Some d0 /\ d_func d0 = d_func d /\ d_name d0 = d_name d) ->
  match o_pc o' with InFunc | Exited => o_pc o' = o_pc o | _ => o_pc o <> InFunc /\ o_pc o <> Exited end ->
  tally (World_ n l (<[k := o']> (os w))) acts.
Proof.
  intros [Hc Hd Hr He Hn] Hk Hdata Hpc. split; cbn.
  - by rewrite length_insert.
  - intros k' o2 d Hk' Hd2. destruct (decide (k' = k)) as [->|Hne].
    + rewrite list_lookup_insert_eq in Hk' by (by eapply lookup_lt_Some). injection Hk' as <-.
      destruct (Hdata d Hd2) as (d0 & H0 & <- & <-). by eapply Hd.
    + rewrite list_lookup_insert_ne in Hk' by done. by eapply Hd.
  - intros k' o2 Hk'. destruct (decide (k' = k)) as [->|Hne].
    + rewrite list_lookup_insert_eq in Hk' by (by eapply lookup_lt_Some). injection Hk' as <-.
      specialize (Hr k o Hk). destruct (o_pc o'), (o_pc o); naive_solver.
    + rewrite list_lookup_insert_ne in Hk' by done. by apply Hr.
  - intros k' o2 Hk'. destruct (decide (k' = k)) as [->|Hne].
    + rewrite list_lookup_insert_eq in Hk' by (by eapply lookup_lt_Some). injection Hk' as <-.
      rewrite (He k o Hk). destruct (o_pc o'), (o_pc o); naive_solver.
    + rewrite list_lookup_insert_ne in Hk' by done. by apply He.
  - intros k' Hk'. destruct (decide (k' = k)) as [->|Hne].
    + rewrite list_lookup_insert_eq in Hk' by (by eapply lookup_lt_Some). done.
    + rewrite list_lookup_insert_ne in Hk' by done. by apply Hn.
Qed.

Lemma tally_same w w' acts : os w' = os w -> tally w acts -> tally w' acts.
Proof. intros E [Hc Hd Hr He Hn]. split; rewrite E; done. Qed.

(** The act of an owner. *)
Lemma tally_emit w acts a :
  (forall k f n, a <> Creates k f n) -> (forall k f n, a <> Runs k f n) -> (forall k, a <> Returned k) ->
  tally w acts -> tally w (acts ++ [a]).
Proof.
  intros H1 H2 H3 [Hc Hd Hr He Hn].
  assert (E1 : created (acts ++ [a]) = created acts) by (rewrite created_app; destruct a; cbn; [naive_solver|..]; by rewrite app_nil_r).
  assert (E2 : forall k, ran k (acts ++ [a]) = ran k acts).
  { intros k. rewrite ran_app. destruct a; cbn; [..|naive_solver| | |]; try (by rewrite app_nil_r). }
  assert (E3 : forall k, ended k (acts ++ [a]) = ended k acts).
  { intros k. rewrite ended_app. destruct a; cbn; try lia. naive_solver. }
  split; [by rewrite E1|by setoid_rewrite E1| |by setoid_rewrite E3|].
  - intros k o Hk. rewrite E1, E2. by apply Hr.
  - intros k Hk. rewrite E2, E3. by apply Hn.
Qed.

Definition good (w : World) (acts : list act) (e : event) : Prop :=
  exists w' es, step e w = Ok (tt, w', es) /\ inv w' /\ tally w' (acts ++ es).

(** The object of an event of an owner. *)
Lemma idle_slot w i p : idle w i p = true ->
  exists s, slots w !! i = Some (Some s) /\ active s = None /\ p (object s) = true.
Proof.
  unfold idle. destruct (slots w !! i) as [[s|]|]; try done.
  intros [H Hp]%andb_true_iff. apply bool_decide_eq_true in H. by exists s.
Qed.
Lemma slot_at w i s : slots w !! i = Some (Some s) -> slot i w = Ok (s, w, []).
Proof. unfold slot. by intros ->. Qed.
Lemma os_at w k o : os w !! k = Some o -> os_thread k w = Ok (o, w, []).
Proof. unfold os_thread. by intros ->. Qed.

Lemma started_slot w i s : inv w -> slots w !! i = Some (Some s) -> started_ (object s) = true ->
  exists k o, pthreadId_ (object s) = Some k /\ os w !! k = Some o /\ with_thread s o /\
    (active s = Some InStart -> joined_ (object s) = false) /\ os_ok w k o.
Proof.
  intros Hi Hs Hst. pose proof (i_slots _ Hi i s Hs) as H. unfold slot_ok in H.
  destruct (pthreadId_ (object s)) as [k|]; [|by destruct H as [? _]; congruence].
  destruct H as (_ & Hj & o & Ho & Hw). exists k, o. split_and!; try done. by apply (i_os _ Hi).
Qed.

Lemma new_good w acts f name :
  inv w -> tally w acts -> numCreated_ w < 2147483647 -> good w acts (EvNew f name).
Proof.
  intros Hi Ht Hn. pose proof (i_count _ Hi) as Hn0. eexists _, _. split.
  - cbn. unfold new_Thread, setDefaultName, mthen, lift, incrementAndGet, addAndGet. cbn [getAndAdd fst snd].
    rewrite chk32_ok by lia. cbn. reflexivity.
  - split; [apply thread_inv_new; [done|]; unfold s32; Z.div_mod_to_equations; lia|]. rewrite app_nil_r. by apply (tally_same w).
Qed.

Lemma thread_start_good w acts i :
  inv w -> tally w acts -> idle w i (fun t => negb (started_ t)) = true -> good w acts (EvStart i true).
Proof.
  intros Hi Ht (s & Hs & Ha & Hst%negb_true_iff)%idle_slot. set (d := ThreadData_ (func_ (object s)) (name_ (object s)) (Some i) (Some i)).
  eexists _, _. split; [|split].
  - cbn [step]. unfold start, mthen. rewrite (slot_at _ _ _ Hs). cbn. rewrite Hst. cbn. reflexivity.
  - by apply (thread_inv_start w i s d).
  - destruct Ht as [Hc Hd Hr He Hn].
    assert (Ec : created (acts ++ [Creates (length (os w)) (func_ (object s)) (name_ (object s))]) =
                 created acts ++ [(func_ (object s), name_ (object s))]) by apply created_app.
    assert (Er : forall k, ran k (acts ++ [Creates (length (os w)) (func_ (object s)) (name_ (object s))]) = ran k acts)
      by (intros k; rewrite ran_app; apply app_nil_r).
    assert (Ee : forall k, ended k (acts ++ [Creates (length (os w)) (func_ (object s)) (name_ (object s))]) = ended k acts)
      by (intros k; rewrite ended_app; cbn; lia).
    cbn [app]. rewrite ?app_nil_r. split; cbn [os].
    + rewrite Ec, !length_app, Hc. done.
    + intros k o d0 [Hk|[Hk Ho]]%lookup_app_Some H0; rewrite Ec; [by eapply lookup_app_l_Some, Hd|].
      apply list_lookup_singleton_Some in Ho as [Hk0 <-]. cbn in H0. injection H0 as <-. cbn.
      apply list_lookup_middle. lia.
    + intros k o [Hk|[Hk Ho]]%lookup_app_Some; rewrite Er, Ec.
      * specialize (Hr k o Hk). destruct (o_pc o); try done; destruct Hr as (p & Hp & Hrr); exists p; (split; [|done]);
          by apply lookup_app_l_Some.
      * apply list_lookup_singleton_Some in Ho as [Hk0 <-]. cbn. apply Hn. by apply lookup_ge_None.
    + intros k o [Hk|[Hk Ho]]%lookup_app_Some; rewrite Ee; [by apply He|].
      apply list_lookup_singleton_Some in Ho as [Hk0 <-]. cbn. apply Hn. by apply lookup_ge_None.
    + intros k Hk. rewrite Er, Ee. apply Hn. apply lookup_ge_None in Hk. apply lookup_ge_None.
      rewrite length_app in Hk. lia.
Qed.

Lemma start_returns_good w acts i s :
  inv w -> tally w acts -> slots w !! i = Some (Some s) -> active s = Some InStart ->
  latch_waits (latch_ (object s)) = None -> good w acts (EvStartReturns i).
Proof.
  intros Hi Ht Hs Ha Hl. assert (Hst : started_ (object s) = true).
  { pose proof (i_slots _ Hi i s Hs) as H. unfold slot_ok in H. destruct (pthreadId_ _); [by destruct H|].
    rewrite Ha in H. by destruct H as (_ & _ & _ & _ & ?). }
  destruct (started_slot w i s Hi Hs Hst) as (k & o & Hp & Ho & Hw & Hj & Hok).
  assert (Hopen : tid_ (object s) = o_tid o /\ latch_ (object s) = 0 /\ 0 < o_tid o).
  { unfold latch_waits in Hl. destruct (0 <? _) eqn:Hlt; [done|]. reflect_bools. unfold with_thread in Hw. unfold os_ok in Hok.
    destruct (o_pc o); destruct Hw as [H1 H2]; [destruct H2; lia|destruct H2; lia|..]; split_and!; try done; by destruct Hok. }
  destruct Hopen as (Ht1 & Ht2 & Ht3). eexists _, _. split; [|split].
  - cbn [step]. unfold start_returns, mthen. rewrite (slot_at _ _ _ Hs). cbn. unfold massert, lift, assert_.
    rewrite (proj2 (Z.ltb_lt _ _)) by lia. cbn. reflexivity.
  - rewrite <- (list_insert_id (os w) k o Ho). apply (inv_both w i s k o); try done.
    + unfold with_thread in *. cbn. by destruct (o_pc o); [destruct Hw as (_ & ? & _); lia..| | |].
    + intros w1 Hm. apply (os_ok_mono w); auto.
  - cbn [app]. apply tally_emit; [done..|]. by apply (tally_same w).
Qed.

Lemma join_good w acts i :
  inv w -> tally w acts -> idle w i (fun t => started_ t && negb (joined_ t)) = true -> good w acts (EvJoin i).
Proof.
  intros Hi Ht (s & Hs & Ha & Hst)%idle_slot. apply andb_true_iff in Hst as [Hst Hnj%negb_true_iff].
  destruct (started_slot w i s Hi Hs Hst) as (k & o & Hp & Ho & Hw & Hj & Hok). eexists _, _. split; [|split].
  - cbn [step]. unfold join, mthen. rewrite (slot_at _ _ _ Hs). cbn. rewrite Hst, Hnj. cbn. reflexivity.
  - rewrite <- (list_insert_id (os w) k o Ho). apply (inv_both w i s k o); try done.
    + unfold with_thread in *. cbn. rewrite Ha in Hw. by destruct (o_pc o); [by destruct Hw as (_ & _ & ?)..| | |].
    + intros w1 Hm. apply (os_ok_mono w); auto.
  - rewrite app_nil_r. by apply (tally_same w).
Qed.

Lemma join_returns_good w acts i s :
  inv w -> tally w acts -> slots w !! i = Some (Some s) -> active s = Some InJoin -> good w acts (EvJoinReturns i).
Proof.
  intros Hi Ht Hs Ha. assert (Hst : started_ (object s) = true).
  { pose proof (i_slots _ Hi i s Hs) as H. unfold slot_ok in H. destruct (pthreadId_ _); [by destruct H|].
    rewrite Ha in H. by destruct H as (_ & _ & _ & _ & ?). }
  destruct (started_slot w i s Hi Hs Hst) as (k & o & Hp & Ho & Hw & Hj & Hok). eexists _, _. split; [|split].
  - cbn [step]. unfold join_returns, mthen. rewrite (slot_at _ _ _ Hs). cbn. reflexivity.
  - rewrite <- (list_insert_id (os w) k o Ho). apply (inv_both w i s k o); try done.
    + unfold with_thread in *. cbn. rewrite Ha in Hw. by destruct (o_pc o); [by destruct Hw as (_ & _ & ?)..| | |].
    + intros w1 Hm. apply (os_ok_mono w); auto.
  - cbn [app]. apply tally_emit; [done..|]. by apply (tally_same w).
Qed.

Lemma delete_thread_good w acts i :
  inv w -> tally w acts -> idle w i (fun _ => true) = true -> good w acts (EvDelete i).
Proof.
  intros Hi Ht (s & Hs & Ha & _)%idle_slot. destruct (started_ (object s) && negb (joined_ (object s))) eqn:Hd.
  - apply andb_true_iff in Hd as [Hst Hnj]. destruct (started_slot w i s Hi Hs Hst) as (k & o & Hp & Ho & Hw & Hj & Hok).
    eexists _, _. split; [|split].
    + cbn [step]. unfold delete_Thread, mthen. rewrite (slot_at _ _ _ Hs). cbn. rewrite Hst, Hnj. cbn. rewrite Hp. cbn.
      rewrite (os_at _ _ _ Ho). cbn. reflexivity.
    + eapply (thread_inv_delete (World_ (numCreated_ w) (slots w) _)); [|exact Hs|done]. eapply inv_os; [done|exact Ho|done|].
      intros w1 Hm. apply (os_ok_mono w w1 k o); auto.
    + rewrite app_nil_r. eapply tally_os; [done|exact Ho|cbn; eauto|]. cbn. by destruct (o_pc o).
  - eexists _, _. split; [|split].
    + cbn [step]. unfold delete_Thread, mthen. rewrite (slot_at _ _ _ Hs). cbn. rewrite Hd. cbn. reflexivity.
    + by eapply thread_inv_delete.
    + rewrite app_nil_r. by apply (tally_same w).
Qed.

Lemma pc_thread w k p : pc_of w k = Some p -> exists o, os w !! k = Some o /\ o_pc o = p.
Proof. unfold pc_of. intros (o & Hp & Ho)%fmap_Some. eauto. Qed.

(** The object that a thread still points to. *)
Lemma pointed w i k o : inv w -> owned w i k -> os w !! k = Some o ->
  exists s, slots w !! i = Some (Some s) /\ pthreadId_ (object s) = Some k /\ started_ (object s) = true /\
    (active s = Some InStart -> joined_ (object s) = false) /\ with_thread s o.
Proof.
  intros Hi (s & Hs & Hp) Ho. pose proof (i_slots _ Hi i s Hs) as H. unfold slot_ok in H. rewrite Hp in H.
  destruct H as (Hst & Hj & o' & Ho' & Hw). rewrite Ho in Ho'. injection Ho' as <-. by exists s.
Qed.

Lemma tid_good w acts k tid :
  inv w -> tally w acts -> pc_of w k = Some Born -> 0 < tid -> good w acts (EvTid k tid).
Proof.
  intros Hi Ht (o & Ho & Hpc)%pc_thread Htid. pose proof (i_os _ Hi k o Ho) as Hok. unfold os_ok in Hok. rewrite Hpc in Hok.
  destruct Hok as (d & i & Hd & H1 & H2 & Hown). destruct (pointed w i k o Hi Hown Ho) as (s & Hs & Hp & Hst & Hj & Hw).
  unfold with_thread in Hw. rewrite Hpc in Hw. destruct Hw as (Ht0 & Hl & Ha). eexists _, _. split; [|split].
  - cbn [step]. unfold write_tid, mthen. rewrite (os_at _ _ _ Ho). cbn. rewrite Hd. cbn. rewrite H1. cbn.
    rewrite (slot_at _ _ _ Hs). cbn. reflexivity.
  - apply (inv_both w i s k o); try done. intros w1 Hm. cbn. split; [done|]. eexists _, i. split_and!; try done. by apply Hm.
  - rewrite app_nil_r. eapply tally_os; [done|exact Ho|cbn|cbn; by rewrite Hpc]. intros d' [= <-]. by exists d.
Qed.

Lemma count_down_good w acts k :
  inv w -> tally w acts -> pc_of w k = Some TidWritten -> good w acts (EvCountDown k).
Proof.
  intros Hi Ht (o & Ho & Hpc)%pc_thread. pose proof (i_os _ Hi k o Ho) as Hok. unfold os_ok in Hok. rewrite Hpc in Hok.
  destruct Hok as (Htid & d & i & Hd & H1 & H2 & Hown). destruct (pointed w i k o Hi Hown Ho) as (s & Hs & Hp & Hst & Hj & Hw).
  unfold with_thread in Hw. rewrite Hpc in Hw. destruct Hw as (Ht0 & Hl & Ha). eexists _, _. split; [|split].
  - cbn [step]. unfold count_down, mthen. rewrite (os_at _ _ _ Ho). cbn. rewrite Hd. cbn. rewrite H2. cbn.
    rewrite (slot_at _ _ _ Hs). cbn. rewrite Hl. cbn. reflexivity.
  - apply (inv_both w i s k o); try done. intros w1 Hm. cbn. eauto.
  - rewrite app_nil_r. eapply tally_os; [done|exact Ho|cbn|cbn; by rewrite Hpc]. intros d' [= <-]. by exists d.
Qed.

Lemma ran_other k k' f n acts : k <> k' -> ran k' (acts ++ [Runs k f n]) = ran k' acts.
Proof. intros H. rewrite ran_app. cbn. rewrite decide_False by done. apply app_nil_r. Qed.

Lemma enter_good w acts k :
  inv w -> tally w acts -> pc_of w k = Some CountedDown -> good w acts (EvEnter k).
Proof.
  intros Hi Ht (o & Ho & Hpc)%pc_thread. pose proof (i_os _ Hi k o Ho) as Hok. unfold os_ok in Hok. rewrite Hpc in Hok.
  destruct Hok as (Htid & d & Hd). eexists _, _. split; [|split].
  - cbn [step]. unfold enter_func, mthen. rewrite (os_at _ _ _ Ho). cbn. rewrite Hd. cbn. reflexivity.
  - eapply inv_os; [done|exact Ho|unfold with_thread; cbn; by rewrite Hpc|]. intros w1 Hm. cbn. eauto.
  - destruct Ht as [Hc Hdt Hr He Hn]. cbn [app].
    assert (Ec : created (acts ++ [Runs k (d_func d) (thread_name (d_name d))]) = created acts) by (rewrite created_app; apply app_nil_r).
    assert (Ee : forall k', ended k' (acts ++ [Runs k (d_func d) (thread_name (d_name d))]) = ended k' acts)
      by (intros k'; rewrite ended_app; cbn; lia).
    assert (Hlook : forall k' o', <[k:=OsThread_ InFunc (o_tid o) (Some (ThreadData_ (d_func d) (d_name d) (d_tid d) None))
        (thread_name (d_name d)) (o_detached o)]> (os w) !! k' = Some o' ->
        k' = k /\ o_pc o' = InFunc /\ (forall d', o_data o' = Some d' -> d_func d' = d_func d /\ d_name d' = d_name d) \/
        k <> k' /\ os w !! k' = Some o').
    { intros k' o' Hk'. destruct (decide (k' = k)) as [->|Hne].
      - rewrite list_lookup_insert_eq in Hk' by (by eapply lookup_lt_Some). injection Hk' as <-. left.
        split_and!; try done; intros ? [= <-]; done.
      - rewrite list_lookup_insert_ne in Hk' by done. by right. }
    split; cbn [os].
    + by rewrite Ec, length_insert.
    + intros k' o' d' [(-> & _ & H)|[_ H]]%Hlook Hd'; rewrite Ec; [|by eapply Hdt]. destruct (H d' Hd') as [-> ->]. by apply (Hdt k o).
    + intros k' o' [(-> & H & _)|[Hne H]]%Hlook; [|rewrite ran_other, Ec by done; by apply Hr]. rewrite H, Ec.
      exists (d_func d, d_name d). split; [by apply (Hdt k o)|]. rewrite ran_app.
      pose proof (Hr k o Ho) as H0. rewrite Hpc in H0. rewrite H0. cbn. by rewrite decide_True by done.
    + intros k' o' [(-> & H & _)|[Hne H]]%Hlook; rewrite Ee; [|by apply He]. rewrite H, (He k o Ho), Hpc. done.
    + intros k' Hk'. assert (k <> k').
      { intros ->. rewrite list_lookup_insert_eq in Hk' by (by eapply lookup_lt_Some). done. }
      rewrite list_lookup_insert_ne in Hk' by done. rewrite ran_other, Ee by done. by apply Hn.
Qed.

Lemma leave_good w acts k :
  inv w -> tally w acts -> pc_of w k = Some InFunc -> good w acts (EvLeave k Returns).
Proof.
  intros Hi Ht (o & Ho & Hpc)%pc_thread. pose proof (i_os _ Hi k o Ho) as Hok. unfold os_ok in Hok. rewrite Hpc in Hok.
  destruct Hok as (Htid & d & Hd). eexists _, _. split; [|split].
  - cbn [step]. unfold leave_func, mthen. rewrite (os_at _ _ _ Ho). cbn. rewrite Hd. cbn. reflexivity.
  - eapply inv_os; [done|exact Ho|unfold with_thread; cbn; by rewrite Hpc|]. done.
  - destruct Ht as [Hc Hdt Hr He Hn]. cbn [app].
    assert (Ec : created (acts ++ [Returned k]) = created acts) by (rewrite created_app; apply app_nil_r).
    assert (Er : forall k', ran k' (acts ++ [Returned k]) = ran k' acts) by (intros k'; rewrite ran_app; apply app_nil_r).
    assert (Ee : forall k', ended k' (acts ++ [Returned k]) = (ended k' acts + (if decide (k = k') then 1 else 0))%nat).
    { intros k'. rewrite ended_app. cbn. by destruct (decide (k = k')). }
    split; cbn [os].
    + by rewrite Ec, length_insert.
    + intros k' o' d' Hk' Hd'. rewrite Ec. destruct (decide (k' = k)) as [->|Hne].
      * rewrite list_lookup_insert_eq in Hk' by (by eapply lookup_lt_Some). by injection Hk' as <-.
      * rewrite list_lookup_insert_ne in Hk' by done. by eapply Hdt.
    + intros k' o' Hk'. rewrite Ec, Er. destruct (decide (k' = k)) as [->|Hne].
      * rewrite list_lookup_insert_eq in Hk' by (by eapply lookup_lt_Some). injection Hk' as <-. cbn.
        specialize (Hr k o Ho). by rewrite Hpc in Hr.
      * rewrite list_lookup_insert_ne in Hk' by done. by apply Hr.
    + intros k' o' Hk'. rewrite Ee. destruct (decide (k = k')) as [->|Hne].
      * rewrite list_lookup_insert_eq in Hk' by (by eapply lookup_lt_Some). injection Hk' as <-. cbn.
        by rewrite (He k' o Ho), Hpc.
      * rewrite list_lookup_insert_ne in Hk' by done. rewrite (He k' o' Hk'). lia.
    + intros k' Hk'. rewrite Er, Ee. destruct (decide (k = k')) as [->|Hne].
      * rewrite list_lookup_insert_eq in Hk' by (by eapply lookup_lt_Some). done.
      * rewrite list_lookup_insert_ne in Hk' by done. rewrite Nat.add_0_r. by apply Hn.
Qed.

Lemma step_allowed_good w acts e :
  inv w -> tally w acts -> allowed w e = true -> good w acts e.
Proof.
  intros Hi Ht Hal. destruct e as [f name|i b|i|i|i|i|k tid|k|k|k en]; cbn [allowed] in Hal.
  - apply new_good; [done..|by apply Z.ltb_lt].
  - apply andb_true_iff in Hal as [-> Hal]. by apply thread_start_good.
  - destruct (slots w !! i) as [[s|]|] eqn:Hs; try done. apply andb_true_iff in Hal as [Ha Hl].
    apply bool_decide_eq_true in Ha, Hl. by eapply start_returns_good.
  - by apply join_good.
  - destruct (slots w !! i) as [[s|]|] eqn:Hs; try done. apply andb_true_iff in Hal as [Ha _].
    apply bool_decide_eq_true in Ha. by eapply join_returns_good.
  - by apply delete_thread_good.
  - apply andb_true_iff in Hal as [Ha Htid]. apply bool_decide_eq_true in Ha. apply tid_good; try done. by apply Z.ltb_lt.
  - apply bool_decide_eq_true in Hal. by apply count_down_good.
  - apply bool_decide_eq_true in Hal. by apply enter_good.
  - apply andb_true_iff in Hal as [Ha He]. apply bool_decide_eq_true in Ha. destruct en; try done. by apply leave_good.
Qed.

Lemma thread_reachable w acts : reachable w acts -> inv w /\ tally w acts.
Proof.
  induction 1 as [|w es e w' es' Hr [Hi Ht] Hal E].
  - split; [split; try done; intros i k|by split]; [intros j (s & Hs & _)|intros (s & Hs & _)]; by destruct i.
  - destruct (step_allowed_good w es e Hi Ht Hal) as (w1 & es1 & E1 & Hi' & Ht'). rewrite E in E1. by injection E1 as <- <-.
Qed.

(** The steps of a thread of the system. *)
Definition of_thread (k : nat) (e : event) : bool :=
  match e with EvTid j _ | EvCountDown j | EvEnter j | EvLeave j _ => bool_decide (j = k) | _ => false end.
Definition return_of (i : nat) (c : call) : event :=
  match c with InStart => EvStartReturns i | InJoin => EvJoinReturns i end.

Lemma thread_goes_on w k o : inv w -> os w !! k = Some o -> o_pc o <> Exited ->
  exists e, of_thread k e = true /\ allowed w e = true.
Proof.
  intros Hi Ho Hpc. assert (E : pc_of w k = Some (o_pc o)) by (unfold pc_of; by rewrite Ho).
  destruct (o_pc o) eqn:Hp; [exists (EvTid k 1)|exists (EvCountDown k)|exists (EvEnter k)|exists (EvLeave k Returns)|done];
    cbn; rewrite E, bool_decide_true by done; (split; [done|]); rewrite bool_decide_true by done; done.
Qed.

(** C37.  Threads, with any number of objects and all interleavings of their
    owners and threads: no assertion fails and no thread follows a pointer to an
    object that was destroyed, though an owner may destroy an object as soon as
    [start] has returned.  After [start] the object has the id of its thread.
    Every thread runs the function it was created with, once, under its name, and
    [join] returns only after the function has.  A call that blocks can return,
    or the thread it waits for can go on. *)
Theorem thread_safe w acts :
  reachable w acts ->
  (forall e, allowed w e = true -> exists w' es, step e w = Ok (tt, w', es)) /\
  (forall i s, slots w !! i = Some (Some s) -> started_ (object s) = true -> active s <> Some InStart ->
     exists k o, pthreadId_ (object s) = Some k /\ os w !! k = Some o /\
       0 < tid_ (object s) /\ tid_ (object s) = o_tid o) /\
  (forall k, ran k acts = [] \/ exists f name, created acts !! k = Some (f, name) /\ ran k acts = [(f, thread_name name)]) /\
  (forall i, allowed w (EvJoinReturns i) = true ->
     exists s k, slots w !! i = Some (Some s) /\ pthreadId_ (object s) = Some k /\ ended k acts = 1%nat) /\
  (forall i s c, slots w !! i = Some (Some s) -> active s = Some c ->
     exists e, (e = return_of i c \/ exists k, pthreadId_ (object s) = Some k /\ of_thread k e = true) /\ allowed w e = true).
Proof.
  intros [Hi Ht]%thread_reachable. split_and!.
  - intros e Hal. destruct (step_allowed_good w acts e Hi Ht Hal) as (w' & es & E & _). eauto.
  - intros i s Hs Hst Ha. destruct (started_slot w i s Hi Hs Hst) as (k & o & Hp & Ho & Hw & _ & Hok).
    exists k, o. split_and!; try done; unfold with_thread, os_ok in *;
      destruct (o_pc o); try (by destruct Hw as (_ & _ & ?)); destruct Hw as [-> _]; [by destruct Hok..|done|done|done|done].
  - intros k. destruct (os w !! k) as [o|] eqn:Ho; [|left; by apply (t_none _ _ Ht)].
    pose proof (t_ran _ _ Ht k o Ho) as Hr. destruct (o_pc o); auto; destruct Hr as ([f n] & Hc & Hr); right; by exists f, n.
  - intros i Hal. cbn in Hal. destruct (slots w !! i) as [[s|]|] eqn:Hs; try done.
    apply andb_true_iff in Hal as [_ Hal]. apply bool_decide_eq_true in Hal.
    destruct (pthreadId_ (object s)) as [k|] eqn:Hp; [|done]. cbn in Hal. apply pc_thread in Hal as (o & Ho & Hpc).
    exists s, k. split_and!; [done..|]. by rewrite (t_ended _ _ Ht k o Ho), Hpc.
  - intros i s c Hs Ha. pose proof (i_slots _ Hi i s Hs) as H. unfold slot_ok in H.
    destruct (pthreadId_ (object s)) as [k|] eqn:Hp; [|rewrite Ha in H; by destruct H as (_ & _ & _ & _ & ?)].
    destruct H as (Hst & _ & o & Ho & Hw). destruct (decide (o_pc o = Exited)) as [Hpc|Hpc].
    + exists (return_of i c). split; [by left|]. unfold with_thread in Hw. rewrite Hpc in Hw. destruct Hw as [_ Hl].
      destruct c; cbn; rewrite Hs, Ha, bool_decide_true by done; cbn; [by rewrite Hl|].
      rewrite Hp. cbn. unfold pc_of. rewrite Ho. cbn. by rewrite Hpc.
    + destruct (thread_goes_on w k o Hi Ho Hpc) as (e & He & Hal). exists e. split; [|done]. right. by exists k.
Qed.

(** *** A run: the owner destroys the object before the thread has called its
    function. *)
Fixpoint play (es : list event) (w : World) : option (World * list act) :=
  match es with
  | [] => Some (w, [])
  | e :: es =>
      if allowed w e then
        match step e w with
        | Ok (_, w', acts) =>
            match play es w' with Some (w'', acts') => Some (w'', acts ++ acts') | None => None end
        | Crash _ => None
        end
      else None
  end.

Lemma thread_play_reachable es : forall w acts w' acts',
  reachable w acts -> play es w = Some (w', acts') -> reachable w' (acts ++ acts').
Proof.
  induction es as [|e es IH]; intros w acts w' acts' Hr; cbn [play].
  { intros [= <- <-]. by rewrite app_nil_r. }
  destruct (allowed w e) eqn:Hal; [|done]. destruct (step e w) as [[[[] w1] es1]|] eqn:E; [|done].
  destruct (play es w1) as [[w2 es2]|] eqn:E2; [|done]. intros [= <- <-].
  rewrite app_assoc. eapply IH; [|exact E2]. by eapply reachable_step.
Qed.

Definition thread_events : list event :=
  [EvNew 7 []; EvNew 8 (str "worker"); EvStart 1 true; EvStart 0 true; EvTid 1 100; EvTid 0 101; EvCountDown 0;
   EvCountDown 1; EvStartReturns 1; EvStartReturns 0; EvDelete 0; EvEnter 1; EvJoin 1; EvEnter 0; EvLeave 0 Returns].
Definition thread_end : World * list act :=
  match play thread_events new_World with Some r => r | None => (new_World, []) end.
Lemma thread_end_reachable : reachable thread_end.1 thread_end.2.
Proof. apply (thread_play_reachable thread_events new_World []); [constructor|]. vm_compute. reflexivity. Qed.

Lemma thread_safe_witness :
  (exists w' es, step (EvJoinReturns 1) thread_end.1 = Ok (tt, w', es)) /\
  ran 0 thread_end.2 = [(8%nat, str "worker")] /\ ran 1 thread_end.2 = [(7%nat, str "Thread1")].
Proof.
  destruct (thread_safe _ _ thread_end_reachable) as (H1 & _ & H3 & _). split; [|split].
  - apply H1. vm_compute. reflexivity.
  - destruct (H3 0%nat) as [E|(f & n & Hc & E)]; [vm_compute in E; discriminate E|]. rewrite E.
    vm_compute in Hc. injection Hc as <- <-. vm_compute. reflexivity.
  - vm_compute. reflexivity.
Defined.

(** The names given to objects without a name differ. *)
Lemma default_name_inj n m : 0 <= n < 2147483648 -> 0 <= m < 2147483648 -> default_name n = default_name m -> n = m.
Proof.
  assert (Hd : forall n, 0 <= n < 2147483648 -> default_name n = str "Thread" ++ str (pretty n)).
  { intros k Hk. unfold default_name, snprintf. rewrite str_app. apply take_ge. rewrite length_app.
    pose proof (decimal_length k 10 ltac:(lia) ltac:(lia) ltac:(lia)). cbn. lia. }
  intros Hn Hm. rewrite (Hd n Hn), (Hd m Hm). intros E%app_inv_head. by apply decimal_inj in E.
Qed.

(** An owner that destroys the object while [start] still waits leaves its thread
    with pointers to it. *)
Lemma early_delete_dangles tid :
  match (do _ <- step (EvNew 0 []); do _ <- step (EvStart 0 true); do _ <- step (EvDelete 0); step (EvTid 0 tid)) new_World with
  | Crash e => e = DeadObject
  | Ok _ => False
  end.
Proof. vm_compute. reflexivity. Qed.

(** [pthread_create] fails, or the function throws: the process ends. *)
Lemma create_fails w i s :
  slots w !! i = Some (Some s) -> start i false w = Crash (if started_ (object s) then AssertFailed else Aborted).
Proof. intros Hs. unfold start, mthen. rewrite (slot_at _ _ _ Hs). cbn. by destruct (started_ (object s)). Qed.

End Threads.
