(* ===== verification/Inspector.v ===== *)
(** * Inspector ([muduo/net/inspect/Inspector.cc], [.h])

    A table of commands that an http server runs: [add] and [remove] change it,
    a request for [/module/command/arg...] calls a command and a request for [/]
    lists them all.  The table is two maps of maps, which a mutex protects; the
    calls of several threads are those of a client of [Monitor.v]. *)

From stdpp Require Import strings.
From S2P Require Import Prelude Monitor BlockingQueue Http.
#[local] Open Scope Z_scope.

Module Inspector.

(** ** [std::map] with strings as keys

    A list in the order of [std::string], without duplicates. *)
Section string_map.
Context {A : Type}.

Fixpoint find (key : bytes) (l : list (bytes * A)) : option A :=
  match l with
  | [] => None
  | (k, v) :: l => if decide (key = k) then Some v else find key l
  end.
(** An update through [operator[]], which creates what is not there. *)
Fixpoint modify (key : bytes) (f : option A -> A) (l : list (bytes * A)) : list (bytes * A) :=
  match l with
  | [] => [(key, f None)]
  | (k, v) :: l' =>
      if string_lt key k then (key, f None) :: l
      else if string_lt k key then (k, v) :: modify key f l'
      else (key, f (Some v)) :: l'
  end.
Definition erase (key : bytes) (l : list (bytes * A)) : list (bytes * A) :=
  List.filter (fun p => bool_decide (p.1 <> key)) l.
End string_map.

(** ** The class *)

(** An [std::function] may be empty. *)
Abbreviation Callback := (option (Method -> list bytes -> bytes)).

Record Inspector := Inspector_ {
  modules_ : list (bytes * list (bytes * Callback));
  helps_ : list (bytes * list (bytes * bytes))
}.
Definition new_Inspector : Inspector := Inspector_ [] [].

Definition SLASH : byte := z2b 47.

(** [str.find('/', start)]. *)
Definition find_slash (s : bytes) (start : nat) : option nat :=
  match list_find (fun c => c = SLASH) (drop start s) with Some (i, _) => Some (start + i)%nat | None => None end.

(** The loop takes a slash away in every round: the length is fuel enough. *)
Fixpoint split_loop (fuel : nat) (s : bytes) (start : nat) (pos : option nat) : list bytes :=
  match fuel, pos with
  | S fuel, Some pos =>
      (if (start <? pos)%nat then [take (pos - start) (drop start s)] else []) ++
      split_loop fuel s (pos + 1) (find_slash s (pos + 1))
  | _, _ => if (start <? length s)%nat then [drop start s] else []
  end.
Definition split (s : bytes) : list bytes := split_loop (length s) s 0 (find_slash s 0).

Definition add (module command : bytes) (cb : Callback) (help : bytes) (s : Inspector) : Inspector :=
  Inspector_ (modify module (fun l => modify command (fun _ => cb) (default [] l)) (modules_ s))
             (modify module (fun l => modify command (fun _ => help) (default [] l)) (helps_ s)).

Definition remove (module command : bytes) (s : Inspector) : Inspector :=
  match find module (modules_ s) with
  | Some _ =>
      Inspector_ (modify module (fun l => erase command (default [] l)) (modules_ s))
                 (modify module (fun l => erase command (default [] l)) (helps_ s))
  | None => s
  end.

Definition help_line (module command help : bytes) : bytes :=
  let len := (length module + length command)%nat in
  str "/" ++ module ++ str "/" ++ command ++
  replicate (if (25 <=? len)%nat then 1 else 25 - len) SP ++ help ++ [z2b 10].

Fixpoint hex (s : string) : bytes :=
  match s with
  | String a (String b s) =>
      let digit c := let n := Z.of_nat (Ascii.nat_of_ascii c) in if n <? 58 then n - 48 else n - 87 in
      z2b (16 * digit a + digit b) :: hex s
  | _ => []
  end.
Definition favicon : bytes :=
  hex "89504e470d0a1a0a0000000d49484452000000100000001008060000001ff3ff610000000473424954080808087c08648800" ++
  hex "0000097048597300000b1200000b1201d2dd7efc0000001c74455874536f6674776172650041646f62652046697265776f72" ++
  hex "6b732043533398d6460300000015744558744372656174696f6e2054696d6500322f31372f3038209caa5800000411744558" ++
  hex "74584d4c3a636f6d2e61646f62652e786d70003c3f787061636b657420626567696e3d22202020222069643d2257354d304d" ++
  hex "7043656869487a7265537a4e54637a6b633964223f3e0a3c783a786d706d65746120786d6c6e733a783d2261646f62653a6e" ++
  hex "733a6d6574612f2220783a786d70746b3d2241646f626520584d5020436f726520342e312d633033342034362e3237323937" ++
  hex "362c20536174204a616e20323720323030372032323a31313a34312020202020202020223e0a2020203c7264663a52444620" ++
  hex "786d6c6e733a7264663d22687474703a2f2f7777772e77332e6f72672f313939392f30322f32322d7264662d73796e746178" ++
  hex "2d6e7323223e0a2020202020203c7264663a4465736372697074696f6e207264663a61626f75743d22220a20202020202020" ++
  hex "2020202020786d6c6e733a7861703d22687474703a2f2f6e732e61646f62652e636f6d2f7861702f312e302f223e0a202020" ++
  hex "2020202020203c7861703a43726561746f72546f6f6c3e41646f62652046697265776f726b73204353333c2f7861703a4372" ++
  hex "6561746f72546f6f6c3e0a2020202020202020203c7861703a437265617465446174653e323030382d30322d31375430323a" ++
  hex "33363a34355a3c2f7861703a437265617465446174653e0a2020202020202020203c7861703a4d6f64696679446174653e32" ++
  hex "3030382d30332d32345431393a30303a34325a3c2f7861703a4d6f64696679446174653e0a2020202020203c2f7264663a44" ++
  hex "65736372697074696f6e3e0a2020202020203c7264663a4465736372697074696f6e207264663a61626f75743d22220a2020" ++
  hex "20202020202020202020786d6c6e733a64633d22687474703a2f2f7075726c2e6f72672f64632f656c656d656e74732f312e" ++
  hex "312f223e0a2020202020202020203c64633a666f726d61743e696d6167652f706e673c2f64633a666f726d61743e0a202020" ++
  hex "2020203c2f7264663a4465736372697074696f6e3e0a2020203c2f7264663a5244463e0a3c2f783a786d706d6574613e0a20" ++
  hex "2020202020202020202020202020202020202020202020202020202020202020202020202020202020202020202020202020" ++
  hex "202020202020202020202020202020202020202020202020202020202020202020202020202020202020202020202020200a" ++
  hex "2020202020202020202020202020202020202020202020202020202020202020202020202020202020202020202020202020" ++
  hex "2020202020202020202020202020202020202020202020202020202020202020202020202020202020202020202020202020" ++
  hex "0a20202020202020202020202020202020202020202020202020202020202020202020202020202020202020202020202020" ++
  hex "202020202020202020202020202020202020202020202020202020202020202020202020202020202020351d52640000020b" ++
  hex "49444154388da593416b1a4118869f8906232e74f5204a0e6b20e4e2a578c8a1788982178582823d26625872cd4ff1184b1b" ++
  hex "2fa532e0b59e351a582fe90fe8656d84a2842c0a6b5862a787686813a1a579e13b0cc3fbcc37ef7c239452bc447e00210400" ++
  hex "ad56cb188fc70ddbb6d38ee3f883c1a08ac7e33f128944b95c2ef756a6df0f154a298410349bcd7796657d360c43e47239e2" ++
  hex "f138b7b7b7f4fb7d068301a954ea43a552397e0a402945abd5324e4f4f7f4a29d5ddddddb3eaf57aeae4e4444929d32bcfaa" ++
  hex "3600c6e37163676747e4f379003ccfa35028e0ba2e9ee7914aa5d8dbdb63341a7d7c9ac106806ddbe96c368bcfe7c3f33c5c" ++
  hex "d70560369be1ba2e8bc5824c26836ddbbb6b43741cc71f8bc50028168b8f9bd56a150029259aa6319fcfc55ac0d6d6969a4c" ++
  hex "2622140a21a564369b51ad56a9d56a689a06c0f5f535baaedfafbd826118df2ccb7a20fafd04020100344d231008b0582ce8" ++
  hex "76bb2412898bb51d6c6f6f1f753a9d7e381c2697cb2184404a09c0e6e626ed769bc964a2a6d3e92778989bd5533ecec1f9f9" ++
  hex "f9fbc160709c4c26d9dfdf271289301c0eb9bcbce4e6e646f97cbe2fd3e9340f34eaf57ae5196019d69bd168d4180e87bbf3" ++
  hex "f95ce8ba7e6f18c645341a3d2c954adf4dd3bc025e035f8183b3b333e70fc0df649aa6b134eb80031c6cfc9373a97abd6e03" ++
  hex "47cba50ebce27f7ea3699a87a669be554a3d64f012fd020d530624883fe1690000000049454e44ae426082".

Definition ok_page (type body : bytes) (resp : HttpResponse) : HttpResponse :=
  setContentType type (resp <| statusCode_ := 200 |> <| statusMessage_ := str "OK" |>) <| body_ := body |>.
Definition not_found (resp : HttpResponse) : HttpResponse :=
  resp <| statusCode_ := 404 |> <| statusMessage_ := str "Not Found" |>.

Definition onRequest (req : HttpRequest) (resp : HttpResponse) (s : Inspector) : HttpResponse :=
  if decide (path_ req = str "/") then
    let result := concat (map (fun m => concat (map (fun c => help_line m.1 c.1 c.2) m.2)) (helps_ s)) in
    ok_page (str "text/plain") result resp
  else
    match split (path_ req) with
    | [] => not_found resp
    | [module] => if decide (module = str "favicon.ico") then ok_page (str "image/png") favicon resp else not_found resp
    | module :: command :: args =>
        match find module (modules_ s) with
        | Some commList =>
            match find command commList with
            | Some (Some cb) => ok_page (str "text/plain") (cb (method_ req) args) resp
            | _ => not_found resp
            end
        | None => not_found resp
        end
    end.

(** The critical sections. *)
Inductive call :=
  | Add (module command : bytes) (cb : Callback) (help : bytes)
  | Remove (module command : bytes)
  | Request (req : HttpRequest) (resp : HttpResponse).

Definition body (op : call) (s : Inspector) : outcome (Inspector * option HttpResponse * list (notification unit)) :=
  match op with
  | Add m c cb h => Ok (add m c cb h s, None, [])
  | Remove m c => Ok (remove m c s, None, [])
  | Request req resp => Ok (s, Some (onRequest req resp s), [])
  end.
Definition inspector_class := any_client (C:=unit) (fun _ _ => None) body.

Example split_demo :
  split (str "/proc//overview/") = [str "proc"; str "overview"] /\ split (str "//") = [] /\ length favicon = 1743%nat.
Proof. vm_compute. done. Qed.

(** ** The order of strings *)

Lemma string_lt_irrefl a : string_lt a a = false.
Proof. induction a as [|x a IH]; [done|]. cbn. by rewrite IH, Z.ltb_irrefl, andb_false_r. Qed.

Lemma string_lt_trans a b c : string_lt a b = true -> string_lt b c = true -> string_lt a c = true.
Proof.
  revert b c. induction a as [|x a IH]; intros [|y b] [|z c]; try done. cbn. rewrite !orb_true_iff, !andb_true_iff, !Z.ltb_lt, !Z.eqb_eq.
  intros [H|[H H1]] [H2|[H2 H3]]; [left; lia..|right]. split; [lia|by eapply IH].
Qed.

Lemma string_lt_total a b : string_lt a b = false -> string_lt b a = false -> a = b.
Proof.
  revert b. induction a as [|x a IH]; intros [|y b]; try done. cbn. rewrite !orb_false_iff, !andb_false_iff, !Z.ltb_ge, !Z.eqb_neq.
  intros [H1 H2] [H3 H4]. assert (x = y) as -> by (apply b2z_inj; lia). f_equal. apply IH; intuition.
Qed.

Section map_lemmas.
Context {A : Type}.
Implicit Types (l : list (bytes * A)) (f : option A -> A).

Definition below (k : bytes) (p : bytes * A) : Prop := string_lt k p.1 = true.
Definition sorted l : Prop := StronglySorted (fun p q => below p.1 q) l.

Lemma find_below k l : Forall (below k) l -> find k l = None.
Proof.
  induction 1 as [|[k' v] l H _ IH]; [done|]. cbn. rewrite decide_False; [done|]. intros ->.
  unfold below in H. cbn in H. by rewrite string_lt_irrefl in H.
Qed.

Lemma below_trans k k' l : string_lt k k' = true -> Forall (below k') l -> Forall (below k) l.
Proof. intros H Hl. eapply Forall_impl; [exact Hl|]. intros p. unfold below. by apply string_lt_trans. Qed.

Lemma modify_below k key f l : string_lt k key = true -> Forall (below k) l -> Forall (below k) (modify key f l).
Proof.
  intros H. induction 1 as [|[k' v] l Hk Hl IH]; cbn; [by repeat constructor|].
  destruct (string_lt key k'); [by repeat constructor|]. destruct (string_lt k' key); by constructor.
Qed.

Lemma modify_sorted key f l : sorted l -> sorted (modify key f l).
Proof.
  unfold sorted. induction 1 as [|[k v] l Hl IH Hk]; cbn; [by repeat constructor|].
  destruct (string_lt key k) eqn:H1; [|destruct (string_lt k key) eqn:H2].
  - constructor; [by constructor|]. constructor; [done|]. by eapply below_trans.
  - constructor; [done|]. by apply modify_below.
  - rewrite <- (string_lt_total _ _ H1 H2) in Hk. by constructor.
Qed.

Lemma find_modify key f l k : sorted l -> find k (modify key f l) = if decide (k = key) then Some (f (find key l)) else find k l.
Proof.
  unfold sorted. induction 1 as [|[k' v] l Hl IH Hk]; cbn; [done|]. change (Forall (below k') l) in Hk.
  destruct (string_lt key k') eqn:H1; [|destruct (string_lt k' key) eqn:H2]; cbn.
  - assert (Hne : key <> k') by (intros ->; by rewrite string_lt_irrefl in H1).
    rewrite (decide_False (P := key = k')) by done. by rewrite (find_below key l) by (by eapply below_trans).
  - assert (Hne : key <> k') by (intros ->; by rewrite string_lt_irrefl in H2).
    rewrite IH, (decide_False (P := key = k')) by done.
    destruct (decide (k = k')) as [->|]; [by rewrite decide_False|done].
  - rewrite (string_lt_total _ _ H1 H2), (decide_True (P := k' = k')) by done. by destruct (decide (k = k')).
Qed.

Lemma erase_sorted key l : sorted l -> sorted (erase key l).
Proof.
  unfold sorted, erase. induction 1 as [|p l Hl IH Hp]; cbn; [constructor|]. case_bool_decide; [|done].
  constructor; [done|]. clear -Hp. induction Hp as [|q l Hq Hl IH]; cbn; [constructor|]. case_bool_decide; [by constructor|done].
Qed.

Lemma find_erase key l k : find k (erase key l) = if decide (k = key) then None else find k l.
Proof.
  unfold erase. induction l as [|[k' v] l IH]; cbn; [by destruct (decide (k = key))|]. case_bool_decide as H; cbn.
  - rewrite IH. destruct (decide (k = key)), (decide (k = k')); try done. congruence.
  - assert (k' = key) as -> by (by destruct (decide (k' = key))). rewrite IH.
    destruct (decide (k = key)); done.
Qed.

Lemma find_elem k v l : sorted l -> find k l = Some v <-> (k, v) ∈ l.
Proof.
  unfold sorted. induction 1 as [|[k' v'] l Hl IH Hk]; cbn; [by rewrite elem_of_nil|]. rewrite elem_of_cons. change (Forall (below k') l) in Hk.
  rewrite Forall_forall in Hk. assert (Hno : forall w, (k', w) ∈ l -> False).
  { intros w Hw%Hk. unfold below in Hw. cbn in Hw. by rewrite string_lt_irrefl in Hw. }
  destruct (decide (k = k')) as [->|Hne]; [|rewrite IH; naive_solver].
  split; [intros [= ->]; by left|]. intros [[= ->]|H]; [done|by destruct (Hno v)].
Qed.

End map_lemmas.

(** ** The parts of a path *)

(** The text between slashes, and what is left of it without the empty parts. *)
Fixpoint pieces (l : bytes) : list bytes :=
  match l with
  | [] => [[]]
  | c :: l => if decide (c = SLASH) then [] :: pieces l
              else match pieces l with p :: ps => (c :: p) :: ps | [] => [[c]] end
  end.
Definition parts (l : bytes) : list bytes := List.filter (fun p => bool_decide (p <> [])) (pieces l).

Lemma pieces_none l : SLASH ∉ l -> pieces l = [l].
Proof.
  induction l as [|c l IH]; [done|]. rewrite not_elem_of_cons. intros [Hc Hl]. cbn.
  rewrite decide_False by done. by rewrite IH.
Qed.

Lemma pieces_slash l l' : SLASH ∉ l -> pieces (l ++ SLASH :: l') = l :: pieces l'.
Proof.
  induction l as [|c l IH]; cbn; [by rewrite decide_True|]. rewrite not_elem_of_cons. intros [Hc Hl].
  rewrite decide_False by done. by rewrite IH.
Qed.

Lemma find_slash_some s start pos : find_slash s start = Some pos ->
  exists p l, drop start s = p ++ SLASH :: l /\ SLASH ∉ p /\ pos = (start + length p)%nat /\ l = drop (pos + 1) s.
Proof.
  unfold find_slash. destruct (list_find _ (drop start s)) as [[i c]|] eqn:E; [|done]. intros [= <-].
  apply list_find_Some in E as (Hi & -> & Hb). pose proof (lookup_lt_Some _ _ _ Hi) as Hlt.
  exists (take i (drop start s)), (drop (S i) (drop start s)). split_and!.
  - symmetry. by apply take_drop_middle.
  - intros Hin%list_elem_of_lookup. destruct Hin as [j Hj]. apply lookup_take_Some in Hj as [Hj Hji]. by eapply Hb.
  - rewrite length_take. lia.
  - rewrite drop_drop. f_equal. lia.
Qed.

Lemma find_slash_none s start : find_slash s start = None -> SLASH ∉ drop start s.
Proof.
  unfold find_slash. destruct (list_find _ (drop start s)) as [[i c]|] eqn:E; [done|]. intros _ Hin.
  apply list_find_None in E. rewrite Forall_forall in E. by apply (E _ Hin).
Qed.

Lemma split_loop_parts fuel s start :
  (length (drop start s) <= fuel)%nat -> split_loop fuel s start (find_slash s start) = parts (drop start s).
Proof.
  assert (Hlast : forall start, find_slash s start = None ->
            (if (start <? length s)%nat then [drop start s] else []) = parts (drop start s)).
  { intros st Hn. unfold parts. rewrite pieces_none by (by apply find_slash_none).
    pose proof (length_drop s st) as Hl. destruct (drop st s) as [|c l]; cbn in Hl.
    - rewrite (proj2 (Nat.ltb_ge st (length s))) by lia; done.
    - rewrite (proj2 (Nat.ltb_lt st (length s))) by lia; done. }
  revert start. induction fuel as [|fuel IH]; intros start Hf.
  - destruct (find_slash s start) as [pos|] eqn:E; [|by apply Hlast].
    apply find_slash_some in E as (p & l & E & _). rewrite E in Hf. rewrite length_app in Hf. cbn in Hf. lia.
  - destruct (find_slash s start) as [pos|] eqn:E; [|by apply Hlast]. cbn [split_loop].
    apply find_slash_some in E as (p & l & E & Hp & -> & ->). rewrite IH; last first.
    { rewrite E, length_app in Hf. cbn in Hf. lia. }
    rewrite E. unfold parts. rewrite (pieces_slash p _ Hp). cbn [List.filter].
    replace (start + length p - start)%nat with (length p) by lia. rewrite take_app_length.
    destruct p as [|c p]; cbn [length].
    + by rewrite (proj2 (Nat.ltb_ge _ _)) by lia.
    + by rewrite (proj2 (Nat.ltb_lt _ _)) by lia.
Qed.

Lemma split_parts s : split s = parts s.
Proof. unfold split. by rewrite split_loop_parts by (rewrite drop_0; lia). Qed.

Definition path_of (ps : list bytes) : bytes := concat (map (fun p => SLASH :: p) ps).

(** A path made of parts is split into them. *)
Lemma parts_path ps : Forall (fun p => p <> [] /\ SLASH ∉ p) ps -> parts (path_of ps) = ps.
Proof.
  assert (Hgo : forall ps p, SLASH ∉ p -> Forall (fun p => p <> [] /\ SLASH ∉ p) ps ->
            pieces (p ++ path_of ps) = p :: ps).
  { clear ps. induction ps as [|q ps IH]; intros p Hp Hps; cbn.
    - rewrite app_nil_r. by apply pieces_none.
    - apply Forall_cons in Hps as [[_ Hq] Hps]. rewrite pieces_slash by done. f_equal. by apply IH. }
  intros Hps. unfold parts. change (path_of ps) with ([] ++ path_of ps). rewrite (Hgo ps [] ltac:(apply not_elem_of_nil) Hps). cbn.
  induction Hps as [|p ps [Hne _] _ IH]; [done|]. cbn. rewrite bool_decide_true by done. by rewrite IH.
Qed.

(** ** The table as one map *)

(** A command's name is its module and its own name. *)
Abbreviation Table := (gmap (bytes * bytes) (Callback * bytes)).

Definition lookup2 {A} (m c : bytes) (l : list (bytes * list (bytes * A))) : option A := find m l ≫= find c.
Definition sorted2 {A} (l : list (bytes * list (bytes * A))) : Prop :=
  sorted l /\ Forall (fun p => sorted p.2) l.

Record represents (s : Inspector) (T : Table) : Prop := {
  r_modules : sorted2 (modules_ s);
  r_helps : sorted2 (helps_ s);
  r_cb m c : lookup2 m c (modules_ s) = fst <$> T !! (m, c);
  r_help m c : lookup2 m c (helps_ s) = snd <$> T !! (m, c);
  r_same m : is_Some (find m (modules_ s)) <-> is_Some (find m (helps_ s))
}.

(** What is listed, in order. *)
Definition entries (l : list (bytes * list (bytes * bytes))) : list (bytes * bytes * bytes) :=
  concat (map (fun m => map (fun c => (m.1, c.1, c.2)) m.2) l).
Definition before (p q : bytes * bytes * bytes) : Prop :=
  string_lt p.1.1 q.1.1 = true \/ p.1.1 = q.1.1 /\ string_lt p.1.2 q.1.2 = true.
Definition index_page (T : Table) (page : bytes) : Prop :=
  exists l, StronglySorted before l /\
    (forall m c h, (m, c, h) ∈ l <-> exists cb, T !! (m, c) = Some (cb, h)) /\
    page = concat (map (fun e => help_line e.1.1 e.1.2 e.2) l).

(** A call, and what it returns. *)
Inductive spec_step (T : Table) : call -> option HttpResponse -> Table -> Prop :=
  | spec_add m c cb h : spec_step T (Add m c cb h) None (<[(m, c) := (cb, h)]> T)
  | spec_remove m c : spec_step T (Remove m c) None (delete (m, c) T)
  | spec_index req resp page :
      path_ req = str "/" -> index_page T page -> spec_step T (Request req resp) (Some (ok_page (str "text/plain") page resp)) T
  | spec_icon req resp :
      parts (path_ req) = [str "favicon.ico"] ->
      spec_step T (Request req resp) (Some (ok_page (str "image/png") favicon resp)) T
  | spec_command req resp m c args cb h :
      parts (path_ req) = m :: c :: args -> T !! (m, c) = Some (Some cb, h) ->
      spec_step T (Request req resp) (Some (ok_page (str "text/plain") (cb (method_ req) args) resp)) T
  | spec_unknown req resp :
      path_ req <> str "/" -> parts (path_ req) <> [str "favicon.ico"] ->
      (forall m c args, parts (path_ req) = m :: c :: args -> forall cb h, T !! (m, c) <> Some (Some cb, h)) ->
      spec_step T (Request req resp) (Some (not_found resp)) T.

Inductive spec_runs : list (nat * call * option HttpResponse) -> Table -> Prop :=
  | spec_new : spec_runs [] ∅
  | spec_next hist T t op r T' : spec_runs hist T -> spec_step T op r T' -> spec_runs (hist ++ [(t, op, r)]) T'.

Section modify2.
Context {A : Type}.
Implicit Types (l : list (bytes * list (bytes * A))).

Lemma Forall_find (P : A -> Prop) k (l : list (bytes * A)) v : Forall (fun p => P p.2) l -> find k l = Some v -> P v.
Proof. induction 1 as [|[k' w] l Hw _ IH]; cbn; [done|]. destruct (decide (k = k')); [by intros [= <-]|done]. Qed.

Lemma modify_Forall (P : A -> Prop) k f (l : list (bytes * A)) :
  (forall o, (forall v, o = Some v -> P v) -> P (f o)) -> Forall (fun p => P p.2) l -> Forall (fun p => P p.2) (modify k f l).
Proof.
  intros Hf. induction 1 as [|[k' w] l Hw Hl IH]; cbn; [constructor; [by apply Hf|done]|].
  destruct (string_lt k k'); [constructor; [by apply Hf|by constructor]|].
  destruct (string_lt k' k); [by constructor|]. constructor; [|done]. apply Hf. by intros ? [= <-].
Qed.
End modify2.

Lemma modify_sorted2 {A} m (g : list (bytes * A) -> list (bytes * A)) l :
  (forall k, sorted k -> sorted (g k)) -> sorted2 l -> sorted2 (modify m (fun o => g (default [] o)) l).
Proof.
  intros Hg [H1 H2]. split; [by apply modify_sorted|].
  apply (modify_Forall (fun k => sorted k)); [|done]. intros o Ho. apply Hg. destruct o; [by apply Ho|constructor].
Qed.

Lemma lookup2_modify {A} m c (g : list (bytes * A) -> list (bytes * A)) l m' :
  sorted2 l ->
  lookup2 m' c (modify m (fun o => g (default [] o)) l) =
    if decide (m' = m) then find c (g (default [] (find m l))) else lookup2 m' c l.
Proof. intros [Hs _]. unfold lookup2. rewrite find_modify by done. by destruct (decide (m' = m)). Qed.

Lemma inner_sorted {A} m (l : list (bytes * list (bytes * A))) : sorted2 l -> sorted (default [] (find m l)).
Proof.
  intros [_ H]. destruct (find m l) as [k|] eqn:E; [|constructor]. by apply (Forall_find (fun k => sorted k) m l).
Qed.
Lemma inner_lookup {A} m c (l : list (bytes * list (bytes * A))) : find c (default [] (find m l)) = lookup2 m c l.
Proof. unfold lookup2. by destruct (find m l). Qed.

Lemma add_represents s T m c cb h : represents s T -> represents (add m c cb h s) (<[(m, c) := (cb, h)]> T).
Proof.
  intros [H1 H2 H3 H4 H5].
  assert (Hg : forall {A} (v : A) (l : list (bytes * list (bytes * A))) m' c', sorted2 l ->
            lookup2 m' c' (modify m (fun o => modify c (fun _ => v) (default [] o)) l) =
            if decide ((m', c') = (m, c)) then Some v else lookup2 m' c' l).
  { intros A v l m' c' Hl. rewrite (lookup2_modify m c' (modify c (fun _ => v))) by done.
    destruct (decide (m' = m)) as [->|Hm].
    - rewrite find_modify by (by apply inner_sorted). rewrite inner_lookup.
      destruct (decide (c' = c)) as [->|Hc]; [by rewrite decide_True|]. rewrite decide_False; [done|congruence].
    - rewrite decide_False; [done|congruence]. }
  split; cbn [add modules_ helps_].
  - apply (modify_sorted2 m (modify c (fun _ => cb))); [|done]. intros. by apply modify_sorted.
  - apply (modify_sorted2 m (modify c (fun _ => h))); [|done]. intros. by apply modify_sorted.
  - intros m' c'. rewrite Hg by done. destruct (decide ((m', c') = (m, c))) as [E|E].
    + rewrite E. by rewrite lookup_insert_eq.
    + by rewrite lookup_insert_ne by done.
  - intros m' c'. rewrite Hg by done. destruct (decide ((m', c') = (m, c))) as [E|E].
    + rewrite E. by rewrite lookup_insert_eq.
    + by rewrite lookup_insert_ne by done.
  - intros m'. rewrite !find_modify by (apply H1 || apply H2). destruct (decide (m' = m)); [by split|done].
Qed.

Lemma remove_represents s T m c : represents s T -> represents (remove m c s) (delete (m, c) T).
Proof.
  intros [H1 H2 H3 H4 H5]. unfold remove. destruct (find m (modules_ s)) as [l|] eqn:E.
  - assert (Hg : forall {A} (l : list (bytes * list (bytes * A))) m' c', sorted2 l ->
              lookup2 m' c' (modify m (fun o => erase c (default [] o)) l) =
              if decide ((m', c') = (m, c)) then None else lookup2 m' c' l).
    { intros A k m' c' Hk. rewrite (lookup2_modify m c' (erase c)) by done. destruct (decide (m' = m)) as [->|Hm].
      - rewrite find_erase, inner_lookup.
        destruct (decide (c' = c)) as [->|Hc]; [by rewrite decide_True|]. rewrite decide_False; [done|congruence].
      - rewrite decide_False; [done|congruence]. }
    split; cbn [modules_ helps_].
    + apply (modify_sorted2 m (erase c)); [|done]. intros. by apply erase_sorted.
    + apply (modify_sorted2 m (erase c)); [|done]. intros. by apply erase_sorted.
    + intros m' c'. rewrite Hg by done. destruct (decide ((m', c') = (m, c))) as [E'|E'].
      * rewrite E'. by rewrite lookup_delete_eq.
      * by rewrite lookup_delete_ne by done.
    + intros m' c'. rewrite Hg by done. destruct (decide ((m', c') = (m, c))) as [E'|E'].
      * rewrite E'. by rewrite lookup_delete_eq.
      * by rewrite lookup_delete_ne by done.
    + intros m'. rewrite !find_modify by (apply H1 || apply H2). destruct (decide (m' = m)); [by split|done].
  - rewrite delete_id; [done|]. pose proof (H3 m c) as H. unfold lookup2 in H. rewrite E in H. cbn in H.
    by destruct (T !! (m, c)).
Qed.

Lemma entries_elem l m c h : sorted2 l -> (m, c, h) ∈ entries l <-> lookup2 m c l = Some h.
Proof.
  intros [Hs Hf]. unfold entries, lookup2. rewrite bind_Some, list_elem_of_In, in_concat. split.
  - intros (k & Hk & Hin). apply in_map_iff in Hk as ([m' l'] & <- & Hl). cbn in Hin.
    apply in_map_iff in Hin as ([c' h'] & [= -> -> ->] & Hc). exists l'. apply list_elem_of_In in Hl, Hc.
    split; [by apply find_elem|]. rewrite Forall_forall in Hf. by apply find_elem, Hc; apply (Hf (m, l')).
  - intros (l' & Hm & Hc). apply find_elem in Hm; [|done]. rewrite Forall_forall in Hf.
    apply find_elem in Hc; [|by apply (Hf (m, l'))]. exists (map (fun c => (m, c.1, c.2)) l'). split.
    + apply in_map_iff. exists (m, l'). split; [done|by apply list_elem_of_In].
    + apply in_map_iff. exists (c, h). split; [done|by apply list_elem_of_In].
Qed.

Lemma entries_sorted l : sorted2 l -> StronglySorted before (entries l).
Proof.
  intros [Hs Hf]. unfold entries. induction Hs as [|[m k] l Hs IH Hm]; [constructor|].
  apply Forall_cons in Hf as [Hk Hf]. cbn. apply StronglySorted_app. split_and!; [|clear -Hk|by apply IH].
  - intros p q Hp Hq. apply list_elem_of_In, in_map_iff in Hp as ([c h] & <- & _).
    apply list_elem_of_In, in_concat in Hq as (k' & Hk' & Hq). apply in_map_iff in Hk' as ([m' l'] & <- & Hl).
    apply in_map_iff in Hq as ([c' h'] & <- & _). left. cbn. rewrite Forall_forall in Hm.
    by apply (Hm (m', l')), list_elem_of_In.
  - cbn in Hk. induction Hk as [|[c h] k Hk IH Hc]; cbn; constructor; [done|].
    clear -Hc. induction Hc as [|q k Hq _ IH]; cbn; constructor; [|done]. by right.
Qed.

Lemma page_entries l :
  concat (map (fun m : bytes * list (bytes * bytes) => concat (map (fun c => help_line m.1 c.1 c.2) m.2)) l) =
  concat (map (fun e => help_line e.1.1 e.1.2 e.2) (entries l)).
Proof.
  unfold entries. induction l as [|[m k] l IH]; [done|]. cbn [map concat]. rewrite map_app, concat_app, IH, map_map. done.
Qed.

Lemma request_spec s T req resp : represents s T -> spec_step T (Request req resp) (Some (onRequest req resp s)) T.
Proof.
  intros [H1 H2 H3 H4 H5]. unfold onRequest. destruct (decide _) as [Hp|Hp].
  { apply spec_index; [done|]. exists (entries (helps_ s)). split_and!; [by apply entries_sorted| |apply page_entries].
    intros m c h. rewrite entries_elem, H4 by done. destruct (T !! (m, c)) as [[cb h']|]; cbn; naive_solver. }
  rewrite split_parts. destruct (parts (path_ req)) as [|m [|c args]] eqn:Hparts.
  - apply spec_unknown; [done|by rewrite Hparts|]. by rewrite Hparts.
  - destruct (decide (m = _)) as [->|Hm]; [by apply spec_icon|]. apply spec_unknown; [done| |by rewrite Hparts].
    rewrite Hparts. congruence.
  - specialize (H3 m c). unfold lookup2 in H3. assert (Hno : parts (path_ req) <> [str "favicon.ico"]) by (by rewrite Hparts).
    destruct (find m (modules_ s)) as [k|]; cbn in H3.
    + destruct (find c k) as [o|]; [|apply spec_unknown; [done..|]; rewrite Hparts; intros ? ? ? [= <- <- <-]; by destruct (T !! (m, c))].
      destruct (T !! (m, c)) as [[cb' h]|] eqn:E; [|done]. injection H3 as ->. destruct cb' as [cb|]; [by eapply spec_command|].
      apply spec_unknown; [done..|]. rewrite Hparts. intros ? ? ? [= <- <- <-] ? ? E'. rewrite E in E'. done.
    + apply spec_unknown; [done..|]. rewrite Hparts. intros ? ? ? [= <- <- <-]. by destruct (T !! (m, c)).
Qed.

(** C31.  The inspector, called by any number of threads in any interleaving,
    is one table of commands: the calls that have returned are, in the order in
    which they held the mutex, a run of the specification.  There [add] enters a
    command, [remove] takes it out, the page of the path [/] lists every command
    with its help, once, in the order of modules and commands, and any other
    path is cut at its slashes, whatever their number, and runs exactly the
    command of its first two parts with the others as arguments, or is not
    found. *)
Theorem inspector_refines n ls s :
  steps inspector_class (start new_Inspector (replicate n tt)) ls s ->
  exists T, spec_runs (history s) T /\ represents (shared s) T.
Proof.
  intros Hs. pose proof (monitor_serializable _ _ _ _ _ Hs) as Hr. clear Hs.
  remember new_Inspector as s0 eqn:E0. induction Hr as [sh|sh h sh1 t op r sh2 ns _ IH _ Hc].
  - subst sh. exists ∅. split; [constructor|]. split; cbn; try done; (split; constructor).
  - destruct (IH E0) as (T & Hruns & Hrep). destruct op as [m c cb hp|m c|req resp]; cbn in Hc; injection Hc as <- <- <-.
    + eexists. split; [econstructor; [exact Hruns|constructor]|by apply add_represents].
    + eexists. split; [econstructor; [exact Hruns|constructor]|by apply remove_represents].
    + exists T. split; [|done]. econstructor; [exact Hruns|by apply request_spec].
Qed.

Definition demo_request (path : bytes) : HttpRequest := new_HttpRequest <| path_ := path |>.
Definition echo : Callback := Some (fun _ args => concat args).
Definition demo_calls : list (label call unit) :=
  [LCall 0 (Add (str "sys") (str "echo") echo (str "print the arguments"));
   LCall 1 (Add (str "proc") (str "none") None (str "nothing"));
   LLock 1; LGo 1 []; LLock 0; LGo 0 [];
   LCall 1 (Request (demo_request (str "//sys/echo/a/b")) (new_HttpResponse true)); LLock 1; LGo 1 [];
   LCall 0 (Remove (str "proc") (str "none")); LLock 0; LGo 0 []].

Lemma inspector_refines_witness :
  exists s T, steps inspector_class (start new_Inspector (replicate 2 tt)) demo_calls s /\
    spec_runs (history s) T /\ length (history s) = 4%nat /\
    (body_ <$> (history s !! 2%nat ≫= snd)) = Some (str "ab") /\ T !! (str "sys", str "echo") = Some (echo, str "print the arguments").
Proof.
  destruct (run inspector_class demo_calls (start new_Inspector (replicate 2 tt))) as [s|] eqn:Hs; [|by vm_compute in Hs].
  assert (Hr := run_steps _ _ _ _ Hs). destruct (inspector_refines 2 demo_calls s Hr) as (T & HT & Hrep).
  exists s, T. split; [exact Hr|]. split; [exact HT|].
  pose proof (r_cb _ _ Hrep (str "sys") (str "echo")) as H1. pose proof (r_help _ _ Hrep (str "sys") (str "echo")) as H2.
  vm_compute in Hs. injection Hs as <-. split; [reflexivity|]. split; [vm_compute; reflexivity|].
  destruct (T !! (str "sys", str "echo")) as [[cb h]|]; [|vm_compute in H1; discriminate H1].
  cbn in H1, H2. injection H1 as <-. injection H2 as <-. reflexivity.
Defined.

End Inspector.
