(* ===== verification/ProcessInspector.v ===== *)
(** * Reports on the process
    ([muduo/net/inspect/ProcessInspector.cc], [muduo/base/ProcessInfo.cc])

    What the commands of the inspector read in the texts of [/proc]: keys of a
    status file, the name in front of the fields of a stat file, the fields
    themselves.  The contents of the files are arguments; so are the texts of
    numbers of type [double]. *)

From Stdlib Require Import Ascii.
From stdpp Require Import strings pretty sorting.
From S2P Require Import Prelude Http LogStream InetAddress Logging Inspector.
#[local] Open Scope Z_scope.
#[local] Open Scope outcome_scope.

Module ProcessInspector.
Import LogStream Inspector Logging(kMicroSecondsPerSecond, fmt_d, fmt_0d).

(** ** The C library *)

(** [std::string::find] of a text. *)
Fixpoint is_prefix (key s : bytes) : bool :=
  match key, s with
  | [], _ => true
  | x :: key, y :: s => bool_decide (x = y) && is_prefix key s
  | _, [] => false
  end.
Fixpoint find_text (key s : bytes) : option nat :=
  if is_prefix key s then Some O
  else match s with [] => None | _ :: s => S <$> find_text key s end.

(** [strtol] in base 10, which saturates, and [atol], [atoi]: white space, a
    sign, digits. *)
Definition is_digit (c : byte) : bool := (48 <=? b2z c) && (b2z c <=? 57).
Fixpoint skip_space (s : bytes) : bytes :=
  match s with c :: s' => if isspace c then skip_space s' else s | [] => [] end.
Fixpoint digits_value (acc : Z) (s : bytes) : Z :=
  match s with c :: s' => if is_digit c then digits_value (10 * acc + (b2z c - 48)) s' else acc | [] => acc end.
Definition saturate (v : Z) : Z := Z.max (-9223372036854775808) (Z.min 9223372036854775807 v).
Definition strtol (s : bytes) : Z :=
  match skip_space s with
  | c :: s' =>
      if decide (c = z2b 45) then saturate (- digits_value 0 s')
      else if decide (c = z2b 43) then saturate (digits_value 0 s')
      else saturate (digits_value 0 (c :: s'))
  | [] => 0
  end.
Definition atoi (s : bytes) : Z := s32 (strtol s).

(** ** [ProcessInfo] *)

(** The place and the length of the name; [None] is the empty [StringPiece],
    whose pointer is null. *)
Definition find_first (c : byte) (s : bytes) : option nat := fst <$> list_find (fun x => x = c) s.
Definition find_last (c : byte) (s : bytes) : option nat :=
  (fun p => length s - 1 - p.1)%nat <$> list_find (fun x => x = c) (reverse s).
Definition procname (stat : bytes) : option (nat * nat) :=
  match find_first (z2b 40) stat, find_last (z2b 41) stat with
  | Some lp, Some rp => if (lp <? rp)%nat then Some (lp + 1, rp - lp - 1)%nat else None
  | _, _ => None
  end.

Definition numThreads (status : bytes) : Z :=
  match find_text (str "Threads:") status with Some pos => atoi (drop (pos + 8) status) | None => 0 end.

(** The names of the entries of a directory. *)
Definition digit_name (d : bytes) : bool := match d with c :: _ => is_digit c | [] => false end.
Definition openedFiles (entries : list bytes) : Z := Z.of_nat (length (List.filter digit_name entries)).
Definition threads (entries : list bytes) : list Z := merge_sort Z.le (map atoi (List.filter digit_name entries)).

(** ** Texts of the inspector *)

Definition uptime (now start : Z) (showMicroseconds : bool) : bytes :=
  let age := now - start in
  let seconds := s32 (age ÷ kMicroSecondsPerSecond) in
  let days := seconds ÷ 86400 in
  let hours := Z.rem seconds 86400 ÷ 3600 in
  let minutes := Z.rem seconds 3600 ÷ 60 in
  let text := str (pretty days) ++ str " days " ++ fmt_0d 2 hours ++ str ":" ++ fmt_0d 2 minutes ++ str ":" ++
              fmt_0d 2 (Z.rem seconds 60) in
  if showMicroseconds
  then snprintf 256 (text ++ str "." ++ fmt_0d 6 (s32 (Z.rem age kMicroSecondsPerSecond)))
  else snprintf 256 text.

Definition getLong (procStatus key : bytes) : Z :=
  match find_text key procStatus with
  | Some pos => strtol (drop (pos + length key) procStatus)
  | None => 0
  end.

(** [s[pos]]: the character after the last is a zero, further ones do not
    exist. *)
Definition char_at (s : bytes) (pos : nat) : outcome byte :=
  match s !! pos with
  | Some c => Ok c
  | None => if decide (pos = length s) then Ok (z2b 0) else Crash OutOfBounds
  end.
Fixpoint skip_while (fuel : nat) (p : byte -> bool) (s : bytes) (pos : nat) : outcome nat :=
  match fuel with
  | O => Ok pos
  | S fuel => let* c := char_at s pos in if p c then skip_while fuel p s (S pos) else Ok pos
  end.
Definition getProcessName (procStatus : bytes) : outcome bytes :=
  match find_text (str "Name:") procStatus with
  | Some pos =>
      let fuel := (length procStatus + 2)%nat in
      let* pos := skip_while fuel (fun c => bool_decide (c = z2b 9)) procStatus (pos + 5) in
      let* eol := skip_while fuel (fun c => bool_decide (c <> z2b 10)) procStatus pos in
      Ok (take (eol - pos) (drop pos procStatus))
  | None => Ok []
  end.

(** What follows the next blank. *)
Fixpoint next (data : bytes) : bytes :=
  match data with c :: data => if decide (c = SP) then data else next data | [] => [] end.
(** The clock ticks in user and in system mode. *)
Definition getCpuTime (data : bytes) : Z * Z :=
  let data := Nat.iter 10 next data in
  (strtol data, strtol (next data)).

(** One thread's stat file: name, state, and ticks. *)
Definition stat_fields (stat : bytes) : outcome (bytes * byte * (Z * Z)) :=
  match procname stat with
  | None => Crash NullDeref
  | Some (start, len) =>
      let rp := (start + len)%nat in
      let* c := char_at stat rp in
      let* _ := assert_ (bool_decide (c = z2b 41)) in
      let state := (rp + 2)%nat in
      if (length stat <? state + 2)%nat then Crash OutOfBounds
      else
        let* st := char_at stat state in
        Ok (take len (drop start stat), st, getCpuTime (drop (state + 2) stat))
  end.

(** The line of a thread: ["%5d %-16s %c %12.3f %12.3f\n"].  The name ends at the
    zero that the code writes over the parenthesis, or earlier. *)
Fixpoint c_string (s : bytes) : bytes :=
  match s with c :: s => if b2z c =? 0 then [] else c :: c_string s | [] => [] end.
Definition pad_right (width : nat) (s : bytes) : bytes := s ++ replicate (width - length s) SP.
Definition thread_line (seconds : Z -> bytes) (tid : Z) (stat : bytes) : outcome bytes :=
  let* f := stat_fields stat in
  let '(name, state, (utime, stime)) := f in
  Ok (snprintf 256 (fmt_d 5 tid ++ str " " ++ pad_right 16 (c_string name) ++ str " " ++ [state] ++ str " " ++
        seconds utime ++ str " " ++ seconds stime ++ [z2b 10])).
(** Threads whose file could not be read are left out. *)
Fixpoint threads_page (seconds : Z -> bytes) (l : list (Z * option bytes)) : outcome bytes :=
  match l with
  | [] => Ok []
  | (tid, stat) :: l =>
      let* line := match stat with Some stat => thread_line seconds tid stat | None => Ok [] end in
      let* rest := threads_page seconds l in
      Ok (line ++ rest)
  end.
Definition threads_report (seconds : Z -> bytes) (l : list (Z * option bytes)) : outcome bytes :=
  let* page := threads_page seconds l in
  Ok (str "  TID NAME             S    User Time  System Time" ++ [z2b 10] ++ page).

(** ** The commands of an inspector *)

Record Commands := Commands_ {
  p_overview : Callback; p_pid : Callback; p_procStatus : Callback; p_threads : Callback;
  s_overview : Callback; s_loadavg : Callback; s_version : Callback; s_cpuinfo : Callback;
  s_meminfo : Callback; s_stat : Callback
}.
Definition process_registerCommands (k : Commands) (ins : Inspector) : Inspector :=
  let ins := add (str "proc") (str "overview") (p_overview k) (str "print basic overview") ins in
  let ins := add (str "proc") (str "pid") (p_pid k) (str "print pid") ins in
  let ins := add (str "proc") (str "status") (p_procStatus k) (str "print /proc/self/status") ins in
  add (str "proc") (str "threads") (p_threads k) (str "list /proc/self/task") ins.
Definition system_registerCommands (k : Commands) (ins : Inspector) : Inspector :=
  let ins := add (str "sys") (str "overview") (s_overview k) (str "print system overview") ins in
  let ins := add (str "sys") (str "loadavg") (s_loadavg k) (str "print /proc/loadavg") ins in
  let ins := add (str "sys") (str "version") (s_version k) (str "print /proc/version") ins in
  let ins := add (str "sys") (str "cpuinfo") (s_cpuinfo k) (str "print /proc/cpuinfo") ins in
  let ins := add (str "sys") (str "meminfo") (s_meminfo k) (str "print /proc/meminfo") ins in
  add (str "sys") (str "stat") (s_stat k) (str "print /proc/stat") ins.
(** The constructor; the commands of the performance inspector need a library
    the build does not have. *)
Definition init_Inspector (k : Commands) : Inspector :=
  system_registerCommands k (process_registerCommands k new_Inspector).

Example stat_demo :
  stat_fields (str "17 (a) b) S 1 17 17 0 -1 4194560 1 2 3 4 120 35 0 0 20 0") = Ok (str "a) b", z2b 83, (120, 35)).
Proof. vm_compute. reflexivity. Qed.

(** ** Numbers *)

Lemma digit_char d : (d < 10)%N ->
  is_digit (byte_of_ascii (pretty_N_char d)) = true /\ b2z (byte_of_ascii (pretty_N_char d)) - 48 = Z.of_N d.
Proof.
  intros H. assert (Hd : In d [0;1;2;3;4;5;6;7;8;9]%N) by (cbn; lia).
  revert Hd. generalize d. apply List.Forall_forall. repeat constructor; vm_compute; done.
Qed.

Lemma digits_value_go n s : digits_value 0 (str (pretty_N_go n s)) = digits_value (Z.of_N n) (str s).
Proof.
  revert s. induction (N.lt_wf_0 n) as [n _ IH]. intros s. destruct (decide (n = 0%N)) as [->|Hn]; [by rewrite pretty_N_go_0|].
  rewrite pretty_N_go_step by lia. rewrite IH by (apply N.div_lt; lia). rewrite str_cons. cbn [digits_value].
  destruct (digit_char (n `mod` 10)) as [Hd Hv]; [apply N.mod_lt; lia|]. rewrite Hd, Hv. f_equal.
  pose proof (N.div_mod n 10 ltac:(lia)). lia.
Qed.

Lemma digits_go n s : Forall (fun c => is_digit c = true) (str s) -> Forall (fun c => is_digit c = true) (str (pretty_N_go n s)).
Proof.
  revert s. induction (N.lt_wf_0 n) as [n _ IH]. intros s Hs. destruct (decide (n = 0%N)) as [->|Hn]; [by rewrite pretty_N_go_0|].
  rewrite pretty_N_go_step by lia. apply IH; [apply N.div_lt; lia|]. rewrite str_cons. constructor; [|done].
  apply digit_char, N.mod_lt. lia.
Qed.

Definition not_digit (r : bytes) : Prop := match r with c :: _ => is_digit c = false | [] => True end.

Lemma digits_value_app acc l r :
  Forall (fun c => is_digit c = true) l -> not_digit r -> digits_value acc (l ++ r) = digits_value acc l.
Proof.
  intros Hl Hr. revert acc. induction Hl as [|c l Hc _ IH]; intros acc; cbn.
  - destruct r as [|c r]; [done|]. cbn in *. by rewrite Hr.
  - rewrite Hc. apply IH.
Qed.

(** The decimal notation of a natural number: digits, at least one, with its
    value. *)
Lemma natural_text v : 0 <= v ->
  exists c l, str (pretty v) = c :: l /\ Forall (fun c => is_digit c = true) (c :: l) /\ digits_value 0 (c :: l) = v.
Proof.
  intros Hv. assert (E : pretty v = pretty (Z.to_N v)) by (destruct v; [done..|lia]). rewrite E. unfold pretty, pretty_N.
  destruct (decide (Z.to_N v = 0%N)) as [H0|H0].
  { assert (v = 0) as -> by lia. exists (z2b 48), []. split; [done|]. split; [by repeat constructor|done]. }
  pose proof (digits_go (Z.to_N v) "" ltac:(constructor)) as Hd. pose proof (digits_value_go (Z.to_N v) "") as Hval.
  rewrite Z2N.id in Hval by lia. change (digits_value v (str "")) with v in Hval.
  destruct (str (pretty_N_go (Z.to_N v) "")) as [|c l]; [cbn in Hval; lia|]. by exists c, l.
Qed.

Lemma digit_plain c : is_digit c = true -> isspace c = false /\ c <> SP /\ c <> z2b 45 /\ c <> z2b 43 /\ c <> z2b 41.
Proof.
  unfold is_digit, isspace. rewrite andb_true_iff, !Z.leb_le. intros Hc. split.
  - rewrite orb_false_iff, andb_false_iff, Z.eqb_neq, !Z.leb_gt. lia.
  - repeat split; intros ->; vm_compute in Hc; intuition congruence.
Qed.

(** Numbers as the kernel prints them are read back, and skipped. *)
Definition is_long (v : Z) : Prop := -9223372036854775808 <= v < 9223372036854775808.

Lemma number_text v :
  exists c l, str (pretty v) = c :: l /\ SP ∉ c :: l /\ z2b 41 ∉ c :: l /\ isspace c = false /\
    forall r, is_long v -> not_digit r -> strtol (str (pretty v) ++ r) = v.
Proof.
  assert (Hno : forall l x, Forall (fun c => is_digit c = true) l -> is_digit x = false -> x ∉ l).
  { intros l x Hl Hx Hin. rewrite Forall_forall in Hl. rewrite (Hl x Hin) in Hx. done. }
  destruct (Z_lt_le_dec v 0) as [Hv|Hv].
  - destruct (natural_text (- v) ltac:(lia)) as (c & l & E & Hd & Hval).
    assert (Ev : str (pretty v) = z2b 45 :: c :: l).
    { rewrite <- E. destruct v as [|p|p]; [lia..|]. done. }
    exists (z2b 45), (c :: l). rewrite Ev. split; [done|].
    split; [rewrite not_elem_of_cons; split; [done|by apply Hno]|].
    split; [rewrite not_elem_of_cons; split; [done|by apply Hno]|]. split; [done|]. intros r Hl Hr. unfold strtol.
    cbn [app skip_space]. change (isspace (z2b 45)) with false. cbn iota. rewrite decide_True by done.
    rewrite (app_comm_cons l r c), digits_value_app, Hval by done. unfold saturate, is_long in *. lia.
  - destruct (natural_text v Hv) as (c & l & E & Hd & Hval). pose proof (Forall_inv Hd) as Hc.
    apply digit_plain in Hc as (H1 & H2 & H3 & H4 & H5). exists c, l. rewrite E. split; [done|].
    split; [by apply Hno|]. split; [by apply Hno|]. split; [done|]. intros r Hl Hr. unfold strtol.
    cbn [app skip_space]. rewrite H1, !decide_False by done. rewrite (app_comm_cons l r c), digits_value_app, Hval by done.
    unfold saturate, is_long in *. lia.
Qed.

Lemma next_skip l r : SP ∉ l -> next (l ++ [SP] ++ r) = r.
Proof.
  induction l as [|c l IH]; cbn; [by rewrite decide_True|]. rewrite not_elem_of_cons. intros [Hc Hl].
  rewrite decide_False by done. by apply IH.
Qed.

(** ** The stat file of a thread *)

Definition print_number (v : Z) : bytes := str (pretty v) ++ [SP].
Definition print_numbers (l : list Z) : bytes := concat (map print_number l).
(** [fields]: from the parent's id to the last count of faults. *)
Definition print_stat (pid : Z) (name : bytes) (state : byte) (fields : list Z) (utime stime : Z) (rest : list Z) : bytes :=
  str (pretty pid) ++ str " (" ++ name ++ str ") " ++ [state; SP] ++ print_numbers fields ++
  print_number utime ++ print_number stime ++ print_numbers rest.

Lemma next_numbers l r : Nat.iter (length l) next (print_numbers l ++ r) = r.
Proof.
  revert r. induction l as [|v l IH]; intros r; [done|]. cbn [length]. rewrite Nat.iter_succ_r.
  unfold print_numbers, print_number. cbn [map concat]. destruct (number_text v) as (c & k & E & Hsp & _).
  rewrite E, <- !app_assoc. rewrite (next_skip (c :: k)) by done. apply IH.
Qed.

Lemma find_first_app c l r : c ∉ l -> find_first c (l ++ c :: r) = Some (length l).
Proof.
  intros Hl. unfold find_first. induction l as [|x l IH]; cbn; [by rewrite decide_True|].
  rewrite not_elem_of_cons in Hl. destruct Hl as [Hx Hl]. rewrite decide_False by done. specialize (IH Hl).
  destruct (list_find _ (l ++ c :: r)) as [[i y]|]; [|done]. cbn in *. by injection IH as ->.
Qed.
Lemma find_last_app c l r : c ∉ r -> find_last c (l ++ c :: r) = Some (length l).
Proof.
  intros Hr. unfold find_last. rewrite reverse_app, reverse_cons, <- app_assoc. cbn [app].
  pose proof (find_first_app c (reverse r) (reverse l)) as H. unfold find_first in H. rewrite elem_of_reverse in H.
  specialize (H Hr). destruct (list_find _ _) as [[i y]|]; [|done]. cbn in *. injection H as ->.
  f_equal. rewrite length_app, length_reverse. cbn. lia.
Qed.

Lemma numbers_plain l : z2b 41 ∉ print_numbers l.
Proof.
  unfold print_numbers. induction l as [|v l IH]; [apply not_elem_of_nil|]. cbn [map concat]. unfold print_number.
  rewrite !not_elem_of_app. destruct (number_text v) as (c & k & E & _ & H & _). rewrite E.
  split; [split; [done|by intros [?|?%elem_of_nil]%elem_of_cons]|exact IH].
Qed.

(** The stat file of a thread is read as the kernel prints it, whatever is in
    the name, parentheses and blanks included. *)
Theorem stat_roundtrip pid name state fields utime stime rest :
  0 <= pid -> state <> z2b 41 -> length fields = 10%nat -> is_long utime -> is_long stime ->
  stat_fields (print_stat pid name state fields utime stime rest) = Ok (name, state, (utime, stime)).
Proof.
  intros Hpid Hst Hf Hu Hs. set (tail := print_numbers fields ++ print_number utime ++ print_number stime ++ print_numbers rest).
  set (pre := str (pretty pid) ++ [SP]).
  assert (E : print_stat pid name state fields utime stime rest = pre ++ z2b 40 :: name ++ z2b 41 :: SP :: state :: SP :: tail).
  { unfold print_stat, pre. rewrite <- app_assoc. done. }
  assert (Htail : z2b 41 ∉ SP :: state :: SP :: tail).
  { assert (Ht : tail = print_numbers (fields ++ utime :: stime :: rest)).
    { unfold tail, print_numbers. rewrite map_app, concat_app. done. }
    rewrite Ht, !not_elem_of_cons. split_and!; [done|done|done|apply numbers_plain]. }
  assert (Hpre : z2b 40 ∉ pre).
  { unfold pre. destruct (natural_text pid Hpid) as (c & l & -> & Hd & _). rewrite not_elem_of_app. split.
    - intros Hin. rewrite Forall_forall in Hd. by specialize (Hd _ Hin).
    - by intros [?|?%elem_of_nil]%elem_of_cons. }
  assert (Hlast : find_last (z2b 41) (pre ++ z2b 40 :: name ++ z2b 41 :: SP :: state :: SP :: tail) = Some (length pre + 1 + length name)%nat).
  { replace (pre ++ z2b 40 :: name ++ z2b 41 :: SP :: state :: SP :: tail)
      with ((pre ++ z2b 40 :: name) ++ z2b 41 :: SP :: state :: SP :: tail) by (by rewrite <- app_assoc).
    rewrite find_last_app by done. f_equal. rewrite length_app. cbn. lia. }
  unfold stat_fields, procname. rewrite E, (find_first_app (z2b 40) pre) by done. rewrite Hlast.
  set (s := pre ++ _). set (n := length pre) in *.
  assert (Hat : forall i x, drop (n + 1 + length name) s !! i = Some x -> char_at s (n + 1 + length name + i) = Ok x).
  { intros i x Hx. rewrite lookup_drop in Hx. unfold char_at. by rewrite Hx. }
  assert (Hdrop : drop (n + 1) s = name ++ z2b 41 :: SP :: state :: SP :: tail).
  { unfold s. rewrite drop_app_ge by lia. fold n. replace (n + 1 - n)%nat with 1%nat by lia. done. }
  assert (Hdrop2 : drop (n + 1 + length name) s = z2b 41 :: SP :: state :: SP :: tail).
  { rewrite <- drop_drop, Hdrop. apply drop_app_length. }
  rewrite (proj2 (Nat.ltb_lt _ _)) by lia. replace (n + 1 + length name - n - 1)%nat with (length name) by lia.
  pose proof (Hat 0%nat (z2b 41) ltac:(by rewrite Hdrop2)) as H0. rewrite Nat.add_0_r in H0. rewrite H0. cbn [bind].
  rewrite bool_decide_true by done. cbn [bind assert_].
  assert (Hlen : (n + 1 + length name + 4 <= length s)%nat).
  { pose proof (length_drop s (n + 1 + length name)) as H. rewrite Hdrop2 in H. cbn in H. lia. }
  rewrite (proj2 (Nat.ltb_ge _ _)) by lia. rewrite (Hat 2%nat state) by (by rewrite Hdrop2). cbn [bind].
  rewrite Hdrop, take_app_length. do 2 f_equal.
  replace (n + 1 + length name + 2 + 2)%nat with (n + 1 + length name + 4)%nat by lia.
  rewrite <- drop_drop, Hdrop2. cbn [drop]. unfold getCpuTime, tail. rewrite drop_0, <- Hf, next_numbers. unfold print_number.
  destruct (number_text utime) as (cu & lu & Eu & Hspu & _ & _ & Hvu).
  destruct (number_text stime) as (cs & ls & Es & Hsps & _ & _ & Hvs).
  rewrite <- !app_assoc. f_equal; [by apply Hvu|]. rewrite Eu at 1. rewrite (next_skip (cu :: lu)) by done. by apply Hvs.
Qed.

Lemma stat_roundtrip_witness :
  stat_fields (print_stat 17 (str "a) (b") (z2b 83) [1; 17; 17; 0; -1; 4194560; 1; 2; 3; 4] 120 35 [0; 20]) =
    Ok (str "a) (b", z2b 83, (120, 35)).
Proof. apply (stat_roundtrip 17 (str "a) (b") (z2b 83) [1; 17; 17; 0; -1; 4194560; 1; 2; 3; 4] 120 35 [0; 20]); done || lia. Defined.

(** ** The table of a new inspector *)

(** Exactly the commands of the two classes are found, each with its help. *)
Lemma commands_listed k :
  map (fun e => (e.1.1, e.1.2)) (entries (helps_ (init_Inspector k))) =
  [(str "proc", str "overview"); (str "proc", str "pid"); (str "proc", str "status"); (str "proc", str "threads");
   (str "sys", str "cpuinfo"); (str "sys", str "loadavg"); (str "sys", str "meminfo"); (str "sys", str "overview");
   (str "sys", str "stat"); (str "sys", str "version")].
Proof. vm_compute. reflexivity. Qed.

(** ** Misread status files *)

(** The first occurrence of the key counts, even one in the name of the
    process. *)
Lemma threads_spoofed :
  numThreads (str "Name:	Threads:99" ++ [z2b 10] ++ str "Threads:	3" ++ [z2b 10]) = 99.
Proof. vm_compute. reflexivity. Qed.

(** Without a newline after the name the search runs off the end. *)
Lemma name_without_newline : getProcessName (str "Name:	init") = Crash OutOfBounds.
Proof. vm_compute. reflexivity. Qed.

End ProcessInspector.
