(* ===== verification/TcpServer.v ===== *)
(** * TCP servers ([muduo/net/Acceptor.cc], [EventLoopThreadPool.cc],
      [TcpServer.cc])

    A server accepts on its base loop and gives every connection to one of the
    loops of a pool.  What it holds of a connection is the life of the object
    ([TcpConnection.v] has the rest): its phase, its loop, and the calls about it
    that are posted to a loop.  Loops are numbered, 0 is the base loop; a loop
    runs the functors posted to it in order, and the loops interleave freely. *)

From stdpp Require Import strings pretty.
From S2P Require Import Prelude Effects Channel LogStream InetAddress.
#[local] Open Scope Z_scope.
#[local] Open Scope handler_scope.

(** ** Acceptor *)

Module Acceptor.

Definition EPERM : Z := 1.
Definition EINTR : Z := 4.
Definition EAGAIN : Z := 11.
Definition EMFILE : Z := 24.
Definition EPROTO : Z := 71.
Definition ECONNABORTED : Z := 103.

Record Acceptor := Acceptor_ {
  acceptSocket_ : Z;
  acceptChannel_ : Channel;
  newConnectionCallback_ : bool;       (* whether it is set *)
  listenning_ : bool;
  idleFd_ : Z
}.

Inductive act :=
  | Listen (fd : Z)
  | UpdateChannel (events : Z)
  | RemoveChannel
  | NewConnection (fd : Z)
  | Close (fd : Z).

Abbreviation H A := (M Acceptor act A).

Definition chan_of (a : Acceptor) : option Channel := Some (acceptChannel_ a).
Definition put_chan (c : Channel) (a : Acceptor) : Acceptor :=
  Acceptor_ (acceptSocket_ a) c (newConnectionCallback_ a) (listenning_ a) (idleFd_ a).
Definition set_listenning (a : Acceptor) : Acceptor :=
  Acceptor_ (acceptSocket_ a) (acceptChannel_ a) (newConnectionCallback_ a) true (idleFd_ a).
Definition set_idleFd (fd : Z) (a : Acceptor) : Acceptor :=
  Acceptor_ (acceptSocket_ a) (acceptChannel_ a) (newConnectionCallback_ a) (listenning_ a) fd.
Definition loop_update : H unit :=
  do ev <- ask_channel chan_of put_chan events_; emit (UpdateChannel ev).
Definition loop_remove : H unit := emit RemoveChannel.

(** [sockets::createNonblockingOrDie] and [bindOrDie] end the process when the
    system call fails. *)
Definition orDie (ret : Z) : outcome Z := if ret <? 0 then Crash Aborted else Ok ret.

(** The constructor; the answers of [socket], [open] and [bind]. *)
Definition new_Acceptor (sock idle bound : Z) (cb : bool) : outcome Acceptor :=
  bind (orDie sock) (fun fd =>
  bind (assert_ (0 <=? idle)) (fun _ =>
  bind (orDie bound) (fun _ => Ok (Acceptor_ fd (new_Channel fd) cb false idle)))).

(** The destructor; the descriptor of [acceptSocket_] is closed after it. *)
Definition delete_Acceptor : H unit :=
  do _ <- disableAll chan_of put_chan loop_update;
  do _ <- remove chan_of put_chan loop_remove;
  do fd <- mget idleFd_;
  do _ <- emit (Close fd);
  do ch <- mget acceptChannel_;
  do _ <- lift (delete_Channel ch);
  do sock <- mget acceptSocket_;
  emit (Close sock).

Definition listen (listened : Z) : H unit :=
  do _ <- mmod set_listenning;
  do fd <- mget acceptSocket_;
  do _ <- lift (orDie listened);
  do _ <- emit (Listen fd);
  enableReading chan_of put_chan loop_update.

(** [sockets::accept]: [ret] and [errno] of [accept4]; an unexpected error is
    fatal.  The result is the descriptor or -1. *)
Definition sockets_accept (ret errno : Z) : outcome Z :=
  if ret <? 0 then
    if bool_decide (errno ∈ [EAGAIN; ECONNABORTED; EINTR; EPROTO; EPERM; EMFILE]) then Ok (-1)
    else Crash Aborted
  else Ok ret.

(** [ret2] is the answer of the second [accept], [idle] that of [open]. *)
Definition handleRead (ret errno ret2 idle : Z) : H unit :=
  do connfd <- lift (sockets_accept ret errno);
  if 0 <=? connfd then
    do cb <- mget newConnectionCallback_;
    if cb : bool then emit (NewConnection connfd) else emit (Close connfd)
  else if errno =? EMFILE then
    do fd <- mget idleFd_;
    do _ <- emit (Close fd);
    do _ <- mmod (set_idleFd ret2);
    do fd <- mget idleFd_;
    do _ <- emit (Close fd);
    mmod (set_idleFd idle)
  else mret tt.

(** Without descriptors, the spare one is given up to take the connection from
    the queue of the kernel, which is closed at once, and taken back. *)
Lemma handleRead_emfile ret ret2 idle a :
  ret < 0 ->
  handleRead ret EMFILE ret2 idle a = Ok (tt, set_idleFd idle a, [Close (idleFd_ a); Close ret2]).
Proof.
  intros Hr. unfold handleRead, sockets_accept. rewrite (proj2 (Z.ltb_lt _ _) Hr). by destruct a.
Qed.

Lemma handleRead_accepts fd errno ret2 idle a :
  0 <= fd ->
  handleRead fd errno ret2 idle a =
    Ok (tt, a, [if newConnectionCallback_ a then NewConnection fd else Close fd]).
Proof.
  intros Hf. unfold handleRead, sockets_accept. rewrite (proj2 (Z.ltb_ge _ _) Hf).
  destruct a as [s ch [|] l i]; cbn -[Z.leb]; by rewrite (proj2 (Z.leb_le _ _) Hf).
Qed.

(** Deleting it takes the channel off the loop and closes both descriptors. *)
Lemma delete_Acceptor_spec a :
  eventHandling_ (acceptChannel_ a) = false ->
  exists a', delete_Acceptor a =
    Ok (tt, a', [UpdateChannel 0; RemoveChannel; Close (idleFd_ a); Close (acceptSocket_ a)]).
Proof. destruct a as [s [] cb l i]. cbn. intros ->. by eexists. Qed.
End Acceptor.

(** ** Pool of loops *)

Module EventLoopThreadPool.

(** [loops_] has the loops of the threads that were started, by number. *)
Record Pool := Pool_ {
  started_ : bool;
  numThreads_ : Z;
  next_ : Z;
  loops_ : list nat
}.
Definition baseLoop_ : nat := 0.
Definition new_Pool : Pool := Pool_ false 0 0 [].
Definition setThreadNum (numThreads : Z) (p : Pool) : Pool :=
  Pool_ (started_ p) numThreads (next_ p) (loops_ p).

(** [startLoop] returns when the thread [i] runs its loop ([EventLoopThread.v]). *)
Definition start (p : Pool) : outcome Pool :=
  bind (assert_ (negb (started_ p))) (fun _ =>
    Ok (Pool_ true (numThreads_ p) (next_ p) (loops_ p ++ seq 1 (Z.to_nat (numThreads_ p))))).

Definition getNextLoop (p : Pool) : outcome (nat * Pool) :=
  bind (assert_ (started_ p)) (fun _ =>
    match loops_ p with
    | [] => Ok (baseLoop_, p)
    | _ =>
        match loops_ p !! Z.to_nat (next_ p) with
        | Some loop =>
            bind (chk32 (next_ p + 1)) (fun next =>
              Ok (loop, Pool_ (started_ p) (numThreads_ p)
                          (if Z.of_nat (length (loops_ p)) <=? next then 0 else next) (loops_ p)))
        | None => Crash OutOfBounds
        end
    end).

Definition getLoopForHash (hashCode : Z) (p : Pool) : outcome nat :=
  match loops_ p with
  | [] => Ok baseLoop_
  | _ =>
      match loops_ p !! Z.to_nat (hashCode mod Z.of_nat (length (loops_ p))) with
      | Some loop => Ok loop
      | None => Crash OutOfBounds
      end
  end.

Definition getAllLoops (p : Pool) : outcome (list nat) :=
  bind (assert_ (started_ p)) (fun _ =>
    Ok (match loops_ p with [] => [baseLoop_] | _ => loops_ p end)).

(** A pool that [start] made; the threads are counted by an [int]. *)
Definition pool_wf (p : Pool) : Prop :=
  started_ p = true /\ Z.of_nat (length (loops_ p)) < 2147483648 /\
  (loops_ p <> [] -> 0 <= next_ p < Z.of_nat (length (loops_ p))).

Definition all_loops (p : Pool) : list nat := match loops_ p with [] => [baseLoop_] | _ => loops_ p end.

Lemma start_spec n : 0 <= n < 2147483648 ->
  exists p, start (setThreadNum n new_Pool) = Ok p /\ pool_wf p /\ loops_ p = seq 1 (Z.to_nat n) /\ next_ p = 0.
Proof.
  intros Hn. eexists. split; [done|]. unfold pool_wf. cbn [loops_ started_ next_ setThreadNum new_Pool numThreads_ app].
  rewrite length_seq. split_and!; try done; try lia. intros Hl. destruct (Z.to_nat n) eqn:E; [done|lia].
Qed.

Lemma getNextLoop_spec p : pool_wf p ->
  exists l p', getNextLoop p = Ok (l, p') /\ pool_wf p' /\ loops_ p' = loops_ p /\
    all_loops p !! Z.to_nat (next_ p `mod` Z.of_nat (length (all_loops p))) = Some l /\
    (loops_ p <> [] -> next_ p' = (next_ p + 1) `mod` Z.of_nat (length (loops_ p))).
Proof.
  intros (Hs & Hl & Hn). unfold getNextLoop, all_loops. rewrite Hs. cbn [assert_ bind].
  destruct (loops_ p) as [|l0 ls] eqn:E.
  { exists baseLoop_, p. split_and!; try done; [by unfold pool_wf; rewrite E|cbn; by rewrite Z.mod_1_r]. }
  specialize (Hn ltac:(done)).
  destruct (lookup_lt_is_Some_2 (l0 :: ls) (Z.to_nat (next_ p))) as [l Hx]; [lia|]. rewrite Hx.
  rewrite chk32_ok by lia. cbn [bind]. eexists _, _. split; [done|].
  cbn [loops_ next_]. set (n := Z.of_nat (length (l0 :: ls))) in *.
  split; [split; [done|split; [done|cbn [loops_ next_]; fold n; intros _; bdestruct (n <=? next_ p + 1); lia]]|].
  split; [done|]. split; [by rewrite Z.mod_small|].
  intros _. bdestruct (n <=? next_ p + 1).
  - replace (next_ p + 1) with n by lia. by rewrite Z.mod_same by lia.
  - by rewrite Z.mod_small by lia.
Qed.

(** [k] connections in a row. *)
Fixpoint getLoops (k : nat) (p : Pool) : outcome (list nat * Pool) :=
  match k with
  | O => Ok ([], p)
  | S k => bind (getNextLoop p) (fun r => bind (getLoops k r.2) (fun q => Ok (r.1 :: q.1, q.2)))
  end.

Lemma getLoops_spec k : forall p, pool_wf p ->
  exists ls p', getLoops k p = Ok (ls, p') /\ pool_wf p' /\ loops_ p' = loops_ p /\ length ls = k /\
    forall i, (i < k)%nat ->
      ls !! i = all_loops p !! Z.to_nat ((next_ p + Z.of_nat i) `mod` Z.of_nat (length (all_loops p))).
Proof.
  induction k as [|k IH]; intros p Hp; [exists [], p; split_and!; try done; lia|].
  destruct (getNextLoop_spec p Hp) as (l & p1 & E1 & Hp1 & Hl1 & Hx & Hn1).
  destruct (IH p1 Hp1) as (ls & p2 & E2 & Hp2 & Hl2 & Hlen & Hi).
  exists (l :: ls), p2. cbn [getLoops]. rewrite E1. cbn [bind fst snd]. rewrite E2. cbn [bind fst snd].
  assert (Ha : all_loops p1 = all_loops p) by (unfold all_loops; by rewrite Hl1).
  split; [done|]. split; [done|]. split; [congruence|]. split; [cbn; lia|].
  intros [|i] Hlt; [by rewrite Z.add_0_r, Hx|]. cbn. rewrite Hi, Ha by lia. f_equal. f_equal.
  destruct (decide (loops_ p = [])) as [E|E].
  - unfold all_loops. rewrite E. cbn. by rewrite !Z.mod_1_r.
  - rewrite (Hn1 E). replace (all_loops p) with (loops_ p) by (unfold all_loops; by destruct (loops_ p)).
    rewrite Zplus_mod_idemp_l. f_equal. lia.
Qed.

(** A server with [n] threads gives its connections to them in turn: the
    one numbered [i] from 0 to thread [i mod n], so no two threads ever differ by
    more than one connection; without threads all go to the base loop. *)
Theorem round_robin n k :
  0 <= n < 2147483648 ->
  exists p ls p', start (setThreadNum n new_Pool) = Ok p /\ getLoops k p = Ok (ls, p') /\
    ls = map (fun i => if n =? 0 then 0%nat else S (i `mod` Z.to_nat n)) (seq 0 k).
Proof.
  intros Hn. destruct (start_spec n Hn) as (p & Hp & Hw & Hl & H0).
  destruct (getLoops_spec k p Hw) as (ls & p' & Hg & _ & _ & Hk & Hi).
  exists p, ls, p'. split; [done|]. split; [done|]. apply list_eq_same_length with k; [by rewrite length_map, length_seq|done|].
  intros i x y Hlt Hx Hy. rewrite Hi, H0, Z.add_0_l in Hx by done.
  rewrite list_lookup_fmap, lookup_seq_lt in Hy by done. cbn in Hy. injection Hy as <-.
  unfold all_loops in Hx. rewrite Hl in Hx. bdestruct (n =? 0).
  - subst n. cbn in Hx. rewrite Z.mod_1_r in Hx. cbn in Hx. by injection Hx.
  - destruct (Z.to_nat n) as [|m] eqn:E; [lia|]. cbn [seq] in Hx.
    change (1%nat :: seq 2 m) with (seq 1 (S m)) in Hx. rewrite length_seq in Hx.
    rewrite <- Nat2Z.inj_mod, Nat2Z.id in Hx.
    pose proof (Nat.mod_upper_bound i (S m) ltac:(lia)).
    rewrite lookup_seq_lt in Hx by done. by injection Hx.
Qed.

Lemma round_robin_witness :
  exists p ls p', start (setThreadNum 3 new_Pool) = Ok p /\ getLoops 7 p = Ok (ls, p') /\
    ls = [1; 2; 3; 1; 2; 3; 1]%nat.
Proof. apply (round_robin 3 7). lia. Defined.

Lemma getLoopForHash_spec p h : 0 <= h ->
  exists l, getLoopForHash h p = Ok l /\
    all_loops p !! Z.to_nat (h `mod` Z.of_nat (length (all_loops p))) = Some l.
Proof.
  intros Hh. unfold getLoopForHash, all_loops. destruct (loops_ p) as [|l0 ls].
  { exists baseLoop_. split; [done|]. cbn. by rewrite Z.mod_1_r. }
  destruct (lookup_lt_is_Some_2 (l0 :: ls) (Z.to_nat (h `mod` Z.of_nat (length (l0 :: ls))))) as [l Hx].
  { pose proof (Z.mod_pos_bound h (Z.of_nat (length (l0 :: ls)))). cbn [length] in *. lia. }
  exists l. by rewrite Hx.
Qed.
End EventLoopThreadPool.

(** ** Server *)

Module TcpServer.
Import EventLoopThreadPool.

#[export] Instance byte_countable : Countable byte := inj_countable Byte.to_N Byte.of_N Byte.of_to_N.

(** A connection, from its server: [Half] is [kDisconnecting], [Down] a closed
    connection that is still to be destroyed, [Gone] one that was. *)
Inductive phase := Connecting | Up | Half | Down | Gone.
#[export] Instance phase_eq_dec : EqDecision phase.
Proof. solve_decision. Defined.

Record Conn := Conn_ {
  c_name : bytes;
  c_loop : nat;
  c_fd : Z;
  c_phase : phase
}.

(** [listenning] is the acceptor's; a server has one acceptor and one pool. *)
Record Server := Server_ {
  ipPort_ : bytes;
  name_ : bytes;
  listenning : bool;
  threadPool_ : Pool;
  server_started_ : Z;
  nextConnId_ : Z;
  connections_ : gmap bytes nat
}.

(** Calls posted to a loop; a connection is its place in [objects]. *)
Inductive functor :=
  | FListen
  | FEstablished (c : nat)
  | FRemove (c : nat)
  | FDestroyed (c : nat).
#[export] Instance functor_eq_dec : EqDecision functor.
Proof. solve_decision. Defined.

(** [posted] has the functors that are still to run, each with its loop, the
    oldest first. *)
Record World := World_ {
  server : option Server;
  objects : list Conn;
  posted : list (nat * functor)
}.

Inductive act :=
  | Listening
  | ConnectionCb (c : nat) (up : bool)
  | Erased (c : nat)
  | Destroyed (c : nat).

Abbreviation H A := (M World act A).

Definition conn (c : nat) : H Conn := fun w =>
  match objects w !! c with Some o => Ok (o, w, []) | None => Crash DeadObject end.
Definition set_phase (ph : phase) (o : Conn) : Conn := Conn_ (c_name o) (c_loop o) (c_fd o) ph.
Definition setState (c : nat) (ph : phase) : H unit :=
  mmod (fun w => World_ (server w) (alter (set_phase ph) c (objects w)) (posted w)).
(** The server object, in a member function. *)
Definition this : H Server := fun w =>
  match server w with Some s => Ok (s, w, []) | None => Crash DeadObject end.
Definition set_server (s : Server) : H unit := mmod (fun w => World_ (Some s) (objects w) (posted w)).
Definition queueInLoop (loop : nat) (f : functor) : H unit :=
  mmod (fun w => World_ (server w) (objects w) (posted w ++ [(loop, f)])).
(** [here] is the loop whose thread makes the call, [m] the call itself. *)
Definition runInLoop (here loop : nat) (f : functor) (m : H unit) : H unit :=
  if (here =? loop)%nat then m else queueInLoop loop f.
Definition assertInLoopThread (here loop : nat) : H unit := if (here =? loop)%nat then mret tt else mcrash Aborted.

(** *** The calls of [TcpConnection] *)

Definition connectEstablished (here c : nat) : H unit :=
  do o <- conn c;
  do _ <- assertInLoopThread here (c_loop o);
  do _ <- massert (bool_decide (c_phase o = Connecting));
  do _ <- setState c Up;
  emit (ConnectionCb c true).

(** The channel must be without interest in events, and on the loop. *)
Definition connectDestroyed (here c : nat) : H unit :=
  do o <- conn c;
  do _ <- assertInLoopThread here (c_loop o);
  match c_phase o with
  | Up =>
      do _ <- setState c Gone;
      do _ <- emit (ConnectionCb c false);
      emit (Destroyed c)
  | Down =>
      do _ <- setState c Gone;
      emit (Destroyed c)
  | Half | Connecting | Gone => mcrash AssertFailed
  end.

(** *** The server *)

Definition connName (s : Server) (n : Z) : bytes :=
  name_ s ++ snprintf 64 (str "-" ++ ipPort_ s ++ str "#" ++ str (pretty n)).

Definition new_TcpServer (ipPort name : bytes) (numThreads : Z) : Server :=
  Server_ ipPort name false (setThreadNum numThreads new_Pool) 0 1 ∅.

Definition listen : H unit :=
  do s <- this;
  do _ <- set_server (Server_ (ipPort_ s) (name_ s) true (threadPool_ s) (server_started_ s) (nextConnId_ s) (connections_ s));
  emit Listening.

Definition start (here : nat) : H unit :=
  do s <- this;
  if server_started_ s =? 0 then
    do _ <- assertInLoopThread here baseLoop_;
    do pool <- lift (EventLoopThreadPool.start (threadPool_ s));
    do _ <- set_server (Server_ (ipPort_ s) (name_ s) (listenning s) pool 1 (nextConnId_ s) (connections_ s));
    do _ <- massert (negb (listenning s));
    runInLoop here baseLoop_ FListen listen
  else mret tt.

Definition newConnection (here : nat) (sockfd : Z) : H unit :=
  do s <- this;
  do _ <- assertInLoopThread here baseLoop_;
  do (ioLoop, pool) <- lift (getNextLoop (threadPool_ s));
  let name := connName s (nextConnId_ s) in
  do id <- lift (chk32 (nextConnId_ s + 1));
  do c <- mget (fun w => length (objects w));
  do _ <- mmod (fun w => World_ (server w) (objects w ++ [Conn_ name ioLoop sockfd Connecting]) (posted w));
  do _ <- set_server (Server_ (ipPort_ s) (name_ s) (listenning s) pool (server_started_ s) id (<[name := c]> (connections_ s)));
  runInLoop here ioLoop (FEstablished c) (connectEstablished here c).

Definition removeConnectionInLoop (here c : nat) : H unit :=
  do s <- this;
  do _ <- assertInLoopThread here baseLoop_;
  do o <- conn c;
  let n := bool_decide (is_Some (connections_ s !! c_name o)) in
  do _ <- set_server (Server_ (ipPort_ s) (name_ s) (listenning s) (threadPool_ s) (server_started_ s) (nextConnId_ s)
                        (delete (c_name o) (connections_ s)));
  do _ <- massert n;
  do _ <- emit (Erased c);
  queueInLoop (c_loop o) (FDestroyed c).

Definition removeConnection (here c : nat) : H unit :=
  do _ <- this;
  runInLoop here baseLoop_ (FRemove c) (removeConnectionInLoop here c).

(** [TcpConnection::handleClose]; its close callback is [removeConnection]. *)
Definition handleClose (here c : nat) : H unit :=
  do o <- conn c;
  do _ <- assertInLoopThread here (c_loop o);
  do _ <- massert (bool_decide (c_phase o = Up \/ c_phase o = Half));
  do _ <- setState c Down;
  do _ <- emit (ConnectionCb c false);
  removeConnection here c.

(** [TcpConnection::shutdown] and the like, from any thread. *)
Definition shutdown (c : nat) : H unit :=
  do o <- conn c;
  if decide (c_phase o = Up) then setState c Half else mret tt.

(** The order of [std::map]: keys compared as strings of unsigned characters. *)
Fixpoint key_le (k l : bytes) : bool :=
  match k, l with
  | [], _ => true
  | _, [] => false
  | a :: k, b :: l => (b2z a <? b2z b) || ((b2z a =? b2z b) && key_le k l)
  end.
Definition by_key (p q : bytes * nat) : Prop := key_le p.1 q.1 = true.
#[export] Instance by_key_dec : RelDecision by_key.
Proof. unfold by_key, RelDecision, Decision. intros p q. exact (decide _). Defined.

Definition destroy_item (here : nat) (item : bytes * nat) : H unit :=
  do o <- conn item.2;
  runInLoop here (c_loop o) (FDestroyed item.2) (connectDestroyed here item.2).
Definition delete_TcpServer (here : nat) : H unit :=
  do s <- this;
  do _ <- assertInLoopThread here baseLoop_;
  do _ <- for_ (merge_sort by_key (map_to_list (connections_ s))) (destroy_item here);
  mmod (fun w => World_ None (objects w) (posted w)).

(** *** Events *)

Inductive event :=
  | EvStart (here : nat)
  | EvAccept (sockfd : Z)      (* the acceptor is readable *)
  | EvShutdown (c : nat)
  | EvClose (c : nat)          (* a channel event or a forced close *)
  | EvRun (loop : nat)         (* the next functor of a loop *)
  | EvDelete.                  (* the destructor, on the base loop *)

Fixpoint take_first (loop : nat) (l : list (nat * functor)) : option (functor * list (nat * functor)) :=
  match l with
  | [] => None
  | (i, f) :: l =>
      if (i =? loop)%nat then Some (f, l)
      else match take_first loop l with Some (g, l) => Some (g, (i, f) :: l) | None => None end
  end.

Definition run_functor (here : nat) (f : functor) : H unit :=
  match f with
  | FListen => listen
  | FEstablished c => connectEstablished here c
  | FRemove c => removeConnectionInLoop here c
  | FDestroyed c => connectDestroyed here c
  end.

Definition step (e : event) : H unit :=
  match e with
  | EvStart here => start here
  | EvAccept sockfd => newConnection baseLoop_ sockfd
  | EvShutdown c => shutdown c
  | EvClose c => do o <- conn c; handleClose (c_loop o) c
  | EvRun loop => fun w =>
      match take_first loop (posted w) with
      | Some (f, rest) => run_functor loop f (World_ (server w) (objects w) rest)
      | None => Ok (tt, w, [])
      end
  | EvDelete => delete_TcpServer baseLoop_
  end.

Fixpoint steps (es : list event) : H unit :=
  match es with
  | [] => mret tt
  | e :: es => do _ <- step e; steps es
  end.

Definition new_World (ipPort name : bytes) (numThreads : Z) : World :=
  World_ (Some (new_TcpServer ipPort name numThreads)) [] [].

(** Two connections on two threads; the first is closed. *)
Example server_demo :
  (fun r => (r.2, map c_phase (objects r.1.2), size (match server r.1.2 with Some s => connections_ s | None => ∅ end)))
  <$> (match steps [EvStart 0; EvAccept 7; EvAccept 8; EvRun 2; EvRun 1; EvClose 0; EvRun 0; EvRun 1]
               (new_World (str "127.0.0.1:80") (str "S") 2) with
       | Ok r => Some r | Crash _ => None end) =
  Some ([Listening; ConnectionCb 1 true; ConnectionCb 0 true; ConnectionCb 0 false; Erased 0; Destroyed 0],
        [Gone; Up], 1%nat).
Proof. vm_compute. reflexivity. Qed.

(** *** Names *)

(** The names of the connections of a server differ, and fit the buffer of 64. *)
Lemma connName_inj s n m :
  (length (ipPort_ s) <= 51)%nat -> 1 <= n < 2147483648 -> 1 <= m < 2147483648 ->
  connName s n = connName s m -> n = m.
Proof.
  intros Hl Hn Hm E. unfold connName in E. apply app_inv_head in E.
  change (str "-") with [Byte.x2d] in E. change (str "#") with [Byte.x23] in E.
  pose proof (decimal_length n 10 ltac:(lia)) as Dn. pose proof (decimal_length m 10 ltac:(lia)) as Dm.
  change (10 ^ Z.of_nat 10) with 10000000000 in *. specialize (Dn ltac:(lia) ltac:(lia)).
  specialize (Dm ltac:(lia) ltac:(lia)).
  rewrite !snprintf_fits in E by (rewrite !length_app; cbn [length]; lia).
  do 3 apply app_inv_head in E. by apply decimal_inj.
Qed.

(** *** The invariant *)

Fixpoint ncalls (f : functor) (l : list (nat * functor)) : nat :=
  match l with [] => O | p :: l => ((if decide (p.2 = f) then 1 else 0) + ncalls f l)%nat end.

Lemma ncalls_app f l k : ncalls f (l ++ k) = (ncalls f l + ncalls f k)%nat.
Proof. induction l as [|p l IH]; [done|]. cbn. rewrite IH. lia. Qed.
Lemma ncalls_perm f l k : l ≡ₚ k -> ncalls f l = ncalls f k.
Proof. induction 1; cbn; lia. Qed.

Lemma take_first_perm loop l f rest : take_first loop l = Some (f, rest) -> l ≡ₚ (loop, f) :: rest.
Proof.
  revert f rest. induction l as [|[i g] l IH]; intros f rest; cbn; [done|].
  destruct (Nat.eqb_spec i loop) as [->|Hne]; [by intros [= <- <-]|].
  destruct (take_first loop l) as [[g' l']|]; [|done]. intros [= <- <-].
  rewrite (IH _ _ eq_refl). apply Permutation_swap.
Qed.

(** The loop a functor must run on. *)
Definition home (objs : list Conn) (f : functor) : option nat :=
  match f with
  | FListen => None
  | FRemove c => (fun _ => baseLoop_) <$> objs !! c
  | FEstablished c | FDestroyed c => c_loop <$> objs !! c
  end.
Definition about (f : functor) : option nat :=
  match f with FListen => None | FEstablished c | FRemove c | FDestroyed c => Some c end.

(** What the table and the posted calls know of a connection in each phase:
    [entry] is what the table has under its name. *)
Definition life (ph : phase) (entry : option nat) (c e r d : nat) : Prop :=
  match ph with
  | Connecting => entry = Some c /\ e = 1%nat /\ r = O /\ d = O
  | Up | Half => entry = Some c /\ e = O /\ r = O /\ d = O
  | Down => e = O /\ ((entry = Some c /\ r = 1%nat /\ d = O) \/ (entry = None /\ r = O /\ d = 1%nat))
  | Gone => entry = None /\ e = O /\ r = O /\ d = O
  end.
Definition alive (conns : gmap bytes nat) (ps : list (nat * functor)) (c : nat) (o : Conn) : Prop :=
  life (c_phase o) (conns !! c_name o) c (ncalls (FEstablished c) ps) (ncalls (FRemove c) ps) (ncalls (FDestroyed c) ps).

(** The server, apart from its table. *)
Record server_ok (s : Server) (objs : list Conn) : Prop := {
  so_ip : (length (ipPort_ s) <= 51)%nat;
  so_next : nextConnId_ s = Z.of_nat (length objs) + 1 /\ nextConnId_ s < 2147483648;
  so_pool : if server_started_ s =? 0
            then started_ (threadPool_ s) = false /\ loops_ (threadPool_ s) = [] /\
                 0 <= numThreads_ (threadPool_ s) < 2147483648 /\ next_ (threadPool_ s) = 0
            else pool_wf (threadPool_ s);
  so_listen : listenning s = true -> server_started_ s <> 0
}.

Record inv (s : Server) (objs : list Conn) (ps : list (nat * functor)) : Prop := {
  i_server : server_ok s objs;
  i_name c o : objs !! c = Some o -> c_name o = connName s (Z.of_nat c + 1);
  i_alive c o : objs !! c = Some o -> alive (connections_ s) ps c o;
  i_table n c : connections_ s !! n = Some c -> exists o, objs !! c = Some o /\ c_name o = n;
  i_home l f : (l, f) ∈ ps -> home objs f = Some l
}.

Definition with_table (t : gmap bytes nat) (s : Server) : Server :=
  Server_ (ipPort_ s) (name_ s) (listenning s) (threadPool_ s) (server_started_ s) (nextConnId_ s) t.

Lemma names_differ s objs ps c c' o o' : inv s objs ps ->
  objs !! c = Some o -> objs !! c' = Some o' -> c <> c' -> c_name o <> c_name o'.
Proof.
  intros Hi Hc Hc' Hne. rewrite (i_name _ _ _ Hi _ _ Hc), (i_name _ _ _ Hi _ _ Hc'). intros E.
  destruct (i_server _ _ _ Hi) as [Hip [Hn Hn'] _ _].
  apply lookup_lt_Some in Hc, Hc'. apply connName_inj in E; [lia|done|lia|lia].
Qed.

(** An operation on one connection: it changes its phase, its entry and the
    calls posted about it. *)
Lemma inv_update s objs ps t ps' c o ph :
  inv s objs ps -> objs !! c = Some o ->
  (forall n, n <> c_name o -> t !! n = connections_ s !! n) ->
  (forall f, about f <> Some c -> ncalls f ps' = ncalls f ps) ->
  (forall l f, (l, f) ∈ ps' -> (l, f) ∈ ps \/ home objs f = Some l) ->
  life ph (t !! c_name o) c (ncalls (FEstablished c) ps') (ncalls (FRemove c) ps') (ncalls (FDestroyed c) ps') ->
  inv (with_table t s) (alter (set_phase ph) c objs) ps'.
Proof.
  intros Hi Hc Ht Hf Hh Hl. pose proof Hi as [Hs Hn Ha Htab Hhome].
  assert (Hsame : forall c' o', alter (set_phase ph) c objs !! c' = Some o' ->
    exists o1, objs !! c' = Some o1 /\ c_name o1 = c_name o' /\ c_loop o1 = c_loop o' /\
      (c' <> c -> o1 = o') /\ (c' = c -> o' = set_phase ph o)).
  { intros c' o'. destruct (decide (c' = c)) as [->|Hne].
    - rewrite list_lookup_alter_eq, Hc. intros [= <-]. exists o. by split_and!.
    - rewrite list_lookup_alter_ne by done. intros E. exists o'. by split_and!. }
  assert (Hhm : forall f, home (alter (set_phase ph) c objs) f = home objs f).
  { intros [|c'|c'|c']; unfold home; try done; (destruct (decide (c' = c)) as [->|Hne];
      [rewrite list_lookup_alter_eq, Hc; done|by rewrite list_lookup_alter_ne by done]). }
  split; cbn [with_table connections_].
  - destruct Hs. split; try done. by rewrite length_alter.
  - intros c' o' (o1 & E1 & <- & _)%Hsame. by apply Hn.
  - intros c' o' (o1 & E1 & En & _ & Hd & He)%Hsame. destruct (decide (c' = c)) as [->|Hne].
    + rewrite (He eq_refl). exact Hl.
    + rewrite <- (Hd Hne). unfold alive. rewrite Ht by (by eapply names_differ).
      rewrite !Hf by (cbn; congruence). by apply Ha.
  - intros n c' E. destruct (decide (n = c_name o)) as [->|Hne].
    + assert (c' = c) as ->.
      { rewrite E in Hl. destruct ph; cbn in Hl; intuition congruence. }
      exists (set_phase ph o). by rewrite list_lookup_alter_eq, Hc.
    + rewrite Ht in E by done. destruct (Htab _ _ E) as (o' & E' & <-).
      destruct (decide (c' = c)) as [->|Hne']; [congruence|]. exists o'. by rewrite list_lookup_alter_ne.
  - intros l f Hin. rewrite Hhm. destruct (Hh l f Hin); [by apply Hhome|done].
Qed.

(** *** What a connection is told *)

#[export] Instance act_eq_dec : EqDecision act.
Proof. solve_decision. Defined.

Fixpoint occ (a : act) (es : list act) : nat :=
  match es with [] => O | b :: es => ((if decide (a = b) then 1 else 0) + occ a es)%nat end.
Lemma occ_app a es es' : occ a (es ++ es') = (occ a es + occ a es')%nat.
Proof. induction es as [|b es IH]; [done|]. cbn. rewrite IH. lia. Qed.

Definition opened (ph : phase) : nat := match ph with Connecting => 0 | _ => 1 end.
Definition closed (ph : phase) : nat := match ph with Down | Gone => 1 | _ => 0 end.
Definition gone (ph : phase) : nat := match ph with Gone => 1 | _ => 0 end.
Definition at_phase (g : phase -> nat) (objs : list Conn) (c : nat) : nat :=
  match objs !! c with Some o => g (c_phase o) | None => O end.

Definition tally (objs : list Conn) (es : list act) (objs' : list Conn) : Prop := forall c,
  at_phase opened objs' c = (at_phase opened objs c + occ (ConnectionCb c true) es)%nat /\
  at_phase closed objs' c = (at_phase closed objs c + occ (ConnectionCb c false) es)%nat /\
  at_phase gone objs' c = (at_phase gone objs c + occ (Destroyed c) es)%nat.

Lemma tally_refl objs : tally objs [] objs.
Proof. intros c. cbn. lia. Qed.
Lemma tally_trans objs es objs1 es1 objs2 :
  tally objs es objs1 -> tally objs1 es1 objs2 -> tally objs (es ++ es1) objs2.
Proof. intros H1 H2 c. destruct (H1 c) as (?&?&?), (H2 c) as (?&?&?). rewrite !occ_app. lia. Qed.

Definition of_conn (a : act) : option nat :=
  match a with Listening => None | ConnectionCb c _ | Erased c | Destroyed c => Some c end.
Lemma occ_other a es c : of_conn a <> Some c -> Forall (fun b => of_conn b = Some c) es -> occ a es = O.
Proof. intros Ha. induction 1 as [|b es Hb _ IH]; [done|]. cbn. rewrite IH, decide_False by congruence. done. Qed.

Lemma tally_one objs c o ph es :
  objs !! c = Some o -> Forall (fun a => of_conn a = Some c) es ->
  opened ph = (opened (c_phase o) + occ (ConnectionCb c true) es)%nat ->
  closed ph = (closed (c_phase o) + occ (ConnectionCb c false) es)%nat ->
  gone ph = (gone (c_phase o) + occ (Destroyed c) es)%nat ->
  tally objs es (alter (set_phase ph) c objs).
Proof.
  intros Hc Hes H1 H2 H3 c'. unfold at_phase. destruct (decide (c' = c)) as [->|Hne].
  - rewrite list_lookup_alter_eq, Hc. cbn. done.
  - rewrite list_lookup_alter_ne by done.
    rewrite !(occ_other _ es c) by (cbn; congruence || done). lia.
Qed.

Ltac tally_solve Hc := eapply tally_one; [exact Hc|repeat constructor| | |];
  cbn -[decide]; rewrite ?decide_True by done; rewrite ?decide_False by done; try done; try lia.

(** *** The handlers *)

Definition good (m : H unit) (s : Server) (objs : list Conn) (ps : list (nat * functor)) : Prop :=
  exists s' objs' ps' es, m (World_ (Some s) objs ps) = Ok (tt, World_ (Some s') objs' ps', es) /\
    inv s' objs' ps' /\ tally objs es objs'.

Lemma same_phase (objs : list Conn) (c : nat) o : objs !! c = Some o -> alter (set_phase (c_phase o)) c objs = objs.
Proof.
  intros Hc. apply list_eq. intros i. destruct (decide (i = c)) as [->|Hne].
  - rewrite list_lookup_alter_eq, Hc. by destruct o.
  - by rewrite list_lookup_alter_ne.
Qed.
Lemma same_table s : with_table (connections_ s) s = s.
Proof. by destruct s. Qed.


Lemma server_inv_perm s objs ps ps' : ps ≡ₚ ps' -> inv s objs ps -> inv s objs ps'.
Proof.
  intros Hp [Hs Hn Ha Ht Hh]. split; try done.
  - intros c o Hc. unfold alive. rewrite <- !(ncalls_perm _ _ _ Hp). by apply Ha.
  - intros l f. rewrite <- Hp. apply Hh.
Qed.

Lemma ncalls_cons f l g ps : ncalls f ((l, g) :: ps) = ((if decide (g = f) then 1 else 0) + ncalls f ps)%nat.
Proof. done. Qed.
Ltac counts := repeat first
  [ rewrite ncalls_app | rewrite ncalls_cons | rewrite decide_True by done | rewrite decide_False by congruence ].
Ltac counts_in H := repeat first
  [ rewrite ncalls_app in H | rewrite ncalls_cons in H | rewrite decide_True in H by done | rewrite decide_False in H by congruence ].

(** A posted call that runs: it was counted among the calls posted. *)
Lemma run_established s objs loop c ps : inv s objs ((loop, FEstablished c) :: ps) ->
  good (connectEstablished loop c) s objs ps.
Proof.
  intros Hi. pose proof (i_home _ _ _ Hi loop _ ltac:(by left)) as Hh. cbn in Hh.
  destruct (objs !! c) as [o|] eqn:Hc; [|done]. cbn in Hh. injection Hh as Hl.
  pose proof (i_alive _ _ _ Hi _ _ Hc) as Ha. unfold alive in Ha. counts_in Ha.
  assert (Hph : c_phase o = Connecting) by (destruct (c_phase o); cbn in Ha; intuition lia).
  exists s, (alter (set_phase Up) c objs), ps, [ConnectionCb c true]. split; [|split].
  - unfold connectEstablished, conn, mthen, assertInLoopThread, massert. cbn. rewrite Hc.
    rewrite <- Hl, Nat.eqb_refl, Hph. done.
  - rewrite <- (same_table s) at 1. eapply inv_update; try done.
    + intros f Hf. counts. destruct f; cbn in Hf; by rewrite decide_False by congruence.
    + intros l f Hin. left. by right.
    + rewrite Hph in Ha. cbn in Ha |- *. intuition lia.
  - tally_solve Hc; rewrite Hph; done.
Qed.

Lemma run_destroyed s objs loop c ps : inv s objs ((loop, FDestroyed c) :: ps) ->
  good (connectDestroyed loop c) s objs ps.
Proof.
  intros Hi. pose proof (i_home _ _ _ Hi loop _ ltac:(by left)) as Hh. cbn in Hh.
  destruct (objs !! c) as [o|] eqn:Hc; [|done]. cbn in Hh. injection Hh as Hl.
  pose proof (i_alive _ _ _ Hi _ _ Hc) as Ha. unfold alive in Ha. counts_in Ha.
  assert (Hph : c_phase o = Down) by (destruct (c_phase o); cbn in Ha; intuition lia).
  exists s, (alter (set_phase Gone) c objs), ps, [Destroyed c]. split; [|split].
  - unfold connectDestroyed, conn, mthen, assertInLoopThread, massert. cbn. rewrite Hc.
    rewrite <- Hl, Nat.eqb_refl, Hph. done.
  - rewrite <- (same_table s) at 1. eapply inv_update; try done.
    + intros f Hf. counts. destruct f; cbn in Hf; by rewrite decide_False by congruence.
    + intros l f Hin. left. by right.
    + rewrite Hph in Ha. cbn in Ha |- *. intuition lia.
  - tally_solve Hc; rewrite Hph; done.
Qed.

Lemma run_remove s objs loop c ps : inv s objs ((loop, FRemove c) :: ps) ->
  good (removeConnectionInLoop loop c) s objs ps.
Proof.
  intros Hi. pose proof (i_home _ _ _ Hi loop _ ltac:(by left)) as Hh. cbn in Hh.
  destruct (objs !! c) as [o|] eqn:Hc; [|done]. cbn in Hh. injection Hh as <-.
  pose proof (i_alive _ _ _ Hi _ _ Hc) as Ha. unfold alive in Ha. counts_in Ha.
  assert (Hph : c_phase o = Down) by (destruct (c_phase o); cbn in Ha; intuition lia).
  rewrite Hph in Ha. cbn in Ha.
  assert (He : connections_ s !! c_name o = Some c) by intuition lia.
  exists (with_table (delete (c_name o) (connections_ s)) s), objs, (ps ++ [(c_loop o, FDestroyed c)]), [Erased c].
  split; [|split].
  - unfold removeConnectionInLoop, this, conn, mthen, assertInLoopThread, massert. cbn. rewrite Hc. cbn.
    by rewrite He.
  - rewrite <- (same_phase objs c o Hc), Hph. eapply inv_update; try done.
    + intros n Hn. by rewrite lookup_delete_ne.
    + intros f Hf. counts. destruct f; cbn in Hf; cbn [ncalls]; rewrite !decide_False by (cbn; congruence); lia.
    + intros l f Hin. apply elem_of_app in Hin as [Hin|Hin]; [left; by right|].
      apply list_elem_of_singleton in Hin as [= -> ->]. right. cbn. by rewrite Hc.
    + rewrite lookup_delete_eq. cbn [life]. counts. cbn [ncalls]. split; [lia|right]. split; [done|]. lia.
  - rewrite <- (same_phase objs c o Hc) at 2. tally_solve Hc.
Qed.

Lemma server_run_good s objs loop f ps : inv s objs ((loop, f) :: ps) -> good (run_functor loop f) s objs ps.
Proof.
  intros Hi. destruct f as [|c|c|c]; cbn [run_functor].
  - by pose proof (i_home _ _ _ Hi loop _ ltac:(by left)).
  - by apply run_established.
  - by apply run_remove.
  - by apply run_destroyed.
Qed.

Lemma runInLoop_good s objs here loop f ps :
  inv s objs ((loop, f) :: ps) -> good (runInLoop here loop f (run_functor here f)) s objs ps.
Proof.
  intros Hi. unfold runInLoop. destruct (Nat.eqb_spec here loop) as [->|Hne]; [by apply server_run_good|].
  exists s, objs, (ps ++ [(loop, f)]), []. split; [done|]. split; [|apply tally_refl].
  eapply server_inv_perm; [|exact Hi]. apply Permutation_cons_append.
Qed.

(** First a part that changes the state, then the rest of the call. *)
Lemma good_then (m : H unit) s objs ps w es (k : H unit) s1 objs1 ps1 :
  m (World_ (Some s) objs ps) = Ok (tt, w, es) -> w = World_ (Some s1) objs1 ps1 ->
  tally objs es objs1 -> good k s1 objs1 ps1 -> good (do _ <- m; k) s objs ps.
Proof.
  intros Hm -> Ht (s2 & objs2 & ps2 & es2 & Hk & Hi & Ht2).
  exists s2, objs2, ps2, (es ++ es2). split; [|split; [done|by eapply tally_trans]].
  unfold mthen. by rewrite Hm, Hk.
Qed.

Lemma close_good s objs ps c o :
  inv s objs ps -> objs !! c = Some o -> c_phase o = Up \/ c_phase o = Half ->
  good (step (EvClose c)) s objs ps.
Proof.
  intros Hi Hc Hph. pose proof (i_alive _ _ _ Hi _ _ Hc) as Ha. unfold alive in Ha.
  assert (Hi' : inv s (alter (set_phase Down) c objs) ((baseLoop_, FRemove c) :: ps)).
  { rewrite <- (same_table s) at 1. eapply inv_update; try done.
    - intros f Hf. counts. destruct f; cbn in Hf; by rewrite decide_False by congruence.
    - intros l f Hin. apply elem_of_cons in Hin as [[= -> ->]|Hin]; [right; cbn; by rewrite Hc|by left].
    - counts. cbn. destruct Hph as [E|E]; rewrite E in Ha; cbn in Ha; intuition lia. }
  destruct (runInLoop_good _ _ (c_loop o) _ _ _ Hi') as (s2 & objs2 & ps2 & es2 & Hk & Hi2 & Ht2).
  exists s2, objs2, ps2, (ConnectionCb c false :: es2). split; [|split; [done|]].
  - cbn [step]. unfold handleClose, removeConnection, this, conn, mthen, assertInLoopThread, massert. cbn.
    rewrite Hc. cbn. rewrite Hc. cbn. rewrite Nat.eqb_refl. cbn. rewrite bool_decide_true by done. cbn.
    cbn in Hk. by rewrite Hk.
  - eapply (tally_trans _ [ConnectionCb c false]); [|exact Ht2].
    tally_solve Hc; destruct Hph as [-> | ->]; done.
Qed.

Lemma shutdown_good s objs ps c o :
  inv s objs ps -> objs !! c = Some o -> good (step (EvShutdown c)) s objs ps.
Proof.
  intros Hi Hc. pose proof (i_alive _ _ _ Hi _ _ Hc) as Ha. unfold alive in Ha.
  cbn [step]. unfold shutdown, good, conn, mthen. cbn [objects]. rewrite Hc.
  destruct (decide (c_phase o = Up)) as [E|E].
  - eexists _, _, _, _. split; [reflexivity|]. cbn [server objects posted]. split.
    + rewrite <- (same_table s) at 1. eapply inv_update; try done; [by left|]. by rewrite E in Ha.
    + tally_solve Hc; rewrite E; done.
  - exists s, objs, ps, []. split; [done|]. split; [done|apply tally_refl].
Qed.

(** The new connection, with the call that establishes it counted as posted. *)
Definition accepted (s : Server) (loop : nat) (pool : Pool) (fd : Z) (objs : list Conn) : Server * list Conn :=
  let name := connName s (nextConnId_ s) in
  (Server_ (ipPort_ s) (name_ s) (listenning s) pool (server_started_ s) (nextConnId_ s + 1)
     (<[name := length objs]> (connections_ s)),
   objs ++ [Conn_ name loop fd Connecting]).

Lemma name_fresh s objs ps : inv s objs ps -> connections_ s !! connName s (nextConnId_ s) = None.
Proof.
  intros Hi. destruct (connections_ s !! _) as [c|] eqn:E; [|done]. exfalso.
  destruct (i_table _ _ _ Hi _ _ E) as (o & Hc & Hn). rewrite (i_name _ _ _ Hi _ _ Hc) in Hn.
  destruct (i_server _ _ _ Hi) as [Hip [Hne Hlt] _ _]. apply lookup_lt_Some in Hc.
  apply connName_inj in Hn; [lia|done|lia|lia].
Qed.

Lemma unborn_calls s objs ps f c : inv s objs ps -> about f = Some c -> (length objs <= c)%nat -> ncalls f ps = O.
Proof.
  intros Hi Hf Hc. pose proof (i_home _ _ _ Hi) as Hh. clear Hi.
  assert (Hnone : objs !! c = None) by (apply lookup_ge_None; lia).
  induction ps as [|[l g] ps IH]; [done|]. rewrite ncalls_cons.
  rewrite IH by (intros l' f' Hin; apply Hh; by right).
  specialize (Hh l g ltac:(by left)). rewrite decide_False; [done|]. intros ->.
  destruct f; cbn in Hf; try done; injection Hf as ->; unfold home in Hh; rewrite Hnone in Hh; done.
Qed.

Lemma accept_inv s objs ps loop pool fd :
  inv s objs ps -> getNextLoop (threadPool_ s) = Ok (loop, pool) -> pool_wf pool -> server_started_ s <> 0 ->
  nextConnId_ s + 1 < 2147483648 ->
  let (s', objs') := accepted s loop pool fd objs in inv s' objs' ((loop, FEstablished (length objs)) :: ps).
Proof.
  intros Hi Hg Hw Hst Hlt. unfold accepted.
  pose proof (name_fresh _ _ _ Hi) as Hfr. pose proof Hi as [[Hip [Hne _] _ Hls] Hn Ha Ht Hh].
  split; cbn [connections_].
  - split; try done; cbn [ipPort_ nextConnId_ server_started_ threadPool_ listenning].
    + rewrite length_app. cbn. lia.
    + by rewrite (proj2 (Z.eqb_neq _ _) Hst).
  - intros c o [Hc|[Hc Hx]]%lookup_app_Some; [by apply Hn|].
    destruct (c - length objs)%nat as [|k] eqn:E; [|done]. injection Hx as <-. cbn [c_name].
    change (connName (Server_ _ _ _ _ _ _ _)) with (connName s). f_equal. lia.
  - intros c o [Hc|[Hc Hx]]%lookup_app_Some; unfold alive.
    + pose proof (lookup_lt_Some _ _ _ Hc) as Hlc. rewrite lookup_insert_ne.
      2:{ rewrite (Hn _ _ Hc), Hne. intros E. apply connName_inj in E; [lia|done|lia|lia]. }
      rewrite !ncalls_cons, !decide_False by (injection 1; lia || done). by apply Ha.
    + destruct (c - length objs)%nat as [|k] eqn:E; [|done]. injection Hx as <-. cbn [c_name c_phase].
      assert (c = length objs) as -> by lia. rewrite lookup_insert_eq. counts. cbn [life].
      rewrite !(unborn_calls s objs ps _ (length objs) Hi) by (done || lia). done.
  - intros n c. rewrite lookup_insert_Some. intros [[<- <-]|[_ E]].
    + eexists. rewrite lookup_app_r by lia. rewrite Nat.sub_diag. done.
    + destruct (Ht _ _ E) as (o & Hc & Ho). exists o. split; [by apply lookup_app_l_Some|done].
  - intros l f Hin. apply elem_of_cons in Hin as [[= -> ->]|Hin].
    + cbn. rewrite lookup_app_r by lia. by rewrite Nat.sub_diag.
    + specialize (Hh l f Hin). destruct f as [|c|c|c]; cbn in *; try done;
        (destruct (objs !! c) as [o|] eqn:Hc; [|done]; by rewrite (lookup_app_l_Some _ _ _ _ Hc)).
Qed.

Lemma accept_good s objs ps fd :
  inv s objs ps -> listenning s = true -> nextConnId_ s + 1 < 2147483648 ->
  good (step (EvAccept fd)) s objs ps.
Proof.
  intros Hi Hl Hlt. pose proof (so_listen _ _ (i_server _ _ _ Hi) Hl) as Hst.
  pose proof (so_pool _ _ (i_server _ _ _ Hi)) as Hp. rewrite (proj2 (Z.eqb_neq _ _) Hst) in Hp.
  destruct (getNextLoop_spec _ Hp) as (loop & pool & Hg & Hw & _).
  pose proof (accept_inv _ _ _ _ _ fd Hi Hg Hw Hst Hlt) as Hi'. unfold accepted in Hi'.
  destruct (runInLoop_good _ _ baseLoop_ _ _ _ Hi') as (s2 & objs2 & ps2 & es2 & Hk & Hi2 & Ht2).
  exists s2, objs2, ps2, es2. split; [|split; [done|]].
  - cbn [step]. unfold newConnection, this, mthen, assertInLoopThread, massert. cbn. rewrite Hg. cbn -[chk32].
    pose proof (i_server _ _ _ Hi) as [_ [Hne _] _ _].
    rewrite (chk32_ok (nextConnId_ s + 1)) by lia. cbn. cbn in Hk. by rewrite Hk.
  - eapply (tally_trans _ []); [|exact Ht2]. intros c. unfold at_phase.
    destruct (decide (c < length objs)%nat) as [Hc|Hc].
    + rewrite lookup_app_l by done. cbn. lia.
    + rewrite lookup_app_r by lia. rewrite (proj2 (lookup_ge_None objs c)) by lia.
      by destruct (c - length objs)%nat as [|[|k]].
Qed.

Lemma server_start_good s objs ps here :
  inv s objs ps -> here = baseLoop_ \/ server_started_ s <> 0 -> good (step (EvStart here)) s objs ps.
Proof.
  intros Hi Hh. pose proof Hi as [[Hip Hne Hp Hls] Hn Ha Ht Hhm]. cbn [step]. unfold start, good, this, mthen. cbn [server].
  destruct (server_started_ s =? 0) eqn:E; reflect_bools.
  - destruct Hh as [->|Hh]; [|done]. destruct Hp as (Hs & Hl & Hnt & Hnx).
    destruct (listenning s) eqn:El; [by destruct Hls|].
    unfold EventLoopThreadPool.start. rewrite Hs. eexists _, _, _, _. split; [reflexivity|].
    split; [|apply tally_refl]. split; try done.
    split; try done. cbn. split; [done|]. rewrite Hl. cbn. rewrite length_seq. split; [lia|].
    rewrite Hnx. intros Hx. destruct (Z.to_nat (numThreads_ (threadPool_ s))) eqn:En; [done|lia].
  - exists s, objs, ps, []. split; [done|]. split; [done|apply tally_refl].
Qed.

(** *** Runs *)

(** [start] is called on the base loop; a server accepts at most 2^31 - 2
    connections; a close comes from an open connection; any thread may shut a
    connection down, and the loops run their functors in any interleaving. *)
Definition allowed (w : World) (e : event) : bool :=
  match server w with
  | None => false
  | Some s =>
      match e with
      | EvStart here => (here =? baseLoop_)%nat || negb (server_started_ s =? 0)
      | EvAccept _ => listenning s && (nextConnId_ s + 1 <? 2147483648)
      | EvShutdown c => (c <? length (objects w))%nat
      | EvClose c => match objects w !! c with
                     | Some o => bool_decide (c_phase o = Up) || bool_decide (c_phase o = Half)
                     | None => false end
      | EvRun _ => true
      | EvDelete => false
      end
  end.

Inductive reachable (ip name : bytes) (n : Z) : World -> list act -> Prop :=
  | reachable_new : reachable ip name n (new_World ip name n) []
  | reachable_step w es e w' es' : reachable ip name n w es -> allowed w e = true ->
      step e w = Ok (tt, w', es') -> reachable ip name n w' (es ++ es').

Lemma server_step_good s objs ps e :
  inv s objs ps -> allowed (World_ (Some s) objs ps) e = true -> good (step e) s objs ps.
Proof.
  intros Hi Hal. destruct e as [here|fd|c|c|loop|]; cbn [allowed server objects] in Hal.
  - apply server_start_good; [done|]. apply orb_true_iff in Hal as [Hb|Hb]; [left|right].
    + by apply Nat.eqb_eq.
    + by apply negb_true_iff, Z.eqb_neq in Hb.
  - apply andb_true_iff in Hal as [Hl Hlt]. apply accept_good; [done..|by apply Z.ltb_lt].
  - apply Nat.ltb_lt in Hal. destruct (lookup_lt_is_Some_2 _ _ Hal) as [o Hc]. by eapply shutdown_good.
  - destruct (objs !! c) as [o|] eqn:Hc; [|done]. eapply close_good; [done..|].
    apply orb_true_iff in Hal as [Hb|Hb]; apply bool_decide_eq_true in Hb; auto.
  - unfold good. cbn [step posted server objects]. destruct (take_first loop ps) as [[f rest]|] eqn:Ht.
    + apply server_run_good. eapply server_inv_perm; [by apply take_first_perm|done].
    + exists s, objs, ps, []. split; [done|]. split; [done|apply tally_refl].
  - done.
Qed.

Lemma new_server_inv ip name n : (length ip <= 51)%nat -> 0 <= n < 2147483648 -> inv (new_TcpServer ip name n) [] [].
Proof. intros Hip Hn. split; try (intros ? ? ?; set_solver); try done. Qed.

Lemma server_reachable_inv ip name n w es :
  (length ip <= 51)%nat -> 0 <= n < 2147483648 -> reachable ip name n w es ->
  exists s, server w = Some s /\ inv s (objects w) (posted w) /\ tally [] es (objects w).
Proof.
  intros Hip Hn. induction 1 as [|w es e w' es' Hr (s & Hs & Hi & Ht) Hal Hst].
  - eexists. split; [done|]. split; [by apply new_server_inv|apply tally_refl].
  - destruct w as [sv objs ps]. cbn in Hs, Hi, Ht. subst sv.
    destruct (server_step_good s objs ps e Hi Hal) as (s1 & objs1 & ps1 & es1 & E & Hi1 & Ht1).
    rewrite Hst in E. injection E as -> ->. exists s1. split; [done|]. split; [done|by eapply tally_trans].
Qed.

Lemma posted_remove s objs ps c : inv s objs ps ->
  (0 < ncalls (FRemove c) ps)%nat <-> (baseLoop_, FRemove c) ∈ ps.
Proof.
  intros Hi. pose proof (i_home _ _ _ Hi) as Hh. clear Hi. induction ps as [|[l g] ps IH].
  { cbn. rewrite elem_of_nil. lia. }
  rewrite ncalls_cons, elem_of_cons. rewrite <- IH by (intros l' f' Hin; apply Hh; by right).
  destruct (decide (g = FRemove c)) as [->|Hne]; [|split; [right; lia|intros [[= _ ?]|?]; [done|lia]]].
  specialize (Hh l _ ltac:(by left)). cbn in Hh. destruct (objs !! c); [|done]. injection Hh as ->.
  split; [by left|lia].
Qed.


(** C14.  The table of a server is exact: it has, each under its own name, the
    connections that are open, that are about to be established, or whose
    removal is posted.  Every connection is announced up at most once, down at
    most once and destroyed at most once, in this order; and when nothing is
    posted, every connection that is not open was destroyed. *)
Theorem server_table_exact ip name n w es c o :
  (length ip <= 51)%nat -> 0 <= n < 2147483648 -> reachable ip name n w es -> objects w !! c = Some o ->
  exists s, server w = Some s /\
    (connections_ s !! c_name o = Some c <->
       c_phase o ∈ [Connecting; Up; Half] \/ (c_phase o = Down /\ (baseLoop_, FRemove c) ∈ posted w)) /\
    occ (ConnectionCb c true) es = opened (c_phase o) /\
    occ (ConnectionCb c false) es = closed (c_phase o) /\
    occ (Destroyed c) es = gone (c_phase o) /\
    (posted w = [] -> c_phase o = Up \/ c_phase o = Half \/
                     (c_phase o = Gone /\ connections_ s !! c_name o = None)).
Proof.
  intros Hip Hn Hr Hc. destruct (server_reachable_inv _ _ _ _ _ Hip Hn Hr) as (s & Hs & Hi & Ht).
  exists s. split; [done|]. pose proof (i_alive _ _ _ Hi _ _ Hc) as Ha. unfold alive in Ha.
  destruct (Ht c) as (T1 & T2 & T3). unfold at_phase in T1, T2, T3. rewrite Hc in T1, T2, T3. cbn in T1, T2, T3.
  split; [|split_and!; try done; intros E; rewrite E in Ha; destruct (c_phase o); cbn in Ha; intuition lia].
  rewrite <- (posted_remove _ _ _ c Hi). rewrite !elem_of_cons, elem_of_nil.
  destruct (c_phase o); cbn in Ha; intuition (congruence || lia).
Qed.

Definition demo_events : list event :=
  [EvStart 0; EvAccept 7; EvAccept 8; EvRun 2; EvRun 1; EvShutdown 0; EvClose 0].
Definition world_after (es : list event) (w : World) : World :=
  match steps es w with Ok (_, w, _) => w | Crash _ => w end.
Fixpoint legal (es : list event) (w : World) : bool :=
  match es with
  | [] => true
  | e :: es => allowed w e && match step e w with Ok (_, w, _) => legal es w | Crash _ => false end
  end.
Definition demo_start : World := new_World (str "127.0.0.1:80") (str "S") 2.

Lemma reachable_run ip name n es : forall w acts, reachable ip name n w acts -> legal es w = true ->
  exists w' acts', steps es w = Ok (tt, w', acts') /\ reachable ip name n w' (acts ++ acts').
Proof.
  induction es as [|e es IH]; intros w acts Hr Hl.
  { exists w, []. rewrite app_nil_r. done. }
  cbn [legal] in Hl. apply andb_true_iff in Hl as [Ha Hl].
  destruct (step e w) as [[[[] w1] es1]|] eqn:E; [|done].
  destruct (IH _ _ (reachable_step _ _ _ _ _ _ _ _ Hr Ha E) Hl) as (w' & acts' & Hs & Hr').
  exists w', (es1 ++ acts'). cbn [steps]. unfold mthen. rewrite E, Hs, app_assoc. done.
Qed.

Lemma server_demo_legal : legal demo_events demo_start = true.
Proof. vm_compute. reflexivity. Qed.
Lemma server_demo_reachable : exists acts, reachable (str "127.0.0.1:80") (str "S") 2 (world_after demo_events demo_start) acts.
Proof.
  destruct (reachable_run _ _ _ demo_events _ _ (reachable_new _ _ _) server_demo_legal) as (w' & acts & Hs & Hr).
  exists acts. unfold world_after, demo_start. rewrite Hs. exact Hr.
Qed.
Lemma demo_object : exists o, objects (world_after demo_events demo_start) !! 0%nat = Some o.
Proof. vm_compute. by eexists. Qed.


Lemma server_table_exact_witness : exists s o acts,
  server (world_after demo_events demo_start) = Some s /\
  (connections_ s !! c_name o = Some 0%nat <->
     c_phase o ∈ [Connecting; Up; Half] \/
     (c_phase o = Down /\ (baseLoop_, FRemove 0) ∈ posted (world_after demo_events demo_start))) /\
  occ (ConnectionCb 0 true) acts = opened (c_phase o).
Proof.
  destruct server_demo_reachable as [acts Hr]. destruct demo_object as [o Ho].
  destruct (server_table_exact (str "127.0.0.1:80") (str "S") 2
    (world_after demo_events demo_start) acts 0 o) as (s & H1 & H2 & H3 & _);
    [cbn; lia|lia|exact Hr|exact Ho|].
  exists s, o, acts. split; [exact H1|]. split; [exact H2|exact H3].
Defined.

(** *** The destructor *)

Lemma destroy_item_eq sv objs ps n c o : objs !! c = Some o -> c_phase o = Up -> c_loop o = baseLoop_ ->
  destroy_item baseLoop_ (n, c) (World_ sv objs ps) =
    Ok (tt, World_ sv (alter (set_phase Gone) c objs) ps, [ConnectionCb c false; Destroyed c]).
Proof.
  intros Hc Hup Hb. unfold destroy_item, connectDestroyed, runInLoop, conn, mthen. cbn. rewrite Hc, Hb. cbn.
  by rewrite Hc, Hb, Hup.
Qed.

Lemma destroy_all (l : list (bytes * nat)) : forall sv objs ps,
  NoDup l.*2 -> (forall item, item ∈ l -> exists o, objs !! item.2 = Some o /\ c_phase o = Up /\ c_loop o = baseLoop_) ->
  exists objs' es, for_ l (destroy_item baseLoop_) (World_ sv objs ps) = Ok (tt, World_ sv objs' ps, es) /\
    forall c, objs' !! c = if decide (c ∈ l.*2) then set_phase Gone <$> objs !! c else objs !! c.
Proof.
  induction l as [|[n c] l IH]; intros sv objs ps Hnd Hl.
  { exists objs, []. split; [done|]. intros c. by rewrite decide_False by set_solver. }
  cbn in Hnd. apply NoDup_cons in Hnd as [Hnc Hnd].
  destruct (Hl (n, c) ltac:(by left)) as (o & Hc & Hup & Hbase). cbn in Hc.
  destruct (IH sv (alter (set_phase Gone) c objs) ps Hnd) as (objs' & es & E & Hx).
  { intros item Hin. destruct (Hl item ltac:(by right)) as (o' & Hc' & ?). exists o'.
    rewrite list_lookup_alter_ne; [done|]. intros ->. apply Hnc. by apply list_elem_of_fmap_2. }
  eexists objs', _. split.
  - cbn [for_]. unfold mthen. rewrite (destroy_item_eq sv objs ps n c o Hc Hup Hbase), E. reflexivity.
  - intros c'. rewrite Hx. cbn [fmap list_fmap snd]. destruct (decide (c' = c)) as [->|Hne].
    + destruct (decide (c ∈ l.*2)) as [Hin|_]; [done|]. rewrite decide_True by (by left). by rewrite list_lookup_alter_eq.
    + rewrite list_lookup_alter_ne by done. destruct (decide (c' ∈ l.*2)) as [Hin|Hin].
      * by rewrite decide_True by (by right).
      * rewrite decide_False; [done|]. by intros [->|?]%elem_of_cons.
Qed.

(** The destructor of a server whose connections are all on the base loop,
    none of them half closed, destroys them all, if nothing is posted. *)
Theorem single_thread_destructor ip name n w es :
  (length ip <= 51)%nat -> 0 <= n < 2147483648 -> reachable ip name n w es -> posted w = [] ->
  (forall c o, objects w !! c = Some o -> c_loop o = baseLoop_ /\ c_phase o <> Half) ->
  exists w' es', step EvDelete w = Ok (tt, w', es') /\ server w' = None /\ posted w' = [] /\
    forall c o, objects w' !! c = Some o -> c_phase o = Gone.
Proof.
  intros Hip Hn Hr Hps Hall. destruct (server_reachable_inv _ _ _ _ _ Hip Hn Hr) as (s & Hs & Hi & _).
  destruct w as [sv objs ps]. cbn in Hs, Hi, Hps, Hall. subst sv ps.
  set (l := merge_sort by_key (map_to_list (connections_ s))).
  assert (Hp : l ≡ₚ map_to_list (connections_ s)) by apply merge_sort_Permutation.
  assert (Hlive : forall c o, objs !! c = Some o -> (c_phase o = Up /\ connections_ s !! c_name o = Some c) \/ c_phase o = Gone).
  { intros c o Hc. pose proof (i_alive _ _ _ Hi _ _ Hc) as Ha. unfold alive in Ha. cbn in Ha.
    destruct (Hall _ _ Hc) as [_ Hh]. destruct (c_phase o); cbn in Ha; intuition lia. }
  assert (Hentry : forall item, item ∈ l <-> connections_ s !! item.1 = Some item.2).
  { intros [k c]. by rewrite Hp, elem_of_map_to_list. }
  assert (Hnd : NoDup l.*2).
  { rewrite Hp. apply NoDup_fmap_2_strong; [|apply NoDup_map_to_list].
    intros [k c] [k' c'] H1 H2 E. cbn in E. subst c'. apply elem_of_map_to_list in H1, H2.
    destruct (i_table _ _ _ Hi _ _ H1) as (o & Hc & <-), (i_table _ _ _ Hi _ _ H2) as (o' & Hc' & <-).
    congruence. }
  destruct (destroy_all l (Some s) objs [] Hnd) as (objs' & es' & E & Hx).
  { intros [k c] Hin. apply Hentry in Hin. cbn in Hin. destruct (i_table _ _ _ Hi _ _ Hin) as (o & Hc & Hk).
    exists o. split; [done|]. split; [|by apply (Hall _ _ Hc)].
    destruct (Hlive _ _ Hc) as [[? _]|Hg]; [done|].
    pose proof (i_alive _ _ _ Hi _ _ Hc) as Ha. unfold alive in Ha. rewrite Hg in Ha. cbn in Ha.
    rewrite Hk, Hin in Ha. by destruct Ha. }
  eexists _, _. split.
  - cbn [step]. unfold delete_TcpServer, this. unfold mthen at 1. cbn beta iota delta [server].
    unfold mthen at 1. cbn beta iota. fold l. unfold mthen.
    change (assertInLoopThread baseLoop_ baseLoop_ ?w) with (Ok (tt, w, [] : list act)). cbn beta iota. rewrite E. reflexivity.
  - cbn [server posted objects]. split; [done|]. split; [done|]. intros c o Hc. rewrite Hx in Hc.
    destruct (decide (c ∈ l.*2)) as [Hin|Hin].
    + destruct (objs !! c); [|done]. by injection Hc as <-.
    + destruct (Hlive _ _ Hc) as [[_ He]|?]; [|done]. exfalso. apply Hin.
      apply list_elem_of_fmap. exists (c_name o, c). split; [done|]. by apply Hentry.
Qed.

Definition single_events : list event := [EvStart 0; EvAccept 7; EvAccept 8; EvClose 0; EvRun 0].
Definition single_start : World := new_World (str "127.0.0.1:80") (str "S") 0.
Definition single_world : World := world_after single_events single_start.
Lemma single_legal : legal single_events single_start = true.
Proof. vm_compute. reflexivity. Qed.
Lemma single_reachable : exists acts, reachable (str "127.0.0.1:80") (str "S") 0 single_world acts.
Proof.
  destruct (reachable_run _ _ _ single_events _ _ (reachable_new _ _ _) single_legal) as (w' & acts & Hs & Hr).
  exists acts. unfold single_world, world_after, single_start. rewrite Hs. exact Hr.
Qed.
Lemma single_posted : posted single_world = [].
Proof. vm_compute. reflexivity. Qed.
Lemma single_on_base :
  forallb (fun o => (c_loop o =? baseLoop_)%nat && negb (bool_decide (c_phase o = Half))) (objects single_world) = true.
Proof. vm_compute. reflexivity. Qed.
Lemma single_objects c o : objects single_world !! c = Some o -> c_loop o = baseLoop_ /\ c_phase o <> Half.
Proof.
  intros Hc%list_elem_of_lookup_2%list_elem_of_In.
  pose proof (proj1 (forallb_forall _ _) single_on_base _ Hc) as Hb.
  apply andb_true_iff in Hb as [Hb Hh]. apply Nat.eqb_eq in Hb. apply negb_true_iff, bool_decide_eq_false in Hh. done.
Qed.

Lemma single_thread_destructor_witness : exists w' es',
  step EvDelete single_world = Ok (tt, w', es') /\ server w' = None /\ posted w' = [] /\
    forall c o, objects w' !! c = Some o -> c_phase o = Gone.
Proof.
  destruct single_reachable as [acts Hr].
  apply (single_thread_destructor (str "127.0.0.1:80") (str "S") 0 single_world acts);
    [cbn; lia|lia|exact Hr|exact single_posted|exact single_objects].
Defined.

(** [start] is called thread safe by its comment, but the pool and the acceptor
    insist on the thread of the base loop: the process aborts. *)
Lemma start_elsewhere_fails ip name n here : here <> baseLoop_ ->
  step (EvStart here) (new_World ip name n) = Crash Aborted.
Proof. intros Hh. cbn. unfold start, this, assertInLoopThread, mthen. cbn. unfold massert, lift. cbn. by rewrite (proj2 (Nat.eqb_neq _ _) Hh). Qed.

(** With threads, deleting the server leaves connections whose close
    callback has its address ("FIXME: unsafe"): a connection that closes before
    its loop has run [connectDestroyed] calls a deleted server, and so does a
    removal that was already posted. *)
Theorem server_called_after_delete fd :
  steps [EvStart 0; EvAccept fd; EvRun 1; EvDelete; EvClose 0] (new_World (str "127.0.0.1:80") (str "S") 1) = Crash DeadObject /\
  steps [EvStart 0; EvAccept fd; EvRun 1; EvClose 0; EvDelete; EvRun 1; EvRun 0] (new_World (str "127.0.0.1:80") (str "S") 1) = Crash DeadObject.
Proof. split; vm_compute; reflexivity. Qed.
End TcpServer.
