(* ===== verification/TcpClient.v ===== *)
(** * TCP client ([muduo/net/TcpClient.cc], [.h])

    A client has a connector and at most one connection; all three live on one
    loop.  The model puts them together: the connector with the queue of functors
    and the timers of the loop is the one of [Connector.v], the functors of the
    connection are entries of the same queue, and the object graph is explicit -
    the client and the connector may be deleted while functors that carry their
    address are still queued.  A call on a deleted object is [DeadObject]. *)

From stdpp Require Import strings pretty.
From S2P Require Import Prelude Effects Channel LogStream InetAddress Connector TcpServer.
#[local] Open Scope Z_scope.
#[local] Open Scope handler_scope.

Module TcpClient.
Import TcpServer (phase(..)).
#[local] Existing Instance TcpServer.phase_eq_dec.

(** The close callback of a connection: [TcpClient::removeConnection], or, once
    the client was deleted, [detail::removeConnection]. *)
Inductive close_callback := ToClient | Detached.

(** [c_polled]: the loop has polled since the connection was registered, so its
    channel can be among the active ones. *)
Record Conn := Conn_ {
  c_name : bytes;
  c_fd : Z;
  c_phase : phase;
  c_close : close_callback;
  c_polled : bool
}.

Record Client := Client_ {
  name_ : bytes;
  retry_ : bool;
  connect_ : bool;
  nextConnId_ : Z;
  connection_ : option nat
}.
Definition new_TcpClient (name : bytes) : Client := Client_ name false true 1 None.

(** The functors of connections. *)
Inductive functor := FForceClose (c : nat) | FDestroyed (c : nat).

(** [functors] has those that were ever queued; in the queue of the loop the
    n-th is [FOther n].  [kept] and [kept_due] count the timers of the destructor
    that keep the connector for a second, armed since or before the last
    poll. *)
Record World := World_ {
  client : option Client;
  alive : bool;
  loop : Connector.World;
  kept : nat;
  kept_due : nat;
  objects : list Conn;
  functors : list functor
}.

Inductive act :=
  | OfConnector (a : Connector.act)
  | ConnectionCb (c : nat) (up : bool)
  | Destroyed (c : nat).

Abbreviation H A := (M World act A).

Definition this : H Client := fun w =>
  match client w with Some s => Ok (s, w, []) | None => Crash DeadObject end.
Definition set_client (s : option Client) : H unit :=
  mmod (fun w => World_ s (alive w) (loop w) (kept w) (kept_due w) (objects w) (functors w)).
Definition set_connect (b : bool) : H unit :=
  do s <- this; set_client (Some (Client_ (name_ s) (retry_ s) b (nextConnId_ s) (connection_ s))).
Definition set_connection (c : option nat) : H unit :=
  do s <- this; set_client (Some (Client_ (name_ s) (retry_ s) (connect_ s) (nextConnId_ s) c)).
Definition on_loop (l : Connector.World) (w : World) : World :=
  World_ (client w) (alive w) l (kept w) (kept_due w) (objects w) (functors w).
Definition conn (c : nat) : H Conn := fun w =>
  match objects w !! c with Some o => Ok (o, w, []) | None => Crash DeadObject end.
Definition set_objects (f : list Conn -> list Conn) : H unit :=
  mmod (fun w => World_ (client w) (alive w) (loop w) (kept w) (kept_due w) (f (objects w)) (functors w)).
Definition with_phase (ph : phase) (o : Conn) : Conn := Conn_ (c_name o) (c_fd o) ph (c_close o) (c_polled o).
Definition setState (c : nat) (ph : phase) : H unit := set_objects (alter (with_phase ph) c).

(** [queueInLoop] for a functor of a connection. *)
Definition queueInLoop (f : functor) : H unit := fun w =>
  match Connector.step (Connector.EvOther (length (functors w))) (loop w) with
  | Ok (_, l, es) =>
      Ok (tt, World_ (client w) (alive w) l (kept w) (kept_due w) (objects w) (functors w ++ [f]),
          map OfConnector es)
  | Crash e => Crash e
  end.

(** ** The connection

    The states of a connection and what its client is told; its buffers, its
    socket and its channel's flags are the subject of [TcpConnection.v]. *)

Definition connectEstablished (c : nat) : H unit :=
  do o <- conn c;
  do _ <- massert (bool_decide (c_phase o = Connecting));
  do _ <- setState c Up;
  emit (ConnectionCb c true).

Definition connectDestroyed (c : nat) : H unit :=
  do o <- conn c;
  match c_phase o with
  | Up =>
      do _ <- setState c Gone;
      do _ <- emit (ConnectionCb c false);
      emit (Destroyed c)
  | Down =>
      do _ <- setState c Gone;
      emit (Destroyed c)
  | Half | Connecting | Gone => mcrash AssertFailed
  end.

Definition shutdown (c : nat) : H unit :=
  do o <- conn c;
  if decide (c_phase o = Up) then setState c Half else mret tt.

Definition is_open (o : Conn) : bool := bool_decide (c_phase o = Up \/ c_phase o = Half).
Definition forceClose (c : nat) : H unit :=
  do o <- conn c;
  if is_open o then do _ <- setState c Half; queueInLoop (FForceClose c) else mret tt.

(** ** The client *)

Definition connName (s : Client) (peer : bytes) : bytes :=
  name_ s ++ snprintf 32 (str ":" ++ peer ++ str "#" ++ str (pretty (nextConnId_ s))).

Definition newConnection (sockfd : Z) (peer : bytes) : H unit :=
  do s <- this;
  do id <- lift (chk32 (nextConnId_ s + 1));
  do c <- mget (fun w => length (objects w));
  do _ <- set_objects (fun l => l ++ [Conn_ (connName s peer) sockfd Connecting ToClient false]);
  do _ <- set_client (Some (Client_ (name_ s) (retry_ s) (connect_ s) id (Some c)));
  connectEstablished c.

(** A call of the connector.  The callback for a new connection is the last
    thing [handleWrite] does. *)
Definition connector (peer : bytes) (m : M Connector.World Connector.act unit) : H unit := fun w =>
  if alive w then
    match m (loop w) with
    | Ok (_, l, es) =>
        (do _ <- (fun w => Ok (tt, on_loop l w, map OfConnector es));
         match last es with
         | Some (Connector.NewConnection fd) => newConnection fd peer
         | _ => mret tt
         end) w
    | Crash e => Crash e
    end
  else Crash DeadObject.

Definition connect (inloop : bool) (dial : Z * Z) : H unit :=
  do _ <- set_connect true;
  connector [] (Connector.start inloop dial).

Definition disconnect : H unit :=
  do _ <- set_connect false;
  do s <- this;
  match connection_ s with Some c => shutdown c | None => mret tt end.

Definition stop : H unit :=
  do _ <- set_connect false;
  connector [] Connector.stop.

Definition enableRetry : H unit :=
  do s <- this; set_client (Some (Client_ (name_ s) true (connect_ s) (nextConnId_ s) (connection_ s))).

Definition removeConnection (c : nat) (dial : Z * Z) : H unit :=
  do s <- this;
  do _ <- massert (bool_decide (connection_ s = Some c));
  do _ <- set_connection None;
  do _ <- queueInLoop (FDestroyed c);
  if retry_ s && connect_ s then connector [] (Connector.restart dial) else mret tt.

(** What the user's connection callback does to the client when a connection
    comes down. *)
Inductive user_call := CStop | CDisconnect | CEnableRetry.
Definition run_user (u : user_call) : H unit :=
  match u with CStop => stop | CDisconnect => disconnect | CEnableRetry => enableRetry end.

Definition handleClose (c : nat) (calls : list user_call) (dial : Z * Z) : H unit :=
  do o <- conn c;
  do _ <- massert (is_open o);
  do _ <- setState c Down;
  do _ <- emit (ConnectionCb c false);
  do _ <- for_ calls run_user;
  match c_close o with
  | ToClient => removeConnection c dial
  | Detached => queueInLoop (FDestroyed c)
  end.

Definition forceCloseInLoop (c : nat) (calls : list user_call) (dial : Z * Z) : H unit :=
  do o <- conn c;
  if is_open o then handleClose c calls dial else mret tt.

(** The last reference to the connector goes away: neither the client, nor a
    timer of the destructor, nor a timer of [retry] is left. *)
Definition drop_connector : H unit := fun w =>
  match client w, kept w, kept_due w, Connector.fresh (loop w) ++ Connector.armed (loop w), alive w with
  | None, O, O, [], true =>
      match Connector.delete_Connector (Connector.cn (loop w)) with
      | Ok _ => Ok (tt, World_ None false (loop w) O O (objects w) (functors w), [])
      | Crash e => Crash e
      end
  | _, _, _, _, _ => Ok (tt, w, [])
  end.

Definition detach (o : Conn) : Conn := Conn_ (c_name o) (c_fd o) (c_phase o) Detached (c_polled o).

(** [unique]: nobody else has a pointer to the connection. *)
Definition delete_TcpClient (unique : bool) : H unit :=
  do s <- this;
  do _ <- (match connection_ s with
           | Some c =>
               do _ <- set_objects (alter detach c);
               if unique then forceClose c else mret tt
           | None =>
               do _ <- connector [] Connector.stop;
               mmod (fun w => World_ (client w) (alive w) (loop w) (S (kept w)) (kept_due w) (objects w) (functors w))
           end);
  do _ <- set_client None;
  drop_connector.

(** ** Events *)

Inductive event :=
  | EvConnect (inloop : bool) (dial : Z * Z)
  | EvCall (u : user_call)
  | EvDelete (unique : bool)
  | EvShutdown (c : nat)
  | EvForceClose (c : nat)
  | EvPollReturns                                              (* the next round begins *)
  | EvTimer (i : nat) (dial : Z * Z)                           (* a timer of [retry] *)
  | EvKept                                                     (* the timer of the destructor *)
  | EvPoll (revents err : Z) (self : bool) (peer : bytes)      (* the connector's channel *)
  | EvClose (c : nat) (calls : list user_call) (dial : Z * Z)  (* the connection's channel *)
  | EvSwap                                                     (* doPendingFunctors begins *)
  | EvRun (calls : list user_call) (dial : Z * Z).             (* its next functor *)

(** A step of the loop that does not touch the connector. *)
Definition loop_step (e : Connector.event) : H unit := fun w =>
  match Connector.step e (loop w) with
  | Ok (_, l, es) => Ok (tt, on_loop l w, map OfConnector es)
  | Crash e => Crash e
  end.

Definition polled (o : Conn) : Conn :=
  Conn_ (c_name o) (c_fd o) (c_phase o) (c_close o) (c_polled o || is_open o).

Definition pop_functor (q : list Connector.cfunctor) (l : Connector.World) : Connector.World :=
  Connector.World_ (Connector.cn l) (Connector.pending l) q (Connector.handling l) (Connector.fresh l)
    (Connector.armed l).

Definition run_functor (f : functor) (calls : list user_call) (dial : Z * Z) : H unit :=
  match f with
  | FForceClose c => forceCloseInLoop c calls dial
  | FDestroyed c => connectDestroyed c
  end.

Definition step (e : event) : H unit :=
  match e with
  | EvConnect inloop dial => connect inloop dial
  | EvCall u => run_user u
  | EvDelete unique => delete_TcpClient unique
  | EvShutdown c => shutdown c
  | EvForceClose c => forceClose c
  | EvPollReturns =>
      do _ <- loop_step Connector.EvPollReturns;
      mmod (fun w => World_ (client w) (alive w) (loop w) O (kept_due w + kept w) (map polled (objects w)) (functors w))
  | EvTimer i dial =>
      do _ <- connector [] (Connector.step (Connector.EvTimer i dial));
      drop_connector
  | EvKept =>
      do _ <- mmod (fun w => World_ (client w) (alive w) (loop w) (kept w) (pred (kept_due w)) (objects w) (functors w));
      drop_connector
  | EvPoll revents err self peer => connector peer (Connector.step (Connector.EvPoll revents err self))
  | EvClose c calls dial => handleClose c calls dial
  | EvSwap => loop_step Connector.EvSwap
  | EvRun calls dial => fun w =>
      match Connector.batch (loop w) with
      | Connector.FOther n :: q =>
          match functors w !! n with
          | Some f => run_functor f calls dial (on_loop (pop_functor q (loop w)) w)
          | None => Crash DeadObject
          end
      | _ :: _ => connector [] (Connector.step (Connector.EvRun dial)) w
      | [] => Ok (tt, w, [])
      end
  end.

Fixpoint steps (es : list event) : H unit :=
  match es with
  | [] => mret tt
  | e :: es => do _ <- step e; steps es
  end.

Definition new_World (name : bytes) : World :=
  World_ (Some (new_TcpClient name)) true Connector.new_World O O [] [].

(** Connected, closed by the peer, connected again, and deleted. *)
Example client_demo :
  (fun r => (r.2, map c_phase (objects r.1.2), alive r.1.2)) <$> (match steps
      [EvCall CEnableRetry; EvConnect true (5, Connector.EINPROGRESS); EvPollReturns;
       EvPoll POLLOUT 0 false (str "10.0.0.1:80"); EvSwap; EvRun [] (0, 0); EvPollReturns;
       EvClose 0 [] (6, Connector.EINPROGRESS); EvSwap; EvRun [] (0, 0); EvPollReturns;
       EvPoll POLLOUT 0 false (str "10.0.0.1:80"); EvSwap; EvRun [] (0, 0); EvDelete true;
       EvPollReturns; EvSwap; EvRun [] (0, 0); EvPollReturns; EvSwap; EvRun [] (0, 0)] (new_World (str "C"))
     with Ok r => Some r | Crash _ => None end) =
  Some ([OfConnector (Connector.OpenSocket 5); OfConnector (Connector.UpdateChannel 4);
         OfConnector (Connector.UpdateChannel 0); OfConnector Connector.RemoveChannel;
         OfConnector (Connector.NewConnection 5); ConnectionCb 0 true;
         ConnectionCb 0 false; OfConnector (Connector.OpenSocket 6); OfConnector (Connector.UpdateChannel 4);
         Destroyed 0; OfConnector (Connector.UpdateChannel 0); OfConnector Connector.RemoveChannel;
         OfConnector (Connector.NewConnection 6); ConnectionCb 1 true;
         ConnectionCb 1 false; Destroyed 1], [Gone; Gone], false).
Proof. vm_compute. reflexivity. Qed.

(** ** The counts of what a connection is told *)

#[export] Instance connector_act_eq_dec : EqDecision Connector.act.
Proof. solve_decision. Defined.
#[export] Instance act_eq_dec : EqDecision act.
Proof. solve_decision. Defined.
#[export] Instance functor_eq_dec : EqDecision functor.
Proof. solve_decision. Defined.
#[export] Instance close_eq_dec : EqDecision close_callback.
Proof. solve_decision. Defined.

Fixpoint occ (a : act) (es : list act) : nat :=
  match es with [] => O | b :: es => ((if decide (b = a) then 1 else 0) + occ a es)%nat end.
Definition ups (o : option phase) : nat := match o with None | Some Connecting => 0 | _ => 1 end.
Definition downs (o : option phase) : nat := match o with Some Down | Some Gone => 1 | _ => 0 end.
Definition ends (o : option phase) : nat := match o with Some Gone => 1 | _ => 0 end.
Definition phase_of (w : World) (c : nat) : option phase := c_phase <$> objects w !! c.
(** The sockets the connector handed over. *)
Definition sockets (es : list act) : list Z :=
  omap (fun a => match a with OfConnector (Connector.NewConnection fd) => Some fd | _ => None end) es.

Record tally (w : World) (es : list act) (w' : World) : Prop := {
  ta_up c : (occ (ConnectionCb c true) es + ups (phase_of w c) = ups (phase_of w' c))%nat;
  ta_down c : (occ (ConnectionCb c false) es + downs (phase_of w c) = downs (phase_of w' c))%nat;
  ta_end c : (occ (Destroyed c) es + ends (phase_of w c) = ends (phase_of w' c))%nat;
  ta_fds : map c_fd (objects w') = map c_fd (objects w) ++ sockets es
}.

Lemma client_occ_app a es es' : occ a (es ++ es') = (occ a es + occ a es')%nat.
Proof. induction es as [|b es IH]; cbn [occ app]; [done|]. rewrite IH. lia. Qed.
Lemma occ_connector a es : (forall b, a <> OfConnector b) -> occ a (map OfConnector es) = O.
Proof.
  intros Ha. induction es as [|b es IH]; cbn [occ map]; [done|].
  rewrite decide_False by (intros E; by apply (Ha b)). done.
Qed.
Lemma sockets_connector es : sockets (map OfConnector es) = Connector.handed es.
Proof. induction es as [|[] es IH]; cbn; [done|..]; try exact IH. by f_equal. Qed.

Lemma client_tally_trans w es w1 es1 w2 : tally w es w1 -> tally w1 es1 w2 -> tally w (es ++ es1) w2.
Proof.
  intros [U D E F] [U1 D1 E1 F1]. split.
  - intros c. rewrite client_occ_app. specialize (U c). specialize (U1 c). lia.
  - intros c. rewrite client_occ_app. specialize (D c). specialize (D1 c). lia.
  - intros c. rewrite client_occ_app. specialize (E c). specialize (E1 c). lia.
  - unfold sockets. rewrite omap_app, F1, F, <- app_assoc. done.
Qed.

(** Steps of the connector that hand nothing over, and steps without an action. *)
Lemma tally_connector w es w' :
  objects w' = objects w -> Connector.handed es = [] -> tally w (map OfConnector es) w'.
Proof.
  intros Ho Hh. split; unfold phase_of; rewrite ?Ho; try (intros c; rewrite occ_connector by done; done).
  rewrite sockets_connector, Hh, app_nil_r. done.
Qed.
Lemma tally_silent w w' : objects w' = objects w -> tally w [] w'.
Proof. intros Ho. by apply (tally_connector w []). Qed.

Definition runs (m : H unit) (w : World) (Q : World -> Prop) : Prop :=
  exists w' es, m w = Ok (tt, w', es) /\ tally w es w' /\ Q w'.

Lemma runs_then m (k : H unit) w Q : runs m w (fun w1 => runs k w1 Q) -> runs (do _ <- m; k) w Q.
Proof.
  intros (w1 & es & E & T & w2 & es2 & E2 & T2 & HQ). exists w2, (es ++ es2).
  unfold mthen. rewrite E, E2. split; [done|]. split; [by eapply client_tally_trans|done].
Qed.
Lemma runs_this (k : Client -> H unit) w s Q :
  client w = Some s -> runs (k s) w Q -> runs (do s <- this; k s) w Q.
Proof.
  intros Hs (w' & es & E & T & HQ). exists w', es. unfold mthen, this. rewrite Hs, E. auto.
Qed.
Lemma runs_conn c (k : Conn -> H unit) w o Q :
  objects w !! c = Some o -> runs (k o) w Q -> runs (do o <- conn c; k o) w Q.
Proof.
  intros Hs (w' & es & E & T & HQ). exists w', es. unfold mthen, conn. rewrite Hs, E. auto.
Qed.
Lemma runs_assert (b : bool) (k : H unit) w Q :
  b = true -> runs k w Q -> runs (do _ <- massert b; k) w Q.
Proof. intros -> (w' & es & E & T & HQ). exists w', es. unfold mthen. cbn. rewrite E. auto. Qed.
Lemma runs_ret w (Q : World -> Prop) : Q w -> runs (mret tt) w Q.
Proof. intros HQ. exists w, []. split; [done|]. split; [by apply tally_silent|done]. Qed.
Lemma runs_mod f w (Q : World -> Prop) : objects (f w) = objects w -> Q (f w) -> runs (mmod f) w Q.
Proof. intros Ho HQ. exists (f w), []. split; [done|]. split; [by apply tally_silent|done]. Qed.
Lemma runs_mono m w (Q Q' : World -> Prop) : runs m w Q -> (forall w', Q w' -> Q' w') -> runs m w Q'.
Proof. intros (w' & es & E & T & HQ) HQ'. exists w', es. auto. Qed.

(** ** The invariant *)

Definition is_call (fs : list functor) (f : functor) (g : Connector.cfunctor) : bool :=
  match g with Connector.FOther n => bool_decide (fs !! n = Some f) | _ => false end.
Fixpoint ncalls (fs : list functor) (f : functor) (q : list Connector.cfunctor) : nat :=
  match q with [] => O | g :: q => ((if is_call fs f g then 1 else 0) + ncalls fs f q)%nat end.
Definition about (f : functor) : nat := match f with FForceClose c | FDestroyed c => c end.

Definition no_own (q : list Connector.cfunctor) : Prop := Forall (fun g => ~ Connector.own g) q.

(** No [resetChannel] is queued behind a forced close of [c]. *)
Definition ordered (w : World) (c : nat) : Prop :=
  forall l1 n l2, Connector.queue (loop w) = l1 ++ Connector.FOther n :: l2 ->
    functors w !! n = Some (FForceClose c) -> Connector.FReset ∉ l2.

(** [x] is a connection that has just come down, or whose destruction is about
    to run: it is not counted in the queue. *)
Definition current (x : option nat) (w : World) (c : nat) : Prop :=
  exists o, objects w !! c = Some o /\ c_close o = ToClient /\ (is_open o = true \/ x = Some c) /\
    Connector.state_ (Connector.cn (loop w)) = Connector.kConnected /\
    (c_polled o = true \/ x = Some c -> Connector.chan_of (loop w) = None) /\ ordered w c.

Definition timers (w : World) : list Z := Connector.fresh (loop w) ++ Connector.armed (loop w).

Definition client_ok (sp : bool) (x : option nat) (w : World) : Prop :=
  match client w with
  | Some s => alive w = true /\ kept w = O /\ kept_due w = O /\ (connect_ s = true -> sp = false) /\
      1 <= nextConnId_ s < 2147483648 /\ forall c, connection_ s = Some c -> current x w c
  | None =>
      if alive w then sp = true /\ ((kept w + kept_due w = 0)%nat -> no_own (Connector.queue (loop w)))
      else no_own (Connector.queue (loop w)) /\ timers w = [] /\ Connector.chan_of (loop w) = None
  end.

Record inv (st sp : bool) (x : option nat) (w : World) : Prop := {
  i_loop : Connector.conn_inv st sp (loop w);
  i_known n : Connector.FOther n ∈ Connector.queue (loop w) -> (n < length (functors w))%nat;
  i_about n f : functors w !! n = Some f -> (about f < length (objects w))%nat;
  i_calls c o : objects w !! c = Some o ->
    (ncalls (functors w) (FDestroyed c) (Connector.queue (loop w)) + (if decide (x = Some c) then 1 else 0) =
     if decide (c_phase o = Down) then 1 else 0)%nat;
  i_born c o : objects w !! c = Some o -> c_phase o <> Connecting;
  i_open c o : objects w !! c = Some o -> is_open o = true -> c_close o = ToClient ->
    exists s, client w = Some s /\ connection_ s = Some c;
  i_client : client_ok sp x w
}.

Lemma client_ncalls_app fs f q q' : ncalls fs f (q ++ q') = (ncalls fs f q + ncalls fs f q')%nat.
Proof. induction q as [|g q IH]; cbn [ncalls app]; [done|]. rewrite IH. lia. Qed.
Lemma ncalls_own fs f q : Forall Connector.own q -> ncalls fs f q = O.
Proof. induction 1 as [|[] q Ho Hq IH]; cbn [ncalls is_call]; try done; by destruct Ho. Qed.
Lemma ncalls_more fs f f' q :
  (forall n, Connector.FOther n ∈ q -> (n < length fs)%nat) -> ncalls (fs ++ [f']) f q = ncalls fs f q.
Proof.
  induction q as [|g q IH]; intros Hn; cbn [ncalls]; [done|].
  rewrite IH by (intros n Hin; apply Hn; by right). f_equal.
  destruct g as [| | |n]; try done. cbn [is_call]. by rewrite lookup_app_l by (apply Hn; left).
Qed.
Lemma ncalls_none fs f q : (forall n, fs !! n <> Some f) -> ncalls fs f q = O.
Proof.
  intros Hn. induction q as [|[| | |n] q IH]; cbn [ncalls is_call]; try done.
  rewrite bool_decide_eq_false_2 by apply Hn. done.
Qed.

(** With no functor of its own to come, a connector that was stopped or that is
    connected has no channel. *)
Lemma cnt_no_own f q : Connector.own f -> no_own q -> Connector.cnt f q = O.
Proof.
  intros Hf. induction 1 as [|g q Hg Hq IH]; [done|]. rewrite Connector.cnt_cons, IH.
  destruct f, g; done.
Qed.
Lemma idle_counts l f : Connector.own f -> no_own (Connector.queue l) ->
  (Connector.cnt f (Connector.pending l) + Connector.cnt f (Connector.batch l) = 0)%nat.
Proof.
  intros Hf Hq. apply Forall_app in Hq as [Hb Hp]. by rewrite !cnt_no_own.
Qed.
Lemma idle_channel st sp l :
  Connector.conn_inv st sp l -> no_own (Connector.queue l) ->
  Connector.state_ (Connector.cn l) <> Connector.kConnecting -> Connector.chan_of l = None.
Proof.
  intros Hi Hq Hs. pose proof (idle_counts l Connector.FReset I Hq) as Hr.
  destruct Hi as [_ _ _ _ Hp _ _]. unfold Connector.phase_ok, Connector.resets, Connector.chan_of in *.
  rewrite Hr in Hp. destruct (Connector.state_ _), (Connector.channel_ _); try done; destruct Hp as (_ & Hp & _); lia.
Qed.

(** ** What the operations keep *)

(** The loop or the connector moves. *)
Lemma inv_loop st sp x w st' sp' l' taken rest extra :
  inv st sp x w -> Connector.conn_inv st' sp' l' ->
  Connector.queue (loop w) = taken ++ rest -> Connector.queue l' = rest ++ extra ->
  Forall Connector.own taken -> Forall Connector.own extra ->
  (Connector.state_ (Connector.cn (loop w)) = Connector.kConnected ->
     Connector.state_ (Connector.cn l') = Connector.kConnected /\ Connector.FReset ∉ extra /\
     (Connector.chan_of (loop w) = None -> Connector.chan_of l' = None)) \/
  (exists s, client w = Some s /\ connection_ s = None) ->
  match client w with
  | Some s => connect_ s = true -> sp' = false
  | None => if alive w then sp' = true /\ ((kept w + kept_due w = 0)%nat -> extra = [])
            else extra = [] /\ Connector.fresh l' ++ Connector.armed l' = [] /\ Connector.chan_of l' = None
  end ->
  inv st' sp' x (on_loop l' w).
Proof.
  intros [Hl Hk Ha Hc Hb Ho Hcl] Hl' Hq Hq' Ht He Hcon Hsp. split; cbn [on_loop loop functors objects client]; try done.
  - intros n. rewrite Hq'. intros [Hin|Hin]%elem_of_app.
    + apply Hk. rewrite Hq. apply elem_of_app. by right.
    + rewrite Forall_forall in He. by apply He in Hin.
  - intros c o Hco. rewrite Hq', client_ncalls_app, (ncalls_own _ _ extra) by done.
    rewrite <- (Hc c o Hco), Hq, client_ncalls_app, (ncalls_own _ _ taken) by done. lia.
  - unfold client_ok in *. cbn [on_loop client alive kept kept_due loop timers]. destruct (client w) as [s|] eqn:Es.
    + destruct Hcl as (Q1 & Q2 & Q3 & Q4 & Q5 & Hcur). do 5 (split; [done|]).
      intros c Hs. destruct (Hcur c Hs) as (o & H1 & H2 & H3 & H4 & H5 & H6). exists o. cbn [on_loop objects loop].
      destruct Hcon as [Hcon|(s' & E & Hn)]; [|congruence]. destruct (Hcon H4) as (H4' & Hr & H5').
      split_and!; auto. intros l1 n l2. cbn [on_loop loop functors]. rewrite Hq'. intros E Hf.
      apply app_eq_inv in E as [(k & E1 & E2)|(k & E1 & E2)].
      * destruct k as [|g k]; [|injection E2 as <- ->].
        { cbn in E2. rewrite <- E2 in He. by inversion He. }
        intros [Hin|Hin]%elem_of_app; [|done].
        eapply (H6 (taken ++ l1)); [|done|exact Hin]. rewrite Hq, E1. by rewrite <- app_assoc.
      * rewrite E2 in He. apply Forall_app in He as [_ He]. by inversion He.
    + destruct (alive w).
      * destruct Hcl as [_ Hcl], Hsp as [-> Hex]. split; [done|]. intros H0. rewrite Hq', (Hex H0), app_nil_r.
        specialize (Hcl H0). rewrite Hq in Hcl. by apply Forall_app in Hcl as [_ ?].
      * destruct Hcl as (Hcl & _ & _), Hsp as (-> & ? & ?). rewrite Hq', app_nil_r. split; [|done].
        rewrite Hq in Hcl. by apply Forall_app in Hcl as [_ ?].
Qed.

(** The members of the client other than its connection. *)
Lemma inv_client st sp x w s s' :
  inv st sp x w -> client w = Some s -> connection_ s' = connection_ s -> nextConnId_ s' = nextConnId_ s ->
  (connect_ s' = true -> sp = false) ->
  inv st sp x (World_ (Some s') (alive w) (loop w) (kept w) (kept_due w) (objects w) (functors w)).
Proof.
  intros [Hl Hk Ha Hc Hb Ho Hcl] Hs Hcn Hid Hsp. split; cbn [loop functors objects client]; try done.
  - intros c o H1 H2 H3. destruct (Ho c o H1 H2 H3) as (s0 & E & Hn). exists s'. split; [done|]. congruence.
  - unfold client_ok in *. rewrite Hs in Hcl. cbn. rewrite Hcn, Hid. destruct Hcl as (? & ? & ? & _ & ? & ?). done.
Qed.

(** The phase of a connection; [x'] is the connection that is then not counted. *)
Lemma inv_phase st sp x x' w c o ph :
  inv st sp x w -> objects w !! c = Some o -> ph <> Connecting ->
  (forall c', c' <> c -> (x = Some c' <-> x' = Some c')) ->
  (is_open (with_phase ph o) = true -> is_open o = true) ->
  (ncalls (functors w) (FDestroyed c) (Connector.queue (loop w)) + (if decide (x' = Some c) then 1 else 0) =
     if decide (ph = Down) then 1 else 0)%nat ->
  (forall s, client w = Some s -> connection_ s = Some c ->
     (is_open (with_phase ph o) = true \/ x' = Some c) /\
     (x' = Some c -> Connector.chan_of (loop w) = None)) ->
  inv st sp x' (World_ (client w) (alive w) (loop w) (kept w) (kept_due w) (alter (with_phase ph) c (objects w)) (functors w)).
Proof.
  intros [Hl Hk Ha Hc Hb Ho Hcl] Hco Hph Hx Hop Hn Hcur.
  assert (Hlook : forall c' o', alter (with_phase ph) c (objects w) !! c' = Some o' ->
    (c' <> c /\ objects w !! c' = Some o') \/ (c' = c /\ o' = with_phase ph o)).
  { intros c' o'. destruct (decide (c' = c)) as [->|Hne].
    - rewrite list_lookup_alter_eq, Hco. intros [= <-]. by right.
    - rewrite list_lookup_alter_ne by done. by left. }
  split; cbn [loop functors objects client]; try done.
  - intros n f Hf. rewrite length_alter. eauto.
  - intros c' o' [[Hne E]|[-> ->]]%Hlook; [|done]. rewrite <- (Hc c' o' E). f_equal.
    specialize (Hx c' Hne). destruct (decide (x = Some c')), (decide (x' = Some c')); tauto.
  - intros c' o' [[Hne E]|[-> ->]]%Hlook; [by eapply Hb|done].
  - intros c' o' [[Hne E]|[-> ->]]%Hlook; [by apply Ho|]. intros H1 H2. eapply Ho; [exact Hco|by apply Hop|done].
  - unfold client_ok in *. cbn [client alive kept kept_due timers loop]. destruct (client w) as [s|]; [|done].
    destruct Hcl as (Q1 & Q2 & Q3 & Q4 & Q5 & Hcl). do 5 (split; [done|]). intros c' Hc'.
    destruct (Hcl c' Hc') as (o' & H1' & H2' & H3' & H4' & H5' & H6').
    destruct (decide (c' = c)) as [->|Hne].
    + rewrite Hco in H1'. injection H1' as <-. destruct (Hcur s eq_refl Hc') as [Hc1 Hc2].
      exists (with_phase ph o). unfold current. cbn. rewrite list_lookup_alter_eq, Hco. split_and!; try done.
      intros [Hp|Hp]; [by apply H5'; left|by apply Hc2].
    + exists o'. cbn. rewrite list_lookup_alter_ne by done. specialize (Hx c' Hne). split_and!; try done; [tauto|].
      intros [Hp|Hp]; apply H5'; tauto.
Qed.

(** A functor of a connection is queued. *)
Lemma queue_runs st sp x w f x' :
  inv st sp x w -> (about f < length (objects w))%nat ->
  match f with
  | FForceClose _ => x' = x
  | FDestroyed c => x = Some c /\ x' = None /\ (forall s, client w = Some s -> connection_ s <> Some c)
  end ->
  runs (queueInLoop f) w (fun w' => inv st sp x' w' /\ client w' = client w /\ objects w' = objects w /\
    Connector.cn (loop w') = Connector.cn (loop w) /\ alive w' = alive w /\ kept w' = kept w /\ kept_due w' = kept_due w /\
    timers w' = timers w /\ Connector.queue (loop w') = Connector.queue (loop w) ++ [Connector.FOther (length (functors w))]).
Proof.
  intros [Hl Hk Ha Hc Hb Ho Hcl] Hab Hf. set (n := length (functors w)).
  destruct (Connector.other_good _ _ n _ Hl) as (l' & es & E & Hl' & _). cbn in E. injection E as <- <-.
  set (l' := Connector.World_ _ _ _ _ _ _) in *.
  exists (World_ (client w) (alive w) l' (kept w) (kept_due w) (objects w) (functors w ++ [f])), [].
  split; [reflexivity|]. split; [by apply tally_silent|].
  assert (Hq : Connector.queue l' = Connector.queue (loop w) ++ [Connector.FOther n]).
  { unfold Connector.queue. cbn. by rewrite app_assoc. }
  split; [|done].
  assert (Hcount : forall c, (ncalls (functors w ++ [f]) (FDestroyed c) (Connector.queue l') =
    ncalls (functors w) (FDestroyed c) (Connector.queue (loop w)) + (if decide (f = FDestroyed c) then 1 else 0))%nat).
  { intros c. rewrite Hq, client_ncalls_app, ncalls_more by done. cbn [ncalls is_call]. rewrite list_lookup_middle by done.
    f_equal. rewrite Nat.add_0_r. destruct (decide (f = FDestroyed c)) as [->|Hne]; [by rewrite bool_decide_eq_true_2|].
    rewrite bool_decide_eq_false_2 by congruence. done. }
  split; cbn [loop functors objects client]; try done.
  - intros k. rewrite Hq, length_app. cbn. intros [Hin|Hin]%elem_of_app; [apply Hk in Hin; lia|].
    apply list_elem_of_singleton in Hin. injection Hin as ->. unfold n. lia.
  - intros k g [Hg|[_ Hg]]%lookup_app_Some; [by eapply Ha|].
    apply list_lookup_singleton_Some in Hg as [_ <-]. done.
  - intros c o Hco. rewrite Hcount. specialize (Hc c o Hco). destruct f as [c0|c0].
    + subst x'. rewrite decide_False by done. lia.
    + destruct Hf as (-> & -> & _). rewrite (decide_False (P := None = Some c)) by done.
      destruct (decide (c0 = c)) as [->|Hne].
      * rewrite decide_True in Hc by done. rewrite decide_True by done. lia.
      * rewrite decide_False in Hc by congruence. rewrite decide_False by congruence. lia.
  - unfold client_ok, timers in *. cbn [client alive kept kept_due loop]. rewrite Hq.
    assert (Hno : no_own (Connector.queue (loop w)) -> no_own (Connector.queue (loop w) ++ [Connector.FOther n])).
    { intros H. apply Forall_app. split; [done|]. apply Forall_singleton. exact id. }
    destruct (client w) as [s|].
    + destruct Hcl as (Q1 & Q2 & Q3 & Q4 & Q5 & Hcur). do 5 (split; [done|]). intros c Hs.
      destruct (Hcur c Hs) as (o & H1 & H2 & H3 & H4 & H5 & H6). exists o. split_and!; try done.
      * destruct f as [c0|c0]; [by subst x'|]. destruct Hf as (-> & -> & Hne). specialize (Hne s eq_refl).
        destruct H3 as [H3|[= ->]]; [by left|done].
      * intros [Hp|Hp]; apply H5; [by left|]. destruct f as [c0|c0]; [subst x'; by right|]. destruct Hf as (_ & -> & _). done.
      * intros l1 k l2. cbn [loop functors]. rewrite Hq. intros E1 Hf1.
        destruct (decide (l2 = [])) as [->|Hne]; [apply not_elem_of_nil|].
        destruct (exists_last Hne) as (l3 & g & ->). rewrite app_comm_cons, app_assoc in E1.
        apply app_inj_tail in E1 as [E1 <-]. intros [Hin|Hin]%elem_of_app.
        -- eapply (H6 l1 k l3 E1); [|done]. apply lookup_app_Some in Hf1 as [Hf1|[Hge _]]; [done|].
           assert (k < n)%nat; [|unfold n in *; lia]. apply Hk. rewrite E1. apply elem_of_app. right. left.
        -- by apply list_elem_of_singleton in Hin.
    + destruct (alive w); [|by destruct Hcl as (? & ? & ?); auto].
      destruct Hcl. auto.
Qed.

(** The actions that tell of a connection going from one phase to another. *)
Definition told (c : nat) (ph ph' : phase) (es : list act) : Prop :=
  (occ (ConnectionCb c true) es + ups (Some ph) = ups (Some ph'))%nat /\
  (occ (ConnectionCb c false) es + downs (Some ph) = downs (Some ph'))%nat /\
  (occ (Destroyed c) es + ends (Some ph) = ends (Some ph'))%nat /\ sockets es = [] /\
  forall c' b, c' <> c -> occ (ConnectionCb c' b) es = O /\ occ (Destroyed c') es = O.

Definition set_phase (c : nat) (ph : phase) (w : World) : World :=
  World_ (client w) (alive w) (loop w) (kept w) (kept_due w) (alter (with_phase ph) c (objects w)) (functors w).

Lemma tally_phase w c o ph es :
  objects w !! c = Some o -> told c (c_phase o) ph es -> tally w es (set_phase c ph w).
Proof.
  intros Hc (U & D & E & F & Hne).
  assert (Hsame : forall c', c' <> c -> phase_of (set_phase c ph w) c' = phase_of w c').
  { intros c' Hc'. unfold phase_of. cbn. by rewrite list_lookup_alter_ne. }
  assert (H1 : phase_of w c = Some (c_phase o)) by (unfold phase_of; by rewrite Hc).
  assert (H2 : phase_of (set_phase c ph w) c = Some ph) by (unfold phase_of; cbn; by rewrite list_lookup_alter_eq, Hc).
  split.
  1-3: intros c'; destruct (decide (c' = c)) as [->|Hc']; [by rewrite H1, H2|];
    rewrite Hsame by done; destruct (Hne c' true Hc'), (Hne c' false Hc'); lia.
  rewrite F, app_nil_r. cbn. apply list_eq. intros i. rewrite !list_lookup_fmap.
  destruct (decide (i = c)) as [->|Hi]; [rewrite list_lookup_alter_eq; by destruct (objects w !! c)|].
  by rewrite list_lookup_alter_ne.
Qed.

Lemma told_nothing c ph ph' :
  ph = Up \/ ph = Half -> ph' = Up \/ ph' = Half -> told c ph ph' [].
Proof. intros [-> | ->] [-> | ->]; done. Qed.
Lemma told_down c ph : ph = Up \/ ph = Half -> told c ph Down [ConnectionCb c false].
Proof.
  intros Hp. unfold told. cbn [occ]. rewrite (decide_True (P := ConnectionCb c false = ConnectionCb c false)) by done.
  rewrite !decide_False by congruence. split; [by destruct Hp as [-> | ->]|]. split; [by destruct Hp as [-> | ->]|].
  split; [by destruct Hp as [-> | ->]|]. split; [done|]. intros c' b Hc. by rewrite !decide_False by congruence.
Qed.
Lemma told_gone c : told c Down Gone [Destroyed c].
Proof.
  unfold told. cbn [occ]. rewrite (decide_True (P := Destroyed c = Destroyed c)) by done. rewrite !decide_False by congruence.
  split_and!; try done; intros c' b Hc; by rewrite !decide_False by congruence.
Qed.

Lemma runs_phase c o ph (k : H unit) w Q :
  objects w !! c = Some o -> told c (c_phase o) ph [] ->
  runs k (set_phase c ph w) Q -> runs (do _ <- setState c ph; k) w Q.
Proof.
  intros Hc Ht Hk. apply runs_then. exists (set_phase c ph w), []. split; [done|].
  split; [by eapply tally_phase|done].
Qed.
Lemma runs_phase_emit c o ph a (k : H unit) w Q :
  objects w !! c = Some o -> told c (c_phase o) ph [a] ->
  runs k (set_phase c ph w) Q -> runs (do _ <- setState c ph; do _ <- emit a; k) w Q.
Proof.
  intros Hc Ht (w' & es & E & T & HQ). exists w', ([a] ++ es). unfold mthen. cbn -[set_phase].
  change (World_ _ _ _ _ _ _ _) with (set_phase c ph w). rewrite E. split; [done|].
  split; [|done]. by apply (client_tally_trans w [a] (set_phase c ph w)); [eapply tally_phase|].
Qed.

(** *** The API of the connection *)

Lemma not_down_calls st sp x w c o :
  inv st sp x w -> objects w !! c = Some o -> is_open o = true ->
  ncalls (functors w) (FDestroyed c) (Connector.queue (loop w)) = O /\ x <> Some c.
Proof.
  intros Hi Hc Ho. pose proof (i_calls _ _ _ _ Hi c o Hc) as Hn. unfold is_open in Ho.
  apply bool_decide_eq_true in Ho. rewrite (decide_False (P := c_phase o = Down)) in Hn by (destruct Ho; congruence).
  destruct (decide (x = Some c)); [lia|]. split; [lia|done].
Qed.

Lemma half_inv st sp x w c o :
  inv st sp x w -> objects w !! c = Some o -> is_open o = true -> inv st sp x (set_phase c Half w).
Proof.
  intros Hi Hc Ho. destruct (not_down_calls _ _ _ _ _ _ Hi Hc Ho) as [Hn Hx].
  eapply inv_phase; try done.
  - rewrite Hn, decide_False by done. done.
  - intros s _ _. split; [by left|done].
Qed.

Definition keeps (w w' : World) : Prop :=
  (forall c, c_close <$> objects w' !! c = c_close <$> objects w !! c) /\
  (connection_ <$> client w') = (connection_ <$> client w).
Lemma keeps_trans w w1 w2 : keeps w w1 -> keeps w1 w2 -> keeps w w2.
Proof. intros [A B] [C D]. split; [intros c; by rewrite C, A|by rewrite D, B]. Qed.
Lemma keeps_phase c ph w : keeps w (set_phase c ph w).
Proof.
  split; [|done]. intros c'. cbn. destruct (decide (c' = c)) as [->|Hne];
    [rewrite list_lookup_alter_eq; by destruct (objects w !! c)|by rewrite list_lookup_alter_ne].
Qed.

Lemma client_shutdown_good st sp x w c o :
  inv st sp x w -> objects w !! c = Some o ->
  runs (shutdown c) w (fun w' => inv st sp x w' /\ keeps w w').
Proof.
  intros Hi Hc. unfold shutdown. eapply runs_conn; [done|]. destruct (decide (c_phase o = Up)) as [Hu|Hu]; [|by apply runs_ret].
  exists (set_phase c Half w), []. split; [done|].
  split; [eapply tally_phase; [done|]; rewrite Hu; apply told_nothing; auto|].
  split; [|apply keeps_phase]. eapply half_inv; [done..|]. unfold is_open. by rewrite bool_decide_eq_true_2 by auto.
Qed.

Lemma forceClose_good st sp x w c o :
  inv st sp x w -> objects w !! c = Some o ->
  runs (forceClose c) w (fun w' => inv st sp x w' /\ client w' = client w /\ alive w' = alive w /\
    kept w' = kept w /\ kept_due w' = kept_due w /\ timers w' = timers w /\
    Connector.cn (loop w') = Connector.cn (loop w) /\
    (no_own (Connector.queue (loop w)) -> no_own (Connector.queue (loop w'))) /\
    (forall c', c_close <$> objects w' !! c' = c_close <$> objects w !! c')).
Proof.
  intros Hi Hc. unfold forceClose. eapply runs_conn; [done|].
  destruct (is_open o) eqn:Ho; [|by apply runs_ret].
  assert (Hp : c_phase o = Up \/ c_phase o = Half) by (by apply bool_decide_eq_true in Ho).
  eapply runs_phase; [done|by apply told_nothing; auto|].
  eapply runs_mono.
  - apply (queue_runs st sp x (set_phase c Half w) (FForceClose c) x); [by eapply half_inv| |done].
    cbn. rewrite length_alter. by apply lookup_lt_Some in Hc.
  - intros w' (H1 & H2 & H3 & H4 & H5 & H6 & H7 & H8 & H9). rewrite H2, H5, H6, H7, H8, H9, H4.
    split_and!; try done.
    + intros Hn. apply Forall_app. split; [done|]. apply Forall_singleton. exact id.
    + intros c'. rewrite H3. apply keeps_phase.
Qed.

(** *** Calls of the connector *)

Lemma last_handed es fd : last es = Some (Connector.NewConnection fd) -> fd ∈ Connector.handed es.
Proof.
  intros Hl. apply list_elem_of_omap. exists (Connector.NewConnection fd). split; [|done].
  apply last_Some in Hl as [l ->]. apply elem_of_app. right. left.
Qed.

Lemma connector_silent peer m w l' es (Q : World -> Prop) :
  alive w = true -> m (loop w) = Ok (tt, l', es) -> Connector.handed es = [] ->
  Q (on_loop l' w) -> runs (connector peer m) w Q.
Proof.
  intros Ha Hm Hh HQ. exists (on_loop l' w), (map OfConnector es). split; [|split; [by apply tally_connector|done]].
  unfold connector. rewrite Ha, Hm. unfold mthen.
  destruct (last es) as [[]|] eqn:El; cbn; rewrite ?app_nil_r; try done.
  apply last_handed in El. rewrite Hh in El. by apply elem_of_nil in El.
Qed.

Lemma runs_set_client s' (k : H unit) w Q :
  runs k (World_ s' (alive w) (loop w) (kept w) (kept_due w) (objects w) (functors w)) Q ->
  runs (do _ <- set_client s'; k) w Q.
Proof. intros Hk. apply runs_then. by apply runs_mod. Qed.
Lemma runs_set_connect b (k : H unit) w s Q :
  client w = Some s ->
  runs k (World_ (Some (Client_ (name_ s) (retry_ s) b (nextConnId_ s) (connection_ s)))
            (alive w) (loop w) (kept w) (kept_due w) (objects w) (functors w)) Q ->
  runs (do _ <- set_connect b; k) w Q.
Proof. intros Hs Hk. apply runs_then. eapply runs_this; [done|]. by apply runs_mod. Qed.

Lemma client_alive st sp x w s : inv st sp x w -> client w = Some s -> alive w = true.
Proof. intros Hi Hs. pose proof (i_client _ _ _ _ Hi) as Hc. unfold client_ok in Hc. rewrite Hs in Hc. apply Hc. Qed.

(** [Connector::stop], which also the destructor calls. *)
Definition with_connect (b : bool) (s : Client) : Client := Client_ (name_ s) (retry_ s) b (nextConnId_ s) (connection_ s).
Definition with_client (s : option Client) (w : World) : World :=
  World_ s (alive w) (loop w) (kept w) (kept_due w) (objects w) (functors w).

Lemma connector_stop_good st sp x w s (Q : World -> Prop) :
  inv st sp x w -> client w = Some s ->
  (forall l', timers (on_loop l' w) = timers w ->
     inv st true x (with_client (Some (with_connect false s)) (on_loop l' w)) -> Q (on_loop l' w)) ->
  runs (connector [] Connector.stop) w Q.
Proof.
  intros Hi Hs HQ. pose proof (client_alive _ _ _ _ _ Hi Hs) as Ha.
  destruct (Connector.stop_good _ _ _ (i_loop _ _ _ _ Hi)) as (l' & es & E & Hl' & _).
  cbn in E. injection E as <- <-. set (l' := Connector.World_ _ _ _ _ _ _) in *.
  eapply (connector_silent [] _ w l' []); [done..|]. apply HQ; [done|].
  apply (inv_loop st sp x (with_client (Some (with_connect false s)) w) st true l' [] (Connector.queue (loop w)) [Connector.FStop]).
  - by eapply inv_client.
  - done.
  - done.
  - unfold Connector.queue. cbn. by rewrite app_assoc.
  - constructor.
  - by repeat constructor.
  - left. intros Hst. split; [exact Hst|]. split; [|exact id]. by intros ?%list_elem_of_singleton.
  - done.
Qed.

(** *** Calls of the user *)

Lemma user_good st sp x w s u :
  inv st sp x w -> client w = Some s ->
  runs (run_user u) w (fun w' => keeps w w' /\
    exists sp', inv st sp' x w' /\ (sp' = true -> sp = true \/ u = CStop)).
Proof.
  intros Hi Hs. pose proof (i_client _ _ _ _ Hi) as Hcl. unfold client_ok in Hcl. rewrite Hs in Hcl.
  destruct Hcl as (Q1 & Q2 & Q3 & Q4 & Q5 & Hcur). destruct u; cbn [run_user].
  - eapply runs_set_connect; [done|].
    eapply (connector_stop_good st sp x); [by eapply inv_client|done|].
    intros l' _ Hi'. split; [|exists true; auto]. split; [done|]. cbn. by rewrite Hs.
  - eapply runs_set_connect; [done|]. eapply runs_this; [done|]. cbn [connection_].
    set (w1 := World_ _ _ _ _ _ _ _).
    assert (Hi1 : inv st sp x w1) by (by eapply inv_client).
    assert (Hk1 : keeps w w1) by (split; [done|]; cbn; by rewrite Hs).
    destruct (connection_ s) as [c|] eqn:Ec; [|apply runs_ret; eauto].
    destruct (Hcur c eq_refl) as (o & Hc & _).
    eapply runs_mono; [by apply (client_shutdown_good st sp x w1 c o)|]. intros w' [H1 H2].
    split; [by eapply keeps_trans|eauto].
  - eapply runs_this; [done|]. apply runs_mod; [done|]. split; [split; [done|]; cbn; by rewrite Hs|].
    exists sp. split; [|auto]. by eapply inv_client.
Qed.

Lemma users_good calls st sp x w :
  inv st sp x w -> (client w = None -> calls = []) ->
  runs (for_ calls run_user) w (fun w' => keeps w w' /\
    exists sp', inv st sp' x w' /\ (sp' = true -> sp = true \/ CStop ∈ calls)).
Proof.
  revert sp w. induction calls as [|u calls IH]; intros sp w Hi Hn; cbn [for_].
  { apply runs_ret. split; [done|]. exists sp. auto. }
  destruct (client w) as [s|] eqn:Hs; [|by specialize (Hn eq_refl)].
  apply runs_then. eapply runs_mono; [by apply (user_good st sp x w s u)|].
  intros w1 (K & sp1 & Hi1 & Hsp1). eapply runs_mono; [apply (IH sp1 w1 Hi1)|].
  { intros Hn1. destruct K as [_ K]. by rewrite Hs, Hn1 in K. }
  intros w2 (K2 & sp2 & Hi2 & Hsp2). split; [by eapply keeps_trans|]. exists sp2. split; [done|].
  intros E. destruct (Hsp2 E) as [E1|E1]; [|right; by right]. destruct (Hsp1 E1) as [?| ->]; [by left|right; left].
Qed.

(** *** The end of a connection *)

Lemma restart_runs st sp w s dial :
  inv st sp None w -> client w = Some s -> connect_ s = true -> connection_ s = None ->
  Connector.state_ (Connector.cn (loop w)) = Connector.kConnected -> Connector.chan_of (loop w) = None ->
  runs (connector [] (Connector.restart dial)) w (fun w' => inv st sp None w').
Proof.
  intros Hi Hs Hc Hn Hst Hch. pose proof (i_loop _ _ _ _ Hi) as Hl.
  pose proof (i_client _ _ _ _ Hi) as Hcl. unfold client_ok in Hcl. rewrite Hs in Hcl.
  destruct Hcl as (Q1 & Q2 & Q3 & Q4 & Q5 & _). specialize (Q4 Hc). subst sp.
  assert (st = true) as ->.
  { destruct st; [done|]. destruct (Connector.conn_inv_new _ _ _ Hl eq_refl) as [E _].
    rewrite E in Hst. done. }
  destruct (Connector.restart_good _ dial Hl Hst Hch) as (l' & es & E & Hl' & _).
  cbn [Connector.step] in E. pose proof E as E0. unfold Connector.restart, mthen in E. cbn -[Connector.startInLoop] in E.
  destruct (Connector.startInLoop dial _) as [[[[] l1] es1]|] eqn:E1; [|done]. cbn in E. injection E as -> ->.
  apply Connector.startInLoop_frame in E1 as (Hq & Hh & _).
  eapply connector_silent; [done|exact E0|exact Hh|].
  eapply (inv_loop _ _ _ _ _ _ _ [] (Connector.queue (loop w)) []); [exact Hi|exact Hl'|done|rewrite app_nil_r; exact Hq|constructor|constructor| |].
  - right. eauto.
  - by rewrite Hs.
Qed.

Lemma removeConnection_good st sp w c s dial o :
  inv st sp (Some c) w -> client w = Some s -> connection_ s = Some c -> objects w !! c = Some o ->
  runs (removeConnection c dial) w (fun w' => inv st sp None w').
Proof.
  intros Hi Hs Hc Ho. pose proof Hi as [Hl Hk Ha Hn Hb Hop Hcl]. unfold client_ok in Hcl. rewrite Hs in Hcl.
  destruct Hcl as (Q1 & Q2 & Q3 & Q4 & Q5 & Hcur). destruct (Hcur c Hc) as (o' & _ & _ & _ & Hst & Hch & _).
  specialize (Hch (or_intror eq_refl)).
  unfold removeConnection. eapply runs_this; [done|]. apply runs_assert; [by apply bool_decide_eq_true|].
  set (s1 := Client_ (name_ s) (retry_ s) (connect_ s) (nextConnId_ s) None).
  apply runs_then. eapply runs_this; [done|]. apply runs_mod; [done|]. fold s1.
  assert (Hi1 : inv st sp (Some c) (with_client (Some s1) w)).
  { split; cbn [with_client loop functors objects client]; try done.
    intros c' o1 H1 H2 H3. destruct (Hop c' o1 H1 H2 H3) as (s2 & E & E2). exfalso.
    rewrite Hs in E. injection E as <-. rewrite Hc in E2. injection E2 as <-.
    by destruct (not_down_calls _ _ _ _ _ _ Hi H1 H2) as [_ ?]. }
  apply runs_then. eapply runs_mono.
  { apply (queue_runs st sp (Some c) (with_client (Some s1) w) (FDestroyed c) None Hi1); [cbn; by apply lookup_lt_Some in Ho|].
    split_and!; try done. by intros s2 [= <-]. }
  intros w' (Hi' & E1 & E2 & E3 & E4 & _). cbn in E1, E2, E3, E4.
  destruct (retry_ s && connect_ s) eqn:Er; [|by apply runs_ret]. apply andb_true_iff in Er as [_ Er].
  eapply restart_runs; [exact Hi'|exact E1|done|done|by rewrite E3|]. unfold Connector.chan_of in *. by rewrite E3.
Qed.

Lemma handleClose_good st sp w c o calls dial :
  inv st sp None w -> objects w !! c = Some o -> is_open o = true -> (client w = None -> calls = []) ->
  (c_close o = ToClient -> Connector.chan_of (loop w) = None) ->
  runs (handleClose c calls dial) w (fun w' => exists sp', inv st sp' None w' /\ (sp' = true -> sp = true \/ CStop ∈ calls)).
Proof.
  intros Hi Hc Ho Hn Hch. unfold handleClose. eapply runs_conn; [done|]. apply runs_assert; [done|].
  destruct (not_down_calls _ _ _ _ _ _ Hi Hc Ho) as [Hcalls _].
  assert (Hp : c_phase o = Up \/ c_phase o = Half) by (by apply bool_decide_eq_true in Ho).
  eapply runs_phase_emit; [done|by apply told_down|].
  assert (Hi1 : inv st sp (Some c) (set_phase c Down w)).
  { eapply inv_phase; [exact Hi|exact Hc|done|..].
    - intros c' Hne. split; [done|]. intros [= ->]. done.
    - done.
    - by rewrite Hcalls, !decide_True by done.
    - intros s Hs Hcn. split; [by right|]. intros _. apply Hch.
      pose proof (i_client _ _ _ _ Hi) as Hcl. unfold client_ok in Hcl. rewrite Hs in Hcl.
      destruct Hcl as (_ & _ & _ & _ & _ & Hcur). destruct (Hcur c Hcn) as (o' & E & Hcl & _).
      rewrite Hc in E. by injection E as <-. }
  apply runs_then. eapply runs_mono; [by apply (users_good calls st sp (Some c) _ Hi1)|].
  intros w' ((K1 & K2) & sp' & Hi' & Hsp'). specialize (K1 c). cbn in K1, K2.
  rewrite list_lookup_alter_eq, Hc in K1. cbn in K1.
  destruct (objects w' !! c) as [o1|] eqn:Ho1; [|done]. cbn in K1. injection K1 as K1.
  destruct (c_close o) eqn:Hcl.
  - destruct (i_open _ _ _ _ Hi c o Hc Ho Hcl) as (s & Hs & Hcn). rewrite Hs in K2. cbn in K2. rewrite Hcn in K2.
    destruct (client w') as [s'|] eqn:Hs'; [|done]. cbn in K2. injection K2 as K2.
    eapply runs_mono; [by eapply removeConnection_good|]. eauto.
  - eapply runs_mono.
    + apply (queue_runs st sp' (Some c) w' (FDestroyed c) None Hi'); [by apply lookup_lt_Some in Ho1|].
      split_and!; try done. intros s Hs Hcn. pose proof (i_client _ _ _ _ Hi') as Hcl'. unfold client_ok in Hcl'.
      rewrite Hs in Hcl'. destruct Hcl' as (_ & _ & _ & _ & _ & Hcur). destruct (Hcur c Hcn) as (o2 & E & Hcl2 & _).
      rewrite Ho1 in E. injection E as <-. congruence.
    + intros w2 (H2 & _). eauto.
Qed.

(** *** Functors *)

(** A functor of a connection is taken off the queue. *)
Lemma pop_inv st sp w n q f :
  inv st sp None w -> Connector.batch (loop w) = Connector.FOther n :: q -> Connector.handling (loop w) = false ->
  functors w !! n = Some f ->
  inv st sp (match f with FDestroyed c => Some c | FForceClose _ => None end) (on_loop (pop_functor q (loop w)) w).
Proof.
  intros Hi Hb Hh Hf. pose proof Hi as [Hl Hk Ha Hn Hbn Hop Hcl].
  assert (Hq : Connector.queue (loop w) = Connector.FOther n :: Connector.queue (pop_functor q (loop w))).
  { unfold Connector.queue, pop_functor. cbn. by rewrite Hb. }
  assert (Hl' : Connector.conn_inv st sp (pop_functor q (loop w))).
  { destruct (Connector.run_good _ _ (0, 0) _ Hl Hh) as (l' & es & E & Hl' & _). cbn in E. rewrite Hb in E.
    cbn in E. injection E as <- _. exact Hl'. }
  set (x := match f with FDestroyed c => Some c | FForceClose _ => None end).
  assert (Hcount : forall c, (ncalls (functors w) (FDestroyed c) (Connector.queue (pop_functor q (loop w))) +
      (if decide (x = Some c) then 1 else 0) = ncalls (functors w) (FDestroyed c) (Connector.queue (loop w)))%nat).
  { intros c. rewrite Hq. cbn [ncalls is_call]. rewrite Hf. subst x. destruct f as [c0|c0].
    - rewrite decide_False, bool_decide_eq_false_2 by congruence. lia.
    - destruct (decide (c0 = c)) as [->|Hne].
      + rewrite decide_True, bool_decide_eq_true_2 by done. lia.
      + rewrite decide_False, bool_decide_eq_false_2 by congruence. lia. }
  split; cbn [on_loop loop functors objects client]; try done.
  - intros k Hin. apply Hk. rewrite Hq. by right.
  - intros c o Hc. rewrite Hcount. rewrite <- (Hn c o Hc), (decide_False (P := None = Some c)) by done. lia.
  - unfold client_ok in *. cbn [on_loop client alive kept kept_due loop timers]. destruct (client w) as [s|].
    + destruct Hcl as (Q1 & Q2 & Q3 & Q4 & Q5 & Hcur). do 5 (split; [done|]). intros c Hs.
      destruct (Hcur c Hs) as (o & H1 & H2 & H3 & H4 & H5 & H6). destruct H3 as [H3|?]; [|done].
      exists o. cbn [on_loop loop objects]. split_and!; auto.
      * intros [Hp|Hp]; [by apply H5; left|]. exfalso.
        assert (Hx : ncalls (functors w) (FDestroyed c) (Connector.queue (loop w)) <> O).
        { rewrite <- Hcount, decide_True by done. lia. }
        by destruct (not_down_calls _ _ _ _ _ _ Hi H1 H3).
      * intros l1 k l2. cbn [on_loop loop functors]. intros E. apply (H6 (Connector.FOther n :: l1)). by rewrite Hq, E.
    + rewrite Hq in Hcl. destruct (alive w).
      * destruct Hcl as [? Hcl]. split; [done|]. intros H0. specialize (Hcl H0). by inversion Hcl.
      * destruct Hcl as [Hcl ?]. split; [by inversion Hcl|done].
Qed.

Lemma destroyed_good st sp w c o :
  inv st sp (Some c) w -> objects w !! c = Some o ->
  (forall s, client w = Some s -> connection_ s <> Some c) ->
  runs (connectDestroyed c) w (fun w' => inv st sp None w').
Proof.
  intros Hi Hc Hcur. pose proof (i_calls _ _ _ _ Hi c o Hc) as Hn. rewrite decide_True in Hn by done.
  destruct (decide (c_phase o = Down)) as [Hd|]; [|lia].
  unfold connectDestroyed. eapply runs_conn; [done|]. rewrite Hd.
  exists (set_phase c Gone w), [Destroyed c]. split; [done|].
  split; [eapply tally_phase; [done|]; rewrite Hd; apply told_gone|].
  eapply inv_phase; [exact Hi|exact Hc|done|..].
  - intros c' Hne. split; [intros [= ->]; done|done].
  - done.
  - rewrite !decide_False by done. lia.
  - intros s Hs Hcn. by destruct (Hcur s Hs).
Qed.

Lemma cnt_notin f q : Connector.own f -> f ∉ q -> Connector.cnt f q = O.
Proof.
  intros Hf. induction q as [|g q IH]; [done|]. rewrite not_elem_of_cons, Connector.cnt_cons. intros [Hne Hq].
  rewrite IH by done. by destruct f, g.
Qed.

Lemma tally_objects w w1 es w' : objects w1 = objects w -> tally w1 es w' -> tally w es w'.
Proof. intros E [U D Z F]. split; unfold phase_of in *; rewrite E in *; done. Qed.

Lemma tally_target w es w1 w' : objects w' = objects w1 -> tally w es w1 -> tally w es w'.
Proof. intros E [U D Z F]. split; unfold phase_of in *; rewrite E; done. Qed.

(** A forced close is due: the connector has deleted its channel. *)
Lemma force_channel st sp w n q c :
  inv st sp None w -> Connector.batch (loop w) = Connector.FOther n :: q -> functors w !! n = Some (FForceClose c) ->
  inv st sp None (on_loop (pop_functor q (loop w)) w) -> current None w c -> Connector.chan_of (loop w) = None.
Proof.
  intros Hi Hb Hf Hi1 (o & _ & _ & _ & Hs & _ & Hord).
  pose proof (i_loop _ _ _ _ Hi1) as [_ _ _ _ Hp _ _]. cbn [on_loop loop] in Hp.
  assert (Hq : Connector.queue (loop w) = [] ++ Connector.FOther n :: Connector.queue (pop_functor q (loop w))).
  { unfold Connector.queue, pop_functor. cbn. by rewrite Hb. }
  pose proof (Hord _ _ _ Hq Hf) as Hin. unfold Connector.queue in Hin.
  rewrite not_elem_of_app in Hin. destruct Hin as [Hin1 Hin2]. unfold pop_functor in Hp, Hin1, Hin2. cbn in Hin1, Hin2.
  unfold Connector.phase_ok, Connector.resets in Hp. cbn in Hp. rewrite Hs in Hp. unfold Connector.chan_of.
  destruct (Connector.channel_ (Connector.cn (loop w))); [|done]. destruct Hp as (_ & Hp & _).
  rewrite !cnt_notin in Hp by done. lia.
Qed.

Lemma current_of st sp x w s c : inv st sp x w -> client w = Some s -> connection_ s = Some c -> current x w c.
Proof.
  intros Hi Hs Hc. pose proof (i_client _ _ _ _ Hi) as Hcl. unfold client_ok in Hcl. rewrite Hs in Hcl. by apply Hcl.
Qed.

Lemma functor_good st sp w n q f calls dial :
  inv st sp None w -> Connector.batch (loop w) = Connector.FOther n :: q -> Connector.handling (loop w) = false ->
  functors w !! n = Some f -> (client w = None -> calls = []) ->
  runs (run_functor f calls dial) (on_loop (pop_functor q (loop w)) w)
    (fun w' => exists sp', inv st sp' None w' /\ (sp' = true -> sp = true \/ CStop ∈ calls)).
Proof.
  intros Hi Hb Hh Hf Hn. pose proof (pop_inv _ _ _ _ _ _ Hi Hb Hh Hf) as Hi1. set (w1 := on_loop _ w) in *.
  destruct (lookup_lt_is_Some_2 (objects w) (about f) (i_about _ _ _ _ Hi _ _ Hf)) as [o Ho].
  destruct f as [c|c]; cbn [run_functor about] in *.
  - unfold forceCloseInLoop. eapply runs_conn; [exact Ho|]. destruct (is_open o) eqn:Eo; [|apply runs_ret; eauto].
    eapply handleClose_good; [exact Hi1|exact Ho|done|done|]. intros Hcl.
    destruct (i_open _ _ _ _ Hi c o Ho Eo Hcl) as (s & Hs & Hcn).
    eapply (force_channel _ _ _ _ _ _ Hi Hb Hf Hi1). by eapply current_of.
  - eapply runs_mono; [apply (destroyed_good st sp w1 c o Hi1 Ho)|intros w' H'; eauto].
    intros s Hs Hcn. destruct (current_of _ _ _ _ _ _ Hi Hs Hcn) as (o' & E & _ & [Hopen|?] & _); [|done].
    pose proof (i_calls _ _ _ _ Hi1 c o' E) as Hc. rewrite (decide_True (P := Some c = Some c)) in Hc by done.
    apply bool_decide_eq_true in Hopen. rewrite decide_False in Hc by (destruct Hopen; congruence). lia.
Qed.

(** *** The connector moves *)

Lemma stopped_idle st l : Connector.conn_inv st true l -> no_own (Connector.queue l) ->
  Connector.state_ (Connector.cn l) <> Connector.kConnecting.
Proof. intros Hl Hq. apply (Connector.ci_stopped _ _ _ Hl eq_refl). by apply idle_counts. Qed.

Lemma inv_moved st sp w l' es :
  inv st sp None w -> Connector.moved (loop w) es l' -> Connector.conn_inv st sp l' -> alive w = true ->
  inv st sp None (on_loop l' w).
Proof.
  intros Hi [(taken & rest & extra & Hq & Hq' & Ht & He) Hcn _] Hl' Ha.
  eapply (inv_loop _ _ _ _ _ _ _ taken rest extra Hi Hl' Hq Hq' Ht).
  - destruct He as [->|[-> _]]; by repeat constructor.
  - left. intros Hs. destruct (Hcn Hs) as [? ?]. split_and!; try done.
    destruct He as [->|[_ E]]; [apply not_elem_of_nil|congruence].
  - pose proof (i_client _ _ _ _ Hi) as Hcl. unfold client_ok in Hcl. destruct (client w); [by apply Hcl|].
    rewrite Ha in *. destruct Hcl as [-> Hno]. split; [done|]. intros H0.
    destruct He as [->|[_ E]]; [done|]. by apply (stopped_idle _ _ (i_loop _ _ _ _ Hi) (Hno H0)) in E.
Qed.

Lemma drop_good st sp w : inv st sp None w -> runs drop_connector w (fun w' => inv st sp None w').
Proof.
  intros Hi. pose proof Hi as [Hl Hk Hab Hc Hb Ho Hcl]. unfold client_ok, timers in Hcl.
  assert (Hsame : inv st sp None w -> runs (mret tt) w (fun w' => inv st sp None w')) by (intros; by apply runs_ret).
  unfold runs, drop_connector in *.
  destruct (client w) eqn:Es; [by apply Hsame|]. destruct (kept w) eqn:Ek; [|by apply Hsame].
  destruct (kept_due w) eqn:Ed; [|by apply Hsame].
  destruct (Connector.fresh (loop w) ++ Connector.armed (loop w)) eqn:Et; [|by apply Hsame].
  destruct (alive w) eqn:Ea; [|by apply Hsame]. destruct Hcl as [-> Hno]. specialize (Hno eq_refl).
  pose proof (idle_channel _ _ _ Hl Hno (stopped_idle _ _ Hl Hno)) as Hch.
  unfold Connector.chan_of in Hch. unfold Connector.delete_Connector. rewrite Hch.
  eexists _, _. split; [reflexivity|]. split; [by apply tally_silent|].
  split; cbn [loop functors objects client]; done.
Qed.

(** A timer of [retry]. *)
Lemma client_timer_good st sp w i dial :
  inv st sp None w -> Connector.possible (loop w) (Connector.EvTimer i dial) ->
  runs (step (EvTimer i dial)) w (fun w' => inv st sp None w').
Proof.
  intros Hi Hpo. pose proof (i_loop _ _ _ _ Hi) as Hl.
  assert (Ha : alive w = true).
  { destruct (alive w) eqn:Ea; [done|]. pose proof (i_client _ _ _ _ Hi) as Hcl. unfold client_ok in Hcl.
    rewrite Ea in Hcl. destruct (client w); [by destruct Hcl|]. destruct Hcl as (_ & Ht & _), Hpo as [_ Hlt].
    unfold timers in Ht. apply app_nil in Ht as [_ Ht]. rewrite Ht in Hlt. cbn in Hlt. lia. }
  destruct (Connector.timer_good _ _ _ i dial Hl Hpo) as (l' & es & E & Hl' & _).
  assert (Hm : Connector.moved (loop w) es l' /\ Connector.handed es = []).
  { pose proof E as E0. cbn [Connector.step] in E0. unfold mthen, mmod in E0.
    destruct (Connector.startInLoop dial _) as [[[[] l1] es1]|] eqn:E1; [|done]. injection E0 as <- <-.
    split; [|by apply Connector.startInLoop_frame in E1 as (_ & ? & _)].
    refine (Connector.start_moved dial _ _ _ _ [] _ _ _ E1); [done|constructor|done]. }
  destruct Hm as [Hm Hh].
  cbn [step]. apply runs_then. eapply connector_silent; [done|exact E|done|].
  apply drop_good. by eapply inv_moved.
Qed.

(** The next functor of the connector. *)
Lemma own_functor_good st sp w g q dial :
  inv st sp None w -> Connector.batch (loop w) = g :: q -> Connector.own g -> Connector.handling (loop w) = false ->
  runs (connector [] (Connector.step (Connector.EvRun dial))) w (fun w' => inv st sp None w').
Proof.
  intros Hi Hb Hg Hh. pose proof (i_loop _ _ _ _ Hi) as Hl.
  assert (Ha : alive w = true).
  { destruct (alive w) eqn:Ea; [done|]. pose proof (i_client _ _ _ _ Hi) as Hcl. unfold client_ok in Hcl.
    rewrite Ea in Hcl. destruct (client w); [by destruct Hcl|]. destruct Hcl as (Hno & _ & _).
    unfold no_own, Connector.queue in Hno. rewrite Hb in Hno. by inversion Hno. }
  destruct (Connector.run_good _ _ dial _ Hl Hh) as (l' & es & E & Hl' & _).
  pose proof (Connector.run_moved _ _ _ _ _ _ _ _ Hl Hb Hg E) as Hm.
  eapply connector_silent; [done|exact E| |by eapply inv_moved].
  apply (Connector.run_silent _ _ _ _ _ _ Hb E).
Qed.

(** *** A new connection *)

Definition connected (l' : Connector.World) (s : Client) (fd : Z) (peer : bytes) (w : World) : World :=
  World_ (Some (Client_ (name_ s) (retry_ s) (connect_ s) (nextConnId_ s + 1) (Some (length (objects w)))))
    (alive w) l' (kept w) (kept_due w) (objects w ++ [Conn_ (connName s peer) fd Up ToClient false]) (functors w).

Lemma connector_handed peer m w l' es0 fd s :
  alive w = true -> m (loop w) = Ok (tt, l', es0 ++ [Connector.NewConnection fd]) ->
  client w = Some s -> 1 <= nextConnId_ s < 2147483647 ->
  connector peer m w = Ok (tt, connected l' s fd peer w,
    map OfConnector (es0 ++ [Connector.NewConnection fd]) ++ [ConnectionCb (length (objects w)) true]).
Proof.
  intros Ha Hm Hs Hn. unfold connector. rewrite Ha, Hm. unfold mthen at 1. rewrite last_snoc.
  unfold newConnection, mthen, this, on_loop. cbn [client]. rewrite Hs. unfold lift.
  assert (Hc : chk32 (nextConnId_ s + 1) = Ok (nextConnId_ s + 1)) by (apply chk32_ok; lia).
  rewrite Hc. unfold mget, set_objects, set_client, mmod, connectEstablished, conn, mthen. cbn [objects functors client alive loop kept kept_due].
  rewrite list_lookup_middle by done. unfold massert, lift, assert_. rewrite bool_decide_eq_true_2 by done.
  unfold setState, set_objects, mmod, emit. cbn [objects functors client alive loop kept kept_due app].
  unfold connected. rewrite Ha. do 3 f_equal.
  rewrite alter_app_r_alt by done. by rewrite Nat.sub_diag.
Qed.

Lemma tally_connected l' s fd peer w es0 :
  Connector.handed es0 = [] ->
  tally w (map OfConnector (es0 ++ [Connector.NewConnection fd]) ++ [ConnectionCb (length (objects w)) true])
    (connected l' s fd peer w).
Proof.
  intros Hh. set (o := Conn_ (connName s peer) fd Up ToClient false).
  assert (Hocc : forall a, (forall b, a <> OfConnector b) ->
    occ a (map OfConnector (es0 ++ [Connector.NewConnection fd]) ++ [ConnectionCb (length (objects w)) true]) =
    if decide (ConnectionCb (length (objects w)) true = a) then 1%nat else O).
  { intros a Ha. rewrite client_occ_app, occ_connector by done. cbn [occ]. lia. }
  assert (Hph : forall c, phase_of (connected l' s fd peer w) c =
    if decide (c = length (objects w)) then Some Up else phase_of w c).
  { intros c. unfold phase_of, connected. cbn [objects]. fold o. destruct (decide (c = length (objects w))) as [->|Hne].
    - by rewrite list_lookup_middle.
    - destruct (decide (c < length (objects w))%nat); [by rewrite lookup_app_l|].
      rewrite !lookup_ge_None_2; [done|lia|rewrite length_app; cbn; lia]. }
  assert (Hnew : phase_of w (length (objects w)) = None) by (unfold phase_of; by rewrite lookup_ge_None_2).
  split.
  1-3: intros c; rewrite Hocc, Hph by done; destruct (decide (c = length (objects w))) as [->|Hne];
    [rewrite Hnew|]; first [rewrite decide_True by congruence|rewrite decide_False by congruence]; done.
  unfold connected. cbn [objects]. unfold sockets. rewrite map_app, !omap_app. fold (sockets (map OfConnector es0)).
  rewrite map_app, omap_app. fold (sockets (map OfConnector es0)). by rewrite sockets_connector, Hh.
Qed.

Lemma inv_connected st sp w s l' fd peer :
  inv st sp None (on_loop l' w) -> client w = Some s -> connection_ s = None -> nextConnId_ s < 2147483647 ->
  Connector.state_ (Connector.cn l') = Connector.kConnected -> inv st sp None (connected l' s fd peer w).
Proof.
  intros [Hl Hk Hab Hc Hb Ho Hcl] Hs Hn Hid Hst. unfold client_ok in Hcl. cbn in *. rewrite Hs in Hcl.
  destruct Hcl as (Q1 & Q2 & Q3 & Q4 & Q5 & _). set (c0 := length (objects w)).
  assert (Hfs : forall n f, functors w !! n = Some f -> about f <> c0).
  { intros n f Hf. apply Hab in Hf. unfold c0. lia. }
  assert (Hlook : forall c o, (objects w ++ [Conn_ (connName s peer) fd Up ToClient false]) !! c = Some o ->
    objects w !! c = Some o \/ (c = c0 /\ o = Conn_ (connName s peer) fd Up ToClient false)).
  { intros c o [?|[Hge E]]%lookup_app_Some; [by left|right]. apply list_lookup_singleton_Some in E as [E <-].
    unfold c0. split; [lia|done]. }
  split; unfold connected; cbn; try done.
  - intros n f Hf. apply Hab in Hf. rewrite length_app. cbn. lia.
  - intros c o [E|[-> ->]]%Hlook; [by apply Hc|]. rewrite ncalls_none; [done|]. intros n Hf. by apply (Hfs n _ Hf).
  - intros c o [E|[-> ->]]%Hlook; [by eapply Hb|done].
  - intros c o [E|[-> ->]]%Hlook H1 H2; [|by eexists].
    destruct (Ho c o E H1 H2) as (s1 & E1 & E2). rewrite Hs in E1. injection E1 as <-. congruence.
  - unfold client_ok. cbn. do 4 (split; [done|]). split; [lia|]. intros c [= <-]. fold c0.
    eexists. cbn. unfold c0. rewrite list_lookup_middle by done. split; [done|]. split; [done|]. split; [by left|].
    split; [done|]. split; [by intros [?|?]|]. intros l1 n l2 _ Hf. cbn in Hf. by apply Hfs in Hf.
Qed.

(** An event of the connector's channel. *)
Lemma client_poll_good st sp w revents err self peer :
  inv st sp None w -> Connector.possible (loop w) (Connector.EvPoll revents err self) ->
  (forall s, client w = Some s -> nextConnId_ s < 2147483647) ->
  runs (step (EvPoll revents err self peer)) w (fun w' => inv st sp None w').
Proof.
  intros Hi Hpo Hid. pose proof (i_loop _ _ _ _ Hi) as Hl. pose proof (i_client _ _ _ _ Hi) as Hcl. unfold client_ok in Hcl.
  assert (Ha : alive w = true).
  { destruct (alive w) eqn:Ea; [done|]. destruct (client w); [by destruct Hcl|]. destruct Hcl as (_ & _ & Hch), Hpo as [_ (ch & E & _)].
    congruence. }
  destruct (Connector.poll_event_good _ _ _ revents err self Hl Hpo) as (l' & es & E & Hl' & _).
  pose proof (Connector.poll_moved _ _ _ _ _ _ _ _ Hl Hpo E) as Hm.
  assert (Hi' : inv st sp None (on_loop l' w)) by (by eapply inv_moved).
  cbn [step]. destruct (Connector.mv_handed _ _ _ Hm) as [Hh|(fd & es0 & -> & Hh & Hc & Hs & Hs')].
  { by eapply connector_silent. }
  destruct (client w) as [s|] eqn:Ec.
  - destruct Hcl as (Q1 & Q2 & Q3 & Q4 & Q5 & Hcur). specialize (Hid s eq_refl).
    assert (Hn : connection_ s = None).
    { destruct (connection_ s) as [c|]; [|done]. destruct (Hcur c eq_refl) as (o & _ & _ & _ & Hk & _). congruence. }
    eexists _, _. split; [eapply connector_handed; [done|exact E|done|lia]|].
    split; [by apply tally_connected|]. by apply inv_connected.
  - rewrite Ha in Hcl. destruct Hcl as [-> _]. rewrite (Connector.ci_connect _ _ _ Hl), andb_false_r in Hc. done.
Qed.

(** *** Steps of the loop *)

Lemma loop_step_runs e w l' (Q : World -> Prop) :
  Connector.step e (loop w) = Ok (tt, l', []) -> Q (on_loop l' w) -> runs (loop_step e) w Q.
Proof.
  intros E HQ. exists (on_loop l' w), []. unfold loop_step. rewrite E. split; [done|].
  split; [by apply tally_silent|done].
Qed.

(** The connector itself does not change. *)
Lemma inv_loop_same st sp x w l' :
  inv st sp x w -> Connector.conn_inv st sp l' -> Connector.cn l' = Connector.cn (loop w) ->
  Connector.queue l' = Connector.queue (loop w) ->
  (timers w = [] -> Connector.fresh l' ++ Connector.armed l' = []) -> inv st sp x (on_loop l' w).
Proof.
  intros Hi Hl' Hcn Hq Ht. apply (inv_loop _ _ _ _ _ _ _ [] (Connector.queue (loop w)) [] Hi Hl'); try done.
  - by rewrite app_nil_r.
  - left. unfold Connector.chan_of. rewrite Hcn. intros ?. split; [done|]. split; [apply not_elem_of_nil|done].
  - pose proof (i_client _ _ _ _ Hi) as Hcl. unfold client_ok in Hcl. destruct (client w); [by apply Hcl|].
    destruct (alive w); [split; [apply Hcl|done]|]. destruct Hcl as (_ & H1 & H2).
    split; [done|]. split; [by apply Ht|]. unfold Connector.chan_of. by rewrite Hcn.
Qed.

Lemma swap_event_good st sp w :
  inv st sp None w -> Connector.handling (loop w) = true -> runs (step EvSwap) w (fun w' => inv st sp None w').
Proof.
  intros Hi Hh. pose proof (i_loop _ _ _ _ Hi) as Hl.
  destruct (Connector.swap_good _ _ _ Hl Hh) as (l' & es & E & Hl' & _). cbn in E. injection E as <- <-.
  cbn [step]. eapply loop_step_runs; [reflexivity|]. apply inv_loop_same; try done.
  unfold Connector.queue. cbn. by rewrite (Connector.ci_handling _ _ _ Hl Hh), app_nil_r.
Qed.

Lemma returns_event_good st sp w :
  inv st sp None w -> Connector.possible (loop w) Connector.EvPollReturns ->
  runs (step EvPollReturns) w (fun w' => inv st sp None w').
Proof.
  intros Hi [Hh Hb]. pose proof (i_loop _ _ _ _ Hi) as Hl.
  destruct (Connector.returns_good _ _ _ Hl Hh Hb) as (l' & es & E & Hl' & _). pose proof E as E0.
  cbn in E. injection E as <- <-. set (l' := Connector.World_ _ _ _ _ _ _) in *.
  cbn [step]. apply runs_then. eapply loop_step_runs; [exact E0|].
  assert (Hi1 : inv st sp None (on_loop l' w)).
  { apply inv_loop_same; try done. unfold timers. intros [Hf Ha]%app_nil. cbn. by rewrite Hf, Ha. }
  set (w1 := on_loop l' w) in *. pose proof Hi1 as [_ Hk Hab Hc Hbn Ho Hcl].
  assert (Hopen : forall o, is_open (polled o) = is_open o) by done.
  exists (World_ (client w1) (alive w1) (loop w1) 0 (kept_due w1 + kept w1) (map polled (objects w1)) (functors w1)), [].
  split; [done|]. split.
  { assert (Hp : forall c, phase_of (World_ (client w1) (alive w1) (loop w1) 0 (kept_due w1 + kept w1)
                  (map polled (objects w1)) (functors w1)) c = phase_of w1 c).
    { intros c. unfold phase_of. cbn [objects]. rewrite list_lookup_fmap. by destruct (objects w1 !! c). }
    split; [intros c; by rewrite Hp..|]. cbn [objects]. rewrite app_nil_r, map_map. done. }
  split; cbn [loop functors objects client]; try done.
  - intros n f Hf. rewrite length_map. by eapply Hab.
  - intros c o. rewrite list_lookup_fmap. intros (o' & E & ->)%fmap_Some. by apply (Hc c o').
  - intros c o. rewrite list_lookup_fmap. intros (o' & E & ->)%fmap_Some. by apply (Hbn c o').
  - intros c o. rewrite list_lookup_fmap. intros (o' & E & ->)%fmap_Some. apply (Ho c o' E).
  - unfold client_ok in *. cbn [client alive kept kept_due loop timers].
    destruct (client w1) as [s|] eqn:Es.
    + destruct Hcl as (Q1 & Q2 & Q3 & Q4 & Q5 & Hcur). do 2 (split; [done|]). split; [lia|]. do 2 (split; [done|]).
      intros c Hs. destruct (Hcur c Hs) as (o & H1 & H2 & H3 & H4 & H5 & H6). exists (polled o).
      cbn [objects loop]. rewrite list_lookup_fmap, H1. split_and!; try done. intros _.
      pose proof (Connector.ci_phase _ _ _ Hl) as Hp. unfold Connector.phase_ok in Hp.
      change (Connector.state_ (Connector.cn (loop w)) = Connector.kConnected) in H4. rewrite H4, Hh, Hb in Hp.
      unfold Connector.chan_of. cbn. destruct (Connector.channel_ (Connector.cn (loop w))); [|done].
      destruct Hp as (_ & _ & _ & Hp). by cbn in Hp.
    + destruct (alive w1); [|done]. destruct Hcl as [? Hcl]. split; [done|]. intros H0. apply Hcl. lia.
Qed.

(** The timer of the destructor. *)
Lemma kept_good st sp w :
  inv st sp None w -> (0 < kept_due w)%nat -> no_own (Connector.queue (loop w)) ->
  runs (step EvKept) w (fun w' => inv st sp None w').
Proof.
  intros Hi Hk Hno. cbn [step]. apply runs_then. apply runs_mod; [done|]. apply drop_good.
  destruct Hi as [Hl Hkn Hab Hc Hb Ho Hcl]. split; cbn [loop functors objects client]; try done.
  unfold client_ok in *. cbn [client alive kept kept_due loop timers]. destruct (client w) as [s|].
  - destruct Hcl as (_ & _ & H0 & _). lia.
  - destruct (alive w); [|done]. destruct Hcl as [? _]. done.
Qed.

(** *** The calls of the program *)

Lemma client_connect_good st sp w s inloop dial :
  inv st sp None w -> client w = Some s -> st = false -> sp = false ->
  runs (step (EvConnect inloop dial)) w (fun w' => inv true false None w').
Proof.
  intros Hi Hs -> ->. pose proof (i_loop _ _ _ _ Hi) as Hl.
  destruct (Connector.conn_inv_new _ _ _ Hl eq_refl) as [Hnew _].
  assert (Hn : connection_ s = None).
  { destruct (connection_ s) as [c|] eqn:Ec; [|done]. destruct (current_of _ _ _ _ _ _ Hi Hs Ec) as (o & _ & _ & _ & Hk & _).
    rewrite Hnew in Hk. done. }
  destruct (Connector.start_event_good _ inloop dial Hl) as (l' & es & E & Hl' & _). cbn [Connector.step] in E.
  assert (Hq : exists extra, Connector.queue l' = Connector.queue (loop w) ++ extra /\ Forall Connector.own extra /\
                 Connector.handed es = []).
  { pose proof E as E0. unfold Connector.start, mthen in E0. cbn -[Connector.startInLoop] in E0. destruct inloop.
    - destruct (Connector.startInLoop dial _) as [[[[] l1] es1]|] eqn:E1; [|done]. injection E0 as <- <-.
      apply Connector.startInLoop_frame in E1 as (Hq & Hh & _). exists []. rewrite app_nil_r. split; [exact Hq|]. split; [constructor|exact Hh].
    - injection E0 as <- <-. exists [Connector.FStart]. unfold Connector.queue. cbn. rewrite app_assoc. split; [done|]. by repeat constructor. }
  destruct Hq as (extra & Hq & He & Hh). cbn [step]. unfold connect. eapply runs_set_connect; [done|].
  eapply connector_silent; [exact (client_alive _ _ _ _ _ Hi Hs)|exact E|done|].
  eapply (inv_loop false false None _ true false l' [] (Connector.queue (loop w)) extra).
  - eapply inv_client; [exact Hi|exact Hs|done..].
  - done.
  - done.
  - done.
  - constructor.
  - done.
  - right. eexists. split; [reflexivity|]. exact Hn.
  - done.
Qed.

Lemma detach_inv st sp w s c o :
  inv st sp None w -> client w = Some s -> connection_ s = Some c -> objects w !! c = Some o ->
  inv st sp None (World_ (Some (Client_ (name_ s) (retry_ s) (connect_ s) (nextConnId_ s) None)) (alive w) (loop w)
    (kept w) (kept_due w) (alter detach c (objects w)) (functors w)).
Proof.
  intros [Hl Hk Hab Hc Hb Ho Hcl] Hs Hcn Hco.
  assert (Hlook : forall c' o', alter detach c (objects w) !! c' = Some o' ->
    (c' <> c /\ objects w !! c' = Some o') \/ (c' = c /\ o' = detach o)).
  { intros c' o'. destruct (decide (c' = c)) as [->|Hne].
    - rewrite list_lookup_alter_eq, Hco. intros [= <-]. by right.
    - rewrite list_lookup_alter_ne by done. by left. }
  split; cbn [loop functors objects client]; try done.
  - intros n f Hf. rewrite length_alter. eauto.
  - intros c' o' [[Hne E]|[-> ->]]%Hlook; [by apply Hc|by apply (Hc c o)].
  - intros c' o' [[Hne E]|[-> ->]]%Hlook; [by eapply Hb|by apply (Hb c o)].
  - intros c' o' [[Hne E]|[-> ->]]%Hlook H1 H2; [|done]. destruct (Ho c' o' E H1 H2) as (s1 & E1 & E2).
    rewrite Hs in E1. injection E1 as <-. congruence.
  - unfold client_ok in *. rewrite Hs in Hcl. cbn. destruct Hcl as (Q1 & Q2 & Q3 & Q4 & Q5 & _).
    do 5 (split; [done|]). done.
Qed.


(** The client goes away, and the connector with it, or the connector stays. *)
Lemma inv_dead st sp w s :
  inv st sp None w -> client w = Some s -> connection_ s = None -> no_own (Connector.queue (loop w)) ->
  timers w = [] -> Connector.chan_of (loop w) = None ->
  inv st sp None (World_ None false (loop w) O O (objects w) (functors w)).
Proof.
  intros [Hl Hk Hab Hc Hb Ho Hcl] Hs Hn Hno Ht Hch. split; cbn [loop functors objects client]; try done.
  intros c o H1 H2 H3. destruct (Ho c o H1 H2 H3) as (s1 & E1 & E2). rewrite Hs in E1. injection E1 as <-. congruence.
Qed.
Lemma inv_orphan st w s k kd :
  inv st true None w -> client w = Some s -> connection_ s = None ->
  inv st true None (World_ None (alive w) (loop w) (S k) kd (objects w) (functors w)).
Proof.
  intros Hi Hs Hn. pose proof (client_alive _ _ _ _ _ Hi Hs) as Ha. destruct Hi as [Hl Hk Hab Hc Hb Ho Hcl].
  split; cbn [loop functors objects client]; try done.
  - intros c o H1 H2 H3. destruct (Ho c o H1 H2 H3) as (s1 & E1 & E2). rewrite Hs in E1. injection E1 as <-. congruence.
  - unfold client_ok. cbn. rewrite Ha. split; [done|lia].
Qed.

Lemma forceClose_client s c w w' es :
  forceClose c w = Ok (tt, w', es) -> forceClose c (with_client s w) = Ok (tt, with_client s w', es).
Proof.
  unfold forceClose, mthen, conn. cbn. destruct (objects w !! c) as [o|]; [|done].
  destruct (is_open o); [|by intros [= <- <-]]. cbn. by intros [= <- <-].
Qed.

(** The destructor of a client that has a connection. *)
Lemma delete_connected st sp w s c unique :
  inv st sp None w -> client w = Some s -> connection_ s = Some c -> no_own (Connector.queue (loop w)) ->
  runs (delete_TcpClient unique) w (fun w' => inv st sp None w').
Proof.
  intros Hi Hs Hc Hno. destruct (current_of _ _ _ _ _ _ Hi Hs Hc) as (o & Ho & _ & _ & Hst & _).
  pose proof (i_client _ _ _ _ Hi) as Hcl. unfold client_ok in Hcl. rewrite Hs in Hcl. destruct Hcl as (Ha & Hk & Hkd & _).
  assert (Hch : Connector.chan_of (loop w) = None).
  { eapply idle_channel; [by apply Hi|done|]. by rewrite Hst. }
  assert (Ht : timers w = []).
  { pose proof (Connector.ci_phase _ _ _ (i_loop _ _ _ _ Hi)) as Hp. unfold Connector.phase_ok, Connector.tokens in Hp.
    unfold Connector.chan_of in Hch. rewrite Hst, Hch in Hp. destruct Hp as [_ Hp]. unfold timers.
    apply length_zero_iff_nil. rewrite length_app. lia. }
  set (s0 := Client_ (name_ s) (retry_ s) (connect_ s) (nextConnId_ s) None).
  set (w0 := World_ (Some s0) (alive w) (loop w) (kept w) (kept_due w) (alter detach c (objects w)) (functors w)).
  assert (Hi0 : inv st sp None w0) by (by eapply detach_inv).
  assert (Hm : runs (if unique then forceClose c else mret tt) w0 (fun w' => inv st sp None w' /\
    client w' = Some s0 /\ alive w' = true /\ kept w' = O /\ kept_due w' = O /\ timers w' = [] /\
    Connector.cn (loop w') = Connector.cn (loop w) /\ no_own (Connector.queue (loop w')))).
  { destruct unique; [|apply runs_ret; by split_and!].
    eapply runs_mono; [apply (forceClose_good st sp None w0 c (detach o) Hi0)|].
    - cbn. by rewrite list_lookup_alter_eq, Ho.
    - intros w' (H1 & H2 & H3 & H4 & H5 & H6 & H7 & H8 & _). rewrite H2, H3, H4, H5, H6, H7. cbn. auto 10. }
  destruct Hm as (w1 & es & E & T & Hi1 & E2 & E3 & E4 & E5 & E6 & E7 & E8).
  assert (Es : (if unique then forceClose c else mret tt) (with_client (client w) w0) = Ok (tt, with_client (client w) w1, es)).
  { destruct unique; [by apply forceClose_client|]. by injection E as <- <-. }
  exists (World_ None false (loop w1) O O (objects w1) (functors w1)), es. split; [|split].
  - unfold delete_TcpClient, this, mthen. rewrite Hs, Hc. unfold set_objects at 1, mmod at 1.
    change (World_ (client w) (alive w) (loop w) (kept w) (kept_due w) (alter detach c (objects w)) (functors w))
      with (with_client (client w) w0). rewrite Es. unfold set_client, mmod, drop_connector.
    cbn [client kept kept_due loop alive with_client]. rewrite E4, E5, E3. unfold timers in E6. rewrite E6.
    unfold Connector.delete_Connector. rewrite E7. unfold Connector.chan_of in Hch. rewrite Hch. cbn. by rewrite app_nil_r.
  - assert (T0 : tally w [] w0).
    { assert (Hp : forall c', phase_of w0 c' = phase_of w c').
      { intros c'. unfold phase_of. cbn. destruct (decide (c' = c)) as [->|Hne]; [by rewrite list_lookup_alter_eq, Ho|].
        by rewrite list_lookup_alter_ne. }
      split; [intros c'; by rewrite Hp..|]. rewrite app_nil_r. cbn. apply list_eq. intros i. rewrite !list_lookup_fmap.
      destruct (decide (i = c)) as [->|Hne]; [by rewrite list_lookup_alter_eq, Ho|by rewrite list_lookup_alter_ne]. }
    by apply (tally_target w es w1), (client_tally_trans _ _ _ _ _ T0 T).
  - eapply inv_dead; try done. unfold Connector.chan_of in *. by rewrite E7.
Qed.

Lemma delete_good st sp w s unique :
  inv st sp None w -> client w = Some s -> (connection_ s <> None -> no_own (Connector.queue (loop w))) ->
  runs (step (EvDelete unique)) w (fun w' => exists sp', inv st sp' None w').
Proof.
  intros Hi Hs Hno. cbn [step]. destruct (connection_ s) as [c|] eqn:Hc.
  { eapply runs_mono; [by eapply delete_connected; [..|apply Hno]|]. eauto. }
  unfold delete_TcpClient. eapply runs_this; [done|]. rewrite Hc. apply runs_then, runs_then.
  eapply connector_stop_good; [done..|]. intros l' _ Hi'. apply runs_mod; [done|].
  apply runs_set_client. unfold drop_connector. cbn [client kept on_loop].
  apply runs_ret. exists true. by apply (inv_orphan st _ _ _ _ Hi' eq_refl Hc).
Qed.

(** ** Runs *)

Definition no_own_b (q : list Connector.cfunctor) : bool :=
  forallb (fun g => match g with Connector.FOther _ => true | _ => false end) q.
Lemma no_own_b_ok q : no_own_b q = true -> no_own q.
Proof.
  unfold no_own_b, no_own. rewrite forallb_forall, Forall_forall. intros H g Hg.
  apply list_elem_of_In in Hg. specialize (H g Hg). destruct g; [done..|exact id].
Qed.

Definition is_connect (e : event) : bool := match e with EvConnect _ _ => true | _ => false end.
Definition is_stop (u : user_call) : bool := match u with CStop => true | _ => false end.
Definition asks_stop (e : event) : bool :=
  match e with
  | EvCall u => is_stop u
  | EvDelete _ => true
  | EvClose _ calls _ | EvRun calls _ => existsb is_stop calls
  | _ => false
  end.
Definition has_client (w : World) : bool := match client w with Some _ => true | None => false end.
Definition calls_ok (w : World) (calls : list user_call) : bool :=
  has_client w || match calls with [] => true | _ => false end.

(** What may happen next, after the events [past]: the loop delivers what it can;
    the program calls a client that exists, connects once and not after a stop;
    it deletes a client that has a connection when no functor of the connector
    is queued, and the second that the destructor keeps the connector is longer
    than such functors take. *)
Definition allowed (past : list event) (w : World) (e : event) : bool :=
  match e with
  | EvConnect _ _ => has_client w && forallb (fun e => negb (is_connect e || asks_stop e)) past
  | EvCall _ => has_client w
  | EvDelete _ =>
      match client w with
      | Some s => match connection_ s with Some _ => no_own_b (Connector.queue (loop w)) | None => true end
      | None => false
      end
  | EvShutdown c | EvForceClose c => (c <? length (objects w))%nat
  | EvPollReturns => Connector.possible_b (loop w) Connector.EvPollReturns
  | EvTimer i dial => Connector.possible_b (loop w) (Connector.EvTimer i dial)
  | EvKept => (0 <? kept_due w)%nat && no_own_b (Connector.queue (loop w))
  | EvPoll revents err self _ =>
      Connector.possible_b (loop w) (Connector.EvPoll revents err self) &&
      match client w with Some s => nextConnId_ s <? 2147483647 | None => true end
  | EvClose c calls _ =>
      Connector.handling (loop w) && calls_ok w calls &&
      match objects w !! c with Some o => is_open o && c_polled o | None => false end
  | EvSwap => Connector.handling (loop w)
  | EvRun calls _ => negb (Connector.handling (loop w)) && calls_ok w calls
  end.

Inductive reachable (name : bytes) : list event -> World -> list act -> Prop :=
  | reachable_new : reachable name [] (new_World name) []
  | reachable_step past w es e w' es' : reachable name past w es -> allowed past w e = true ->
      step e w = Ok (tt, w', es') -> reachable name (e :: past) w' (es ++ es').

Lemma has_client_some w : has_client w = true -> exists s, client w = Some s.
Proof. unfold has_client. destruct (client w); [eauto|done]. Qed.
Lemma calls_ok_none w calls : calls_ok w calls = true -> client w = None -> calls = [].
Proof. unfold calls_ok, has_client. intros H Hn. rewrite Hn in H. by destruct calls. Qed.
Lemma stop_in calls : CStop ∈ calls -> existsb is_stop calls = true.
Proof. intros Hin. apply existsb_exists. exists CStop. split; [by apply list_elem_of_In|done]. Qed.

(** What the lemmas below show of an event: the connector is started and
    stopped only by the calls that do so. *)
Definition after (st sp : bool) (e : event) (w : World) : Prop :=
  exists st' sp', inv st' sp' None w /\
    (st' = true -> st = true \/ is_connect e = true) /\ (sp' = true -> sp = true \/ asks_stop e = true).

Lemma after_same st sp e m w :
  runs m w (fun w' => inv st sp None w') -> runs m w (after st sp e).
Proof. intros Hm. eapply runs_mono; [exact Hm|]. intros w' H'. exists st, sp. auto. Qed.
Lemma after_calls st sp e m w calls :
  asks_stop e = existsb is_stop calls ->
  runs m w (fun w' => exists sp', inv st sp' None w' /\ (sp' = true -> sp = true \/ CStop ∈ calls)) ->
  runs m w (after st sp e).
Proof.
  intros Ha Hm. eapply runs_mono; [exact Hm|]. intros w' (sp' & H' & Hs'). exists st, sp'. split_and!; [done|auto|].
  intros E. destruct (Hs' E); [by left|right]. rewrite Ha. by apply stop_in.
Qed.

Lemma connect_event_good st sp past w inloop dial :
  inv st sp None w -> (st = true -> existsb is_connect past = true) -> (sp = true -> existsb asks_stop past = true) ->
  has_client w = true -> forallb (fun e => negb (is_connect e || asks_stop e)) past = true ->
  runs (step (EvConnect inloop dial)) w (after st sp (EvConnect inloop dial)).
Proof.
  intros Hi Hst Hsp Hc Hp. apply has_client_some in Hc as [s Hs]. rewrite forallb_forall in Hp.
  assert (Hno : forall (b : bool) (f : event -> bool), (forall e, f e = true -> is_connect e || asks_stop e = true) ->
            (b = true -> existsb f past = true) -> b = false).
  { intros [] f Hf Hb; [|done]. specialize (Hb eq_refl). apply existsb_exists in Hb as (e & Hin & He).
    specialize (Hp e Hin). rewrite (Hf e He) in Hp. done. }
  assert (st = false) as Est by (eapply Hno; [|exact Hst]; intros ? ->; done).
  assert (sp = false) as Esp by (eapply Hno; [|exact Hsp]; intros ? ->; by rewrite orb_true_r).
  eapply runs_mono; [by apply (client_connect_good st sp w s inloop dial)|]. intros w' H'. exists true, false. auto.
Qed.

Lemma close_event_good st sp w c o calls dial :
  inv st sp None w -> objects w !! c = Some o -> is_open o = true -> c_polled o = true -> calls_ok w calls = true ->
  runs (step (EvClose c calls dial)) w (after st sp (EvClose c calls dial)).
Proof.
  intros Hi Hco Ho Hp Hc. apply (after_calls st sp (EvClose c calls dial) _ w calls eq_refl).
  eapply handleClose_good; [done..|by apply calls_ok_none|]. intros Hcl.
  destruct (i_open _ _ _ _ Hi c o Hco Ho Hcl) as (s & Hs & Hcn).
  destruct (current_of _ _ _ _ _ _ Hi Hs Hcn) as (o' & E & _ & _ & _ & Hch & _).
  rewrite Hco in E. injection E as <-. apply Hch. by left.
Qed.

Lemma run_event_good st sp w calls dial :
  inv st sp None w -> Connector.handling (loop w) = false -> calls_ok w calls = true ->
  runs (step (EvRun calls dial)) w (after st sp (EvRun calls dial)).
Proof.
  intros Hi Hh Hc. apply (after_calls st sp (EvRun calls dial) _ w calls eq_refl).
  assert (Hown : forall g q, Connector.batch (loop w) = g :: q -> Connector.own g ->
    runs (connector [] (Connector.step (Connector.EvRun dial))) w
      (fun w' => exists sp', inv st sp' None w' /\ (sp' = true -> sp = true \/ CStop ∈ calls))).
  { intros g q Hb Hg. eapply runs_mono; [by eapply own_functor_good|]. eauto. }
  unfold runs. cbn [step]. destruct (Connector.batch (loop w)) as [|[| | |n] q] eqn:Hb; [|by eapply Hown..|].
  - exists w, []. split; [done|]. split; [by apply tally_silent|eauto].
  - destruct (lookup_lt_is_Some_2 (functors w) n) as [f Hf].
    { apply (i_known _ _ _ _ Hi). unfold Connector.queue. rewrite Hb. left. }
    rewrite Hf. destruct (functor_good st sp w n q f calls dial Hi Hb Hh Hf) as (w' & es & E & T & HQ);
      [by apply calls_ok_none|]. exists w', es. split; [done|]. split; [|done].
    by apply (tally_objects w (on_loop (pop_functor q (loop w)) w) es w').
Qed.

(** Every event that is allowed. *)
Lemma client_step_good st sp past w e :
  inv st sp None w -> (st = true -> existsb is_connect past = true) -> (sp = true -> existsb asks_stop past = true) ->
  allowed past w e = true -> runs (step e) w (after st sp e).
Proof.
  intros Hi Hst Hsp Hal.
  destruct e as [inloop dial|u|unique|c|c| |i dial| |revents err self peer|c calls dial| |calls dial]; cbn [allowed] in Hal.
  - apply andb_true_iff in Hal as [Hc Hp]. by eapply connect_event_good.
  - apply has_client_some in Hal as [s Hs]. eapply (after_calls _ _ _ _ _ [u]); [cbn; by rewrite orb_false_r|].
    eapply runs_mono; [by apply (user_good st sp None w s u)|]. intros w' (_ & sp' & H' & Hs').
    exists sp'. split; [done|]. intros E. destruct (Hs' E) as [?| ->]; [by left|right; left].
  - destruct (client w) as [s|] eqn:Hs; [|done]. eapply runs_mono.
    { apply (delete_good st sp w s unique Hi Hs). intros Hne. destruct (connection_ s); [|done]. by apply no_own_b_ok. }
    intros w' (sp' & H'). exists st, sp'. auto.
  - apply Nat.ltb_lt in Hal. destruct (lookup_lt_is_Some_2 _ _ Hal) as [o Ho]. apply after_same.
    eapply runs_mono; [by apply (client_shutdown_good st sp None w c o)|]. by intros w' [? _].
  - apply Nat.ltb_lt in Hal. destruct (lookup_lt_is_Some_2 _ _ Hal) as [o Ho]. apply after_same.
    eapply runs_mono; [by apply (forceClose_good st sp None w c o)|]. by intros w' [? _].
  - apply after_same, returns_event_good; [done|]. by apply Connector.possible_b_ok.
  - apply after_same, client_timer_good; [done|]. by apply Connector.possible_b_ok.
  - apply andb_true_iff in Hal as [Hk Hno]. apply after_same, kept_good; [done|by apply Nat.ltb_lt|by apply no_own_b_ok].
  - apply andb_true_iff in Hal as [Hpo Hid]. apply after_same, client_poll_good; [done|by apply Connector.possible_b_ok|].
    intros s Hs. rewrite Hs in Hid. by apply Z.ltb_lt.
  - rewrite !andb_true_iff in Hal. destruct Hal as [[_ Hc] Ho]. destruct (objects w !! c) as [o|] eqn:Hco; [|done].
    apply andb_true_iff in Ho as [Ho Hp]. by eapply close_event_good.
  - by apply after_same, swap_event_good.
  - apply andb_true_iff in Hal as [Hh Hc]. apply negb_true_iff in Hh. by apply run_event_good.
Qed.

Lemma new_client_inv name : inv false false None (new_World name).
Proof.
  split; try (intros ? ? Hn; by rewrite lookup_nil in Hn); try done; [apply Connector.new_inv|by intros n Hn%elem_of_nil].
Qed.

Lemma client_reachable name past w acts :
  reachable name past w acts ->
  (exists st sp, inv st sp None w /\ (st = true -> existsb is_connect past = true) /\
     (sp = true -> existsb asks_stop past = true)) /\ tally (new_World name) acts w.
Proof.
  induction 1 as [|past w es e w' es' Hr [(st & sp & Hi & Hst & Hsp) T] Hal E].
  - split; [|by apply tally_silent]. exists false, false. split; [apply new_client_inv|done].
  - destruct (client_step_good st sp past w e Hi Hst Hsp Hal) as (w1 & es1 & E1 & T1 & st' & sp' & Hi' & Hst' & Hsp').
    rewrite E in E1. injection E1 as <- <-. split; [|by eapply client_tally_trans].
    exists st', sp'. split; [done|]. cbn [existsb]. split; intros Eb.
    + destruct (Hst' Eb) as [?| ->]; [rewrite (Hst ltac:(done)); apply orb_true_r|done].
    + destruct (Hsp' Eb) as [?| ->]; [rewrite (Hsp ltac:(done)); apply orb_true_r|done].
Qed.

(** C16.  A client whose user connects once, and not after a stop, does not fail,
    whatever the network answers, whatever else is called on it ([stop],
    [disconnect], [enableRetry], also by its callbacks) and however its
    connections are shut down or force closed: no assertion of the client, its
    connector or its connection fails and no call reaches an object that is gone.
    Beyond that
    [allowed] asks three things: a client that has a connection is deleted only
    when no functor of its connector is queued (so not by its own connection
    callback, and not right after [stop]); the second for which the destructor
    keeps the connector is longer than those functors take; and a client makes
    fewer than 2^31 connections.  What happens otherwise is [second_connect_fails],
    [delete_in_callback_fails], [stop_delete_dangles] and [short_second_fails].
    Under these conditions the client has the one connection that is open and
    not detached from it; every connection is announced up once, down at most
    once and destroyed at most once, and when no functor is left, a connection
    that is not open was destroyed; and the connections are exactly the sockets
    the connector handed over, in order. *)
Theorem client_safe name past w acts :
  reachable name past w acts ->
  (forall e, allowed past w e = true -> exists w' es, step e w = Ok (tt, w', es)) /\
  (forall c o, objects w !! c = Some o ->
     (is_open o = true /\ c_close o = ToClient <-> exists s, client w = Some s /\ connection_ s = Some c) /\
     occ (ConnectionCb c true) acts = 1%nat /\
     occ (ConnectionCb c false) acts = downs (Some (c_phase o)) /\
     occ (Destroyed c) acts = ends (Some (c_phase o)) /\
     (Connector.queue (loop w) = [] -> is_open o = true \/ c_phase o = Gone)) /\
  map c_fd (objects w) = sockets acts.
Proof.
  intros Hr. destruct (client_reachable _ _ _ _ Hr) as [(st & sp & Hi & Hst & Hsp) [U D E F]]. split; [|split].
  - intros e Hal. destruct (client_step_good st sp past w e Hi Hst Hsp Hal) as (w' & es & H & _). eauto.
  - intros c o Hc. specialize (U c). specialize (D c). specialize (E c). unfold phase_of in U, D, E.
    rewrite Hc in U, D, E. cbn in U, D, E. rewrite Nat.add_0_r in U, D, E.
    pose proof (i_born _ _ _ _ Hi c o Hc) as Hb. split; [|split_and!].
    + split; [intros [H1 H2]; by eapply i_open|]. intros (s & Hs & Hcn).
      destruct (current_of _ _ _ _ _ _ Hi Hs Hcn) as (o' & E' & Hcl & [Ho|?] & _); [|done].
      rewrite Hc in E'. by injection E' as <-.
    + rewrite U. by destruct (c_phase o).
    + by rewrite D.
    + by rewrite E.
    + intros Hq. pose proof (i_calls _ _ _ _ Hi c o Hc) as Hn. rewrite Hq in Hn. cbn in Hn. unfold is_open.
      rewrite bool_decide_eq_true. destruct (c_phase o); auto; [by destruct Hb|by cbn in Hn].
  - exact F.
Qed.

(** *** A run *)

Fixpoint play (past : list event) (es : list event) (w : World) : option (list event * World * list act) :=
  match es with
  | [] => Some (past, w, [])
  | e :: es =>
      if allowed past w e then
        match step e w with
        | Ok (_, w', acts) =>
            match play (e :: past) es w' with
            | Some (past', w'', acts') => Some (past', w'', acts ++ acts')
            | None => None
            end
        | Crash _ => None
        end
      else None
  end.

Lemma play_reachable name es : forall past w acts past' w' acts',
  reachable name past w acts -> play past es w = Some (past', w', acts') -> reachable name past' w' (acts ++ acts').
Proof.
  induction es as [|e es IH]; intros past w acts past' w' acts' Hr; cbn [play].
  { intros [= <- <- <-]. by rewrite app_nil_r. }
  destruct (allowed past w e) eqn:Hal; [|done]. destruct (step e w) as [[[[] w1] es1]|] eqn:E; [|done].
  destruct (play (e :: past) es w1) as [[[p2 w2] es2]|] eqn:E2; [|done]. intros [= <- <- <-].
  rewrite app_assoc. eapply IH; [|exact E2]. by eapply reachable_step.
Qed.

Lemma play_new name es r :
  play [] es (new_World name) = Some r -> reachable name r.1.1 r.1.2 r.2.
Proof. destruct r as [[p w] acts]. intros H. by apply (play_reachable _ _ [] _ [] _ _ _ (reachable_new name) H). Qed.

(** A client that reconnects: the first connection comes down, is replaced, and
    the client is deleted while the second is open. *)
Definition client_events : list event :=
  [EvCall CEnableRetry; EvConnect false (5, Connector.EINPROGRESS); EvSwap; EvRun [] (5, Connector.EINPROGRESS);
   EvPollReturns; EvPoll POLLOUT 0 false (str "10.0.0.1:80"); EvSwap; EvRun [] (0, 0); EvPollReturns;
   EvClose 0 [] (6, Connector.ECONNREFUSED); EvSwap; EvRun [] (0, 0); EvPollReturns;
   EvTimer 0 (7, Connector.EINPROGRESS); EvSwap; EvPollReturns; EvPoll POLLOUT 0 false (str "10.0.0.1:80");
   EvForceClose 1; EvSwap; EvRun [] (0, 0); EvDelete true].
Definition client_end : list event * World * list act :=
  match play [] client_events (new_World (str "C")) with Some r => r | None => ([], new_World [], []) end.
Lemma client_plays : play [] client_events (new_World (str "C")) = Some client_end.
Proof. vm_compute. reflexivity. Qed.
Lemma client_end_reachable : reachable (str "C") client_end.1.1 client_end.1.2 client_end.2.
Proof. exact (play_new _ _ _ client_plays). Qed.

Lemma client_safe_witness :
  (exists w' es, step (EvRun [] (0, 0)) client_end.1.2 = Ok (tt, w', es)) /\
  sockets client_end.2 = [5; 7] /\ map c_phase (objects client_end.1.2) = [Gone; Half].
Proof.
  destruct (client_safe _ _ _ _ client_end_reachable) as (H1 & _ & H3). split; [|split].
  - apply H1. vm_compute. reflexivity.
  - rewrite <- H3. vm_compute. reflexivity.
  - vm_compute. reflexivity.
Defined.

(** ** Calls that end the process *)

(** [connect] again after the connection has come down ("FIXME: check state"):
    the connector still is [kConnected] and its assertion fails. *)
Theorem second_connect_fails fd fd2 peer :
  steps [EvConnect true (fd, Connector.EINPROGRESS); EvPollReturns; EvPoll POLLOUT 0 false peer; EvSwap;
         EvRun [] (0, 0); EvPollReturns; EvClose 0 [] (0, 0); EvSwap; EvRun [] (0, 0);
         EvConnect true (fd2, Connector.EINPROGRESS)] (new_World []) = Crash AssertFailed.
Proof. vm_compute. reflexivity. Qed.

(** The client is deleted by its own connection callback: the connector has not
    deleted its channel yet, and the assertion of its destructor fails. *)
Lemma delete_in_callback_fails fd peer :
  steps [EvConnect true (fd, Connector.EINPROGRESS); EvPollReturns; EvPoll POLLOUT 0 false peer; EvDelete true]
    (new_World []) = Crash AssertFailed.
Proof. vm_compute. reflexivity. Qed.

(** [stop] and the destructor in one round, with a connection: the functor of
    [stop] has the address of the deleted connector ("FIXME: unsafe"). *)
Lemma stop_delete_dangles fd peer :
  steps [EvConnect true (fd, Connector.EINPROGRESS); EvPollReturns; EvPoll POLLOUT 0 false peer; EvSwap;
         EvRun [] (0, 0); EvPollReturns; EvCall CStop; EvDelete true; EvSwap; EvRun [] (0, 0)]
    (new_World []) = Crash DeadObject.
Proof. vm_compute. reflexivity. Qed.

(** The second of the destructor ("FIXME: HACK") ends before the functors of
    [stop] have run. *)
Lemma short_second_fails fd :
  steps [EvConnect true (fd, Connector.EINPROGRESS); EvPollReturns; EvDelete true; EvSwap; EvRun [] (0, 0);
         EvPollReturns; EvKept] (new_World []) = Crash AssertFailed.
Proof. vm_compute. reflexivity. Qed.

(** The buffer of 32 characters cuts the number off for a long address: two
    connections have the same name. *)
Lemma names_collide :
  let s n := Client_ (str "C") false true n None in
  let peer := str "[2001:db8::1234:5678:9abc:def0]:443" in
  connName (s 1) peer = connName (s 2) peer.
Proof. vm_compute. reflexivity. Qed.

End TcpClient.
