(* ===== verification/EventLoopThread.v ===== *)
(** * Threads with a loop ([muduo/net/EventLoopThread.cc], [.h])

    [startLoop] starts a thread and waits until its loop exists; the thread
    publishes the loop, runs it and takes the pointer back.  The class is a
    client of [Monitor.v] with two threads, number 0 that constructs the object
    and number 1 that runs [threadFunc]. *)

From S2P Require Import Prelude Monitor.

Module EventLoopThread.

(** The loop of the thread is a stack variable: it has one address. *)
Definition loop_address : Z := 1.

(** The member the mutex protects. *)
Abbreviation loop_ := (option Z).

Inductive call :=
  | WaitLoop        (* the block of startLoop *)
  | SetLoop         (* the first block of threadFunc *)
  | ClearLoop.      (* the second *)

(** Where the two threads are outside the mutex. *)
Inductive role_ :=
  | Constructed            (* before startLoop *)
  | Waiting                (* after thread_.start() *)
  | Got (loop : Z)         (* startLoop returned *)
  | Joining                (* in the destructor: loop_->quit() was called *)
  | Destroyed
  | NotStarted
  | InCallback             (* the loop is constructed *)
  | Publishing
  | Looping                (* loop.loop() *)
  | Leaving
  | Ended.
#[export] Instance role_eq_dec : EqDecision role_.
Proof. solve_decision. Defined.

Definition startLoop_waits (l : loop_) : option unit := match l with None => Some tt | Some _ => None end.
Definition startLoop_gets (l : loop_) : outcome (loop_ * loop_ * list (notification unit)) := Ok (l, l, []).
Definition threadFunc_sets (l : loop_) : outcome (loop_ * loop_ * list (notification unit)) :=
  Ok (Some loop_address, None, [Notify tt]).
Definition threadFunc_clears (l : loop_) : outcome (loop_ * loop_ * list (notification unit)) :=
  Ok (None, None, []).

(** The steps without the mutex.  [thread_.start()] makes the thread run; the
    loop may return at any time, since it may be asked to quit; the destructor
    reads [loop_] without the mutex. *)
Definition outside (l : loop_) (roles : list role_) (rl : role_) : list role_ :=
  match rl with
  | Constructed => [Waiting]
  | NotStarted => if bool_decide (Waiting ∈ roles) then [InCallback] else []
  | InCallback => [Publishing]
  | Looping => [Leaving]
  | Got _ => match l with Some _ => [Joining] | None => [Destroyed] end
  | Joining => if bool_decide (Ended ∈ roles) then [Destroyed] else []
  | _ => []
  end.

Definition thread_class : class loop_ unit call loop_ role_ := {|
  waits_for op l := match op with WaitLoop => startLoop_waits l | _ => None end;
  critical op l :=
    match op with
    | WaitLoop => startLoop_gets l
    | SetLoop => threadFunc_sets l
    | ClearLoop => threadFunc_clears l
    end;
  may_call _ rl op :=
    match rl, op with
    | Waiting, WaitLoop | Publishing, SetLoop | Leaving, ClearLoop => true
    | _, _ => false
    end;
  returned rl op r :=
    match op, r with
    | WaitLoop, Some l => Got l
    | WaitLoop, None => rl
    | SetLoop, _ => Looping
    | ClearLoop, _ => Ended
    end;
  moves l roles rl := outside l roles rl
|}.

Definition new_EventLoopThread : monitor loop_ unit call loop_ role_ :=
  start None [Constructed; NotStarted].

(** ** The handshake *)

Abbreviation State := (monitor loop_ unit call loop_ role_).

Definition caller (rl : role_) (p : position unit call) : Prop :=
  match rl, p with
  | Waiting, (Entering WaitLoop | Inside WaitLoop | Sleeping tt WaitLoop | Signalled WaitLoop) => True
  | (Constructed | Waiting | Joining | Destroyed), Idle => True
  | Got l, Idle => l = loop_address
  | _, _ => False
  end.
Definition worker (rl : role_) (p : position unit call) : Prop :=
  match rl, p with
  | (NotStarted | InCallback | Publishing | Looping | Leaving | Ended), Idle => True
  | Publishing, (Entering SetLoop | Inside SetLoop) => True
  | Leaving, (Entering ClearLoop | Inside ClearLoop) => True
  | _, _ => False
  end.

(** The loop is published while the thread is in [loop.loop()]; until then, and
    after, whoever waits may sleep, but not in between. *)
Record handshake (s : State) (m w : thread unit call role_) : Prop := {
  hs_threads : threads s = [m; w];
  hs_main : caller (role m) (pos m);
  hs_worker : worker (role w) (pos w);
  hs_loop : shared s = match role w with Looping | Leaving => Some loop_address | _ => None end;
  hs_sleep : pos m = Sleeping tt WaitLoop -> shared s = None;
  hs_order : role m = Constructed -> role w = NotStarted;
  hs_got : Forall (fun e => e.1.2 = WaitLoop -> e.2 = Some loop_address) (history s)
}.

Definition inv (s : State) : Prop := exists m w, handshake s m w.

Lemma start_inv : inv new_EventLoopThread.
Proof. eexists _, _. split; try done; constructor. Qed.

Lemma deliver_none ws ts ts' : deliver (C:=unit) (Op:=call) (Role:=role_) [] ws ts = Some ts' -> ts' = ts.
Proof. by intros [= ->]. Qed.

(** The threads are two: a label names one of them, and what it does to the
    state is computed. *)
Ltac two_threads t := destruct t as [|[|t]]; cbn in *; [| |done].
Ltac states :=
  repeat match goal with
  | H : caller ?rl ?p |- _ => progress (destruct rl, p; try done)
  | H : worker ?rl ?p |- _ => progress (destruct rl, p; try done)
  end.
Ltac conclude := eexists _, _; split; cbn in *; try done; try naive_solver.

Lemma call_inv t op s s' : inv s -> exec thread_class (LCall t op) s = Some (Ok s') -> inv s'.
Proof.
  intros (m & w & [Ht Hm Hw Hl Hs Ho Hg]) He. destruct m as [rm pm], w as [rw pw].
  destruct s as [h sh ts hist]. cbn in *. subst ts. two_threads t.
  - destruct pm; try done. destruct rm, op; try done. injection He as <-. conclude.
  - destruct pw; try done. destruct rw, op; try done; injection He as <-; conclude.
Qed.

Lemma move_inv t rl s s' : inv s -> exec thread_class (LMove t rl) s = Some (Ok s') -> inv s'.
Proof.
  intros (m & w & [Ht Hm Hw Hl Hs Ho Hg]) He. destruct m as [rm pm], w as [rw pw].
  destruct s as [h sh ts hist]. cbn in *. subst ts. two_threads t.
  - destruct pm; try done. case_bool_decide as Hrl; [|done]. injection He as <-.
    destruct rm; try done; cbn in Hrl; try (by apply elem_of_nil in Hrl).
    + apply list_elem_of_singleton in Hrl as ->. conclude.
    + destruct sh; apply list_elem_of_singleton in Hrl as ->; conclude.
    + case_bool_decide; [|by apply elem_of_nil in Hrl].
      apply list_elem_of_singleton in Hrl as ->. conclude.
  - destruct pw; try done. case_bool_decide as Hrl; [|done]. injection He as <-.
    destruct rw; try done; cbn in Hrl; try (by apply elem_of_nil in Hrl).
    + case_bool_decide as Hw'; [|by apply elem_of_nil in Hrl].
      apply list_elem_of_singleton in Hrl as ->. conclude. destruct rm; try done.
      intros _. exfalso. rewrite !elem_of_cons, elem_of_nil in Hw'. intuition done.
    + apply list_elem_of_singleton in Hrl as ->. conclude.
    + apply list_elem_of_singleton in Hrl as ->. conclude.
Qed.

Lemma lock_inv t s s' : inv s -> exec thread_class (LLock t) s = Some (Ok s') -> inv s'.
Proof.
  intros (m & w & [Ht Hm Hw Hl Hs Ho Hg]) He. destruct m as [rm pm], w as [rw pw].
  destruct s as [h sh ts hist]. cbn in *. subst ts. two_threads t.
  - destruct pm; try done; destruct h; try done; injection He as <-; destruct rm, op; try done; conclude.
  - destruct pw; try done; destruct h; try done; injection He as <-; destruct rw, op; try done; conclude.
Qed.

Lemma spurious_inv t s s' : inv s -> exec thread_class (LSpurious t) s = Some (Ok s') -> inv s'.
Proof.
  intros (m & w & [Ht Hm Hw Hl Hs Ho Hg]) He. destruct m as [rm pm], w as [rw pw].
  destruct s as [h sh ts hist]. cbn in *. subst ts. two_threads t.
  - destruct pm as [| | |[] op|]; try done. injection He as <-. destruct rm, op; try done; conclude.
  - destruct pw; try done. destruct rw; done.
Qed.

(** [notify] wakes the caller if it sleeps. *)
Lemma woke ws (rm : role_) (pm : position unit call) (th : thread unit call role_) ts' :
  deliver [Notify tt] ws [Thread rm pm; th] = Some ts' -> pos th = Idle ->
  exists pm', ts' = [Thread rm pm'; th] /\
    ((pm' = pm /\ sleeps_on tt (Thread rm pm) = false) \/ (pm' = pos (wake (Thread rm pm)) /\ sleeps_on tt (Thread rm pm) = true)).
Proof.
  intros Hd Hi. cbn in Hd. destruct ws as [|[t|] ws]; [done| |].
  - destruct t as [|[|t]]; cbn in Hd; [| |done].
    + destruct (sleeps_on tt (Thread rm pm)) eqn:E; [|done]. injection Hd as <-.
      exists (pos (wake (Thread rm pm))). split; [|by right]. by destruct pm.
    + unfold sleeps_on in Hd. rewrite Hi in Hd. done.
  - destruct (sleeps_on tt (Thread rm pm)) eqn:E; [done|]. destruct (sleeps_on tt th); [done|].
    injection Hd as <-. exists pm. split; [done|by left].
Qed.

Lemma go_inv t ws s s' : inv s -> exec thread_class (LGo t ws) s = Some (Ok s') -> inv s'.
Proof.
  intros (m & w & [Ht Hm Hw Hl Hs Ho Hg]) He. destruct m as [rm pm], w as [rw pw].
  destruct s as [h sh ts hist]. cbn in *. subst ts. two_threads t.
  - destruct pm; try done. destruct rm, op; try done. unfold go in He. cbn in He.
    destruct sh as [x|]; cbn in He; injection He as <-; conclude.
    + destruct rw; naive_solver.
    + apply Forall_app. split; [done|]. constructor; [|constructor]. destruct rw; naive_solver.
  - destruct pw; try done. destruct rw, op; try done; unfold go in He; cbn -[deliver] in He.
    + destruct (deliver [Notify tt] ws _) as [ts'|] eqn:Hd; [|done]. injection He as <-.
      apply woke in Hd as (pm' & -> & Hp); [|done]. conclude.
      * destruct Hp as [[-> _]|[-> Hp]]; [done|]. destruct rm, pm as [| | |[] []|]; done.
      * intros E. destruct Hp as [[-> Hp]|[-> Hp]]; cbn in E; [by subst pm|]. destruct pm as [| | |[] []|]; done.
      * apply Forall_app. split; [done|]. constructor; [|constructor]. done.
    + injection He as <-. conclude. apply Forall_app. split; [done|]. constructor; [|constructor]. done.
Qed.

Lemma exec_inv l s s' : inv s -> exec thread_class l s = Some (Ok s') -> inv s'.
Proof.
  destruct l; [apply call_inv|apply move_inv|apply lock_inv|apply go_inv|apply spurious_inv].
Qed.

Lemma thread_steps_inv ls s : steps thread_class new_EventLoopThread ls s -> inv s.
Proof.
  intros Hs. eapply (steps_invariant thread_class inv); [|exact start_inv|exact Hs].
  intros ? ? ? Hi He. by eapply exec_inv.
Qed.

(** Nobody holds the mutex if no thread is inside. *)
Lemma mutex_free ls s m w : steps thread_class new_EventLoopThread ls s -> threads s = [m; w] ->
  (forall op, pos m <> Inside op) -> (forall op, pos w <> Inside op) -> holder_ s = None.
Proof.
  intros Hs Ht Hm Hw.
  assert (He : exclusive s).
  { refine (steps_invariant thread_class exclusive _ _ _ _ _ Hs); [|apply start_exclusive].
    intros. by eapply exec_exclusive. }
  assert (Hh : holder_in s).
  { refine (steps_invariant thread_class holder_in _ _ _ _ _ Hs); [|by intros ?].
    intros. by eapply exec_holder_in. }
  destruct (holder_ s) as [t|] eqn:E; [|done]. specialize (Hh t E). rewrite Ht in Hh.
  destruct t as [|[|t]]; [| |cbn in Hh; lia].
  - destruct (proj1 (He 0%nat m ltac:(by rewrite Ht)) E) as [op Hop]. by destruct (Hm op).
  - destruct (proj1 (He 1%nat w ltac:(by rewrite Ht)) E) as [op Hop]. by destruct (Hw op).
Qed.

(** [startLoop] returns the loop of the thread, never a null pointer; and as
    long as the loop runs, the caller is not left waiting: when neither thread
    can go on, it has returned. *)
Theorem start_loop_returns ls s m w :
  steps thread_class new_EventLoopThread ls s -> threads s = [m; w] ->
  Forall (fun e => e.1.2 = WaitLoop -> e.2 = Some loop_address) (history s) /\
  (role w = Looping -> (forall l, internal l = true -> exec thread_class l s = None) -> pos m = Idle).
Proof.
  intros Hs Ht. destruct (thread_steps_inv _ _ Hs) as (m' & w' & [Ht' Hm Hw Hl Hsl Ho Hg]).
  rewrite Ht in Ht'. injection Ht' as <- <-. split; [done|]. intros Hr Hq.
  assert (Hwi : pos w = Idle) by (rewrite Hr in Hw; by destruct (pos w)).
  assert (Hfree : (forall op, pos m <> Inside op) -> holder_ s = None).
  { intros Hno. eapply mutex_free; [exact Hs|exact Ht|exact Hno|by rewrite Hwi]. }
  pose proof (Hq (LLock 0) eq_refl) as Hlock. pose proof (Hq (LGo 0 []) eq_refl) as Hgo.
  rewrite Hr in Hl. cbn in Hlock, Hgo. rewrite Ht in Hlock, Hgo. destruct m as [rm pm]. cbn in *.
  destruct pm as [|op|op|[] op|op]; [done| | | |].
  - rewrite (Hfree ltac:(done)) in Hlock. done.
  - unfold go in Hgo. destruct rm, op; try done. cbn in Hgo. by rewrite Hl in Hgo.
  - destruct rm, op; try done. by rewrite (Hsl eq_refl) in Hl.
  - rewrite (Hfree ltac:(done)) in Hlock. done.
Qed.

Definition handshake_demo : list (label call role_) :=
  [LMove 0 Waiting; LCall 0 WaitLoop; LLock 0; LGo 0 []; LMove 1 InCallback; LMove 1 Publishing;
   LCall 1 SetLoop; LLock 1; LGo 1 [Some 0%nat]; LLock 0; LGo 0 []].
Definition handshake_end : State :=
  match run thread_class handshake_demo new_EventLoopThread with Some s => s | None => new_EventLoopThread end.
Lemma handshake_steps : steps thread_class new_EventLoopThread handshake_demo handshake_end.
Proof. apply run_steps. vm_compute. reflexivity. Qed.
Lemma start_loop_returns_witness :
  Forall (fun e => e.1.2 = WaitLoop -> e.2 = Some loop_address) (history handshake_end) /\
  length (history handshake_end) = 2%nat.
Proof.
  split; [|vm_compute; reflexivity].
  apply (start_loop_returns _ handshake_end (Thread (Got loop_address) Idle) (Thread Looping Idle) handshake_steps).
  vm_compute. reflexivity.
Defined.

(** ** A loop that ends early *)

Definition stranded (s : State) : Prop := exists m w, handshake s m w /\ role w = Ended /\ role m = Waiting /\ pos m <> Idle.

Lemma exec_stranded l s s' : stranded s -> exec thread_class l s = Some (Ok s') -> stranded s'.
Proof.
  intros (m & w & Hh & Hw & Hm & Hp) He.
  destruct (exec_inv l s s' (ex_intro _ m (ex_intro _ w Hh)) He) as (m' & w' & Hh').
  exists m', w'. split; [done|]. destruct Hh as [Ht Hc Hwk Hl _ _ _], Hh' as [Ht' _ _ _ _ _ _].
  destruct m as [rm pm], w as [rw pw]. cbn in Hm, Hw, Hp, Hwk, Hl. subst rm rw. cbn [role pos] in Hc. destruct pw; try done.
  destruct s as [h sh ts hist]. cbn in Ht, Hl. subst ts sh.
  destruct l as [t op|t rl|t|t ws|t]; cbn in He; two_threads t.
  - destruct pm; done.
  - destruct op; done.
  - destruct pm; done.
  - case_bool_decide as Hin; [|done]. by apply elem_of_nil in Hin.
  - destruct pm; try done; destruct h; try done; injection He as <-; cbn in Ht'; injection Ht' as <- <-; done.
  - done.
  - destruct pm as [|op|op|[] op|op]; try done. unfold go in He. destruct op; try done. cbn in He.
    injection He as <-. cbn in Ht'. by injection Ht' as <- <-.
  - done.
  - destruct pm; try done. injection He as <-. cbn in Ht'. by injection Ht' as <- <-.
  - done.
Qed.

Definition early_run : list (label call role_) :=
  [LMove 0 Waiting; LCall 0 WaitLoop; LLock 0; LGo 0 []; LMove 1 InCallback; LMove 1 Publishing;
   LCall 1 SetLoop; LLock 1; LGo 1 [Some 0%nat]; LMove 1 Leaving; LCall 1 ClearLoop; LLock 1; LGo 1 []].
Definition early_end : State :=
  match run thread_class early_run new_EventLoopThread with Some s => s | None => new_EventLoopThread end.
Lemma early_steps : steps thread_class new_EventLoopThread early_run early_end.
Proof. apply run_steps. vm_compute. reflexivity. Qed.
Lemma early_threads : threads early_end = [Thread Waiting (Signalled WaitLoop); Thread Ended Idle].
Proof. vm_compute. reflexivity. Qed.

(** If the loop of the thread returns before the caller of [startLoop] has
    taken the mutex, the pointer is null again when it looks, and [startLoop]
    never returns: this happens in some run, and nothing that can follow ends
    the wait. *)
Theorem start_loop_stranded :
  exists ls s, steps thread_class new_EventLoopThread ls s /\
    forall ls' s', steps thread_class s ls' s' ->
      exists m w, threads s' = [m; w] /\ role m = Waiting /\ pos m <> Idle /\ role w = Ended.
Proof.
  exists early_run, early_end. split; [exact early_steps|].
  assert (Hstr : stranded early_end).
  { destruct (thread_steps_inv _ _ early_steps) as (m & w & Hh). exists m, w. split; [done|].
    destruct Hh as [Ht _ _ _ _ _ _]. rewrite early_threads in Ht. by injection Ht as <- <-. }
  intros ls' s' Hs'. assert (Hend : stranded s').
  { refine (steps_invariant thread_class stranded _ _ _ _ Hstr Hs'). intros. by eapply exec_stranded. }
  destruct Hend as (m & w & [Ht _ _ _ _ _ _] & Hw & Hm & Hp). by exists m, w.
Qed.
End EventLoopThread.
