(* ===== verification/LoopLife.v ===== *)
(** * The life of an event loop ([muduo/net/EventLoop.cc])

    The constructor and the destructor of [EventLoop], against the interface of
    the poller: the thread that owns the loop, the [eventfd] and its channel. *)

From S2P Require Import Prelude Channel Poller PollPoller EventLoop.
#[local] Open Scope outcome_scope.

Module LoopLife.
Section life.
Context {F P : Type} `{!PollerImpl P}.

(** What a constructor or destructor changes: [t_loopInThisThread] of the
    calling thread, the channels and the poller of the loop. *)
Record Env := Env_ {
  t_loopInThisThread : option Z;
  heap : channel_heap;
  poller : P
}.

Definition createEventfd (evtfd : Z) : outcome Z := if evtfd <? 0 then Crash Aborted else Ok evtfd.

Definition getEventLoopOfCurrentThread (e : Env) : option Z := t_loopInThisThread e.

(** [this] is the address of the loop, [wakeupChannel] that of its channel and
    [evtfd] the answer of [eventfd]; a second loop in a thread is fatal. *)
Definition construct (this wakeupChannel evtfd : Z) (e : Env) : outcome (EventLoop F * Env) :=
  let* fd := createEventfd evtfd in
  let* (h, s) := exec (heap e) (poller e) (NewChannel wakeupChannel fd) in
  let* t := match t_loopInThisThread e with
            | Some _ => Crash Aborted
            | None => Ok (Some this)
            end in
  let* (h, s) := exec h s (ChangeEvents wakeupChannel EnableReading) in
  Ok (new_EventLoop, Env_ t h s).

(** The channel is deleted with the members, after [close] of the [eventfd]. *)
Definition destruct_loop (wakeupChannel : Z) (e : Env) : outcome Env :=
  let* (h, s) := exec_all (heap e) (poller e) [ChangeEvents wakeupChannel DisableAll; RemoveChannel wakeupChannel] in
  Ok (Env_ None h s).

(** [assertInLoopThread] and [abortNotInLoopThread]. *)
Definition assertInLoopThread (threadId_ tid : Z) : outcome unit :=
  if threadId_ =? tid then Ok tt else Crash Aborted.

Definition loop_hasChannel (m : channel_map) (h : channel_heap) (threadId_ tid p : Z) : outcome bool :=
  let* _ := assertInLoopThread threadId_ tid in
  hasChannel m h p.

Context `{!PollerLaws P}.

Lemma spec_new (a : registry) (p fd : Z) : a !! p = None -> 0 <= fd -> spec a (NewChannel p fd) = Some (<[p := (fd, None)]> a).
Proof. intros Ha Hf. cbn. rewrite bool_decide_eq_true_2 by done. by rewrite (proj2 (Z.leb_le _ _) Hf). Qed.

(** No channel of the registry uses the descriptor. *)
Definition fd_free (a : registry) (fd : Z) : Prop := map_Forall (fun _ v => fst v <> fd \/ snd v = None) a.

(** A thread has at most one loop: the constructor registers the [eventfd]
    for reading, whatever the poller; a second loop in the thread ends the
    process; the destructor takes the channel off the poller, leaves the other
    channels as they were, and the thread may have a loop again. *)
Theorem loop_lifetime (this this' w w' fd fd' : Z) (e : Env) (a : registry) :
  poller_inv (heap e) (poller e) a -> in_sync (heap e) a ->
  t_loopInThisThread e = None -> a !! w = None -> 0 <= fd -> fd_free a fd -> a !! w' = None -> w <> w' -> 0 <= fd' ->
  exists lp e', construct this w fd e = Ok (lp, e') /\
    getEventLoopOfCurrentThread e' = Some this /\ pendingFunctors_ lp = [] /\ looping_ lp = false /\
    asked (poller e') !! fd = Some kReadEvent /\
    construct this' w' fd' e' = Crash Aborted /\
    exists e'', destruct_loop w e' = Ok e'' /\ getEventLoopOfCurrentThread e'' = None /\
      poller_inv (heap e'') (poller e'') a /\ in_sync (heap e'') a.
Proof.
  intros Hi Hs Ht Hw Hfd Hfree Hw' Hne Hfd'.
  destruct (exec_refines (heap e) (poller e) a (NewChannel w fd) (<[w := (fd, None)]> a) Hi Hs)
    as (h1 & s1 & E1 & Hi1 & Hs1); [by apply spec_new|].
  set (a2 := <[w := (fd, Some kReadEvent)]> a).
  destruct (exec_refines h1 s1 (<[w := (fd, None)]> a) (ChangeEvents w EnableReading) a2 Hi1 Hs1)
    as (h2 & s2 & E2 & Hi2 & Hs2).
  { cbn [spec]. rewrite lookup_insert_eq. change (apply_change EnableReading 0) with kReadEvent.
    rewrite bool_decide_eq_true_2; [by rewrite insert_insert_eq|].
    intros q v [[<- <-]|[_ Hv]]%lookup_insert_Some; [by right|]. by apply (Hfree q). }
  eexists _, _. split.
  { unfold construct, createEventfd. rewrite (proj2 (Z.ltb_ge _ _) Hfd). cbn [bind]. rewrite E1. cbn [bind].
    rewrite Ht. cbn [bind]. rewrite E2. reflexivity. }
  cbn [getEventLoopOfCurrentThread t_loopInThisThread pendingFunctors_ looping_ new_EventLoop heap poller].
  do 3 (split; [done|]). split.
  { apply (asked_law _ _ _ _ _ Hi2); [done|]. exists w. unfold a2. by rewrite lookup_insert_eq. }
  split.
  { unfold construct, createEventfd. rewrite (proj2 (Z.ltb_ge _ _) Hfd'). cbn [bind heap poller].
    destruct (exec_refines h2 s2 a2 (NewChannel w' fd') (<[w' := (fd', None)]> a2) Hi2 Hs2) as (h3 & s3 & -> & _).
    { apply spec_new; [|done]. unfold a2. by rewrite lookup_insert_ne. }
    done. }
  destruct (exec_all_refines [ChangeEvents w DisableAll; RemoveChannel w] h2 s2 a2 a Hi2 Hs2)
    as (h4 & s4 & E4 & Hi4 & Hs4).
  { cbn [spec_all spec]. unfold a2. rewrite lookup_insert_eq. change (apply_change DisableAll kReadEvent) with 0.
    rewrite insert_insert_eq. cbn beta iota. rewrite lookup_insert_eq. by rewrite delete_insert_id. }
  exists (Env_ None h4 s4). unfold destruct_loop. cbn [heap poller]. rewrite E4. done.
Qed.
End life.

Lemma loop_lifetime_witness : exists lp e',
  construct (F := Z) 100 7 3 (Env_ None ∅ new_PollPoller) = Ok (lp, e') /\ asked (poller e') !! 3 = Some kReadEvent.
Proof.
  destruct (loop_lifetime (F := Z) 100 101 7 8 3 4 (Env_ None ∅ new_PollPoller) ∅) as (lp & e' & H & _ & _ & _ & Ha & _);
    [exact pp_inv_new|exact in_sync_empty|reflexivity|apply lookup_empty|lia
    |apply map_Forall_empty|apply lookup_empty|lia|lia|].
  exists lp, e'. split; [exact H|exact Ha].
Defined.
End LoopLife.
