(* ===== verification/ProtobufCodec.v ===== *)
(** * Messages on a connection ([muduo/net/protobuf/ProtobufCodecLite.cc], [.h])

    The codec puts a message on the wire as its length, a tag, the serialised
    message and a checksum, and finds the messages in what a connection receives.
    Messages are the class [Message], protocol buffers' serialisation with its
    documented law; the checksum is [adler32] of zlib, a parameter about which
    nothing is assumed. *)

From stdpp Require Import strings.
From S2P Require Import Prelude Endian Buffer.

#[local] Open Scope Z_scope.
#[local] Open Scope outcome_scope.

(** [SerializeToArray] and [ParseFromArray]. *)
Class Message (M : Type) := {
  serialize : M -> bytes;
  parse_array : bytes -> option M
}.
Class MessageLaws (M : Type) `{!Message M} :=
  parse_serialize : forall m, parse_array (serialize m) = Some m.

Inductive ErrorCode :=
  | kNoError
  | kInvalidLength
  | kCheckSumError
  | kInvalidNameLen
  | kUnknownMessageType
  | kParseError.

Definition errorCodeToString (errorCode : ErrorCode) : string :=
  match errorCode with
  | kNoError => "NoError"
  | kInvalidLength => "InvalidLength"
  | kCheckSumError => "CheckSumError"
  | kInvalidNameLen => "InvalidNameLen"
  | kUnknownMessageType => "UnknownMessageType"
  | kParseError => "ParseError"
  end.

Definition kHeaderLen : Z := 4.
Definition kChecksumLen : Z := 4.
Definition kMaxMessageLen : Z := 64 * 1024 * 1024.

Module Codec.
Section codec.
Context {M : Type} `{!Message M}.
Context (adler32 : bytes -> Z).

(** [rawCb_] answers whether the message is to be parsed; it may be empty. *)
Record Codec := Codec_ { tag_ : bytes; rawCb_ : option (bytes -> bool) }.

Definition kMinMessageLen (c : Codec) : Z := Z.of_nat (length (tag_ c)) + kChecksumLen.

(** What the callbacks are given. *)
Inductive event :=
  | Delivered (m : M)
  | Failed (e : ErrorCode).

(** ** Sending *)

Definition checksum (data : bytes) : Z := s32 (adler32 data).

(** [byte_size] is an [int]; the message is written behind the contents. *)
Definition serializeToBuffer (message : M) (buf : Buffer) : outcome (Z * Buffer) :=
  let data := serialize message in
  let* byte_size := chk32 (Z.of_nat (length data)) in
  let* room := chk32 (byte_size + kChecksumLen) in
  let* buf := ensureWritableBytes buf room in
  let* v := store (buffer_ buf) (beginWrite buf) data in
  let* buf := hasWritten (buf <| buffer_ := v |>) byte_size in
  Ok (byte_size, buf).

Definition fillEmptyBuffer (c : Codec) (buf : Buffer) (message : M) : outcome Buffer :=
  let* _ := assert_ (readableBytes buf =? 0) in
  let* buf := append buf (tag_ c) in
  let* (byte_size, buf) := serializeToBuffer message buf in
  let checkSum := checksum (toStringPiece buf) in
  let* buf := appendInt32 buf checkSum in
  let* _ := assert_ (readableBytes buf =? Z.of_nat (length (tag_ c)) + byte_size + kChecksumLen) in
  let len := hostToNetwork32 (s32 (readableBytes buf)) in
  prepend buf (le_bytes 4 len).

(** The bytes given to [conn->send]. *)
Definition send (c : Codec) (message : M) : outcome bytes :=
  let* buf := new_Buffer kInitialSize in
  let* buf := fillEmptyBuffer c buf message in
  Ok (contents buf).

(** ** Receiving *)

Definition asInt32 (buf : bytes) : Z := signed 4 (networkToHost32 (le_val (take 4 buf))).

(** [buf] has at least [len] bytes. *)
Definition validateChecksum (buf : bytes) (len : Z) : bool :=
  let expectedCheckSum := asInt32 (drop (Z.to_nat (len - kChecksumLen)) buf) in
  let checkSum := checksum (take (Z.to_nat (len - kChecksumLen)) buf) in
  checkSum =? expectedCheckSum.

Definition parse (c : Codec) (buf : bytes) (len : Z) : ErrorCode * option M :=
  if validateChecksum buf len then
    if bool_decide (take (length (tag_ c)) buf = tag_ c) then
      let data := drop (length (tag_ c)) buf in
      let dataLen := len - kChecksumLen - Z.of_nat (length (tag_ c)) in
      match parse_array (take (Z.to_nat dataLen) data) with
      | Some message => (kNoError, Some message)
      | None => (kParseError, None)
      end
    else (kUnknownMessageType, None)
  else (kCheckSumError, None).

(** One round of the loop: the calls it makes, and whether the loop goes on. *)
Definition onMessage_round (c : Codec) (buf : Buffer) : outcome (bool * list event * Buffer) :=
  if kMinMessageLen c + kHeaderLen <=? readableBytes buf then
    let* len := peekInt32 buf in
    if (kMaxMessageLen <? len) || (len <? kMinMessageLen c) then Ok (false, [Failed kInvalidLength], buf)
    else if kHeaderLen + len <=? readableBytes buf then
      let raw := slice (buffer_ buf) (peek buf) (peek buf + kHeaderLen + len) in
      if match rawCb_ c with Some rawCb => negb (rawCb raw) | None => false end then
        let* buf := retrieve buf (kHeaderLen + len) in
        Ok (true, [], buf)
      else
        match parse c (drop (Z.to_nat kHeaderLen) raw) len with
        | (kNoError, Some message) =>
            let* buf := retrieve buf (kHeaderLen + len) in
            Ok (true, [Delivered message], buf)
        | (errorCode, _) => Ok (false, [Failed errorCode], buf)
        end
    else Ok (false, [], buf)
  else Ok (false, [], buf).

(** Every round that goes on takes bytes off the buffer. *)
Fixpoint onMessage_loop (fuel : nat) (c : Codec) (buf : Buffer) : outcome (list event * Buffer) :=
  match fuel with
  | O => Ok ([], buf)
  | S fuel =>
      let* (go, evs, buf) := onMessage_round c buf in
      if go : bool then
        let* (evs', buf) := onMessage_loop fuel c buf in
        Ok (evs ++ evs', buf)
      else Ok (evs, buf)
  end.
Definition onMessage (c : Codec) (buf : Buffer) : outcome (list event * Buffer) :=
  onMessage_loop (Z.to_nat (readableBytes buf)) c buf.

(** [defaultErrorCallback]: the call on the connection. *)
Definition defaultErrorCallback (conn connected : bool) (errorCode : ErrorCode) : bool := conn && connected.

(** ** Specification: the format *)

Definition frame (c : Codec) (m : M) : bytes :=
  let body := tag_ c ++ serialize m in
  be_bytes 4 (Z.of_nat (length body) + 4) ++ body ++ be_bytes 4 (checksum body).
Definition sendable (c : Codec) (m : M) : Prop :=
  Z.of_nat (length (tag_ c)) + Z.of_nat (length (serialize m)) + kChecksumLen <= kMaxMessageLen.

(** What the bytes begin with. *)
Inductive verdict := Wait | Bad (e : ErrorCode) | Frame (n : nat) (evs : list event).
Definition next (c : Codec) (q : bytes) : verdict :=
  if kMinMessageLen c + kHeaderLen <=? Z.of_nat (length q) then
    let len := asInt32 q in
    if (kMaxMessageLen <? len) || (len <? kMinMessageLen c) then Bad kInvalidLength
    else if kHeaderLen + len <=? Z.of_nat (length q) then
      let n := Z.to_nat (kHeaderLen + len) in
      let raw := take n q in
      if match rawCb_ c with Some rawCb => negb (rawCb raw) | None => false end then Frame n []
      else
        match parse c (drop 4 raw) len with
        | (kNoError, Some message) => Frame n [Delivered message]
        | (e, _) => Bad e
        end
    else Wait
  else Wait.

Fixpoint decode (fuel : nat) (c : Codec) (q : bytes) : list event * bytes :=
  match fuel with
  | O => ([], q)
  | S fuel =>
      match next c q with
      | Wait => ([], q)
      | Bad e => ([Failed e], q)
      | Frame n evs => let '(evs', q') := decode fuel c (drop n q) in (evs ++ evs', q')
      end
  end.

(** ** The loop implements the format *)

Lemma next_frame c q n evs : next c q = Frame n evs -> (8 <= n <= length q)%nat.
Proof.
  unfold next, kMinMessageLen, kHeaderLen, kChecksumLen. intros H.
  repeat case_match; try done; reflect_bools; simplify_eq; lia.
Qed.

Lemma retrieve_memory b n b' : retrieve b n = Ok b' -> buffer_ b' = buffer_ b.
Proof.
  unfold retrieve. destruct (assert_ _); cbn [bind]; [|done]. by bcase; intros [= <-].
Qed.

Lemma prefix_slice b q n : holds b q -> 0 <= n <= Z.of_nat (length q) ->
  slice (buffer_ b) (peek b) (peek b + n) = take (Z.to_nat n) q.
Proof.
  intros (pre & post & Hl)%holds_layout Hn. unfold peek. rewrite (ly_buffer _ _ _ _ Hl), (ly_reader _ _ _ _ Hl).
  rewrite <- (take_drop (Z.to_nat n) q) at 1. rewrite <- app_assoc. apply slice_middle; [done|].
  rewrite length_take. lia.
Qed.

Lemma round_spec c b q : holds b q ->
  match next c q with
  | Wait => onMessage_round c b = Ok (false, [], b)
  | Bad e => onMessage_round c b = Ok (false, [Failed e], b)
  | Frame n evs => exists b', onMessage_round c b = Ok (true, evs, b') /\ holds b' (drop n q) /\ buffer_ b' = buffer_ b
  end.
Proof.
  intros Hh. unfold next, onMessage_round. rewrite (holds_readable _ _ Hh).
  destruct (_ <=? Z.of_nat (length q)) eqn:E1; [|done]. reflect_bools.
  assert (Hpeek : peekInt32 b = Ok (asInt32 q)).
  { destruct (holds_layout _ _ Hh) as (pre & post & Hl). unfold peekInt32, kMinMessageLen, kHeaderLen, kChecksumLen in *.
    by rewrite (peek_raw_layout _ _ _ _ 4 Hl) by lia. }
  rewrite Hpeek. cbn [bind]. set (len := asInt32 q) in *.
  destruct ((kMaxMessageLen <? len) || (len <? kMinMessageLen c)) eqn:E2; [done|]. reflect_bools.
  destruct (kHeaderLen + len <=? Z.of_nat (length q)) eqn:E3; [|done]. reflect_bools.
  assert (Hn0 : 0 <= kHeaderLen + len <= Z.of_nat (length q)).
  { unfold kMinMessageLen, kHeaderLen, kChecksumLen in *. lia. }
  rewrite <- Z.add_assoc, (prefix_slice b q _ Hh Hn0).
  destruct (retrieve_holds b q _ Hh Hn0) as (b' & Hr & Hb').
  destruct (match rawCb_ c with Some rawCb => _ | None => _ end).
  { rewrite Hr. cbn [bind]. exists b'. split; [done|]. split; [done|by eapply retrieve_memory]. }
  change (Z.to_nat kHeaderLen) with 4%nat.
  destruct (parse c (drop 4 (take (Z.to_nat (kHeaderLen + len)) q)) len) as [[] [m|]]; try done.
  rewrite Hr. cbn [bind]. exists b'. split; [done|]. split; [done|by eapply retrieve_memory].
Qed.

Lemma loop_spec c fuel : forall b q, holds b q ->
  exists b', onMessage_loop fuel c b = Ok ((decode fuel c q).1, b') /\ holds b' (decode fuel c q).2 /\ buffer_ b' = buffer_ b.
Proof.
  induction fuel as [|fuel IH]; intros b q Hh; [by exists b|]. cbn [onMessage_loop decode].
  pose proof (round_spec c b q Hh) as Hr. destruct (next c q) as [|e|n evs].
  - rewrite Hr. by exists b.
  - rewrite Hr. by exists b.
  - destruct Hr as (b1 & -> & Hb1 & Hm1). cbn [bind].
    destruct (IH b1 (drop n q) Hb1) as (b2 & -> & Hb2 & Hm2). cbn [bind].
    destruct (decode fuel c (drop n q)) as [evs' q']. exists b2. split; [done|]. split; [done|congruence].
Qed.

(** More fuel than bytes changes nothing. *)
Lemma decode_enough c f : forall q f', (length q <= f)%nat -> (f <= f')%nat -> decode f c q = decode f' c q.
Proof.
  induction f as [|f IH]; intros q f' Hq Hf.
  - destruct f' as [|f']; [done|]. cbn [decode]. destruct (next c q) as [|e|n evs] eqn:E; try done.
    + destruct q; [|cbn in Hq; lia]. revert E. unfold next, kMinMessageLen, kHeaderLen, kChecksumLen.
      rewrite (proj2 (Z.leb_gt _ _)) by (cbn; lia). done.
    + apply next_frame in E. lia.
  - destruct f' as [|f']; [lia|]. cbn [decode]. destruct (next c q) as [|e|n evs] eqn:E; try done.
    apply next_frame in E. rewrite (IH (drop n q) f') by (rewrite ?length_drop; lia). done.
Qed.

Definition decoded (c : Codec) (q : bytes) : list event * bytes := decode (length q) c q.

Lemma onMessage_spec c b q : holds b q ->
  exists b', onMessage c b = Ok ((decoded c q).1, b') /\ holds b' (decoded c q).2 /\ buffer_ b' = buffer_ b.
Proof.
  intros Hh. unfold onMessage, decoded. rewrite (holds_readable _ _ Hh), Nat2Z.id. by apply loop_spec.
Qed.

Lemma decoded_step c q :
  decoded c q = match next c q with
                | Wait => ([], q)
                | Bad e => ([Failed e], q)
                | Frame n evs => let '(evs', q') := decoded c (drop n q) in (evs ++ evs', q')
                end.
Proof.
  unfold decoded. destruct (length q) as [|k] eqn:El.
  - destruct q; [|done]. unfold next, kMinMessageLen, kHeaderLen, kChecksumLen.
    rewrite (proj2 (Z.leb_gt _ _)) by (cbn; lia). done.
  - cbn [decode]. destruct (next c q) as [|e|n evs] eqn:E; try done. apply next_frame in E.
    by rewrite (decode_enough c (length (drop n q)) (drop n q) k) by (rewrite ?length_drop; lia).
Qed.

(** What comes later does not change the frames that are complete. *)
Lemma asInt32_app q r : (4 <= length q)%nat -> asInt32 (q ++ r) = asInt32 q.
Proof. intros Hq. unfold asInt32. by rewrite take_app_le. Qed.

Lemma next_app c q r : next c q <> Wait -> next c (q ++ r) = next c q.
Proof.
  unfold next, kHeaderLen, kMinMessageLen, kChecksumLen. rewrite length_app. intros Hn.
  destruct (_ <=? Z.of_nat (length q)) eqn:E1; [|done]. reflect_bools.
  rewrite (proj2 (Z.leb_le _ _)) by lia. rewrite asInt32_app in * by lia.
  destruct ((kMaxMessageLen <? asInt32 q) || _) eqn:E2; [done|].
  destruct (4 + asInt32 q <=? Z.of_nat (length q)) eqn:E3; [|done]. reflect_bools.
  rewrite (proj2 (Z.leb_le _ _)) by lia. by rewrite take_app_le by lia.
Qed.

Definition is_failure (e : event) : bool := match e with Failed _ => true | Delivered _ => false end.
Definition sound (evs : list event) : Prop := Forall (fun e => is_failure e = false) evs.

Lemma decoded_app c q r : sound (decoded c q).1 ->
  decoded c (q ++ r) = ((decoded c q).1 ++ (decoded c ((decoded c q).2 ++ r)).1, (decoded c ((decoded c q).2 ++ r)).2).
Proof.
  remember (length q) as k eqn:Hk. revert q Hk. induction k as [k IH] using lt_wf_ind. intros q -> Hs.
  rewrite (decoded_step c q) in Hs |- *. destruct (next c q) as [|e|n evs] eqn:E.
  - cbn [fst snd app]. apply surjective_pairing.
  - inversion Hs as [|? ? Hb]. done.
  - pose proof (next_frame _ _ _ _ E) as Hn. rewrite (decoded_step c (q ++ r)), next_app, E by congruence.
    rewrite drop_app_le by lia. destruct (decoded c (drop n q)) as [evs' q'] eqn:Ed. cbn [fst] in Hs.
    apply Forall_app in Hs as [_ Hs].
    rewrite (IH (length (drop n q))) by (rewrite ?length_drop, ?Ed; done || lia). rewrite Ed. cbn [fst snd].
    by rewrite app_assoc.
Qed.

(** ** What [send] writes is a frame *)

Lemma ensure_reader b n b' :
  ensureWritableBytes b n = Ok b' -> kCheapPrepend <= readerIndex_ b -> kCheapPrepend <= readerIndex_ b'.
Proof.
  unfold ensureWritableBytes. intros H Hb. destruct (writableBytes b <? n); cbn [bind] in H.
  - destruct (makeSpace b n) as [b1|] eqn:E; cbn [bind] in H; [|done].
    destruct (assert_ _); [|done]. injection H as <-. revert E. unfold makeSpace.
    bcase; [destruct (vector_resize _ _); [|done]; by intros [= <-]|].
    destruct (assert_ _); [|done]. cbn [bind]. destruct (store _ _ _); [|done]. cbn [bind].
    destruct (assert_ _); [|done]. intros [= <-]. cbn. lia.
  - destruct (assert_ _); [|done]. by injection H as <-.
Qed.

Lemma append_reader b data b' :
  append b data = Ok b' -> kCheapPrepend <= readerIndex_ b -> kCheapPrepend <= readerIndex_ b'.
Proof.
  unfold append. intros H Hb. destruct (ensureWritableBytes b _) as [b1|] eqn:E; [|done]. cbn [bind] in H.
  destruct (store _ _ _) as [v|]; [|done]. cbn [bind] in H. unfold hasWritten in H.
  destruct (assert_ _); [|done]. injection H as <-. cbn. by eapply ensure_reader.
Qed.

Lemma append_room b data : Z.of_nat (length data) <= writableBytes b ->
  append b data = let* v := store (buffer_ b) (beginWrite b) data in
                  hasWritten (b <| buffer_ := v |>) (Z.of_nat (length data)).
Proof.
  intros Hr. unfold append, ensureWritableBytes. rewrite (proj2 (Z.ltb_ge _ _)) by lia. cbn [bind].
  rewrite (proj2 (Z.geb_le _ _)) by lia. done.
Qed.

(** A buffer that holds [q], with [kCheapPrepend] bytes free in front. *)
Definition ready (b : Buffer) (q : bytes) (size : Z) : Prop :=
  exists pre post, layout b pre q post /\ (8 <= length pre)%nat /\ Z.of_nat (length pre + length q + length post) <= size.

Lemma ready_reader b q size : ready b q size -> kCheapPrepend <= readerIndex_ b.
Proof. intros (pre & post & Hl & Hp & _). rewrite (ly_reader _ _ _ _ Hl). unfold kCheapPrepend. lia. Qed.
Lemma reader_ready b pre q post size : layout b pre q post -> kCheapPrepend <= readerIndex_ b ->
  Z.of_nat (length pre + length q + length post) <= size -> ready b q size.
Proof.
  intros Hl Hr Hs. exists pre, post. split; [done|]. rewrite (ly_reader _ _ _ _ Hl) in Hr. unfold kCheapPrepend in Hr. lia.
Qed.

Lemma append_ready b q data size : ready b q size -> size + Z.of_nat (length data) <= VECTOR_MAX ->
  exists b', append b data = Ok b' /\ ready b' (q ++ data) (size + Z.of_nat (length data)).
Proof.
  intros Hrd Hs. pose proof (ready_reader _ _ _ Hrd) as Hr. destruct Hrd as (pre & post & Hl & Hp & Hsz).
  destruct (append_layout _ _ _ _ data Hl) as (b' & pre' & post' & E & Hl' & Hsz'); [lia|].
  exists b'. split; [done|]. eapply reader_ready; [exact Hl'|by eapply append_reader|]. lia.
Qed.

Lemma serialize_ready b q m size : ready b q size ->
  Z.of_nat (length (serialize m)) + 4 < 2147483648 -> size + 4294967296 <= VECTOR_MAX ->
  exists b', serializeToBuffer m b = Ok (Z.of_nat (length (serialize m)), b') /\
    ready b' (q ++ serialize m) (size + 4294967296).
Proof.
  intros Hrd Hm Hs. pose proof (ready_reader _ _ _ Hrd) as Hr. destruct Hrd as (pre & post & Hl & Hp & Hsz).
  unfold serializeToBuffer. rewrite chk32_ok by lia. cbn [bind]. unfold kChecksumLen.
  rewrite (chk32_ok (_ + 4)) by lia. cbn [bind].
  destruct (ensureWritable_layout _ _ _ _ (Z.of_nat (length (serialize m)) + 4) Hl) as (b1 & pre1 & post1 & E & Hl1 & Hroom & Hcap);
    [unfold VECTOR_MAX; lia|left; lia|].
  pose proof (ensure_reader _ _ _ E Hr) as Hr1. rewrite E. cbn [bind].
  destruct (append_layout _ _ _ _ (serialize m) Hl1) as (b2 & pre2 & post2 & E2 & Hl2 & Hcap2); [lia|].
  pose proof (append_reader _ _ _ E2 Hr1) as Hr2.
  rewrite append_room in E2 by (rewrite (layout_writable _ _ _ _ Hl1); lia).
  destruct (store (buffer_ b1) (beginWrite b1) (serialize m)) as [v|]; cbn [bind] in *; [|done].
  rewrite E2. cbn [bind]. exists b2. split; [done|]. eapply reader_ready; [exact Hl2|done|]. lia.
Qed.

Lemma new_buffer_ready : exists b, new_Buffer kInitialSize = Ok b /\ ready b [] 1032.
Proof.
  eexists. split; [vm_compute; reflexivity|]. exists (replicate 8 Byte.x00), (replicate 1024 Byte.x00).
  split; [|split; [done|done]]. by constructor; vm_compute.
Qed.

Lemma sendable_sizes c m : sendable c m ->
  Z.of_nat (length (tag_ c)) + Z.of_nat (length (serialize m)) <= 67108860.
Proof. unfold sendable, kMaxMessageLen, kChecksumLen. lia. Qed.

Lemma length_be n x : length (be_bytes n x) = n.
Proof. unfold be_bytes. by rewrite length_reverse, length_le_bytes. Qed.

Lemma send_frame c m : sendable c m -> send c m = Ok (frame c m).
Proof.
  intros Hm%sendable_sizes. unfold send, fillEmptyBuffer. destruct new_buffer_ready as (b0 & -> & H0). cbn [bind].
  assert (Hempty : readableBytes b0 = 0).
  { destruct H0 as (pre & post & Hl & _). by rewrite (layout_readable _ _ _ _ Hl). }
  rewrite Hempty. cbn [assert_ bind Z.eqb].
  destruct (append_ready b0 [] (tag_ c) _ H0) as (b1 & -> & H1); [unfold VECTOR_MAX; lia|]. cbn [bind].
  destruct (serialize_ready b1 _ m _ H1) as (b2 & -> & H2); [lia|unfold VECTOR_MAX; lia|]. cbn [bind].
  set (body := tag_ c ++ serialize m). change (([] ++ tag_ c) ++ serialize m) with body in H2.
  assert (Hsp : toStringPiece b2 = body).
  { destruct H2 as (pre & post & Hl & _). unfold toStringPiece. rewrite (layout_readable _ _ _ _ Hl).
    rewrite s32_small by (unfold is_s32, body; rewrite length_app; lia).
    rewrite (prefix_slice b2 body); [|by eapply layout_holds|lia]. apply take_ge. lia. }
  rewrite Hsp. unfold appendInt32, hostToNetwork32. rewrite le_bytes_bswap. fold (be_bytes 4 (checksum body)).
  destruct (append_ready b2 _ (be_bytes 4 (checksum body)) _ H2) as (b3 & -> & H3);
    [rewrite length_be; unfold VECTOR_MAX; lia|]. cbn [bind].
  destruct H3 as (pre & post & Hl & Hp & _). rewrite (layout_readable _ _ _ _ Hl).
  assert (Hlen : Z.of_nat (length (body ++ be_bytes 4 (checksum body))) =
                 Z.of_nat (length (tag_ c)) + Z.of_nat (length (serialize m)) + kChecksumLen).
  { unfold body, kChecksumLen. rewrite !length_app, length_be. lia. }
  rewrite Hlen, Z.eqb_refl. cbn [assert_ bind].
  rewrite s32_small by (unfold is_s32, kChecksumLen; lia).
  destruct (prepend_layout _ _ _ _ (le_bytes 4 (bswap 4 (Z.of_nat (length (tag_ c)) + Z.of_nat (length (serialize m)) + kChecksumLen))) Hl)
    as (b4 & pre4 & -> & Hl4); [rewrite length_le_bytes; lia|]. cbn [bind].
  rewrite (layout_contents _ _ _ _ Hl4). unfold frame. fold body. rewrite le_bytes_bswap. do 2 f_equal.
  unfold be_bytes. do 2 f_equal. unfold body, kChecksumLen. rewrite length_app. lia.
Qed.

(** ** And the receiver finds it *)

Lemma asInt32_be x rest : is_signed 4 x -> asInt32 (be_bytes 4 x ++ rest) = x.
Proof.
  intros Hx. unfold asInt32, be_bytes, networkToHost32. rewrite <- le_bytes_bswap. apply network_roundtrip; [lia|done].
Qed.
Lemma asInt32_exact x : is_signed 4 x -> asInt32 (be_bytes 4 x) = x.
Proof. intros Hx. rewrite <- (app_nil_r (be_bytes 4 x)). by apply asInt32_be. Qed.
Lemma checksum_signed data : is_signed 4 (checksum data).
Proof. unfold is_signed, checksum. change (pow256 4 / 2) with 2147483648. word. Qed.

Lemma length_frame c m : length (frame c m) = (length (tag_ c) + length (serialize m) + 8)%nat.
Proof. unfold frame. rewrite !length_app, !length_be. lia. Qed.

Context `{!MessageLaws M}.

(** Any frame whose length field is right: the checksum, the tag and the message
    are looked at in this order. *)
Definition framed (body : bytes) (x : Z) : bytes :=
  be_bytes 4 (Z.of_nat (length body) + 4) ++ body ++ be_bytes 4 x.
Definition frame_ok (c : Codec) (body : bytes) : Prop :=
  Z.of_nat (length (tag_ c)) <= Z.of_nat (length body) /\ Z.of_nat (length body) + kChecksumLen <= kMaxMessageLen.
Definition verdict_of (c : Codec) (body : bytes) (x : Z) : verdict :=
  if negb (checksum body =? x) then Bad kCheckSumError
  else if negb (bool_decide (take (length (tag_ c)) body = tag_ c)) then Bad kUnknownMessageType
  else match parse_array (drop (length (tag_ c)) body) with
       | Some m => Frame (length body + 8) [Delivered m]
       | None => Bad kParseError
       end.

(** The raw callback lets every message through. *)
Definition lets_through (c : Codec) : Prop := match rawCb_ c with Some f => forall raw, f raw = true | None => True end.

Lemma next_framed c body x r : frame_ok c body -> is_signed 4 x -> lets_through c ->
  next c (framed body x ++ r) = verdict_of c body x.
Proof.
  intros [Ht Hb] Hx Hraw. unfold kMaxMessageLen, kChecksumLen in *.
  assert (Hf : length (framed body x) = (length body + 8)%nat).
  { unfold framed. rewrite !length_app, !length_be. lia. }
  assert (Hlen : asInt32 (framed body x ++ r) = Z.of_nat (length body) + 4).
  { unfold framed. rewrite <- app_assoc. apply asInt32_be. unfold is_signed.
    change (pow256 4 / 2) with 2147483648. lia. }
  unfold next. rewrite length_app, Hlen. unfold kMinMessageLen, kHeaderLen, kChecksumLen, kMaxMessageLen.
  rewrite (proj2 (Z.leb_le _ _)) by lia. rewrite (proj2 (Z.ltb_ge _ _)) by lia. rewrite (proj2 (Z.ltb_ge _ _)) by lia.
  cbn [orb]. rewrite (proj2 (Z.leb_le _ _)) by lia.
  replace (Z.to_nat (4 + _)) with (length (framed body x)) by lia. rewrite take_app_length.
  assert (Hno : match rawCb_ c with Some rawCb => negb (rawCb (framed body x)) | None => false end = false).
  { unfold lets_through in Hraw. destruct (rawCb_ c) as [f|]; [by rewrite Hraw|done]. }
  rewrite Hno. assert (Hd : drop 4 (framed body x) = body ++ be_bytes 4 x).
  { unfold framed. apply drop_app_length'. by rewrite length_be. }
  rewrite Hd. unfold parse, validateChecksum, kChecksumLen.
  replace (Z.to_nat (Z.of_nat (length body) + 4 - 4)) with (length body) by lia.
  rewrite take_app_length, drop_app_length, asInt32_exact by done. unfold verdict_of.
  destruct (checksum body =? x); [|done]. cbn [negb]. rewrite take_app_le by lia.
  destruct (bool_decide _); [|done]. cbn [negb]. rewrite drop_app_le by lia.
  rewrite take_app_le by (rewrite length_drop; lia). rewrite take_ge by (rewrite length_drop; lia).
  rewrite Hf. by destruct (parse_array _).
Qed.

Lemma next_frame_of c m r : sendable c m -> lets_through c ->
  next c (frame c m ++ r) = Frame (length (frame c m)) [Delivered m].
Proof.
  intros Hm%sendable_sizes Hraw. change (frame c m) with (framed (tag_ c ++ serialize m) (checksum (tag_ c ++ serialize m))) at 1.
  rewrite next_framed; [|unfold frame_ok, kMaxMessageLen, kChecksumLen; rewrite length_app; lia|apply checksum_signed|done].
  unfold verdict_of. rewrite Z.eqb_refl, take_app_length, drop_app_length, parse_serialize. cbn [negb].
  rewrite bool_decide_eq_true_2 by done. cbn [negb]. f_equal. rewrite length_frame, length_app. done.
Qed.

Lemma decoded_frames c ms r : Forall (sendable c) ms -> lets_through c ->
  decoded c (concat (map (frame c) ms) ++ r) = (map Delivered ms ++ (decoded c r).1, (decoded c r).2).
Proof.
  intros Hms Hraw. induction Hms as [|m ms Hm _ IH]; [apply surjective_pairing|]. cbn [map concat].
  rewrite <- app_assoc, decoded_step, next_frame_of by done. rewrite drop_app_length, IH. done.
Qed.

(** ** Fragments *)

Lemma decoded_idem c q : sound (decoded c q).1 -> decoded c (decoded c q).2 = ([], (decoded c q).2).
Proof.
  remember (length q) as k eqn:Hk. revert q Hk. induction k as [k IH] using lt_wf_ind. intros q -> Hs.
  rewrite (decoded_step c q) in Hs |- *. destruct (next c q) as [|e|n evs] eqn:E.
  - cbn [snd]. by rewrite (decoded_step c q), E.
  - inversion Hs as [|? ? Hb]. done.
  - pose proof (next_frame _ _ _ _ E) as Hn. destruct (decoded c (drop n q)) as [evs' q'] eqn:Ed.
    apply Forall_app in Hs as [_ Hs]. pose proof (IH (length (drop n q))) as IH'. cbn [snd].
    replace q' with ((decoded c (drop n q)).2) by (by rewrite Ed).
    apply IH'; [rewrite length_drop; lia|done|by rewrite Ed].
Qed.

Lemma sound_prefix c q r : sound (decoded c (q ++ r)).1 -> sound (decoded c q).1.
Proof.
  remember (length q) as k eqn:Hk. revert q Hk. induction k as [k IH] using lt_wf_ind. intros q -> Hs.
  rewrite (decoded_step c q). destruct (next c q) as [|e|n evs] eqn:E; [constructor| |].
  - rewrite (decoded_step c (q ++ r)), next_app, E in Hs by congruence. done.
  - pose proof (next_frame _ _ _ _ E) as Hn. rewrite (decoded_step c (q ++ r)), next_app, E in Hs by congruence.
    rewrite drop_app_le in Hs by lia.
    specialize (IH (length (drop n q)) ltac:(rewrite length_drop; lia) (drop n q) eq_refl).
    destruct (decoded c (drop n q ++ r)) as [e1 q1]. apply Forall_app in Hs as [H1 H2]. specialize (IH H2).
    destruct (decoded c (drop n q)) as [e2 q2]. by apply Forall_app.
Qed.

(** A connection appends what it reads and calls [onMessage]. *)
Fixpoint feed (c : Codec) (b : Buffer) (chunks : list bytes) : outcome (list event * Buffer) :=
  match chunks with
  | [] => Ok ([], b)
  | data :: chunks =>
      let* b := append b data in
      let* (evs, b) := onMessage c b in
      let* (evs', b) := feed c b chunks in
      Ok (evs ++ evs', b)
  end.

Lemma append_size b q data : holds b q -> buffer_size b + Z.of_nat (length data) <= VECTOR_MAX ->
  exists b', append b data = Ok b' /\ holds b' (q ++ data) /\ buffer_size b' <= buffer_size b + Z.of_nat (length data).
Proof.
  intros (pre & post & Hl)%holds_layout Hs. rewrite (layout_size _ _ _ _ Hl) in *.
  destruct (append_layout _ _ _ _ data Hl) as (b' & pre' & post' & E & Hl' & Hc); [lia|].
  exists b'. split; [done|]. split; [by eapply layout_holds|]. rewrite (layout_size _ _ _ _ Hl'). lia.
Qed.

Lemma feed_spec c chunks : forall b q, holds b q -> decoded c q = ([], q) ->
  sound (decoded c (q ++ concat chunks)).1 -> buffer_size b + Z.of_nat (length (concat chunks)) <= VECTOR_MAX ->
  exists b', feed c b chunks = Ok ((decoded c (q ++ concat chunks)).1, b') /\
    holds b' (decoded c (q ++ concat chunks)).2.
Proof.
  induction chunks as [|data chunks IH]; intros b q Hh Hq Hs Hsz.
  { cbn [concat feed]. rewrite app_nil_r, Hq. by exists b. }
  cbn [concat feed] in *. rewrite length_app in Hsz. rewrite app_assoc in Hs |- *.
  destruct (append_size b q data Hh ltac:(lia)) as (b1 & -> & Hb1 & Hsz1). cbn [bind].
  destruct (onMessage_spec c b1 (q ++ data) Hb1) as (b2 & -> & Hb2 & Hm2). cbn [bind].
  pose proof (sound_prefix _ _ _ Hs) as Hs1. rewrite (decoded_app c (q ++ data) _ Hs1) in Hs |- *. cbn [fst snd] in *.
  apply Forall_app in Hs as [_ Hs2].
  destruct (IH b2 (decoded c (q ++ data)).2 Hb2 (decoded_idem _ _ Hs1) Hs2) as (b3 & -> & Hb3).
  { unfold buffer_size in *. rewrite Hm2. lia. }
  cbn [bind]. by exists b3.
Qed.

(** C35.  Messages of at most 64 MB arrive as they were sent: what [send] writes
    for a list of them, however the network cuts it into pieces, gives the
    receiver's callback exactly these messages, in order, with no error and no
    byte left over.  The bound is the one the receiver checks ([sendable]: tag,
    body and checksum); [send] itself checks nothing, and a longer message is
    answered with [kInvalidLength].  The receiver has no raw callback or one that
    lets every message pass ([lets_through]), and its buffer stays within the
    address space. *)
Theorem codec_delivers c ms wires chunks b :
  Forall (sendable c) ms -> lets_through c ->
  Forall2 (fun m w => send c m = Ok w) ms wires -> concat chunks = concat wires ->
  holds b [] -> buffer_size b + Z.of_nat (length (concat wires)) <= VECTOR_MAX ->
  exists b', feed c b chunks = Ok (map Delivered ms, b') /\ holds b' [].
Proof.
  intros Hms Hraw Hw Hc Hb Hsz.
  assert (Hwires : wires = map (frame c) ms).
  { clear -Hw Hms. induction Hw as [|m w ms ws Hmw _ IH]; [done|]. apply Forall_cons in Hms as [Hm Hms].
    rewrite (send_frame c m Hm) in Hmw. injection Hmw as <-. cbn. by rewrite <- IH. }
  assert (Hd : decoded c (concat wires) = (map Delivered ms, [])).
  { rewrite <- (app_nil_r (concat wires)), Hwires, decoded_frames by done. cbn. by rewrite app_nil_r. }
  destruct (feed_spec c chunks b [] Hb) as (b' & E & Hb'); [done|..].
  - cbn [app]. rewrite Hc, Hd. cbn [fst]. clear. unfold sound. induction ms; by constructor.
  - by rewrite Hc.
  - cbn [app] in *. rewrite Hc, Hd in E, Hb'. by exists b'.
Qed.

(** After good messages, a frame that is not one stops the codec: a wrong
    checksum, another tag and a message that does not parse are reported, in this
    order of precedence and once for each call; the bytes stay in the buffer, so
    that the next call reports the same.  Only a frame with the checksum of its
    contents, the tag and a message that parses is delivered. *)
Theorem codec_stops_at_error c ms body x r b :
  Forall (sendable c) ms -> lets_through c -> frame_ok c body -> is_signed 4 x ->
  holds b (concat (map (frame c) ms) ++ framed body x ++ r) ->
  match verdict_of c body x with
  | Bad e => exists b', onMessage c b = Ok (map Delivered ms ++ [Failed e], b') /\ holds b' (framed body x ++ r) /\
                exists b'', onMessage c b' = Ok ([Failed e], b'') /\ holds b'' (framed body x ++ r)
  | Frame n evs => checksum body = x /\ take (length (tag_ c)) body = tag_ c /\
                   exists m, parse_array (drop (length (tag_ c)) body) = Some m /\ evs = [Delivered m]
  | Wait => False
  end.
Proof.
  intros Hms Hraw Hbody Hx Hb. pose proof (next_framed c body x r Hbody Hx Hraw) as Hn.
  destruct (verdict_of c body x) as [|e|n evs] eqn:Hv.
  - unfold verdict_of in Hv. repeat case_match; done.
  - assert (Hd : decoded c (framed body x ++ r) = ([Failed e], framed body x ++ r)) by (by rewrite decoded_step, Hn).
    destruct (onMessage_spec c b _ Hb) as (b' & E & Hb' & _). rewrite decoded_frames, Hd in E, Hb' by done.
    exists b'. split; [done|]. split; [done|].
    destruct (onMessage_spec c b' _ Hb') as (b'' & E' & Hb'' & _). cbn [snd] in E', Hb''. rewrite Hd in E', Hb''. by exists b''.
  - unfold verdict_of in Hv. destruct (checksum body =? x) eqn:E1; [|done]. cbn [negb] in Hv.
    case_bool_decide as E2; [|done]. cbn [negb] in Hv. destruct (parse_array _) as [m|]; [|done].
    injection Hv as <- <-. apply Z.eqb_eq in E1. split_and!; [done..|]. by exists m.
Qed.
End codec.

(** A message type for examples: texts, with the sum of the bytes as checksum. *)
#[export] Instance text_message : Message bytes := { serialize := id; parse_array := Some }.
#[export] Instance text_laws : MessageLaws bytes.
Proof. done. Defined.
Definition sum_of (l : bytes) : Z := fold_right (fun c s => b2z c + s) 1 l.
Definition demo_codec : Codec := Codec_ (map z2b [82; 80; 67; 48]) None.
Definition make_buffer (v : bytes) (r w : Z) : Buffer := {| buffer_ := v; readerIndex_ := r; writerIndex_ := w |}.
Definition demo_buffer : Buffer := match new_Buffer kInitialSize with Ok b => b | Crash _ => small_buffer end.
Lemma demo_buffer_holds : holds demo_buffer [] /\ buffer_size demo_buffer = 1032.
Proof. split; [|done]. split; [constructor; vm_compute; done|done]. Qed.

Definition demo_wires : list bytes :=
  [map z2b [0; 0; 0; 10; 82; 80; 67; 48; 7; 8; 0; 0; 1; 37]; map z2b [0; 0; 0; 8; 82; 80; 67; 48; 0; 0; 1; 22]].
Lemma demo_wires_ok : Forall2 (fun m w => send sum_of demo_codec m = Ok w) [map z2b [7; 8]; []] demo_wires.
Proof. unfold demo_wires. apply Forall2_cons; split; [|apply Forall2_cons; split; [|apply Forall2_nil; done]]; vm_compute; reflexivity. Qed.
Definition demo_chunks : list bytes := [take 5 (concat demo_wires); drop 5 (take 17 (concat demo_wires)); drop 17 (concat demo_wires)].

Lemma codec_delivers_witness :
  exists b', feed sum_of demo_codec demo_buffer demo_chunks = Ok ([Delivered (map z2b [7; 8]); Delivered []], b') /\ holds b' [].
Proof.
  apply (codec_delivers sum_of demo_codec [map z2b [7; 8]; []] demo_wires demo_chunks).
  - repeat constructor; unfold sendable; vm_compute; discriminate.
  - exact I.
  - exact demo_wires_ok.
  - reflexivity.
  - exact (proj1 demo_buffer_holds).
  - rewrite (proj2 demo_buffer_holds). vm_compute. discriminate.
Defined.

Lemma damaged_holds : holds (make_buffer (replicate 8 Byte.x00 ++ map z2b [0; 0; 0; 8; 82; 80; 67; 48; 0; 0; 1; 27]) 8 20)
  (concat (map (frame sum_of demo_codec) []) ++ framed (map z2b [82; 80; 67; 48]) 283 ++ []).
Proof. split; [constructor; vm_compute; done|vm_compute; reflexivity]. Qed.

Lemma codec_stops_at_error_witness :
  exists b', onMessage sum_of demo_codec (make_buffer (replicate 8 Byte.x00 ++ map z2b [0; 0; 0; 8; 82; 80; 67; 48; 0; 0; 1; 27]) 8 20)
      = Ok ([Failed kCheckSumError], b') /\ holds b' (framed (map z2b [82; 80; 67; 48]) 283).
Proof.
  destruct (codec_stops_at_error sum_of demo_codec [] (map z2b [82; 80; 67; 48]) 283 [] _
    ltac:(constructor) I ltac:(split; vm_compute; discriminate) ltac:(vm_compute; split; [discriminate|reflexivity]) damaged_holds)
    as (b' & H & Hb & _).
  exists b'. rewrite app_nil_r in Hb. split; [exact H|exact Hb].
Defined.
End Codec.
