(* ===== verification/RpcChannel.v ===== *)
(** * Remote calls ([muduo/net/protorpc/RpcChannel.cc])

    A channel numbers the calls it makes, remembers them until the response
    comes, and answers the requests it receives with the services it was given.
    The channel is modelled above the codec ([ProtobufCodec.v]), which carries
    the messages in order.  Services are the class [Services]: the methods they
    have and the requests they can parse. *)

From stdpp Require Import strings.
From S2P Require Import Prelude.

#[local] Open Scope Z_scope.

Module RpcChannel.

(** ** Messages ([rpc.proto]) *)

Inductive MessageType := REQUEST | RESPONSE | ERROR.
Inductive ErrorCode :=
  | NO_ERROR | WRONG_PROTO | NO_SERVICE | NO_METHOD | INVALID_REQUEST | INVALID_RESPONSE | TIMEOUT.
#[export] Instance ErrorCode_eq_dec : EqDecision ErrorCode.
Proof. solve_decision. Defined.

(** An optional field that is not set reads as its default. *)
Record RpcMessage := RpcMessage_ {
  type : MessageType;
  id : Z;
  service : option string;
  method : option string;
  request : option bytes;
  response : option bytes;
  error : option ErrorCode
}.
Definition has_response (m : RpcMessage) : bool := match response m with Some _ => true | None => false end.
Definition has_error (m : RpcMessage) : bool := match error m with Some _ => true | None => false end.

(** What is registered: [find service] is in the map, the service has the
    method, and the prototype of the method's request parses the bytes. *)
Class Services := {
  has_service : string -> bool;
  has_method : string -> string -> bool;
  parses_request : string -> string -> bytes -> bool
}.

(** ** The channel *)

(** The response object and the closure, [NULL] or not, of a call; [call] is
    their identity. *)
Record OutstandingCall := OutstandingCall_ {
  call : Z;
  has_out : bool;
  has_done : bool
}.

Record RpcChannel := RpcChannel_ {
  id_ : Z;
  outstandings_ : gmap Z OutstandingCall;
  services_ : option Services
}.
Definition new_RpcChannel (services : option Services) : RpcChannel := RpcChannel_ 0 ∅ services.

Inductive act :=
  | Send (m : RpcMessage)
  | Fill (call : Z) (data : bytes)       (* out.response->ParseFromString *)
  | RunDone (call : Z)                   (* out.done->Run() *)
  | Invoke (service method : string) (request : bytes) (id : Z).

Definition CallMethod (svc mth : string) (req : bytes) (out : OutstandingCall) (ch : RpcChannel)
    : RpcChannel * list act :=
  let id := s64 (id_ ch + 1) in
  let message := RpcMessage_ REQUEST id (Some svc) (Some mth) (Some req) None None in
  (RpcChannel_ id (<[id := out]> (outstandings_ ch)) (services_ ch), [Send message]).

(** The body of the [RESPONSE] case. *)
Definition onResponse (message : RpcMessage) (ch : RpcChannel) : outcome (RpcChannel * list act) :=
  bind (assert_ (has_response message || has_error message)) (fun _ =>
    let '(out, outstandings) :=
      match outstandings_ ch !! id message with
      | Some out => (out, delete (id message) (outstandings_ ch))
      | None => (OutstandingCall_ 0 false false, outstandings_ ch)
      end in
    let acts :=
      if has_out out then
        match response message with Some data => [Fill (call out) data] | None => [] end ++
        if has_done out then [RunDone (call out)] else []
      else [] in
    Ok (RpcChannel_ (id_ ch) outstandings (services_ ch), acts)).

(** The checks of a request. *)
Definition check_request (services : option Services) (message : RpcMessage) : ErrorCode :=
  match services with
  | Some services =>
      let svc := default EmptyString (service message) in
      let mth := default EmptyString (method message) in
      if has_service svc then
        if has_method svc mth then
          if parses_request svc mth (default [] (request message)) then NO_ERROR else INVALID_REQUEST
        else NO_METHOD
      else NO_SERVICE
  | None => NO_SERVICE
  end.
Definition onRequest (message : RpcMessage) (ch : RpcChannel) : outcome (RpcChannel * list act) :=
  let error := check_request (services_ ch) message in
  if decide (error = NO_ERROR) then
    Ok (ch, [Invoke (default EmptyString (service message)) (default EmptyString (method message))
               (default [] (request message)) (id message)])
  else Ok (ch, [Send (RpcMessage_ RESPONSE (id message) None None None None (Some error))]).

(** [here]: the message came on the connection of the channel. *)
Definition onRpcMessage (here : bool) (message : RpcMessage) (ch : RpcChannel) : outcome (RpcChannel * list act) :=
  bind (assert_ here) (fun _ =>
    match type message with
    | RESPONSE => onResponse message ch
    | REQUEST => onRequest message ch
    | ERROR => Ok (ch, [])
    end).

(** The closure that a service runs when it has the response. *)
Definition doneCallback (resp : bytes) (id : Z) : list act :=
  [Send (RpcMessage_ RESPONSE id None None None (Some resp) None)].

(** The destructor deletes the response and the closure of the calls that are
    outstanding; the closures do not run. *)
Definition delete_RpcChannel (ch : RpcChannel) : list Z := map (fun p => call p.2) (map_to_list (outstandings_ ch)).

(** ** Two channels

    A caller and a server with the connections between them; services compute
    [answer], and take any time. *)
Section system.
Context (services : Services) (answer : string -> string -> bytes -> bytes).

Record System := System_ {
  caller : RpcChannel;
  server : RpcChannel;
  requests : list RpcMessage;                      (* on their way *)
  running : list (string * string * bytes * Z);    (* calls the services work on *)
  responses : list RpcMessage;
  effects : list act                               (* what the caller saw *)
}.

Inductive event :=
  | EvCall (svc mth : string) (req : bytes) (out : OutstandingCall)
  | EvRequest                        (* the server receives a message *)
  | EvAnswer (i : nat)               (* a service is done *)
  | EvResponse.                      (* the caller receives a message *)

Definition sends (acts : list act) : list RpcMessage :=
  omap (fun a => match a with Send m => Some m | _ => None end) acts.
Definition invokes (acts : list act) : list (string * string * bytes * Z) :=
  omap (fun a => match a with Invoke svc mth req id => Some (svc, mth, req, id) | _ => None end) acts.
Definition local (acts : list act) : list act :=
  omap (fun a => match a with Fill _ _ | RunDone _ => Some a | _ => None end) acts.

Definition step (e : event) (s : System) : outcome System :=
  match e with
  | EvCall svc mth req out =>
      let '(ch, acts) := CallMethod svc mth req out (caller s) in
      Ok (System_ ch (server s) (requests s ++ sends acts) (running s) (responses s) (effects s))
  | EvRequest =>
      match requests s with
      | [] => Ok s
      | m :: ms =>
          bind (onRpcMessage true m (server s)) (fun '(ch, acts) =>
            Ok (System_ (caller s) ch ms (running s ++ invokes acts) (responses s ++ sends acts) (effects s)))
      end
  | EvAnswer i =>
      match running s !! i with
      | Some (svc, mth, req, id) =>
          let acts := doneCallback (answer svc mth req) id in
          Ok (System_ (caller s) (server s) (requests s) (delete i (running s)) (responses s ++ sends acts) (effects s))
      | None => Ok s
      end
  | EvResponse =>
      match responses s with
      | [] => Ok s
      | m :: ms =>
          bind (onRpcMessage true m (caller s)) (fun '(ch, acts) =>
            Ok (System_ ch (server s) (requests s) (running s) (ms ++ sends acts) (effects s ++ local acts)))
      end
  end.

Definition new_System : System :=
  System_ (new_RpcChannel None) (new_RpcChannel (Some services)) [] [] [] [].

(** A call the program made, with the number the channel gave it. *)
Record issued := Issued { i_id : Z; i_svc : string; i_mth : string; i_req : bytes; i_out : OutstandingCall }.

Definition request_of (k : issued) : RpcMessage :=
  RpcMessage_ REQUEST (i_id k) (Some (i_svc k)) (Some (i_mth k)) (Some (i_req k)) None None.
Definition refusal (k : issued) : ErrorCode := check_request (Some services) (request_of k).
Definition response_of (k : issued) : RpcMessage :=
  if decide (refusal k = NO_ERROR)
  then RpcMessage_ RESPONSE (i_id k) None None None (Some (answer (i_svc k) (i_mth k) (i_req k))) None
  else RpcMessage_ RESPONSE (i_id k) None None None None (Some (refusal k)).

(** What the end of a call does to its caller: the answer of the method to this
    request, or nothing if the call was refused, and the closure. *)
Definition outcome_of (k : issued) : list act :=
  if has_out (i_out k) then
    (if decide (refusal k = NO_ERROR) then [Fill (call (i_out k)) (answer (i_svc k) (i_mth k) (i_req k))] else []) ++
    if has_done (i_out k) then [RunDone (call (i_out k))] else []
  else [].

(** The events, and the calls they issue. *)
Inductive reachable : list issued -> System -> Prop :=
  | reachable_new : reachable [] new_System
  | reachable_step ks s e s' : reachable ks s -> step e s = Ok s' ->
      id_ (caller s) < 9223372036854775807 ->
      reachable (ks ++ match e with
                       | EvCall svc mth req out => [Issued (id_ (caller s) + 1) svc mth req out]
                       | _ => []
                       end) s'.

(** ** Every call ends once *)

(** The calls by the place where they are: the request is on its way, a service
    works on it, the response is on its way, or it has ended. *)
Record places (ks : list issued) (s : System) (k1 k2 k3 k4 : list issued) : Prop := {
  pl_all : ks ≡ₚ k1 ++ k2 ++ k3 ++ k4;
  pl_ids : map i_id ks = map Z.of_nat (seq 1 (length ks));
  pl_next : id_ (caller s) = Z.of_nat (length ks);
  pl_requests : requests s = map request_of k1;
  pl_running : running s = map (fun k => (i_svc k, i_mth k, i_req k, i_id k)) k2;
  pl_accepted : Forall (fun k => refusal k = NO_ERROR) k2;
  pl_responses : responses s = map response_of k3;
  pl_effects : effects s = concat (map outcome_of k4);
  pl_outstanding : outstandings_ (caller s) = list_to_map (map (fun k => (i_id k, i_out k)) (k1 ++ k2 ++ k3));
  pl_server : server s = new_RpcChannel (Some services)
}.

Lemma places_NoDup ks s k1 k2 k3 k4 : places ks s k1 k2 k3 k4 -> NoDup (map i_id (k1 ++ k2 ++ k3 ++ k4)).
Proof.
  intros [Ha Hi _ _ _ _ _ _ _ _]. rewrite <- Ha, Hi. apply NoDup_fmap_2; [|apply NoDup_seq].
  intros x y. lia.
Qed.

Lemma outstanding_perm (l l' : list issued) :
  NoDup (map i_id l) -> l ≡ₚ l' ->
  (list_to_map (map (fun k => (i_id k, i_out k)) l) : gmap Z OutstandingCall) =
  list_to_map (map (fun k => (i_id k, i_out k)) l').
Proof.
  intros Hn Hp. apply list_to_map_proper; [|by rewrite Hp].
  rewrite <- list_fmap_compose. exact Hn.
Qed.

Lemma NoDup_open (k1 k2 k3 k4 : list issued) :
  NoDup (map i_id (k1 ++ k2 ++ k3 ++ k4)) -> NoDup (map i_id (k1 ++ k2 ++ k3)).
Proof. rewrite !app_assoc, (map_app _ (_ ++ k3)). rewrite <- app_assoc. by intros [? _]%NoDup_app. Qed.

Lemma seq_snoc n : map Z.of_nat (seq 1 (S n)) = map Z.of_nat (seq 1 n) ++ [Z.of_nat n + 1].
Proof. rewrite seq_S, map_app. cbn. do 2 f_equal. lia. Qed.

Lemma issue_places ks s k1 k2 k3 k4 svc mth req out s' :
  places ks s k1 k2 k3 k4 -> id_ (caller s) < 9223372036854775807 ->
  step (EvCall svc mth req out) s = Ok s' ->
  let k := Issued (id_ (caller s) + 1) svc mth req out in places (ks ++ [k]) s' (k1 ++ [k]) k2 k3 k4.
Proof.
  intros Hp Hlt Hs k. pose proof (places_NoDup _ _ _ _ _ _ Hp) as Hn.
  destruct Hp as [Ha Hi Hx H1 H2 H3 H4 H5 H6 H7].
  assert (Hid : s64 (id_ (caller s) + 1) = id_ (caller s) + 1) by (rewrite Hx in *; word).
  cbn [step] in Hs. unfold CallMethod in Hs. injection Hs as <-. cbn [sends omap list_omap]. rewrite Hid.
  assert (Hids : map i_id (ks ++ [k]) = map Z.of_nat (seq 1 (length (ks ++ [k])))).
  { rewrite map_app, Hi, length_app, Nat.add_1_r, seq_snoc. cbn. by rewrite Hx. }
  assert (Hall : ks ++ [k] ≡ₚ (k1 ++ [k]) ++ k2 ++ k3 ++ k4).
  { rewrite Ha. solve_Permutation. }
  split; cbn [caller server requests running responses effects id_ outstandings_]; try done.
  - rewrite length_app. cbn. lia.
  - by rewrite H1, map_app.
  - rewrite H6. rewrite <- (outstanding_perm (k :: k1 ++ k2 ++ k3) ((k1 ++ [k]) ++ k2 ++ k3)); [done| |solve_Permutation].
    assert (Hn' : NoDup (map i_id (ks ++ [k]))).
    { rewrite Hids. apply NoDup_fmap_2; [intros x y; lia|apply NoDup_seq]. }
    rewrite Hall in Hn'. apply (NoDup_open (k :: k1) k2 k3 k4). cbn [app].
    assert (Hpp : (k1 ++ [k]) ++ k2 ++ k3 ++ k4 ≡ₚ k :: k1 ++ k2 ++ k3 ++ k4) by solve_Permutation.
    by rewrite Hpp in Hn'.
Qed.

Lemma check_decoded k : check_request (Some services) (request_of k) = refusal k.
Proof. done. Qed.

Lemma request_places ks s k1 k2 k3 k4 s' : places ks s k1 k2 k3 k4 -> step EvRequest s = Ok s' ->
  exists k1 k2 k3, places ks s' k1 k2 k3 k4.
Proof.
  intros Hp Hs. pose proof (places_NoDup _ _ _ _ _ _ Hp) as Hn.
  destruct Hp as [Ha Hi Hx H1 H2 H3 H4 H5 H6 H7]. cbn [step] in Hs. rewrite H1 in Hs.
  destruct k1 as [|k k1]; [injection Hs as <-; by exists [], k2, k3|].
  cbn [map] in Hs. unfold onRpcMessage in Hs. cbn [assert_ bind type request_of] in Hs.
  rewrite H7 in Hs. unfold onRequest in Hs. cbn [services_ new_RpcChannel] in Hs. fold (request_of k) in Hs.
  rewrite check_decoded in Hs.
  destruct (decide (refusal k = NO_ERROR)) as [E|E]; cbn [bind] in Hs; injection Hs as <-.
  - exists k1, (k2 ++ [k]), k3.
    assert (Hpp : (k :: k1) ++ k2 ++ k3 ≡ₚ k1 ++ (k2 ++ [k]) ++ k3) by solve_Permutation.
    split; cbn [caller server requests running responses effects]; try done.
    + rewrite Ha. solve_Permutation.
    + by rewrite H2, map_app.
    + apply Forall_app. by repeat constructor.
    + rewrite H4. apply app_nil_r.
    + rewrite H6. by apply outstanding_perm; [eapply NoDup_open|].
  - exists k1, k2, (k3 ++ [k]).
    assert (Hpp : (k :: k1) ++ k2 ++ k3 ≡ₚ k1 ++ k2 ++ k3 ++ [k]) by solve_Permutation.
    split; cbn [caller server requests running responses effects]; try done.
    + rewrite Ha. solve_Permutation.
    + rewrite H2. apply app_nil_r.
    + rewrite H4, map_app. cbn [map sends omap list_omap]. unfold response_of. by rewrite decide_False.
    + rewrite H6. by apply outstanding_perm; [eapply NoDup_open|].
Qed.

Lemma answer_places ks s k1 k2 k3 k4 i s' : places ks s k1 k2 k3 k4 -> step (EvAnswer i) s = Ok s' ->
  exists k2 k3, places ks s' k1 k2 k3 k4.
Proof.
  intros Hp Hs. pose proof (places_NoDup _ _ _ _ _ _ Hp) as Hn. pose proof Hp as Hp0.
  destruct Hp as [Ha Hi Hx H1 H2 H3 H4 H5 H6 H7]. cbn [step] in Hs. rewrite H2 in Hs.
  change (map ?f k2) with (f <$> k2) in Hs. rewrite list_lookup_fmap in Hs.
  destruct (k2 !! i) as [k|] eqn:Ek; cbn in Hs; injection Hs as <-; [|by exists k2, k3].
  exists (delete i k2), (k3 ++ [k]).
  pose proof (delete_Permutation k2 i k Ek) as Hd.
  assert (Hpp : k1 ++ k2 ++ k3 ≡ₚ k1 ++ delete i k2 ++ k3 ++ [k]) by (rewrite Hd at 1; solve_Permutation).
  split; cbn [caller server requests running responses effects]; try done.
  - rewrite Ha, Hd at 1. solve_Permutation.
  - change (map ?f ?l) with (f <$> l). by rewrite list_fmap_delete.
  - rewrite Hd in H3. by apply Forall_cons in H3 as [_ ?].
  - rewrite H4, map_app. cbn [map]. unfold response_of.
    rewrite decide_True; [done|]. rewrite Forall_forall in H3. apply H3. by eapply list_elem_of_lookup_2.
  - rewrite H6. by apply outstanding_perm; [eapply NoDup_open|].
Qed.

(** What the caller does with the response of a call that is outstanding. *)
Lemma onResponse_known k ch :
  outstandings_ ch !! i_id k = Some (i_out k) ->
  onRpcMessage true (response_of k) ch =
    Ok (RpcChannel_ (id_ ch) (delete (i_id k) (outstandings_ ch)) (services_ ch), outcome_of k).
Proof.
  intros Hk. unfold onRpcMessage, response_of, outcome_of. cbn [assert_ bind].
  destruct (decide (refusal k = NO_ERROR)); cbn [type]; unfold onResponse;
    cbn [has_response has_error response error id orb assert_ bind]; rewrite Hk; done.
Qed.

Lemma effects_only k : sends (outcome_of k) = [] /\ local (outcome_of k) = outcome_of k.
Proof.
  unfold outcome_of. destruct (decide (refusal k = NO_ERROR)), (has_out (i_out k)), (has_done (i_out k)); done.
Qed.

Lemma response_places ks s k1 k2 k3 k4 s' : places ks s k1 k2 k3 k4 -> step EvResponse s = Ok s' ->
  exists k3 k4, places ks s' k1 k2 k3 k4.
Proof.
  intros Hp Hs. pose proof (places_NoDup _ _ _ _ _ _ Hp) as Hn.
  destruct Hp as [Ha Hi Hx H1 H2 H3 H4 H5 H6 H7]. cbn [step] in Hs. rewrite H4 in Hs.
  destruct k3 as [|k k3]; [injection Hs as <-; by exists [], k4|]. cbn [map] in Hs.
  assert (Hpp : k1 ++ k2 ++ k :: k3 ≡ₚ k :: k1 ++ k2 ++ k3) by solve_Permutation.
  pose proof (NoDup_open _ _ _ _ Hn) as Hno.
  assert (Ho : outstandings_ (caller s) = <[i_id k := i_out k]> (list_to_map (map (fun k => (i_id k, i_out k)) (k1 ++ k2 ++ k3)))).
  { rewrite H6. rewrite (outstanding_perm _ _ Hno Hpp). done. }
  rewrite (onResponse_known k) in Hs by (rewrite Ho; apply lookup_insert_eq). cbn [bind] in Hs. injection Hs as <-.
  destruct (effects_only k) as [Hse Hlo]. rewrite Hse, Hlo, app_nil_r.
  exists k3, (k4 ++ [k]). split; cbn [caller server requests running responses effects id_ outstandings_]; try done.
  - rewrite Ha. solve_Permutation.
  - rewrite H5, map_app, concat_app. cbn [map concat]. by rewrite app_nil_r.
  - rewrite Ho. rewrite delete_insert_id; [done|]. apply not_elem_of_list_to_map_1.
    rewrite Hpp in Hno. apply NoDup_cons in Hno as [Hk _]. rewrite <- list_fmap_compose. exact Hk.
Qed.

Lemma reachable_places ks s : reachable ks s -> exists k1 k2 k3 k4, places ks s k1 k2 k3 k4.
Proof.
  induction 1 as [|ks s e s' Hr (k1 & k2 & k3 & k4 & Hp) Hs Hlt].
  - exists [], [], [], []. split; done.
  - destruct e as [svc mth req out| |i|].
    + eexists _, k2, k3, k4. by eapply issue_places.
    + rewrite app_nil_r. destruct (request_places _ _ _ _ _ _ _ Hp Hs) as (? & ? & ? & ?). eauto.
    + rewrite app_nil_r. destruct (answer_places _ _ _ _ _ _ _ _ Hp Hs) as (? & ? & ?). eauto.
    + rewrite app_nil_r. destruct (response_places _ _ _ _ _ _ _ Hp Hs) as (? & ? & ?). eauto.
Qed.

Lemma places_step_ok ks s k1 k2 k3 k4 e : places ks s k1 k2 k3 k4 -> exists s', step e s = Ok s'.
Proof.
  intros Hp. pose proof (places_NoDup _ _ _ _ _ _ Hp) as Hn. pose proof Hp as [Ha Hi Hx H1 H2 H3 H4 H5 H6 H7].
  destruct e as [svc mth req out| |i|]; cbn [step].
  - eauto.
  - rewrite H1. destruct k1 as [|k k1]; cbn [map]; [eauto|]. unfold onRpcMessage. cbn [assert_ bind type request_of].
    unfold onRequest. destruct (decide _); cbn [bind]; eauto.
  - rewrite H2. change (map ?f k2) with (f <$> k2). rewrite list_lookup_fmap. destruct (k2 !! i); cbn; eauto.
  - rewrite H4. destruct k3 as [|k k3]; cbn [map]; [eauto|]. rewrite onResponse_known; [cbn [bind]; eauto|].
    rewrite H6. apply elem_of_list_to_map_1; [rewrite <- list_fmap_compose; by eapply NoDup_open|].
    apply list_elem_of_fmap. exists k. split; [done|]. rewrite !elem_of_app, elem_of_cons. auto.
Qed.

Lemma step_ok ks s e : reachable ks s -> exists s', step e s = Ok s'.
Proof. intros Hr. destruct (reachable_places _ _ Hr) as (k1 & k2 & k3 & k4 & Hp). by eapply places_step_ok. Qed.

(** The work that is left before every call has ended. *)
Definition distance (s : System) : nat :=
  (3 * length (requests s) + 2 * length (running s) + length (responses s))%nat.

(** C33.  Remote calls between two channels of this program over a connection that
    stays up, fewer than 2^63 of them: neither channel fails, whatever the order in which
    services answer.  The calls that have ended are among those that were made,
    each once, and each got the answer of its method to its own request - or, if
    the server has no such service or method or cannot parse the request, no
    answer at all, though its closure runs.  The channel remembers exactly the
    calls that have not ended, and when nothing is on its way and no service is
    at work, all have.  Another peer can end the process
    ([malformed_response_fails]), and so can a service that answers after the
    connection has gone ([RpcServer.late_answer_fails]). *)
Theorem rpc_calls_end_once ks s e :
  reachable ks s ->
  (exists s', step e s = Ok s') /\
  exists pending ended, ks ≡ₚ pending ++ ended /\ NoDup (map i_id ks) /\
    effects s = concat (map outcome_of ended) /\
    outstandings_ (caller s) = list_to_map (map (fun k => (i_id k, i_out k)) pending) /\
    (requests s = [] -> running s = [] -> responses s = [] -> pending = []).
Proof.
  intros Hr. split; [by eapply step_ok|].
  destruct (reachable_places _ _ Hr) as (k1 & k2 & k3 & k4 & Hp).
  pose proof (places_NoDup _ _ _ _ _ _ Hp) as Hn. destruct Hp as [Ha Hi Hx H1 H2 H3 H4 H5 H6 H7].
  exists (k1 ++ k2 ++ k3), k4. split; [rewrite Ha; solve_Permutation|].
  split; [by rewrite Ha|]. split; [done|]. split; [done|].
  rewrite H1, H2, H4. intros E1%map_eq_nil E2%map_eq_nil E3%map_eq_nil. by subst.
Qed.

(** ** Progress *)

(** The steps of the two channels and the services, while there is work. *)
Definition enabled (e : event) (s : System) : bool :=
  match e with
  | EvCall _ _ _ _ => false
  | EvRequest => match requests s with [] => false | _ => true end
  | EvAnswer i => (i <? length (running s))%nat
  | EvResponse => match responses s with [] => false | _ => true end
  end.

(** [works n s s']: [n] such steps lead from [s] to [s']. *)
Inductive works : nat -> System -> System -> Prop :=
  | works_nil s : works 0 s s
  | works_step e n s s1 s2 : enabled e s = true -> step e s = Ok s1 -> works n s1 s2 -> works (S n) s s2.

(** Every call has ended, with what its method answers or, if refused, without. *)
Definition finished (ks : list issued) (s : System) : Prop :=
  outstandings_ (caller s) = ∅ /\ exists ended, ended ≡ₚ ks /\ effects s = concat (map outcome_of ended).

Lemma places_distance ks s k1 k2 k3 k4 : places ks s k1 k2 k3 k4 ->
  distance s = (3 * length k1 + 2 * length k2 + length k3)%nat.
Proof. intros [_ _ _ H1 H2 _ H4 _ _ _]. unfold distance. by rewrite H1, H2, H4, !length_map. Qed.

Lemma request_nearer ks s k1 k2 k3 k4 s' : places ks s k1 k2 k3 k4 -> enabled EvRequest s = true ->
  step EvRequest s = Ok s' -> (distance s' < distance s)%nat.
Proof.
  intros [_ _ _ H1 H2 _ H4 _ _ H7] He Hs. cbn [enabled step] in *. unfold distance. rewrite H1 in *.
  destruct k1 as [|k k1]; [done|]. cbn [map] in Hs. unfold onRpcMessage in Hs.
  cbn [assert_ bind type request_of] in Hs. rewrite H7 in Hs. unfold onRequest in Hs. cbn [services_ new_RpcChannel] in Hs.
  cbn [map length]. destruct (decide _); cbn [bind] in Hs; injection Hs as <-; cbn [requests running responses];
    rewrite !length_app; cbn; lia.
Qed.

Lemma answer_nearer s i s' : enabled (EvAnswer i) s = true -> step (EvAnswer i) s = Ok s' -> (distance s' < distance s)%nat.
Proof.
  intros He Hs. cbn [enabled step] in *. apply Nat.ltb_lt, lookup_lt_is_Some in He as [[[[svc mth] req] n] He].
  rewrite He in Hs. injection Hs as <-. unfold distance. cbn [requests running responses].
  pose proof (lookup_lt_Some _ _ _ He). rewrite length_app, length_delete by done. cbn. lia.
Qed.

Lemma response_nearer ks s k1 k2 k3 k4 s' : places ks s k1 k2 k3 k4 -> enabled EvResponse s = true ->
  step EvResponse s = Ok s' -> (distance s' < distance s)%nat.
Proof.
  intros Hp He Hs. pose proof (places_NoDup _ _ _ _ _ _ Hp) as Hn. destruct Hp as [_ _ _ H1 H2 _ H4 _ H6 _].
  cbn [enabled step] in *. unfold distance. rewrite H4 in *. destruct k3 as [|k k3]; [done|]. cbn [map] in Hs.
  rewrite onResponse_known in Hs.
  - cbn [bind] in Hs. injection Hs as <-. cbn [requests running responses]. rewrite (proj1 (effects_only k)), app_nil_r.
    cbn [map length]. lia.
  - rewrite H6. apply elem_of_list_to_map_1; [rewrite <- list_fmap_compose; by eapply NoDup_open|].
    apply list_elem_of_fmap. exists k. split; [done|]. rewrite !elem_of_app, elem_of_cons. auto.
Qed.

Lemma work_step ks s k1 k2 k3 k4 e s' : places ks s k1 k2 k3 k4 -> enabled e s = true -> step e s = Ok s' ->
  (distance s' < distance s)%nat /\ exists k1 k2 k3 k4, places ks s' k1 k2 k3 k4.
Proof.
  intros Hp He Hs. destruct e as [svc mth req out| |i|]; [done|..].
  - split; [by eapply request_nearer|]. destruct (request_places _ _ _ _ _ _ _ Hp Hs) as (? & ? & ? & ?). eauto.
  - split; [by eapply answer_nearer|]. destruct (answer_places _ _ _ _ _ _ _ _ Hp Hs) as (? & ? & ?). eauto.
  - split; [by eapply response_nearer|]. destruct (response_places _ _ _ _ _ _ _ Hp Hs) as (? & ? & ?). eauto.
Qed.

Lemma works_bounded ks n s s' : works n s s' -> (exists k1 k2 k3 k4, places ks s k1 k2 k3 k4) ->
  (n + distance s' <= distance s)%nat /\ exists k1 k2 k3 k4, places ks s' k1 k2 k3 k4.
Proof.
  induction 1 as [s|e n s s1 s2 He Hs _ IH]; intros Hp; [done|]. destruct Hp as (k1 & k2 & k3 & k4 & Hp).
  destruct (work_step _ _ _ _ _ _ _ _ Hp He Hs) as [Hd Hp1]. destruct (IH Hp1) as [Hb Hp2]. split; [lia | done].
Qed.

Lemma some_enabled s : (0 < distance s)%nat -> exists e, enabled e s = true.
Proof.
  unfold distance. intros Hd. destruct (requests s) as [|m l] eqn:E1; [|exists EvRequest; cbn; by rewrite E1].
  destruct (running s) as [|x l] eqn:E2; [|exists (EvAnswer 0); cbn; by rewrite E2].
  destruct (responses s) as [|m l] eqn:E3; [cbn in Hd; lia|]. exists EvResponse. cbn. by rewrite E3.
Qed.

Lemma places_finished ks s k1 k2 k3 k4 : places ks s k1 k2 k3 k4 -> distance s = O -> finished ks s.
Proof.
  intros Hp Hd. rewrite (places_distance _ _ _ _ _ _ Hp) in Hd. destruct Hp as [Ha _ _ _ _ _ _ H5 H6 _].
  destruct k1, k2, k3; cbn in Hd; try lia. split; [done|]. exists k4. split; [by rewrite Ha | done].
Qed.

Lemma works_to_end ks : forall d s, (distance s <= d)%nat -> (exists k1 k2 k3 k4, places ks s k1 k2 k3 k4) ->
  exists n s', works n s s' /\ distance s' = O /\ finished ks s'.
Proof.
  induction d as [|d IH]; intros s Hd (k1 & k2 & k3 & k4 & Hp).
  - exists O, s. split; [constructor|]. split; [lia|]. eapply places_finished; [exact Hp | lia].
  - destruct (decide (distance s = O)) as [H0|H0].
    { exists O, s. split; [constructor|]. split; [done|]. by eapply places_finished. }
    destruct (some_enabled s) as [e He]; [lia|]. destruct (places_step_ok _ _ _ _ _ _ e Hp) as [s1 Hs].
    destruct (work_step _ _ _ _ _ _ _ _ Hp He Hs) as [Hlt Hp1].
    destruct (IH s1) as (n & s' & Hw & H); [lia | done|]. exists (S n), s'. split; [by econstructor | done].
Qed.

(** C34.  Every call ends, however messages and answers are scheduled.  From any
    state of the two channels, once no more calls are made: there are at most
    [distance] further steps (a message received, a service that answers);
    whatever steps were taken, the rest can be taken; and when
    none is left, the caller remembers no call and every call that was made has had
    its effect - the answer of its method to its own request and its closure, or, if
    it was refused, the closure alone.  As in [rpc_calls_end_once], the
    connection stays up and the peer is a channel of the same program. *)
Theorem rpc_progress ks s n s' :
  reachable ks s -> works n s s' ->
  (n + distance s' <= distance s)%nat /\
  (distance s' = O -> finished ks s') /\
  exists m s2, works m s' s2 /\ distance s2 = O /\ finished ks s2.
Proof.
  intros Hr Hw. pose proof (works_bounded ks _ _ _ Hw (reachable_places _ _ Hr)) as [Hb Hp]. split; [done|]. split.
  - intros Hd. destruct Hp as (? & ? & ? & ? & Hp). by eapply places_finished.
  - by apply (works_to_end ks (distance s')).
Qed.
End system.

(** A response with neither a result nor an error ends the process that made
    the call - any peer can send one - and a message of type [ERROR] is ignored. *)
Theorem malformed_response_fails ch n :
  onRpcMessage true (RpcMessage_ RESPONSE n None None None None None) ch = Crash AssertFailed /\
  onRpcMessage true (RpcMessage_ ERROR n None None None None None) ch = Ok (ch, []).
Proof. done. Qed.

(** A service that doubles its request; one call succeeds, one names a method
    that does not exist. *)
Definition demo_services : Services := {|
  has_service s := String.eqb s "Echo"; has_method _ m := String.eqb m "twice"; parses_request _ _ _ := true |}.
Definition demo_answer (_ _ : string) (req : bytes) : bytes := req ++ req.
Definition demo_calls : list issued :=
  [Issued 1 "Echo" "twice" [Byte.x07] (OutstandingCall_ 10 true true);
   Issued 2 "Echo" "thrice" [Byte.x08] (OutstandingCall_ 11 true true)].
Definition run_step (e : event) (s : System) : System :=
  match step demo_answer e s with Ok s => s | Crash _ => s end.
Definition demo_call1 : event := EvCall "Echo" "twice" [Byte.x07] (OutstandingCall_ 10 true true).
Definition demo_call2 : event := EvCall "Echo" "thrice" [Byte.x08] (OutstandingCall_ 11 true true).
Definition demo_1 : System := run_step demo_call1 (new_System demo_services).
Definition demo_2 : System := run_step demo_call2 demo_1.
Definition demo_3 : System := run_step EvRequest demo_2.
Definition demo_system : System := run_step EvRequest demo_3.

Lemma rpc_demo_reachable : reachable demo_services demo_answer demo_calls demo_system.
Proof.
  apply (reachable_step _ _ demo_calls demo_3 EvRequest); [|reflexivity|reflexivity].
  apply (reachable_step _ _ demo_calls demo_2 EvRequest); [|reflexivity|reflexivity].
  apply (reachable_step _ _ (take 1 demo_calls) demo_1 demo_call2); [|reflexivity|reflexivity].
  apply (reachable_step _ _ [] (new_System demo_services) demo_call1); [|reflexivity|reflexivity].
  constructor.
Qed.

Lemma rpc_calls_end_once_witness :
  (exists s', step demo_answer EvResponse demo_system = Ok s') /\
  exists pending ended, demo_calls ≡ₚ pending ++ ended /\
    effects demo_system = concat (map (outcome_of demo_services demo_answer) ended).
Proof.
  destruct (rpc_calls_end_once demo_services demo_answer demo_calls demo_system EvResponse rpc_demo_reachable)
    as [Hs (p & d & Hp & _ & He & _)].
  split; [exact Hs|]. exists p, d. split; [exact Hp|exact He].
Defined.

(** Two calls, one of them refused: three steps are left and lead to the end. *)
Definition demo_4 : System := run_step EvResponse demo_system.
Lemma demo_works : works demo_answer 1 demo_system demo_4.
Proof. by apply (works_step _ EvResponse 0 _ demo_4); [vm_compute | vm_compute; reflexivity | constructor]. Qed.

Lemma rpc_progress_witness :
  distance demo_system = 3%nat /\ effects demo_4 = [RunDone 11] /\
  exists m s2, works demo_answer m demo_4 s2 /\ distance s2 = O /\ finished demo_services demo_answer demo_calls s2.
Proof.
  split; [by vm_compute|]. split; [by vm_compute|].
  exact (proj2 (proj2 (rpc_progress demo_services demo_answer demo_calls demo_system 1 demo_4 rpc_demo_reachable demo_works))).
Defined.
End RpcChannel.
