(* ===== verification/RpcServer.v ===== *)
(** * RPC server ([muduo/net/protorpc/RpcServer.cc])

    A server has a map of services and, as the context of each of its
    connections, a channel ([RpcChannel.v]) that reads the map through a pointer.
    A service may take any time for a request and runs the closure of the
    channel when it is done; the channel is deleted when its connection comes
    down.  A call on a deleted channel is [DeadObject]. *)

From stdpp Require Import strings.
From S2P Require Import Prelude RpcChannel.
#[local] Open Scope Z_scope.

Module RpcServer.
Import RpcChannel.

(** A service: its methods, and the requests their prototypes parse. *)
Record Service := Service_ {
  sv_method : string -> bool;
  sv_parses : string -> bytes -> bool
}.

(** A request a service works on: its connection and what it was called with. *)
Record job := Job { j_conn : nat; j_service : string; j_method : string; j_request : bytes; j_id : Z }.

Record RpcServer := RpcServer_ {
  services : gmap string Service;
  channels : gmap nat RpcChannel;     (* the contexts of the connections *)
  working : list job
}.
Definition new_RpcServer : RpcServer := RpcServer_ ∅ ∅ [].

Inductive sact :=
  | SendOn (c : nat) (m : RpcMessage)
  | Local (c : nat) (a : RpcChannel.act).

(** What a channel sees through its pointer to the map. *)
Definition view (m : gmap string Service) : Services := {|
  has_service svc := match m !! svc with Some _ => true | None => false end;
  has_method svc mth := match m !! svc with Some s => sv_method s mth | None => false end;
  parses_request svc mth req := match m !! svc with Some s => sv_parses s mth req | None => false end
|}.

Definition registerService (full_name : string) (service : Service) (s : RpcServer) : RpcServer :=
  RpcServer_ (<[full_name := service]> (services s)) (channels s) (working s).

Definition onConnection (c : nat) (connected : bool) (s : RpcServer) : RpcServer :=
  if connected then RpcServer_ (services s) (<[c := new_RpcChannel None]> (channels s)) (working s)
  else RpcServer_ (services s) (delete c (channels s)) (working s).

(** The actions of a channel, as those of its connection. *)
Definition sent_on (c : nat) (acts : list RpcChannel.act) : list sact :=
  omap (fun a => match a with Send m => Some (SendOn c m) | Invoke _ _ _ _ => None | a => Some (Local c a) end) acts.
Definition jobs_of (c : nat) (acts : list RpcChannel.act) : list job :=
  omap (fun a => match a with Invoke svc mth req id => Some (Job c svc mth req id) | _ => None end) acts.

(** The message callback of a connection, which has the address of its channel. *)
Definition onMessage (c : nat) (m : RpcMessage) (s : RpcServer) : outcome (RpcServer * list sact) :=
  match channels s !! c with
  | Some ch =>
      bind (onRpcMessage true m (RpcChannel_ (id_ ch) (outstandings_ ch) (Some (view (services s))))) (fun '(ch, acts) =>
        Ok (RpcServer_ (services s) (<[c := ch]> (channels s)) (working s ++ jobs_of c acts), sent_on c acts))
  | None => Crash DeadObject
  end.

(** The i-th job is done: the closure calls [doneCallback] of the channel. *)
Definition job_done (i : nat) (resp : bytes) (s : RpcServer) : outcome (RpcServer * list sact) :=
  match working s !! i with
  | Some j =>
      match channels s !! j_conn j with
      | Some _ =>
          Ok (RpcServer_ (services s) (channels s) (delete i (working s)), sent_on (j_conn j) (doneCallback resp (j_id j)))
      | None => Crash DeadObject
      end
  | None => Ok (s, [])
  end.

(** ** Runs *)

Section server.
Context (answer : string -> string -> bytes -> bytes).

Inductive event :=
  | EvRegister (full_name : string) (service : Service)
  | EvConnection (c : nat) (connected : bool)
  | EvMessage (c : nat) (m : RpcMessage)
  | EvDone (i : nat).

Definition step (e : event) (s : RpcServer) : outcome (RpcServer * list sact) :=
  match e with
  | EvRegister name sv => Ok (registerService name sv s, [])
  | EvConnection c connected => Ok (onConnection c connected s, [])
  | EvMessage c m => onMessage c m s
  | EvDone i =>
      match working s !! i with
      | Some j => job_done i (answer (j_service j) (j_method j) (j_request j)) s
      | None => Ok (s, [])
      end
  end.

(** A connection has a number of its own and messages only while it is up, as
    [TcpConnection.v] shows; its peer sends responses that have a response or an
    error; services are done before the connection comes down. *)
Definition allowed (old : gset nat) (s : RpcServer) (e : event) : bool :=
  match e with
  | EvRegister _ _ => true
  | EvConnection c true => bool_decide (c ∉ old)
  | EvConnection c false => bool_decide (is_Some (channels s !! c))
  | EvMessage c m =>
      bool_decide (is_Some (channels s !! c)) &&
      match type m with RESPONSE => has_response m || has_error m | _ => true end
  | EvDone i =>
      match working s !! i with Some j => bool_decide (is_Some (channels s !! j_conn j)) | None => false end
  end.

(** The requests that were received. *)
Definition job_of (c : nat) (m : RpcMessage) : job :=
  Job c (default EmptyString (service m)) (default EmptyString (method m)) (default [] (request m)) (id m).
Definition received (e : event) : list job :=
  match e with EvMessage c m => match type m with REQUEST => [job_of c m] | _ => [] end | _ => [] end.
Definition connected (e : event) : gset nat := match e with EvConnection c true => {[c]} | _ => ∅ end.

Inductive reachable : gset nat -> list job -> RpcServer -> list sact -> Prop :=
  | reachable_new : reachable ∅ [] new_RpcServer []
  | reachable_step old rq s es e s' es' : reachable old rq s es -> allowed old s e = true -> step e s = Ok (s', es') ->
      reachable (old ∪ connected e) (rq ++ received e) s' (es ++ es').

(** An answer to a request: the result of its method, or an error. *)
Definition answers (j : job) (a : sact) : Prop :=
  exists m, a = SendOn (j_conn j) m /\ type m = RESPONSE /\ id m = j_id j /\
    (response m = Some (answer (j_service j) (j_method j) (j_request j)) /\ error m = None \/
     response m = None /\ exists e, error m = Some e /\ e <> NO_ERROR).

Record inv (rq : list job) (s : RpcServer) (es : list sact) : Prop := {
  s_jobs : exists ended, rq ≡ₚ ended ++ working s /\ Forall2 answers ended es;
  s_quiet c ch : channels s !! c = Some ch -> outstandings_ ch = ∅
}.

Lemma check_never s m : check_request (Some s) m <> NO_ERROR -> forall ch, services_ ch = Some s ->
  onRequest m ch = Ok (ch, [Send (RpcMessage_ RESPONSE (id m) None None None None (Some (check_request (Some s) m)))]).
Proof. intros H ch Hc. unfold onRequest. rewrite Hc. by rewrite decide_False. Qed.

Lemma message_inv rq s es c m :
  inv rq s es -> is_Some (channels s !! c) ->
  match type m with RESPONSE => has_response m || has_error m | _ => true end = true ->
  exists s' es', onMessage c m s = Ok (s', es') /\ inv (rq ++ received (EvMessage c m)) s' (es ++ es').
Proof.
  intros [(ended & Hp & Ha) Hq] [ch Hch] Hm. unfold onMessage. rewrite Hch. pose proof (Hq c ch Hch) as Hout.
  unfold onRpcMessage. cbn [assert_ bind]. destruct (type m) eqn:Ht.
  - cbn [received]. rewrite Ht. unfold onRequest. cbn [services_].
    destruct (decide (check_request (Some (view (services s))) m = NO_ERROR)) as [Hc|Hc]; cbn [bind].
    + eexists _, _. split; [reflexivity|]. split.
      * exists ended. cbn. rewrite app_nil_r. split; [|done]. by rewrite Hp, <- app_assoc.
      * intros c' ch'. cbn. destruct (decide (c' = c)) as [->|]; [rewrite lookup_insert_eq; by intros [= <-]|].
        rewrite lookup_insert_ne by done. apply Hq.
    + eexists _, _. split; [reflexivity|]. split.
      * exists (ended ++ [job_of c m]). cbn. rewrite app_nil_r. split.
        { rewrite Hp, <- !app_assoc. f_equiv. apply Permutation_app_comm. }
        apply Forall2_app; [done|]. constructor; [|constructor]. eexists. split; [reflexivity|]. cbn.
        split_and!; [done..|]. right. eauto.
      * intros c' ch'. cbn. destruct (decide (c' = c)) as [->|]; [rewrite lookup_insert_eq; by intros [= <-]|].
        rewrite lookup_insert_ne by done. apply Hq.
  - unfold onResponse. rewrite Hm. cbn [assert_ bind outstandings_]. rewrite Hout, lookup_empty. cbn.
    eexists _, _. split; [reflexivity|]. rewrite Ht. cbn. rewrite !app_nil_r. split; [by exists ended|].
    intros c' ch'. cbn. destruct (decide (c' = c)) as [->|]; [rewrite lookup_insert_eq; by intros [= <-]|].
    rewrite lookup_insert_ne by done. apply Hq.
  - cbn. eexists _, _. split; [reflexivity|]. rewrite Ht. cbn. rewrite !app_nil_r. split; [by exists ended|].
    intros c' ch'. cbn. destruct (decide (c' = c)) as [->|]; [rewrite lookup_insert_eq; by intros [= <-]|].
    rewrite lookup_insert_ne by done. apply Hq.
Qed.

Lemma done_inv rq s es i j :
  inv rq s es -> working s !! i = Some j -> is_Some (channels s !! j_conn j) ->
  exists s' es', step (EvDone i) s = Ok (s', es') /\ inv rq s' (es ++ es').
Proof.
  intros [(ended & Hp & Ha) Hq] Hi [ch Hch]. cbn [step]. rewrite Hi. unfold job_done. rewrite Hi, Hch.
  eexists _, _. split; [reflexivity|]. split; [|exact Hq].
  exists (ended ++ [j]). cbn [working]. split.
  - rewrite Hp, <- app_assoc. f_equiv. by apply delete_Permutation.
  - apply Forall2_app; [done|]. cbn. constructor; [|constructor]. eexists. split; [reflexivity|]. cbn.
    split_and!; [done..|]. by left.
Qed.

Lemma rpc_step_inv old rq s es e :
  inv rq s es -> allowed old s e = true ->
  exists s' es', step e s = Ok (s', es') /\ inv (rq ++ received e) s' (es ++ es').
Proof.
  intros Hi Hal. destruct e as [name sv|c up|c m|i]; cbn [allowed] in Hal.
  - eexists _, _. split; [reflexivity|]. cbn. rewrite !app_nil_r. by destruct Hi.
  - eexists _, _. split; [reflexivity|]. cbn [received]. rewrite !app_nil_r. destruct Hi as [Hj Hq].
    unfold onConnection. destruct up; (split; [exact Hj|]); cbn; intros c' ch'.
    + destruct (decide (c' = c)) as [->|]; [rewrite lookup_insert_eq; by intros [= <-]|].
      rewrite lookup_insert_ne by done. apply Hq.
    + intros [_ H]%lookup_delete_Some. by eapply Hq.
  - apply andb_true_iff in Hal as [Hc Hm]. apply bool_decide_eq_true in Hc. by apply message_inv.
  - destruct (working s !! i) as [j|] eqn:Hj; [|done]. apply bool_decide_eq_true in Hal. cbn [received]. rewrite app_nil_r.
    by eapply done_inv.
Qed.

(** An RPC server with any number of connections: no event fails; every request
    it has received is either with its service or was answered, once, on the
    connection it came from and under its number, with the result of its method
    or with an error. *)
Theorem rpc_server_answers old rq s es :
  reachable old rq s es ->
  (forall e, allowed old s e = true -> exists s' es', step e s = Ok (s', es')) /\
  exists ended, rq ≡ₚ ended ++ working s /\ Forall2 answers ended es.
Proof.
  intros Hr. assert (Hi : inv rq s es).
  { induction Hr as [|old rq s es e s' es' _ IH Hal E].
    - split; [by exists []|]. intros c ch H. change ((∅ : gmap nat RpcChannel) !! c = Some ch) in H. by rewrite lookup_empty in H.
    - destruct (rpc_step_inv old rq s es e IH Hal) as (s1 & es1 & E1 & H1). rewrite E in E1. by injection E1 as <- <-. }
  split; [|by destruct Hi]. intros e Hal. destruct (rpc_step_inv old rq s es e Hi Hal) as (s' & es' & E & _). eauto.
Qed.

End server.

Definition echo_service : Service := Service_ (fun _ => true) (fun _ _ => true).
Definition demo_answer (svc mth : string) (req : bytes) : bytes := req.
Definition demo_message (svc : string) (id : Z) : RpcMessage :=
  RpcMessage_ REQUEST id (Some svc) (Some "call"%string) (Some [z2b id]) None None.
Lemma rpc_demo : exists old rq s es, reachable demo_answer old rq s es /\ rq = [Job 3 "echo" "call" [z2b 1] 1; Job 3 "none" "call" [z2b 2] 2] /\
    working s = [Job 3 "echo" "call" [z2b 1] 1] /\ length es = 1%nat.
Proof.
  do 4 eexists. split; [|split; [|split]].
  - eapply (reachable_step _ _ _ _ _ (EvMessage 3 (demo_message "none" 2)));
      [eapply (reachable_step _ _ _ _ _ (EvMessage 3 (demo_message "echo" 1)));
        [eapply (reachable_step _ _ _ _ _ (EvConnection 3 true));
          [eapply (reachable_step _ _ _ _ _ (EvRegister "echo" echo_service)); [constructor|reflexivity..]
          |reflexivity..]
        |reflexivity..]
      |reflexivity..].
  - reflexivity.
  - reflexivity.
  - reflexivity.
Qed.

(** A service that is done after its connection has come down uses the channel
    that was deleted with it. *)
Theorem late_answer_fails answer :
  (fun s => step answer (EvDone 0) s.1) <$>
    (match bind (step answer (EvRegister "echo" echo_service) new_RpcServer) (fun s =>
           bind (step answer (EvConnection 3 true) s.1) (fun s =>
           bind (step answer (EvMessage 3 (demo_message "echo" 1)) s.1) (fun s =>
           step answer (EvConnection 3 false) s.1))) with Ok s => Some s | Crash _ => None end) = Some (Crash DeadObject).
Proof. vm_compute. reflexivity. Qed.

End RpcServer.
